(* ===== verification/_CoqProject ===== *)
-Q . S2P
Prelude.v
PyText.v
Regex.v
Tokens.v
WordRegex.v
Money.v
Receipts.v
Cart.v
Orders.v
OrderScope.v
OrderStore.v
OrderLedger.v
Spoken.v
Redaction.v
Identity.v
Authorization.v
Profile.v
Verification.v
OtpProvider.v
ProofStore.v
Catalog.v
Consent.v
Confirmation.v
ConfigResolver.v
SessionState.v
SessionCommit.v
SessionRefine.v
Encryption.v
Registry.v
RegistryLaws.v
RegistryInv.v
RegistryLog.v
RegistryProps.v
RegistryRefine.v
RegistryExamples.v
SessionClose.v
SessionCloseLaws.v
SessionCloseProps.v
SessionReap.v
SessionExamples.v
Requests.v
Reasoning.v
Clarification.v
Routing.v
Nodes.v
Stepup.v
SupportBase.v
Graph.v
SupportRefund.v
SupportCancel.v
SupportProfile.v
SupportGraph.v
SupportTypes.v
SupportExamples.v
Caller.v
IdentityFlow.v
SupportEntry.v
SupportEntryLaws.v
CartFlow.v
CartGraph.v
CartExamples.v
Frontline.v
Recovery.v
Checkpoint.v
Engine.v
