(* ===== verification/Prelude.v ===== *)
(** * Agnostic Market: a verification development

    Agnostic Market is a voice commerce agent.  A call is one session of one
    tenant: the caller's words are turned into requests, deterministic code
    decides whether they are authorised and confirmed, and tenant-scoped stores
    apply the effects (place, refund, return, cancel, change a profile) once per
    idempotency key.  A turn runs through a graph of nodes that share one
    conversation state; a node that fails is taken over by a recovery node.
    This library models that deterministic core (Python, under
    src/src/agnostic_market/) and proves what makes it correct.  Language
    models, the LangGraph engine, PostgreSQL, the cipher primitives, telephony and
    the management API are outside it: what the code relies on of them is stated
    as the laws of an interface or taken as an argument.

    ** Files and the code they model

    - [Prelude], [PyText], [Regex], [Tokens], [WordRegex]: exceptions, the
      state-and-exception monad [M], Python dictionaries, the [str] methods
      used, and two backtracking regular-expression matchers, each proved sound
      and complete for the language (or run relation) of its expressions.
    - [Money] (dtos/money.py), [Receipts] (commerce/receipts.py).
    - [Cart] (commerce/cart.py): [CartStore], its confirmed-mutation ledger and
      its export and restore.
    - [Orders], [OrderScope], [OrderStore] (commerce/orders.py): spoken order
      lines and records; the recent-order context and the guest scope; the
      order store, every public method a step.  [OrderLedger] holds its
      invariant, an abstract ledger of accounts, and the refinement.
    - [Spoken], [Redaction] (commerce/spoken.py): spoken digits, order
      references and contacts, and what the contact redaction removes.
    - [Identity], [Authorization] (commerce/identity.py): directory, contact
      claims, per-session identity, and the authorization predicates over the
      interface [OrderReads], which the order store implements.
    - [Profile] (commerce/profile.py, commerce/payment_instruments.py,
      commerce/fixture_integrity.py).
    - [Verification], [OtpProvider], [ProofStore] (commerce/verification.py):
      the one-time-code provider and the proof store over the interface
      [OtpPort] with the laws [OtpPortLaws], which the provider satisfies.
    - [Catalog] (commerce/catalog.py): word tokens, ranking, bounded results.
    - [Consent] (agents/_consent.py): closed consent and confirmations.
    - [Confirmation] (dtos/confirmation.py, agents/spoken_policy.py, the
      [PolicyContext] of dtos/state.py): readback contracts, verification
      floors, the sentences derived from enforced values.
    - [ConfigResolver] (config/resolver.py): layered configuration, the safety
      lock and the platform ceilings.
    - [SessionState], [SessionCommit], [SessionRefine]
      (durability/session_state.py, durability/session_payload.py, the
      publication of durability/session_registry.py): the session coordinator
      over the interface [SessionPersistence] with the laws
      [SessionPersistenceLaws], the registry row that satisfies them, and any
      number of workers sharing it.
    - [Encryption] (durability/encryption.py): envelopes and the data they are
      bound to, over the interface [Aead] with the laws [AeadLaws].
    - [Registry] (durability/session_registry.py, the constraints of
      durability/migrations.py, the authority checks of
      durability/postgres_checkpoints.py): every method of the registry as one
      transaction over the rows of all sessions.  [RegistryLaws]: each call
      changes nothing or is one [session_step] of one session, taken by an actor
      who holds the authority the step needs; [RegistryInv]: every session stays
      well formed; [RegistryLog]: every receipt and payload is traced to the
      publication it comes from; [RegistryProps]: fences, operations and
      soundness over any run of calls; [RegistryRefine]: a publication refines
      the row of [SessionState]; [RegistryExamples]: a codec, a cipher and
      histories that satisfy every hypothesis.
    - [SessionClose] (durability/session_lifecycle.py, the thread deletion of
      checkpoints.py): the fenced close, its closer, the reaper of one tenant
      and of all.  [SessionCloseLaws]: what each transaction of a close does;
      [SessionCloseProps]: the close completes; [SessionReap]: the reaper;
      [SessionExamples]: witnesses.

    - [Requests] (dtos/orchestration.py): the closed union of requests, route
      decisions, dispatch envelopes, the principal-transition projection.
      [Reasoning] (dtos/state.py, agents/_toolcalls.py): the conversation
      state, its reducers, readers and validators; an update of the state is a
      list of [Write]s.
    - [Clarification] (agents/clarification.py, agents/capabilities.py): budgets
      of questions; the typed capability registry.
    - [Routing] (agents/routing.py, the proposals and contexts of
      dtos/orchestration.py): what a model's proposal becomes, and what the
      resolver lets through.
    - [Nodes] (agents/_person_question.py): computations that consume recorded
      replies, and the confirmations every readback runs.
    - [Stepup] (agents/support/_stepup.py): the one-time-code chain.
    - [SupportBase], [SupportRefund], [SupportCancel], [SupportProfile]
      (agents/support/flow.py): the world the nodes act on; refunds and returns;
      cancellations; profile changes.  [SupportGraph]
      (agents/frontline/graph.py): their registration and edges, as an instance
      of [Graph], the runs of a graph; [SupportTypes]: the state stays typed;
      [SupportExamples]: a small shop, and the witnesses.
    - [Caller] (session.py): the owner of one session, its principal
      transitions and its close.
    - [SupportEntry] (agents/support/flow.py): the typed entry of the support
      flow, what a proposal may ground and the order list; [SupportEntryLaws]:
      its routing and what its answers reveal.
    - [IdentityFlow] (agents/identity/flow.py), [CartFlow] (agents/cart/flow.py):
      the nodes of the two flows.  [CartGraph]: the wiring of the cart;
      [CartExamples]: its witnesses.
    - [Frontline] (agents/frontline/graph.py): entry, dispatch, the turns the
      router cannot place, warnings, views, handover and what resets a turn.
    - [Recovery] (agents/recovery.py): the node policies of the whole graph, the
      error handlers and the recovery node.
    - [Checkpoint] (agents/engine.py): what a cancelled turn left on its thread,
      recovery markers, and the two ways a restored session is made ready.
    - [Engine] (agents/engine.py): the admission of a turn, its answer to a
      waiting readback and its dispatch to the owner of an open request.

    ** How state and operations correspond

    A class instance is a record of its attributes; a method is a function in
    [M S], from the state to the state it leaves and a value or an exception,
    and an exception keeps the assignments made before it, as in Python.  A
    method that runs under a lock is one atomic step.  Clock readings, fresh
    uuids and what a database transaction observes are arguments.  A dictionary
    is an association list in insertion order.  Pydantic construction is a
    boolean of the declared constraints and validators.

    ** What the theorems show

    - Money: no order returns more than it captured; the store refines the
      abstract ledger; an effect happens once per key; a refused call changes
      nothing; an order's status only moves along its life cycle.
    - Cart and recent orders: every method keeps the store well formed, a
      confirmed mutation has its confirmed effect once, export and restore are
      inverse, the context stays within its bound.
    - Authority: no order is read without authority, contact grants are all or
      nothing, a proof of verification only comes from the provider's own
      verdict, guesses are bounded by the budget, cleanup stays in the session.
    - Words: redacted text holds no contact, spoken order references are well
      formed, a reply is a yes exactly when it is in the affirmative grammar,
      a negation always wins, an unheard readback never authorises, a readback
      speaks every declared field, names match by runs of words, searches
      return the best ten.
    - Configuration: locked paths keep the base's value (unless an ancestor is
      replaced by something that is not a mapping), every tunable value is
      within the base's ceiling, merging is last-wins along paths.
    - Sessions: a call is atomic, an operation is applied once per coordinator
      and once per row across workers, and the workers refine one serial
      session: no update is lost.
    - The registry: over any calls of any workers, sessions stay well formed,
      every receipt restores to the result of the publication that wrote it, an
      operation of a session that is not purged commits once, whoever lost the
      fence changes nothing (or resumes the close the session is already under),
      a publication refines the abstract row.  Closing: one calm attempt ends a
      close from whatever an earlier one left, with nothing kept; a calm sweep
      closes the expired sessions it lists; one tenant's failure stops no other.

    - Turns: an effect only runs after a readback of the same pending action
      that was answered with a yes, in time and on sufficient proof; a checkout
      places what was read back, once; no model authors a quantity or a price;
      the code chain ends, and a batch completes; every request has an owner
      and is dispatched only for the turn that admitted it; turns nobody can
      place, and failed identifications, reach a person with nothing left open,
      and a handover ends the automation.
    - The support entry: an action is prepared only with authority over every
      order it names and only from what the caller said; an unbound caller's
      answer does not depend on the orders it cannot reach (a bound caller's
      does, which is proved too); every prepared action reaches its guardrail.
    - Checkpoints: an abandoned turn is recovered or refused, a restored
      readback is asked again, a session ahead of its checkpoint is explained by
      the operation that committed it.
    - Callers: a customer is bound only by its own challenge, a transition is all
      or nothing, an invalidation and a close leave nobody with authority.
    - Failures: recovery runs no effect, settles the turn, and tells of an effect
      what the ledger holds.

    ** Bounds and fuel

    The matcher's star runs with the length of the text, since an iteration
    that consumes nothing is not repeated; [finditer] and [sub] with the length
    of what is left.  The work list of the affirmative grammar runs with
    [affirm_fuel], 2 + 64 (n + 1) for n words: each of its 2 (n + 1) states is
    expanded once and pushes at most 31; its theorem includes that it ends.
    Every other recursion is structural.

    ** Limits of the model

    Text is ASCII (the typographic apostrophe of a consent reply excepted), so
    [casefold] is [lower].  Amounts are whole cents, times are integers.  The
    JSON and SHA-256 of a session request are one function from requests to
    fingerprints, a parameter of the session theorems.  The schema
    validation of a merged merchant configuration is a parameter.  A worker
    that discards its session projection is taken not to use it again.  Fixture
    and YAML files are read elsewhere: their parsed content is an argument.

    A reply of a language model is an input of the node that asks for it, and
    so is what a close is answered by the engine and the lease.  Telemetry and
    prompt texts are not modelled.  How LangGraph merges message lists is a
    parameter; a node that is interrupted and resumed is its last run, from the
    first line, on the replies recorded so far.

    A FOR UPDATE transaction is one atomic step, with the loss of the connection
    before or after its commit; SKIP LOCKED, row-level security and the mechanics
    of migrations are not modelled, nor is a datetime that leaves its range.  The
    tables of the checkpoint library are one list of the threads they hold.  The
    laws assumed are those of AES-GCM ([AeadLaws]), of the JSON of a payload
    ([PayloadCodecLaws]), of a saved thread ([ThreadLaws]) and of the providers
    behind a port; [RegistryExamples] and the example files instantiate them.
    Liveness of a close is proved in calm: no other worker acts, no connection
    is lost, and two calls take less time than the close lease lasts.

    ** Not modelled

    The read flow and the prompts around model calls; the renewal loop of a
    lease, the tenant inventory and the process composition; the encrypted
    serialisers of the checkpoint library; the voice plane, the model gateway and
    the management API: they are pure input and output, wiring, or calls of
    libraries. *)

From stdpp Require Export base tactics list list_numbers strings option numbers relations pretty.
From Stdlib Require Export Ascii ZArith Lia.


Declare Scope py_scope.
Delimit Scope py_scope with py.
Open Scope string_scope.
Open Scope Z_scope.
Open Scope list_scope.

(** ** Exceptions

    The exception classes the modelled code raises or catches.  An exception
    value is its class and the static head of its message. *)
Inductive exc_class :=
  | ValidationError | ValueError | TypeError | RuntimeError | KeyError | IndexError
  | AssertionError | CancelledError | BaseExceptionGroup | TimeoutError
  | PlacementError | RefundError | CancelError | ReturnError | ProfileError
  | CartMutationError | ConfigError | VerificationContractError | OtpChallengeConflictError
  | SafetyLockViolationError | PolicyBoundsViolationError | ConfigResolutionError
  | SessionStateWriteError | SessionRegistryDataError | LeaseAdmissionError | StateSchemaError
  | CheckpointSchemaError | CheckpointScopeError | SessionRestoreError | AttributeError
  | CapabilityRegistryError | TenantResolutionError | UnknownMerchantError
  | SessionRegistryError | SessionCloseError | SessionEnvelopeError | PsycopgError | UniqueViolation
  | CheckpointDataPlaneError | CheckpointDeletionError | TenantLifecycleInventoryError | TenantReapFailure
  | ReaperCycleFailure | PlatformSchemaError | VoiceEngineError.

#[export] Instance exc_class_eq_dec : EqDecision exc_class.
Proof. solve_decision. Defined.

Record exc := Exc { exc_cls : exc_class; exc_msg : string }.

#[export] Instance exc_eq_dec : EqDecision exc.
Proof. solve_decision. Defined.

(** ** Results and the state-and-exception monad

    A raising computation is [exc + A].  A method of a mutable object is
    [M S A]: it maps the object's state to the state it leaves behind and the
    value or exception it ends with.  As in Python an exception does not undo
    the assignments made before it. *)
Abbreviation res A := (exc + A)%type.

Definition M (S A : Type) : Type := S → S * res A.

#[export] Instance M_ret {S} : MRet (M S) := λ A a s, (s, inr a).
#[export] Instance M_bind {S} : MBind (M S) := λ A B f m s,
  match m s with
  | (s', inl e) => (s', inl e)
  | (s', inr a) => f a s'
  end.

#[export] Instance res_ret : MRet (sum exc) := λ A a, inr a.
#[export] Instance res_bind : MBind (sum exc) := λ A B f m,
  match m with inl e => inl e | inr a => f a end.

Definition get {S} : M S S := λ s, (s, inr s).
Definition put {S} (s : S) : M S unit := λ _, (s, inr tt).
Definition modify {S} (f : S → S) : M S unit := λ s, (f s, inr tt).
Definition raise {S A} (c : exc_class) (m : string) : M S A := λ s, (s, inl (Exc c m)).
Definition lift {S A} (r : res A) : M S A := λ s, (s, r).
Definition raises {A} (c : exc_class) (m : string) : res A := inl (Exc c m).

(** [if not condition: raise ...] *)
Definition require {S} (b : bool) (c : exc_class) (m : string) : M S unit :=
  if b then mret tt else raise c m.
Definition requires (b : bool) (c : exc_class) (m : string) : res unit :=
  if b then inr tt else raises c m.

(** pydantic model construction: the model value when its declared constraints
    and validators hold, [ValidationError] otherwise. *)
Definition validated {A} (b : bool) (a : A) : res A :=
  if b then inr a else raises ValidationError "".

Definition is_ok {A} (r : res A) : bool := match r with inr _ => true | inl _ => false end.

(** Unfolds the monad to plain matches. *)
Ltac munfold :=
  cbv [mbind M_bind mret M_ret res_bind res_ret get put modify raise lift raises require requires
       validated] in *.
Ltac munfold_goal :=
  cbv [mbind M_bind mret M_ret res_bind res_ret get put modify raise lift raises require requires
       validated].

(** Steps through every branch of an unfolded computation. *)
Ltac mcases := repeat (first [progress simplify_eq/= | case_match]).

Lemma requires_then {A} b c m (k : res A) v :
  (requires b c m ;; k) = inr v ↔ b = true ∧ k = inr v.
Proof. munfold. destruct b; naive_solver. Qed.

Lemma requires_ok b c m : requires b c m = inr tt ↔ b = true.
Proof. munfold. destruct b; naive_solver. Qed.

(** ** Booleans *)
Lemma bool_decide_true_iff (P : Prop) `{Decision P} : bool_decide P = true ↔ P.
Proof. by rewrite bool_decide_eq_true. Qed.

Ltac bools :=
  repeat match goal with
  | H : _ && _ = true |- _ => apply andb_true_iff in H as [? ?]
  | H : _ || _ = false |- _ => apply orb_false_iff in H as [? ?]
  | H : negb _ = true |- _ => apply negb_true_iff in H
  | H : negb _ = false |- _ => apply negb_false_iff in H
  | H : bool_decide _ = true |- _ => apply bool_decide_eq_true in H
  | H : bool_decide _ = false |- _ => apply bool_decide_eq_false in H
  | H : (_ <=? _)%Z = true |- _ => apply Z.leb_le in H
  | H : (_ <=? _)%Z = false |- _ => apply Z.leb_gt in H
  | H : (_ <? _)%Z = true |- _ => apply Z.ltb_lt in H
  | H : (_ <? _)%Z = false |- _ => apply Z.ltb_ge in H
  | H : (_ =? _)%Z = true |- _ => apply Z.eqb_eq in H
  | H : (_ =? _)%Z = false |- _ => apply Z.eqb_neq in H
  end.

Lemma forallb_elem {A} (f : A → bool) (P : A → Prop) l :
  (∀ x, f x = true ↔ P x) → forallb f l = true ↔ ∀ x, x ∈ l → P x.
Proof.
  intros Hf. rewrite forallb_forall. split; intros H x Hx; apply Hf, H, list_elem_of_In, Hx.
Qed.

(** ** Python dictionaries

    A [dict] keeps its keys in insertion order; assigning an existing key
    keeps its position, deleting removes the entry. *)
Section dict.
  Context {K V : Type} `{!EqDecision K}.
  Implicit Types (d : list (K * V)) (k : K) (v : V).

Fixpoint dget k d : option V :=
    match d with
    | [] => None
    | (k', v) :: d' => if decide (k' = k) then Some v else dget k d'
    end.

Fixpoint dset k v d : list (K * V) :=
    match d with
    | [] => [(k, v)]
    | (k', v') :: d' => if decide (k' = k) then (k', v) :: d' else (k', v') :: dset k v d'
    end.

Fixpoint dpop k d : list (K * V) :=
    match d with
    | [] => []
    | (k', v') :: d' => if decide (k' = k) then d' else (k', v') :: dpop k d'
    end.

Definition dkeys d : list K := d.*1.
Definition dvalues d : list V := d.*2.
Definition dmem k d : bool := match dget k d with Some _ => true | None => false end.

  (** [{k: v for k, v in l}] *)
Definition dict_of (l : list (K * V)) : list (K * V) :=
    foldl (λ d '(k, v), dset k v d) [] l.

Lemma dget_dset_eq k v d : dget k (dset k v d) = Some v.
  Proof. induction d as [|[k' v'] d IH]; simpl; repeat (case_decide; simpl); congruence. Qed.

Lemma dget_dset_ne k k' v d : k ≠ k' → dget k' (dset k v d) = dget k' d.
  Proof.
    intros; induction d as [|[k0 v0] d IH]; simpl; repeat (case_decide; simpl); congruence.
  Qed.

Lemma dget_dset k k' v d :
    dget k' (dset k v d) = if decide (k = k') then Some v else dget k' d.
  Proof. case_decide; subst; [apply dget_dset_eq | by apply dget_dset_ne]. Qed.

Lemma dget_None k d : dget k d = None ↔ k ∉ dkeys d.
  Proof.
    induction d as [|[k' v'] d IH]; simpl; [set_solver|].
    unfold dkeys in *. case_decide; simpl; subst; [|rewrite IH]; set_solver.
  Qed.

Lemma dget_Some_elem k v d : dget k d = Some v → (k, v) ∈ d.
  Proof.
    induction d as [|[k' v'] d IH]; simpl; [done|].
    case_decide; intros; simplify_eq; [left | right]; auto.
  Qed.

Lemma elem_dget k v d : NoDup (dkeys d) → (k, v) ∈ d → dget k d = Some v.
  Proof.
    induction d as [|[k' v'] d IH]; simpl; [set_solver|].
    intros [Hn Hd]%NoDup_cons [?|Hin]%elem_of_cons; simplify_eq.
    - by rewrite decide_True.
    - case_decide; subst; [|by apply IH].
      destruct Hn. apply list_elem_of_fmap. by exists (k, v).
  Qed.

Lemma dset_fresh k v d : dget k d = None → dset k v d = d ++ [(k, v)].
  Proof.
    induction d as [|[k' v'] d IH]; simpl; [done|].
    case_decide; [done|]. intros; by rewrite IH.
  Qed.

Lemma dkeys_dset_fresh k v d : dget k d = None → dkeys (dset k v d) = dkeys d ++ [k].
  Proof. intros. rewrite dset_fresh by done. unfold dkeys. by rewrite fmap_app. Qed.

Lemma dkeys_dset_mem k v v' d : dget k d = Some v' → dkeys (dset k v d) = dkeys d.
  Proof.
    induction d as [|[k0 v0] d IH]; simpl; [done|].
    case_decide; simpl; [done|]. intros. unfold dkeys in *; simpl. by rewrite IH.
  Qed.

Lemma dset_NoDup k v d : NoDup (dkeys d) → NoDup (dkeys (dset k v d)).
  Proof.
    intros. destruct (dget k d) as [v'|] eqn:E.
    - by erewrite dkeys_dset_mem.
    - rewrite dkeys_dset_fresh by done. apply NoDup_app. split_and!; [done| |apply NoDup_singleton].
      apply dget_None in E. set_solver.
  Qed.

Lemma dget_dpop_ne k k' d : k ≠ k' → dget k' (dpop k d) = dget k' d.
  Proof.
    intros; induction d as [|[k0 v0] d IH]; simpl; repeat (case_decide; simpl); congruence.
  Qed.

Lemma dkeys_dpop_sub k d : dkeys (dpop k d) ⊆ dkeys d.
  Proof.
    induction d as [|[k0 v0] d IH]; simpl; [done|]. unfold dkeys in *.
    case_decide; simpl; set_solver.
  Qed.

Lemma dpop_sub k d : dpop k d ⊆ d.
  Proof. induction d as [|[k0 v0] d IH]; simpl; [done|]. case_decide; set_solver. Qed.

Lemma dpop_NoDup k d : NoDup (dkeys d) → NoDup (dkeys (dpop k d)).
  Proof.
    induction d as [|[k0 v0] d IH]; simpl; [done|].
    intros [Hn Hd]%NoDup_cons. case_decide; [done|]. apply NoDup_cons. split; [|by apply IH].
    intros ?%dkeys_dpop_sub. done.
  Qed.

Lemma dget_dpop_eq k d : NoDup (dkeys d) → dget k (dpop k d) = None.
  Proof.
    induction d as [|[k0 v0] d IH]; simpl; [done|].
    intros [Hn Hd]%NoDup_cons. case_decide; subst; [by apply dget_None|].
    simpl. rewrite decide_False by done. auto.
  Qed.

Lemma elem_dset k v d kv : kv ∈ dset k v d → kv = (k, v) ∨ kv ∈ d.
  Proof.
    induction d as [|[k0 v0] d IH]; simpl; [set_solver|]. case_decide; subst; set_solver.
  Qed.

Lemma dset_Forall (P : K * V → Prop) k v d : P (k, v) → Forall P d → Forall P (dset k v d).
  Proof. rewrite !Forall_forall. intros ? H kv [->|?]%elem_dset; auto. Qed.

Lemma dpop_Forall (P : K * V → Prop) k d : Forall P d → Forall P (dpop k d).
  Proof. rewrite !Forall_forall. intros H kv ?%dpop_sub. auto. Qed.

Lemma foldl_dset_app d l :
    NoDup (dkeys (d ++ l)) → foldl (λ d '(k, v), dset k v d) d l = d ++ l.
  Proof.
    revert d; induction l as [|[k v] l IH]; intros d Hnd; simpl; [by rewrite app_nil_r|].
    assert (dget k d = None) as Hk.
    { apply dget_None. unfold dkeys in Hnd. rewrite fmap_app in Hnd. simpl in Hnd.
      apply NoDup_app in Hnd as (_ & Hd & _). set_solver. }
    rewrite dset_fresh by done. rewrite IH; [by rewrite <-app_assoc|].
    by rewrite <-app_assoc.
  Qed.

  (** Rebuilding a dictionary from its items is the identity. *)
Lemma dict_of_id d : NoDup (dkeys d) → dict_of d = d.
  Proof. intros. unfold dict_of. by rewrite foldl_dset_app. Qed.

Lemma dset_dset k v v' d : dset k v (dset k v' d) = dset k v d.
  Proof.
    induction d as [|[k0 v0] d IH]; simpl; [by rewrite decide_True|].
    case_decide; simpl; [by rewrite decide_True|]. rewrite decide_False by done. by rewrite IH.
  Qed.

Lemma dget_dpop k k' d :
    NoDup (dkeys d) → dget k' (dpop k d) = if decide (k = k') then None else dget k' d.
  Proof. intros. case_decide; subst; [by apply dget_dpop_eq|by apply dget_dpop_ne]. Qed.

Lemma length_dset_fresh k v d : dget k d = None → length (dset k v d) = S (length d).
  Proof. intros. rewrite dset_fresh by done. rewrite length_app. simpl. lia. Qed.

Lemma foldl_dset_NoDup l : ∀ d, NoDup (dkeys d) →
    NoDup (dkeys (foldl (λ d '(k, v), dset k v d) d l)).
  Proof. induction l as [|[k v] l IH]; intros; simpl; [done|]. by apply IH, dset_NoDup. Qed.

Lemma dict_of_NoDup l : NoDup (dkeys (dict_of l)).
  Proof. apply foldl_dset_NoDup. constructor. Qed.
End dict.

Create HintDb pydict.
#[export] Hint Resolve dset_NoDup dpop_NoDup dset_Forall dpop_Forall dict_of_NoDup : pydict.
Create Rewrite HintDb pydict_rw.
#[export] Hint Rewrite @dget_dset_eq : pydict_rw.

(** [tuple(dict.fromkeys(xs))]: the distinct elements in first-seen order. *)
Fixpoint fromkeys_go {A} `{!EqDecision A} (seen : list A) (l : list A) : list A :=
  match l with
  | [] => []
  | x :: l' => if decide (x ∈ seen) then fromkeys_go seen l' else x :: fromkeys_go (x :: seen) l'
  end.
Definition fromkeys {A} `{!EqDecision A} (l : list A) : list A := fromkeys_go [] l.

Section fromkeys.
  Context {A : Type} `{!EqDecision A}.

Lemma elem_of_fromkeys_go seen (l : list A) x :
    x ∈ fromkeys_go seen l ↔ x ∈ l ∧ x ∉ seen.
  Proof.
    revert seen; induction l as [|y l IH]; intros seen; simpl; [set_solver|].
    case_decide; [rewrite IH; set_solver|].
    rewrite elem_of_cons, IH. destruct (decide (x = y)); set_solver.
  Qed.

Lemma elem_of_fromkeys (l : list A) x : x ∈ fromkeys l ↔ x ∈ l.
  Proof. unfold fromkeys. rewrite elem_of_fromkeys_go. set_solver. Qed.

Lemma fromkeys_go_NoDup seen (l : list A) : NoDup (fromkeys_go seen l).
  Proof.
    revert seen; induction l as [|y l IH]; intros seen; simpl; [constructor|].
    case_decide; [done|]. apply NoDup_cons. split; [|done].
    rewrite elem_of_fromkeys_go. set_solver.
  Qed.

Lemma fromkeys_NoDup (l : list A) : NoDup (fromkeys l).
  Proof. apply fromkeys_go_NoDup. Qed.
End fromkeys.

#[export] Hint Resolve fromkeys_NoDup : pydict.

(** [l[-n:]] for [n >= 1]: the last [n] elements. *)
Definition last_n {A} (n : nat) (l : list A) : list A := drop (length l - n) l.

Lemma last_n_sub {A} n (l : list A) : last_n n l ⊆ l.
Proof. intros x. unfold last_n. rewrite <-(take_drop (length l - n) l) at 3. set_solver. Qed.

Lemma last_n_length {A} n (l : list A) : (length (last_n n l) ≤ n)%nat.
Proof. unfold last_n. rewrite length_drop. lia. Qed.

Lemma last_n_NoDup {A} n (l : list A) : NoDup l → NoDup (last_n n l).
Proof.
  intros H. unfold last_n. rewrite <-(take_drop (length l - n) l) in H.
  by apply NoDup_app in H as (_ & _ & ?).
Qed.

Lemma last_n_all {A} n (l : list A) : (length l ≤ n)%nat → last_n n l = l.
Proof. intros. unfold last_n. by replace (length l - n)%nat with 0%nat by lia. Qed.

(** Decidable equality of a bool-valued match on an option. *)
Definition isSome {A} (o : option A) : bool := match o with Some _ => true | None => false end.

(** [sum(xs, start=Decimal("0"))] over amounts in cents. *)
Definition sumZ (l : list Z) : Z := foldr Z.add 0 l.

Lemma sumZ_app l1 l2 : sumZ (l1 ++ l2) = sumZ l1 + sumZ l2.
Proof. induction l1; simpl; lia. Qed.

Lemma sumZ_nonneg l : Forall (λ x, 0 ≤ x) l → 0 ≤ sumZ l.
Proof. induction 1; simpl; lia. Qed.

(** ** Filters *)
Lemma filter_fmap {A B} (f : A → B) (P : B → Prop) `{!∀ x, Decision (P x)} (l : list A) :
  base.filter P (f <$> l) = f <$> base.filter (λ x, P (f x)) l.
Proof.
  induction l as [|x l IH]; [done|]. rewrite fmap_cons, !filter_cons.
  case_decide; [rewrite fmap_cons|]; by rewrite IH.
Qed.

Lemma filter_ext_elem {A} (P Q : A → Prop) `{!∀ x, Decision (P x), !∀ x, Decision (Q x)} (l : list A) :
  (∀ x, x ∈ l → P x ↔ Q x) → base.filter P l = base.filter Q l.
Proof.
  induction l as [|x l IH]; intros Hext; [done|]. rewrite !filter_cons, IH by set_solver.
  specialize (Hext x ltac:(left)). repeat case_decide; tauto.
Qed.

Lemma filter_all_true {A} (P : A → Prop) `{!∀ x, Decision (P x)} (l : list A) :
  (∀ x, x ∈ l → P x) → base.filter P l = l.
Proof.
  induction l as [|x l IH]; intros HP; [done|].
  rewrite filter_cons, decide_True, IH; [done|set_solver..].
Qed.
