(* ===== verification/PyText.v ===== *)
(** * Python text operations

    The [str] methods the source uses, on ASCII text: [strip], [upper],
    [lower] (which is [casefold] on ASCII), [isdigit], [isalnum], [in],
    [endswith], [split], [join], [replace], decimal rendering, and the lemmas
    about the order-reference normal form [x.strip().upper()]. *)

From S2P Require Import Prelude.

Definition code (c : ascii) : nat := nat_of_ascii c.
Definition between (a b : nat) (c : ascii) : bool :=
  (a <=? code c)%nat && (code c <=? b)%nat.

(** [str.isspace] on ASCII: TAB, LF, VT, FF, CR, FS, GS, RS, US and space. *)
Definition is_space (c : ascii) : bool := between 9 13 c || between 28 32 c.
Definition is_digit (c : ascii) : bool := between 48 57 c.
Definition is_lower (c : ascii) : bool := between 97 122 c.
Definition is_upper (c : ascii) : bool := between 65 90 c.
Definition is_alnum (c : ascii) : bool := is_digit c || is_lower c || is_upper c.

Definition upper_char (c : ascii) : ascii :=
  if is_lower c then ascii_of_nat (code c - 32) else c.
Definition lower_char (c : ascii) : ascii :=
  if is_upper c then ascii_of_nat (code c + 32) else c.

Fixpoint smap (f : ascii → ascii) (s : string) : string :=
  match s with "" => "" | String c s' => String (f c) (smap f s') end.
Fixpoint sfilter (f : ascii → bool) (s : string) : string :=
  match s with
  | "" => ""
  | String c s' => if f c then String c (sfilter f s') else sfilter f s'
  end.
Fixpoint sexists (f : ascii → bool) (s : string) : bool :=
  match s with "" => false | String c s' => f c || sexists f s' end.
Fixpoint sforall (f : ascii → bool) (s : string) : bool :=
  match s with "" => true | String c s' => f c && sforall f s' end.

Definition upper : string → string := smap upper_char.
Definition lower : string → string := smap lower_char.

Fixpoint lstrip (s : string) : string :=
  match s with "" => "" | String c s' => if is_space c then lstrip s' else s end.
Fixpoint rstrip (s : string) : string :=
  match s with
  | "" => ""
  | String c s' =>
      let r := rstrip s' in
      if is_space c && String.eqb r "" then "" else String c r
  end.
Definition strip (s : string) : string := rstrip (lstrip s).

(** The normal form of an order reference, [x.strip().upper()]. *)
Definition canon (s : string) : string := upper (strip s).

Definition blank (s : string) : bool := String.eqb (strip s) "".
Definition nonempty (s : string) : bool := negb (String.eqb s "").

(** [needle in hay], [s.startswith(p)], [s.endswith(p)]. *)
Fixpoint starts_with (p s : string) : bool :=
  match p, s with
  | "", _ => true
  | String a p', String b s' => Ascii.eqb a b && starts_with p' s'
  | String _ _, "" => false
  end.
Fixpoint py_in (needle hay : string) : bool :=
  starts_with needle hay ||
  match hay with "" => false | String _ h => py_in needle h end.
Fixpoint srev_go (acc s : string) : string :=
  match s with "" => acc | String c s' => srev_go (String c acc) s' end.
Definition srev : string → string := srev_go "".
Definition ends_with (p s : string) : bool := starts_with (srev p) (srev s).

(** [sep.join(parts)] *)
Fixpoint join (sep : string) (l : list string) : string :=
  match l with
  | [] => ""
  | [x] => x
  | x :: l' => x +:+ sep +:+ join sep l'
  end.

(** [s.replace(c, by)] for a one-character pattern. *)
Fixpoint replace_char (c : ascii) (by_ s : string) : string :=
  match s with
  | "" => ""
  | String a s' =>
      if Ascii.eqb a c then by_ +:+ replace_char c by_ s' else String a (replace_char c by_ s')
  end.

(** [s.split()]: the maximal runs of non-space characters. *)
Fixpoint split_go (cur s : string) : list string :=
  match s with
  | "" => if String.eqb cur "" then [] else [srev cur]
  | String c s' =>
      if is_space c then
        if String.eqb cur "" then split_go "" s' else srev cur :: split_go "" s'
      else split_go (String c cur) s'
  end.
Definition split : string → list string := split_go "".

(** [s[0].upper() + s[1:]] *)
Definition capitalize_head (s : string) : string :=
  match s with "" => "" | String c s' => String (upper_char c) s' end.

(** [str(n)] for an integer. *)
Definition str_int (z : Z) : string := pretty z.

Definition char_of_digit (n : Z) : ascii := ascii_of_nat (Z.to_nat (48 + n)).

(** [f"{amount:.2f}"] for a non-negative amount in cents. *)
Definition str_usd (cents : Z) : string :=
  str_int (cents / 100) +:+ "." +:+
  String (char_of_digit ((cents mod 100) / 10))
    (String (char_of_digit (cents mod 10)) "").

Definition dquote : string := String (ascii_of_nat 34) "".

(** ** Lemmas *)
Lemma ascii_cases (P : ascii → Prop) :
  (∀ n, (n < 256)%nat → P (ascii_of_nat n)) → ∀ c, P c.
Proof. intros H c. rewrite <-(ascii_nat_embedding c). apply H, nat_ascii_bounded. Qed.

(** Decides a boolean statement about every character by enumeration. *)
Definition all_ascii (f : ascii → bool) : bool :=
  forallb (λ n, f (ascii_of_nat n)) (seq 0 256).

Lemma all_ascii_spec f : all_ascii f = true → ∀ c, f c = true.
Proof.
  intros H. apply ascii_cases. intros n Hn.
  apply forallb_forall with (x := n) in H; [done|]. apply in_seq. lia.
Qed.

Lemma upper_char_space c : is_space (upper_char c) = is_space c.
Proof.
  apply eqb_prop, (all_ascii_spec (λ c, Bool.eqb (is_space (upper_char c)) (is_space c))).
  by vm_compute.
Qed.

Lemma upper_char_idem c : upper_char (upper_char c) = upper_char c.
Proof.
  apply Ascii.eqb_eq, (all_ascii_spec (λ c, Ascii.eqb (upper_char (upper_char c)) (upper_char c))).
  by vm_compute.
Qed.

Lemma smap_empty f s : smap f s = "" ↔ s = "".
Proof. by destruct s. Qed.

Lemma eqb_smap_empty f s : String.eqb (smap f s) "" = String.eqb s "".
Proof. by destruct s. Qed.

Lemma upper_idem s : upper (upper s) = upper s.
Proof. unfold upper. induction s; simpl; [done|]. by rewrite upper_char_idem, IHs. Qed.

Lemma lstrip_upper s : lstrip (upper s) = upper (lstrip s).
Proof.
  unfold upper. induction s as [|c s IH]; simpl; [done|].
  rewrite upper_char_space. by destruct (is_space c).
Qed.

Lemma rstrip_upper s : rstrip (upper s) = upper (rstrip s).
Proof.
  unfold upper. induction s as [|c s IH]; simpl; [done|].
  rewrite upper_char_space, IH, eqb_smap_empty. by destruct (is_space c && _).
Qed.

Lemma strip_upper s : strip (upper s) = upper (strip s).
Proof. unfold strip. by rewrite lstrip_upper, rstrip_upper. Qed.

Lemma rstrip_idem s : rstrip (rstrip s) = rstrip s.
Proof.
  induction s as [|c s IH]; simpl; [done|].
  destruct (is_space c && String.eqb (rstrip s) "") eqn:E; [done|].
  simpl. by rewrite IH, E.
Qed.

(** A text is stripped when it neither starts nor ends with white space. *)
Definition head_ok (s : string) : bool :=
  match s with "" => true | String c _ => negb (is_space c) end.

Lemma lstrip_head_ok s : head_ok (lstrip s) = true.
Proof. induction s as [|c s IH]; simpl; [done|]. destruct (is_space c) eqn:E; simpl; by rewrite ?E. Qed.

Lemma lstrip_id s : head_ok s = true → lstrip s = s.
Proof. destruct s as [|c s]; simpl; [done|]. by destruct (is_space c). Qed.

Lemma rstrip_head_ok s : head_ok s = true → head_ok (rstrip s) = true.
Proof. destruct s as [|c s]; simpl; [done|]. destruct (is_space c) eqn:E; simpl; by rewrite ?E. Qed.

Lemma strip_idem s : strip (strip s) = strip s.
Proof.
  unfold strip at 1. rewrite lstrip_id by (apply rstrip_head_ok, lstrip_head_ok).
  apply rstrip_idem.
Qed.

(** The normal form of an order reference is idempotent. *)
Lemma canon_idem s : canon (canon s) = canon s.
Proof. unfold canon. by rewrite strip_upper, strip_idem, upper_idem. Qed.

Lemma strip_canon s : strip (canon s) = canon s.
Proof. unfold canon. by rewrite strip_upper, strip_idem. Qed.

Lemma blank_strip s : blank (strip s) = blank s.
Proof. unfold blank. by rewrite strip_idem. Qed.

Lemma canon_empty s : canon s = "" ↔ blank s = true.
Proof. unfold canon, blank, upper. rewrite smap_empty. by rewrite String.eqb_eq. Qed.

Lemma nonempty_spec s : nonempty s = true ↔ s ≠ "".
Proof. unfold nonempty. rewrite negb_true_iff. destruct (String.eqb_spec s ""); naive_solver. Qed.

Lemma blank_false_nonempty s : blank s = false → s ≠ "".
Proof. intros H ->. done. Qed.

#[export] Hint Resolve canon_idem strip_canon strip_idem : pydict.

(** Sequence-numbered identifiers are injective in their number. *)
Lemma app_string_inj_l (p a b : string) : p +:+ a = p +:+ b → a = b.
Proof. induction p; simpl; [done|]. intros H. injection H. auto. Qed.

Lemma str_int_inj p a b : p +:+ str_int a = p +:+ str_int b → a = b.
Proof. intros H%app_string_inj_l. by apply (inj pretty). Qed.
