(* ===== verification/Regex.v ===== *)
(** * Regular expressions of Python's [re]

    The constructs the source uses: character classes, concatenation, the
    greedy [?], [*] and [+], [fullmatch], [finditer] and [sub].  The matcher
    backtracks in Python's priority order: an optional or repeated part is
    taken as long as the rest can still match.  It is proved sound and complete
    for the language of the expression. *)

From S2P Require Import Prelude PyText.
Local Open Scope nat_scope.

Inductive re :=
  | REps
  | RChar (f : ascii → bool)
  | RCat (a b : re)
  | ROpt (a : re)
  | RStar (a : re).

Definition RPlus (a : re) : re := RCat a (RStar a).
Fixpoint RUpTo (n : nat) (a : re) : re :=
  match n with O => REps | S n => ROpt (RCat a (RUpTo n a)) end.
(** A literal text, letter case ignored. *)
Fixpoint RLit (s : string) : re :=
  match s with
  | "" => REps
  | String c s' => RCat (RChar (λ x, Ascii.eqb (lower_char x) (lower_char c))) (RLit s')
  end.

(** [rmatch r s k]: the first way, in priority order, to match [r] at the start
    of [s] such that [k] accepts what follows. *)
Fixpoint rmatch {X} (r : re) (s : string) (k : string → option X) : option X :=
  match r with
  | REps => k s
  | RChar f =>
      match s with
      | "" => None
      | String c s' => if f c then k s' else None
      end
  | RCat a b => rmatch a s (λ s', rmatch b s' k)
  | ROpt a => match rmatch a s k with Some x => Some x | None => k s end
  | RStar a =>
      (fix loop (n : nat) (s : string) : option X :=
         match n with
         | O => k s
         | S n =>
             match rmatch a s (λ s', if String.length s' <? String.length s then loop n s' else None) with
             | Some x => Some x
             | None => k s
             end
         end) (String.length s) s
  end.

(** What follows the match of [r] at the start of [s]. *)
Definition match_at (r : re) (s : string) : option string := rmatch r s Some.

Definition fullmatch (r : re) (s : string) : bool :=
  isSome (rmatch r s (λ rest, if String.eqb rest "" then Some tt else None)).

(** A match: its start, its end and its text. *)
Record span := mkSpan { sp_start : nat; sp_end : nat; sp_text : string }.

Definition slice (s : string) (first last : nat) : string := String.substring first (last - first) s.

(** The leftmost non-overlapping matches; every expression here matches at
    least one character.  The fuel is the length of what is left. *)
Fixpoint finditer_go (fuel : nat) (r : re) (pos : nat) (s : string) : list span :=
  match fuel, s with
  | S fuel, String c s' =>
      match match_at r s with
      | Some rest =>
          let n := String.length s - String.length rest in
          if 0 <? n then mkSpan pos (pos + n) (String.substring 0 n s) :: finditer_go fuel r (pos + n) rest
          else finditer_go fuel r (S pos) s'
      | None => finditer_go fuel r (S pos) s'
      end
  | _, _ => []
  end.
Definition finditer (r : re) (s : string) : list span := finditer_go (String.length s) r 0 s.
Definition findall (r : re) (s : string) : list string := sp_text <$> finditer r s.

(** [r.sub(rep, s)] *)
Fixpoint sub_go (fuel : nat) (r : re) (rep s : string) : string :=
  match fuel, s with
  | S fuel, String c s' =>
      match match_at r s with
      | Some rest =>
          if String.length rest <? String.length s then rep +:+ sub_go fuel r rep rest
          else String c (sub_go fuel r rep s')
      | None => String c (sub_go fuel r rep s')
      end
  | _, _ => s
  end.
Definition sub (r : re) (rep s : string) : string := sub_go (String.length s) r rep s.

(** ** The language of an expression *)
Inductive lang : re → string → Prop :=
  | lang_eps : lang REps ""
  | lang_char f c : f c = true → lang (RChar f) (String c "")
  | lang_cat a b s t : lang a s → lang b t → lang (RCat a b) (s +:+ t)
  | lang_opt_none a : lang (ROpt a) ""
  | lang_opt_some a s : lang a s → lang (ROpt a) s
  | lang_star_nil a : lang (RStar a) ""
  | lang_star_cons a s t : lang a s → lang (RStar a) t → lang (RStar a) (s +:+ t).

Lemma app_cons c (s t : string) : String c s +:+ t = String c (s +:+ t).
Proof. done. Qed.
Lemma app_nil_s (t : string) : "" +:+ t = t.
Proof. done. Qed.

Lemma app_empty_r (s : string) : s +:+ "" = s.
Proof. induction s as [|c s IH]; [done|]. by rewrite app_cons, IH. Qed.

Lemma app_assoc_s (a b c : string) : (a +:+ b) +:+ c = a +:+ (b +:+ c).
Proof. induction a as [|x a IH]; [done|]. by rewrite !app_cons, IH. Qed.

Lemma length_app_s (a b : string) : String.length (a +:+ b) = String.length a + String.length b.
Proof. induction a as [|x a IH]; [done|]. rewrite app_cons. simpl. by rewrite IH. Qed.

(** The star loop of [rmatch], named. *)
Definition star_loop {X} (a : re) (k : string → option X) : nat → string → option X :=
  fix loop n s :=
    match n with
    | O => k s
    | S n =>
        match rmatch a s (λ s', if String.length s' <? String.length s then loop n s' else None) with
        | Some x => Some x
        | None => k s
        end
    end.

Lemma rmatch_star {X} a s (k : string → option X) :
  rmatch (RStar a) s k = star_loop a k (String.length s) s.
Proof. done. Qed.

(** Soundness: a match splits the text into a word of the language and an accepted rest. *)
Lemma rmatch_sound {X} r : ∀ s (k : string → option X) x,
  rmatch r s k = Some x → ∃ pre rest, s = pre +:+ rest ∧ lang r pre ∧ k rest = Some x.
Proof.
  induction r as [|f|a IHa b IHb|a IHa|a IHa]; intros s k x; simpl.
  - intros Hk. exists "", s. split_and!; [done|constructor|done].
  - destruct s as [|c s]; [done|]. destruct (f c) eqn:Hf; [|done].
    intros Hk. exists (String c ""), s. split_and!; [done|by constructor|done].
  - intros (p1 & r1 & -> & H1 & (p2 & r2 & -> & H2 & Hk)%IHb)%IHa.
    exists (p1 +:+ p2), r2. split_and!; [by rewrite app_assoc_s|by constructor|done].
  - destruct (rmatch a s k) as [y|] eqn:E.
    + intros [= ->]. apply IHa in E as (p & rest & -> & H & Hk). exists p, rest.
      split_and!; [done|by constructor|done].
    + intros Hk. exists "", s. split_and!; [done|constructor|done].
  - change (star_loop a k (String.length s) s = Some x →
      ∃ pre rest, s = pre +:+ rest ∧ lang (RStar a) pre ∧ k rest = Some x).
    generalize (String.length s) as n. intros n. revert s.
    induction n as [|n IHn]; intros s; simpl.
    + intros Hk. exists "", s. split_and!; [done|constructor|done].
    + destruct (rmatch a s _) as [y|] eqn:E.
      * intros [= ->]. apply IHa in E as (p & rest & -> & H & Hk).
        destruct (_ <? _); [|done]. apply IHn in Hk as (p2 & r2 & -> & H2 & Hk).
        exists (p +:+ p2), r2. split_and!; [by rewrite app_assoc_s|by constructor|done].
      * intros Hk. exists "", s. split_and!; [done|constructor|done].
Qed.

(** A word of a star is empty or begins with a non-empty iteration. *)
Lemma lang_star_inv a w : lang (RStar a) w →
  w = "" ∨ ∃ s t, w = s +:+ t ∧ s ≠ "" ∧ lang a s ∧ lang (RStar a) t.
Proof.
  intros H. remember (RStar a) as r eqn:Hr. revert Hr.
  induction H as [| | | | | |b s t Hs _ Ht IH]; intros Hr; simplify_eq; [by left|].
  destruct s as [|c s]; [simpl; by apply IH|]. right.
  exists (String c s), t. done.
Qed.

(** Completeness: no match means that no split is accepted. *)
Lemma rmatch_complete {X} r : ∀ s (k : string → option X),
  rmatch r s k = None → ∀ pre rest, s = pre +:+ rest → lang r pre → k rest = None.
Proof.
  induction r as [|f|a IHa b IHb|a IHa|a IHa]; intros s k; simpl.
  - intros Hk pre rest -> H. by inversion H; subst.
  - intros Hk pre rest -> H. inversion H as [|? c Hc| | | | |]; subst. simpl in Hk. by rewrite Hc in Hk.
  - intros Hk pre rest -> H. inversion H as [| |? ? p1 p2 H1 H2| | | |]; subst.
    eapply (IHa _ _ Hk p1 (p2 +:+ rest)) in H1; [|by rewrite app_assoc_s].
    by eapply (IHb _ _ H1 p2).
  - destruct (rmatch a s k) as [y|] eqn:E; [done|]. intros Hk pre rest -> H.
    inversion H; subst; [done|]. by eapply IHa.
  - change (star_loop a k (String.length s) s = None → ∀ pre rest, s = pre +:+ rest →
      lang (RStar a) pre → k rest = None).
    assert (∀ n s, String.length s ≤ n → star_loop a k n s = None → ∀ pre rest, s = pre +:+ rest →
      lang (RStar a) pre → k rest = None) as Hgen; [|by apply Hgen].
    clear s. induction n as [|n IHn]; intros s Hlen.
    + simpl. intros Hk pre rest -> _. rewrite length_app_s in Hlen.
      destruct pre; [done|]. simpl in Hlen. lia.
    + simpl. destruct (rmatch a s _) as [y|] eqn:E; [done|].
      intros Hk pre rest -> H. apply lang_star_inv in H as [->|(p & q & -> & Hne & Hp & Hq)]; [done|].
      eapply (IHa _ _ E p (q +:+ rest)) in Hp; [|by rewrite app_assoc_s].
      assert (1 ≤ String.length p) by (destruct p; [done|simpl; lia]).
      assert ((String.length (q +:+ rest) <? String.length ((p +:+ q) +:+ rest)) = true) as Hlt
        by (apply Nat.ltb_lt; rewrite !length_app_s; lia).
      cbv beta in Hp. rewrite Hlt in Hp. rewrite !length_app_s in Hlen.
      eapply (IHn (q +:+ rest)); [rewrite length_app_s; lia|done|done|done].
Qed.

(** [match_at] finds a prefix of the text in the language, and fails only when there is none. *)
Lemma match_at_sound r s rest : match_at r s = Some rest → ∃ pre, s = pre +:+ rest ∧ lang r pre.
Proof. intros (pre & x & -> & H & [= ->])%rmatch_sound. eauto. Qed.

Lemma match_at_none r s : match_at r s = None ↔ ∀ pre rest, s = pre +:+ rest → ¬ lang r pre.
Proof.
  split.
  - intros H pre rest Hs Hl. by eapply rmatch_complete in H.
  - intros H. destruct (match_at r s) as [rest|] eqn:E; [|done].
    apply match_at_sound in E as (pre & -> & Hl). by destruct (H pre rest).
Qed.

Lemma fullmatch_spec r s : fullmatch r s = true ↔ lang r s.
Proof.
  unfold fullmatch. split.
  - destruct (rmatch _ _ _) as [[]|] eqn:E; [|done]. intros _.
    apply rmatch_sound in E as (pre & rest & -> & Hl & Hk).
    destruct (String.eqb_spec rest ""); [|done]. subst. by rewrite app_empty_r.
  - intros Hl. destruct (rmatch _ _ _) as [[]|] eqn:E; [done|].
    eapply (rmatch_complete _ _ _ E s "") in Hl; [done|by rewrite app_empty_r].
Qed.

(** ** Greedy runs of a character class *)
Fixpoint take_while (f : ascii → bool) (s : string) : string :=
  match s with "" => "" | String c s' => if f c then String c (take_while f s') else "" end.
Fixpoint drop_while (f : ascii → bool) (s : string) : string :=
  match s with "" => "" | String c s' => if f c then drop_while f s' else s end.

Lemma take_drop_while f s : take_while f s +:+ drop_while f s = s.
Proof.
  induction s as [|c s IH]; simpl; [done|].
  destruct (f c); rewrite ?app_cons, ?IH; done.
Qed.

(** The first choice of a starred class whose continuation always succeeds is the longest run. *)
Lemma star_char_total {X} f (k : string → X) s :
  rmatch (RStar (RChar f)) s (λ s, Some (k s)) = Some (k (drop_while f s)).
Proof.
  rewrite rmatch_star.
  assert (∀ n s, String.length s ≤ n →
    star_loop (RChar f) (λ s, Some (k s)) n s = Some (k (drop_while f s))) as H; [|by apply H].
  clear s. induction n as [|n IH]; intros [|c s] Hle; simpl in *; try done; [lia|].
  destruct (f c); [|done].
  replace (String.length s <? S (String.length s)) with true by (symmetry; apply Nat.ltb_lt; lia).
  by rewrite IH by lia.
Qed.

Lemma plus_char_some f s rest :
  match_at (RPlus (RChar f)) s = Some rest → rest = drop_while f s ∧ rest ≠ s.
Proof.
  unfold match_at, RPlus. destruct s as [|c s]; simpl; [done|].
  destruct (f c); [|done].
  change (rmatch (RStar (RChar f)) s (λ s, Some (id s)) = Some rest →
    rest = drop_while f s ∧ rest ≠ String c s).
  rewrite star_char_total. intros [= <-]. split; [done|].
  intros Heq. assert (String.length (drop_while f s) ≤ String.length s) as Hl.
  { clear. induction s as [|c s IH]; simpl; [done|]. destruct (f c); simpl; lia. }
  unfold id in Heq. rewrite Heq in Hl. simpl in Hl. lia.
Qed.
