(* ===== verification/Tokens.v ===== *)
(** * White-space tokens

    The tokens of [str.split()]: they are non-empty, hold no white space, and
    splitting their join with single spaces gives them back. *)

From S2P Require Import Prelude PyText Regex.

Definition non_space (c : ascii) : bool := negb (is_space c).

Lemma srev_go_app acc s : srev_go acc s = srev s +:+ acc.
Proof.
  unfold srev. revert acc. induction s as [|c s IH]; intros acc; [done|]. simpl.
  rewrite IH, (IH (String c "")), app_assoc_s. by rewrite app_cons.
Qed.

Lemma srev_cons c s : srev (String c s) = srev s +:+ String c "".
Proof. unfold srev at 1. simpl. apply srev_go_app. Qed.

(** Tokens are non-empty and have no white space, so splitting their join gives them back. *)
Definition token_ok (t : string) : Prop := t ≠ "" ∧ sforall non_space t = true.

Lemma sforall_app f a b : sforall f (a +:+ b) = sforall f a && sforall f b.
Proof.
  induction a as [|c a IH]; [done|]. rewrite app_cons. simpl. by rewrite IH, andb_assoc.
Qed.

Lemma sforall_srev f s : sforall f (srev s) = sforall f s.
Proof.
  induction s as [|c s IH]; [done|]. rewrite srev_cons, sforall_app, IH. simpl.
  by rewrite andb_true_r, andb_comm.
Qed.

Lemma srev_nonempty s : s ≠ "" → srev s ≠ "".
Proof. destruct s as [|c s]; [done|]. rewrite srev_cons. by destruct (srev s). Qed.

Lemma split_go_tokens cur s : sforall non_space cur = true → Forall token_ok (split_go cur s).
Proof.
  revert cur. induction s as [|c s IH]; intros cur Hcur; simpl.
  - destruct (String.eqb_spec cur ""); [constructor|]. constructor; [|constructor].
    split; [by apply srev_nonempty|by rewrite sforall_srev].
  - destruct (is_space c) eqn:Hc.
    + destruct (String.eqb_spec cur ""); [by apply IH|]. constructor; [|by apply IH].
      split; [by apply srev_nonempty|by rewrite sforall_srev].
    + apply IH. simpl. unfold non_space at 1. by rewrite Hc.
Qed.

Lemma split_tokens s : Forall token_ok (split s).
Proof. by apply split_go_tokens. Qed.

Lemma split_go_word t cur s : sforall non_space t = true →
  split_go cur (t +:+ s) = split_go (srev_go cur t) s.
Proof.
  revert cur. induction t as [|c t IH]; intros cur Ht; [done|]. simpl in Ht.
  apply andb_true_iff in Ht as [Hc Ht]. rewrite app_cons. simpl.
  unfold non_space in Hc. apply negb_true_iff in Hc. rewrite Hc. by apply IH.
Qed.

Lemma srev_involutive s : srev (srev s) = s.
Proof.
  assert (∀ a b, srev (a +:+ b) = srev b +:+ srev a) as Happ.
  { intros a b. induction a as [|c a IH]; [by rewrite app_nil_s, app_empty_r|].
    by rewrite app_cons, !srev_cons, IH, app_assoc_s. }
  induction s as [|c s IH]; [done|]. rewrite srev_cons, Happ, IH. done.
Qed.

Lemma join_cons2 sep x y l : join sep (x :: y :: l) = x +:+ (sep +:+ join sep (y :: l)).
Proof. done. Qed.

Lemma split_join l : Forall token_ok l → split (join " " l) = l.
Proof.
  induction 1 as [|t l [Hne Ht] Hl IH]; [done|].
  assert (String.eqb (srev_go "" t) "" = false) as Hcur.
  { apply String.eqb_neq. by apply srev_nonempty. }
  destruct l as [|u l].
  - simpl. rewrite <-(app_empty_r t) at 1. unfold split. rewrite split_go_word by done. simpl.
    rewrite Hcur. f_equal. apply srev_involutive.
  - rewrite join_cons2. unfold split in *. rewrite split_go_word by done.
    rewrite app_cons, app_nil_s. simpl. rewrite Hcur. f_equal; [apply srev_involutive|done].
Qed.

(** ** Parts of a join *)
Lemma join_app sep a b : a ≠ [] → b ≠ [] → join sep (a ++ b) = join sep a +:+ (sep +:+ join sep b).
Proof.
  intros Ha Hb. induction a as [|x a IH]; [done|]. destruct a as [|y a].
  - destruct b as [|z b]; [done|]. done.
  - change ((x :: y :: a) ++ b) with (x :: y :: (a ++ b)). rewrite !join_cons2.
    change (y :: a ++ b) with ((y :: a) ++ b). rewrite IH by done. by rewrite !app_assoc_s.
Qed.

Lemma join_part sep a p b : p ≠ [] → ∃ pre post,
  join sep (a ++ p ++ b) = pre +:+ (join sep p +:+ post) ∧
  (pre = "" ∨ ∃ x, pre = x +:+ sep) ∧ (post = "" ∨ ∃ y, post = sep +:+ y).
Proof.
  intros Hp. assert (∃ post, join sep (p ++ b) = join sep p +:+ post ∧
    (post = "" ∨ ∃ y, post = sep +:+ y)) as (post & Hpost & Hs).
  { destruct (decide (b = [])) as [->|Hb].
    - exists "". rewrite app_nil_r, app_empty_r. auto.
    - exists (sep +:+ join sep b). rewrite join_app by done. eauto. }
  destruct (decide (a = [])) as [->|Ha].
  - exists "", post. simpl. rewrite app_nil_s. auto.
  - exists (join sep a +:+ sep), post. rewrite join_app, Hpost, app_assoc_s; [eauto|done|].
    by destruct p.
Qed.

(** The suffixes of a text, and the suffixes of a join. *)
Fixpoint suffixes (s : string) : list string :=
  s :: match s with "" => [] | String _ s' => suffixes s' end.

Lemma suffixes_refl s : s ∈ suffixes s.
Proof. destruct s; left. Qed.
Lemma suffixes_empty s : "" ∈ suffixes s.
Proof. induction s; [left|by right]. Qed.

Lemma app_suffix w t pre rest : w +:+ t = pre +:+ rest →
  (∃ w', w' ∈ suffixes w ∧ rest = w' +:+ t) ∨ ∃ pre', t = pre' +:+ rest.
Proof.
  revert pre. induction w as [|c w IH]; intros pre Heq; [right; by exists pre|].
  destruct pre as [|c' pre].
  - left. exists (String c w). split; [apply suffixes_refl|by rewrite Heq].
  - rewrite !app_cons in Heq. injection Heq as _ Heq.
    destruct (IH pre Heq) as [(w' & Hw & ->)|?]; [|by right].
    left. exists w'. split; [by right|done].
Qed.

(** What follows the first word of a join. *)
Definition join_tail (sep : string) (l : list string) : string :=
  match l with [] => "" | _ => sep +:+ join sep l end.

Lemma join_cons_tail sep w l : join sep (w :: l) = w +:+ join_tail sep l.
Proof. destruct l; [by rewrite app_empty_r|done]. Qed.

Lemma join_suffix l : ∀ pre rest, join " " l = pre +:+ rest →
  ∃ w' l', (w' = "" ∨ ∃ w, w ∈ l ∧ w' ∈ suffixes w) ∧ l' ⊆ l ∧ rest = w' +:+ join_tail " " l'.
Proof.
  induction l as [|w l IH]; intros pre rest Heq.
  - exists "", []. split_and!; [by left|done|]. by destruct pre, rest.
  - rewrite join_cons_tail in Heq. apply app_suffix in Heq as [(w' & Hw & ->)|[pre' Heq]].
    { exists w', l. split_and!; [right; exists w; split; [left|done]|set_solver|done]. }
    destruct l as [|w2 l].
    + exists "", []. split_and!; [by left|set_solver|]. by destruct pre', rest.
    + destruct pre' as [|c pre'].
      * rewrite app_nil_s in Heq. subst. exists "", (w2 :: l). split_and!; [by left|set_solver|done].
      * unfold join_tail in Heq. rewrite !app_cons, app_nil_s in Heq. injection Heq as _ Heq.
        apply IH in Heq as (w' & l' & Hw & Hl & ->). exists w', l'. split_and!; [|set_solver|done].
        destruct Hw as [->|(x & Hx & ?)]; [by left|]. right. exists x. split; [by right|done].
Qed.
