(* ===== verification/WordRegex.v ===== *)
(** * Regular expressions with alternation and word boundaries

    The constructs the consent expressions of [agents/_consent.py] add to
    [Regex]: alternation and the zero-width [\b].  A boundary depends on the
    character before the current position, so a matcher state is that
    character and the text that follows.  The matcher backtracks in Python's
    priority order and is proved sound and complete for the run relation of
    the expression. *)

From S2P Require Import Prelude PyText Regex.
Local Open Scope nat_scope.

Inductive wre :=
  | WEps
  | WChar (f : ascii → bool)
  | WBound
  | WCat (a b : wre)
  | WAlt (a b : wre)
  | WOpt (a : wre)
  | WStar (a : wre).

Definition WPlus (a : wre) : wre := WCat a (WStar a).
(** A literal text, letter case ignored. *)
Fixpoint WLit (s : string) : wre :=
  match s with
  | "" => WEps
  | String c s' => WCat (WChar (λ x, Ascii.eqb (lower_char x) (lower_char c))) (WLit s')
  end.
(** A literal text, letter case significant. *)
Fixpoint WText (s : string) : wre :=
  match s with "" => WEps | String c s' => WCat (WChar (Ascii.eqb c)) (WText s') end.
Fixpoint WAlts (r : wre) (l : list wre) : wre :=
  match l with [] => r | r' :: l' => WAlt r (WAlts r' l') end.
Fixpoint WCats (l : list wre) : wre :=
  match l with [] => WEps | r :: l' => WCat r (WCats l') end.
Definition WSpaces : wre := WPlus (WChar is_space).

(** [\w] on ASCII, and [\b] between a character and the text after it. *)
Definition is_word (c : ascii) : bool := is_alnum c || (code c =? 95).
Definition word_opt (p : option ascii) : bool :=
  match p with Some c => is_word c | None => false end.
Definition head (s : string) : option ascii :=
  match s with "" => None | String c _ => Some c end.
Definition at_boundary (p : option ascii) (s : string) : bool :=
  xorb (word_opt p) (word_opt (head s)).

(** [wmatch r p s k]: the first way, in priority order, to match [r] at the
    start of [s], which follows [p], such that [k] accepts what is left. *)
Fixpoint wmatch {X} (r : wre) (p : option ascii) (s : string)
    (k : option ascii → string → option X) : option X :=
  match r with
  | WEps => k p s
  | WChar f =>
      match s with
      | "" => None
      | String c s' => if f c then k (Some c) s' else None
      end
  | WBound => if at_boundary p s then k p s else None
  | WCat a b => wmatch a p s (λ p s, wmatch b p s k)
  | WAlt a b => match wmatch a p s k with Some x => Some x | None => wmatch b p s k end
  | WOpt a => match wmatch a p s k with Some x => Some x | None => k p s end
  | WStar a =>
      (fix loop (n : nat) (p : option ascii) (s : string) : option X :=
         match n with
         | O => k p s
         | S n =>
             match wmatch a p s
                 (λ p' s', if String.length s' <? String.length s then loop n p' s' else None) with
             | Some x => Some x
             | None => k p s
             end
         end) (String.length s) p s
  end.

(** What follows the match of [r] at the start of [s]. *)
Definition wmatch_at (r : wre) (p : option ascii) (s : string) : option (option ascii * string) :=
  wmatch r p s (λ p s, Some (p, s)).

(** [r.fullmatch(s) is not None] *)
Definition wfullmatch (r : wre) (s : string) : bool :=
  isSome (wmatch r None s (λ _ rest, if String.eqb rest "" then Some tt else None)).

(** [r.search(s) is not None] *)
Fixpoint wsearch_from (r : wre) (p : option ascii) (s : string) : bool :=
  isSome (wmatch_at r p s) ||
  match s with "" => false | String c s' => wsearch_from r (Some c) s' end.
Definition wsearch (r : wre) (s : string) : bool := wsearch_from r None s.

(** [r.sub(rep, s)] for an expression that matches at least one character. *)
Fixpoint wsub_go (fuel : nat) (r : wre) (rep : string) (p : option ascii) (s : string) : string :=
  match fuel, s with
  | S fuel, String c s' =>
      match wmatch_at r p s with
      | Some (p', rest) =>
          if String.length rest <? String.length s then rep +:+ wsub_go fuel r rep p' rest
          else String c (wsub_go fuel r rep (Some c) s')
      | None => String c (wsub_go fuel r rep (Some c) s')
      end
  | _, _ => s
  end.
Definition wsub (r : wre) (rep s : string) : string := wsub_go (String.length s) r rep None s.

(** ** Runs of an expression *)
Inductive wrun : wre → option ascii → string → option ascii → string → Prop :=
  | wrun_eps p s : wrun WEps p s p s
  | wrun_char f c p s : f c = true → wrun (WChar f) p (String c s) (Some c) s
  | wrun_bound p s : at_boundary p s = true → wrun WBound p s p s
  | wrun_cat a b p s p1 s1 p2 s2 :
      wrun a p s p1 s1 → wrun b p1 s1 p2 s2 → wrun (WCat a b) p s p2 s2
  | wrun_alt_l a b p s p' s' : wrun a p s p' s' → wrun (WAlt a b) p s p' s'
  | wrun_alt_r a b p s p' s' : wrun b p s p' s' → wrun (WAlt a b) p s p' s'
  | wrun_opt_none a p s : wrun (WOpt a) p s p s
  | wrun_opt_some a p s p' s' : wrun a p s p' s' → wrun (WOpt a) p s p' s'
  | wrun_star_nil a p s : wrun (WStar a) p s p s
  | wrun_star_cons a p s p1 s1 p2 s2 :
      wrun a p s p1 s1 → wrun (WStar a) p1 s1 p2 s2 → wrun (WStar a) p s p2 s2.

Create HintDb wre.
#[export] Hint Constructors wrun : wre.

(** The star loop of [wmatch], named. *)
Definition wstar_loop {X} (a : wre) (k : option ascii → string → option X) :
    nat → option ascii → string → option X :=
  fix loop n p s :=
    match n with
    | O => k p s
    | S n =>
        match wmatch a p s
            (λ p' s', if String.length s' <? String.length s then loop n p' s' else None) with
        | Some x => Some x
        | None => k p s
        end
    end.

(** Soundness: what the matcher accepts is a run. *)
Lemma wmatch_sound {X} r : ∀ p s (k : option ascii → string → option X) x,
  wmatch r p s k = Some x → ∃ p' s', wrun r p s p' s' ∧ k p' s' = Some x.
Proof.
  induction r as [|f| |a IHa b IHb|a IHa b IHb|a IHa|a IHa]; intros p s k x; simpl.
  - eauto with wre.
  - destruct s as [|c s]; [done|]. destruct (f c) eqn:Hf; [|done]. eauto with wre.
  - destruct (at_boundary p s) eqn:Hb; [|done]. eauto with wre.
  - intros (p1 & s1 & H1 & (p2 & s2 & H2 & Hk)%IHb)%IHa. eauto with wre.
  - destruct (wmatch a p s k) as [y|] eqn:E.
    + intros [= ->]. apply IHa in E as (p' & s' & ? & ?). eauto with wre.
    + intros (p' & s' & ? & ?)%IHb. eauto with wre.
  - destruct (wmatch a p s k) as [y|] eqn:E; [|eauto with wre].
    intros [= ->]. apply IHa in E as (p' & s' & ? & ?). eauto with wre.
  - change (wstar_loop a k (String.length s) p s = Some x →
      ∃ p' s', wrun (WStar a) p s p' s' ∧ k p' s' = Some x).
    generalize (String.length s) as n. intros n. revert p s.
    induction n as [|n IHn]; intros p s; simpl; [eauto with wre|].
    destruct (wmatch a p s _) as [y|] eqn:E; [|eauto with wre].
    intros [= ->]. apply IHa in E as (p1 & s1 & H1 & Hk).
    destruct (_ <? _); [|done]. apply IHn in Hk as (p2 & s2 & H2 & Hk). eauto with wre.
Qed.

(** A run moves forward, or stays where it is. *)
Lemma wrun_length r p s p' s' :
  wrun r p s p' s' → (p' = p ∧ s' = s) ∨ String.length s' < String.length s.
Proof.
  induction 1; simpl;
    repeat match goal with H : _ ∨ _ |- _ => destruct H as [[-> ->]|?] end; auto; right; lia.
Qed.

(** A run of a star is empty or begins with an iteration that consumes text. *)
Lemma wrun_star_inv a p s p2 s2 : wrun (WStar a) p s p2 s2 →
  (p2 = p ∧ s2 = s) ∨ ∃ p1 s1, String.length s1 < String.length s ∧
    wrun a p s p1 s1 ∧ wrun (WStar a) p1 s1 p2 s2.
Proof.
  intros H. remember (WStar a) as r eqn:Hr. revert Hr.
  induction H as [| | | | | | | | |b p s p1 s1 p2 s2 H1 _ H2 IH]; intros Hr; simplify_eq; [by left|].
  destruct (wrun_length _ _ _ _ _ H1) as [[-> ->]|Hlt]; [by apply IH|].
  right. by exists p1, s1.
Qed.

(** Completeness: when the matcher fails, no run is accepted. *)
Lemma wmatch_complete {X} r : ∀ p s (k : option ascii → string → option X),
  wmatch r p s k = None → ∀ p' s', wrun r p s p' s' → k p' s' = None.
Proof.
  induction r as [|f| |a IHa b IHb|a IHa b IHb|a IHa|a IHa]; intros p s k; simpl.
  - intros Hk p' s' H. by inversion H; subst.
  - intros Hk p' s' H. inversion H as [|? c ? ? Hc| | | | | | | | ]; subst. by rewrite Hc in Hk.
  - intros Hk p' s' H. inversion H as [| |? ? Hb| | | | | | | ]; subst. by rewrite Hb in Hk.
  - intros Hk p' s' H. inversion H; subst. eapply IHa in Hk; [|done]. by eapply IHb in Hk.
  - destruct (wmatch a p s k) as [y|] eqn:E; [done|]. intros Hk p' s' H.
    inversion H; subst; eauto.
  - destruct (wmatch a p s k) as [y|] eqn:E; [done|]. intros Hk p' s' H.
    inversion H; subst; eauto.
  - change (wstar_loop a k (String.length s) p s = None → ∀ p' s',
      wrun (WStar a) p s p' s' → k p' s' = None).
    assert (∀ n p s, String.length s ≤ n → wstar_loop a k n p s = None → ∀ p' s',
      wrun (WStar a) p s p' s' → k p' s' = None) as Hgen; [|by apply Hgen].
    clear p s. induction n as [|n IHn]; intros p s Hlen; simpl.
    + intros Hk p' s' [[-> ->]|(? & ? & ? & _)]%wrun_star_inv; [done|lia].
    + destruct (wmatch a p s _) as [y|] eqn:E; [done|].
      intros Hk p' s' [[-> ->]|(p1 & s1 & Hlt & H1 & H2)]%wrun_star_inv; [done|].
      eapply IHa in E; [|done]. cbv beta in E.
      rewrite (proj2 (Nat.ltb_lt _ _) Hlt) in E. eapply IHn in E; [done|lia|done].
Qed.

Lemma wmatch_at_spec r p s :
  isSome (wmatch_at r p s) = true ↔ ∃ p' s', wrun r p s p' s'.
Proof.
  unfold wmatch_at. split.
  - destruct (wmatch _ _ _ _) as [y|] eqn:E; [|done]. intros _.
    apply wmatch_sound in E as (p' & s' & ? & _). eauto.
  - intros (p' & s' & H). destruct (wmatch _ _ _ _) as [y|] eqn:E; [done|].
    by pose proof (wmatch_complete _ _ _ _ E _ _ H).
Qed.

Lemma wfullmatch_spec r s : wfullmatch r s = true ↔ ∃ p', wrun r None s p' "".
Proof.
  unfold wfullmatch. split.
  - destruct (wmatch _ _ _ _) as [[]|] eqn:E; [|done]. intros _.
    apply wmatch_sound in E as (p' & s' & H & Hk).
    destruct (String.eqb_spec s' ""); [|done]. subst. eauto.
  - intros (p' & H). destruct (wmatch _ _ _ _) as [y|] eqn:E; [done|].
    by pose proof (wmatch_complete _ _ _ _ E _ _ H).
Qed.

(** The last character of a text, after [p]. *)
Fixpoint last_char (p : option ascii) (s : string) : option ascii :=
  match s with "" => p | String c s' => last_char (Some c) s' end.

(** [search] finds exactly the runs that start somewhere in the text. *)
Lemma wsearch_from_spec r s : ∀ p, wsearch_from r p s = true ↔
  ∃ pre rest p' s', s = pre +:+ rest ∧ wrun r (last_char p pre) rest p' s'.
Proof.
  induction s as [|c s IH]; intros p; simpl.
  - rewrite orb_false_r, wmatch_at_spec. split.
    + intros (p' & s' & H). exists "", "", p', s'. done.
    + intros (pre & rest & p' & s' & Heq & H). destruct pre; [|done].
      rewrite app_nil_s in Heq. subst. eauto.
  - rewrite orb_true_iff, wmatch_at_spec, IH. split.
    + intros [(p' & s' & H)|(pre & rest & p' & s' & -> & H)].
      * by exists "", (String c s), p', s'.
      * by exists (String c pre), rest, p', s'.
    + intros ([|c' pre] & rest & p' & s' & Heq & H).
      * left. rewrite app_nil_s in Heq. subst. eauto.
      * right. rewrite app_cons in Heq. injection Heq as -> ->. by exists pre, rest, p', s'.
Qed.

Lemma wsearch_spec r s : wsearch r s = true ↔
  ∃ pre rest p' s', s = pre +:+ rest ∧ wrun r (last_char None pre) rest p' s'.
Proof. apply wsearch_from_spec. Qed.

(** A literal matches the text it spells. *)
Lemma wrun_lit w p s : wrun (WLit w) p (w +:+ s) (last_char p w) s.
Proof.
  revert p; induction w as [|c w IH]; intros p; [constructor|]. rewrite app_cons. simpl.
  econstructor; [|apply IH]. constructor. by apply Ascii.eqb_eq.
Qed.

Lemma wrun_alts l : ∀ r r' p s p' s',
  r' ∈ r :: l → wrun r' p s p' s' → wrun (WAlts r l) p s p' s'.
Proof.
  induction l as [|x l IH]; intros r r' p s p' s'; simpl.
  - by intros ->%list_elem_of_singleton.
  - intros [->|Hin]%elem_of_cons H; [by constructor|]. apply wrun_alt_r. by eapply IH.
Qed.

(** ** What a run consumed *)
Lemma last_char_app p a b : last_char p (a +:+ b) = last_char (last_char p a) b.
Proof. revert p; induction a as [|c a IH]; intros p; [by rewrite app_nil_s|]. rewrite app_cons. apply IH. Qed.

(** A run consumes a piece of text, and the character before the rest is the last one of it. *)
Lemma wrun_piece r p s p' s' : wrun r p s p' s' → ∃ m, s = m +:+ s' ∧ p' = last_char p m.
Proof.
  induction 1; try done; try by exists "".
  - by eexists (String _ "").
  - destruct IHwrun1 as (m1 & -> & ->), IHwrun2 as (m2 & -> & ->).
    exists (m1 +:+ m2). by rewrite app_assoc_s, last_char_app.
  - destruct IHwrun1 as (m1 & -> & ->), IHwrun2 as (m2 & -> & ->).
    exists (m1 +:+ m2). by rewrite app_assoc_s, last_char_app.
Qed.

Lemma wrun_cat_inv a b p s p' s' : wrun (WCat a b) p s p' s' →
  ∃ p1 s1, wrun a p s p1 s1 ∧ wrun b p1 s1 p' s'.
Proof. intros H. inversion H; subst. eauto. Qed.
Lemma wrun_cats_inv a l p s p' s' : wrun (WCats (a :: l)) p s p' s' →
  ∃ p1 s1, wrun a p s p1 s1 ∧ wrun (WCats l) p1 s1 p' s'.
Proof. apply wrun_cat_inv. Qed.
Lemma wrun_cats_nil_inv p s p' s' : wrun (WCats []) p s p' s' → p' = p ∧ s' = s.
Proof. intros H. by inversion H. Qed.
Lemma wrun_bound_inv p s p' s' : wrun WBound p s p' s' → p' = p ∧ s' = s ∧ at_boundary p s = true.
Proof. intros H. by inversion H. Qed.
Lemma wrun_alts_inv l : ∀ r p s p' s', wrun (WAlts r l) p s p' s' → ∃ r', r' ∈ r :: l ∧ wrun r' p s p' s'.
Proof.
  induction l as [|x l IH]; intros r p s p' s' H; cbn in H; [exists r; split; [by left|done]|].
  inversion H as [| | | |? ? ? ? ? ? H1|? ? ? ? ? ? H1| | | |]; subst; [exists r; split; [by left|done]|].
  apply IH in H1 as (r' & Hin & H1). exists r'. split; [by right|done].
Qed.

(** A literal consumed a text that spells it, and a star of a class a text of that class. *)
Lemma wrun_lit_inv w : ∀ p s p' s', wrun (WLit w) p s p' s' →
  ∃ m, s = m +:+ s' ∧ p' = last_char p m ∧ lower m = lower w.
Proof.
  induction w as [|c w IH]; intros p s p' s' H; cbn in H.
  - inversion H; subst. by exists "".
  - apply wrun_cat_inv in H as (p1 & s1 & H1 & H2). inversion H1 as [|? x ? ? Hx| | | | | | | |]; subst.
    apply IH in H2 as (m & -> & -> & Hm). exists (String x m). split_and!; [done..|].
    apply Ascii.eqb_eq in Hx. unfold lower in *. cbn. by rewrite Hx, Hm.
Qed.
Lemma wrun_text_inv w : ∀ p s p' s', wrun (WText w) p s p' s' → s = w +:+ s' ∧ p' = last_char p w.
Proof.
  induction w as [|c w IH]; intros p s p' s' H; cbn in H; [by inversion H|].
  apply wrun_cat_inv in H as (p1 & s1 & H1 & H2). inversion H1 as [|? x ? ? Hx| | | | | | | |]; subst.
  apply IH in H2 as [-> ->]. by apply Ascii.eqb_eq in Hx as ->.
Qed.
Lemma wrun_class_inv f p s p' s' : wrun (WStar (WChar f)) p s p' s' →
  ∃ m, s = m +:+ s' ∧ p' = last_char p m ∧ sforall f m = true.
Proof.
  remember (WStar (WChar f)) as r eqn:Hr. intros H. revert Hr.
  induction H as [| | | | | | | | |b p s p1 s1 p2 s2 H1 _ H2 IH]; intros Hr; simplify_eq; [by exists ""|].
  inversion H1 as [|? x ? ? Hx| | | | | | | |]; subst. destruct (IH eq_refl) as (m & -> & -> & Hm).
  exists (String x m). split_and!; [done..|]. cbn. by rewrite Hx.
Qed.
