(* ===== verification/Money.v ===== *)
(** * Monetary amounts (dtos/money.py)

    [UsdAmount] is a finite, non-negative [Decimal] with at most two decimal
    places: an exact number of cents, a [Z].  A [Decimal] argument that has
    not been validated is a coefficient and an exponent, or a special value. *)

From S2P Require Import Prelude PyText.

Inductive Decimal :=
  | DFinite (coef exp : Z)
  | DInfinite (negative : bool)
  | DNaN.

#[export] Instance Decimal_eq_dec : EqDecision Decimal.
Proof. solve_decision. Defined.

(** The number of cents of [coef * 10 ^ exp], when it is a whole number. *)
Definition cents_of (coef exp : Z) : option Z :=
  if 0 <=? exp + 2 then Some (coef * 10 ^ (exp + 2))
  else
    let d := 10 ^ (- (exp + 2)) in
    if coef mod d =? 0 then Some (coef / d) else None.

(** [UsdAmount]: [ge=0], [decimal_places=2], [allow_inf_nan=False]. *)
Definition UsdAmount (d : Decimal) : option Z :=
  match d with
  | DFinite c e =>
      if 0 <=? c then cents_of c e else None
  | _ => None
  end.

(** [PositiveUsdAmount]: the same with [gt=0]. *)
Definition PositiveUsdAmount (d : Decimal) : option Z :=
  match UsdAmount d with
  | Some c => if 0 <? c then Some c else None
  | None => None
  end.

Definition validate_usd (value : Decimal) : res Z :=
  match UsdAmount value with
  | Some c => inr c
  | None => raises ValidationError ""
  end.

(** The [Decimal] of an amount in cents. *)
Definition dec_of_cents (c : Z) : Decimal := DFinite c (-2).

Lemma cents_of_nonneg c e n : 0 ≤ c → cents_of c e = Some n → 0 ≤ n.
Proof.
  unfold cents_of. intros Hc. case_match; intros; simplify_eq.
  - apply Z.mul_nonneg_nonneg; [done|]. apply Z.pow_nonneg. lia.
  - case_match; simplify_eq. apply Z.div_pos; [done|]. apply Z.pow_pos_nonneg; bools; lia.
Qed.

Lemma validate_usd_nonneg v c : validate_usd v = inr c → 0 ≤ c.
Proof.
  unfold validate_usd, UsdAmount. destruct v as [co e| |]; try done.
  destruct (Z.leb_spec 0 co); [|done]. destruct (cents_of co e) eqn:E; [|done].
  intros; simplify_eq. eauto using cents_of_nonneg.
Qed.

Lemma validate_usd_cents c : 0 ≤ c → validate_usd (dec_of_cents c) = inr c.
Proof.
  intros. unfold validate_usd, UsdAmount, dec_of_cents, cents_of.
  destruct (Z.leb_spec 0 c); [|lia]. simpl. by rewrite Z.mul_1_r.
Qed.

Create HintDb money.
#[export] Hint Resolve validate_usd_nonneg validate_usd_cents : money.
