(* ===== verification/Receipts.v ===== *)
(** * Receipt lookups (commerce/receipts.py) *)

From S2P Require Import Prelude PyText.

Inductive IndeterminateReason := key_conflict | pending | unavailable.

Inductive ReceiptLookup (R : Type) :=
  | CommittedReceipt (record : R)
  | NotCommittedReceipt
  | IndeterminateReceipt (reason : IndeterminateReason).
Arguments CommittedReceipt {R}.
Arguments NotCommittedReceipt {R}.
Arguments IndeterminateReceipt {R}.

Record CartReceiptCounts := { mutations : nat }.
Record OrderReceiptCounts :=
  { placements : nat; refunds : nat; returns : nat; cancellations : nat }.
Record ProfileReceiptCounts := { changes : nat }.

Definition classify_receipt {R} (record : option R) (matches : R → bool) : ReceiptLookup R :=
  match record with
  | None => NotCommittedReceipt
  | Some r => if negb (matches r) then IndeterminateReceipt key_conflict else CommittedReceipt r
  end.

(** The same lookup with its record wrapped. *)
Definition map_receipt {A B} (f : A → B) (l : ReceiptLookup A) : ReceiptLookup B :=
  match l with
  | CommittedReceipt r => CommittedReceipt (f r)
  | NotCommittedReceipt => NotCommittedReceipt
  | IndeterminateReceipt i => IndeterminateReceipt i
  end.

Lemma classify_receipt_committed {R} (o : option R) m r :
  classify_receipt o m = CommittedReceipt r ↔ o = Some r ∧ m r = true.
Proof.
  unfold classify_receipt. split.
  - intros. mcases. by destruct (m _).
  - intros [-> ->]. done.
Qed.

Lemma classify_receipt_not_committed {R} (o : option R) m :
  classify_receipt o m = NotCommittedReceipt ↔ o = None.
Proof. unfold classify_receipt. split; intros; mcases; done. Qed.

Lemma classify_receipt_conflict {R} (o : option R) m i :
  classify_receipt o m = IndeterminateReceipt i ↔
  i = key_conflict ∧ ∃ r, o = Some r ∧ m r = false.
Proof.
  unfold classify_receipt. split.
  - intros. mcases. bools. eauto.
  - intros (-> & r & -> & ->). done.
Qed.
