(* ===== verification/Cart.v ===== *)
(** * Session cart (commerce/cart.py)

    The cart's lines and confirmed-mutation ledger are the two dictionaries of
    [CartStore]; every method is a step of the state-and-exception monad.  The
    theorems: every method keeps the store well formed, a confirmed mutation
    has exactly its confirmed effect and is applied once, exporting and
    restoring a cart is a round trip. *)

From S2P Require Import Prelude PyText Money Receipts.

(** ** Data *)

(** dtos/orchestration.py [CartOperation] *)
Inductive CartOperation := add | remove | set_quantity_op.

#[export] Instance CartOperation_eq_dec : EqDecision CartOperation.
Proof. solve_decision. Defined.

(** dtos/state.py [CartLine] *)
Record CartLine := mkCartLine {
  cl_sku : string; cl_name : string; cl_price_usd : Z; cl_quantity : Z }.

#[export] Instance CartLine_eq_dec : EqDecision CartLine.
Proof. solve_decision. Defined.

Definition CartLine_valid (l : CartLine) : bool :=
  nonempty (cl_sku l) && nonempty (cl_name l) && (0 <=? cl_price_usd l) && (1 <=? cl_quantity l).

Definition make_CartLine sku name price quantity : res CartLine :=
  let l := mkCartLine sku name price quantity in validated (CartLine_valid l) l.

Definition line_total (l : CartLine) : Z := cl_price_usd l * cl_quantity l.

Inductive MutationOutcome := applied | unchanged.

#[export] Instance MutationOutcome_eq_dec : EqDecision MutationOutcome.
Proof. solve_decision. Defined.

Record CartMutationRecord := mkCartMutationRecord {
  cm_operation : CartOperation;
  cm_sku : string;
  cm_name : string;
  cm_price_usd : Z;
  cm_quantity : option Z;
  cm_pre_confirm_quantity : Z;
  cm_previous_quantity : Z;
  cm_final_quantity : Z;
  cm_outcome : MutationOutcome }.

#[export] Instance CartMutationRecord_eq_dec : EqDecision CartMutationRecord.
Proof. solve_decision. Defined.

(** [CartMutationRecord.result_is_coherent] *)
Definition result_is_coherent (r : CartMutationRecord) : bool :=
  (match cm_operation r with
   | remove => negb (isSome (cm_quantity r)) && (cm_final_quantity r =? 0)
   | add =>
       match cm_quantity r with
       | Some q => (1 <=? q) && (cm_final_quantity r =? cm_previous_quantity r + q)
       | None => false
       end
   | set_quantity_op =>
       match cm_quantity r with Some q => cm_final_quantity r =? q | None => false end
   end)
  && Bool.eqb (bool_decide (cm_outcome r = applied))
       (negb (cm_previous_quantity r =? cm_final_quantity r)).

Definition CartMutationRecord_valid (r : CartMutationRecord) : bool :=
  nonempty (cm_sku r) && nonempty (cm_name r) && (0 <=? cm_price_usd r)
  && (match cm_quantity r with Some q => 0 <=? q | None => true end)
  && (0 <=? cm_pre_confirm_quantity r) && (0 <=? cm_previous_quantity r)
  && (0 <=? cm_final_quantity r) && result_is_coherent r.

Record CartMutationReceipt := mkCartMutationReceipt {
  rc_idempotency_key : string; rc_record : CartMutationRecord }.

Definition idempotency_key_is_nonblank (r : CartMutationReceipt) : bool :=
  nonempty (rc_idempotency_key r) && negb (blank (rc_idempotency_key r)).

Record CartSessionState := mkCartSessionState {
  cs_lines : list CartLine; cs_mutation_receipts : list CartMutationReceipt }.

(** [CartSessionState.identifiers_are_unique] *)
Definition identifiers_are_unique (s : CartSessionState) : bool :=
  bool_decide (NoDup (cl_sku <$> cs_lines s)) &&
  bool_decide (NoDup (rc_idempotency_key <$> cs_mutation_receipts s)).

(** Construction from model instances: nested instances are not validated again. *)
Definition make_CartSessionState (lines : list CartLine) (receipts : list CartMutationReceipt)
    : res CartSessionState :=
  let s := mkCartSessionState lines receipts in
  validated (forallb idempotency_key_is_nonblank receipts && identifiers_are_unique s) s.

(** A fully validated payload, as read back from storage. *)
Definition CartSessionState_valid (s : CartSessionState) : bool :=
  forallb CartLine_valid (cs_lines s) &&
  forallb (λ r, CartMutationRecord_valid (rc_record r)) (cs_mutation_receipts s) &&
  is_ok (make_CartSessionState (cs_lines s) (cs_mutation_receipts s)).

(** ** The store *)
Record CartStore := mkCartStore {
  lines_ : list (string * CartLine);
  mutations_by_key : list (string * CartMutationRecord) }.

Definition empty_cart : CartStore := mkCartStore [] [].

Definition set_lines (f : list (string * CartLine) → list (string * CartLine)) (s : CartStore) :=
  mkCartStore (f (lines_ s)) (mutations_by_key s).
Definition set_mutations f (s : CartStore) := mkCartStore (lines_ s) (f (mutations_by_key s)).

Definition mutation_matches (record : CartMutationRecord) (operation : CartOperation)
    (sku name : string) (price_usd : Z) (quantity : option Z) (pre_confirm_quantity : Z) : bool :=
  bool_decide (cm_operation record = operation)
  && bool_decide (cm_sku record = sku)
  && bool_decide (cm_name record = name)
  && (cm_price_usd record =? price_usd)
  && bool_decide (cm_quantity record = quantity)
  && (cm_pre_confirm_quantity record =? pre_confirm_quantity).

Definition from_state (state : CartSessionState) : CartStore :=
  mkCartStore
    (dict_of ((λ l, (cl_sku l, l)) <$> cs_lines state))
    (dict_of ((λ r, (rc_idempotency_key r, rc_record r)) <$> cs_mutation_receipts state)).

Definition export_state (s : CartStore) : res CartSessionState :=
  make_CartSessionState (dvalues (lines_ s))
    ((λ '(k, r), mkCartMutationReceipt k r) <$> mutations_by_key s).

Definition restore_state (state : CartSessionState) : M CartStore unit := put (from_state state).

Definition add_item (sku name : string) (price_usd quantity : Z) : M CartStore CartLine :=
  s ← get;
  let existing := dget sku (lines_ s) in
  let new_quantity := (match existing with Some l => cl_quantity l | None => 0 end) + quantity in
  line ← lift (make_CartLine sku name price_usd new_quantity);
  modify (set_lines (dset sku line)) ;;
  mret line.

Definition set_quantity (sku : string) (quantity : Z) : M CartStore (option CartLine) :=
  if quantity <=? 0 then
    modify (set_lines (dpop sku)) ;; mret None
  else
    s ← get;
    match dget sku (lines_ s) with
    | None => mret None
    | Some existing =>
        let line := mkCartLine (cl_sku existing) (cl_name existing) (cl_price_usd existing) quantity in
        modify (set_lines (dset sku line)) ;; mret (Some line)
    end.

Definition remove_item (sku : string) : M CartStore bool :=
  s ← get;
  modify (set_lines (dpop sku)) ;;
  mret (dmem sku (lines_ s)).

(** The final quantity of a confirmed operation over the live quantity. *)
Definition final_quantity_of (operation : CartOperation) (quantity : option Z)
    (previous_quantity : Z) : res Z :=
  match operation, quantity with
  | add, Some q =>
      if q <? 1 then raises CartMutationError "confirmed add requires a positive quantity"
      else inr (previous_quantity + q)
  | add, None => raises CartMutationError "confirmed add requires a positive quantity"
  | remove, Some _ => raises CartMutationError "confirmed remove forbids a quantity"
  | remove, None => inr 0
  | set_quantity_op, Some q =>
      if q <? 0 then raises CartMutationError "confirmed set-quantity requires a final quantity"
      else inr q
  | set_quantity_op, None =>
      raises CartMutationError "confirmed set-quantity requires a final quantity"
  end.

Definition apply_confirmed_mutation (idempotency_key : string) (operation : CartOperation)
    (sku name : string) (price_usd : Decimal) (quantity : option Z) (pre_confirm_quantity : Z)
    : M CartStore CartMutationRecord :=
  require (negb (blank idempotency_key)) CartMutationError
    "cart mutation idempotency key must not be blank" ;;
  checked_price ← lift (validate_usd price_usd);
  s ← get;
  match dget idempotency_key (mutations_by_key s) with
  | Some existing_record =>
      require (mutation_matches existing_record operation sku name checked_price quantity
                 pre_confirm_quantity)
        CartMutationError "cart mutation idempotency key was reused with different parameters" ;;
      mret existing_record
  | None =>
      let current := dget sku (lines_ s) in
      let previous_quantity := match current with Some l => cl_quantity l | None => 0 end in
      final_quantity ← lift (final_quantity_of operation quantity previous_quantity);
      let record := mkCartMutationRecord operation sku name checked_price quantity
        pre_confirm_quantity previous_quantity final_quantity
        (if previous_quantity =? final_quantity then unchanged else applied) in
      lift (validated (CartMutationRecord_valid record) tt) ;;
      (if final_quantity =? 0 then modify (set_lines (dpop sku))
       else
         line ← lift (make_CartLine sku name checked_price final_quantity);
         modify (set_lines (dset sku line))) ;;
      modify (set_mutations (dset idempotency_key record)) ;;
      mret record
  end.

Definition mutation_receipt (idempotency_key : string) (operation : CartOperation)
    (sku name : string) (price_usd : Decimal) (quantity : option Z) (pre_confirm_quantity : Z)
    (s : CartStore) : res (ReceiptLookup CartMutationRecord) :=
  requires (negb (blank idempotency_key)) CartMutationError
    "cart mutation idempotency key must not be blank" ;;
  checked_price ← validate_usd price_usd;
  mret (classify_receipt (dget idempotency_key (mutations_by_key s))
    (λ record, mutation_matches record operation sku name checked_price quantity
                 pre_confirm_quantity)).

Definition view (s : CartStore) : list CartLine := dvalues (lines_ s).
Definition is_empty (s : CartStore) : bool := bool_decide (lines_ s = []).
Definition cart_total (s : CartStore) : Z := sumZ (line_total <$> dvalues (lines_ s)).
Definition snapshot (s : CartStore) : list CartLine := dvalues (lines_ s).
Definition receipt_counts (s : CartStore) : CartReceiptCounts :=
  {| mutations := length (mutations_by_key s) |}.
Definition clear : M CartStore unit := put empty_cart.
Definition line_count (s : CartStore) : nat := length (lines_ s).

(** ** Well-formedness *)
Definition line_entry_ok (kl : string * CartLine) : Prop :=
  cl_sku kl.2 = kl.1 ∧ CartLine_valid kl.2 = true.
Definition mutation_entry_ok (kr : string * CartMutationRecord) : Prop :=
  blank kr.1 = false ∧ CartMutationRecord_valid kr.2 = true.

Record cart_ok (s : CartStore) : Prop := {
  ok_lines_nodup : NoDup (dkeys (lines_ s));
  ok_lines : Forall line_entry_ok (lines_ s);
  ok_muts_nodup : NoDup (dkeys (mutations_by_key s));
  ok_muts : Forall mutation_entry_ok (mutations_by_key s) }.

Lemma make_CartLine_ok sku name p q l :
  make_CartLine sku name p q = inr l → l = mkCartLine sku name p q ∧ CartLine_valid l = true.
Proof. unfold make_CartLine. munfold. intros; mcases; auto. Qed.

Lemma CartLine_valid_iff l : CartLine_valid l = true ↔
  cl_sku l ≠ "" ∧ cl_name l ≠ "" ∧ 0 ≤ cl_price_usd l ∧ 1 ≤ cl_quantity l.
Proof. unfold CartLine_valid. rewrite !andb_true_iff, !nonempty_spec, !Z.leb_le. tauto. Qed.

Lemma line_entry_lookup s sku l :
  cart_ok s → dget sku (lines_ s) = Some l → cl_sku l = sku ∧ CartLine_valid l = true.
Proof.
  intros Hok Hg%dget_Some_elem. pose proof (ok_lines _ Hok) as Hl.
  rewrite Forall_forall in Hl. by apply Hl in Hg.
Qed.

Lemma empty_cart_ok : cart_ok empty_cart.
Proof. split; constructor. Qed.

Lemma set_lines_dpop_ok s sku : cart_ok s → cart_ok (set_lines (dpop sku) s).
Proof. intros []. split; simpl; auto with pydict. Qed.

Lemma set_lines_dset_ok s sku l :
  cart_ok s → cl_sku l = sku → CartLine_valid l = true → cart_ok (set_lines (dset sku l) s).
Proof. intros [] Hs Hl. split; simpl; auto with pydict. by apply dset_Forall. Qed.

Lemma set_mutations_dset_ok s k r :
  cart_ok s → blank k = false → CartMutationRecord_valid r = true →
  cart_ok (set_mutations (dset k r) s).
Proof. intros [] Hs Hl. split; simpl; auto with pydict. by apply dset_Forall. Qed.

Create HintDb cart.
#[export] Hint Resolve empty_cart_ok set_lines_dpop_ok set_lines_dset_ok set_mutations_dset_ok : cart.

Lemma from_state_ok st : CartSessionState_valid st = true → cart_ok (from_state st).
Proof.
  unfold CartSessionState_valid, make_CartSessionState, from_state, identifiers_are_unique. munfold.
  intros H. mcases; bools; try done.
  rewrite !forallb_forall in *. split; simpl; auto with pydict.
  - rewrite dict_of_id; [|unfold dkeys; rewrite <-list_fmap_compose; done].
    apply Forall_fmap, Forall_forall. intros l Hl. split; [done|]. by apply H, list_elem_of_In.
  - rewrite dict_of_id; [|unfold dkeys; rewrite <-list_fmap_compose; done].
    apply Forall_fmap, Forall_forall. intros r Hr%list_elem_of_In. split; simpl; [|by auto].
    match goal with H : ∀ x, In x _ → idempotency_key_is_nonblank _ = true |- _ =>
      apply H in Hr end.
    unfold idempotency_key_is_nonblank in *. by bools.
Qed.

(** ** One confirmed mutation *)
Definition quantity_in (s : CartStore) (sku : string) : Z :=
  match dget sku (lines_ s) with Some l => cl_quantity l | None => 0 end.

(** The record and the next store of a mutation applied for the first time. *)
Definition fresh_record op sku name price quantity pre prev final : CartMutationRecord :=
  mkCartMutationRecord op sku name price quantity pre prev final
    (if prev =? final then unchanged else applied).
Definition fresh_store (s : CartStore) key sku name price final record : CartStore :=
  set_mutations (dset key record)
    (set_lines (if final =? 0 then dpop sku else dset sku (mkCartLine sku name price final)) s).

(** Every run is an error that changes nothing, a replay that changes nothing,
    or a first application. *)
Lemma apply_cases s key op sku name price quantity pre s' r :
  apply_confirmed_mutation key op sku name price quantity pre s = (s', r) →
  (∃ e, r = inl e ∧ s' = s) ∨
  (∃ rec c, r = inr rec ∧ s' = s ∧ validate_usd price = inr c ∧
     dget key (mutations_by_key s) = Some rec ∧
     mutation_matches rec op sku name c quantity pre = true) ∨
  (∃ c final, let record := fresh_record op sku name c quantity pre (quantity_in s sku) final in
     r = inr record ∧ s' = fresh_store s key sku name c final record ∧
     blank key = false ∧ validate_usd price = inr c ∧
     dget key (mutations_by_key s) = None ∧
     final_quantity_of op quantity (quantity_in s sku) = inr final ∧
     CartMutationRecord_valid record = true ∧
     (final ≠ 0 → CartLine_valid (mkCartLine sku name c final) = true)).
Proof.
  unfold apply_confirmed_mutation, make_CartLine. munfold_goal. intros H.
  destruct (blank key) eqn:Hb; simpl in H; [simplify_eq; eauto|].
  destruct (validate_usd price) as [e|c] eqn:Hv; simpl in H; [simplify_eq; eauto|].
  destruct (dget key (mutations_by_key s)) as [rec|] eqn:Hg.
  { destruct (mutation_matches _ _ _ _ _ _ _) eqn:Hm; simplify_eq; [|by eauto].
    right; left. eauto 10. }
  fold (quantity_in s sku) in H.
  destruct (final_quantity_of op quantity (quantity_in s sku)) as [e|final] eqn:Hf;
    [simplify_eq; eauto|].
  destruct (CartMutationRecord_valid _) eqn:Hr; simpl in H; [|simplify_eq; eauto].
  fold (fresh_record op sku name c quantity pre (quantity_in s sku) final) in *.
  unfold fresh_store.
  destruct (final =? 0) eqn:E0; bools; [|destruct (CartLine_valid (mkCartLine _ _ _ _)) eqn:Hl];
    simplify_eq; [| |by eauto]; right; right; eexists c, _; rewrite ?E0; split_and!; try done.
  by apply Z.eqb_neq in E0; rewrite E0.
Qed.

(** A first application never fails once the confirmed request is consistent. *)
Lemma apply_fresh s key op sku name price quantity pre c final :
  cart_ok s → blank key = false → sku ≠ "" → name ≠ "" → 0 ≤ pre →
  validate_usd price = inr c → dget key (mutations_by_key s) = None →
  final_quantity_of op quantity (quantity_in s sku) = inr final →
  let record := fresh_record op sku name c quantity pre (quantity_in s sku) final in
  apply_confirmed_mutation key op sku name price quantity pre s =
    (fresh_store s key sku name c final record, inr record).
Proof.
  intros Hok Hb Hsku Hname Hpre Hv Hg Hf.
  assert (0 ≤ c) as Hc by eauto with money.
  assert (0 ≤ quantity_in s sku) as Hprev.
  { unfold quantity_in. destruct (dget sku (lines_ s)) as [l|] eqn:E; [|done].
    eapply line_entry_lookup in E as [_ (_ & _ & _ & ?)%CartLine_valid_iff]; [|done]. lia. }
  assert (0 ≤ final ∧ CartMutationRecord_valid
    (fresh_record op sku name c quantity pre (quantity_in s sku) final) = true) as [Hfin Hrec].
  { unfold CartMutationRecord_valid, result_is_coherent, fresh_record.
    destruct op, quantity as [q|]; simpl in *; unfold raises in *; mcases; bools; (split; [lia|]);
      rewrite !andb_true_iff, !nonempty_spec, ?Z.leb_le, ?Z.eqb_eq;
      split_and!; try done; try lia. }
  cbv zeta. unfold apply_confirmed_mutation, make_CartLine, fresh_store. munfold_goal.
  rewrite Hb; simpl. rewrite Hv, Hg. fold (quantity_in s sku). rewrite Hf.
  unfold fresh_record in *. rewrite Hrec. simpl.
  destruct (Z.eqb_spec final 0); [done|].
  rewrite (proj2 (CartLine_valid_iff (mkCartLine sku name c final))); [done|].
  simpl. split_and!; try done; lia.
Qed.

Lemma apply_preserves_ok s key op sku name price quantity pre :
  cart_ok s → cart_ok (apply_confirmed_mutation key op sku name price quantity pre s).1.
Proof.
  intros Hok. destruct (apply_confirmed_mutation _ _ _ _ _ _ _ _) as [s' r] eqn:E.
  apply apply_cases in E as [(e & _ & ->)|[(rec & c & _ & -> & _)|Hfresh]]; [done..|].
  destruct Hfresh as (c & final & Hr & -> & Hb & Hv & Hg & Hf & Hrec & Hl). simpl.
  unfold fresh_store. apply set_mutations_dset_ok; [|done|done].
  destruct (Z.eqb_spec final 0); auto with cart.
Qed.

(** ** Runs of cart calls *)
Inductive CartCall :=
  | CallAdd (sku name : string) (price quantity : Z)
  | CallSet (sku : string) (quantity : Z)
  | CallRemove (sku : string)
  | CallApply (key : string) (op : CartOperation) (sku name : string) (price : Decimal)
      (quantity : option Z) (pre : Z)
  | CallClear
  | CallRestore (state : CartSessionState).

Definition run_cart_call (c : CartCall) (s : CartStore) : CartStore :=
  match c with
  | CallAdd sku name price q => (add_item sku name price q s).1
  | CallSet sku q => (set_quantity sku q s).1
  | CallRemove sku => (remove_item sku s).1
  | CallApply key op sku name price q pre =>
      (apply_confirmed_mutation key op sku name price q pre s).1
  | CallClear => (clear s).1
  | CallRestore st => (restore_state st s).1
  end.

Definition run_cart_calls (cs : list CartCall) (s : CartStore) : CartStore :=
  foldl (λ s c, run_cart_call c s) s cs.

(** Only validated payloads reach [restore_state]. *)
Definition cart_call_ok (c : CartCall) : bool :=
  match c with CallRestore st => CartSessionState_valid st | _ => true end.

(** The calls that keep the ledger: everything but a wholesale reset. *)
Definition keeps_ledger (c : CartCall) : bool :=
  match c with CallClear | CallRestore _ => false | _ => true end.

Lemma run_cart_call_ok c s : cart_call_ok c = true → cart_ok s → cart_ok (run_cart_call c s).
Proof.
  intros Hc Hok. destruct c; simpl in *.
  - unfold add_item. munfold_goal. destruct (make_CartLine _ _ _ _) as [|l] eqn:E; [done|].
    apply make_CartLine_ok in E as [-> ?]. by apply set_lines_dset_ok.
  - unfold set_quantity. munfold_goal. case_match; [by apply set_lines_dpop_ok|].
    destruct (dget sku (lines_ s)) as [l|] eqn:E; [|done]. simpl.
    eapply line_entry_lookup in E as [? (? & ? & ? & ?)%CartLine_valid_iff]; [|done].
    apply set_lines_dset_ok; [done..|]. apply CartLine_valid_iff; simpl. bools. split_and!; try done. lia.
  - by apply set_lines_dpop_ok.
  - by apply apply_preserves_ok.
  - apply empty_cart_ok.
  - by apply from_state_ok.
Qed.

Lemma ledger_kept c s key r :
  keeps_ledger c = true → dget key (mutations_by_key s) = Some r →
  dget key (mutations_by_key (run_cart_call c s)) = Some r.
Proof.
  intros Hc Hg. destruct c; simpl in *; try done.
  - unfold add_item. munfold_goal. by destruct (make_CartLine _ _ _ _).
  - unfold set_quantity. munfold_goal. case_match; [done|]. by destruct (dget _ (lines_ s)).
  - destruct (apply_confirmed_mutation _ _ _ _ _ _ _ _) as [s' o] eqn:E; simpl.
    apply apply_cases in E as [(e & _ & ->)|[(rec & c & _ & -> & _)|Hfresh]]; [done..|].
    destruct Hfresh as (c & final & Hr & -> & Hb & Hv & Hk & Hf & Hrec & Hl). simpl.
    rewrite dget_dset_ne; [done|]. congruence.
Qed.

Lemma ledger_kept_all cs s key r :
  forallb keeps_ledger cs = true → dget key (mutations_by_key s) = Some r →
  dget key (mutations_by_key (run_cart_calls cs s)) = Some r.
Proof.
  unfold run_cart_calls. revert s; induction cs as [|c cs IH]; simpl; intros s; [done|].
  intros [? ?]%andb_true_iff ?. eauto using ledger_kept.
Qed.

(** ** Exporting and restoring *)
Definition exported (s : CartStore) : CartSessionState :=
  mkCartSessionState (dvalues (lines_ s))
    ((λ '(k, r), mkCartMutationReceipt k r) <$> mutations_by_key s).

Lemma rekey_lines (d : list (string * CartLine)) :
  Forall line_entry_ok d → (λ l, (cl_sku l, l)) <$> d.*2 = d.
Proof.
  induction 1 as [|[k l] d [Hk _] _ IH]; [done|]. rewrite !fmap_cons, IH. simpl in *. by rewrite Hk.
Qed.

Lemma rekey_receipts (d : list (string * CartMutationRecord)) :
  (λ r, (rc_idempotency_key r, rc_record r)) <$> ((λ '(k, r), mkCartMutationReceipt k r) <$> d) = d.
Proof. induction d as [|[k r] d IH]; [done|]. by rewrite !fmap_cons, IH. Qed.

Lemma from_state_exported s : cart_ok s → from_state (exported s) = s.
Proof.
  intros [Hln Hl Hmn Hm]. unfold from_state, exported, dvalues. simpl.
  rewrite rekey_lines, rekey_receipts, !dict_of_id by done. by destruct s.
Qed.

Lemma exported_constructs s : cart_ok s → export_state s = inr (exported s).
Proof.
  intros [Hln Hl Hmn Hm]. unfold export_state, make_CartSessionState. munfold_goal.
  fold (exported s). change (((λ '(k, r), mkCartMutationReceipt k r) <$> mutations_by_key s))
    with (cs_mutation_receipts (exported s)).
  cut (forallb idempotency_key_is_nonblank (cs_mutation_receipts (exported s))
    && identifiers_are_unique (exported s) = true); [by intros ->|].
  rewrite andb_true_iff, forallb_forall. split.
  - intros r ([k x] & -> & Hin)%list_elem_of_In%list_elem_of_fmap. simpl.
    rewrite Forall_forall in Hm. apply Hm in Hin as [Hb _]. simpl in Hb.
    unfold idempotency_key_is_nonblank. simpl. rewrite Hb, andb_true_r.
    by apply nonempty_spec, blank_false_nonempty.
  - unfold identifiers_are_unique, exported, dvalues. simpl. rewrite andb_true_iff, !bool_decide_eq_true.
    rewrite <-(rekey_lines (lines_ s)) in Hln by done.
    rewrite <-(rekey_receipts (mutations_by_key s)) in Hmn.
    unfold dkeys in *. rewrite <-!list_fmap_compose in *. done.
Qed.

(** ** Properties *)

(** Every sequence of cart calls keeps the cart well formed: the keys of both dictionaries are
    distinct, every line is stored under its own SKU with a non-negative price and a quantity of
    at least one, every ledger record is coherent and stored under a non-blank key.  Only a
    restored state has to be a validated one. *)
Theorem cart_calls_preserve_ok cs s :
  cart_ok s → forallb cart_call_ok cs = true → cart_ok (run_cart_calls cs s).
Proof.
  unfold run_cart_calls. revert s; induction cs as [|c cs IH]; simpl; intros s Hok; [done|].
  intros [? ?]%andb_true_iff. apply IH; [|done]. by apply run_cart_call_ok.
Qed.

(** A confirmed mutation under an unused key takes effect exactly as specified: it leaves the SKU
    with the final quantity the operation determines (no line at zero), reports the quantities
    before and after and whether anything changed, touches no other line, and appends its record
    to the ledger. *)
Theorem apply_confirmed_mutation_effect s key op sku name price quantity pre c final :
  cart_ok s → blank key = false → sku ≠ "" → name ≠ "" → 0 ≤ pre →
  validate_usd price = inr c → dget key (mutations_by_key s) = None →
  final_quantity_of op quantity (quantity_in s sku) = inr final →
  ∃ s' record,
    apply_confirmed_mutation key op sku name price quantity pre s = (s', inr record) ∧
    cm_previous_quantity record = quantity_in s sku ∧ cm_final_quantity record = final ∧
    (cm_outcome record = applied ↔ quantity_in s' sku ≠ quantity_in s sku) ∧
    dget sku (lines_ s') =
      (if final =? 0 then None else Some (mkCartLine sku name c final)) ∧
    (∀ sku', sku' ≠ sku → dget sku' (lines_ s') = dget sku' (lines_ s)) ∧
    mutations_by_key s' = mutations_by_key s ++ [(key, record)].
Proof.
  intros Hok Hb Hs Hn Hp Hv Hg Hf.
  pose proof (apply_fresh s key op sku name price quantity pre c final Hok Hb Hs Hn Hp Hv Hg Hf) as E.
  cbv zeta in E. remember (fresh_record _ _ _ _ _ _ _ _) as record eqn:Hr.
  remember (fresh_store _ _ _ _ _ _ _) as s' eqn:Hs'. exists s', record. split; [done|].
  assert (dget sku (lines_ s') =
    (if final =? 0 then None else Some (mkCartLine sku name c final))) as Hl.
  { subst s'. simpl. destruct (final =? 0); [apply dget_dpop_eq, ok_lines_nodup, Hok | apply dget_dset_eq]. }
  split_and!; [by subst|by subst| |done| |].
  - unfold quantity_in at 1. rewrite Hl, Hr. simpl.
    destruct (Z.eqb_spec (quantity_in s sku) final), (Z.eqb_spec final 0); simpl; split; try done; lia.
  - intros sku' Hne. subst s'. simpl.
    destruct (final =? 0); [by apply dget_dpop_ne | by apply dget_dset_ne].
  - subst s'. by apply dset_fresh.
Qed.

(** A confirmed mutation is applied once: after it returned its record, the same call after any
    further cart calls that keep the ledger returns that record and changes nothing, and the
    receipt lookup reports it committed. *)
Theorem apply_confirmed_mutation_once s key op sku name price quantity pre s' record cs :
  apply_confirmed_mutation key op sku name price quantity pre s = (s', inr record) →
  forallb keeps_ledger cs = true →
  let later := run_cart_calls cs s' in
  apply_confirmed_mutation key op sku name price quantity pre later = (later, inr record) ∧
  mutation_receipt key op sku name price quantity pre later = inr (CommittedReceipt record).
Proof.
  intros Ha Hk later.
  assert (blank key = false) as Hb.
  { unfold apply_confirmed_mutation in Ha. munfold. by destruct (blank key). }
  assert (∃ c, validate_usd price = inr c ∧ dget key (mutations_by_key later) = Some record ∧
    mutation_matches record op sku name c quantity pre = true) as (c & Hv & Hg & Hm).
  { apply apply_cases in Ha as [(e & ? & _)|[(rec & c & ? & -> & Hv & Hg & Hm)|Hf]]; simplify_eq.
    - eauto using ledger_kept_all.
    - destruct Hf as (c & final & ? & -> & _ & Hv & _). simplify_eq. exists c. split_and!; [done| |].
      + apply ledger_kept_all; [done|]. simpl. apply dget_dset_eq.
      + unfold mutation_matches. simpl. by rewrite !bool_decide_eq_true_2, !Z.eqb_refl by done. }
  unfold apply_confirmed_mutation, mutation_receipt. munfold_goal.
  rewrite Hb, Hv. simpl. rewrite Hg. simpl. by rewrite Hm.
Qed.

(** A confirmed mutation that raises leaves lines and ledger as they were. *)
Theorem apply_confirmed_mutation_error_unchanged s key op sku name price quantity pre s' e :
  apply_confirmed_mutation key op sku name price quantity pre s = (s', inl e) → s' = s.
Proof.
  intros [(? & ? & ->)|[(? & ? & ? & _)|(? & ? & ? & _)]]%apply_cases; by simplify_eq.
Qed.

(** Exporting a well-formed cart succeeds with a state that validates, and restoring that state
    gives back the same cart, lines and ledger in their order. *)
Theorem export_restore_roundtrip s :
  cart_ok s →
  ∃ state, export_state s = inr state ∧ CartSessionState_valid state = true ∧
    from_state state = s.
Proof.
  intros Hok. exists (exported s).
  pose proof (exported_constructs s Hok) as Hc. split_and!; [done| |by apply from_state_exported].
  destruct Hok as [_ Hl _ Hm]. unfold CartSessionState_valid. rewrite !andb_true_iff, !forallb_forall.
  unfold export_state in Hc. simpl. rewrite Hc. split_and!; [| |done].
  - intros l (kl & -> & Hin)%list_elem_of_In%list_elem_of_fmap.
    rewrite Forall_forall in Hl. by apply Hl in Hin as [_ ?].
  - intros r ([k x] & -> & Hin)%list_elem_of_In%list_elem_of_fmap.
    rewrite Forall_forall in Hm. by apply Hm in Hin as [_ ?].
Qed.

(** ** Witnesses *)
Definition demo_cart : CartStore :=
  run_cart_calls
    [CallAdd "S1" "mug" 1250 2; CallAdd "S2" "sock" 300 1;
     CallApply "k1" remove "S2" "sock" (DFinite 3 0) None 1] empty_cart.

Lemma demo_cart_ok : cart_ok demo_cart.
Proof.
  split; [apply (bool_decide_unpack _); by vm_compute| |apply (bool_decide_unpack _); by vm_compute|];
    vm_compute; repeat constructor.
Qed.

Lemma cart_calls_preserve_ok_witness :
  cart_ok empty_cart ∧ cart_ok (run_cart_calls [CallAdd "S1" "mug" 1250 2; CallSet "S1" 0] empty_cart).
Proof.
  split; [split; constructor|].
  apply cart_calls_preserve_ok; [split; constructor|reflexivity].
Defined.

Lemma apply_confirmed_mutation_effect_witness :
  ∃ s' record,
    apply_confirmed_mutation "k2" set_quantity_op "S1" "mug" (DFinite 125 (-1)) (Some 5) 2 demo_cart =
      (s', inr record) ∧
    cm_previous_quantity record = 2 ∧ cm_final_quantity record = 5 ∧
    dget "S1" (lines_ s') = Some (mkCartLine "S1" "mug" 1250 5).
Proof.
  destruct (apply_confirmed_mutation_effect demo_cart "k2" set_quantity_op "S1" "mug"
    (DFinite 125 (-1)) (Some 5) 2 1250 5) as (s' & record & Hr & Hp & Hf & _ & Hl & _);
    [apply demo_cart_ok|by vm_compute..|].
  exists s', record. split_and!; [apply Hr|apply Hp|apply Hf|apply Hl].
Defined.

Lemma apply_confirmed_mutation_once_witness :
  apply_confirmed_mutation "k1" remove "S2" "sock" (DFinite 3 0) None 1
    (run_cart_calls [CallAdd "S2" "sock" 300 4] demo_cart) =
  (run_cart_calls [CallAdd "S2" "sock" 300 4] demo_cart,
   inr (mkCartMutationRecord remove "S2" "sock" 300 None 1 1 0 applied)).
Proof.
  eapply (apply_confirmed_mutation_once
    (run_cart_calls [CallAdd "S1" "mug" 1250 2; CallAdd "S2" "sock" 300 1] empty_cart)
    "k1" remove "S2" "sock" (DFinite 3 0) None 1 demo_cart); by vm_compute.
Defined.

Lemma apply_confirmed_mutation_error_unchanged_witness :
  ∃ e, apply_confirmed_mutation "k1" remove "S1" "mug" (DFinite 3 0) None 1 demo_cart =
    (demo_cart, inl e).
Proof.
  destruct (apply_confirmed_mutation "k1" remove "S1" "mug" (DFinite 3 0) None 1 demo_cart)
    as [s' [e|r]] eqn:E; [|vm_compute in E; discriminate].
  exists e. by rewrite (apply_confirmed_mutation_error_unchanged _ _ _ _ _ _ _ _ _ _ E).
Defined.

Lemma export_restore_roundtrip_witness :
  ∃ state, export_state demo_cart = inr state ∧ from_state state = demo_cart.
Proof.
  destruct (export_restore_roundtrip demo_cart demo_cart_ok) as (st & H1 & _ & H2).
  exists st. split; [apply H1|apply H2].
Defined.
