(* ===== verification/Orders.v ===== *)
(** * Order data and spoken order text (commerce/orders.py, first half)

    The order records, the code-authored text the callers hear about orders,
    carts and cancellations, and the calendar functions of the Python standard
    library that the ETA renderer uses. *)

From S2P Require Import Prelude PyText Money Cart.

(** ** Lines: [Sequence[CartLine] | Sequence[PlacedLine]] *)
Class LineLike (A : Type) := {
  ln_sku : A → string; ln_name : A → string; ln_price_usd : A → Z; ln_quantity : A → Z }.

#[export] Instance CartLine_line : LineLike CartLine :=
  {| ln_sku := cl_sku; ln_name := cl_name; ln_price_usd := cl_price_usd;
     ln_quantity := cl_quantity |}.

Record PlacedLine := mkPlacedLine {
  pl_sku : string; pl_name : string; pl_price_usd : Z; pl_quantity : Z }.

#[export] Instance PlacedLine_eq_dec : EqDecision PlacedLine.
Proof. solve_decision. Defined.

#[export] Instance PlacedLine_line : LineLike PlacedLine :=
  {| ln_sku := pl_sku; ln_name := pl_name; ln_price_usd := pl_price_usd;
     ln_quantity := pl_quantity |}.

Definition speak_quantity (quantity : Z) (name : string) : string :=
  let plural := if (quantity =? 1) || ends_with "s" name then name else name +:+ "s" in
  str_int quantity +:+ " " +:+ plural.

(** [parts[-1]] of an empty list raises [IndexError]. *)
Definition speak_lines {A} `{LineLike A} (lines : list A) : res string :=
  match (λ l, speak_quantity (ln_quantity l) (ln_name l)) <$> lines with
  | [] => raises IndexError "list index out of range"
  | [p] => inr p
  | [p; q] => inr (p +:+ " and " +:+ q)
  | parts => inr (join ", " (removelast parts) +:+ ", and " +:+ List.last parts "")
  end.

(** ** Calendar dates of the standard library *)
Record date := mkDate { year : Z; month : Z; day : Z }.

#[export] Instance date_eq_dec : EqDecision date.
Proof. solve_decision. Defined.

Definition date_lt (a b : date) : bool :=
  (year a <? year b) ||
  ((year a =? year b) && ((month a <? month b) || ((month a =? month b) && (day a <? day b)))).

Definition is_leap (y : Z) : bool :=
  (y mod 4 =? 0) && (negb (y mod 100 =? 0) || (y mod 400 =? 0)).
Definition days_in_month (y m : Z) : Z :=
  if m =? 2 then (if is_leap y then 29 else 28)
  else if (m =? 4) || (m =? 6) || (m =? 9) || (m =? 11) then 30 else 31.
Definition days_before_month (y m : Z) : Z :=
  sumZ ((λ k, days_in_month y (Z.of_nat k)) <$> seq 1 (Z.to_nat (m - 1))).
Definition toordinal (d : date) : Z :=
  let y := year d - 1 in
  y * 365 + y / 4 - y / 100 + y / 400 + days_before_month (year d) (month d) + day d.
Definition weekday (d : date) : Z := (toordinal d + 6) mod 7.

Definition weekday_names : list string :=
  ["Monday"; "Tuesday"; "Wednesday"; "Thursday"; "Friday"; "Saturday"; "Sunday"].
Definition month_names : list string :=
  ["January"; "February"; "March"; "April"; "May"; "June"; "July"; "August"; "September";
   "October"; "November"; "December"].
Definition two_digits (n : Z) : string :=
  String (char_of_digit (n / 10)) (String (char_of_digit (n mod 10)) "").

(** [d.strftime("%A %d %B")] *)
Definition strftime (d : date) : string :=
  nth (Z.to_nat (weekday d)) weekday_names "" +:+ " " +:+ two_digits (day d) +:+ " " +:+
  nth (Z.to_nat (month d - 1)) month_names "".

Definition digit_val (c : ascii) : Z := Z.of_nat (code c) - 48.

(** The two-digit-or-one-digit fields of [strptime]'s "%m" and "%d": the
    longest admissible prefix, with [two] the admissible two-digit values. *)
Definition parse_field (two : ascii → ascii → bool) (s : string) : option (Z * string) :=
  match s with
  | String a ((String b s') as t) =>
      if two a b then Some (10 * digit_val a + digit_val b, s')
      else if between 49 57 a then Some (digit_val a, t) else None
  | String a "" => if between 49 57 a then Some (digit_val a, "") else None
  | "" => None
  end.
Definition month_two (a b : ascii) : bool :=
  (Ascii.eqb a "1" && between 48 50 b) || (Ascii.eqb a "0" && between 49 57 b).
Definition day_two (a b : ascii) : bool :=
  (Ascii.eqb a "3" && between 48 49 b) || (between 49 50 a && is_digit b) ||
  (Ascii.eqb a "0" && between 49 57 b).
(** "%d" also admits a space before a single digit. *)
Definition parse_day (s : string) : option (Z * string) :=
  match parse_field day_two s with
  | Some r => Some r
  | None =>
      match s with
      | String " " (String b s') => if between 49 57 b then Some (digit_val b, s') else None
      | _ => None
      end
  end.

(** [datetime.strptime(s, "%Y-%m-%d").date()], [None] for [ValueError]. *)
Definition strptime (s : string) : option date :=
  match s with
  | String y1 (String y2 (String y3 (String y4 (String "-" s1)))) =>
      if is_digit y1 && is_digit y2 && is_digit y3 && is_digit y4 then
        match parse_field month_two s1 with
        | Some (m, String "-" s2) =>
            match parse_day s2 with
            | Some (d, "") =>
                let y := 1000 * digit_val y1 + 100 * digit_val y2 + 10 * digit_val y3 + digit_val y4 in
                if (1 <=? y) && (d <=? days_in_month y m) then Some (mkDate y m d) else None
            | _ => None
            end
        | _ => None
        end
      else None
  | _ => None
  end.

(** ** The ETA and status renderers *)
Definition STATUS_PHRASE : list (string * string) :=
  [("shipped", "on its way"); ("processing", "being prepared"); ("delivered", "delivered");
   ("cancelled", "cancelled")].

Definition looks_like_duration (eta : string) : bool :=
  let lowered := lower eta in
  sexists is_digit eta && existsb (λ unit, py_in unit lowered) ["day"; "week"; "hour"; "month"].

Definition eta_clause (eta : option string) (today : date) : string :=
  match eta with
  | None => ""
  | Some eta =>
      if negb (nonempty eta) then ""
      else
        match strptime eta with
        | None =>
            if looks_like_duration eta then ", expected in " +:+ replace_char "-" " to " eta else ""
        | Some eta_date =>
            let spoken := strftime eta_date in
            if date_lt eta_date today then " - that was expected by " +:+ spoken
            else if bool_decide (eta_date = today) then " - expected to arrive today"
            else ", expected to arrive by " +:+ spoken
        end
  end.

Definition is_past_date_eta (eta : option string) (today : date) : bool :=
  match eta with
  | None => false
  | Some eta =>
      if negb (nonempty eta) then false
      else match strptime eta with Some d => date_lt d today | None => false end
  end.

Definition render_order_status_line (order_id status items : string) (eta : option string)
    (today : date) : string :=
  let order_id := canon order_id in
  match dget status STATUS_PHRASE with
  | None => "Your order " +:+ order_id +:+ " - " +:+ items +:+ " - is " +:+ status +:+ "."
  | Some phrase =>
      if bool_decide (status = "shipped") && is_past_date_eta eta today then
        let spoken :=
          match eta with
          | Some e => match strptime e with Some d => strftime d | None => "" end
          | None => ""
          end in
        "Your order " +:+ order_id +:+ " - " +:+ items +:+ " - was expected by " +:+ spoken +:+ "."
      else
        let clause :=
          if bool_decide (status ∈ ["shipped"; "processing"]) then eta_clause eta today else "" in
        "Your order " +:+ order_id +:+ " - " +:+ items +:+ " - is " +:+ phrase +:+ clause +:+ "."
  end.

Definition render_cart_line (lines : list CartLine) (total_usd : Z) : res string :=
  spoken ← speak_lines lines;
  mret ("You've got " +:+ spoken +:+ " in your cart, $" +:+ str_usd total_usd +:+ " in total.").

(** ** Order candidates *)
Record OrderCandidate := mkOrderCandidate {
  oc_key : string; oc_order_id : string; oc_summary : string; oc_total_usd : Z;
  oc_status : string }.

#[export] Instance OrderCandidate_eq_dec : EqDecision OrderCandidate.
Proof. solve_decision. Defined.

Definition make_OrderCandidate key order_id summary total status : res OrderCandidate :=
  validated (nonempty key && nonempty order_id && nonempty summary && (0 <=? total)
             && nonempty status)
    (mkOrderCandidate key order_id summary total status).

Inductive list_scope := scope_account | scope_session.

Definition render_order_list_line (candidates : list OrderCandidate) (scope : list_scope) : string :=
  match candidates with
  | [] => "I don't see any orders on your account."
  | _ =>
      let parts := (λ c, oc_order_id c +:+ ", " +:+ oc_summary c +:+ ", " +:+
        default (oc_status c) (dget (oc_status c) STATUS_PHRASE)) <$> candidates in
      let n := str_int (Z.of_nat (length parts)) in
      let '(lead_one, lead_many) :=
        match scope with
        | scope_session =>
            ("You've placed 1 order on this call", "You've placed " +:+ n +:+ " orders on this call")
        | scope_account => ("You've got 1 order", "You've got " +:+ n +:+ " orders")
        end in
      match parts with
      | [p] => lead_one +:+ ": " +:+ p +:+ "."
      | _ =>
          lead_many +:+ ": " +:+ join "; " (removelast parts) +:+ "; and " +:+
          List.last parts "" +:+ "."
      end
  end.

(** ** Cancellation outcomes (dtos/state.py [BatchCancelOutcome]) *)
Inductive CancelOutcomeCode :=
  | oc_cancelled | oc_already_cancelled | oc_not_cancellable | oc_has_refunds | oc_store_refused
  | oc_not_completed.

#[export] Instance CancelOutcomeCode_eq_dec : EqDecision CancelOutcomeCode.
Proof. solve_decision. Defined.

Record BatchCancelOutcome := mkBatchCancelOutcome {
  bo_order_id : string; bo_summary : string; bo_outcome : CancelOutcomeCode;
  bo_amount_usd : option Z }.

#[export] Instance BatchCancelOutcome_eq_dec : EqDecision BatchCancelOutcome.
Proof. solve_decision. Defined.

(** [BatchCancelOutcome.amount_matches_outcome] with the field constraints. *)
Definition BatchCancelOutcome_valid (o : BatchCancelOutcome) : bool :=
  nonempty (bo_order_id o) && nonempty (bo_summary o)
  && (match bo_amount_usd o with Some a => 0 <=? a | None => true end)
  && Bool.eqb (bool_decide (bo_outcome o = oc_cancelled)) (isSome (bo_amount_usd o)).

Definition make_BatchCancelOutcome order_id summary outcome amount : res BatchCancelOutcome :=
  let o := mkBatchCancelOutcome order_id summary outcome amount in
  validated (BatchCancelOutcome_valid o) o.

Definition order_named (o : BatchCancelOutcome) : string :=
  "your order for " +:+ bo_summary o +:+ " (" +:+ bo_order_id o +:+ ")".

Definition cancel_outcome_clause (o : BatchCancelOutcome) : res string :=
  match bo_outcome o with
  | oc_cancelled =>
      match bo_amount_usd o with
      | None => raises AssertionError ""
      | Some a =>
          inr (order_named o +:+ " is cancelled and $" +:+ str_usd a +:+
               " goes back to your original payment method")
      end
  | oc_already_cancelled => inr (order_named o +:+ " was already cancelled")
  | oc_not_cancellable =>
      inr (order_named o +:+ " has already shipped, so that one needs a return instead")
  | oc_has_refunds =>
      inr (order_named o +:+
           " already has a refund, so our support team needs to sort out the rest")
  | oc_store_refused =>
      inr ("I couldn't cancel " +:+ order_named o +:+ " - nothing changed on it")
  | oc_not_completed =>
      inr ("the cancellation request for " +:+ order_named o +:+ " did not complete")
  end.

Fixpoint mapR {A B} (f : A → res B) (l : list A) : res (list B) :=
  match l with
  | [] => inr []
  | x :: l' => y ← f x; ys ← mapR f l'; mret (y :: ys)
  end.

Definition render_batch_cancel_outcome (outcomes : list BatchCancelOutcome) : res string :=
  match outcomes with
  | [] => inr "Nothing to cancel - nothing has changed."
  | [only] =>
      match bo_outcome only with
      | oc_cancelled =>
          match bo_amount_usd only with
          | None => raises AssertionError ""
          | Some a =>
              inr ("Done - I've cancelled your order for " +:+ bo_summary only +:+ ". The $" +:+
                   str_usd a +:+ " charge goes back to your original payment method.")
          end
      | _ => clause ← cancel_outcome_clause only; mret (capitalize_head clause +:+ ".")
      end
  | _ =>
      clauses ← mapR cancel_outcome_clause outcomes;
      let joined := join "; " (removelast clauses) +:+ "; and " +:+ List.last clauses "" in
      mret (capitalize_head joined +:+ ".")
  end.

(** ** Order entries and effect records *)
Record OrderEntry := mkOrderEntry {
  oe_status : string; oe_summary : string; oe_eta : string; oe_customer_ref : string;
  oe_total_usd : Z; oe_delivered_at : option string }.

(** [_OrderEntry._delivered_requires_timestamp] with the field constraints. *)
Definition OrderEntry_valid (e : OrderEntry) : bool :=
  nonempty (oe_status e) && nonempty (oe_summary e) && nonempty (oe_eta e)
  && nonempty (oe_customer_ref e) && (0 <=? oe_total_usd e)
  && negb (bool_decide (oe_status e = "delivered") && negb (isSome (oe_delivered_at e))).

Definition PlacedLine_valid (l : PlacedLine) : bool :=
  nonempty (pl_sku l) && nonempty (pl_name l) && (0 <=? pl_price_usd l) && (1 <=? pl_quantity l).

Record PlacedOrder := mkPlacedOrder {
  po_order_id : string; po_total_usd : Z; po_lines : list PlacedLine }.

#[export] Instance PlacedOrder_eq_dec : EqDecision PlacedOrder.
Proof. solve_decision. Defined.

Definition PlacedOrder_valid (p : PlacedOrder) : bool :=
  nonempty (po_order_id p) && (0 <=? po_total_usd p) && negb (bool_decide (po_lines p = []))
  && forallb PlacedLine_valid (po_lines p).

Record RefundRecord := mkRefundRecord {
  rf_refund_id : string; rf_order_id : string; rf_amount_usd : Z; rf_destination : string;
  rf_instrument_ref : string }.

#[export] Instance RefundRecord_eq_dec : EqDecision RefundRecord.
Proof. solve_decision. Defined.

Definition RefundRecord_valid (r : RefundRecord) : bool :=
  nonempty (rf_refund_id r) && nonempty (rf_order_id r) && (0 <=? rf_amount_usd r)
  && nonempty (rf_destination r) && nonempty (rf_instrument_ref r).

Record CancelRecord := mkCancelRecord {
  cr_order_id : string; cr_summary : string; cr_total_usd : Z }.

#[export] Instance CancelRecord_eq_dec : EqDecision CancelRecord.
Proof. solve_decision. Defined.

Definition CancelRecord_valid (r : CancelRecord) : bool :=
  nonempty (cr_order_id r) && nonempty (cr_summary r) && (0 <=? cr_total_usd r).

Record ReturnRecord := mkReturnRecord {
  rr_rma_id : string; rr_order_id : string; rr_summary : string; rr_refund_due_usd : Z;
  rr_destination : string }.

#[export] Instance ReturnRecord_eq_dec : EqDecision ReturnRecord.
Proof. solve_decision. Defined.

Definition ReturnRecord_valid (r : ReturnRecord) : bool :=
  nonempty (rr_rma_id r) && nonempty (rr_order_id r) && nonempty (rr_summary r)
  && (0 <=? rr_refund_due_usd r) && nonempty (rr_destination r).

Definition cancelled_batch_outcome (record : CancelRecord) : res BatchCancelOutcome :=
  make_BatchCancelOutcome (cr_order_id record) (cr_summary record) oc_cancelled
    (Some (cr_total_usd record)).

(** ** Intent matching of ledger rows *)
Definition line_fingerprint {A} `{LineLike A} (lines : list A) : list (string * string * Z * Z) :=
  (λ l, (ln_sku l, ln_name l, ln_price_usd l, ln_quantity l)) <$> lines.

Definition placement_matches (record : PlacedOrder) (lines : list CartLine) (total_usd : Z) : bool :=
  (po_total_usd record =? total_usd) &&
  bool_decide (line_fingerprint (po_lines record) = line_fingerprint lines).

Definition refund_matches (record : RefundRecord) (order_id : string) (amount_usd : Z)
    (destination instrument_ref : string) : bool :=
  bool_decide (rf_order_id record = canon order_id)
  && (rf_amount_usd record =? amount_usd)
  && bool_decide (rf_destination record = destination)
  && bool_decide (rf_instrument_ref record = strip instrument_ref).

Definition cancel_matches (record : CancelRecord) (order_id : string) : bool :=
  bool_decide (cr_order_id record = canon order_id).

Definition return_matches (record : ReturnRecord) (order_id : string) (refund_due_usd : Z)
    (destination : string) : bool :=
  bool_decide (rr_order_id record = canon order_id)
  && (rr_refund_due_usd record =? refund_due_usd)
  && bool_decide (rr_destination record = destination).

(** Spoken quantities are digits, also for a single item. *)
Example speak_quantity_digits :
  speak_quantity 1 "waterproof rain jacket" = "1 waterproof rain jacket".
Proof. by vm_compute. Qed.
Example speak_lines_single :
  speak_lines [mkPlacedLine "JKT-2" "waterproof rain jacket" 12900 1] = inr "1 waterproof rain jacket".
Proof. by vm_compute. Qed.
