(* ===== verification/OrderScope.v ===== *)
(** * Caller-scoped order references (commerce/orders.py)

    [RecentOrderContext]: the bounded references of the latest order
    operation; [GuestOrderScope]: the orders one caller session placed. *)

From S2P Require Import Prelude PyText.

(** dtos/orchestration.py [OrderContextOperation] *)
Inductive OrderContextOperation := op_read | op_list | op_place | op_cancel | op_refund | op_return.

#[export] Instance OrderContextOperation_eq_dec : EqDecision OrderContextOperation.
Proof. solve_decision. Defined.

Module Recent.

Record RecentOrderSnapshot := mkSnapshot {
  focused_order_ref : option string;
  order_refs : list string;
  operation : option OrderContextOperation;
  outcomes : list (string * string);
  complete : bool }.

#[export] Instance RecentOrderSnapshot_eq_dec : EqDecision RecentOrderSnapshot.
Proof. solve_decision. Defined.

(** [RecentOrderSnapshot.references_are_coherent] *)
Definition references_are_coherent (s : RecentOrderSnapshot) : res unit :=
  requires (bool_decide (NoDup (order_refs s))) ValueError
    "recent order context contains duplicate references" ;;
  requires (forallb (λ ref, nonempty ref && bool_decide (ref = canon ref)) (order_refs s)) ValueError
    "recent order references must be canonical" ;;
  requires (Bool.eqb (negb (isSome (operation s))) (bool_decide (order_refs s = []))) ValueError
    "recent order operation and references must be present together" ;;
  requires (match focused_order_ref s with
            | Some f => bool_decide (f ∈ order_refs s)
            | None => true
            end) ValueError
    "focused order must be included in recent order references" ;;
  requires (forallb (λ rc, bool_decide (rc.1 ∈ order_refs s)) (outcomes s)) ValueError
    "recent order outcome must reference a retained order".

Definition make_snapshot focused refs op outs complete : res RecentOrderSnapshot :=
  let s := mkSnapshot focused refs op outs complete in
  references_are_coherent s ;; mret s.

Definition empty_snapshot : RecentOrderSnapshot := mkSnapshot None [] None [] true.

Record RecentOrderContext := mkContext { max_refs : nat; snapshot_ : RecentOrderSnapshot }.

Definition set_snapshot (sn : RecentOrderSnapshot) (c : RecentOrderContext) : RecentOrderContext :=
  mkContext (max_refs c) sn.

(** [RecentOrderContext.__init__] *)
Definition new_context (max_refs : Z) : res RecentOrderContext :=
  requires (1 <=? max_refs) ValueError "max_refs must be positive" ;;
  mret (mkContext (Z.to_nat max_refs) empty_snapshot).

Definition record (refs_in : list string) (op : OrderContextOperation)
    (focused_order_ref : option string) (outcomes_in : list (string * string))
    : M RecentOrderContext unit :=
  c ← get;
  let refs := fromkeys (canon <$> filter (λ r, nonempty (strip r) = true) refs_in) in
  require (negb (bool_decide (refs = []))) ValueError
    "recent order context requires at least one order reference" ;;
  let complete := (length refs <=? max_refs c)%nat in
  let bounded_refs := last_n (max_refs c) refs in
  let focused :=
    match focused_order_ref with
    | Some f => if nonempty f then Some (canon f)
                else match bounded_refs with [r] => Some r | _ => None end
    | None => match bounded_refs with [r] => Some r | _ => None end
    end in
  require (match focused with Some f => bool_decide (f ∈ refs) | None => true end) ValueError
    "focused order must be included in order_refs" ;;
  let bounded_refs :=
    match focused with
    | Some f => if bool_decide (f ∈ bounded_refs) then bounded_refs else tail bounded_refs ++ [f]
    | None => bounded_refs
    end in
  let normalized_outcomes := (λ '(ref, code), (canon ref, code)) <$> outcomes_in in
  require (forallb (λ rc, bool_decide (rc.1 ∈ refs)) normalized_outcomes) ValueError
    "outcome order must be included in order_refs" ;;
  let bounded_outcomes := filter (λ rc, rc.1 ∈ bounded_refs) normalized_outcomes in
  sn ← lift (make_snapshot focused bounded_refs (Some op) bounded_outcomes complete);
  modify (set_snapshot sn).

Definition restore_snapshot (sn : RecentOrderSnapshot) : M RecentOrderContext unit :=
  c ← get;
  require (length (order_refs sn) <=? max_refs c)%nat ValueError
    "restored recent order context exceeds its configured bound" ;;
  modify (set_snapshot sn).

Definition from_snapshot (sn : RecentOrderSnapshot) (max_refs : Z) : res RecentOrderContext :=
  requires (Z.of_nat (length (order_refs sn)) <=? max_refs) ValueError
    "restored recent order context exceeds its configured bound" ;;
  context ← new_context max_refs;
  mret (set_snapshot sn context).

Definition clear : M RecentOrderContext unit := modify (set_snapshot empty_snapshot).

(** A context within its bound holding a coherent snapshot. *)
Definition context_ok (c : RecentOrderContext) : Prop :=
  (1 ≤ max_refs c)%nat ∧ references_are_coherent (snapshot_ c) = inr tt ∧
  (length (order_refs (snapshot_ c)) ≤ max_refs c)%nat.

(** *** Properties *)
Lemma references_are_coherent_ok s :
  references_are_coherent s = inr tt ↔
  NoDup (order_refs s) ∧ (∀ r, r ∈ order_refs s → r ≠ "" ∧ r = canon r) ∧
  (operation s = None ↔ order_refs s = []) ∧
  (∀ f, focused_order_ref s = Some f → f ∈ order_refs s) ∧
  (∀ rc, rc ∈ outcomes s → rc.1 ∈ order_refs s).
Proof.
  unfold references_are_coherent. rewrite !requires_then, requires_ok.
  rewrite (forallb_elem _ (λ r, r ≠ "" ∧ r = canon r))
    by (intros; by rewrite andb_true_iff, nonempty_spec, bool_decide_eq_true).
  rewrite (forallb_elem _ (λ rc, rc.1 ∈ order_refs s)) by (intros; apply bool_decide_eq_true).
  rewrite bool_decide_eq_true, eqb_true_iff.
  assert (negb (isSome (operation s)) = bool_decide (order_refs s = []) ↔
    (operation s = None ↔ order_refs s = [])) as ->.
  { case_bool_decide; destruct (operation s); simpl; naive_solver. }
  assert (match focused_order_ref s with Some f => bool_decide (f ∈ order_refs s) | None => true end
    = true ↔ ∀ f, focused_order_ref s = Some f → f ∈ order_refs s) as ->; [|done].
  destruct (focused_order_ref s); [rewrite bool_decide_eq_true|]; naive_solver.
Qed.

Lemma empty_snapshot_ok : references_are_coherent empty_snapshot = inr tt.
Proof. by vm_compute. Qed.

Definition canonical_refs (refs_in : list string) : list string :=
  fromkeys (canon <$> filter (λ r, nonempty (strip r) = true) refs_in).

Lemma canonical_refs_canon refs_in r : r ∈ canonical_refs refs_in → r ≠ "" ∧ r = canon r.
Proof.
  unfold canonical_refs. rewrite elem_of_fromkeys.
  intros (x & -> & [Hn%nonempty_spec _]%list_elem_of_filter)%list_elem_of_fmap.
  split; [|by rewrite canon_idem]. intros He%canon_empty. unfold blank in He.
  by apply String.eqb_eq in He.
Qed.

Definition focus_of (n : nat) (f : option string) (refs : list string) : option string :=
  match f with
  | Some f => if nonempty f then Some (canon f)
              else match last_n n refs with [r] => Some r | _ => None end
  | None => match last_n n refs with [r] => Some r | _ => None end
  end.
Definition bounded_of (n : nat) (focused : option string) (refs : list string) : list string :=
  match focused with
  | Some f => if bool_decide (f ∈ last_n n refs) then last_n n refs else tail (last_n n refs) ++ [f]
  | None => last_n n refs
  end.

Lemma bounded_of_spec n focused refs :
  (1 ≤ n)%nat → NoDup refs → (∀ f, focused = Some f → f ∈ refs) →
  NoDup (bounded_of n focused refs) ∧ bounded_of n focused refs ⊆ refs ∧
  (length (bounded_of n focused refs) ≤ n)%nat ∧
  (refs ≠ [] → bounded_of n focused refs ≠ []) ∧
  (∀ f, focused = Some f → f ∈ bounded_of n focused refs).
Proof.
  intros Hn Hnd Hf. pose proof (last_n_sub n refs) as Hsub. pose proof (last_n_length n refs) as Hlen.
  pose proof (last_n_NoDup n refs Hnd) as Hlnd.
  assert (refs ≠ [] → last_n n refs ≠ []) as Hne.
  { intros Hr Hl. apply (f_equal length) in Hl. unfold last_n in Hl. rewrite length_drop in Hl.
    destruct refs; [done|]. simpl in *. lia. }
  unfold bounded_of. destruct focused as [f|]; [|split_and!; done].
  case_bool_decide; [split_and!; try done; naive_solver|].
  destruct (last_n n refs) as [|x l] eqn:E; simpl in *.
  - split_and!; [apply NoDup_singleton|set_solver|lia|done|set_solver].
  - apply NoDup_cons in Hlnd as [Hx Hl]. split_and!.
    + apply NoDup_app. split_and!; [done|set_solver|apply NoDup_singleton].
    + set_solver.
    + rewrite length_app. simpl. lia.
    + intros _. by destruct l.
    + set_solver.
Qed.

Lemma focus_of_in n f refs x :
  focus_of n f refs = Some x → (∀ y, f = Some y → nonempty y = false) → x ∈ refs.
Proof.
  unfold focus_of. pose proof (last_n_sub n refs) as Hs.
  destruct f as [y|]; [|destruct (last_n n refs) as [|? [|]]; set_solver].
  intros Hx Hy. rewrite Hy in Hx by done. destruct (last_n n refs) as [|? [|]]; set_solver.
Qed.

Definition record_accepts (n : nat) refs_in f (outs : list (string * string)) : Prop :=
  canonical_refs refs_in ≠ [] ∧
  (∀ x, focus_of n f (canonical_refs refs_in) = Some x → x ∈ canonical_refs refs_in) ∧
  (∀ rc, rc ∈ outs → canon rc.1 ∈ canonical_refs refs_in).

Lemma record_rejects c refs_in op f outs :
  ¬ record_accepts (max_refs c) refs_in f outs → ∃ e, record refs_in op f outs c = (c, inl e).
Proof.
  intros Hn. unfold record. munfold_goal. fold (canonical_refs refs_in).
  fold (focus_of (max_refs c) f (canonical_refs refs_in)).
  case_bool_decide as Hr; simpl; [by eauto|].
  destruct (focus_of _ _ _) as [x|] eqn:Hf; [case_bool_decide as Hx; [|by eauto]|];
  (match goal with |- context [forallb ?g ?l] => destruct (forallb g l) eqn:Ho end; [|by eauto]);
  destruct Hn; unfold record_accepts; rewrite Hf; (split_and!; [done|naive_solver|]);
  intros [r k] Hin;
  eapply (forallb_elem _ (λ rc, rc.1 ∈ canonical_refs refs_in)) with (x := (canon r, k)) in Ho;
    try done; try (intros; apply bool_decide_eq_true);
  apply list_elem_of_fmap; by exists (r, k).
Qed.

Lemma record_accepted c refs_in op f outs :
  (1 ≤ max_refs c)%nat → record_accepts (max_refs c) refs_in f outs →
  let refs := canonical_refs refs_in in
  let focused := focus_of (max_refs c) f refs in
  let bounded := bounded_of (max_refs c) focused refs in
  let sn := mkSnapshot focused bounded (Some op)
    (filter (λ rc, rc.1 ∈ bounded) ((λ '(ref, code), (canon ref, code)) <$> outs))
    (length refs <=? max_refs c)%nat in
  record refs_in op f outs c = (set_snapshot sn c, inr tt) ∧ references_are_coherent sn = inr tt.
Proof.
  intros Hmax (Hne & Hf & Ho) refs focused bounded sn.
  pose proof (bounded_of_spec (max_refs c) focused refs Hmax (fromkeys_NoDup _) Hf)
    as (Hnd & Hsub & Hlen & Hbne & Hfin).
  assert (references_are_coherent sn = inr tt) as Hcoh.
  { apply references_are_coherent_ok. simpl. split_and!; [done| |naive_solver|done|].
    - intros r Hr%Hsub. by apply canonical_refs_canon in Hr.
    - by intros rc [? _]%list_elem_of_filter. }
  split; [|done].
  unfold record, make_snapshot. munfold_goal. fold (canonical_refs refs_in). fold refs.
  fold (focus_of (max_refs c) f refs). fold focused. rewrite bool_decide_eq_false_2 by done. simpl.
  assert ((match focused with Some f0 => bool_decide (f0 ∈ refs) | None => true end) = true) as ->.
  { destruct focused as [x|] eqn:E; [|done]. apply bool_decide_eq_true_2, Hf, E. }
  match goal with |- context [forallb ?g ?l] => assert (forallb g l = true) as -> end.
  { apply (forallb_elem _ (λ rc, rc.1 ∈ refs)); [intros; apply bool_decide_eq_true|].
    intros ? ([r k] & -> & Hin)%list_elem_of_fmap. by apply (Ho (r, k)). }
  fold (bounded_of (max_refs c) focused refs). fold bounded. fold sn. by rewrite Hcoh.
Qed.

(** Recording recent orders either rejects the call and changes nothing, or leaves a coherent
    snapshot of at most [max_refs] distinct references in normal form, taken from the recorded
    ones and all of them when it is marked complete, focused on the requested or only order. *)
Theorem record_bounded_context c refs_in op f outs :
  context_ok c →
  (record_accepts (max_refs c) refs_in f outs →
   ∃ sn, record refs_in op f outs c = (set_snapshot sn c, inr tt) ∧
     context_ok (set_snapshot sn c) ∧
     order_refs sn ⊆ canonical_refs refs_in ∧
     (complete sn = true → order_refs sn = canonical_refs refs_in) ∧
     (complete sn = false → (max_refs c < length (canonical_refs refs_in))%nat) ∧
     focused_order_ref sn = focus_of (max_refs c) f (canonical_refs refs_in)) ∧
  (¬ record_accepts (max_refs c) refs_in f outs → ∃ e, record refs_in op f outs c = (c, inl e)).
Proof.
  intros (Hmax & _ & _). split; [|apply record_rejects].
  intros Hacc. destruct (record_accepted c refs_in op f outs Hmax Hacc) as [Hrun Hcoh].
  destruct Hacc as (Hne & Hf & Ho).
  pose proof (bounded_of_spec (max_refs c) _ _ Hmax (fromkeys_NoDup _) Hf)
    as (Hnd & Hsub & Hlen & Hbne & Hfin).
  eexists. split; [done|]. split_and!; simpl; try done.
  - intros Hle%Nat.leb_le. unfold bounded_of. rewrite last_n_all by done.
    destruct (focus_of _ _ _) eqn:E; [|done]. rewrite bool_decide_eq_true_2; [done|]. by apply Hf.
  - by intros ?%Nat.leb_gt.
Qed.

Lemma restore_snapshot_ok c sn :
  context_ok c → references_are_coherent sn = inr tt → context_ok (restore_snapshot sn c).1.
Proof.
  intros Hok Hsn. unfold restore_snapshot. munfold_goal.
  destruct (Nat.leb_spec (length (order_refs sn)) (max_refs c)); simpl; [|done].
  destruct Hok as (? & _ & _). split_and!; done.
Qed.

Lemma clear_ok c : context_ok c → context_ok (clear c).1.
Proof. intros (? & _ & _). split_and!; [done|apply empty_snapshot_ok|simpl; lia]. Qed.

Lemma record_bounded_context_witness :
  context_ok (mkContext 2 empty_snapshot) ∧
  ∃ sn, record [" ord-1"; "ORD-2"; "ord-1 "; "ORD-3"] op_list None [("ord-3", "ok")]
      (mkContext 2 empty_snapshot) = (mkContext 2 sn, inr tt) ∧
    order_refs sn = ["ORD-2"; "ORD-3"] ∧ complete sn = false ∧
    context_ok (mkContext 2 sn).
Proof.
  assert (context_ok (mkContext 2 empty_snapshot)) as Hok.
  { split_and!; [simpl; lia|apply empty_snapshot_ok|simpl; lia]. }
  split; [done|].
  destruct (record_bounded_context (mkContext 2 empty_snapshot) [" ord-1"; "ORD-2"; "ord-1 "; "ORD-3"]
    op_list None [("ord-3", "ok")] Hok) as [(sn & Hr & Hsn & _) _].
  - split_and!; [by vm_compute|by intros x|]. intros rc ->%list_elem_of_singleton.
    apply (bool_decide_unpack _). by vm_compute.
  - exists sn. assert (sn = mkSnapshot None ["ORD-2"; "ORD-3"] (Some op_list) [("ORD-3", "ok")] false)
      as ->; [|split_and!; [apply Hr|done|done|apply Hsn]].
    assert (record [" ord-1"; "ORD-2"; "ord-1 "; "ORD-3"] op_list None [("ord-3", "ok")]
      (mkContext 2 empty_snapshot) = (mkContext 2 (mkSnapshot None ["ORD-2"; "ORD-3"] (Some op_list)
        [("ORD-3", "ok")] false), inr tt)) as Hv by (by vm_compute).
    rewrite Hv in Hr. by injection Hr.
Defined.

End Recent.

Module Guest.

Record GuestOrderScope := mkScope {
  tenant_id : string; session_id : string; order_refs_ : list (string * unit) }.

Definition set_refs f (g : GuestOrderScope) : GuestOrderScope :=
  mkScope (tenant_id g) (session_id g) (f (order_refs_ g)).

(** tenancy/context.py [normalize_tenant_id] *)
Definition normalize_tenant_id (tenant_id boundary : string) : res string :=
  let normalized := strip tenant_id in
  requires (nonempty normalized) ValueError (boundary +:+ " requires a tenant id") ;;
  mret normalized.

(** [GuestOrderScope.__init__] *)
Definition new_scope (tenant_id session_id : string) : res GuestOrderScope :=
  normalized_tenant_id ← normalize_tenant_id tenant_id "guest order scope";
  requires (negb (blank session_id)) ValueError "guest order scope requires a session id" ;;
  mret (mkScope normalized_tenant_id (strip session_id) []).

Definition order_refs (g : GuestOrderScope) : list string := dkeys (order_refs_ g).

Definition record (order_id : string) : M GuestOrderScope unit :=
  let normalized := canon order_id in
  require (nonempty normalized) ValueError "guest order scope requires a non-empty order id" ;;
  modify (set_refs (dset normalized tt)).

Definition contains (g : GuestOrderScope) (order_id : string) : bool :=
  dmem (canon order_id) (order_refs_ g).

Definition clear : M GuestOrderScope unit := modify (set_refs (λ _, [])).

Fixpoint record_all (refs : list string) : M GuestOrderScope unit :=
  match refs with
  | [] => mret tt
  | r :: refs' => record r ;; record_all refs'
  end.

Definition from_refs (tenant_id session_id : string) (refs : list string) : res GuestOrderScope :=
  scope ← new_scope tenant_id session_id;
  match record_all refs scope with
  | (scope', inr _) => inr scope'
  | (_, inl e) => inl e
  end.

Definition restore_refs (refs : list string) : M GuestOrderScope unit :=
  g ← get;
  restored ← lift (from_refs (tenant_id g) (session_id g) refs);
  modify (set_refs (λ _, order_refs_ restored)).

End Guest.
