(* ===== verification/OrderStore.v ===== *)
(** * The order store (commerce/orders.py [OrderStore])

    The tenant's order records and effect ledgers.  [_synchronized] runs every
    public method under the store's lock, so a method call is one atomic step
    and the calls of concurrent sessions are a sequence of such steps. *)

From S2P Require Import Prelude PyText Money Receipts Cart Orders OrderScope.
From stdpp Require Import gmap.
Local Open Scope Z_scope.
Local Open Scope list_scope.

Definition PLACED_STATUS : string := "processing".
Definition PLACED_ETA : string := "3-5 business days".
Definition CANCELLABLE_STATUSES : list string := ["processing"].
Definition CANCELLED_STATUS : string := "cancelled".
Definition FULFILLED_STATUSES : list string := ["shipped"; "delivered"].

Record OrderStore := mkOrderStore {
  tenant_id : string;
  orders : list (string * OrderEntry);
  placed_by_key : list (string * PlacedOrder);
  next_seq : Z;
  refunds_by_key : list (string * RefundRecord);
  next_refund_seq : Z;
  cancels_by_key : list (string * CancelRecord);
  cancelled_ids : gset string;
  returns_by_key : list (string * ReturnRecord);
  next_return_seq : Z }.

(** [OrderStore.__init__]; [dict(orders)] copies a dictionary. *)
Definition new_store (tenant : string) (orders : list (string * OrderEntry)) : res OrderStore :=
  tenant_id ← Guest.normalize_tenant_id tenant "order store";
  mret (mkOrderStore tenant_id orders [] 9001 [] 7001 [] ∅ [] 3001).

Definition set_placed f n (s : OrderStore) : OrderStore :=
  mkOrderStore (tenant_id s) (orders s) (f (placed_by_key s)) n (refunds_by_key s)
    (next_refund_seq s) (cancels_by_key s) (cancelled_ids s) (returns_by_key s) (next_return_seq s).
Definition set_refunds f n (s : OrderStore) : OrderStore :=
  mkOrderStore (tenant_id s) (orders s) (placed_by_key s) (next_seq s) (f (refunds_by_key s)) n
    (cancels_by_key s) (cancelled_ids s) (returns_by_key s) (next_return_seq s).
Definition set_cancels f (s : OrderStore) : OrderStore :=
  mkOrderStore (tenant_id s) (orders s) (placed_by_key s) (next_seq s) (refunds_by_key s)
    (next_refund_seq s) (f (cancels_by_key s)) (cancelled_ids s) (returns_by_key s)
    (next_return_seq s).
Definition add_cancelled id (s : OrderStore) : OrderStore :=
  mkOrderStore (tenant_id s) (orders s) (placed_by_key s) (next_seq s) (refunds_by_key s)
    (next_refund_seq s) (cancels_by_key s) ({[id]} ∪ cancelled_ids s) (returns_by_key s)
    (next_return_seq s).
Definition set_returns f n (s : OrderStore) : OrderStore :=
  mkOrderStore (tenant_id s) (orders s) (placed_by_key s) (next_seq s) (refunds_by_key s)
    (next_refund_seq s) (cancels_by_key s) (cancelled_ids s) (f (returns_by_key s)) n.

(** ** Reads *)

(** [for placed in placed_by_key.values(): if placed.order_id == normalized] *)
Definition placed_by_id (s : OrderStore) (normalized : string) : option PlacedOrder :=
  List.find (λ p, String.eqb (po_order_id p) normalized) (dvalues (placed_by_key s)).

Definition require_guest_scope (s : OrderStore) (scope : Guest.GuestOrderScope) : res unit :=
  requires (String.eqb (Guest.tenant_id scope) (tenant_id s)) ValueError
    "guest order scope does not match the order-store tenant".

Definition order_status (s : OrderStore) (order_id : string) : option string :=
  let normalized := canon order_id in
  if decide (normalized ∈ cancelled_ids s) then Some CANCELLED_STATUS
  else
    match dget normalized (orders s) with
    | Some entry => Some (oe_status entry)
    | None =>
        match placed_by_id s normalized with
        | Some _ => Some PLACED_STATUS
        | None => None
        end
    end.

Definition order_summary (s : OrderStore) (order_id : string) : res (option string) :=
  let normalized := canon order_id in
  let cancelled := bool_decide (normalized ∈ cancelled_ids s) in
  match dget normalized (orders s) with
  | Some entry =>
      let status := if cancelled then CANCELLED_STATUS else oe_status entry in
      mret (Some ("Order " +:+ normalized +:+ ": " +:+ oe_summary entry +:+ " - status " +:+
                  status +:+ ", ETA " +:+ oe_eta entry +:+ "."))
  | None =>
      match placed_by_id s normalized with
      | Some placed =>
          let status := if cancelled then CANCELLED_STATUS else PLACED_STATUS in
          spoken ← speak_lines (po_lines placed);
          mret (Some ("Order " +:+ normalized +:+ ": " +:+ spoken +:+ " ($" +:+
                      str_usd (po_total_usd placed) +:+ ") - status " +:+ status +:+ ", ETA " +:+
                      PLACED_ETA +:+ "."))
      | None => mret None
      end
  end.

Definition order_owner (s : OrderStore) (order_id : string) : option string :=
  match dget (canon order_id) (orders s) with
  | Some entry => Some (oe_customer_ref entry)
  | None => None
  end.

Definition is_guest_order (s : OrderStore) (order_id : string) (scope : Guest.GuestOrderScope)
    : res bool :=
  require_guest_scope s scope ;;
  let normalized := canon order_id in
  mret (Guest.contains scope normalized &&
        existsb (λ r, String.eqb (po_order_id r) normalized) (dvalues (placed_by_key s))).

(** A generator: the elements it yields, ended by the exception it raises. *)
Definition gen A : Type := list (res A).

Fixpoint gen_until_error {A} (g : gen A) : gen A :=
  match g with
  | [] => []
  | inl e :: _ => [inl e]
  | inr a :: g' => inr a :: gen_until_error g'
  end.

(** [list(generator)] *)
Fixpoint gen_list {A} (g : gen A) : res (list A) :=
  match g with
  | [] => inr []
  | inl e :: _ => inl e
  | inr a :: g' => l ← gen_list g'; mret (a :: l)
  end.

Definition iter_guest_orders (s : OrderStore) (scope : Guest.GuestOrderScope) : gen PlacedOrder :=
  match require_guest_scope s scope with
  | inl e => [inl e]
  | inr _ =>
      let records := dict_of ((λ r, (po_order_id r, r)) <$> dvalues (placed_by_key s)) in
      gen_until_error
        ((λ order_id,
            match dget order_id records with
            | None => raises ValueError "guest order scope references an unknown committed order"
            | Some record => inr record
            end) <$> Guest.order_refs scope)
  end.

(** [self.order_status(order_id) or "unknown"] *)
Definition status_or_unknown (s : OrderStore) (order_id : string) : string :=
  match order_status s order_id with
  | Some st => if nonempty st then st else "unknown"
  | None => "unknown"
  end.

Definition placed_candidate (s : OrderStore) (record : PlacedOrder) (key : string)
    : res OrderCandidate :=
  summary ← speak_lines (po_lines record);
  make_OrderCandidate key (po_order_id record) summary (po_total_usd record)
    (status_or_unknown s (po_order_id record)).

Definition fixture_candidate (s : OrderStore) (key order_id : string) (entry : OrderEntry)
    : res OrderCandidate :=
  make_OrderCandidate key order_id (oe_summary entry) (oe_total_usd entry)
    (status_or_unknown s order_id).

(** [enumerate(xs, start)] with string keys. *)
Fixpoint number_from {A} (start : Z) (l : list A) : list (string * A) :=
  match l with
  | [] => []
  | x :: l' => (str_int start, x) :: number_from (start + 1) l'
  end.

Definition candidate_of (s : OrderStore) (kr : string * res PlacedOrder) : res OrderCandidate :=
  match kr.2 with inl e => inl e | inr r => placed_candidate s r kr.1 end.

Definition iter_owned_orders (s : OrderStore) (customer_ref : string)
    (guest_scope : Guest.GuestOrderScope) : gen OrderCandidate :=
  let mine := filter (λ kv, oe_customer_ref kv.2 = customer_ref) (orders s) in
  gen_until_error
    (((λ '(key, (order_id, entry)), fixture_candidate s key order_id entry) <$> number_from 1 mine)
     ++ (candidate_of s <$>
         number_from (1 + Z.of_nat (length mine)) (iter_guest_orders s guest_scope))).

Definition guest_orders (s : OrderStore) (scope : Guest.GuestOrderScope)
    : res (list OrderCandidate) :=
  gen_list (candidate_of s <$> number_from 1 (iter_guest_orders s scope)).

Definition owned_orders (s : OrderStore) (customer_ref : string)
    (guest_scope : Guest.GuestOrderScope) : res (list OrderCandidate) :=
  gen_list (iter_owned_orders s customer_ref guest_scope).

Definition is_cancellable (s : OrderStore) (order_id : string) : bool :=
  match order_status s order_id with
  | Some st => bool_decide (st ∈ CANCELLABLE_STATUSES)
  | None => false
  end.

(** The loop of [owned_cancellable_orders] over the remaining candidates. *)
Fixpoint take_cancellable (s : OrderStore) (limit : nat) (cancellable : list OrderCandidate)
    (g : gen OrderCandidate) : res (list OrderCandidate * bool) :=
  match g with
  | [] => inr (cancellable, false)
  | inl e :: _ => inl e
  | inr candidate :: g' =>
      if negb (is_cancellable s (oc_order_id candidate)) then take_cancellable s limit cancellable g'
      else if (length cancellable =? limit)%nat then inr (cancellable, true)
      else take_cancellable s limit (cancellable ++ [candidate]) g'
  end.

Definition owned_cancellable_orders (s : OrderStore) (customer_ref : string)
    (guest_scope : Guest.GuestOrderScope) (limit : Z) : res (list OrderCandidate * bool) :=
  requires (1 <=? limit) ValueError "limit must be at least 1" ;;
  take_cancellable s (Z.to_nat limit) [] (iter_owned_orders s customer_ref guest_scope).

Definition order_eta (s : OrderStore) (order_id : string) : option string :=
  let normalized := canon order_id in
  match dget normalized (orders s) with
  | Some entry => Some (oe_eta entry)
  | None =>
      match placed_by_id s normalized with Some _ => Some PLACED_ETA | None => None end
  end.

(** [{ln.sku: ln.quantity for ln in lines}], compared as a dictionary. *)
Definition sku_quantities {A} `{LineLike A} (lines : list A) : list (string * Z) :=
  dict_of ((λ l, (ln_sku l, ln_quantity l)) <$> lines).
Definition same_dict (d1 d2 : list (string * Z)) : bool :=
  (length d1 =? length d2)%nat && forallb (λ kv, bool_decide (dget kv.1 d2 = Some kv.2)) d1.

Fixpoint first_identical (s : OrderStore) (want : list (string * Z)) (g : gen PlacedOrder)
    : res (option PlacedOrder) :=
  match g with
  | [] => inr None
  | inl e :: _ => inl e
  | inr placed :: g' =>
      if decide (po_order_id placed ∈ cancelled_ids s) then first_identical s want g'
      else if same_dict (sku_quantities (po_lines placed)) want then inr (Some placed)
      else first_identical s want g'
  end.

Definition identical_cart_order (s : OrderStore) (lines : list CartLine)
    (guest_scope : Guest.GuestOrderScope) : res (option PlacedOrder) :=
  first_identical s (sku_quantities lines) (iter_guest_orders s guest_scope).

Definition actionable_orders (s : OrderStore) (guest_scope : Guest.GuestOrderScope)
    : res (list OrderCandidate) :=
  fixture_candidates ← mapR (λ '(key, (order_id, entry)), fixture_candidate s key order_id entry)
    (number_from 1 (orders s));
  placed_candidates ← gen_list (candidate_of s <$>
    number_from (1 + Z.of_nat (length (orders s))) (iter_guest_orders s guest_scope));
  mret (fixture_candidates ++ placed_candidates).

Definition captured_total (s : OrderStore) (order_id : string) : option Z :=
  let normalized := canon order_id in
  match dget normalized (orders s) with
  | Some entry => Some (oe_total_usd entry)
  | None =>
      match placed_by_id s normalized with Some p => Some (po_total_usd p) | None => None end
  end.

Definition refunds_on (l : list (string * RefundRecord)) (normalized : string) : Z :=
  sumZ (rf_amount_usd <$> filter (λ r, rf_order_id r = normalized) (dvalues l)).
Definition refunded_so_far (s : OrderStore) (order_id : string) : Z :=
  refunds_on (refunds_by_key s) (canon order_id).

Definition return_for_order (s : OrderStore) (order_id : string) : option ReturnRecord :=
  let normalized := canon order_id in
  List.find (λ r, String.eqb (rr_order_id r) normalized) (dvalues (returns_by_key s)).

Definition promised_on (l : list (string * ReturnRecord)) (normalized : string) : Z :=
  sumZ (rr_refund_due_usd <$> filter (λ r, rr_order_id r = normalized) (dvalues l)).
Definition return_refund_due (s : OrderStore) (order_id : string) : Z :=
  promised_on (returns_by_key s) (canon order_id).

Definition order_item_summary (s : OrderStore) (order_id : string) : res string :=
  let normalized := canon order_id in
  match dget normalized (orders s) with
  | Some entry => mret (oe_summary entry)
  | None =>
      match placed_by_id s normalized with
      | Some placed => speak_lines (po_lines placed)
      | None => mret normalized
      end
  end.

(** ** Effects *)
Notation StoreM := (M OrderStore).

Definition place_cart (idempotency_key : string) (lines : list CartLine) (total_usd : Decimal)
    : StoreM PlacedOrder :=
  checked_total ← lift (validate_usd total_usd);
  s ← get;
  match dget idempotency_key (placed_by_key s) with
  | Some existing =>
      require (placement_matches existing lines checked_total) PlacementError
        "placement idempotency key was reused with different parameters" ;;
      mret existing
  | None =>
      let placed := mkPlacedOrder ("ORD-" +:+ str_int (next_seq s)) checked_total
        ((λ ln, mkPlacedLine (cl_sku ln) (cl_name ln) (cl_price_usd ln) (cl_quantity ln)) <$> lines) in
      lift (validated (PlacedOrder_valid placed) tt) ;;
      modify (λ s, set_placed (dset idempotency_key placed) (next_seq s + 1) s) ;;
      mret placed
  end.

Definition placement_receipt (s : OrderStore) (idempotency_key : string) (lines : list CartLine)
    (total_usd : Decimal) : res (ReceiptLookup PlacedOrder) :=
  checked_total ← validate_usd total_usd;
  mret (classify_receipt (dget idempotency_key (placed_by_key s))
    (λ record, placement_matches record lines checked_total)).

Definition issue_refund (idempotency_key order_id : string) (amount_usd : Decimal)
    (destination instrument_ref : string) : StoreM RefundRecord :=
  checked_amount ← lift (validate_usd amount_usd);
  s ← get;
  match dget idempotency_key (refunds_by_key s) with
  | Some existing =>
      require (refund_matches existing order_id checked_amount destination instrument_ref)
        RefundError "refund idempotency key was reused with different parameters" ;;
      mret existing
  | None =>
      let cleaned_instrument_ref := strip instrument_ref in
      require (nonempty cleaned_instrument_ref) RefundError "empty refund instrument reference" ;;
      match captured_total s order_id with
      | None => raise RefundError "unknown order"
      | Some captured =>
          require (negb (bool_decide (order_status s order_id = Some CANCELLED_STATUS))) RefundError
            "order is cancelled - the charge is already reversed, nothing left to refund" ;;
          let already := refunded_so_far s order_id in
          let promised := return_refund_due s order_id in
          require (negb (captured <? already + promised + checked_amount)) RefundError
            "refund exceeds refundable balance" ;;
          let record := mkRefundRecord ("R-" +:+ str_int (next_refund_seq s)) (canon order_id)
            checked_amount destination cleaned_instrument_ref in
          lift (validated (RefundRecord_valid record) tt) ;;
          modify (λ s, set_refunds (dset idempotency_key record) (next_refund_seq s + 1) s) ;;
          mret record
      end
  end.

Definition refund_receipt (s : OrderStore) (idempotency_key order_id : string)
    (amount_usd : Decimal) (destination instrument_ref : string)
    : res (ReceiptLookup RefundRecord) :=
  checked_amount ← validate_usd amount_usd;
  mret (classify_receipt (dget idempotency_key (refunds_by_key s))
    (λ record, refund_matches record order_id checked_amount destination instrument_ref)).

Definition create_return (idempotency_key order_id : string) (refund_due_usd : Decimal)
    (destination : string) : StoreM ReturnRecord :=
  checked_refund_due ← lift (validate_usd refund_due_usd);
  s ← get;
  match dget idempotency_key (returns_by_key s) with
  | Some existing =>
      require (return_matches existing order_id checked_refund_due destination) ReturnError
        "return idempotency key was reused with different parameters" ;;
      mret existing
  | None =>
      let normalized := canon order_id in
      match order_status s normalized with
      | None => raise ReturnError "unknown order"
      | Some status =>
          require (bool_decide (status ∈ FULFILLED_STATUSES)) ReturnError
            "only a shipped or delivered order can be returned" ;;
          require (negb (isSome (return_for_order s normalized))) ReturnError
            "a return is already open" ;;
          match captured_total s normalized with
          | None => raise AssertionError ""
          | Some captured =>
              let already := refunded_so_far s normalized in
              require (negb (captured <? already + checked_refund_due)) ReturnError
                "return refund exceeds refundable balance" ;;
              summary ← lift (order_item_summary s normalized);
              let record := mkReturnRecord ("RMA-" +:+ str_int (next_return_seq s)) normalized
                summary checked_refund_due destination in
              lift (validated (ReturnRecord_valid record) tt) ;;
              modify (λ s, set_returns (dset idempotency_key record) (next_return_seq s + 1) s) ;;
              mret record
          end
      end
  end.

Definition return_receipt (s : OrderStore) (idempotency_key order_id : string)
    (refund_due_usd : Decimal) (destination : string) : res (ReceiptLookup ReturnRecord) :=
  checked_refund_due ← validate_usd refund_due_usd;
  mret (classify_receipt (dget idempotency_key (returns_by_key s))
    (λ record, return_matches record order_id checked_refund_due destination)).

Definition cancel_order (idempotency_key order_id : string) : StoreM CancelRecord :=
  s ← get;
  match dget idempotency_key (cancels_by_key s) with
  | Some existing =>
      require (cancel_matches existing order_id) CancelError
        "cancellation idempotency key was reused with different parameters" ;;
      mret existing
  | None =>
      let normalized := canon order_id in
      match order_status s normalized with
      | None => raise CancelError "unknown order"
      | Some status =>
          require (bool_decide (status ∈ CANCELLABLE_STATUSES)) CancelError "not cancellable" ;;
          require (negb (0 <? refunded_so_far s normalized)) CancelError
            "order already has refunds issued - a void on top would return funds twice" ;;
          match captured_total s normalized with
          | None => raise AssertionError ""
          | Some captured =>
              summary ← lift (order_item_summary s normalized);
              modify (add_cancelled normalized) ;;
              let record := mkCancelRecord normalized summary captured in
              lift (validated (CancelRecord_valid record) tt) ;;
              modify (set_cancels (dset idempotency_key record)) ;;
              mret record
          end
      end
  end.

Definition cancel_receipt (s : OrderStore) (idempotency_key order_id : string)
    : ReceiptLookup CancelRecord :=
  classify_receipt (dget idempotency_key (cancels_by_key s))
    (λ record, cancel_matches record order_id).

Definition placed_count (s : OrderStore) : nat := length (placed_by_key s).
Definition refund_count (s : OrderStore) : nat := length (refunds_by_key s).
Definition return_count (s : OrderStore) : nat := length (returns_by_key s).
Definition cancel_count (s : OrderStore) : nat := length (cancels_by_key s).

Definition receipt_counts (s : OrderStore) : OrderReceiptCounts :=
  {| placements := length (placed_by_key s); refunds := length (refunds_by_key s);
     returns := length (returns_by_key s); cancellations := length (cancels_by_key s) |}.

(** ** Method calls *)
Inductive StoreCall :=
  | CallPlace (key : string) (lines : list CartLine) (total : Decimal)
  | CallRefund (key order_id : string) (amount : Decimal) (destination instrument : string)
  | CallReturn (key order_id : string) (due : Decimal) (destination : string)
  | CallCancel (key order_id : string).

Definition run_call (c : StoreCall) (s : OrderStore) : OrderStore :=
  match c with
  | CallPlace k lines total => (place_cart k lines total s).1
  | CallRefund k o a d i => (issue_refund k o a d i s).1
  | CallReturn k o a d => (create_return k o a d s).1
  | CallCancel k o => (cancel_order k o s).1
  end.

(** The record a call returns, whichever method it is. *)
Inductive StoreRecord :=
  | RPlaced (p : PlacedOrder)
  | RRefund (r : RefundRecord)
  | RReturn (r : ReturnRecord)
  | RCancel (r : CancelRecord).

Definition perform (c : StoreCall) : StoreM StoreRecord :=
  match c with
  | CallPlace k lines total => p ← place_cart k lines total; mret (RPlaced p)
  | CallRefund k o a d i => r ← issue_refund k o a d i; mret (RRefund r)
  | CallReturn k o a d => r ← create_return k o a d; mret (RReturn r)
  | CallCancel k o => r ← cancel_order k o; mret (RCancel r)
  end.

(** The receipt lookup with the parameters of a call. *)
Definition receipt_of (c : StoreCall) (s : OrderStore) : res (ReceiptLookup StoreRecord) :=
  match c with
  | CallPlace k lines total => l ← placement_receipt s k lines total; mret (map_receipt RPlaced l)
  | CallRefund k o a d i => l ← refund_receipt s k o a d i; mret (map_receipt RRefund l)
  | CallReturn k o a d => l ← return_receipt s k o a d; mret (map_receipt RReturn l)
  | CallCancel k o => mret (map_receipt RCancel (cancel_receipt s k o))
  end.

(** The ledger and the idempotency key a call uses. *)
Definition slot (c : StoreCall) : nat * string :=
  match c with
  | CallPlace k _ _ => (0%nat, k)
  | CallRefund k _ _ _ _ => (1%nat, k)
  | CallReturn k _ _ _ => (2%nat, k)
  | CallCancel k _ => (3%nat, k)
  end.

(** One atomic method call; any interleaving of sessions is a sequence of them. *)
Definition store_step (s s' : OrderStore) : Prop := ∃ c, s' = run_call c s.

(** The store as built over a validated fixture, whose keys are distinct. *)
Definition fixture_ok (orders : list (string * OrderEntry)) : Prop :=
  NoDup (dkeys orders) ∧ Forall (λ kv, OrderEntry_valid kv.2 = true) orders.

Definition initial (s : OrderStore) : Prop :=
  ∃ tenant orders, fixture_ok orders ∧ new_store tenant orders = inr s.

Definition reachable (s : OrderStore) : Prop := ∃ s0, initial s0 ∧ rtc store_step s0 s.
