(* ===== verification/OrderLedger.v ===== *)
(** * Money safety of the order store

    An abstract ledger of one account per order - what was captured, refunded,
    promised on an open return, and whether the order was voided - and the
    proof that every store method call refines one ledger transition.  From
    it: in no reachable state can an order have returned more money than it
    captured, effects are applied once per idempotency key, and a
    cancellation is final. *)

From S2P Require Import Prelude PyText Money Receipts Cart Orders OrderScope OrderStore.
From stdpp Require Import gmap.
Local Open Scope Z_scope.
Local Open Scope list_scope.

(** ** The abstract ledger *)
Record account := mkAccount {
  captured : Z; refunded : Z; promised : Z; voided : bool }.

Definition ledger := string → option account.

Inductive ledger_step (L L' : ledger) : Prop :=
  | ledger_idle : (∀ n, L' n = L n) → ledger_step L L'
  | ledger_open m c :
      L m = None → 0 ≤ c → L' m = Some (mkAccount c 0 0 false) →
      (∀ n, n ≠ m → L' n = L n) → ledger_step L L'
  | ledger_refund m a x :
      L m = Some a → voided a = false → 0 ≤ x → refunded a + promised a + x ≤ captured a →
      L' m = Some (mkAccount (captured a) (refunded a + x) (promised a) false) →
      (∀ n, n ≠ m → L' n = L n) → ledger_step L L'
  | ledger_promise m a x :
      L m = Some a → voided a = false → promised a = 0 → 0 ≤ x → refunded a + x ≤ captured a →
      L' m = Some (mkAccount (captured a) (refunded a) x false) →
      (∀ n, n ≠ m → L' n = L n) → ledger_step L L'
  | ledger_void m a :
      L m = Some a → voided a = false → refunded a = 0 → promised a = 0 →
      L' m = Some (mkAccount (captured a) 0 0 true) →
      (∀ n, n ≠ m → L' n = L n) → ledger_step L L'.

(** An account never returns more than it captured; a void returns all of it. *)
Definition account_safe (a : account) : Prop :=
  0 ≤ captured a ∧ 0 ≤ refunded a ∧ 0 ≤ promised a ∧
  (if voided a then refunded a = 0 ∧ promised a = 0
   else refunded a + promised a ≤ captured a).

Definition ledger_safe (L : ledger) : Prop := ∀ n a, L n = Some a → account_safe a.

Lemma ledger_step_safe L L' : ledger_step L L' → ledger_safe L → ledger_safe L'.
Proof.
  intros Hstep Hs n a. destruct Hstep as
    [Hl|m c Hm Hc Hm' Hl|m b x Hm Hv Hx Hle Hm' Hl|m b x Hm Hv Hp Hx Hle Hm' Hl|m b Hm Hv Hr Hp Hm' Hl].
  1: rewrite Hl; apply Hs.
  all: destruct (decide (n = m)) as [->|Hne]; [|rewrite Hl by done; apply Hs].
  all: rewrite Hm'; intros [= <-]; unfold account_safe; simpl; try lia.
  all: apply Hs in Hm; unfold account_safe in Hm; rewrite Hv in Hm; lia.
Qed.

(** ** The store's account of an order reference in normal form *)
Definition captured_n (s : OrderStore) (n : string) : option Z :=
  match dget n (orders s) with
  | Some e => Some (oe_total_usd e)
  | None => match placed_by_id s n with Some p => Some (po_total_usd p) | None => None end
  end.

Definition account_of (s : OrderStore) : ledger := λ n,
  match captured_n s n with
  | None => None
  | Some c => Some (mkAccount c (refunds_on (refunds_by_key s) n)
                      (promised_on (returns_by_key s) n) (bool_decide (n ∈ cancelled_ids s)))
  end.

Lemma captured_total_n s o : captured_total s o = captured_n s (canon o).
Proof. done. Qed.

(** ** Facts about reads *)
Lemma find_app_single {A} (f : A → bool) l x :
  List.find f (l ++ [x]) =
  match List.find f l with Some y => Some y | None => if f x then Some x else None end.
Proof. induction l as [|y l IH]; simpl; [done|]. by destruct (f y). Qed.

Lemma find_none_iff {A} (f : A → bool) l : List.find f l = None ↔ ∀ x, x ∈ l → f x = false.
Proof.
  split.
  - intros H x Hx. apply list_elem_of_In in Hx. by apply (List.find_none _ _ H).
  - induction l as [|y l IH]; simpl; intros H; [done|].
    rewrite (H y) by set_solver. apply IH. set_solver.
Qed.

Lemma dvalues_snoc {K V} (d : list (K * V)) k v : dvalues (d ++ [(k, v)]) = dvalues d ++ [v].
Proof. unfold dvalues. by rewrite fmap_app. Qed.

Lemma refunds_on_snoc l k r n :
  refunds_on (l ++ [(k, r)]) n =
  refunds_on l n + (if decide (rf_order_id r = n) then rf_amount_usd r else 0).
Proof.
  unfold refunds_on. rewrite dvalues_snoc, filter_app, fmap_app, sumZ_app, filter_cons, filter_nil.
  case_decide; simpl; lia.
Qed.

Lemma promised_on_snoc l k r n :
  promised_on (l ++ [(k, r)]) n =
  promised_on l n + (if decide (rr_order_id r = n) then rr_refund_due_usd r else 0).
Proof.
  unfold promised_on. rewrite dvalues_snoc, filter_app, fmap_app, sumZ_app, filter_cons, filter_nil.
  case_decide; simpl; lia.
Qed.

Lemma refunds_on_none l n :
  (∀ k r, (k, r) ∈ l → rf_order_id r ≠ n) → refunds_on l n = 0.
Proof.
  intros H. unfold refunds_on. induction l as [|[k r] l IH]; [done|].
  unfold dvalues in *. rewrite fmap_cons, filter_cons. simpl.
  rewrite decide_False by (apply (H k); set_solver). apply IH. set_solver.
Qed.

Lemma promised_on_none l n :
  (∀ k r, (k, r) ∈ l → rr_order_id r ≠ n) → promised_on l n = 0.
Proof.
  intros H. unfold promised_on. induction l as [|[k r] l IH]; [done|].
  unfold dvalues in *. rewrite fmap_cons, filter_cons. simpl.
  rewrite decide_False by (apply (H k); set_solver). apply IH. set_solver.
Qed.

(** ** The store invariant *)
Record store_inv (s : OrderStore) : Prop := {
  inv_orders : Forall (λ kv, OrderEntry_valid kv.2 = true) (orders s);
  inv_placed : ∀ k p, (k, p) ∈ placed_by_key s →
    (∃ i, i < next_seq s ∧ po_order_id p = "ORD-" +:+ str_int i) ∧ PlacedOrder_valid p = true;
  inv_placed_ids : NoDup (po_order_id <$> dvalues (placed_by_key s));
  inv_refunds : ∀ k r, (k, r) ∈ refunds_by_key s →
    0 ≤ rf_amount_usd r ∧ is_Some (captured_n s (rf_order_id r));
  inv_returns : ∀ k r, (k, r) ∈ returns_by_key s →
    0 ≤ rr_refund_due_usd r ∧
    ∃ e, dget (rr_order_id r) (orders s) = Some e ∧ oe_status e ∈ FULFILLED_STATUSES;
  inv_return_ids : NoDup (rr_order_id <$> dvalues (returns_by_key s));
  inv_cancelled : ∀ n, n ∈ cancelled_ids s → is_Some (captured_n s n);
  inv_cancels : ∀ k r, (k, r) ∈ cancels_by_key s →
    cr_order_id r ∈ cancelled_ids s ∧ captured_n s (cr_order_id r) = Some (cr_total_usd r);
  inv_cancel_ids : NoDup (cr_order_id <$> dvalues (cancels_by_key s)) }.

Lemma initial_inv s : initial s → store_inv s.
Proof.
  intros (tenant & os & [Hnd Hv] & Hn). unfold new_store, Guest.normalize_tenant_id in Hn.
  munfold. destruct (nonempty (strip tenant)); simplify_eq/=.
  split; simpl; try done; try (by constructor); intros; set_solver.
Qed.

(** ** What a call does *)
Definition fresh_placed (s : OrderStore) (lines : list CartLine) (c : Z) : PlacedOrder :=
  mkPlacedOrder ("ORD-" +:+ str_int (next_seq s)) c
    ((λ ln, mkPlacedLine (cl_sku ln) (cl_name ln) (cl_price_usd ln) (cl_quantity ln)) <$> lines).

Lemma place_cases s k lines total s' r :
  place_cart k lines total s = (s', r) →
  (∃ e, r = inl e ∧ s' = s) ∨
  (∃ p c, r = inr p ∧ s' = s ∧ validate_usd total = inr c ∧
     dget k (placed_by_key s) = Some p ∧ placement_matches p lines c = true) ∨
  (∃ c, let p := fresh_placed s lines c in
     r = inr p ∧ s' = set_placed (dset k p) (next_seq s + 1) s ∧ validate_usd total = inr c ∧
     dget k (placed_by_key s) = None ∧ PlacedOrder_valid p = true).
Proof.
  unfold place_cart. munfold_goal. intros H.
  destruct (validate_usd total) as [e|c] eqn:Hv; simpl in H; [simplify_eq; eauto|].
  destruct (dget k (placed_by_key s)) as [p|] eqn:Hg.
  - destruct (placement_matches p lines c) eqn:Hm; simplify_eq; [|by eauto]. right; left. eauto 10.
  - fold (fresh_placed s lines c) in H.
    destruct (PlacedOrder_valid _) eqn:Hp; simplify_eq; [|by eauto]. right; right. eauto 10.
Qed.

Definition fresh_refund (s : OrderStore) o c dest instr : RefundRecord :=
  mkRefundRecord ("R-" +:+ str_int (next_refund_seq s)) (canon o) c dest (strip instr).

Lemma refund_cases s k o amount dest instr s' r :
  issue_refund k o amount dest instr s = (s', r) →
  (∃ e, r = inl e ∧ s' = s) ∨
  (∃ x c, r = inr x ∧ s' = s ∧ validate_usd amount = inr c ∧
     dget k (refunds_by_key s) = Some x ∧ refund_matches x o c dest instr = true) ∨
  (∃ c cap, let x := fresh_refund s o c dest instr in
     r = inr x ∧ s' = set_refunds (dset k x) (next_refund_seq s + 1) s ∧
     validate_usd amount = inr c ∧ dget k (refunds_by_key s) = None ∧
     captured_total s o = Some cap ∧ order_status s o ≠ Some CANCELLED_STATUS ∧
     refunded_so_far s o + return_refund_due s o + c ≤ cap).
Proof.
  unfold issue_refund. munfold_goal. intros H.
  destruct (validate_usd amount) as [e|c] eqn:Hv; simpl in H; [simplify_eq; eauto|].
  destruct (dget k (refunds_by_key s)) as [x|] eqn:Hg.
  { destruct (refund_matches x o c dest instr) eqn:Hm; simplify_eq; [|by eauto].
    right; left. eauto 10. }
  destruct (nonempty (strip instr)); [|simplify_eq; eauto].
  destruct (captured_total s o) as [cap|] eqn:Hc; [|simplify_eq; eauto].
  case_bool_decide as Hst; simpl in H; [simplify_eq; eauto|].
  destruct (cap <? _) eqn:Hle; simpl in H; [simplify_eq; eauto|].
  fold (fresh_refund s o c dest instr) in H.
  destruct (RefundRecord_valid _) eqn:Hr; simplify_eq; [|by eauto]. bools.
  right; right. eauto 15.
Qed.

Definition fresh_return (s : OrderStore) o summary c dest : ReturnRecord :=
  mkReturnRecord ("RMA-" +:+ str_int (next_return_seq s)) (canon o) summary c dest.

Lemma return_cases s k o due dest s' r :
  create_return k o due dest s = (s', r) →
  (∃ e, r = inl e ∧ s' = s) ∨
  (∃ x c, r = inr x ∧ s' = s ∧ validate_usd due = inr c ∧
     dget k (returns_by_key s) = Some x ∧ return_matches x o c dest = true) ∨
  (∃ c cap status summary, let x := fresh_return s o summary c dest in
     r = inr x ∧ s' = set_returns (dset k x) (next_return_seq s + 1) s ∧
     validate_usd due = inr c ∧ dget k (returns_by_key s) = None ∧
     order_status s (canon o) = Some status ∧ status ∈ FULFILLED_STATUSES ∧
     return_for_order s (canon o) = None ∧ captured_total s (canon o) = Some cap ∧
     refunded_so_far s (canon o) + c ≤ cap).
Proof.
  unfold create_return. munfold_goal. intros H.
  destruct (validate_usd due) as [e|c] eqn:Hv; simpl in H; [simplify_eq; eauto|].
  destruct (dget k (returns_by_key s)) as [x|] eqn:Hg.
  { destruct (return_matches x o c dest) eqn:Hm; simplify_eq; [|by eauto]. right; left. eauto 10. }
  destruct (order_status s (canon o)) as [status|] eqn:Hst; [|simplify_eq; eauto].
  case_bool_decide as Hf; simpl in H; [|simplify_eq; eauto].
  destruct (return_for_order s (canon o)) eqn:Hopen; simpl in H; [simplify_eq; eauto|].
  destruct (captured_total s (canon o)) as [cap|] eqn:Hc; [|simplify_eq; eauto].
  destruct (cap <? _) eqn:Hle; simpl in H; [simplify_eq; eauto|].
  destruct (order_item_summary s (canon o)) as [e|summary] eqn:Hsum; simpl in H; [simplify_eq; eauto|].
  fold (fresh_return s o summary c dest) in H.
  destruct (ReturnRecord_valid _) eqn:Hr; simplify_eq; [|by eauto]. bools.
  right; right. eauto 15.
Qed.

(** The guards under which [cancel_order] marks the order cancelled. *)
Definition cancel_guards (s : OrderStore) k o cap : Prop :=
  dget k (cancels_by_key s) = None ∧
  order_status s (canon o) = Some PLACED_STATUS ∧ refunded_so_far s (canon o) ≤ 0 ∧
  captured_total s (canon o) = Some cap.

Lemma cancel_cases s k o s' r :
  cancel_order k o s = (s', r) →
  (∃ e, r = inl e ∧ s' = s) ∨
  (∃ x, r = inr x ∧ s' = s ∧ dget k (cancels_by_key s) = Some x ∧ cancel_matches x o = true) ∨
  (∃ cap e, cancel_guards s k o cap ∧ r = inl e ∧ s' = add_cancelled (canon o) s ∧
     ∃ summary, order_item_summary s (canon o) = inr summary ∧
       CancelRecord_valid (mkCancelRecord (canon o) summary cap) = false) ∨
  (∃ cap summary, let x := mkCancelRecord (canon o) summary cap in
     cancel_guards s k o cap ∧ r = inr x ∧
     s' = set_cancels (dset k x) (add_cancelled (canon o) s)).
Proof.
  unfold cancel_order, cancel_guards. munfold_goal. intros H.
  destruct (dget k (cancels_by_key s)) as [x|] eqn:Hg.
  { destruct (cancel_matches x o) eqn:Hm; simplify_eq; [|by eauto]. right; left. eauto 10. }
  destruct (order_status s (canon o)) as [status|] eqn:Hst; [|simplify_eq; eauto].
  case_bool_decide as Hf; simpl in H; [|simplify_eq; eauto].
  apply list_elem_of_singleton in Hf as ->.
  destruct (0 <? _) eqn:Hle; simpl in H; [simplify_eq; eauto|].
  destruct (captured_total s (canon o)) as [cap|] eqn:Hc; [|simplify_eq; eauto].
  destruct (order_item_summary s (canon o)) as [e|summary] eqn:Hsum; simpl in H; [simplify_eq; eauto|].
  bools. right; right.
  destruct (CancelRecord_valid _) eqn:Hr; simplify_eq; [right; eauto 15|left].
  eexists _, _. split_and!; try done. eauto.
Qed.

(** ** Preservation *)
Section steps.
  Context (s : OrderStore).

Lemma order_status_open o st :
    order_status s o = Some st → st ≠ CANCELLED_STATUS →
    canon o ∉ cancelled_ids s ∧
    ((∃ e, dget (canon o) (orders s) = Some e ∧ oe_status e = st) ∨
     (∃ p, dget (canon o) (orders s) = None ∧ placed_by_id s (canon o) = Some p ∧
       st = PLACED_STATUS)).
  Proof.
    unfold order_status. case_decide; [congruence|]. intros Hst _. split; [done|].
    destruct (dget _ _) as [e|]; [left; simplify_eq; eauto|].
    destruct (placed_by_id _ _) as [p|]; simplify_eq. right. eauto.
  Qed.

Lemma order_status_not_cancelled o c :
    captured_n s (canon o) = Some c → order_status s o ≠ Some CANCELLED_STATUS →
    canon o ∉ cancelled_ids s.
  Proof. unfold order_status. case_decide; [done|]. auto. Qed.

  Context (Hinv : store_inv s).

Lemma placed_fresh_id lines c :
    po_order_id (fresh_placed s lines c) ∉ po_order_id <$> dvalues (placed_by_key s).
  Proof.
    intros (p & Hid & Hp)%list_elem_of_fmap. unfold dvalues in Hp.
    apply list_elem_of_fmap in Hp as ((k & p') & -> & Hp).
    destruct (inv_placed s Hinv k p' Hp) as ((i & Hi & Hi') & _).
    cbn in Hid. rewrite Hi' in Hid.
    apply str_int_inj in Hid. lia.
  Qed.

Lemma captured_place k lines c n (p := fresh_placed s lines c) :
    dget k (placed_by_key s) = None →
    captured_n (set_placed (dset k p) (next_seq s + 1) s) n =
    match captured_n s n with
    | Some x => Some x
    | None => if decide (po_order_id p = n) then Some c else None
    end.
  Proof.
    intros Hk. unfold captured_n, placed_by_id. cbn [orders placed_by_key set_placed].
    rewrite dset_fresh, dvalues_snoc, find_app_single by done.
    destruct (dget n (orders s)); [done|].
    destruct (List.find _ _); [done|]. subst p.
    destruct (String.eqb_spec (po_order_id (fresh_placed s lines c)) n); case_decide; done.
  Qed.

Lemma place_inv k lines c (p := fresh_placed s lines c) :
    dget k (placed_by_key s) = None → PlacedOrder_valid p = true →
    store_inv (set_placed (dset k p) (next_seq s + 1) s).
  Proof.
    intros Hk Hp.
    assert (∀ n x, captured_n s n = Some x →
      captured_n (set_placed (dset k p) (next_seq s + 1) s) n = Some x) as Hmono.
    { intros n x Hx. unfold p. by rewrite captured_place, Hx. }
    assert (∀ n, is_Some (captured_n s n) →
      is_Some (captured_n (set_placed (dset k p) (next_seq s + 1) s) n)) as Hmono'.
    { intros n [x Hx]. eauto. }
    split; cbn [set_placed orders placed_by_key next_seq refunds_by_key returns_by_key
                cancelled_ids cancels_by_key].
    - apply Hinv.
    - intros k' p' [Heq|Hin]%elem_dset.
      + simplify_eq. split; [|done]. exists (next_seq s). split; [lia|done].
      + destruct (inv_placed s Hinv _ _ Hin) as ((i & Hi & Hid) & Hv). split; [|done].
        exists i. split; [lia|done].
    - rewrite dset_fresh, dvalues_snoc, fmap_app by done. apply NoDup_app.
      split_and!; [apply Hinv| |apply NoDup_singleton].
      intros x Hx ->%list_elem_of_singleton. by apply (placed_fresh_id lines c).
    - intros k' r Hr. destruct (inv_refunds s Hinv _ _ Hr). auto.
    - intros k' r Hr. apply (inv_returns s Hinv _ _ Hr).
    - apply Hinv.
    - intros n Hn. apply Hmono', (inv_cancelled s Hinv _ Hn).
    - intros k' r Hr. destruct (inv_cancels s Hinv _ _ Hr). auto.
    - apply Hinv.
  Qed.

Lemma refund_inv k o c dest instr cap :
    dget k (refunds_by_key s) = None → 0 ≤ c → captured_total s o = Some cap →
    store_inv (set_refunds (dset k (fresh_refund s o c dest instr)) (next_refund_seq s + 1) s).
  Proof.
    intros Hk Hc Hcap. destruct Hinv. split; try done.
    intros k' r [Heq|Hin]%elem_dset; [|by eauto].
    simplify_eq. split; [done|]. exists cap. apply Hcap.
  Qed.

Lemma return_for_order_none o r :
    return_for_order s (canon o) = None → r ∈ dvalues (returns_by_key s) → rr_order_id r ≠ canon o.
  Proof.
    unfold return_for_order. rewrite canon_idem, find_none_iff. intros H Hr.
    specialize (H r Hr). cbn in H. by apply String.eqb_neq.
  Qed.

Lemma return_inv k o summary c dest status :
    dget k (returns_by_key s) = None → 0 ≤ c →
    order_status s (canon o) = Some status → status ∈ FULFILLED_STATUSES →
    return_for_order s (canon o) = None →
    store_inv (set_returns (dset k (fresh_return s o summary c dest)) (next_return_seq s + 1) s).
  Proof.
    intros Hk Hc Hst Hf Hopen. pose proof Hinv as []. split; try done.
    - intros k' r [Heq|Hin]%elem_dset; [|by eauto].
      simplify_eq. split; [done|].
      apply order_status_open in Hst as [_ [(e & He & <-)|(p & _ & _ & ->)]].
      + rewrite canon_idem in He. eauto.
      + unfold FULFILLED_STATUSES, PLACED_STATUS in Hf. set_solver.
      + intros ->. unfold FULFILLED_STATUSES, CANCELLED_STATUS in Hf. set_solver.
    - cbn [set_returns returns_by_key]. rewrite dset_fresh, dvalues_snoc, fmap_app by done.
      apply NoDup_app. split_and!; [done| |apply NoDup_singleton].
      intros x (r & -> & Hr)%list_elem_of_fmap Hx%list_elem_of_singleton.
      eapply return_for_order_none; eauto.
  Qed.

Lemma cancel_mark_inv k o cap :
    cancel_guards s k o cap → store_inv (add_cancelled (canon o) s).
  Proof.
    intros (_ & _ & _ & Hcap). pose proof Hinv as []. split; try done.
    - intros n. cbn. intros [->%elem_of_singleton|]%elem_of_union; [|by eauto].
      rewrite captured_total_n, canon_idem in Hcap. by exists cap.
    - intros k' r Hr. destruct (inv_cancels0 _ _ Hr). split; [cbn; set_solver|done].
  Qed.

Lemma cancel_guards_open k o cap :
    cancel_guards s k o cap → canon o ∉ cancelled_ids s ∧ captured_n s (canon o) = Some cap.
  Proof.
    intros (_ & Hst & _ & Hcap). rewrite captured_total_n, canon_idem in Hcap.
    apply order_status_open in Hst as [Hst _]; [|done]. by rewrite canon_idem in Hst.
  Qed.

Lemma cancel_inv k o summary cap :
    cancel_guards s k o cap →
    store_inv (set_cancels (dset k (mkCancelRecord (canon o) summary cap)) (add_cancelled (canon o) s)).
  Proof.
    intros Hg. destruct (cancel_guards_open _ _ _ Hg) as [Hn Hcap].
    pose proof (cancel_mark_inv _ _ _ Hg) as []. destruct Hg as (Hk & _).
    split; try done.
    - intros k' r [Heq|Hin]%elem_dset; [|by apply (inv_cancels0 k' r)].
      simplify_eq. split; [cbn; set_solver|done].
    - cbn [set_cancels add_cancelled cancels_by_key] in *.
      rewrite dset_fresh, dvalues_snoc, fmap_app by done.
      apply NoDup_app. split_and!; [done| |apply NoDup_singleton].
      intros x (r & -> & Hr)%list_elem_of_fmap Hx%list_elem_of_singleton.
      apply list_elem_of_fmap in Hr as ((k' & r') & Hr' & Hr). cbn in Hr'. subst r'.
      destruct (inv_cancels s Hinv _ _ Hr) as [Hin _]. rewrite Hx in Hin. done.
  Qed.
End steps.

Lemma run_call_inv c s : store_inv s → store_inv (run_call c s).
Proof.
  intros Hi. destruct c as [k lines t|k o a d i|k o a d|k o]; simpl.
  - destruct (place_cart k lines t s) as [s' r] eqn:E.
    destruct (place_cases _ _ _ _ _ _ E) as
      [(e & _ & ->)|[(p & c & _ & -> & _)|(c & _ & -> & _ & Hk & Hp)]]; try done.
    by apply place_inv.
  - destruct (issue_refund k o a d i s) as [s' r] eqn:E.
    destruct (refund_cases _ _ _ _ _ _ _ _ E) as
      [(e & _ & ->)|[(x & c & _ & -> & _)|(c & cap & _ & -> & Hv & Hk & Hcap & _ & _)]]; try done.
    eapply refund_inv; eauto using validate_usd_nonneg.
  - destruct (create_return k o a d s) as [s' r] eqn:E.
    destruct (return_cases _ _ _ _ _ _ _ E) as
      [(e & _ & ->)|[(x & c & _ & -> & _)|(c & cap & st & su & _ & -> & Hv & Hk & Hst & Hf & Ho & _)]];
      try done.
    eapply return_inv; eauto using validate_usd_nonneg.
  - destruct (cancel_order k o s) as [s' r] eqn:E.
    destruct (cancel_cases _ _ _ _ _ E) as
      [(e & _ & ->)|[(x & _ & -> & _)|[(cap & e & Hg & _ & -> & _)|(cap & su & Hg & _ & ->)]]];
      try done; [by eapply cancel_mark_inv|by eapply cancel_inv].
Qed.

Lemma reachable_inv s : reachable s → store_inv s.
Proof.
  intros (s0 & H0 & Hs). apply initial_inv in H0.
  induction Hs as [|s s1 s2 [c ->] _ IH]; [done|]. apply IH, run_call_inv, H0.
Qed.

(** ** Refinement *)
Lemma account_of_none s n : store_inv s → captured_n s n = None →
  refunds_on (refunds_by_key s) n = 0 ∧ promised_on (returns_by_key s) n = 0 ∧ n ∉ cancelled_ids s.
Proof.
  intros Hi Hn. split_and!.
  - apply refunds_on_none. intros k r Hr <-.
    destruct (inv_refunds s Hi _ _ Hr) as [_ [x Hx]]. congruence.
  - apply promised_on_none. intros k r Hr <-.
    destruct (inv_returns s Hi _ _ Hr) as [_ (e & He & _)].
    unfold captured_n in Hn. by rewrite He in Hn.
  - intros Hc. destruct (inv_cancelled s Hi _ Hc). congruence.
Qed.

(** The summand an entry appended to a ledger adds to an order's total. *)
Ltac ledger_fields :=
  cbn [rf_order_id rf_amount_usd rr_order_id rr_refund_due_usd fresh_refund fresh_return
       set_refunds set_returns refunds_by_key returns_by_key cancelled_ids
       captured refunded promised voided].
Ltac ledger_sums :=
  ledger_fields; rewrite ?dset_fresh, ?refunds_on_snoc, ?promised_on_snoc by done; ledger_fields.

Lemma step_place s k lines c (p := fresh_placed s lines c) :
  store_inv s → 0 ≤ c → dget k (placed_by_key s) = None →
  ledger_step (account_of s) (account_of (set_placed (dset k p) (next_seq s + 1) s)).
Proof.
  intros Hi Hc Hk. subst p.
  set (p := fresh_placed s lines c). set (s' := set_placed _ _ s).
  assert (∀ n, captured_n s' n = match captured_n s n with Some x => Some x | None =>
      if decide (po_order_id p = n) then Some c else None end) as Hcap
    by (intros n; by apply captured_place).
  destruct (captured_n s (po_order_id p)) as [x|] eqn:Hx.
  - apply ledger_idle. intros n. unfold account_of. rewrite Hcap.
    destruct (captured_n s n) eqn:Hn; [done|]. case_decide; [congruence|done].
  - pose proof (account_of_none _ _ Hi Hx) as (Hr & Hp & Hv).
    apply (ledger_open _ _ (po_order_id p) c); [|done| |].
    + unfold account_of. by rewrite Hx.
    + unfold account_of. rewrite Hcap, Hx, decide_True by done.
      change (refunds_by_key s') with (refunds_by_key s).
      change (returns_by_key s') with (returns_by_key s).
      change (cancelled_ids s') with (cancelled_ids s).
      by rewrite Hr, Hp, bool_decide_eq_false_2 by done.
    + intros n Hn. unfold account_of. rewrite Hcap.
      destruct (captured_n s n); [done|]. by rewrite decide_False.
Qed.

Lemma step_refund s k o c dest instr cap :
  store_inv s → 0 ≤ c → dget k (refunds_by_key s) = None →
  captured_total s o = Some cap → order_status s o ≠ Some CANCELLED_STATUS →
  refunded_so_far s o + return_refund_due s o + c ≤ cap →
  ledger_step (account_of s)
    (account_of (set_refunds (dset k (fresh_refund s o c dest instr)) (next_refund_seq s + 1) s)).
Proof.
  intros Hi Hc Hk Hcap Hst Hle.
  pose proof (order_status_not_cancelled _ _ _ Hcap Hst) as Hn.
  rewrite captured_total_n in Hcap.
  eapply (ledger_refund _ _ (canon o) _ c); [by unfold account_of; rewrite Hcap| | | | |]; cbn.
  - by apply bool_decide_eq_false_2.
  - done.
  - done.
  - unfold account_of. change (captured_n (set_refunds _ _ s)) with (captured_n s).
    rewrite Hcap. ledger_sums. rewrite decide_True, bool_decide_eq_false_2 by done. done.
  - intros n Hne. unfold account_of. change (captured_n (set_refunds _ _ s)) with (captured_n s).
    destruct (captured_n s n); [|done]. ledger_sums. rewrite decide_False by done.
    by rewrite Z.add_0_r.
Qed.

Lemma promised_open s o :
  return_for_order s (canon o) = None → promised_on (returns_by_key s) (canon o) = 0.
Proof.
  intros Ho. apply promised_on_none. intros k r Hr. eapply return_for_order_none; [done|].
  unfold dvalues. apply list_elem_of_fmap. by exists (k, r).
Qed.

Lemma step_return s k o summary c dest cap status :
  store_inv s → 0 ≤ c → dget k (returns_by_key s) = None →
  order_status s (canon o) = Some status → status ∈ FULFILLED_STATUSES →
  return_for_order s (canon o) = None → captured_total s (canon o) = Some cap →
  refunded_so_far s (canon o) + c ≤ cap →
  ledger_step (account_of s)
    (account_of (set_returns (dset k (fresh_return s o summary c dest)) (next_return_seq s + 1) s)).
Proof.
  intros Hi Hc Hk Hst Hf Ho Hcap Hle.
  assert (canon o ∉ cancelled_ids s) as Hn.
  { apply order_status_open in Hst as [Hst _]; [by rewrite canon_idem in Hst|].
    intros ->. unfold FULFILLED_STATUSES, CANCELLED_STATUS in Hf. set_solver. }
  rewrite captured_total_n, canon_idem in Hcap. unfold refunded_so_far in Hle.
  rewrite canon_idem in Hle.
  eapply (ledger_promise _ _ (canon o) _ c); [by unfold account_of; rewrite Hcap| | | | | |]; cbn.
  - by apply bool_decide_eq_false_2.
  - by apply promised_open.
  - done.
  - done.
  - unfold account_of. change (captured_n (set_returns _ _ s)) with (captured_n s).
    rewrite Hcap. ledger_sums. rewrite decide_True, bool_decide_eq_false_2 by done.
    by rewrite promised_open by done.
  - intros n Hne. unfold account_of. change (captured_n (set_returns _ _ s)) with (captured_n s).
    destruct (captured_n s n); [|done]. ledger_sums. rewrite decide_False by done.
    by rewrite Z.add_0_r.
Qed.

Lemma refunds_on_nonneg s n : store_inv s → 0 ≤ refunds_on (refunds_by_key s) n.
Proof.
  intros Hi. unfold refunds_on. apply sumZ_nonneg, Forall_fmap, Forall_forall.
  intros r [_ Hr]%list_elem_of_filter. unfold dvalues in Hr.
  apply list_elem_of_fmap in Hr as ((k & r') & -> & Hr). by apply (inv_refunds s Hi) in Hr as [? _].
Qed.

(** An order still in processing has no open return. *)
Lemma processing_not_promised s o : store_inv s →
  order_status s (canon o) = Some PLACED_STATUS → promised_on (returns_by_key s) (canon o) = 0.
Proof.
  intros Hi Hst. apply promised_on_none. intros k r Hr Heq.
  destruct (inv_returns s Hi _ _ Hr) as [_ (e & He & Hf)].
  apply order_status_open in Hst as [_ [(e' & He' & Hs)|(p & Hp & _)]]; [| |done].
  - rewrite canon_idem in He'. rewrite Heq, He' in He. simplify_eq.
    rewrite Hs in Hf. unfold FULFILLED_STATUSES, PLACED_STATUS in Hf. set_solver.
  - rewrite canon_idem in Hp. congruence.
Qed.

Lemma step_cancel s k o cap s' :
  store_inv s → cancel_guards s k o cap →
  (∀ n, captured_n s' n = captured_n s n) →
  refunds_by_key s' = refunds_by_key s → returns_by_key s' = returns_by_key s →
  cancelled_ids s' = {[canon o]} ∪ cancelled_ids s →
  ledger_step (account_of s) (account_of s').
Proof.
  intros Hi Hg Hc Hrf Hrr Hca. destruct (cancel_guards_open _ _ _ _ Hg) as [Hn Hcap].
  destruct Hg as (_ & Hst & Hre & _). unfold refunded_so_far in Hre. rewrite canon_idem in Hre.
  pose proof (refunds_on_nonneg s (canon o) Hi).
  eapply (ledger_void _ _ (canon o)); [by unfold account_of; rewrite Hcap| | | | |]; cbn.
  - by apply bool_decide_eq_false_2.
  - lia.
  - by apply processing_not_promised.
  - unfold account_of. rewrite Hc, Hcap, Hrf, Hrr, Hca, bool_decide_eq_true_2 by set_solver.
    rewrite processing_not_promised by done. by replace (refunds_on _ _) with 0 by lia.
  - intros n Hne. unfold account_of. rewrite Hc, Hrf, Hrr, Hca.
    destruct (captured_n s n); [|done]. do 2 f_equal. apply bool_decide_ext. set_solver.
Qed.

Lemma run_call_ledger s c :
  store_inv s → ledger_step (account_of s) (account_of (run_call c s)).
Proof.
  intros Hi. destruct c as [k lines t|k o a d i|k o a d|k o]; simpl.
  - destruct (place_cart k lines t s) as [s' r] eqn:E.
    destruct (place_cases _ _ _ _ _ _ E) as
      [(e & _ & ->)|[(p & c & _ & -> & _)|(c & _ & -> & Hv & Hk & _)]]; try by apply ledger_idle.
    apply step_place; eauto using validate_usd_nonneg.
  - destruct (issue_refund k o a d i s) as [s' r] eqn:E.
    destruct (refund_cases _ _ _ _ _ _ _ _ E) as
      [(e & _ & ->)|[(x & c & _ & -> & _)|(c & cap & _ & -> & Hv & Hk & Hcap & Hst & Hle)]];
      try by apply ledger_idle.
    eapply step_refund; eauto using validate_usd_nonneg.
  - destruct (create_return k o a d s) as [s' r] eqn:E.
    destruct (return_cases _ _ _ _ _ _ _ E) as
      [(e & _ & ->)|[(x & c & _ & -> & _)|
       (c & cap & st & su & _ & -> & Hv & Hk & Hst & Hf & Ho & Hcap & Hle)]];
      try by apply ledger_idle.
    eapply step_return; eauto using validate_usd_nonneg.
  - destruct (cancel_order k o s) as [s' r] eqn:E.
    destruct (cancel_cases _ _ _ _ _ E) as
      [(e & _ & ->)|[(x & _ & -> & _)|[(cap & e & Hg & _ & -> & _)|(cap & su & Hg & _ & ->)]]];
      try (by apply ledger_idle); by eapply step_cancel.
Qed.

(** ** Idempotency *)

(** The call's record is in its ledger, under its key and with its parameters. *)
Definition stored (c : StoreCall) (s : OrderStore) (r : StoreRecord) : Prop :=
  match c, r with
  | CallPlace k lines total, RPlaced p =>
      ∃ x, validate_usd total = inr x ∧ dget k (placed_by_key s) = Some p ∧
        placement_matches p lines x = true
  | CallRefund k o a d i, RRefund f =>
      ∃ x, validate_usd a = inr x ∧ dget k (refunds_by_key s) = Some f ∧
        refund_matches f o x d i = true
  | CallReturn k o a d, RReturn f =>
      ∃ x, validate_usd a = inr x ∧ dget k (returns_by_key s) = Some f ∧
        return_matches f o x d = true
  | CallCancel k o, RCancel f => dget k (cancels_by_key s) = Some f ∧ cancel_matches f o = true
  | _, _ => False
  end.

Lemma perform_run c s : (perform c s).1 = run_call c s.
Proof.
  destruct c as [k lines t|k o a d i|k o a d|k o]; simpl; munfold_goal.
  - by destruct (place_cart k lines t s) as [? []].
  - by destruct (issue_refund k o a d i s) as [? []].
  - by destruct (create_return k o a d s) as [? []].
  - by destruct (cancel_order k o s) as [? []].
Qed.

Lemma fresh_placed_matches s lines c :
  placement_matches (fresh_placed s lines c) lines c = true.
Proof.
  unfold placement_matches, fresh_placed, line_fingerprint. cbn [po_total_usd po_lines].
  rewrite Z.eqb_refl, <-list_fmap_compose. by apply bool_decide_eq_true_2.
Qed.

Lemma perform_stored c s s1 r : perform c s = (s1, inr r) → stored c s1 r.
Proof.
  destruct c as [k lines t|k o a d i|k o a d|k o]; simpl; munfold_goal.
  - destruct (place_cart k lines t s) as [s' [e|p]] eqn:E; intros; simplify_eq.
    destruct (place_cases _ _ _ _ _ _ E) as
      [(e & ? & _)|[(q & c & ? & -> & ?)|(c & ? & -> & ? & Hk & _)]]; simplify_eq; [naive_solver|].
    exists c. cbn [set_placed placed_by_key]. rewrite dget_dset_eq. eauto using fresh_placed_matches.
  - destruct (issue_refund k o a d i s) as [s' [e|p]] eqn:E; intros; simplify_eq.
    destruct (refund_cases _ _ _ _ _ _ _ _ E) as
      [(e & ? & _)|[(x & c & ? & -> & ?)|(c & cap & ? & -> & ? & _)]]; simplify_eq; [naive_solver|].
    exists c. cbn [set_refunds refunds_by_key]. rewrite dget_dset_eq.
    unfold refund_matches, fresh_refund. cbn. rewrite Z.eqb_refl, !bool_decide_eq_true_2 by done. done.
  - destruct (create_return k o a d s) as [s' [e|p]] eqn:E; intros; simplify_eq.
    destruct (return_cases _ _ _ _ _ _ _ E) as
      [(e & ? & _)|[(x & c & ? & -> & ?)|(c & cap & st & su & ? & -> & ? & _)]]; simplify_eq;
      [naive_solver|].
    exists c. cbn [set_returns returns_by_key]. rewrite dget_dset_eq.
    unfold return_matches, fresh_return. cbn. rewrite Z.eqb_refl, !bool_decide_eq_true_2 by done. done.
  - destruct (cancel_order k o s) as [s' [e|p]] eqn:E; intros; simplify_eq.
    destruct (cancel_cases _ _ _ _ _ E) as
      [(e & ? & _)|[(x & ? & -> & ?)|[(cap & e & _ & ? & _)|(cap & su & Hg & ? & ->)]]]; simplify_eq;
      [naive_solver|].
    cbn [set_cancels cancels_by_key]. rewrite dget_dset_eq. split; [done|].
    unfold cancel_matches. by apply bool_decide_eq_true_2.
Qed.

(** A key's entry survives a later insertion under a fresh key. *)
Lemma dget_dset_keep {V} (d : list (string * V)) k v k' v' :
  dget k d = None → dget k' d = Some v' → dget k' (dset k v d) = Some v'.
Proof. intros Hk Hk'. rewrite dget_dset. case_decide; [congruence|done]. Qed.

Lemma run_call_keeps c s :
  (∀ k x, dget k (placed_by_key s) = Some x → dget k (placed_by_key (run_call c s)) = Some x) ∧
  (∀ k x, dget k (refunds_by_key s) = Some x → dget k (refunds_by_key (run_call c s)) = Some x) ∧
  (∀ k x, dget k (returns_by_key s) = Some x → dget k (returns_by_key (run_call c s)) = Some x) ∧
  (∀ k x, dget k (cancels_by_key s) = Some x → dget k (cancels_by_key (run_call c s)) = Some x).
Proof.
  destruct c as [k lines t|k o a d i|k o a d|k o]; simpl.
  - destruct (place_cart k lines t s) as [s' r] eqn:E.
    destruct (place_cases _ _ _ _ _ _ E) as
      [(e & _ & ->)|[(p & c & _ & -> & _)|(c & _ & -> & Hv & Hk & _)]]; [by eauto..|].
    split_and!; try done. intros. by apply dget_dset_keep.
  - destruct (issue_refund k o a d i s) as [s' r] eqn:E.
    destruct (refund_cases _ _ _ _ _ _ _ _ E) as
      [(e & _ & ->)|[(x & c & _ & -> & _)|(c & cap & _ & -> & Hv & Hk & _)]]; [by eauto..|].
    split_and!; try done. intros. by apply dget_dset_keep.
  - destruct (create_return k o a d s) as [s' r] eqn:E.
    destruct (return_cases _ _ _ _ _ _ _ E) as
      [(e & _ & ->)|[(x & c & _ & -> & _)|(c & cap & st & su & _ & -> & Hv & Hk & _)]]; [by eauto..|].
    split_and!; try done. intros. by apply dget_dset_keep.
  - destruct (cancel_order k o s) as [s' r] eqn:E.
    destruct (cancel_cases _ _ _ _ _ E) as
      [(e & _ & ->)|[(x & _ & -> & _)|[(cap & e & Hg & _ & -> & _)|(cap & su & (Hk & _) & _ & ->)]]];
      [by eauto..|].
    split_and!; try done. intros. by apply dget_dset_keep.
Qed.

Lemma stored_step c c' s r : stored c s r → stored c (run_call c' s) r.
Proof.
  destruct (run_call_keeps c' s) as (Hp & Hf & Hr & Hc).
  destruct c, r; simpl; try done; naive_solver.
Qed.

Lemma stored_steps c s s' r : stored c s r → rtc store_step s s' → stored c s' r.
Proof. intros H Hs. induction Hs as [|s s1 s2 [c' ->] _ IH]; [done|]. by apply IH, stored_step. Qed.

(** A call whose key is used leaves the store as it is and returns that key's record or raises. *)
Lemma stored_slot c c' s r : stored c s r → slot c' = slot c →
  (perform c' s).1 = s ∧ (∀ r', (perform c' s).2 = inr r' → r' = r).
Proof.
  destruct c, c', r; simpl; try done; intros Hst [= ->]; munfold_goal.
  - destruct Hst as (x & _ & Hg & _). unfold place_cart. munfold_goal.
    destruct (validate_usd _); simpl; [naive_solver|]. rewrite Hg.
    destruct (placement_matches _ _ _); simpl; naive_solver.
  - destruct Hst as (x & _ & Hg & _). unfold issue_refund. munfold_goal.
    destruct (validate_usd _); simpl; [naive_solver|]. rewrite Hg.
    destruct (refund_matches _ _ _ _ _); simpl; naive_solver.
  - destruct Hst as (x & _ & Hg & _). unfold create_return. munfold_goal.
    destruct (validate_usd _); simpl; [naive_solver|]. rewrite Hg.
    destruct (return_matches _ _ _ _); simpl; naive_solver.
  - destruct Hst as (Hg & _). unfold cancel_order. munfold_goal. rewrite Hg.
    destruct (cancel_matches _ _); simpl; naive_solver.
Qed.

Lemma stored_replay c s r : stored c s r → perform c s = (s, inr r).
Proof.
  destruct c, r; simpl; try done; munfold_goal.
  - intros (x & Hv & Hg & Hm). unfold place_cart. munfold_goal. by rewrite Hv, Hg, Hm.
  - intros (x & Hv & Hg & Hm). unfold issue_refund. munfold_goal. by rewrite Hv, Hg, Hm.
  - intros (x & Hv & Hg & Hm). unfold create_return. munfold_goal. by rewrite Hv, Hg, Hm.
  - intros (Hg & Hm). unfold cancel_order. munfold_goal. by rewrite Hg, Hm.
Qed.

Lemma stored_receipt c s r : stored c s r → receipt_of c s = inr (CommittedReceipt r).
Proof.
  destruct c, r; simpl; try done; munfold_goal.
  - intros (x & Hv & Hg & Hm). unfold placement_receipt. munfold_goal. rewrite Hv, Hg. simpl. by rewrite Hm.
  - intros (x & Hv & Hg & Hm). unfold refund_receipt. munfold_goal. rewrite Hv, Hg. simpl. by rewrite Hm.
  - intros (x & Hv & Hg & Hm). unfold return_receipt. munfold_goal. rewrite Hv, Hg. simpl. by rewrite Hm.
  - intros (Hg & Hm). unfold cancel_receipt. rewrite Hg. simpl. by rewrite Hm.
Qed.

(** ** Errors *)
Lemma speak_lines_nonempty {A} `{LineLike A} (l : list A) t : speak_lines l = inr t → nonempty t = true.
Proof.
  unfold speak_lines. intros Ht. apply nonempty_spec. intros ->.
  assert (∀ q n, speak_quantity q n ≠ "") as Hq.
  { intros q n. unfold speak_quantity. by destruct (str_int q). }
  destruct l as [|x [|y [|z l]]]; simpl in Ht; simplify_eq.
  - by eapply Hq.
  - by destruct (speak_quantity (ln_quantity x) (ln_name x)).
  - by destruct (speak_quantity (ln_quantity x) (ln_name x)).
Qed.

Lemma cancel_record_valid s k o cap summary :
  store_inv s → dget "" (orders s) = None → cancel_guards s k o cap →
  order_item_summary s (canon o) = inr summary →
  CancelRecord_valid (mkCancelRecord (canon o) summary cap) = true.
Proof.
  intros Hi Hempty Hg Hsum. destruct (cancel_guards_open _ _ _ _ Hg) as [_ Hcap].
  unfold captured_n in Hcap. unfold order_item_summary in Hsum. rewrite canon_idem in Hsum.
  assert (∀ p, placed_by_id s (canon o) = Some p →
    PlacedOrder_valid p = true ∧ po_order_id p = canon o) as Hplaced.
  { intros p Hp. apply List.find_some in Hp as [Hp Hid%String.eqb_eq]. split; [|done].
    apply list_elem_of_In in Hp. unfold dvalues in Hp.
    apply list_elem_of_fmap in Hp as ((k' & p') & -> & Hp). by apply (inv_placed s Hi) in Hp as [_ ?]. }
  unfold CancelRecord_valid. cbn. rewrite !andb_true_iff, Z.leb_le.
  destruct (dget (canon o) (orders s)) as [e|] eqn:He; simplify_eq.
  - munfold. simplify_eq. pose proof (inv_orders s Hi) as Hv. rewrite Forall_forall in Hv.
    apply dget_Some_elem in He as Hin. apply Hv in Hin. cbn in Hin.
    unfold OrderEntry_valid in Hin. bools. split_and!; try done.
    apply nonempty_spec. intros Heq. rewrite Heq in He. congruence.
  - destruct (placed_by_id s (canon o)) as [p|] eqn:Hp; simplify_eq.
    destruct (Hplaced p eq_refl) as [Hv Hid]. unfold PlacedOrder_valid in Hv. bools.
    rewrite <-Hid. split_and!; eauto using speak_lines_nonempty.
Qed.

Lemma perform_error c s s' e :
  store_inv s → dget "" (orders s) = None → perform c s = (s', inl e) → s' = s.
Proof.
  intros Hi Hempty. destruct c as [k lines t|k o a d i|k o a d|k o]; simpl; munfold_goal.
  - destruct (place_cart k lines t s) as [s1 [e1|p]] eqn:E; intros; simplify_eq.
    destruct (place_cases _ _ _ _ _ _ E) as [|[|]]; naive_solver.
  - destruct (issue_refund k o a d i s) as [s1 [e1|p]] eqn:E; intros; simplify_eq.
    destruct (refund_cases _ _ _ _ _ _ _ _ E) as [|[|]]; naive_solver.
  - destruct (create_return k o a d s) as [s1 [e1|p]] eqn:E; intros; simplify_eq.
    destruct (return_cases _ _ _ _ _ _ _ E) as
      [|[(?&?&?&_)|(?&?&?&?&?&_)]]; naive_solver.
  - destruct (cancel_order k o s) as [s1 [e1|p]] eqn:E; intros; simplify_eq.
    destruct (cancel_cases _ _ _ _ _ E) as
      [(?&?&?)|[(?&?&_)|[(cap & e2 & Hg & _ & _ & su & Hsu & Hbad)|(?&?&?&?&_)]]]; try naive_solver.
    erewrite cancel_record_valid in Hbad by done. done.
Qed.

(** ** Order status *)
Inductive status_move : option string → option string → Prop :=
  | status_same st : status_move st st
  | status_placed : status_move None (Some PLACED_STATUS)
  | status_cancelled : status_move (Some PLACED_STATUS) (Some CANCELLED_STATUS).

Lemma status_place s k lines c o (p := fresh_placed s lines c) :
  store_inv s → dget k (placed_by_key s) = None →
  status_move (order_status s o)
    (order_status (set_placed (dset k p) (next_seq s + 1) s) o).
Proof.
  intros Hi Hk. unfold order_status, placed_by_id. cbn [orders placed_by_key set_placed cancelled_ids].
  rewrite dset_fresh, dvalues_snoc, find_app_single by done.
  case_decide; [constructor|]. destruct (dget _ (orders s)); [constructor|].
  destruct (List.find _ _); [constructor|]. destruct (String.eqb _ _); constructor.
Qed.

Lemma status_cancel s s' k o x cap :
  cancel_guards s k o cap → orders s' = orders s → placed_by_key s' = placed_by_key s →
  cancelled_ids s' = {[canon o]} ∪ cancelled_ids s →
  status_move (order_status s x) (order_status s' x).
Proof.
  intros Hg Ho Hp Hc. unfold order_status, placed_by_id. rewrite Ho, Hp, Hc.
  destruct (decide (canon x = canon o)) as [Heq|Hne].
  - destruct Hg as (_ & Hst & _). unfold order_status, placed_by_id in Hst.
    rewrite canon_idem in Hst. rewrite !Heq.
    rewrite (decide_True (P := canon o ∈ {[canon o]} ∪ cancelled_ids s)) by set_solver.
    destruct (decide (canon o ∈ cancelled_ids s)); [done|].
    rewrite Hst. constructor.
  - destruct (decide (canon x ∈ cancelled_ids s)).
    + rewrite decide_True by set_solver. constructor.
    + rewrite decide_False by set_solver. constructor.
Qed.

Lemma run_call_status c s o :
  store_inv s → status_move (order_status s o) (order_status (run_call c s) o).
Proof.
  intros Hi. destruct c as [k lines t|k o' a d i|k o' a d|k o']; simpl.
  - destruct (place_cart k lines t s) as [s' r] eqn:E.
    destruct (place_cases _ _ _ _ _ _ E) as
      [(e & _ & ->)|[(p & c & _ & -> & _)|(c & _ & -> & Hv & Hk & _)]]; try by constructor.
    by apply status_place.
  - destruct (issue_refund k o' a d i s) as [s' r] eqn:E.
    destruct (refund_cases _ _ _ _ _ _ _ _ E) as
      [(e & _ & ->)|[(x & c & _ & -> & _)|(c & cap & _ & -> & _)]]; constructor.
  - destruct (create_return k o' a d s) as [s' r] eqn:E.
    destruct (return_cases _ _ _ _ _ _ _ E) as
      [(e & _ & ->)|[(x & c & _ & -> & _)|(c & cap & st & su & _ & -> & _)]]; constructor.
  - destruct (cancel_order k o' s) as [s' r] eqn:E.
    destruct (cancel_cases _ _ _ _ _ E) as
      [(e & _ & ->)|[(x & _ & -> & _)|[(cap & e & Hg & _ & -> & _)|(cap & su & Hg & _ & ->)]]];
      try (by constructor); by eapply status_cancel.
Qed.

Lemma steps_inv s s' : store_inv s → rtc store_step s s' → store_inv s'.
Proof. intros H Hs. induction Hs as [|s s1 s2 [c ->] _ IH]; [done|]. by apply IH, run_call_inv. Qed.

(** ** Money returned on an order *)
Definition voided_on (l : list (string * CancelRecord)) (normalized : string) : Z :=
  sumZ (cr_total_usd <$> filter (λ r, cr_order_id r = normalized) (dvalues l)).
Definition voided_total (s : OrderStore) (order_id : string) : Z :=
  voided_on (cancels_by_key s) (canon order_id).

Lemma filter_none {A} (P : A → Prop) `{∀ x, Decision (P x)} (l : list A) :
  (∀ x, x ∈ l → ¬ P x) → filter P l = [].
Proof.
  induction l as [|x l IH]; intros Hl; [done|].
  rewrite filter_cons, decide_False by (apply Hl; set_solver). apply IH. set_solver.
Qed.

Lemma sum_unique {A} (f : A → string) (g : A → Z) (l : list A) n c :
  NoDup (f <$> l) → 0 ≤ c → (∀ x, x ∈ l → f x = n → g x = c) →
  0 ≤ sumZ (g <$> filter (λ x, f x = n) l) ≤ c.
Proof.
  induction l as [|x l IH]; [simpl; lia|]. rewrite fmap_cons.
  intros [Hx Hnd]%NoDup_cons Hc Hg. rewrite filter_cons. case_decide as Hf.
  - assert (filter (λ x, f x = n) l = []) as ->.
    { apply filter_none. intros y Hin Hy.
      destruct Hx. rewrite Hf, <-Hy. by apply list_elem_of_fmap_2. }
    simpl. rewrite (Hg x) by set_solver. lia.
  - apply IH; [done|done|]. intros. apply Hg; set_solver.
Qed.

Lemma inv_ledger_safe s0 s : initial s0 → rtc store_step s0 s → ledger_safe (account_of s).
Proof.
  intros H0 Hs. pose proof (initial_inv _ H0) as Hi.
  assert (ledger_safe (account_of s0)) as Hl.
  { destruct H0 as (tenant & os & [_ Hv] & Hn). unfold new_store, Guest.normalize_tenant_id in Hn.
    munfold. destruct (nonempty (strip tenant)); simplify_eq/=.
    intros n a. unfold account_of. destruct (captured_n _ n) as [c|] eqn:Hc; [|done].
    intros [= <-]. unfold account_safe. cbn.
    assert (0 ≤ c); [|by split_and!]. unfold captured_n in Hc. cbn in Hc.
    destruct (dget n os) as [e|] eqn:He; [|done]. simplify_eq.
    rewrite Forall_forall in Hv. apply dget_Some_elem, Hv in He. unfold OrderEntry_valid in He.
    cbn in He. bools. done. }
  clear H0. induction Hs as [|s s1 s2 [c ->] _ IH]; [done|].
  apply IH; [by apply run_call_inv|]. eapply ledger_step_safe; [by apply run_call_ledger|done].
Qed.

(** ** Properties *)

(** C3 No order can return more money than it captured: in every reachable store the refunds
    issued, the refunds promised by an open return and the total voided by cancellations of an
    order never add up to more than the captured total of that order. *)
Theorem returned_never_exceeds_captured s o c :
  reachable s → captured_total s o = Some c →
  0 ≤ refunded_so_far s o ∧ 0 ≤ return_refund_due s o ∧ 0 ≤ voided_total s o ∧
  refunded_so_far s o + return_refund_due s o + voided_total s o ≤ c.
Proof.
  intros Hs Hc. pose proof (reachable_inv _ Hs) as Hi. destruct Hs as (s0 & H0 & Hs).
  pose proof (inv_ledger_safe _ _ H0 Hs (canon o)) as Hsafe.
  unfold account_of in Hsafe. rewrite captured_total_n in Hc. rewrite Hc in Hsafe.
  specialize (Hsafe _ eq_refl). destruct Hsafe as (Hcap & Hr & Hp & Hv). cbn in *.
  unfold refunded_so_far, return_refund_due, voided_total, voided_on.
  assert (∀ r, r ∈ dvalues (cancels_by_key s) → ∃ k, (k, r) ∈ cancels_by_key s) as Hval.
  { intros r Hr'. unfold dvalues in Hr'. apply list_elem_of_fmap in Hr' as ((k & r') & -> & ?). eauto. }
  pose proof (sum_unique cr_order_id cr_total_usd (dvalues (cancels_by_key s)) (canon o) c
    (inv_cancel_ids s Hi) Hcap) as Hvoid.
  destruct Hvoid as [Hv0 Hvc].
  { intros r Hr' Heq. destruct (Hval _ Hr') as [k Hk].
    destruct (inv_cancels s Hi _ _ Hk) as [_ Hk']. rewrite Heq in Hk'. congruence. }
  destruct (decide (canon o ∈ cancelled_ids s)) as [Hin|Hin].
  - rewrite bool_decide_eq_true_2 in Hv by done. lia.
  - rewrite bool_decide_eq_false_2 in Hv by done.
    assert (filter (λ x, cr_order_id x = canon o) (dvalues (cancels_by_key s)) = []) as ->.
    { apply filter_none. intros r Hr' Heq. destruct (Hval _ Hr') as [k Hk]. destruct (inv_cancels s Hi _ _ Hk) as [Hk' _].
      rewrite Heq in Hk'. done. }
    simpl. lia.
Qed.

(** C6 Refinement: the store implements the abstract ledger.  Whatever methods are called with
    whatever arguments, every prefix of the run is a run of ledger transitions (open an account,
    refund within the balance, promise within the balance, void an untouched account, or
    nothing) on the abstraction of the store. *)
Theorem store_refines_ledger s s' :
  reachable s → rtc store_step s s' → rtc ledger_step (account_of s) (account_of s').
Proof.
  intros Hs%reachable_inv Hr. induction Hr as [|s s1 s2 [c ->] _ IH]; [done|].
  econstructor; [by apply run_call_ledger|]. by apply IH, run_call_inv.
Qed.

(** C21 An effect is applied once per idempotency key: after a call has returned a record, at any
    later time the same call returns the same record and leaves the store as it is, its receipt
    lookup reports it committed, and any other call with that key (of the same ledger) leaves
    the store as it is and returns that record or raises. *)
Theorem effect_applied_once c s s1 s2 r :
  perform c s = (s1, inr r) → rtc store_step s1 s2 →
  perform c s2 = (s2, inr r) ∧ receipt_of c s2 = inr (CommittedReceipt r) ∧
  ∀ c', slot c' = slot c →
    (perform c' s2).1 = s2 ∧ ∀ r', (perform c' s2).2 = inr r' → r' = r.
Proof.
  intros H Hs. assert (stored c s2 r) by eauto using stored_steps, perform_stored.
  split_and!; eauto using stored_replay, stored_receipt, stored_slot.
Qed.

(** A refused call changes nothing: in a store whose fixture has no order with the blank
    reference, a call that raises leaves every record, counter and cancellation mark as it was. *)
Theorem refused_call_unchanged c s s' e :
  reachable s → dget "" (orders s) = None → perform c s = (s', inl e) → s' = s.
Proof. intros Hs%reachable_inv. by apply perform_error. Qed.

(** The status of an order moves only from unknown to processing (it is placed) and from
    processing to cancelled, by any sequence of calls; so a shipped or delivered order is never
    cancelled and a cancelled order stays cancelled. *)
Theorem order_status_lifecycle s s' o :
  reachable s → rtc store_step s s' →
  rtc status_move (order_status s o) (order_status s' o) ∧
  (∀ st, order_status s o = Some st → st ≠ PLACED_STATUS → order_status s' o = Some st).
Proof.
  intros Hs%reachable_inv Hr.
  assert (rtc status_move (order_status s o) (order_status s' o)) as Hm.
  { induction Hr as [|s s1 s2 [c ->] _ IH]; [done|].
    econstructor; [by apply run_call_status|]. by apply IH, run_call_inv. }
  split; [done|]. intros st Hst Hne. rewrite Hst in Hm. remember (Some st) as x eqn:Hx.
  clear Hst. induction Hm as [y|y1 y2 y3 Hstep _ IH]; [done|].
  destruct Hstep; simplify_eq; auto.
Qed.

(** ** Witnesses *)
Definition demo_orders : list (string * OrderEntry) :=
  [("ORD-1", mkOrderEntry "processing" "1 jacket" "tomorrow" "cust-1" 12000 None);
   ("ORD-2", mkOrderEntry "delivered" "2 socks" "today" "cust-1" 2000 (Some "2024-01-01"))].
Definition demo_store : OrderStore := mkOrderStore "acme" demo_orders [] 9001 [] 7001 [] ∅ [] 3001.
Definition demo_line : CartLine := mkCartLine "SKU-1" "mug" 1250 2.
Definition demo_calls : list StoreCall :=
  [CallPlace "k1" [demo_line] (DFinite 2500 (-2));
   CallRefund "k2" " ord-2" (DFinite 5 0) "original_method" "visa 1";
   CallReturn "k3" "ORD-2" (DFinite 1500 (-2)) "original_method";
   CallCancel "k4" "ord-9001 "; CallRefund "k5" "ORD-9001" (DFinite 1 0) "original_method" "visa 1"].
Definition demo_after : OrderStore := foldl (λ s c, run_call c s) demo_store demo_calls.

Lemma demo_initial : initial demo_store.
Proof.
  exists " acme ", demo_orders. split; [|done]. split; [apply (bool_decide_unpack _); by vm_compute|].
  by repeat constructor.
Qed.

Lemma demo_steps cs s : rtc store_step s (foldl (λ s c, run_call c s) s cs).
Proof.
  revert s. induction cs as [|c cs IH]; intros s; simpl; [done|].
  econstructor; [by exists c|]. apply IH.
Qed.

Lemma demo_reachable cs : reachable (foldl (λ s c, run_call c s) demo_store cs).
Proof. exists demo_store. split; [apply demo_initial|apply demo_steps]. Qed.

Lemma returned_never_exceeds_captured_witness :
  captured_total demo_after "ord-2" = Some 2000 ∧
  refunded_so_far demo_after "ord-2" = 500 ∧ return_refund_due demo_after "ord-2" = 1500 ∧
  refunded_so_far demo_after "ord-2" + return_refund_due demo_after "ord-2" +
    voided_total demo_after "ord-2" ≤ 2000 ∧
  voided_total demo_after "ORD-9001" = 2500.
Proof.
  split_and!; [by vm_compute..| |by vm_compute].
  apply (returned_never_exceeds_captured demo_after "ord-2" 2000); [apply demo_reachable|].
  by vm_compute.
Defined.

Lemma store_refines_ledger_witness :
  rtc ledger_step (account_of demo_store) (account_of demo_after) ∧
  account_of demo_after "ORD-9001" = Some (mkAccount 2500 0 0 true) ∧
  account_of demo_store "ORD-9001" = None.
Proof.
  split_and!; [|by vm_compute..].
  apply (store_refines_ledger demo_store); [apply (demo_reachable [])|apply demo_steps].
Defined.

Lemma effect_applied_once_witness :
  let c := CallRefund "k2" " ord-2" (DFinite 5 0) "original_method" "visa 1" in
  let r := RRefund (mkRefundRecord "R-7001" "ORD-2" 500 "original_method" "visa 1") in
  perform c demo_after = (demo_after, inr r) ∧
  perform (CallRefund "k2" "ORD-1" (DFinite 5 0) "x" "y") demo_after =
    (demo_after, raises RefundError "refund idempotency key was reused with different parameters").
Proof.
  split; [|by vm_compute].
  apply (effect_applied_once _ demo_store
    (run_call (CallRefund "k2" " ord-2" (DFinite 5 0) "original_method" "visa 1") demo_store)
    demo_after); [by vm_compute|].
  apply (demo_steps [CallPlace "k1" [demo_line] (DFinite 2500 (-2));
    CallReturn "k3" "ORD-2" (DFinite 1500 (-2)) "original_method"; CallCancel "k4" "ord-9001 "]).
Defined.

Lemma refused_call_unchanged_witness :
  ∃ e, perform (CallCancel "k9" "ORD-2") demo_after = (demo_after, inl e).
Proof.
  destruct (perform (CallCancel "k9" "ORD-2") demo_after) as [s' [e|r]] eqn:E.
  - exists e. f_equal.
    apply (refused_call_unchanged _ _ _ _ (demo_reachable demo_calls) eq_refl E).
  - vm_compute in E. discriminate.
Defined.

Lemma order_status_lifecycle_witness :
  rtc status_move (order_status demo_store "ord-9001") (order_status demo_after "ord-9001") ∧
  order_status demo_store "ord-9001" = None ∧
  order_status demo_after "ord-9001" = Some CANCELLED_STATUS ∧
  order_status demo_after "ord-2" = Some "delivered".
Proof.
  split_and!; [|by vm_compute..|].
  - apply (order_status_lifecycle demo_store); [apply (demo_reachable [])|apply demo_steps].
  - apply (order_status_lifecycle demo_store demo_after "ord-2");
      [apply (demo_reachable [])|apply demo_steps|by vm_compute|done].
Defined.
