(* ===== verification/Spoken.v ===== *)
(** * Spoken-form input (commerce/spoken.py)

    What the caller said, after speech recognition: quantities, digit strings,
    phone numbers, order references, e-mail addresses, the contact scanner and
    the contact redaction.  Text is ASCII, where [casefold] is [lower]. *)

From S2P Require Import Prelude PyText Regex Tokens.
Local Open Scope Z_scope.
Local Open Scope list_scope.

Definition DIGIT_WORDS : list (string * string) :=
  [("zero", "0"); ("oh", "0"); ("one", "1"); ("two", "2"); ("three", "3"); ("four", "4");
   ("five", "5"); ("six", "6"); ("seven", "7"); ("eight", "8"); ("nine", "9")].
Definition ORDER_LABEL_TOKENS : list string := ["ord"; "order"].
Definition ORDER_VALUE_FILLERS : list string := ["ord"; "number"; "id"; "is"].
Definition ORDER_SET_CONNECTORS : list string := ["and"; "also"; "plus"].
Definition ORDER_SET_BLOCKERS : list string := ["dont"; "never"; "no"; "not"; "rather"; "instead"].
Definition MIN_PHONE_DIGITS : nat := 7.
Definition MAX_STANDALONE_QUANTITY_DIGITS : nat := 6.

(** [int(token)] of a text of decimal digits. *)
Fixpoint int_go (acc : Z) (s : string) : Z :=
  match s with "" => acc | String c s' => int_go (10 * acc + (Z.of_nat (code c) - 48)) s' end.
Definition int_of (s : string) : Z := int_go 0 s.

Definition QUANTITY_WORDS : list (string * Z) :=
  ((λ '(w, d), (w, int_of d)) <$> filter (λ wd, wd.1 ≠ "oh") DIGIT_WORDS) ++ [("ten", 10)].

(** [s.removesuffix(suffix)] *)
Definition removesuffix (suffix s : string) : string :=
  if ends_with suffix s then String.substring 0 (String.length s - String.length suffix) s else s.

(** [s.isdecimal()] and [s.isdigit()] *)
Definition isdecimal (s : string) : bool := nonempty s && sforall is_digit s.

Definition standalone_quantity (text : string) : option Z :=
  let token := strip (removesuffix "!" (removesuffix "." (lower (strip text)))) in
  match dget token QUANTITY_WORDS with
  | Some n => Some n
  | None =>
      if isdecimal token && (String.length token <=? MAX_STANDALONE_QUANTITY_DIGITS)%nat
      then Some (int_of token) else None
  end.

(** The characters [[a-z0-9]]. *)
Definition is_tok (c : ascii) : bool := is_lower c || is_digit c.

(** [re.split(r"[^a-z0-9]+", s)] *)
Fixpoint resplit (cur : string) (in_gap : bool) (s : string) : list string :=
  match s with
  | "" => [srev cur]
  | String c s' =>
      if is_tok c then resplit (String c cur) false s'
      else if in_gap then resplit cur true s' else srev cur :: resplit "" true s'
  end.

(** ["".join(xs)] *)
Definition sconcat (l : list string) : string := join "" l.

Definition token_digits (token : string) : string :=
  match dget token DIGIT_WORDS with Some d => d | None => sfilter is_digit token end.

Definition spoken_digits (text : string) : string :=
  sconcat (token_digits <$> resplit "" false (lower text)).

(** The runs of digit-bearing tokens of [caller_stated_phone]. *)
Fixpoint digit_runs (current : list string) (tokens : list string) : list string :=
  match tokens with
  | [] => match current with [] => [] | _ => [sconcat current] end
  | token :: tokens' =>
      let digits := spoken_digits token in
      if nonempty digits then digit_runs (current ++ [digits]) tokens'
      else match current with
           | [] => digit_runs [] tokens'
           | _ => sconcat current :: digit_runs [] tokens'
           end
  end.

Definition caller_stated_phone (utterance proposed : string) : bool :=
  let proposed_digits := spoken_digits proposed in
  if (String.length proposed_digits <? MIN_PHONE_DIGITS)%nat then false
  else bool_decide (proposed_digits ∈ digit_runs [] (split utterance)).

(** ** Order references *)
Record OrderReferenceSpan := mkOrderSpan {
  os_reference : string; os_token_start : nat; os_token_end : nat;
  os_char_start : nat; os_char_end : nat; os_collapsed_or_label : bool }.

(** [re.compile(r"ord(\d+)$").fullmatch(value)]: the digits. *)
Definition order_fused (value : string) : option string :=
  match value with
  | String "o" (String "r" (String "d" digits)) => if isdecimal digits then Some digits else None
  | _ => None
  end.

Section order_reference_at.
Context (tokens : list span).

Definition tok (i : nat) : option string := sp_text <$> tokens !! i.
Definition tok_in (l : list string) (i : nat) : bool :=
  match tok i with Some t => bool_decide (t ∈ l) | None => false end.

(** [while cursor < len(tokens) and tokens[cursor] in l: cursor += 1] *)
Fixpoint skip_while (fuel : nat) (l : list string) (cursor : nat) : nat :=
  match fuel with
  | O => cursor
  | S fuel => if tok_in l cursor then skip_while fuel l (S cursor) else cursor
  end.
Definition skip (l : list string) (cursor : nat) : nat := skip_while (length tokens - cursor) l cursor.

(** The cursor after the label and whether it was a collapsed "or d". *)
Definition label_end (index : nat) : option (nat * bool) :=
  if tok_in ORDER_LABEL_TOKENS index then Some (S index, false)
  else if bool_decide (tok index = Some "o" ∧ tok (S index) = Some "r" ∧ tok (S (S index)) = Some "d")
  then Some (index + 3, false)%nat
  else if bool_decide (tok index = Some "or" ∧ tok (S index) = Some "d")
  then Some (index + 2, true)%nat
  else None.

(** The digits spoken at the cursor and the cursor after them. *)
Definition payload_at (cursor : nat) : option (string * nat) :=
  match tok cursor with
  | None => None
  | Some payload =>
      if isdecimal payload then Some (payload, S cursor)
      else if dmem payload DIGIT_WORDS then
        let cursor' := skip (dkeys DIGIT_WORDS) cursor in
        Some (sconcat ((λ t, token_digits (sp_text t)) <$> take (cursor' - cursor) (drop cursor tokens)),
              cursor')
      else match order_fused payload with
           | None => None
           | Some digits => Some (digits, S cursor)
           end
  end.

Definition char_start_of (i : nat) : nat := default 0%nat (sp_start <$> tokens !! i).
Definition char_end_of (i : nat) : nat := default 0%nat (sp_end <$> tokens !! i).

Definition order_reference_at (index : nat) : option OrderReferenceSpan :=
  match tok index with
  | None => None
  | Some value =>
      match order_fused value with
      | Some digits =>
          Some (mkOrderSpan ("ORD-" +:+ digits) index (S index) (char_start_of index)
                  (char_end_of index) false)
      | None =>
          match label_end index with
          | None => None
          | Some (cursor, collapsed) =>
              let cursor := skip ORDER_VALUE_FILLERS cursor in
              let cursor := if tok_in ["dash"] cursor then S cursor else cursor in
              match payload_at cursor with
              | None => None
              | Some (digits, cursor) =>
                  Some (mkOrderSpan ("ORD-" +:+ digits) index cursor (char_start_of index)
                          (char_end_of (cursor - 1)) collapsed)
              end
          end
      end
  end.

(** The scan of [caller_stated_order_ids]; [None] when a collapsed label follows
    a span.  The fuel is the number of tokens left: every span ends after its start. *)
Fixpoint scan_orders (fuel index : nat) (spans : list OrderReferenceSpan)
    : option (list OrderReferenceSpan) :=
  match fuel with
  | O => Some spans
  | S fuel =>
      if (index <? length tokens)%nat then
        match order_reference_at index with
        | Some sp =>
            if os_collapsed_or_label sp && negb (bool_decide (spans = [])) then None
            else scan_orders fuel (os_token_end sp) (spans ++ [sp])
        | None => scan_orders fuel (S index) spans
        end
      else Some spans
  end.
End order_reference_at.

Instance span_eq_dec : EqDecision span.
Proof. solve_decision. Defined.
Instance OrderReferenceSpan_eq_dec : EqDecision OrderReferenceSpan.
Proof. solve_decision. Defined.

Definition tokens_re : re := RPlus (RChar is_tok).

Definition is_additive_order_join (text : string) : bool :=
  let words := findall tokens_re text in
  match words with
  | [] => existsb (λ mark, py_in mark text) [","; ";"; "&"; "+"]
  | _ => forallb (λ word, bool_decide (word ∈ ORDER_SET_CONNECTORS)) words
  end.

(** [s.replace("don't", "dont")] *)
Fixpoint RExact (s : string) : re :=
  match s with "" => REps | String c s' => RCat (RChar (Ascii.eqb c)) (RExact s') end.
Definition replace_dont (s : string) : string := sub (RExact "don't") "dont" s.

(** [list(enumerate(l, start))] *)
Fixpoint enumerate_from {A} (start : nat) (l : list A) : list (nat * A) :=
  match l with [] => [] | x :: l' => (start, x) :: enumerate_from (S start) l' end.

Definition consumed (spans : list OrderReferenceSpan) (i : nat) : bool :=
  existsb (λ sp, (os_token_start sp <=? i)%nat && (i <? os_token_end sp)%nat) spans.

(** [zip(spans, spans[1:])] *)
Definition pairwise {A} (l : list A) : list (A * A) := combine l (tail l).

Definition caller_stated_order_ids (utterance : string) : list string :=
  let normalized := replace_dont (lower utterance) in
  let tokens := finditer tokens_re normalized in
  match scan_orders tokens (length tokens) 0 [] with
  | None => []
  | Some spans =>
      match last spans with
      | None => []
      | Some last_span =>
          if existsb (λ it, negb (consumed spans it.1) &&
                            bool_decide (sp_text it.2 ∈ ORDER_SET_BLOCKERS)) (enumerate_from 0 tokens)
          then []
          else if existsb (λ lr, negb (is_additive_order_join
                             (slice normalized (os_char_end lr.1) (os_char_start lr.2)))) (pairwise spans)
          then []
          else
            let tail := slice normalized (os_char_end last_span) (String.length normalized) in
            match findall tokens_re tail with
            | word :: _ =>
                if bool_decide (word ∈ ORDER_SET_CONNECTORS) || String.eqb word "or" then []
                else fromkeys (os_reference <$> spans)
            | [] => fromkeys (os_reference <$> spans)
            end
      end
  end.

(** ** E-mail addresses *)
Definition spaces : re := RPlus (RChar is_space).
Definition spaced (word : string) : re := RCat spaces (RCat (RLit word) spaces).

(** [s.rstrip(".")] *)
Fixpoint rstrip_dots (s : string) : string :=
  match s with
  | "" => ""
  | String c s' =>
      let r := rstrip_dots s' in
      if Ascii.eqb c "." && String.eqb r "" then "" else String c r
  end.

Definition spoken_email (text : string) : option string :=
  let lowered := lower (strip text) in
  let lowered := sub (spaced "at") "@" lowered in
  let lowered := sub (spaced "dot") "." lowered in
  if negb (py_in "@" lowered) then None
  else Some (rstrip_dots (sconcat (split lowered))).

Definition is_word (c : ascii) : bool := is_alnum c || Ascii.eqb c "_".
Definition is_local_char (c : ascii) : bool :=
  is_word c || Ascii.eqb c "." || Ascii.eqb c "'" || Ascii.eqb c "-".
Definition is_domain_char (c : ascii) : bool := is_word c || Ascii.eqb c "-".

Definition TYPED_EMAIL : re :=
  RCat (RPlus (RChar non_space)) (RCat (RChar (Ascii.eqb "@")) (RPlus (RChar non_space))).

Definition local_part : re := RPlus (RChar is_local_char).
Definition domain_label : re := RPlus (RChar is_domain_char).
Definition SPOKEN_EMAIL : re :=
  RCat (RUpTo 3 (RCat local_part spaces))
    (RCat local_part (RCat (spaced "at") (RCat domain_label (RPlus (RCat (spaced "dot") domain_label))))).

Definition SPOKEN_EMAIL_PREFIX_FILLERS : list string :=
  ["address"; "again"; "contact"; "email"; "is"; "its"; "my"; "the"].

(** [s.strip(chars)] *)
Definition in_chars (chars : string) (c : ascii) : bool := sexists (Ascii.eqb c) chars.
Fixpoint rstrip_of (f : ascii → bool) (s : string) : string :=
  match s with
  | "" => ""
  | String c s' =>
      let r := rstrip_of f s' in if f c && String.eqb r "" then "" else String c r
  end.
Definition strip_of (chars s : string) : string :=
  rstrip_of (in_chars chars) (drop_while (in_chars chars) s).

Inductive ContactKind := kind_email | kind_phone.
#[export] Instance ContactKind_eq_dec : EqDecision ContactKind.
Proof. solve_decision. Defined.

Record ContactCandidate := mkCandidate { cc_kind : ContactKind; cc_claim : string }.

Fixpoint drop_fillers (tokens : list string) : list string :=
  match tokens with
  | t :: (_ :: _) as rest =>
      if bool_decide (strip_of ".,:;'" (lower t) ∈ SPOKEN_EMAIL_PREFIX_FILLERS)
      then drop_fillers rest else tokens
  | _ => tokens
  end.

Definition bare (token : string) : string := sfilter is_tok (lower token).

(** The last token and the contiguous one-character tokens before it. *)
Fixpoint singles (rev_tokens : list string) : list string :=
  match rev_tokens with
  | [] => []
  | t :: rest => if (String.length (bare t) =? 1)%nat then t :: singles rest else []
  end.

Definition spoken_email_candidate (sp : string) : option string :=
  match last (finditer (spaced "at") sp) with
  | None => None
  | Some separator =>
      let local := slice sp 0 (sp_start separator) in
      let domain := slice sp (sp_end separator) (String.length sp) in
      match rev (drop_fillers (split local)) with
      | [] => None
      | final :: before =>
          let bounded_local := rev (final :: singles before) in
          spoken_email (join " " bounded_local +:+ " at " +:+ domain)
      end
  end.

(** ** The contact scanner *)
Record scan_state := mkScan {
  ss_candidates : list ContactCandidate; ss_run : list string; ss_digits : nat;
  ss_tainted : bool; ss_label : bool }.

Definition scan_flush (st : scan_state) : scan_state :=
  mkScan
    (if (MIN_PHONE_DIGITS <=? ss_digits st)%nat && negb (ss_tainted st)
     then ss_candidates st ++ [mkCandidate kind_phone (sconcat (ss_run st))] else ss_candidates st)
    [] 0 false (ss_label st).

Definition has_digit (s : string) : bool := sexists is_digit s.

Definition scan_token (st : scan_state) (token : string) : scan_state :=
  let b := bare token in
  let value := spoken_digits token in
  let is_numeric := nonempty value && (dmem b DIGIT_WORDS || has_digit b) in
  if is_numeric then
    let tainted :=
      match ss_run st with
      | [] => ss_label st || starts_with "ord" b
      | _ => ss_tainted st || starts_with "ord" b
      end in
    mkScan (ss_candidates st) (ss_run st ++ [value]) (ss_digits st + String.length value) tainted false
  else
    let st := scan_flush st in
    mkScan (ss_candidates st) (ss_run st) (ss_digits st) (ss_tainted st)
      (bool_decide (b ∈ ORDER_LABEL_TOKENS)).

Definition emails_of (claims : list (option string)) : list ContactCandidate :=
  omap (λ o, mkCandidate kind_email <$> o) claims.

Definition scan_contact_candidates (text : string) : list ContactCandidate :=
  let typed := emails_of ((λ m, spoken_email (strip_of ".,;:!?()[]{}" m)) <$> findall TYPED_EMAIL text) in
  let spoken := emails_of (spoken_email_candidate <$> findall SPOKEN_EMAIL text) in
  let numeric_text := sub SPOKEN_EMAIL " " (sub TYPED_EMAIL " " text) in
  ss_candidates (scan_flush
    (foldl scan_token (mkScan (typed ++ spoken) [] 0 false false) (split numeric_text))).

(** ** Redaction *)
Record redact_state := mkRedact { rs_out : list string; rs_run : list string; rs_digits : nat }.

Definition redact_flush (st : redact_state) : redact_state :=
  mkRedact
    (if (MIN_PHONE_DIGITS <=? rs_digits st)%nat then rs_out st ++ ["[phone]"]
     else rs_out st ++ rs_run st) [] 0.

Fixpoint count_digits (s : string) : nat :=
  match s with
  | "" => 0
  | String c s' => (if is_digit c then 1 else 0) + count_digits s'
  end.

Definition token_weight (token : string) : nat :=
  if dmem (bare token) DIGIT_WORDS then 1 else count_digits (bare token).

Definition redact_token (st : redact_state) (token : string) : redact_state :=
  let digits := token_weight token in
  if (digits =? 0)%nat
  then let st := redact_flush st in mkRedact (rs_out st ++ [token]) (rs_run st) (rs_digits st)
  else mkRedact (rs_out st) (rs_run st ++ [token]) (rs_digits st + digits).

Definition redact_contact (text : string) : string :=
  let redacted := sub SPOKEN_EMAIL "[email]" (sub TYPED_EMAIL "[email]" text) in
  join " " (rs_out (redact_flush (foldl redact_token (mkRedact [] [] 0) (split redacted)))).

