(* ===== verification/Redaction.v ===== *)
(** * What the contact redaction removes

    [redact_contact] output holds no typed e-mail address and no run of
    consecutive digit-bearing tokens that adds up to a phone number, and the
    spoken order-reference parser only returns well-formed references. *)

From S2P Require Import Prelude PyText Regex Tokens Spoken.
Local Open Scope Z_scope.
Local Open Scope list_scope.

(** ** An automaton for [x@y] with [x] and [y] no white space

    State 0: the last character is a space or there is none; 1: it is not a
    space; 2: it is an [@] after a character that is not a space. *)
Definition at_step (st : nat) (c : ascii) : nat :=
  if is_space c then 0%nat
  else match st with 0%nat => 1%nat | _ => if Ascii.eqb "@" c then 2%nat else 1%nat end.
Definition at_fails (st : nat) (c : ascii) : bool := (st =? 2)%nat && non_space c.
Fixpoint has_at (st : nat) (s : string) : bool :=
  match s with
  | "" => false
  | String c s' => at_fails st c || has_at (at_step st c) s'
  end.
Fixpoint at_end (st : nat) (s : string) : nat :=
  match s with "" => st | String c s' => at_end (at_step st c) s' end.

Lemma has_at_app st a b : has_at st (a +:+ b) = has_at st a || has_at (at_end st a) b.
Proof.
  revert st. induction a as [|c a IH]; intros st; [done|]. rewrite app_cons. simpl.
  by rewrite IH, orb_assoc.
Qed.

Lemma at_step_mono st st' c : (st ≤ st' ≤ 2)%nat → (at_step st c ≤ at_step st' c ≤ 2)%nat.
Proof.
  unfold at_step. intros H. destruct (is_space c); [lia|].
  destruct st as [|st], st' as [|st']; destruct (Ascii.eqb "@" c); lia.
Qed.

(** A further state only finds more. *)
Lemma has_at_mono s : ∀ st st', (st ≤ st' ≤ 2)%nat → has_at st' s = false → has_at st s = false.
Proof.
  induction s as [|c s IH]; intros st st' Hst; simpl; [done|].
  intros [Hf Hs]%orb_false_iff. apply orb_false_iff. split.
  - unfold at_fails in *. destruct (non_space c); [|by rewrite andb_false_r].
    rewrite andb_true_r in *. apply Nat.eqb_neq in Hf. apply Nat.eqb_neq. lia.
  - eapply IH; [by apply at_step_mono|done].
Qed.

Lemma at_end_le s st : (st ≤ 2)%nat → (at_end st s ≤ 2)%nat.
Proof.
  revert st. induction s as [|c s IH]; intros st H; [done|]. simpl. apply IH.
  destruct (at_step_mono st st c); lia.
Qed.

(** A text without [x@y] has none in any part of it. *)
Lemma has_at_part a t b : has_at 0 (a +:+ t +:+ b) = false → has_at 0 t = false.
Proof.
  rewrite !has_at_app. intros [_ [H _]%orb_false_iff]%orb_false_iff.
  eapply has_at_mono; [|done]. pose proof (at_end_le a 0). lia.
Qed.

(** ** Texts of one character class *)
Lemma lang_star_class f w : lang (RStar (RChar f)) w → sforall f w = true.
Proof.
  intros H. remember (RStar (RChar f)) as r eqn:Hr. revert Hr.
  induction H as [| | | | | |a s t Hs _ Ht IH]; intros Hr; simplify_eq; [done|].
  inversion Hs as [|? c Hc| | | | |]; subst. rewrite app_cons. simpl. rewrite Hc. by apply IH.
Qed.

Lemma lang_plus_class f w : lang (RPlus (RChar f)) w →
  ∃ c s, w = String c s ∧ f c = true ∧ sforall f s = true.
Proof.
  intros H. inversion H as [| |? ? a b Ha Hb| | | |]; subst.
  inversion Ha as [|? c Hc| | | | |]; subst. exists c, b. split_and!; [done..|].
  by apply lang_star_class in Hb.
Qed.

Lemma lang_star_class_intro f w : sforall f w = true → lang (RStar (RChar f)) w.
Proof.
  induction w as [|c w IH]; simpl; [constructor|]. intros [Hc Hw]%andb_true_iff.
  change (String c w) with (String c "" +:+ w). constructor; [by constructor|auto].
Qed.

Lemma lang_plus_class_intro f c w :
  f c = true → sforall f w = true → lang (RPlus (RChar f)) (String c w).
Proof.
  intros. change (String c w) with (String c "" +:+ w). unfold RPlus.
  constructor; [by constructor|]. by apply lang_star_class_intro.
Qed.

(** A text of no white space after a character that is no white space ends in state 1 or 2. *)
Lemma at_end_nonzero s st : st ≠ 0%nat → sforall non_space s = true → at_end st s ≠ 0%nat.
Proof.
  revert st. induction s as [|c s IH]; intros st Hst Hs; [done|]. simpl in *.
  apply andb_true_iff in Hs as [Hc Hs]. apply IH; [|done].
  unfold at_step, non_space in *. apply negb_true_iff in Hc. rewrite Hc.
  destruct st; [done|]. by destruct (Ascii.eqb "@" c).
Qed.

Lemma typed_email_has_at w st : lang TYPED_EMAIL w → has_at st w = true.
Proof.
  unfold TYPED_EMAIL. intros H. inversion H as [| |? ? u v Hu Hv| | | |]; subst.
  inversion Hv as [| |? ? a b Ha Hb| | | |]; subst.
  inversion Ha as [|? at_ Hat| | | | |]; subst. apply Ascii.eqb_eq in Hat as <-.
  apply lang_plus_class in Hu as (c & u' & -> & Hc & Hu').
  apply lang_plus_class in Hb as (d & v' & -> & Hd & Hv').
  rewrite has_at_app. apply orb_true_iff. right.
  rewrite app_cons, app_nil_s. simpl. unfold non_space in Hc, Hd. apply negb_true_iff in Hc.
  assert (at_end (at_step st c) u' ≠ 0%nat) as Hne.
  { apply at_end_nonzero; [|done]. unfold at_step. rewrite Hc.
    destruct st; [done|]. by destruct (Ascii.eqb "@" c). }
  unfold at_fails at 2. unfold at_step at 2. simpl.
  destruct (at_end (at_step st c) u'); [done|]. simpl. unfold non_space.
  rewrite Hd. by rewrite orb_true_r.
Qed.

Lemma no_at_findall_go fuel s : ∀ pos, has_at 0 s = false → finditer_go fuel TYPED_EMAIL pos s = [].
Proof.
  revert s. induction fuel as [|fuel IH]; intros [|c s] pos Hs; try done. simpl.
  assert (match_at TYPED_EMAIL (String c s) = None) as ->.
  { apply match_at_none. intros pre rest Heq Hl. rewrite Heq, has_at_app in Hs.
    apply orb_false_iff in Hs as [Hs _]. by rewrite (typed_email_has_at _ _ Hl) in Hs. }
  apply IH. cbn [has_at] in Hs. apply orb_false_iff in Hs as [_ Hs].
  eapply has_at_mono; [|done]. destruct (at_step_mono 0 2 c); lia.
Qed.

Lemma no_at_findall s : has_at 0 s = false → findall TYPED_EMAIL s = [].
Proof. intros H. unfold findall, finditer. by rewrite no_at_findall_go. Qed.

(** ** The substitutions *)

(** No way to complete [x@y] at the start of [s] from the state. *)
Definition calm (st : nat) (s : string) : Prop :=
  match st, s with
  | 0%nat, _ => True
  | 1%nat, String a (String y _) => Ascii.eqb "@" a = true → is_space y = true
  | 1%nat, _ => True
  | _, String y _ => is_space y = true
  | _, "" => True
  end.

Lemma match_typed c y s : is_space c = false → is_space y = false →
  match_at TYPED_EMAIL (String c (String "@" (String y s))) ≠ None.
Proof.
  intros Hc Hy H. rewrite match_at_none in H. apply (H (String c (String "@" (String y ""))) s); [done|].
  unfold TYPED_EMAIL.
  change (String c (String "@" (String y ""))) with (String c "" +:+ (String "@" "" +:+ String y "")).
  constructor; [apply lang_plus_class_intro; [|done]; by apply negb_true_iff|].
  constructor; [by constructor|].
  apply lang_plus_class_intro; [|done]. by apply negb_true_iff.
Qed.

Lemma calm_step st c s :
  (st ≤ 2)%nat → calm st (String c s) → match_at TYPED_EMAIL (String c s) = None →
  at_fails st c = false ∧ calm (at_step st c) s.
Proof.
  intros Hst Hc Hm. unfold at_fails, at_step, non_space.
  destruct (is_space c) eqn:Hsp; [by rewrite andb_false_r|].
  assert (calm 1 s) as H1.
  { destruct s as [|a [|y s]]; try done. cbn [calm]. intros <-%Ascii.eqb_eq.
    destruct (is_space y) eqn:Hy; [done|]. by apply match_typed in Hm. }
  destruct st as [|[|[|]]]; [done| |by simpl in Hc; congruence|lia].
  split; [done|]. destruct (Ascii.eqb "@" c) eqn:Ha; [|done].
  destruct s as [|y s]; [done|]. by apply Hc.
Qed.

(** What follows a typed address is white space or the end. *)
Lemma typed_rest s rest : match_at TYPED_EMAIL s = Some rest →
  rest = "" ∨ ∃ c r, rest = String c r ∧ is_space c = true.
Proof.
  unfold match_at, TYPED_EMAIL. cbn [rmatch]. intros H.
  assert (∃ t, match_at (RPlus (RChar non_space)) t = Some rest) as [t Ht].
  { change (rmatch (RPlus (RChar non_space)) s
      (λ s', rmatch (RCat (RChar (Ascii.eqb "@")) (RPlus (RChar non_space))) s' Some) = Some rest) in H.
    apply rmatch_sound in H as (pre & r1 & _ & _ & H). cbn [rmatch] in H.
    destruct r1 as [|a r1]; [done|]. destruct (Ascii.eqb "@" a); [|done]. by exists r1. }
  apply plus_char_some in Ht as [-> _].
  clear. induction t as [|c t IH]; simpl; [by left|].
  destruct (non_space c) eqn:Hc; [done|]. right. exists c, t. split; [done|].
  by apply negb_false_iff in Hc.
Qed.

Lemma has_at_email_mark st s : (st ≤ 1)%nat →
  has_at st ("[email]" +:+ s) = has_at 1 s.
Proof. intros H. destruct st as [|[|]]; [done|done|lia]. Qed.

Lemma typed_sub_clean fuel s : ∀ st, (String.length s ≤ fuel)%nat → (st ≤ 2)%nat → calm st s →
  has_at st (sub_go fuel TYPED_EMAIL "[email]" s) = false.
Proof.
  revert s. induction fuel as [|fuel IH]; intros [|c s] st Hlen Hst Hc; try (simpl in Hlen; lia); [done..|].
  cbn [sub_go]. destruct (match_at TYPED_EMAIL (String c s)) as [rest|] eqn:Hm.
  - apply typed_rest in Hm as Hrest.
    apply match_at_sound in Hm as (pre & Heq & Hl).
    assert (∃ d p, pre = String d p ∧ is_space d = false) as (d & p & -> & Hd).
    { unfold TYPED_EMAIL in Hl. inversion Hl as [| |? ? u v Hu Hv| | | |]; subst.
      apply lang_plus_class in Hu as (d & u' & -> & Hd & _). exists d, (u' +:+ v).
      split; [done|]. by apply negb_true_iff in Hd. }
    rewrite app_cons in Heq. injection Heq as -> Heq.
    assert (String.length s = String.length p + String.length rest)%nat as Hls
      by (by rewrite Heq, length_app_s).
    simpl in Hlen. rewrite (proj2 (Nat.ltb_lt _ _)) by (simpl; lia).
    rewrite has_at_email_mark by (destruct st as [|[|[|]]]; [lia|lia| |lia]; simpl in Hc; congruence).
    apply IH; [lia|lia|]. destruct Hrest as [->|(a & r & -> & Ha)]; [done|].
    destruct r; [done|]. cbn [calm]. intros <-%Ascii.eqb_eq. done.
  - destruct (calm_step st c s Hst Hc Hm) as [Hf Hc']. cbn [has_at]. rewrite Hf. simpl.
    simpl in Hlen. apply IH; [lia| |done]. destruct (at_step_mono st 2 c); lia.
Qed.

(** *** Words of the spoken form begin and end with no white space *)
Definition starts_solid (w : string) : Prop := ∃ c p, w = String c p ∧ is_space c = false.
Definition ends_solid (w : string) : Prop := ∀ st, (st ≤ 2)%nat → at_end st w ≠ 0%nat.

Lemma at_end_app st a b : at_end st (a +:+ b) = at_end (at_end st a) b.
Proof. revert st. induction a as [|c a IH]; intros st; [done|]. rewrite app_cons. simpl. apply IH. Qed.

Lemma ends_solid_app a b : ends_solid b → ends_solid (a +:+ b).
Proof. intros H st Hst. rewrite at_end_app. apply H. by apply at_end_le. Qed.

Lemma solid_class f w : (∀ c, f c = true → is_space c = false) → lang (RPlus (RChar f)) w →
  starts_solid w ∧ ends_solid w.
Proof.
  intros Hf (c & s & -> & Hc & Hs)%lang_plus_class. split; [exists c, s; auto|].
  intros st _. simpl. apply at_end_nonzero.
  - unfold at_step. rewrite Hf by done. destruct st; [done|]. by destruct (Ascii.eqb "@" c).
  - clear Hc. induction s as [|d s IH]; [done|]. simpl in *. apply andb_true_iff in Hs as [Hd Hs].
    rewrite IH by done. unfold non_space. by rewrite Hf.
Qed.

Lemma domain_char_solid c : is_domain_char c = true → is_space c = false.
Proof.
  intros H. apply negb_true_iff.
  pose proof (all_ascii_spec (λ c, negb (is_domain_char c) || negb (is_space c)) eq_refl c) as Hall.
  cbn beta in Hall. by rewrite H in Hall.
Qed.

Lemma local_char_solid c : is_local_char c = true → is_space c = false.
Proof.
  intros H. apply negb_true_iff.
  pose proof (all_ascii_spec (λ c, negb (is_local_char c) || negb (is_space c)) eq_refl c) as Hall.
  cbn beta in Hall. by rewrite H in Hall.
Qed.

Lemma ends_solid_star a w : (∀ v, lang a v → ends_solid v) → lang (RStar a) w →
  w = "" ∨ ends_solid w.
Proof.
  intros Ha H. remember (RStar a) as r eqn:Hr. revert Hr.
  induction H as [| | | | | |b s t Hs _ Ht IH]; intros Hr; simplify_eq; [by left|].
  right. destruct (IH eq_refl) as [->|He]; [rewrite app_empty_r; auto|by apply ends_solid_app].
Qed.

Lemma starts_solid_upto n a w v : (∀ u, lang a u → starts_solid u) → lang (RUpTo n a) w →
  starts_solid v → starts_solid (w +:+ v).
Proof.
  intros Ha Hw Hv. destruct n as [|n]; simpl in Hw; inversion Hw as [| | | |? s Hs| |]; subst; [done..|].
  inversion Hs as [| |? ? p q Hp Hq| | | |]; subst. apply Ha in Hp as (c & p' & -> & Hc).
  exists c, (p' +:+ (q +:+ v)). split; [by rewrite app_assoc_s, app_cons|done].
Qed.

Lemma starts_solid_app a b : starts_solid a → starts_solid (a +:+ b).
Proof. intros (c & p & -> & Hc). exists c, (p +:+ b). by rewrite app_cons. Qed.

Lemma spoken_email_solid w : lang SPOKEN_EMAIL w → starts_solid w ∧ ends_solid w.
Proof.
  unfold SPOKEN_EMAIL. intros H.
  inversion H as [| |? ? u v Hu Hv| | | |]; subst. clear H.
  inversion Hv as [| |? ? l v1 Hl Hv1| | | |]; subst.
  inversion Hv1 as [| |? ? at_ v2 Hat Hv2| | | |]; subst.
  inversion Hv2 as [| |? ? d v3 Hd Hv3| | | |]; subst.
  assert (ends_solid v3) as He.
  { assert (∀ x, lang (RCat (spaced "dot") domain_label) x → ends_solid x) as Hdot.
    { intros x Hx. inversion Hx as [| |? ? y z Hy Hz| | | |]; subst.
      apply ends_solid_app. by eapply solid_class, Hz; apply domain_char_solid. }
    inversion Hv3 as [| |? ? y z Hy Hz| | | |]; subst.
    destruct (ends_solid_star _ _ Hdot Hz) as [->|Hez]; [rewrite app_empty_r; auto|].
    by apply ends_solid_app. }
  split; [|by repeat apply ends_solid_app].
  apply (starts_solid_upto 3 (RCat local_part spaces)); [|exact Hu|].
  - intros x Hx. inversion Hx as [| |? ? y z Hy Hz| | | |]; subst. apply starts_solid_app.
    by eapply solid_class, Hy; apply local_char_solid.
  - apply starts_solid_app. by eapply solid_class, Hl; apply local_char_solid.
Qed.

Lemma spoken_sub_clean fuel s : ∀ st, (st ≤ 2)%nat → has_at st s = false →
  has_at st (sub_go fuel SPOKEN_EMAIL "[email]" s) = false.
Proof.
  revert s. induction fuel as [|fuel IH]; intros [|c s] st Hst Hs; [done..|]. cbn [sub_go].
  assert (has_at st (String c (sub_go fuel SPOKEN_EMAIL "[email]" s)) = false) as Hlit.
  { cbn [has_at] in *. apply orb_false_iff in Hs as [Hf Hs]. rewrite Hf. simpl.
    apply IH; [|done]. destruct (at_step_mono st 2 c); lia. }
  destruct (match_at SPOKEN_EMAIL (String c s)) as [rest|] eqn:Hm; [|done].
  destruct (_ <? _)%nat; [|done].
  apply match_at_sound in Hm as (pre & Heq & [(d & p & -> & Hd) He]%spoken_email_solid).
  rewrite Heq, has_at_app in Hs. apply orb_false_iff in Hs as [Hpre Hs].
  assert (st ≤ 1)%nat as Hst1.
  { cbn [has_at] in Hpre. apply orb_false_iff in Hpre as [Hf _].
    unfold at_fails, non_space in Hf. rewrite Hd, andb_true_r in Hf. apply Nat.eqb_neq in Hf. lia. }
  rewrite has_at_email_mark by done. apply IH; [lia|].
  eapply has_at_mono; [|exact Hs]. specialize (He st Hst).
  pose proof (at_end_le (String d p) st Hst). lia.
Qed.

(** ** Tokens *)
Lemma split_go_part cur s t : t ∈ split_go cur s → ∃ a b, srev cur +:+ s = a +:+ (t +:+ b).
Proof.
  revert cur. induction s as [|c s IH]; intros cur; simpl.
  - destruct (String.eqb cur ""); [set_solver|]. intros ->%list_elem_of_singleton.
    exists "", "". by rewrite app_nil_s.
  - destruct (is_space c) eqn:Hc.
    + assert (t ∈ split_go "" s → ∃ a b, srev cur +:+ String c s = a +:+ (t +:+ b)) as Hrec.
      { intros (a & b & Heq)%IH. exists (srev cur +:+ String c a), b. rewrite app_assoc_s, app_cons.
        f_equal. f_equal. exact Heq. }
      destruct (String.eqb cur ""); [done|].
      intros [->|Ht]%elem_of_cons; [|by apply Hrec].
      exists "", (String c s). done.
    + intros (a & b & Heq)%IH. exists a, b. rewrite <-Heq, srev_cons, app_assoc_s. done.
Qed.

(** A token is part of the text, so it has no [x@y] that the text does not have. *)
Lemma split_has_at s t : has_at 0 s = false → t ∈ split s → has_at 0 t = false.
Proof.
  intros Hs (a & b & Heq)%split_go_part. rewrite app_nil_s in Heq. subst s. by apply has_at_part in Hs.
Qed.

Lemma join_has_at l : Forall (λ t, has_at 0 t = false) l → has_at 0 (join " " l) = false.
Proof.
  induction 1 as [|t l Ht Hl IH]; [done|]. destruct l as [|u l]; [done|].
  rewrite join_cons2, !has_at_app, Ht.
  replace (has_at (at_end 0 t) " ") with false; [|simpl; unfold at_fails; simpl; by rewrite !andb_false_r].
  simpl. replace (at_step (at_end 0 t) " ") with 0%nat; [done|]. done.
Qed.

(** ** Runs of digit-bearing tokens *)
Fixpoint carry (acc : nat) (l : list string) : nat :=
  match l with
  | [] => acc
  | t :: l' => carry (if (token_weight t =? 0)%nat then 0 else acc + token_weight t) l'
  end.
Fixpoint light (acc : nat) (l : list string) : bool :=
  (acc <? MIN_PHONE_DIGITS)%nat &&
  match l with
  | [] => true
  | t :: l' => light (if (token_weight t =? 0)%nat then 0 else acc + token_weight t) l'
  end.
Fixpoint weight (l : list string) : nat :=
  match l with [] => 0 | t :: l' => token_weight t + weight l' end.

Lemma weight_app a b : weight (a ++ b) = (weight a + weight b)%nat.
Proof. induction a as [|t a IH]; simpl; [done|]. rewrite IH. lia. Qed.

Lemma carry_app acc a b : carry acc (a ++ b) = carry (carry acc a) b.
Proof. revert acc. induction a as [|t a IH]; intros acc; simpl; auto. Qed.

Lemma light_app acc a b : light acc (a ++ b) = light acc a && light (carry acc a) b.
Proof.
  revert acc. induction a as [|t a IH]; intros acc; simpl.
  - rewrite andb_true_r. destruct b as [|u b]; simpl; [by rewrite !andb_true_r, andb_diag|].
    by rewrite andb_assoc, andb_diag.
  - by rewrite IH, andb_assoc.
Qed.

Lemma carry_run acc l : Forall (λ t, token_weight t ≠ 0%nat) l → carry acc l = (acc + weight l)%nat.
Proof.
  intros H. revert acc. induction H as [|t l Ht _ IH]; intros acc; simpl; [lia|].
  rewrite IH, (proj2 (Nat.eqb_neq _ _)) by done. lia.
Qed.

Lemma light_carry acc l : light acc l = true → (carry acc l < MIN_PHONE_DIGITS)%nat.
Proof.
  revert acc. induction l as [|t l IH]; intros acc; simpl; intros [H Hl]%andb_true_iff; [|by apply IH].
  by apply Nat.ltb_lt.
Qed.

Lemma light_run l : Forall (λ t, token_weight t ≠ 0%nat) l → (weight l < MIN_PHONE_DIGITS)%nat →
  light 0 l = true.
Proof.
  intros H. change (weight l) with (0 + weight l)%nat. generalize 0%nat as acc.
  induction H as [|t l Ht _ IH]; intros acc Hw; simpl in *.
  - rewrite andb_true_r. apply Nat.ltb_lt. lia.
  - rewrite (proj2 (Nat.ltb_lt _ _)), (proj2 (Nat.eqb_neq _ _)), IH by (try done; lia). done.
Qed.

(** In a light token list every run of digit-bearing tokens is shorter than a phone number. *)
Lemma light_spec l pre run post : light 0 l = true → l = pre ++ run ++ post →
  Forall (λ t, token_weight t ≠ 0%nat) run → (weight run < MIN_PHONE_DIGITS)%nat.
Proof.
  intros Hl -> Hr. rewrite !light_app in Hl.
  apply andb_true_iff in Hl as [_ [Hl _]%andb_true_iff].
  apply light_carry in Hl. rewrite carry_run in Hl by done. lia.
Qed.

Definition clean_token (t : string) : Prop := token_ok t ∧ has_at 0 t = false.

Record redact_inv (st : redact_state) : Prop := {
  ri_out : Forall clean_token (rs_out st);
  ri_run : Forall clean_token (rs_run st);
  ri_light : light 0 (rs_out st) = true;
  ri_end : carry 0 (rs_out st) = 0%nat;
  ri_weights : Forall (λ t, token_weight t ≠ 0%nat) (rs_run st);
  ri_digits : rs_digits st = weight (rs_run st) }.

Lemma flush_clean st : redact_inv st →
  Forall clean_token (rs_out (redact_flush st)) ∧ light 0 (rs_out (redact_flush st)) = true.
Proof.
  intros [Ho Hr Hl He Hw Hd]. unfold redact_flush. cbn [rs_out].
  destruct (Nat.leb_spec MIN_PHONE_DIGITS (rs_digits st)) as [Hm|Hm].
  - split.
    + apply Forall_app. split; [done|]. constructor; [|constructor]. by split; [split|].
    + rewrite light_app, Hl, He. done.
  - split; [by apply Forall_app|]. rewrite light_app, Hl, He. apply light_run; [done|lia].
Qed.

Lemma redact_token_inv st t : clean_token t → redact_inv st → redact_inv (redact_token st t).
Proof.
  intros Ht Hst. unfold redact_token.
  destruct (Nat.eqb_spec (token_weight t) 0) as [Hz|Hz].
  - destruct (flush_clean st Hst) as [Hc Hl]. split; cbn [rs_out rs_run rs_digits redact_flush];
      try done; [by apply Forall_app; split; [|constructor]| |].
    + rewrite light_app. cbn [redact_flush rs_out] in Hl. rewrite Hl. simpl.
      rewrite (proj2 (Nat.eqb_eq _ _) Hz).
      apply light_carry in Hl. rewrite (proj2 (Nat.ltb_lt _ _)) by done. done.
    + rewrite carry_app. simpl. by rewrite (proj2 (Nat.eqb_eq _ _) Hz).
  - destruct Hst as [Ho Hr Hl He Hw Hd]. split; cbn [rs_out rs_run rs_digits]; try done.
    + apply Forall_app. split; [done|]. by constructor.
    + apply Forall_app. split; [done|]. by constructor.
    + rewrite Hd, weight_app. simpl. lia.
Qed.

Lemma redact_tokens_inv l st : Forall clean_token l → redact_inv st →
  redact_inv (foldl redact_token st l).
Proof.
  intros Hl. revert st. induction Hl as [|t l Ht _ IH]; intros st Hst; simpl; [done|].
  by apply IH, redact_token_inv.
Qed.

Definition redacted_tokens (text : string) : list string :=
  let redacted := sub SPOKEN_EMAIL "[email]" (sub TYPED_EMAIL "[email]" text) in
  rs_out (redact_flush (foldl redact_token (mkRedact [] [] 0) (split redacted))).

Lemma redacted_tokens_ok text :
  Forall clean_token (redacted_tokens text) ∧ light 0 (redacted_tokens text) = true.
Proof.
  unfold redacted_tokens. apply flush_clean, redact_tokens_inv; [|by split].
  set (redacted := sub _ _ _).
  assert (has_at 0 redacted = false) as Hc.
  { unfold redacted, sub. apply spoken_sub_clean; [lia|]. apply typed_sub_clean; [lia|lia|done]. }
  pose proof (split_tokens redacted) as Ht. rewrite Forall_forall in *.
  intros t Hin. split; [by apply Ht|]. by eapply split_has_at.
Qed.

(** Redaction leaves no contact at rest: the redacted text holds no typed e-mail address, and
    no run of consecutive digit-bearing tokens (digits or spoken digit words) adds up to the
    seven digits of a phone number. *)
Theorem redact_contact_clean text :
  findall TYPED_EMAIL (redact_contact text) = [] ∧
  ∀ pre run post, split (redact_contact text) = pre ++ run ++ post →
    Forall (λ t, token_weight t ≠ 0%nat) run → (weight run < MIN_PHONE_DIGITS)%nat.
Proof.
  destruct (redacted_tokens_ok text) as [Hc Hl].
  change (redact_contact text) with (join " " (redacted_tokens text)). split.
  - apply no_at_findall, join_has_at. eapply Forall_impl; [exact Hc|]. by intros t [_ ?].
  - intros pre run post Heq. rewrite split_join in Heq.
    + by apply (light_spec (redacted_tokens text) pre run post).
    + eapply Forall_impl; [exact Hc|]. by intros t [? _].
Qed.

Lemma redact_contact_clean_witness :
  let text := "mail kc@ex.com or 555 oh one two 34 5 ok" in
  redact_contact text = "mail [email] or [phone] ok" ∧
  findall TYPED_EMAIL (redact_contact text) = [] ∧
  split (redact_contact text) = ["mail"; "[email]"; "or"; "[phone]"; "ok"] ∧
  (weight [] < MIN_PHONE_DIGITS)%nat.
Proof.
  set (text := "mail kc@ex.com or 555 oh one two 34 5 ok").
  destruct (redact_contact_clean text) as [Hf Hw].
  split_and!; [by vm_compute|exact Hf|by vm_compute|].
  eapply (Hw [] [] ["mail"; "[email]"; "or"; "[phone]"; "ok"]); [by vm_compute|constructor].
Defined.

(** ** Order references *)
Lemma order_fused_digits v d : order_fused v = Some d → isdecimal d = true.
Proof. unfold order_fused. intros. repeat case_match; by simplify_eq. Qed.

Lemma sforall_sconcat f l : Forall (λ t, sforall f t = true) l → sforall f (sconcat l) = true.
Proof.
  unfold sconcat. induction 1 as [|t l Ht Hl IH]; [done|]. destruct l as [|u l]; [done|].
  rewrite join_cons2, app_nil_s, sforall_app, Ht. exact IH.
Qed.

Lemma sfilter_all f s : sforall f (sfilter f s) = true.
Proof. induction s as [|c s IH]; simpl; [done|]. destruct (f c) eqn:E; simpl; by rewrite ?E. Qed.

Lemma digit_words_digits w d : dget w DIGIT_WORDS = Some d → isdecimal d = true.
Proof.
  intros H%dget_Some_elem.
  assert (forallb (λ wd, isdecimal wd.2) DIGIT_WORDS = true) as Hall by reflexivity.
  rewrite forallb_forall in Hall. by apply (Hall (w, d)), list_elem_of_In.
Qed.

Lemma token_digits_digits t : sforall is_digit (token_digits t) = true.
Proof.
  unfold token_digits. destruct (dget t DIGIT_WORDS) as [d|] eqn:E; [|apply sfilter_all].
  apply digit_words_digits in E. unfold isdecimal in E. by bools.
Qed.

(** Whatever is spoken, the digits are digits. *)
Lemma spoken_digits_digits text : sforall is_digit (spoken_digits text) = true.
Proof. apply sforall_sconcat, Forall_fmap, Forall_true. intros t. apply token_digits_digits. Qed.

Lemma skip_while_le tokens fuel l cursor : (cursor ≤ skip_while tokens fuel l cursor)%nat.
Proof.
  revert cursor. induction fuel as [|fuel IH]; intros cursor; simpl; [lia|].
  destruct (tok_in tokens l cursor); [|lia]. specialize (IH (S cursor)). lia.
Qed.

Lemma skip_progress tokens l cursor t : tok tokens cursor = Some t → t ∈ l →
  (cursor < skip tokens l cursor)%nat.
Proof.
  intros Ht Hl. unfold skip.
  assert (cursor < length tokens)%nat as Hlen.
  { unfold tok in Ht. destruct (tokens !! cursor) as [x|] eqn:E; [|done].
    by eapply lookup_lt_Some. }
  replace (length tokens - cursor)%nat with (S (length tokens - cursor - 1)) by lia. simpl.
  unfold tok_in. rewrite Ht, bool_decide_eq_true_2 by done.
  pose proof (skip_while_le tokens (length tokens - cursor - 1) l (S cursor)). lia.
Qed.

Lemma dmem_dkeys {V} (d : list (string * V)) k : dmem k d = true → k ∈ dkeys d.
Proof.
  unfold dmem. destruct (dget k d) eqn:E; [|done]. intros _.
  destruct (decide (k ∈ dkeys d)) as [|Hn]; [done|]. apply dget_None in Hn. congruence.
Qed.

Lemma payload_progress tokens cursor digits cursor' :
  payload_at tokens cursor = Some (digits, cursor') →
  (cursor < cursor')%nat ∧ isdecimal digits = true.
Proof.
  unfold payload_at. destruct (tok tokens cursor) as [payload|] eqn:Ht; [|done].
  destruct (isdecimal payload) eqn:Hd; [intros; simplify_eq; by split; [lia|]|].
  destruct (dmem payload DIGIT_WORDS) eqn:Hm.
  - intros [= <- <-]. assert (cursor < skip tokens (dkeys DIGIT_WORDS) cursor)%nat as Hp
      by (eapply skip_progress; [exact Ht|by apply dmem_dkeys]).
    split; [done|]. unfold isdecimal. apply andb_true_iff. split.
    + apply nonempty_spec. intros Heq.
      unfold tok in Ht. destruct (tokens !! cursor) as [x|] eqn:E; [|done]. injection Ht as Hx.
      rewrite (drop_S _ _ _ E) in Heq.
      change (skip tokens _ cursor) with (skip tokens (dkeys DIGIT_WORDS) cursor) in Heq.
      destruct (skip tokens (dkeys DIGIT_WORDS) cursor - cursor)%nat as [|n] eqn:En; [lia|].
      cbn [take fmap list_fmap] in Heq. unfold sconcat in Heq.
      assert (token_digits (sp_text x) ≠ "") as Hne.
      { unfold token_digits, dmem in *. rewrite Hx. destruct (dget payload DIGIT_WORDS) as [d|] eqn:Ed; [|done].
        apply digit_words_digits in Ed. by intros ->. }
      match type of Heq with context [_ :: ?rest] => destruct rest as [|u l] end; [done|].
      rewrite join_cons2 in Heq.
      by destruct (token_digits (sp_text x)).
    + apply sforall_sconcat, Forall_fmap, Forall_true. intros t. apply token_digits_digits.
  - destruct (order_fused payload) as [d|] eqn:Ho; [|done]. intros [= <- <-].
    split; [lia|by eapply order_fused_digits].
Qed.

(** A span ends after it starts and carries a reference with digits. *)
Lemma order_reference_progress tokens index sp :
  order_reference_at tokens index = Some sp →
  (index < os_token_end sp)%nat ∧ ∃ d, isdecimal d = true ∧ os_reference sp = "ORD-" +:+ d.
Proof.
  unfold order_reference_at. destruct (tok tokens index) as [value|]; [|done].
  destruct (order_fused value) as [d|] eqn:Hf.
  { intros [= <-]. cbn. split; [lia|]. exists d. split; [by eapply order_fused_digits|done]. }
  destruct (label_end tokens index) as [[cursor collapsed]|] eqn:Hl; [|done].
  assert (index < cursor)%nat as Hlt.
  { unfold label_end in Hl. repeat case_match; simplify_eq; lia. }
  destruct (payload_at _ _) as [[digits cursor']|] eqn:Hp; [|done]. intros [= <-]. cbn.
  apply payload_progress in Hp as [Hp Hd]. split; [|eauto].
  pose proof (skip_while_le tokens (length tokens - cursor) ORDER_VALUE_FILLERS cursor) as Hs.
  unfold skip in Hp. destruct (tok_in tokens ["dash"] _); lia.
Qed.

Definition well_formed_ref (r : string) : Prop := ∃ d, isdecimal d = true ∧ r = "ORD-" +:+ d.

Lemma scan_orders_refs tokens fuel index spans spans' :
  scan_orders tokens fuel index spans = Some spans' →
  Forall (λ sp, well_formed_ref (os_reference sp)) spans →
  Forall (λ sp, well_formed_ref (os_reference sp)) spans'.
Proof.
  revert index spans. induction fuel as [|fuel IH]; intros index spans; simpl; [by intros [= <-]|].
  destruct (_ <? _)%nat; [|by intros [= <-]].
  destruct (order_reference_at tokens index) as [sp|] eqn:E; [|apply IH].
  destruct (_ && _); [done|]. intros Hs H. eapply IH; [done|]. apply Forall_app. split; [done|].
  constructor; [|constructor]. by apply order_reference_progress in E as [_ ?].
Qed.

(** The fuel of the scan is enough: with more of it the scan returns the same. *)
Lemma scan_orders_fuel tokens fuel index spans :
  (length tokens ≤ index + fuel)%nat → ∀ more,
  scan_orders tokens (fuel + more) index spans = scan_orders tokens fuel index spans.
Proof.
  revert index spans. induction fuel as [|fuel IH]; intros index spans Hf more.
  - destruct more; simpl; [done|]. rewrite (proj2 (Nat.ltb_ge _ _)) by lia. done.
  - simpl. destruct (_ <? _)%nat; [|done].
    destruct (order_reference_at tokens index) as [sp|] eqn:E; [|apply IH; lia].
    destruct (_ && _); [done|]. apply IH. apply order_reference_progress in E as [? _]. lia.
Qed.

(** The spoken order-set parser is fail-closed and well formed: the references it returns are
    distinct and each is "ORD-" with at least one digit; an utterance with a negation or
    contrast word outside the references yields none.  Its scan always runs to the end. *)
Theorem caller_stated_order_ids_ok utterance :
  let normalized := replace_dont (lower utterance) in
  let tokens := finditer tokens_re normalized in
  NoDup (caller_stated_order_ids utterance) ∧
  Forall well_formed_ref (caller_stated_order_ids utterance) ∧
  (∀ more, scan_orders tokens (length tokens + more) 0 [] = scan_orders tokens (length tokens) 0 []) ∧
  (∀ spans it, scan_orders tokens (length tokens) 0 [] = Some spans →
     it ∈ enumerate_from 0 tokens → consumed spans it.1 = false →
     sp_text it.2 ∈ ORDER_SET_BLOCKERS → caller_stated_order_ids utterance = []).
Proof.
  intros normalized tokens. split_and!.
  - unfold caller_stated_order_ids. repeat case_match; (apply fromkeys_NoDup || constructor).
  - unfold caller_stated_order_ids. fold normalized tokens.
    destruct (scan_orders _ _ _ _) as [spans|] eqn:E; [|constructor].
    assert (Forall well_formed_ref (fromkeys (os_reference <$> spans))) as Hall.
    { apply scan_orders_refs in E; [|constructor]. rewrite Forall_forall in E. apply Forall_forall.
      intros r Hr. rewrite elem_of_fromkeys in Hr. apply list_elem_of_fmap in Hr as (sp & -> & Hsp). by apply E. }
    repeat case_match; try done; constructor.
  - intros more. apply scan_orders_fuel. lia.
  - intros spans it Hs Hin Hc Hb. unfold caller_stated_order_ids. fold normalized tokens. rewrite Hs.
    destruct (last spans); [|done].
    replace (existsb _ _) with true; [done|]. symmetry. apply existsb_exists. exists it.
    split; [by apply list_elem_of_In|]. rewrite Hc. simpl. by apply bool_decide_eq_true_2.
Qed.

Lemma caller_stated_order_ids_ok_witness :
  caller_stated_order_ids "cancel ord 9001, order number one two and O R D 77" =
    ["ORD-9001"; "ORD-12"; "ORD-77"] ∧
  caller_stated_order_ids "don't cancel ord 9001" = [].
Proof.
  split; [by vm_compute|].
  destruct (caller_stated_order_ids_ok "don't cancel ord 9001") as (_ & _ & _ & H).
  eapply (H _ (0%nat, mkSpan 0 4 "dont")); [by vm_compute| | |]; try by vm_compute.
  - apply (bool_decide_unpack _). by vm_compute.
  - apply (bool_decide_unpack _). by vm_compute.
Defined.
