(* ===== verification/Identity.v ===== *)
(** * Caller identity and order authorization (commerce/identity.py)

    The customer directory, contact claims, the per-session identity store and
    the predicates that gate reading an order, its total, and acting on it.
    The predicates are stated over the interface [OrderReads], the part of
    [OrderPort] they use, which [OrderStore] implements. *)

From S2P Require Import Prelude PyText Money Receipts Cart Orders OrderScope OrderStore Regex Spoken.
From stdpp Require Import gmap.
Local Open Scope Z_scope.
Local Open Scope list_scope.

(** ** Contact claims *)
Definition digits (value : string) : string := sfilter is_digit value.

(** [s[-10:]] of a longer text. *)
Definition last_chars (n : nat) (s : string) : string :=
  String.substring (String.length s - n) n s.

Definition match_key (contact : string) : string :=
  if py_in "@" contact then sconcat (PyText.split (lower contact))
  else
    let ds := digits contact in
    if (10 <=? String.length ds)%nat then last_chars 10 ds else ds.

Inductive disposition := claim_none | claim_single | claim_multiple.

Record ContactClaimSelection := mkSelection {
  sel_disposition : disposition; sel_claim : option string }.

(** The key a candidate is collapsed by. *)
Definition candidate_key (c : ContactCandidate) : ContactKind * string :=
  (cc_kind c, match_key (cc_claim c)).

(** The loop of [classify_contact_claims]; [None] is the early return. *)
Fixpoint classify_go (by_key : list ((ContactKind * string) * string)) (cs : list ContactCandidate)
    : option (list ((ContactKind * string) * string)) :=
  match cs with
  | [] => Some by_key
  | candidate :: cs' =>
      let key := candidate_key candidate in
      let by_key :=
        if nonempty key.2
        then (if dmem key by_key then by_key else dset key (cc_claim candidate) by_key)
        else by_key in
      if (1 <? length by_key)%nat then None else classify_go by_key cs'
  end.

Definition classify_contact_claims (utterance : string) : ContactClaimSelection :=
  match classify_go [] (scan_contact_candidates utterance) with
  | None => mkSelection claim_multiple None
  | Some [] => mkSelection claim_none None
  | Some (kc :: _) => mkSelection claim_single (Some kc.2)
  end.

(** ** The customer directory *)
Record CustomerEntry := mkCustomerEntry {
  ce_contact : string; ce_masked_contact : string; ce_factor_ref : string }.

Definition CustomerEntry_valid (e : CustomerEntry) : bool :=
  nonempty (ce_contact e) && nonempty (ce_masked_contact e)
  && nonempty (ce_factor_ref e) && String.eqb (strip (ce_factor_ref e)) (ce_factor_ref e).

(** [CustomersFixture._directory_values_unique] over the remaining customers;
    the dictionaries are from contact key and factor to customer reference. *)
Fixpoint directory_go (contacts factors : list (string * string))
    (customers : list (string * CustomerEntry)) : res (list (string * string)) :=
  match customers with
  | [] => inr factors
  | (ref, entry) :: rest =>
      let key := match_key (ce_contact entry) in
      requires (negb (dmem key contacts)) ValueError "customers share a contact" ;;
      requires (negb (dmem (ce_factor_ref entry) factors)) ValueError
        "customers share a verification factor" ;;
      directory_go (dset key ref contacts) (dset (ce_factor_ref entry) ref factors) rest
  end.

Definition directory_values_unique (customers : list (string * CustomerEntry)) : res unit :=
  factors ← directory_go [] [] customers;
  requires (forallb (λ f, negb (dmem f customers)) (dkeys factors)) ValueError
    "verification factor refs must not reuse customer refs".

(** A validated [CustomersFixture]; a dictionary has distinct keys. *)
Definition CustomersFixture_valid (customers : list (string * CustomerEntry)) : bool :=
  bool_decide (NoDup (dkeys customers)) && negb (bool_decide (customers = []))
  && forallb (λ kv, CustomerEntry_valid kv.2) customers
  && is_ok (directory_values_unique customers).

Record BoundIdentity := mkBound { customer_ref : string; masked_contact : string }.

#[export] Instance BoundIdentity_eq_dec : EqDecision BoundIdentity.
Proof. solve_decision. Defined.

Definition make_BoundIdentity (ref masked : string) : res BoundIdentity :=
  validated (nonempty ref && nonempty masked) (mkBound ref masked).

Record CustomerDirectory := mkDirectory {
  cd_tenant_id : string; cd_customers : list (string * CustomerEntry) }.

Definition new_directory (tenant_id : string) (customers : list (string * CustomerEntry))
    : res CustomerDirectory :=
  tenant_id ← Guest.normalize_tenant_id tenant_id "customer directory";
  mret (mkDirectory tenant_id customers).

Definition directory_masked_contact (d : CustomerDirectory) (ref : string) : option string :=
  ce_masked_contact <$> dget ref (cd_customers d).
Definition verification_factor_ref (d : CustomerDirectory) (ref : string) : option string :=
  ce_factor_ref <$> dget ref (cd_customers d).

(** [next(ref, entry for ... if p(entry))] *)
Definition first_customer (p : CustomerEntry → bool) (customers : list (string * CustomerEntry))
    : option (string * CustomerEntry) := List.find (λ kv, p kv.2) customers.

Definition bind_customer (found : option (string * CustomerEntry)) : res (option BoundIdentity) :=
  match found with
  | Some (ref, entry) => b ← make_BoundIdentity ref (ce_masked_contact entry); mret (Some b)
  | None => mret None
  end.

Definition match_contact (d : CustomerDirectory) (claim : string) : res (option BoundIdentity) :=
  let cleaned := strip claim in
  if negb (nonempty cleaned) then mret None
  else
    match spoken_email cleaned with
    | Some email =>
        bind_customer (first_customer
          (λ e, py_in "@" (ce_contact e) && String.eqb (match_key (ce_contact e)) email)
          (cd_customers d))
    | None =>
        let claimed := spoken_digits cleaned in
        if negb (nonempty claimed) then mret None
        else
          let key := match_key claimed in
          bind_customer (first_customer
            (λ e, negb (py_in "@" (ce_contact e)) && String.eqb (match_key (ce_contact e)) key)
            (cd_customers d))
    end.

(** ** The session's identity store *)
Record CallerIdentityStore := mkIdentity {
  bound : option BoundIdentity; granted_orders : gset string }.

Definition new_identity : CallerIdentityStore := mkIdentity None ∅.

Definition bind (identity : BoundIdentity) : M CallerIdentityStore unit :=
  modify (λ s, mkIdentity (Some identity) (granted_orders s)).
Definition current (s : CallerIdentityStore) : option BoundIdentity := bound s.

Definition grant_orders (order_ids : list string) : M CallerIdentityStore unit :=
  let normalized := canon <$> order_ids in
  require (negb (bool_decide (normalized = [])) && forallb nonempty normalized) ValueError
    "order grants require one or more non-blank order ids" ;;
  modify (λ s, mkIdentity (bound s) (granted_orders s ∪ list_to_set normalized)).

Definition order_granted (s : CallerIdentityStore) (order_id : string) : bool :=
  bool_decide (canon order_id ∈ granted_orders s).
Definition has_residual_order_authority (s : CallerIdentityStore) : bool :=
  negb (bool_decide (granted_orders s = ∅)).
Definition clear : M CallerIdentityStore unit := put new_identity.

(** ** The order reads the predicates use *)
Class OrderReads (S : Type) := {
  port_is_guest_order : S → string → Guest.GuestOrderScope → res bool;
  port_order_owner : S → string → option string }.

(** What the store promises about them: both look the reference up in normal form. *)
Class OrderReadsLaws (S : Type) `{OrderReads S} := {
  owner_canon : ∀ (s : S) o o', canon o = canon o' → port_order_owner s o = port_order_owner s o';
  guest_canon : ∀ (s : S) o o' g, canon o = canon o' →
    port_is_guest_order s o g = port_is_guest_order s o' g }.

#[export] Instance OrderStore_reads : OrderReads OrderStore :=
  {| port_is_guest_order := is_guest_order; port_order_owner := order_owner |}.

#[export] Instance OrderStore_reads_laws : OrderReadsLaws OrderStore.
Proof.
  split.
  - intros s o o' H. cbn. unfold order_owner. by rewrite H.
  - intros s o o' g H. cbn. unfold is_guest_order. by rewrite H.
Qed.

Section authorization.
Context {S : Type} `{OrderReads S}.
Implicit Types (store : S) (guest : Guest.GuestOrderScope) (identity : CallerIdentityStore).

(** [owner is not None and owner == bound.customer_ref] *)
Definition owned_by store (order_id : string) (b : BoundIdentity) : bool :=
  match port_order_owner store order_id with
  | Some owner => String.eqb owner (customer_ref b)
  | None => false
  end.

Definition order_read_allowed (order_id : string) store guest identity : res bool :=
  is_guest ← port_is_guest_order store order_id guest;
  if (is_guest : bool) then mret true
  else match current identity with
       | Some b => mret (owned_by store order_id b)
       | None => mret (order_granted identity order_id)
       end.

Definition order_session_or_bound_owner_allowed (order_id : string) store guest identity : res bool :=
  is_guest ← port_is_guest_order store order_id guest;
  if (is_guest : bool) then mret true
  else match current identity with
       | None => mret false
       | Some b => mret (owned_by store order_id b)
       end.

Definition order_mutation_allowed := order_session_or_bound_owner_allowed.
Definition order_total_read_allowed := order_session_or_bound_owner_allowed.

Inductive GrantVerdict := granted | mismatch.

(** [customers.match_contact] as the directory the caller passes in. *)
Definition try_grant_orders_by_contact (claim : string) (order_ids : list string) store
    (customers : CustomerDirectory) : M CallerIdentityStore GrantVerdict :=
  require (negb (bool_decide (order_ids = []))) ValueError
    "contact grants require one or more order ids" ;;
  identity ← get;
  match current identity with
  | Some _ => mret mismatch
  | None =>
      matched ← lift (match_contact customers claim);
      match matched with
      | None => mret mismatch
      | Some b =>
          if existsb (λ o, negb (owned_by store o b)) order_ids then mret mismatch
          else grant_orders order_ids ;; mret granted
      end
  end.
End authorization.
