(* ===== verification/Authorization.v ===== *)
(** * What a caller may do with an order

    The authorization predicates are ordered and keyed by the order's normal
    form, a contact grant is all or nothing, a session can only ever read
    orders it has authority over, the directory names at most one customer per
    claim, and an utterance with two different contacts yields no claim. *)

From S2P Require Import Prelude PyText Money Receipts Cart Orders OrderScope OrderStore OrderLedger.
From S2P Require Import Regex Spoken Identity.
From stdpp Require Import gmap.
Local Open Scope Z_scope.
Local Open Scope list_scope.

(** ** The predicates *)
Section predicates.
Context {S : Type} `{OrderReadsLaws S}.
Implicit Types (store : S) (guest : Guest.GuestOrderScope) (identity : CallerIdentityStore).

Lemma owned_by_canon store o o' b : canon o = canon o' → owned_by store o b = owned_by store o' b.
Proof. intros Hc. unfold owned_by. by rewrite (owner_canon store o o' Hc). Qed.

(** The authorization predicates form a lattice: whoever may act on an order may read it; once
    a customer is bound, earlier contact grants widen nothing; without a bound customer only an
    order placed in this session can be acted on; and spelling variants of one order reference
    get the same answer. *)
Theorem authorization_ordered o store guest identity :
  (order_mutation_allowed o store guest identity = inr true →
   order_read_allowed o store guest identity = inr true) ∧
  (∀ b, bound identity = Some b →
   order_read_allowed o store guest identity = order_mutation_allowed o store guest identity) ∧
  (bound identity = None →
   order_mutation_allowed o store guest identity = port_is_guest_order store o guest) ∧
  order_total_read_allowed o store guest identity = order_mutation_allowed o store guest identity ∧
  (∀ o', canon o = canon o' →
   order_read_allowed o store guest identity = order_read_allowed o' store guest identity ∧
   order_mutation_allowed o store guest identity = order_mutation_allowed o' store guest identity).
Proof.
  unfold order_mutation_allowed, order_total_read_allowed, order_session_or_bound_owner_allowed,
    order_read_allowed, current. munfold_goal.
  split_and!; [| | |done|].
  - destruct (port_is_guest_order store o guest) as [e|[]]; [done..|].
    destruct (bound identity); naive_solver.
  - intros b ->. done.
  - intros ->. by destruct (port_is_guest_order store o guest) as [e|[]].
  - intros o' Hc. rewrite (guest_canon store o o' guest Hc).
    assert (order_granted identity o = order_granted identity o') as -> by
      (unfold order_granted; by rewrite Hc).
    destruct (port_is_guest_order store o' guest) as [e|[]]; [done..|].
    destruct (bound identity) as [b|]; [|done]. by rewrite (owned_by_canon store o o' b Hc).
Qed.

(** ** Grants *)
Lemma grant_orders_cases ids identity identity' r :
  grant_orders ids identity = (identity', r) →
  (∃ e, r = inl e ∧ identity' = identity) ∨
  (r = inr tt ∧ ids ≠ [] ∧ Forall (λ o, canon o ≠ "") ids ∧
   identity' = mkIdentity (bound identity) (granted_orders identity ∪ list_to_set (canon <$> ids))).
Proof.
  unfold grant_orders. munfold_goal.
  destruct (negb _ && _) eqn:E; intros; simplify_eq; [|by eauto]. right. bools.
  split_and!; [done|by intros ->| |done].
  rewrite Forall_forall. intros o Ho. apply nonempty_spec.
  match goal with H : forallb _ _ = true |- _ => rewrite forallb_forall in H; apply H end.
  apply list_elem_of_In. by apply list_elem_of_fmap_2.
Qed.

Lemma try_grant_cases claim ids store customers identity identity' r :
  try_grant_orders_by_contact claim ids store customers identity = (identity', r) →
  (identity' = identity ∧ r ≠ inr granted) ∨
  (r = inr granted ∧ bound identity = None ∧ ids ≠ [] ∧
   identity' = mkIdentity None (granted_orders identity ∪ list_to_set (canon <$> ids)) ∧
   ∃ b, match_contact customers claim = inr (Some b) ∧
     Forall (λ o, port_order_owner store o = Some (customer_ref b)) ids).
Proof.
  unfold try_grant_orders_by_contact, current. munfold_goal.
  destruct (negb _) eqn:En; simpl; [|intros; simplify_eq; by left].
  destruct (bound identity) as [b|] eqn:Hb; simpl; [intros; simplify_eq; by left|].
  destruct (match_contact customers claim) as [e|[b|]] eqn:Hm; simpl; [intros; simplify_eq; by left| |
    intros; simplify_eq; by left].
  destruct (existsb _ ids) eqn:He; simpl; [intros; simplify_eq; by left|].
  destruct (grant_orders ids identity) as [i' [e|[]]] eqn:Hg;
    apply grant_orders_cases in Hg as [(e' & ? & ->)|(? & Hne & _ & ->)]; simplify_eq; intros;
    simplify_eq; [by left|]. right. rewrite Hb. split_and!; try done.
  exists b. split; [done|]. rewrite Forall_forall. intros o Ho.
  apply list_elem_of_In in Ho.
  destruct (owned_by store o b) eqn:Hown.
  - unfold owned_by in Hown. destruct (port_order_owner store o) as [w|]; [|done].
    by apply String.eqb_eq in Hown as ->.
  - exfalso. assert (existsb (λ o, negb (owned_by store o b)) ids = true) as Hx; [|congruence].
    apply existsb_exists. exists o. by rewrite Hown.
Qed.

(** A contact grant is all or nothing: it is given only to a session with no bound customer,
    only when the claim names one customer and that customer owns every order asked for, and then
    exactly those orders are added; in every other case, errors included, the session's
    authority is unchanged. *)
Theorem contact_grant_all_or_nothing claim ids store customers identity identity' r :
  try_grant_orders_by_contact claim ids store customers identity = (identity', r) →
  (r = inr granted →
   bound identity = None ∧
   (∃ b, match_contact customers claim = inr (Some b) ∧
     Forall (λ o, port_order_owner store o = Some (customer_ref b)) ids) ∧
   bound identity' = None ∧
   (∀ o, order_granted identity' o = order_granted identity o ||
      bool_decide (canon o ∈ canon <$> ids))) ∧
  (r ≠ inr granted → identity' = identity).
Proof.
  intros [[-> Hr]|(-> & Hb & _ & -> & Hm)]%try_grant_cases; [done|].
  split; [|done]. intros _. split_and!; [done|done|done|].
  intros o. unfold order_granted. cbn [granted_orders].
  apply eq_true_iff_eq. rewrite orb_true_iff, !bool_decide_eq_true, elem_of_union, elem_of_list_to_set.
  done.
Qed.
End predicates.

(** ** A session *)
Section session.
Context (customers : CustomerDirectory).

(** What happens in a session to its authority or to the store beneath it. *)
Inductive session_event :=
  | EvCall (c : StoreCall)
  | EvBind (b : BoundIdentity)
  | EvClaim (claim : string) (ids : list string)
  | EvClear.

Definition event_step (si : OrderStore * CallerIdentityStore) (e : session_event) : OrderStore * CallerIdentityStore :=
  let '(s, i) := si in
  match e with
  | EvCall c => (run_call c s, i)
  | EvBind b => (s, (bind b i).1)
  | EvClaim claim ids => (s, (try_grant_orders_by_contact claim ids s customers i).1)
  | EvClear => (s, (clear i).1)
  end.

(** The session that starts over [s0] with no authority, after its events. *)
Definition replay (s0 : OrderStore) (es : list session_event) : OrderStore * CallerIdentityStore :=
  fold_left event_step es (s0, new_identity).

Lemma run_call_orders c s : orders (run_call c s) = orders s.
Proof.
  destruct c as [k lines t|k o a d i|k o a d|k o]; simpl.
  - destruct (place_cart k lines t s) as [s' r] eqn:E.
    destruct (place_cases _ _ _ _ _ _ E) as
      [(e & _ & ->)|[(p & c & _ & -> & _)|(c & _ & -> & _)]]; done.
  - destruct (issue_refund k o a d i s) as [s' r] eqn:E.
    destruct (refund_cases _ _ _ _ _ _ _ _ E) as
      [(e & _ & ->)|[(x & c & _ & -> & _)|(c & cap & _ & -> & _)]]; done.
  - destruct (create_return k o a d s) as [s' r] eqn:E.
    destruct (return_cases _ _ _ _ _ _ _ E) as
      [(e & _ & ->)|[(x & c & _ & -> & _)|(c & cap & st & su & _ & -> & _)]]; done.
  - destruct (cancel_order k o s) as [s' r] eqn:E.
    destruct (cancel_cases _ _ _ _ _ E) as
      [(e & _ & ->)|[(x & _ & -> & _)|[(cap & e & _ & _ & -> & _)|(cap & su & _ & _ & ->)]]]; done.
Qed.

Definition is_clear (e : session_event) : bool := match e with EvClear => true | _ => false end.
Definition is_bind (e : session_event) : bool := match e with EvBind _ => true | _ => false end.

(** [b] was bound in the session, and neither another customer nor a reset came after. *)
Definition last_bound (es : list session_event) (b : BoundIdentity) : Prop :=
  ∃ pre post, es = pre ++ EvBind b :: post ∧ Forall (λ e, is_clear e = false ∧ is_bind e = false) post.

(** A claim of the session covers [o], no reset came after it, and when it was presented no
    customer was bound and the contact named the customer who owns every order asked for. *)
Definition claimed (s0 : OrderStore) (es : list session_event) (o : string) : Prop :=
  ∃ pre claim ids post b, es = pre ++ EvClaim claim ids :: post ∧ Forall (λ e, is_clear e = false) post ∧
    bound (replay s0 pre).2 = None ∧ match_contact customers claim = inr (Some b) ∧
    Forall (λ x, order_owner (replay s0 pre).1 x = Some (customer_ref b)) ids ∧ canon o ∈ canon <$> ids.

Lemma replay_snoc s0 es e : replay s0 (es ++ [e]) = event_step (replay s0 es) e.
Proof. unfold replay. by rewrite fold_left_app. Qed.

Lemma last_bound_snoc es b e : is_clear e = false → is_bind e = false → last_bound es b → last_bound (es ++ [e]) b.
Proof.
  intros ? ? (pre & post & -> & Hp). exists pre, (post ++ [e]). split; [by rewrite <-app_assoc|].
  apply Forall_app. split; [done|]. by constructor.
Qed.
Lemma claimed_snoc s0 es o e : is_clear e = false → claimed s0 es o → claimed s0 (es ++ [e]) o.
Proof.
  intros ? (pre & claim & ids & post & b & -> & Hp & H). exists pre, claim, ids, (post ++ [e]), b.
  split; [by rewrite <-app_assoc|]. split; [|exact H]. apply Forall_app. split; [done|]. by constructor.
Qed.

(** No event changes who owns an order. *)
Lemma replay_owner s0 es o : order_owner (replay s0 es).1 o = order_owner s0 o.
Proof.
  induction es as [|e es IH] using rev_ind; [done|]. rewrite replay_snoc, <-IH.
  destruct (replay s0 es) as [s i]. destruct e as [c| | |]; cbn; [|done..].
  unfold order_owner. by rewrite run_call_orders.
Qed.

(** The authority in force is what the events since the last reset gave. *)
Lemma replay_earned s0 es :
  (∀ b, bound (replay s0 es).2 = Some b → last_bound es b) ∧
  (∀ o, order_granted (replay s0 es).2 o = true → claimed s0 es o).
Proof.
  induction es as [|e es [IHb IHg]] using rev_ind.
  { split; [done|]. intros o Ho. unfold order_granted in Ho. apply bool_decide_eq_true in Ho. cbn in Ho. set_solver. }
  rewrite replay_snoc. destruct (replay s0 es) as [s i] eqn:Hr. cbn [snd] in IHb, IHg.
  destruct e as [c|b|claim ids|]; cbn [event_step snd].
  - split; intros x Hx; [apply last_bound_snoc|apply claimed_snoc]; auto.
  - split; [|intros o Ho; apply claimed_snoc; [done|by apply IHg]].
    intros b' [= <-]. exists es, []. by split.
  - destruct (try_grant_orders_by_contact claim ids s customers i) as [i' r] eqn:E. cbn [fst].
    apply try_grant_cases in E as [[-> _]|(_ & Hb & _ & -> & b & Hm & Hw)];
      [split; intros x Hx; [apply last_bound_snoc|apply claimed_snoc]; auto|].
    split; [done|]. intros o Ho. unfold order_granted in Ho. apply bool_decide_eq_true in Ho. cbn in Ho.
    apply elem_of_union in Ho as [Ho|Ho]; [apply claimed_snoc; [done|apply IHg]; by apply bool_decide_eq_true|].
    apply elem_of_list_to_set in Ho. exists es, claim, ids, [], b. rewrite Hr. by split_and!.
  - split; [done|]. intros o Ho. unfold order_granted in Ho. apply bool_decide_eq_true in Ho. cbn in Ho. set_solver.
Qed.

(** C35 No session reads an order without authority of its own.  However a session binds, claims
    contacts, resets its identity and uses the store, an order it may read is one it placed as a
    guest; or one owned by the customer it is bound to, the last it bound, with no reset since; or,
    while it is bound to nobody, one of the orders of a contact claim that was presented in this
    same session, after its last reset and while nobody was bound, with a contact that names the
    customer who owned every order of the claim and still owns this one. *)
Theorem read_authority_justified s0 es guest o :
  let '(s, identity) := replay s0 es in
  order_read_allowed o s guest identity = inr true →
  is_guest_order s o guest = inr true ∨
  (∃ b, bound identity = Some b ∧ last_bound es b ∧ order_owner s o = Some (customer_ref b)) ∨
  (bound identity = None ∧ ∃ pre claim ids post b, es = pre ++ EvClaim claim ids :: post ∧
     Forall (λ e, is_clear e = false) post ∧ bound (replay s0 pre).2 = None ∧
     match_contact customers claim = inr (Some b) ∧ canon o ∈ canon <$> ids ∧
     Forall (λ x, order_owner (replay s0 pre).1 x = Some (customer_ref b)) ids ∧
     order_owner s o = Some (customer_ref b)).
Proof.
  destruct (replay_earned s0 es) as [Hb Hg]. pose proof (replay_owner s0 es o) as Ho.
  destruct (replay s0 es) as [s identity]. cbn [fst snd] in *. intros Hr.
  unfold order_read_allowed, current in Hr. munfold. cbn [port_is_guest_order OrderStore_reads] in Hr.
  destruct (is_guest_order s o guest) as [e|[]]; [done|by left|]. right.
  destruct (bound identity) as [b|]; [left|right]; injection Hr as Hr.
  - exists b. split_and!; [done|by apply Hb|]. unfold owned_by in Hr. cbn in Hr.
    destruct (order_owner s o) as [w|]; [|done]. by apply String.eqb_eq in Hr as ->.
  - split; [done|]. destruct (Hg o Hr) as (pre & claim & ids & post & b & -> & Hp & Hn & Hm & Hw & Hin).
    exists pre, claim, ids, post, b. split_and!; [done..|]. rewrite Ho.
    apply list_elem_of_fmap in Hin as (x & Hc & Hx). rewrite Forall_forall in Hw.
    rewrite <-(Hw _ Hx), replay_owner. exact (owner_canon s0 o x Hc).
Qed.
End session.

(** ** The directory *)

(** The claim names the contact: the same kind and the same match key. *)
Definition names_contact (claim contact : string) : Prop :=
  strip claim ≠ "" ∧
  match spoken_email (strip claim) with
  | Some email => py_in "@" contact = true ∧ match_key contact = email
  | None => spoken_digits (strip claim) ≠ "" ∧ py_in "@" contact = false ∧
      match_key contact = match_key (spoken_digits (strip claim))
  end.

Lemma directory_go_unique customers : ∀ contacts factors fs,
  directory_go contacts factors customers = inr fs →
  NoDup ((λ kv, match_key (ce_contact kv.2)) <$> customers) ∧
  ∀ kv, kv ∈ customers → dget (match_key (ce_contact kv.2)) contacts = None.
Proof.
  induction customers as [|[ref entry] rest IH]; intros contacts factors fs; simpl.
  { intros _. split; [constructor|set_solver]. }
  munfold. destruct (dmem (match_key _) contacts) eqn:Hc; simpl; [done|].
  destruct (dmem (ce_factor_ref entry) factors) eqn:Hf; simpl; [done|].
  intros [Hnd Hnew]%IH. unfold dmem in Hc.
  destruct (dget (match_key (ce_contact entry)) contacts) eqn:Hg; [done|].
  assert (∀ kv, kv ∈ rest → match_key (ce_contact kv.2) ≠ match_key (ce_contact entry)) as Hne.
  { intros kv Hin Heq. specialize (Hnew kv Hin). rewrite Heq, dget_dset_eq in Hnew. done. }
  split.
  - apply NoDup_cons. split; [|done]. intros (kv & Heq & Hin)%list_elem_of_fmap.
    by apply (Hne kv Hin).
  - intros kv [->|Hin]%elem_of_cons; [done|]. specialize (Hnew kv Hin).
    rewrite dget_dset_ne in Hnew; [done|]. intros Heq. by apply (Hne kv Hin).
Qed.

Lemma valid_unique_key customers kv kv' : CustomersFixture_valid customers = true →
  kv ∈ customers → kv' ∈ customers →
  match_key (ce_contact kv.2) = match_key (ce_contact kv'.2) → kv = kv'.
Proof.
  unfold CustomersFixture_valid, directory_values_unique. intros Hv Hin Hin' Heq. bools. munfold.
  destruct (directory_go [] [] customers) as [e|fs] eqn:E; [done|].
  apply directory_go_unique in E as [Hnd _]. clear -Hnd Hin Hin' Heq.
  induction customers as [|x l IH]; [set_solver|]. rewrite fmap_cons in Hnd.
  apply NoDup_cons in Hnd as [Hx Hnd].
  apply elem_of_cons in Hin as [->|Hin], Hin' as [->|Hin']; [done| | |by apply IH].
  - destruct Hx. rewrite Heq. by apply (list_elem_of_fmap_2 (λ kv, match_key (ce_contact kv.2))).
  - destruct Hx. rewrite <-Heq. by apply (list_elem_of_fmap_2 (λ kv, match_key (ce_contact kv.2))).
Qed.

Lemma first_customer_spec customers f (P : CustomerEntry → Prop) r e :
  CustomersFixture_valid customers = true →
  (∀ e, f e = true ↔ P e) →
  (∀ e e', P e → P e' → match_key (ce_contact e) = match_key (ce_contact e')) →
  first_customer f customers = Some (r, e) ↔ dget r customers = Some e ∧ P e.
Proof.
  intros Hv Hf Hkey.
  assert (NoDup (dkeys customers)) as Hnd by (unfold CustomersFixture_valid in Hv; by bools).
  unfold first_customer. split.
  - intros H. apply List.find_some in H as [Hin Hp]. apply list_elem_of_In in Hin.
    split; [by apply elem_dget|]. by apply Hf in Hp.
  - intros [Hg Hp]. apply dget_Some_elem in Hg as Hin.
    destruct (List.find (λ kv, f kv.2) customers) as [[r' e']|] eqn:E.
    + apply List.find_some in E as [Hin' Hp']. apply list_elem_of_In in Hin'. cbn in Hp'.
      f_equal. apply (valid_unique_key customers); try done. cbn. apply Hkey; [by apply Hf in Hp'|done].
    + apply list_elem_of_In in Hin. eapply List.find_none in E; [|exact Hin]. cbn in E.
      apply Hf in Hp. congruence.
Qed.

Lemma bind_customer_spec customers found b : CustomersFixture_valid customers = true →
  (∀ r e, found = Some (r, e) → dget r customers = Some e) →
  bind_customer found = inr (Some b) ↔
  ∃ e, found = Some (customer_ref b, e) ∧ b = mkBound (customer_ref b) (ce_masked_contact e) ∧
    customer_ref b ≠ "".
Proof.
  intros Hv Hfound. unfold bind_customer, make_BoundIdentity. munfold.
  destruct found as [[r e]|]; [|naive_solver].
  specialize (Hfound r e eq_refl).
  assert (nonempty (ce_masked_contact e) = true) as Hm.
  { unfold CustomersFixture_valid in Hv. bools.
    match goal with H : forallb _ customers = true |- _ => rewrite forallb_forall in H;
      specialize (H (r, e)) end.
    apply dget_Some_elem, list_elem_of_In in Hfound. unfold CustomerEntry_valid in *. cbn in *.
    match goal with H : In _ _ → _ |- _ => specialize (H Hfound) end. by bools. }
  rewrite Hm, andb_true_r. destruct (nonempty r) eqn:Hr.
  - apply nonempty_spec in Hr. split.
    + intros [= <-]. eauto.
    + intros (e' & [= -> ->] & Hb & _). by rewrite <-Hb.
  - split; [done|]. intros (e' & [= -> ->] & _ & Hne). by apply nonempty_spec in Hne; rewrite Hne in Hr.
Qed.

(** The directory lookup finds exactly the customer a claim names: over a validated fixture a
    claim matches a customer if and only if it spells that customer's contact, an e-mail claim
    only ever an e-mail contact and a number only ever a phone contact; so a claim names at most
    one customer, whatever the order of the fixture. *)
Theorem match_contact_exact d claim b :
  CustomersFixture_valid (cd_customers d) = true →
  match_contact d claim = inr (Some b) ↔
  customer_ref b ≠ "" ∧
  ∃ e, dget (customer_ref b) (cd_customers d) = Some e ∧
    b = mkBound (customer_ref b) (ce_masked_contact e) ∧ names_contact claim (ce_contact e).
Proof.
  intros Hv. unfold match_contact, names_contact.
  assert (∀ f (P : CustomerEntry → Prop), (∀ e, f e = true ↔ P e) →
    (∀ e e', P e → P e' → match_key (ce_contact e) = match_key (ce_contact e')) →
    bind_customer (first_customer f (cd_customers d)) = inr (Some b) ↔
    customer_ref b ≠ "" ∧ ∃ e, dget (customer_ref b) (cd_customers d) = Some e ∧
      b = mkBound (customer_ref b) (ce_masked_contact e) ∧ P e) as Hfind.
  { intros f P Hf Hkey. rewrite (bind_customer_spec (cd_customers d)); [|done|].
    - setoid_rewrite (first_customer_spec _ f P); [|done..]. naive_solver.
    - intros r e H. by apply (first_customer_spec _ f P) in H as [? _]. }
  destruct (nonempty (strip claim)) eqn:Hs; simpl.
  - apply nonempty_spec in Hs. destruct (spoken_email (strip claim)) as [email|].
    + rewrite (Hfind _ (λ e, py_in "@" (ce_contact e) = true ∧ match_key (ce_contact e) = email)).
      * naive_solver.
      * intros e. by rewrite andb_true_iff, String.eqb_eq.
      * naive_solver congruence.
    + destruct (nonempty (spoken_digits (strip claim))) eqn:Hd; simpl.
      * apply nonempty_spec in Hd.
        rewrite (Hfind _ (λ e, py_in "@" (ce_contact e) = false ∧
          match_key (ce_contact e) = match_key (spoken_digits (strip claim)))); [naive_solver| |naive_solver congruence].
        intros e. by rewrite andb_true_iff, String.eqb_eq, negb_true_iff.
      * split; [done|]. intros (_ & e & _ & _ & _ & Hne & _).
        apply nonempty_spec in Hne. congruence.
  - split; [done|]. intros (_ & e & _ & _ & Hne & _). apply nonempty_spec in Hne. congruence.
Qed.

(** ** Contact claims of one utterance *)

(** The distinct non-empty keys of the candidates, in order. *)
Definition claim_keys (cs : list ContactCandidate) : list (ContactKind * string) :=
  fromkeys (filter (λ k, k.2 ≠ "") (candidate_key <$> cs)).

Lemma dmem_one {K V} `{EqDecision K} (k k' : K) (v : V) :
  dmem k' [(k, v)] = bool_decide (k = k').
Proof. unfold dmem. simpl. case_decide; case_bool_decide; done. Qed.

Lemma classify_go_one k claim cs :
  classify_go [(k, claim)] cs =
  if decide (fromkeys_go [k] (filter (λ k, k.2 ≠ "") (candidate_key <$> cs)) = [])
  then Some [(k, claim)] else None.
Proof.
  induction cs as [|c cs IH]; [done|]. rewrite fmap_cons, filter_cons. cbn [classify_go].
  destruct (nonempty (candidate_key c).2) eqn:Hn.
  - apply nonempty_spec in Hn.
    rewrite (decide_True (P := (candidate_key c).2 ≠ "")) by done. cbn [fromkeys_go dmem dget].
    rewrite dmem_one. destruct (decide (k = candidate_key c)) as [->|Hk].
    + rewrite bool_decide_eq_true_2, (decide_True (P := candidate_key c ∈ [candidate_key c]))
        by (done || set_solver). exact IH.
    + rewrite bool_decide_eq_false_2, (decide_False (P := candidate_key c ∈ [k]))
        by (done || set_solver).
      rewrite dset_fresh by (simpl; by rewrite decide_False). simpl.
      done.
  - rewrite (decide_False (P := (candidate_key c).2 ≠ ""))
      by (intros Hne; apply nonempty_spec in Hne; congruence).
    exact IH.
Qed.

Lemma classify_go_empty cs :
  match classify_go [] cs with
  | Some [] => claim_keys cs = []
  | Some (kc :: _) => claim_keys cs = [kc.1] ∧
      ∃ c, c ∈ cs ∧ candidate_key c = kc.1 ∧ cc_claim c = kc.2
  | None => (2 ≤ length (claim_keys cs))%nat
  end.
Proof.
  unfold claim_keys, fromkeys.
  induction cs as [|c cs IH]; [done|]. rewrite fmap_cons, filter_cons. cbn [classify_go].
  destruct (nonempty (candidate_key c).2) eqn:Hn.
  - apply nonempty_spec in Hn. rewrite (decide_True (P := (candidate_key c).2 ≠ "")) by done.
    cbn [dmem dget dset length Nat.ltb Nat.leb fromkeys_go].
    rewrite (decide_False (P := candidate_key c ∈ [])) by set_solver.
    rewrite classify_go_one. case_decide as Hd.
    + rewrite Hd. split; [done|]. exists c. split; [set_solver|done].
    + destruct (fromkeys_go [candidate_key c] _) as [|k' l]; [by destruct Hd|]. simpl. lia.
  - rewrite (decide_False (P := (candidate_key c).2 ≠ ""))
      by (intros Hne; apply nonempty_spec in Hne; congruence).
    cbn [length Nat.ltb Nat.leb].
    destruct (classify_go [] cs) as [[|kc l]|]; [done| |done].
    destruct IH as (Hk & c' & Hin & Hc). split; [done|]. exists c'. split; [set_solver|done].
Qed.

(** The contact classification counts distinct contacts: an utterance whose candidate spans have
    no usable key yields no claim, one with exactly one distinct key (kind and match key, so
    respellings of one contact count once) yields a claim from it, and two or more never yield a
    claim; so the early exit of the loop decides the same as looking at all candidates. *)
Theorem classify_contact_claims_counts utterance :
  let cs := scan_contact_candidates utterance in
  let keys := claim_keys cs in
  match length keys with
  | 0%nat => classify_contact_claims utterance = mkSelection claim_none None
  | 1%nat => ∃ c, c ∈ cs ∧ keys = [candidate_key c] ∧
      classify_contact_claims utterance = mkSelection claim_single (Some (cc_claim c))
  | _ => classify_contact_claims utterance = mkSelection claim_multiple None
  end.
Proof.
  unfold classify_contact_claims. cbv zeta.
  pose proof (classify_go_empty (scan_contact_candidates utterance)) as H.
  destruct (classify_go [] (scan_contact_candidates utterance)) as [[|kc l]|].
  - by rewrite H.
  - destruct H as (Hk & c & Hin & Hc & Hcl). rewrite Hk. simpl. exists c.
    by rewrite Hc, Hcl.
  - destruct (claim_keys _) as [|? [|]]; simpl in *; (done || lia).
Qed.

(** ** Witnesses *)
Definition demo_customers : list (string * CustomerEntry) :=
  [("cust-1", mkCustomerEntry "Kc@Example.com" "k***@example.com" "f-1");
   ("cust-2", mkCustomerEntry "+1 555 010 0199" "***0199" "f-2")].
Definition demo_directory : CustomerDirectory := mkDirectory "acme" demo_customers.
Definition demo_guest : Guest.GuestOrderScope := Guest.mkScope "acme" "s-1" [].
Definition demo_granted : CallerIdentityStore :=
  (try_grant_orders_by_contact "k c at example dot com" ["ord-1"; "ORD-2"] demo_store demo_directory
     new_identity).1.

Lemma authorization_ordered_witness :
  order_read_allowed "ord-1" demo_store demo_guest (mkIdentity (Some (mkBound "cust-1" "x")) ∅) =
    inr true.
Proof.
  apply (authorization_ordered "ord-1" demo_store demo_guest
    (mkIdentity (Some (mkBound "cust-1" "x")) ∅)).
  by vm_compute.
Defined.

Lemma contact_grant_all_or_nothing_witness :
  order_granted demo_granted " ord-2" = true ∧
  (try_grant_orders_by_contact "k c at example dot com" ["ord-1"; "ORD-7"] demo_store demo_directory
     new_identity).1 = new_identity.
Proof.
  split; [by vm_compute|].
  destruct (try_grant_orders_by_contact "k c at example dot com" ["ord-1"; "ORD-7"] demo_store
    demo_directory new_identity) as [i r] eqn:E.
  apply (contact_grant_all_or_nothing _ _ _ _ _ _ _ E).
  assert (r = (try_grant_orders_by_contact "k c at example dot com" ["ord-1"; "ORD-7"] demo_store
    demo_directory new_identity).2) as -> by (by rewrite E).
  by vm_compute.
Defined.

(** A session that claims, resets, claims again and reads. *)
Definition demo_events : list session_event :=
  [EvClaim "k c at example dot com" ["ORD-1"]; EvClear; EvClaim "k c at example dot com" ["ord-1"; "ORD-2"];
   EvClaim "k c at example dot com" ["ORD-7"]].

Lemma read_authority_justified_witness :
  order_read_allowed "ord-2" (replay demo_directory demo_store demo_events).1 demo_guest
    (replay demo_directory demo_store demo_events).2 = inr true ∧
  ∃ pre claim ids post, demo_events = pre ++ EvClaim claim ids :: post ∧
    Forall (λ e, is_clear e = false) post ∧ canon "ord-2" ∈ canon <$> ids.
Proof.
  assert (order_read_allowed "ord-2" (replay demo_directory demo_store demo_events).1 demo_guest
    (replay demo_directory demo_store demo_events).2 = inr true) as Hr by (by vm_compute).
  split; [exact Hr|].
  pose proof (read_authority_justified demo_directory demo_store demo_events demo_guest "ord-2") as H.
  destruct (replay demo_directory demo_store demo_events) as [s i] eqn:E.
  assert (bound i = None) as Hn by (assert (i = (s, i).2) as -> by done; rewrite <-E; by vm_compute).
  assert (is_guest_order s "ord-2" demo_guest = inr false) as Hg
    by (assert (s = (s, i).1) as -> by done; rewrite <-E; by vm_compute).
  destruct (H Hr) as [Hx|[(b & Hx & _)|(_ & pre & claim & ids & post & _ & He & Hp & _ & _ & Hin & _)]]; [congruence..|].
  by exists pre, claim, ids, post.
Defined.

Lemma match_contact_exact_witness :
  match_contact demo_directory "five five five oh one oh oh one nine nine" =
    inr (Some (mkBound "cust-2" "***0199")).
Proof.
  apply (match_contact_exact demo_directory _ (mkBound "cust-2" "***0199")); [by vm_compute|].
  split; [done|]. eexists. split_and!; [by vm_compute|done|]. unfold names_contact. by vm_compute.
Defined.
