(* ===== verification/Profile.v ===== *)
(** * Profiles and the fixture bundle (commerce/profile.py, commerce/payment_instruments.py,
    commerce/fixture_integrity.py)

    The customer-scoped profile store with its change ledger, the masked
    payment instruments, and the integrity check of a merchant's fixtures. *)

From S2P Require Import Prelude PyText Money Receipts Orders OrderScope Regex Spoken Identity.
From stdpp Require Import gmap.
Local Open Scope Z_scope.
Local Open Scope list_scope.

Inductive ProfileField := address | contact.
#[export] Instance ProfileField_eq_dec : EqDecision ProfileField.
Proof. solve_decision. Defined.

Record CustomerProfile := mkProfile { address_on_file_ : string; contact_on_file_ : string }.
Definition CustomerProfile_valid (p : CustomerProfile) : bool :=
  nonempty (address_on_file_ p) && nonempty (contact_on_file_ p).

Record ProfileChangeRecord := mkChange {
  ch_customer_ref : string; ch_field : ProfileField; ch_new_value : string }.
#[export] Instance ProfileChangeRecord_eq_dec : EqDecision ProfileChangeRecord.
Proof. solve_decision. Defined.
Definition ProfileChangeRecord_valid (r : ProfileChangeRecord) : bool :=
  nonempty (ch_customer_ref r) && nonempty (ch_new_value r).

Definition profile_change_matches (record : ProfileChangeRecord) (customer_ref : string)
    (field : ProfileField) (new_value : string) : bool :=
  bool_decide (ch_customer_ref record = customer_ref) && bool_decide (ch_field record = field)
  && bool_decide (ch_new_value record = strip new_value).

Record ProfileStore := mkProfileStore {
  ps_tenant_id : string; fixture : list (string * CustomerProfile);
  changes_by_key : list ((string * string) * ProfileChangeRecord) }.

Definition new_profile_store (tenant : string) (profiles : list (string * CustomerProfile))
    : res ProfileStore :=
  tenant_id ← Guest.normalize_tenant_id tenant "profile store";
  mret (mkProfileStore tenant_id profiles []).

Definition set_changes f (s : ProfileStore) : ProfileStore :=
  mkProfileStore (ps_tenant_id s) (fixture s) (f (changes_by_key s)).

Definition has_profile (s : ProfileStore) (customer_ref : string) : bool :=
  dmem customer_ref (fixture s).

(** The loop of [_current]: the last change of this customer and field. *)
Definition latest_change (changes : list ((string * string) * ProfileChangeRecord))
    (customer_ref : string) (field : ProfileField) : option string :=
  foldl (λ latest kr,
    if String.eqb kr.1.1 customer_ref && bool_decide (ch_field kr.2 = field)
    then Some (ch_new_value kr.2) else latest) None changes.

Definition current_value (s : ProfileStore) (customer_ref : string) (field : ProfileField)
    : res string :=
  match dget customer_ref (fixture s) with
  | None => raises ProfileError "no profile on file"
  | Some base =>
      match latest_change (changes_by_key s) customer_ref field with
      | Some latest => mret latest
      | None => mret (match field with address => address_on_file_ base | contact => contact_on_file_ base end)
      end
  end.

Definition address_on_file (s : ProfileStore) (customer_ref : string) : res string :=
  current_value s customer_ref address.
Definition contact_on_file (s : ProfileStore) (customer_ref : string) : res string :=
  current_value s customer_ref contact.

Definition update_profile (idempotency_key customer_ref : string) (field : ProfileField)
    (new_value : string) : M ProfileStore ProfileChangeRecord :=
  s ← get;
  require (has_profile s customer_ref) ProfileError "no profile on file" ;;
  match dget (customer_ref, idempotency_key) (changes_by_key s) with
  | Some existing =>
      require (profile_change_matches existing customer_ref field new_value) ProfileError
        "profile idempotency key was reused with different parameters" ;;
      mret existing
  | None =>
      let cleaned := strip new_value in
      require (nonempty cleaned) ProfileError "empty value - nothing to update" ;;
      let record := mkChange customer_ref field cleaned in
      lift (validated (ProfileChangeRecord_valid record) tt) ;;
      modify (set_changes (dset (customer_ref, idempotency_key) record)) ;;
      mret record
  end.

Definition profile_change_receipt (s : ProfileStore) (idempotency_key customer_ref : string)
    (field : ProfileField) (new_value : string) : ReceiptLookup ProfileChangeRecord :=
  classify_receipt (dget (customer_ref, idempotency_key) (changes_by_key s))
    (λ record, profile_change_matches record customer_ref field new_value).

Definition change_count (s : ProfileStore) : nat := length (changes_by_key s).
Definition receipt_counts (s : ProfileStore) : ProfileReceiptCounts :=
  {| changes := length (changes_by_key s) |}.

(** ** Payment instruments *)
Fixpoint digit_count (s : string) : nat :=
  match s with
  | "" => 0
  | String c s' => if is_digit c then S (digit_count s') else digit_count s'
  end.

(** [PaymentInstrumentEntry._reference_is_masked] after the length constraint. *)
Definition reference_is_masked (value : string) : res string :=
  requires (nonempty value) ValidationError "" ;;
  let cleaned := strip value in
  requires (nonempty cleaned) ValueError "payment instrument reference must not be blank" ;;
  requires (negb (4 <? digit_count cleaned)%nat) ValueError
    "payment instrument reference must be masked" ;;
  mret cleaned.

Record PaymentInstrumentDirectory := mkInstruments {
  pd_tenant_id : string; references : list (string * string) }.
Definition new_instrument_directory (tenant : string) (instruments : list (string * string))
    : res PaymentInstrumentDirectory :=
  tenant_id ← Guest.normalize_tenant_id tenant "payment instrument directory";
  mret (mkInstruments tenant_id (dict_of instruments)).
Definition new_instrument_ref (d : PaymentInstrumentDirectory) (customer_ref : string)
    : option string := dget customer_ref (references d).

(** ** The fixture bundle *)
Definition assert_orders_have_customers (orders : list (string * OrderEntry))
    (customers : list (string * CustomerEntry)) : res unit :=
  requires (forallb (λ kv, dmem (oe_customer_ref kv.2) customers) orders) ConfigError
    "orders fixture names customer_refs missing from the customers fixture".

Definition assert_keys_have_customers {V} (keyed : list (string * V))
    (customers : list (string * CustomerEntry)) (message : string) : res unit :=
  requires (forallb (λ k, dmem k customers) (dkeys keyed)) ConfigError message.
Definition assert_profiles_have_customers (profiles : list (string * CustomerProfile)) customers :=
  assert_keys_have_customers profiles customers
    "profiles fixture names customer_refs missing from the customers fixture".
Definition assert_payment_instruments_have_customers (instruments : list (string * string)) customers :=
  assert_keys_have_customers instruments customers
    "payment-instruments fixture names customer_refs missing from the customers fixture".

(** [factor_refs == expected_factor_refs] on sets. *)
Definition same_set (l1 l2 : list string) : bool :=
  forallb (λ x, bool_decide (x ∈ l2)) l1 && forallb (λ x, bool_decide (x ∈ l1)) l2.

Definition assert_fixture_bundle_integrity (orders : list (string * OrderEntry))
    (customers : list (string * CustomerEntry)) (payment_instruments : list (string * string))
    (profiles : list (string * CustomerProfile)) (otp_codes_by_factor_ref : list (string * string))
    : res unit :=
  assert_orders_have_customers orders customers ;;
  assert_profiles_have_customers profiles customers ;;
  assert_payment_instruments_have_customers payment_instruments customers ;;
  requires (same_set (dkeys otp_codes_by_factor_ref) (ce_factor_ref <$> dvalues customers)) ConfigError
    "verification fixture does not match customers".

(** ** Lemmas *)
Lemma latest_change_snoc changes k r c f :
  latest_change (changes ++ [(k, r)]) c f =
  if String.eqb k.1 c && bool_decide (ch_field r = f) then Some (ch_new_value r)
  else latest_change changes c f.
Proof. unfold latest_change. by rewrite foldl_app. Qed.

Lemma update_profile_cases k c f v s s' r :
  update_profile k c f v s = (s', r) →
  (s' = s ∧ ∀ x, r = inr x → dget (c, k) (changes_by_key s) = Some x ∧
     profile_change_matches x c f v = true ∧ has_profile s c = true) ∨
  (let x := mkChange c f (strip v) in
   r = inr x ∧ s' = set_changes (dset (c, k) x) s ∧ has_profile s c = true ∧
   dget (c, k) (changes_by_key s) = None ∧ strip v ≠ "" ∧ c ≠ "").
Proof.
  unfold update_profile. munfold_goal. cbn [fst snd].
  destruct (has_profile s c) eqn:Hh; simpl; [|intros; simplify_eq; by left].
  destruct (dget (c, k) (changes_by_key s)) as [x|] eqn:Hg.
  { destruct (profile_change_matches x c f v) eqn:Hm; intros; simplify_eq; left; [|done].
    split; [done|]. intros y [= <-]. done. }
  destruct (nonempty (strip v)) eqn:Hv; simpl; [|intros; simplify_eq; by left].
  destruct (ProfileChangeRecord_valid _) eqn:Hr; simpl; intros; simplify_eq; [|by left].
  right. unfold ProfileChangeRecord_valid in Hr. cbn in Hr. bools.
  split_and!; try done; by apply nonempty_spec.
Qed.

(** A profile change is the last write of its owner: a call that returns a record makes (or, if
    repeated, has made) that value the one on file for that customer and field, or a later
    change of it is; every other customer and field reads as before, and a call that raises
    changes nothing. *)
Theorem update_profile_effect k c f v s s' r :
  update_profile k c f v s = (s', r) →
  (∀ c' f', (c', f') ≠ (c, f) → current_value s' c' f' = current_value s c' f') ∧
  (∀ e, r = inl e → s' = s) ∧
  (∀ x, r = inr x → dget (c, k) (changes_by_key s) = None → current_value s' c f = inr (strip v)) ∧
  (∀ x, r = inr x → update_profile k c f v s' = (s', inr x) ∧
     profile_change_receipt s' k c f v = CommittedReceipt x).
Proof.
  intros [[-> Hx]|(-> & -> & Hh & Hg & Hv & Hc)]%update_profile_cases.
  - split_and!; [done|done| |].
    + intros x Hr Hg. apply Hx in Hr as [Hr _]. congruence.
    + intros x Hr. apply Hx in Hr as (Hg & Hm & Hh).
      unfold update_profile, profile_change_receipt. munfold_goal. cbn [fst snd].
      rewrite Hh. simpl. rewrite Hg. simpl. by rewrite Hm.
  - assert (∀ c' f', latest_change (dset (c, k) (mkChange c f (strip v)) (changes_by_key s)) c' f' =
      if String.eqb c c' && bool_decide (f = f') then Some (strip v)
      else latest_change (changes_by_key s) c' f') as Hl
      by (intros; by rewrite dset_fresh, latest_change_snoc).
    unfold current_value. cbn [fixture changes_by_key set_changes]. split_and!.
    + intros c' f' Hne. rewrite Hl.
      destruct (String.eqb_spec c c') as [->|]; [|done].
      rewrite bool_decide_eq_false_2 by congruence. done.
    + done.
    + intros x _ _. rewrite Hl, String.eqb_refl, bool_decide_eq_true_2 by done. simpl.
      unfold has_profile, dmem in Hh. by destruct (dget c (fixture s)).
    + intros x [= <-]. unfold update_profile, profile_change_receipt. munfold_goal.
      cbn [fst snd set_changes changes_by_key]. unfold has_profile in *. cbn [set_changes fixture].
      rewrite Hh. simpl. rewrite dget_dset_eq. simpl.
      unfold profile_change_matches. cbn. by rewrite !bool_decide_eq_true_2.
Qed.

Lemma update_profile_effect_witness :
  let s := mkProfileStore "acme" [("c1", mkProfile "1 Road" "number ending 0119");
    ("c2", mkProfile "2 Road" "number ending 0120")] [] in
  let s' := (update_profile "k1" "c1" address " 9 Lane " s).1 in
  current_value s' "c1" address = inr "9 Lane" ∧
  current_value s' "c2" address = inr "2 Road".
Proof.
  intros s s'.
  destruct (update_profile_effect "k1" "c1" address " 9 Lane " s s' _ (surjective_pairing _))
    as (Hother & _ & Hnew & _).
  split.
  - rewrite (Hnew (mkChange "c1" address "9 Lane")); by vm_compute.
  - rewrite Hother by done. by vm_compute.
Defined.

(** A bundle that passes the integrity check composes: every order, profile and instrument
    names a customer of the directory, and every customer's verification factor, and nothing
    else, has a code. *)
Theorem fixture_bundle_composes orders customers instruments profiles codes :
  assert_fixture_bundle_integrity orders customers instruments profiles codes = inr tt ↔
  (∀ o e, (o, e) ∈ orders → is_Some (dget (oe_customer_ref e) customers)) ∧
  (∀ c, c ∈ dkeys profiles → is_Some (dget c customers)) ∧
  (∀ c, c ∈ dkeys instruments → is_Some (dget c customers)) ∧
  (∀ f, f ∈ dkeys codes ↔ ∃ c e, (c, e) ∈ customers ∧ ce_factor_ref e = f).
Proof.
  unfold assert_fixture_bundle_integrity, assert_orders_have_customers, assert_profiles_have_customers,
    assert_payment_instruments_have_customers, assert_keys_have_customers.
  rewrite !requires_then, requires_ok. unfold same_set. rewrite andb_true_iff.
  assert (∀ k, dmem k customers = true ↔ is_Some (dget k customers)) as Hmem.
  { intros k. unfold dmem. destruct (dget k customers); split; (done || by intros [? ?]). }
  rewrite (forallb_elem _ (λ kv, is_Some (dget (oe_customer_ref kv.2) customers))) by (intros; apply Hmem).
  rewrite !(forallb_elem (λ k, dmem k customers) (λ k, is_Some (dget k customers))) by (intros; apply Hmem).
  rewrite (forallb_elem _ (λ x, x ∈ ce_factor_ref <$> dvalues customers)),
    (forallb_elem _ (λ x, x ∈ dkeys codes)) by (intros; apply bool_decide_eq_true).
  assert (∀ f, f ∈ ce_factor_ref <$> dvalues customers ↔
    ∃ c e, (c, e) ∈ customers ∧ ce_factor_ref e = f) as Hf.
  { intros f. unfold dvalues. rewrite list_elem_of_fmap. split.
    - intros (e & -> & ([c e'] & -> & Hin)%list_elem_of_fmap). eauto.
    - intros (c & e & Hin & <-). exists e. split; [done|]. apply list_elem_of_fmap. by exists (c, e). }
  split.
  - intros (Ho & Hp & Hi & H1 & H2). split_and!; [|done|done|].
    + intros o e Hin. apply (Ho _ Hin).
    + intros f. split; [intros Hin; by apply Hf, H1|]. intros H. by apply H2, Hf.
  - intros (Ho & Hp & Hi & H). split_and!; [|done|done| |].
    + intros [o e] Hin. by apply (Ho o e).
    + intros f Hin. by apply Hf, H.
    + intros f Hin. apply Hf in Hin. by apply H.
Qed.
