(* ===== verification/Verification.v ===== *)
(** * Step-up verification (commerce/verification.py)

    Challenge and proof types, the fixture provider [OtpProvider] with its
    expiry and attempt limits, the per-session [VerificationStore] over any
    provider that implements [OtpPort], and the risk check.

    A clock reading and a fresh uuid are arguments of the operation that takes
    them ([otp_env], [store_env]); times are integers of one unit.  The
    provider's lock and the store's operation lock make each operation one
    atomic step. *)

From S2P Require Import Prelude PyText OrderScope Regex Spoken.
Local Open Scope Z_scope.
Local Open Scope list_scope.

Inductive VerificationPurpose := purpose_identity | purpose_profile | purpose_refund.
#[export] Instance VerificationPurpose_eq_dec : EqDecision VerificationPurpose.
Proof. solve_decision. Defined.

Record VerificationSubject := mkSubject {
  vs_tenant_id : string; vs_session_id : string; vs_customer_ref : string; vs_factor_ref : string;
  vs_purpose : VerificationPurpose }.
#[export] Instance VerificationSubject_eq_dec : EqDecision VerificationSubject.
Proof. solve_decision. Defined.

(** [NonEmptyText]: stripped and not empty. *)
Definition non_empty_text (s : string) : res string :=
  requires (nonempty (strip s)) ValidationError "" ;; mret (strip s).
Definition text_ok (s : string) : bool := nonempty s && String.eqb (strip s) s.

Definition VerificationSubject_valid (s : VerificationSubject) : bool :=
  text_ok (vs_tenant_id s) && text_ok (vs_session_id s) && text_ok (vs_customer_ref s)
  && text_ok (vs_factor_ref s).

Definition make_VerificationSubject tenant session customer factor purpose : res VerificationSubject :=
  tenant ← non_empty_text tenant; session ← non_empty_text session;
  customer ← non_empty_text customer; factor ← non_empty_text factor;
  mret (mkSubject tenant session customer factor purpose).

Record OrderRiskSubject := mkOrderRisk {
  or_tenant_id : string; or_session_id : string; or_order_refs : list string }.
Definition RiskSubject : Type := VerificationSubject + OrderRiskSubject.

Inductive RiskDecision := CLEAR | BLOCKED.

Inductive OtpVerificationStatus := VERIFIED | MISMATCHED | EXPIRED | EXHAUSTED | UNKNOWN | CONFLICT.
#[export] Instance OtpVerificationStatus_eq_dec : EqDecision OtpVerificationStatus.
Proof. solve_decision. Defined.

Record OtpChallengeRequest := mkRequest {
  rq_subject : VerificationSubject; rq_dispatch_idempotency_key : string; rq_max_attempts : Z }.
#[export] Instance OtpChallengeRequest_eq_dec : EqDecision OtpChallengeRequest.
Proof. solve_decision. Defined.
Definition make_OtpChallengeRequest subject key attempts : res OtpChallengeRequest :=
  key ← non_empty_text key;
  validated (1 <=? attempts) (mkRequest subject key attempts).

Record OtpChallenge := mkChallenge { challenge_id : string; expires_at_epoch : Z }.
#[export] Instance OtpChallenge_eq_dec : EqDecision OtpChallenge.
Proof. solve_decision. Defined.

Record OtpVerification := mkVerification {
  ov_challenge_id : string; ov_status : OtpVerificationStatus;
  ov_subject : option VerificationSubject; ov_verified_at_epoch : option Z;
  ov_proof_expires_at_epoch : option Z }.
#[export] Instance OtpVerification_eq_dec : EqDecision OtpVerification.
Proof. solve_decision. Defined.

(** [OtpVerification.verified_outcome_is_complete] *)
Definition verified_outcome_is_complete (o : OtpVerification) : bool :=
  if decide (ov_status o = VERIFIED) then
    match ov_subject o, ov_verified_at_epoch o, ov_proof_expires_at_epoch o with
    | Some _, Some verified, Some expires => verified <? expires
    | _, _, _ => false
    end
  else negb (isSome (ov_subject o)) && negb (isSome (ov_verified_at_epoch o))
       && negb (isSome (ov_proof_expires_at_epoch o)).
Definition epoch_ok (o : option Z) : bool := match o with Some t => 0 <=? t | None => true end.
Definition make_OtpVerification id status subject verified expires : res OtpVerification :=
  let o := mkVerification id status subject verified expires in
  validated (epoch_ok verified && epoch_ok expires && verified_outcome_is_complete o) o.
Definition outcome (id : string) (status : OtpVerificationStatus) : res OtpVerification :=
  make_OtpVerification id status None None None.

Record VerificationProof := mkProof {
  vp_proof_id : string; vp_tenant_id : string; vp_session_id : string; vp_customer_ref : string;
  vp_factor_ref : string; vp_purpose : VerificationPurpose; vp_challenge_id : string;
  vp_verified_at_epoch : Z; vp_expires_at_epoch : Z }.
#[export] Instance VerificationProof_eq_dec : EqDecision VerificationProof.
Proof. solve_decision. Defined.
(** [raised_to: Literal[2] = 2] *)
Definition raised_to (p : VerificationProof) : Z := 2.

(** Construction of a proof; [expiry_follows_verification]. *)
Definition make_VerificationProof proof_id tenant session customer factor purpose challenge
    verified expires : res VerificationProof :=
  proof_id ← non_empty_text proof_id; tenant ← non_empty_text tenant;
  session ← non_empty_text session; customer ← non_empty_text customer;
  factor ← non_empty_text factor; challenge ← non_empty_text challenge;
  requires ((0 <=? verified) && (0 <=? expires)) ValidationError "" ;;
  requires (verified <? expires) ValidationError "verification proof expiry must follow verification" ;;
  mret (mkProof proof_id tenant session customer factor purpose challenge verified expires).

(** A clock reading and a fresh uuid. *)
Record otp_env := mkEnv { env_now : Z; env_fresh : string }.

(** ** The fixture provider *)
Record ChallengeState := mkState {
  cst_request : OtpChallengeRequest; cst_challenge : OtpChallenge; cst_remaining_attempts : Z;
  cst_verified_at_epoch : option Z; cst_proof_expires_at_epoch : option Z }.

Record OtpProvider := mkProvider {
  op_tenant_id : string; codes_by_factor_ref : list (string * string);
  challenge_ttl_seconds : Z; proof_ttl_seconds : Z;
  challenge_by_dispatch : list (string * string); challenges : list (string * ChallengeState);
  dispatch_count : Z }.

Definition set_challenges d c n (p : OtpProvider) : OtpProvider :=
  mkProvider (op_tenant_id p) (codes_by_factor_ref p) (challenge_ttl_seconds p) (proof_ttl_seconds p)
    (d (challenge_by_dispatch p)) (c (challenges p)) n.

(** [re.fullmatch(r"\d{6}", code)] *)
Definition six_digits (code : string) : bool := (String.length code =? 6)%nat && sforall is_digit code.

(** [OtpProvider.__post_init__] *)
Definition new_provider (tenant : string) (codes : list (string * string)) (cttl pttl : Z)
    : res OtpProvider :=
  tenant_id ← Guest.normalize_tenant_id tenant "OTP provider";
  requires (negb (bool_decide (codes = []))) ValueError
    "fake OTP provider requires at least one factor" ;;
  requires (forallb (λ fc, nonempty (strip fc.1) && six_digits fc.2) codes) ValueError
    "fake OTP factors require non-empty refs and 6-digit codes" ;;
  requires ((0 <? cttl) && (0 <? pttl)) ValidationError "" ;;
  mret (mkProvider tenant_id codes cttl pttl [] [] 0).

(** [VerificationFixture.codes_are_six_digits] *)
Definition codes_are_six_digits (codes : list (string * string)) : res unit :=
  requires (forallb (λ fc, six_digits fc.2) codes) ValueError
    "fixture OTP codes must contain exactly 6 digits".

Definition dispatch (env : otp_env) (request : OtpChallengeRequest) : M OtpProvider OtpChallenge :=
  p ← get;
  require (String.eqb (vs_tenant_id (rq_subject request)) (op_tenant_id p)) ValueError
    "OTP challenge tenant does not match the provider" ;;
  require (dmem (vs_factor_ref (rq_subject request)) (codes_by_factor_ref p)) ValueError
    "OTP challenge factor is unavailable" ;;
  match dget (rq_dispatch_idempotency_key request) (challenge_by_dispatch p) with
  | Some existing_id =>
      match dget existing_id (challenges p) with
      | None => raise KeyError ""
      | Some existing =>
          require (bool_decide (cst_request existing = request)) OtpChallengeConflictError
            "OTP dispatch key was reused for a different request" ;;
          mret (cst_challenge existing)
      end
  | None =>
      let challenge_id := env_fresh env in
      let challenge := mkChallenge challenge_id (env_now env + challenge_ttl_seconds p) in
      modify (set_challenges (dset (rq_dispatch_idempotency_key request) challenge_id)
                (dset challenge_id (mkState request challenge (rq_max_attempts request) None None))
                (dispatch_count p + 1)) ;;
      mret challenge
  end.

(** Assigns attributes of one challenge's state object. *)
Definition set_state (id : string) (st : ChallengeState) (p : OtpProvider) : OtpProvider :=
  set_challenges (λ d, d) (dset id st) (dispatch_count p) p.

Definition verify (env : otp_env) (id code : string) : M OtpProvider OtpVerification :=
  p ← get;
  match dget id (challenges p) with
  | None => lift (outcome id UNKNOWN)
  | Some state =>
      let now := env_now env in
      match dget (vs_factor_ref (rq_subject (cst_request state))) (codes_by_factor_ref p) with
      | None => raise KeyError ""
      | Some expected_code =>
          match cst_verified_at_epoch state with
          | Some verified =>
              if negb (String.eqb (strip code) expected_code) then lift (outcome id CONFLICT)
              else
                match cst_proof_expires_at_epoch state with
                | None => raise VerificationContractError
                    "verified fixture challenge has no proof expiry"
                | Some expires =>
                    lift (make_OtpVerification id VERIFIED (Some (rq_subject (cst_request state)))
                            (Some verified) (Some expires))
                end
          | None =>
              if expires_at_epoch (cst_challenge state) <=? now then lift (outcome id EXPIRED)
              else if cst_remaining_attempts state <=? 0 then lift (outcome id EXHAUSTED)
              else
                let remaining := cst_remaining_attempts state - 1 in
                modify (set_state id (mkState (cst_request state) (cst_challenge state) remaining
                          None (cst_proof_expires_at_epoch state))) ;;
                if negb (String.eqb (strip code) expected_code) then
                  lift (outcome id (if remaining =? 0 then EXHAUSTED else MISMATCHED))
                else
                  let expires := now + proof_ttl_seconds p in
                  modify (set_state id (mkState (cst_request state) (cst_challenge state) remaining
                            (Some now) (Some expires))) ;;
                  lift (make_OtpVerification id VERIFIED (Some (rq_subject (cst_request state)))
                          (Some now) (Some expires))
          end
      end
  end.

Definition session_of (st : ChallengeState) : string := vs_session_id (rq_subject (cst_request st)).

(** The loop over the discarded challenges. *)
Fixpoint discard (ids : list string) (p : OtpProvider) : OtpProvider :=
  match ids with
  | [] => p
  | id :: ids' =>
      match dget id (challenges p) with
      | None => p
      | Some state =>
          let key := rq_dispatch_idempotency_key (cst_request state) in
          let drop_key d := if decide (dget key d = Some id) then dpop key d else d in
          discard ids' (set_challenges drop_key (dpop id) (dispatch_count p) p)
      end
  end.

Definition retain_only (session_id : string) (challenge_ids : list string) : M OtpProvider unit :=
  let normalized_session_id := strip session_id in
  require (nonempty normalized_session_id) ValueError "OTP cleanup requires a session id" ;;
  p ← get;
  let retained_ids := fromkeys challenge_ids in
  let retained_states := omap (λ id, dget id (challenges p)) retained_ids in
  require (length retained_states =? length retained_ids)%nat VerificationContractError
    "OTP cleanup retained an unknown challenge" ;;
  require (forallb (λ st, String.eqb (session_of st) normalized_session_id) retained_states)
    VerificationContractError "OTP cleanup crossed a session boundary" ;;
  let discarded_ids := dkeys (filter (λ kv, session_of kv.2 = normalized_session_id ∧
                                            kv.1 ∉ retained_ids) (challenges p)) in
  modify (discard discarded_ids).

Definition active_challenge_count (p : OtpProvider) : nat := length (challenges p).

(** ** The provider as the store sees it *)
Class OtpPort (P : Type) := {
  otp_tenant_id : P → string;
  otp_dispatch : otp_env → OtpChallengeRequest → M P OtpChallenge;
  otp_verify : otp_env → string → string → M P OtpVerification;
  otp_retain_only : string → list string → M P unit }.

#[export] Instance OtpProvider_port : OtpPort OtpProvider :=
  {| otp_tenant_id := op_tenant_id; otp_dispatch := dispatch; otp_verify := verify;
     otp_retain_only := retain_only |}.

(** ** The session's verification store *)
Record VerificationStore (P : Type) := mkVStore {
  vs_otp : P; session_id : string;
  subjects_by_challenge : list (string * VerificationSubject);
  proofs_by_challenge : list (string * VerificationProof) }.
Arguments mkVStore {P}. Arguments vs_otp {P}. Arguments session_id {P}.
Arguments subjects_by_challenge {P}. Arguments proofs_by_challenge {P}.

(** The provider's clock reading and uuid, the store's own clock reading and the proof's uuid. *)
Record store_env := mkStoreEnv { se_otp : otp_env; se_now : Z; se_proof_id : string }.

Section store.
Context {P : Type} `{OtpPort P}.
Implicit Types (s : VerificationStore P).

Definition new_store (otp : P) (session : string) : res (VerificationStore P) :=
  let session_id := strip session in
  requires (nonempty session_id) ValueError "verification store requires a session id" ;;
  mret (mkVStore otp session_id [] []).

Definition tenant_id s : string := otp_tenant_id (vs_otp s).

(** A call of the provider. *)
Definition with_otp {A} (m : M P A) : M (VerificationStore P) A := λ s,
  match m (vs_otp s) with
  | (p, r) => (mkVStore p (session_id s) (subjects_by_challenge s) (proofs_by_challenge s), r)
  end.
Definition set_subjects f s : VerificationStore P :=
  mkVStore (vs_otp s) (session_id s) (f (subjects_by_challenge s)) (proofs_by_challenge s).
Definition set_proofs f s : VerificationStore P :=
  mkVStore (vs_otp s) (session_id s) (subjects_by_challenge s) (f (proofs_by_challenge s)).

Definition proof_is_fresh (now : Z) (proof : VerificationProof) : bool :=
  now <? vp_expires_at_epoch proof.

Definition proof_satisfies (now : Z) (proof : VerificationProof) (subject : VerificationSubject)
    (required_level : Z) (exact_purpose : bool) : bool :=
  proof_is_fresh now proof && (required_level <=? raised_to proof)
  && String.eqb (vp_tenant_id proof) (vs_tenant_id subject)
  && String.eqb (vp_session_id proof) (vs_session_id subject)
  && String.eqb (vp_customer_ref proof) (vs_customer_ref subject)
  && String.eqb (vp_factor_ref proof) (vs_factor_ref subject)
  && (negb exact_purpose || bool_decide (vp_purpose proof = vs_purpose subject)).

Definition grants (now : Z) s : list VerificationProof :=
  filter (λ p, proof_is_fresh now p = true) (dvalues (proofs_by_challenge s)).

Definition INITIAL_LEVEL : Z := 1.
(** [max(..., default=_INITIAL_LEVEL)] *)
Definition current_level (now : Z) s : Z :=
  match raised_to <$> grants now s with
  | [] => INITIAL_LEVEL
  | l :: ls => foldl Z.max l ls
  end.

Definition dispatch_otp (env : store_env) (subject : VerificationSubject)
    (dispatch_idempotency_key : string) (max_attempts : Z) : M (VerificationStore P) OtpChallenge :=
  s ← get;
  require (String.eqb (vs_tenant_id subject) (tenant_id s)
           && String.eqb (vs_session_id subject) (session_id s)) ValueError
    "OTP subject does not match the verification store" ;;
  request ← lift (make_OtpChallengeRequest subject dispatch_idempotency_key max_attempts);
  challenge ← with_otp (otp_dispatch (se_otp env) request);
  s ← get;
  require (match dget (challenge_id challenge) (subjects_by_challenge s) with
           | Some existing => bool_decide (existing = subject)
           | None => true
           end) VerificationContractError "OTP challenge changed authority scope" ;;
  modify (set_subjects (dset (challenge_id challenge) subject)) ;;
  mret challenge.

Definition subject s (customer factor : string) (purpose : VerificationPurpose)
    : res VerificationSubject :=
  make_VerificationSubject (tenant_id s) (session_id s) customer factor purpose.

Definition verify_otp (env : store_env) (id code : string)
    : M (VerificationStore P) OtpVerificationStatus :=
  let spoken := spoken_digits code in
  s ← get;
  match dget id (subjects_by_challenge s) with
  | None => raise VerificationContractError "OTP verification used an undispatched challenge"
  | Some expected_subject =>
      outcome ← with_otp (otp_verify (se_otp env) id (if nonempty spoken then spoken else strip code));
      s ← get;
      require (String.eqb (ov_challenge_id outcome) id) VerificationContractError
        "OTP provider returned the wrong challenge" ;;
      require (bool_decide (dget id (subjects_by_challenge s) = Some expected_subject))
        VerificationContractError "OTP challenge authority changed during verification" ;;
      if negb (bool_decide (ov_status outcome = VERIFIED)) then mret (ov_status outcome)
      else
        require (bool_decide (ov_subject outcome = Some expected_subject)) VerificationContractError
          "OTP proof changed authority scope" ;;
        match ov_verified_at_epoch outcome, ov_proof_expires_at_epoch outcome with
        | Some verified, Some expires =>
            (if dmem id (proofs_by_challenge s) then mret tt
             else
               proof ← lift (make_VerificationProof (se_proof_id env)
                 (vs_tenant_id expected_subject) (vs_session_id expected_subject)
                 (vs_customer_ref expected_subject) (vs_factor_ref expected_subject)
                 (vs_purpose expected_subject) id verified expires);
               modify (set_proofs (dset id proof))) ;;
            s ← get;
            match dget id (proofs_by_challenge s) with
            | None => raise KeyError ""
            | Some proof => mret (if proof_is_fresh (se_now env) proof then VERIFIED else EXPIRED)
            end
        | _, _ => raise VerificationContractError "OTP proof changed authority scope"
        end
  end.

Definition proof_for_challenge (now : Z) s (id : string) : option VerificationProof :=
  match dget id (proofs_by_challenge s) with
  | Some proof => if proof_is_fresh now proof then Some proof else None
  | None => None
  end.

Definition authorization_satisfies (now : Z) s (subject : VerificationSubject) (required_level : Z)
    : bool :=
  existsb (λ proof, proof_satisfies now proof subject required_level false)
    (dvalues (proofs_by_challenge s)).

Definition challenge_satisfies (now : Z) s (id : string) (subject : VerificationSubject)
    (required_level : Z) : bool :=
  bool_decide (dget id (subjects_by_challenge s) = Some subject)
  && match dget id (proofs_by_challenge s) with
     | Some proof => proof_satisfies now proof subject required_level true
     | None => false
     end.

Definition store_retain_only (env : store_env) (proof : VerificationProof)
    : M (VerificationStore P) unit :=
  s ← get;
  require (bool_decide (dget (vp_challenge_id proof) (proofs_by_challenge s) = Some proof)
           && proof_is_fresh (se_now env) proof) ValueError
    "verification proof was not earned by this session" ;;
  match dget (vp_challenge_id proof) (subjects_by_challenge s) with
  | None => raise KeyError ""
  | Some subject =>
      with_otp (otp_retain_only (session_id s) [vp_challenge_id proof]) ;;
      modify (set_subjects (λ _, [(vp_challenge_id proof, subject)])) ;;
      modify (set_proofs (λ _, [(vp_challenge_id proof, proof)]))
  end.

Definition clear : M (VerificationStore P) unit :=
  s ← get;
  with_otp (otp_retain_only (session_id s) []) ;;
  modify (set_subjects (λ _, [])) ;;
  modify (set_proofs (λ _, [])).
End store.

(** ** Risk *)
Record RiskProvider := mkRisk { rk_tenant_id : string; flagged : bool }.
Definition new_risk_provider (tenant : string) (flagged : bool) : res RiskProvider :=
  tenant_id ← Guest.normalize_tenant_id tenant "risk provider";
  mret (mkRisk tenant_id flagged).
Definition assess (p : RiskProvider) (subject : RiskSubject) : res RiskDecision :=
  requires (String.eqb (match subject with inl v => vs_tenant_id v | inr o => or_tenant_id o end)
              (rk_tenant_id p)) ValueError "risk subject tenant does not match the provider" ;;
  mret (if flagged p then BLOCKED else CLEAR).
