(* ===== verification/OtpProvider.v ===== *)
(** * The OTP provider keeps its limits

    The provider's state invariant, the bound on guesses per challenge, the
    idempotency of dispatch, and the isolation of sessions in the cleanup. *)

From S2P Require Import Prelude PyText OrderScope Regex Spoken Verification.
Local Open Scope Z_scope.
Local Open Scope list_scope.

(** What holds of the state of one challenge. *)
Record challenge_ok (p : OtpProvider) (id : string) (st : ChallengeState) : Prop := {
  co_text : nonempty (strip id) = true;
  co_id : challenge_id (cst_challenge st) = id;
  co_tenant : vs_tenant_id (rq_subject (cst_request st)) = op_tenant_id p;
  co_factor : dmem (vs_factor_ref (rq_subject (cst_request st))) (codes_by_factor_ref p) = true;
  co_index : dget (rq_dispatch_idempotency_key (cst_request st)) (challenge_by_dispatch p) = Some id;
  co_proof : match cst_verified_at_epoch st, cst_proof_expires_at_epoch st with
             | Some v, Some e => 0 ≤ v < e | None, None => True | _, _ => False end }.

Record provider_ok (p : OtpProvider) : Prop := {
  po_ttl : 0 < proof_ttl_seconds p;
  po_index_nodup : NoDup (dkeys (challenge_by_dispatch p));
  po_nodup : NoDup (dkeys (challenges p));
  po_index : ∀ key id, dget key (challenge_by_dispatch p) = Some id →
    ∃ st, dget id (challenges p) = Some st ∧ rq_dispatch_idempotency_key (cst_request st) = key;
  po_challenges : ∀ id st, dget id (challenges p) = Some st → challenge_ok p id st }.

(** A clock that has started and a uuid that is not in use. *)
Definition env_ok (p : OtpProvider) (env : otp_env) : Prop :=
  0 ≤ env_now env ∧ nonempty (strip (env_fresh env)) = true ∧
  dget (env_fresh env) (challenges p) = None.

(** ** What each operation does *)
Definition fresh_state (env : otp_env) (request : OtpChallengeRequest) (p : OtpProvider)
    : ChallengeState :=
  mkState request (mkChallenge (env_fresh env) (env_now env + challenge_ttl_seconds p))
    (rq_max_attempts request) None None.

Lemma dispatch_cases env request p p' r :
  dispatch env request p = (p', r) →
  (p' = p ∧ ∀ c, r = inr c → ∃ id st,
     dget (rq_dispatch_idempotency_key request) (challenge_by_dispatch p) = Some id ∧
     dget id (challenges p) = Some st ∧ cst_request st = request ∧ c = cst_challenge st) ∨
  (vs_tenant_id (rq_subject request) = op_tenant_id p ∧
   dmem (vs_factor_ref (rq_subject request)) (codes_by_factor_ref p) = true ∧
   dget (rq_dispatch_idempotency_key request) (challenge_by_dispatch p) = None ∧
   r = inr (cst_challenge (fresh_state env request p)) ∧
   p' = set_challenges (dset (rq_dispatch_idempotency_key request) (env_fresh env))
          (dset (env_fresh env) (fresh_state env request p)) (dispatch_count p + 1) p).
Proof.
  unfold dispatch. munfold_goal.
  destruct (String.eqb_spec (vs_tenant_id (rq_subject request)) (op_tenant_id p)) as [Ht|];
    simpl; [|intros; simplify_eq; by left].
  destruct (dmem _ (codes_by_factor_ref p)) eqn:Hf; simpl; [|intros; simplify_eq; by left].
  destruct (dget _ (challenge_by_dispatch p)) as [id|] eqn:Hk.
  - destruct (dget id (challenges p)) as [st|] eqn:Hg; [|intros; simplify_eq; by left].
    case_bool_decide as Hr; simpl; intros; simplify_eq; left; [|done]. split; [done|].
    intros c [= <-]. eauto 10.
  - intros; simplify_eq. right. done.
Qed.

(** The expected code of a challenge. *)
Definition expected (p : OtpProvider) (st : ChallengeState) : option string :=
  dget (vs_factor_ref (rq_subject (cst_request st))) (codes_by_factor_ref p).

Lemma make_verification_ok id status subj v e o :
  make_OtpVerification id status subj v e = inr o → o = mkVerification id status subj v e.
Proof. unfold make_OtpVerification. munfold. destruct (_ && _); intros; by simplify_eq. Qed.

Lemma outcome_status id status : status ≠ VERIFIED →
  outcome id status = inr (mkVerification id status None None None).
Proof.
  intros H. unfold outcome, make_OtpVerification, verified_outcome_is_complete. cbn.
  by rewrite decide_False.
Qed.

(** Every answer: nothing changes, or an attempt is spent. *)
Lemma verify_cases env id code p p' r :
  verify env id code p = (p', r) →
  (p' = p ∧ ∀ o, r = inr o →
     ov_challenge_id o = id ∧
     match ov_status o with
     | UNKNOWN => dget id (challenges p) = None
     | VERIFIED => ∃ st v e, dget id (challenges p) = Some st ∧ cst_verified_at_epoch st = Some v ∧
         cst_proof_expires_at_epoch st = Some e ∧ expected p st = Some (strip code) ∧
         o = mkVerification id VERIFIED (Some (rq_subject (cst_request st))) (Some v) (Some e)
     | MISMATCHED => False
     | EXHAUSTED => ∃ st, dget id (challenges p) = Some st ∧ cst_verified_at_epoch st = None ∧
         cst_remaining_attempts st ≤ 0
     | EXPIRED => ∃ st, dget id (challenges p) = Some st ∧ cst_verified_at_epoch st = None
     | CONFLICT => ∃ st v, dget id (challenges p) = Some st ∧ cst_verified_at_epoch st = Some v
     end) ∨
  (∃ st, dget id (challenges p) = Some st ∧ cst_verified_at_epoch st = None ∧
     env_now env < expires_at_epoch (cst_challenge st) ∧ 0 < cst_remaining_attempts st ∧
     let left_ := cst_remaining_attempts st - 1 in
     (expected p st ≠ Some (strip code) ∧
      p' = set_state id (mkState (cst_request st) (cst_challenge st) left_ None
             (cst_proof_expires_at_epoch st)) p ∧
      r = outcome id (if left_ =? 0 then EXHAUSTED else MISMATCHED)) ∨
     (expected p st = Some (strip code) ∧
      let e := env_now env + proof_ttl_seconds p in
      let st' := mkState (cst_request st) (cst_challenge st) left_ (Some (env_now env)) (Some e) in
      p' = set_state id st' p ∧
      r = make_OtpVerification id VERIFIED (Some (rq_subject (cst_request st)))
            (Some (env_now env)) (Some e))).
Proof.
  unfold verify, expected. munfold_goal. intros H.
  destruct (dget id (challenges p)) as [st|] eqn:Hg.
  2:{ left. simplify_eq. split; [done|]. intros o Ho. unfold outcome in Ho.
      apply make_verification_ok in Ho as ->. done. }
  destruct (dget _ (codes_by_factor_ref p)) as [code'|] eqn:Hc; [|left; by simplify_eq].
  destruct (cst_verified_at_epoch st) as [v|] eqn:Hv.
  { left. destruct (String.eqb_spec (strip code) code') as [->|]; simpl in H.
    - destruct (cst_proof_expires_at_epoch st) as [e|] eqn:He; simplify_eq; [|done].
      split; [done|]. intros o Ho. apply make_verification_ok in Ho as ->. simpl. split; [done|].
      exists st, v, e. by rewrite Hc.
    - simplify_eq. split; [done|]. intros o Ho. apply make_verification_ok in Ho as ->.
      simpl. eauto. }
  destruct (_ <=? env_now env) eqn:Hexp; bools.
  { left. simplify_eq. split; [done|]. intros o Ho. apply make_verification_ok in Ho as ->. simpl. eauto. }
  destruct (cst_remaining_attempts st <=? 0) eqn:Hrem; bools.
  { left. simplify_eq. split; [done|]. intros o Ho. apply make_verification_ok in Ho as ->. simpl. eauto. }
  right. exists st. split_and!; try done.
  destruct (String.eqb_spec (strip code) code') as [Heq|Hne]; simpl in H; simplify_eq.
  - right. rewrite Hc. split_and!; [done| |done].
    unfold set_state, set_challenges. cbn. by rewrite dset_dset.
  - left. rewrite Hc. split_and!; [congruence|done|done].
Qed.

(** ** The invariant is kept *)
Lemma dispatch_ok env request p :
  env_ok p env → provider_ok p → provider_ok (dispatch env request p).1.
Proof.
  intros (Hnow & Htext & Hfresh) Hok. destruct (dispatch env request p) as [p' r] eqn:E.
  apply dispatch_cases in E as [[-> _]|(Ht & Hf & Hk & _ & ->)]; [done|].
  destruct Hok as [Httl Hn1 Hn2 Hi Hc].
  split; cbn [fst set_challenges proof_ttl_seconds challenge_by_dispatch challenges]; auto with pydict.
  - intros key id. rewrite dget_dset. case_decide as Hkey.
    + intros [= <-]. exists (fresh_state env request p). by rewrite dget_dset_eq.
    + intros (st & Hst & Hkst)%Hi. exists st. split; [|done].
      rewrite dget_dset_ne; [done|]. intros <-. congruence.
  - intros id st. rewrite dget_dset. case_decide as Hid.
    + subst id. intros [= <-]. split; cbn; try done. by rewrite dget_dset_eq.
    + intros [H0 H1 H2 H3 H4 H5]%Hc. split; cbn; try done.
      rewrite dget_dset_ne; [done|]. intros Heq. rewrite Heq in Hk. congruence.
Qed.

Lemma set_state_ok id st st' p :
  provider_ok p → dget id (challenges p) = Some st → cst_request st' = cst_request st →
  cst_challenge st' = cst_challenge st →
  match cst_verified_at_epoch st', cst_proof_expires_at_epoch st' with
  | Some v, Some e => 0 ≤ v < e | None, None => True | _, _ => False end →
  provider_ok (set_state id st' p).
Proof.
  intros [Httl Hn1 Hn2 Hi Hc] Hg Hreq Hch Hproof.
  split; cbn [set_state set_challenges proof_ttl_seconds challenge_by_dispatch challenges];
    auto with pydict.
  - intros key id' (st0 & Hst0 & Hkey)%Hi. rewrite dget_dset. case_decide; [subst|by eauto].
    exists st'. split; [done|]. rewrite Hg in Hst0. simplify_eq. by rewrite Hreq.
  - intros id' st0. rewrite dget_dset. case_decide; [subst|by intros []%Hc; split].
    intros [= <-]. destruct (Hc _ _ Hg) as [H0 H1 H2 H3 H4 _].
    split; rewrite ?Hreq, ?Hch; done.
Qed.

Lemma verify_ok env id code p : 0 ≤ env_now env → provider_ok p → provider_ok (verify env id code p).1.
Proof.
  intros Hnow Hok. destruct (verify env id code p) as [p' r] eqn:E.
  apply verify_cases in E as [[-> _]|(st & Hg & Hv & _ & _ & Hres)]; [done|].
  pose proof (co_proof _ _ _ (po_challenges _ Hok _ _ Hg)) as Hp. rewrite Hv in Hp.
  destruct Hres as [(_ & -> & _)|(_ & -> & _)]; (eapply set_state_ok; [done..|]); cbn; [done|].
  pose proof (po_ttl _ Hok). lia.
Qed.

Lemma NoDup_fmap_filter_keys {V} (P : string * V → Prop) `{∀ x, Decision (P x)} (l : list (string * V)) :
  NoDup (dkeys l) → NoDup (filter P l).*1.
Proof.
  unfold dkeys. induction l as [|[k v] l IH]; [constructor|]. rewrite fmap_cons.
  intros [Hk Hnd]%NoDup_cons. rewrite filter_cons. case_decide; [|by apply IH].
  rewrite fmap_cons. apply NoDup_cons. split; [|by apply IH].
  intros ([k' v'] & Hk' & [_ Hin]%list_elem_of_filter)%list_elem_of_fmap. apply Hk.
  apply list_elem_of_fmap. by exists (k', v').
Qed.

(** One pass of the cleanup loop. *)
Definition drop_challenge (id : string) (st : ChallengeState) (p : OtpProvider) : OtpProvider :=
  set_challenges (dpop (rq_dispatch_idempotency_key (cst_request st))) (dpop id) (dispatch_count p) p.

Lemma discard_cons id ids st p : provider_ok p → dget id (challenges p) = Some st →
  discard (id :: ids) p = discard ids (drop_challenge id st p).
Proof.
  intros Hok Hg. simpl. rewrite Hg. unfold drop_challenge, set_challenges.
  rewrite decide_True; [done|]. apply (co_index _ _ _ (po_challenges _ Hok _ _ Hg)).
Qed.

Lemma drop_challenge_ok id st p : provider_ok p → dget id (challenges p) = Some st →
  provider_ok (drop_challenge id st p).
Proof.
  intros Hok Hg. pose proof (co_index _ _ _ (po_challenges _ Hok _ _ Hg)) as Hkey.
  destruct Hok as [Httl Hn1 Hn2 Hi Hc].
  split; cbn [drop_challenge set_challenges proof_ttl_seconds challenge_by_dispatch challenges];
    auto with pydict.
  - intros key id'. rewrite dget_dpop by done. case_decide as Hk; [done|].
    intros (st' & Hst' & Hk')%Hi. exists st'. split; [|done].
    rewrite dget_dpop by done. rewrite decide_False; [done|]. intros <-. congruence.
  - intros id' st'. rewrite dget_dpop by done. case_decide as Hid; [done|].
    intros Hst'. destruct (Hc _ _ Hst') as [H0 H1 H2 H3 H4 H5]. split; cbn; try done.
    rewrite dget_dpop by done. rewrite decide_False; [done|]. intros Heq. rewrite Heq in Hkey. congruence.
Qed.

Lemma discard_spec ids p : provider_ok p → NoDup ids →
  (∀ id, id ∈ ids → is_Some (dget id (challenges p))) →
  provider_ok (discard ids p) ∧
  (∀ id, dget id (challenges (discard ids p)) = if decide (id ∈ ids) then None else dget id (challenges p)) ∧
  op_tenant_id (discard ids p) = op_tenant_id p ∧
  codes_by_factor_ref (discard ids p) = codes_by_factor_ref p.
Proof.
  revert p. induction ids as [|id ids IH]; intros p Hok Hnd Hin; [by split_and!|].
  apply NoDup_cons in Hnd as [Hid Hnd].
  destruct (Hin id) as [st Hst]; [set_solver|].
  rewrite (discard_cons id ids st) by done.
  pose proof (drop_challenge_ok id st p Hok Hst) as Hok'.
  assert (∀ id', dget id' (challenges (drop_challenge id st p)) =
    if decide (id = id') then None else dget id' (challenges p)) as Hget.
  { intros id'. cbn. apply dget_dpop, Hok. }
  destruct (IH _ Hok' Hnd) as (H1 & H2 & H3 & H4).
  { intros id' Hin'. rewrite Hget, decide_False; [apply Hin; set_solver|]. by intros ->. }
  split_and!; [done| |by rewrite H3|by rewrite H4].
  intros id'. rewrite H2, Hget.
  destruct (decide (id' ∈ ids)), (decide (id = id')), (decide (id' ∈ id :: ids)); set_solver.
Qed.

Lemma length_omap_le {A B} (f : A → option B) l : (length (omap f l) ≤ length l)%nat.
Proof.
  induction l as [|x l IH]; [done|]. cbn. destruct (f x); cbn in *; change (list_omap _ _ f l) with (omap f l); lia.
Qed.

(** An [omap] as long as its argument maps every element. *)
Lemma omap_all {A B} (f : A → option B) l : length (omap f l) = length l →
  ∀ x, x ∈ l → ∃ y, f x = Some y ∧ y ∈ omap f l.
Proof.
  induction l as [|x l IH]; [set_solver|]. pose proof (length_omap_le f l) as Hle. cbn.
  destruct (f x) as [y|] eqn:Hx; cbn; change (list_omap _ _ f l) with (omap f l).
  - intros [= Hl] z [->|Hin]%elem_of_cons; [exists y; set_solver|].
    destruct (IH Hl z Hin) as (y' & ? & ?). exists y'. set_solver.
  - intros Hl. lia.
Qed.

Lemma retain_cases sid ids p p' r :
  retain_only sid ids p = (p', r) →
  (p' = p ∧ ∃ e, r = inl e) ∨
  (r = inr tt ∧ strip sid ≠ "" ∧
   (∀ id, id ∈ ids → ∃ st, dget id (challenges p) = Some st ∧ session_of st = strip sid) ∧
   p' = discard (dkeys (filter (λ kv, session_of kv.2 = strip sid ∧ kv.1 ∉ fromkeys ids)
          (challenges p))) p).
Proof.
  unfold retain_only. munfold_goal.
  destruct (nonempty (strip sid)) eqn:Hs; simpl; [|intros; simplify_eq; left; eauto].
  destruct (Nat.eqb_spec (length (omap (λ id, dget id (challenges p)) (fromkeys ids)))
    (length (fromkeys ids))) as [Hlen|]; simpl; [|intros; simplify_eq; left; eauto].
  destruct (forallb _ _) eqn:Hall; simpl; [|intros; simplify_eq; left; eauto].
  intros [= <- <-]. right. split_and!; [done|by apply nonempty_spec| |done].
  intros id Hid.
  destruct (omap_all (λ id, dget id (challenges p)) _ Hlen id) as (st & Hst & Hin);
    [by apply elem_of_fromkeys|].
  exists st. split; [done|]. rewrite forallb_forall in Hall.
  apply String.eqb_eq, Hall, list_elem_of_In, Hin.
Qed.

(** The cleanup drops exactly the session's other challenges. *)
Lemma retain_spec sid ids p p' : provider_ok p → retain_only sid ids p = (p', inr tt) →
  provider_ok p' ∧
  ∀ id, dget id (challenges p') =
    match dget id (challenges p) with
    | Some st => if decide (session_of st = strip sid ∧ id ∉ ids) then None else Some st
    | None => None
    end.
Proof.
  intros Hok [(_ & e & ?)|(_ & _ & _ & ->)]%retain_cases; [done|].
  set (gone := dkeys _).
  assert (∀ id, id ∈ gone ↔ ∃ st, dget id (challenges p) = Some st ∧ session_of st = strip sid ∧ id ∉ ids)
    as Hgone.
  { intros id. unfold gone, dkeys. rewrite list_elem_of_fmap. split.
    - intros ([id' st] & -> & [[Hs Hn] Hin]%list_elem_of_filter). exists st. cbn in *.
      rewrite elem_of_fromkeys in Hn. split_and!; [|done|done]. apply elem_dget; [apply Hok|done].
    - intros (st & Hst & Hs & Hn). exists (id, st). split; [done|]. apply list_elem_of_filter.
      cbn. rewrite elem_of_fromkeys. split; [done|]. by apply dget_Some_elem. }
  destruct (discard_spec gone p) as (H1 & H2 & _ & _); [done| | |].
  - unfold gone, dkeys. apply NoDup_fmap_filter_keys. apply Hok.
  - intros id (st & Hst & _)%Hgone. by exists st.
  - split; [done|]. intros id. rewrite H2.
    destruct (dget id (challenges p)) as [st|] eqn:Hst; [|by case_decide].
    destruct (decide (id ∈ gone)) as [Hin|Hin].
    + apply Hgone in Hin as (st' & Hst' & Hs). simplify_eq. by rewrite decide_True.
    + rewrite decide_False; [done|]. intros Hs. apply Hin, Hgone. eauto.
Qed.

(** ** Runs of provider calls *)
Inductive ProviderCall :=
  | CallDispatch (env : otp_env) (request : OtpChallengeRequest)
  | CallVerify (env : otp_env) (id code : string)
  | CallRetain (sid : string) (ids : list string).

Definition run_provider_call (c : ProviderCall) (p : OtpProvider) : OtpProvider :=
  match c with
  | CallDispatch env request => (dispatch env request p).1
  | CallVerify env id code => (verify env id code p).1
  | CallRetain sid ids => (retain_only sid ids p).1
  end.
Definition run_provider (cs : list ProviderCall) (p : OtpProvider) : OtpProvider :=
  foldl (λ p c, run_provider_call c p) p cs.

(** The status a call reports for the challenge. *)
Definition status_of_call (id : string) (c : ProviderCall) (p : OtpProvider)
    : option OtpVerificationStatus :=
  match c with
  | CallVerify env id' code =>
      if String.eqb id' id then
        match (verify env id' code p).2 with inr o => Some (ov_status o) | inl _ => None end
      else None
  | _ => None
  end.
Fixpoint statuses (id : string) (cs : list ProviderCall) (p : OtpProvider)
    : list OtpVerificationStatus :=
  match cs with
  | [] => []
  | c :: cs' => option_list (status_of_call id c p) ++ statuses id cs' (run_provider_call c p)
  end.

(** The clock has started and uuids are not reused, neither now nor for [id]. *)
Definition call_ok (id : string) (c : ProviderCall) (p : OtpProvider) : Prop :=
  match c with
  | CallDispatch env _ => env_ok p env ∧ env_fresh env ≠ id
  | CallVerify env _ _ => 0 ≤ env_now env
  | CallRetain _ _ => True
  end.
Fixpoint calls_ok (id : string) (cs : list ProviderCall) (p : OtpProvider) : Prop :=
  match cs with
  | [] => True
  | c :: cs' => call_ok id c p ∧ calls_ok id cs' (run_provider_call c p)
  end.

Lemma run_provider_call_ok id c p : call_ok id c p → provider_ok p → provider_ok (run_provider_call c p).
Proof.
  intros Hc Hok. destruct c as [env request|env id' code|sid ids]; simpl in *.
  - apply dispatch_ok; [apply Hc|done].
  - by apply verify_ok.
  - destruct (retain_only sid ids p) as [p' r] eqn:E.
    apply retain_cases in E as E'. destruct E' as [(-> & _)|(-> & _)]; [done|].
    by apply retain_spec in E as [? _].
Qed.

(** The life of one challenge: its state before, what is reported, its state after. *)
Inductive life : option ChallengeState → option OtpVerificationStatus → option ChallengeState → Prop :=
  | life_other st : life st None st
  | life_discarded st : life st None None
  | life_unknown : life None (Some UNKNOWN) None
  | life_verified st v status :
      cst_verified_at_epoch st = Some v → status = VERIFIED ∨ status = CONFLICT →
      life (Some st) (Some status) (Some st)
  | life_expired st : cst_verified_at_epoch st = None → life (Some st) (Some EXPIRED) (Some st)
  | life_exhausted st :
      cst_verified_at_epoch st = None → cst_remaining_attempts st ≤ 0 →
      life (Some st) (Some EXHAUSTED) (Some st)
  | life_wrong st st' :
      cst_verified_at_epoch st = None → 0 < cst_remaining_attempts st →
      cst_verified_at_epoch st' = None → cst_remaining_attempts st' = cst_remaining_attempts st - 1 →
      life (Some st)
        (Some (if cst_remaining_attempts st - 1 =? 0 then EXHAUSTED else MISMATCHED)) (Some st')
  | life_right st st' v :
      cst_verified_at_epoch st = None → 0 < cst_remaining_attempts st →
      cst_verified_at_epoch st' = Some v → life (Some st) (Some VERIFIED) (Some st').

Lemma verify_life env id code p : 0 ≤ env_now env → provider_ok p →
  life (dget id (challenges p))
    (match (verify env id code p).2 with inr o => Some (ov_status o) | inl _ => None end)
    (dget id (challenges (verify env id code p).1)).
Proof.
  intros Hnow Hok. destruct (verify env id code p) as [p' r] eqn:E. cbn [fst snd].
  apply verify_cases in E as [[-> Ho]|(st & Hg & Hv & Hexp & Hrem & Hres)].
  - destruct r as [e|o]; [constructor|]. destruct (Ho o eq_refl) as [_ Hs].
    destruct (ov_status o) eqn:Hst.
    + destruct Hs as (st & v & e & -> & Hv & _). eapply life_verified; eauto.
    + done.
    + destruct Hs as (st & Hg & Hv). rewrite Hg. by constructor.
    + destruct Hs as (st & Hg & Hv & Hr). rewrite Hg. by constructor.
    + rewrite Hs. constructor.
    + destruct Hs as (st & v & -> & Hv). eapply life_verified; eauto.
  - assert (∀ st', life (Some st)
      (match r with inr o => Some (ov_status o) | inl _ => None end) (Some st') →
      p' = set_state id st' p → life (dget id (challenges p))
      (match r with inr o => Some (ov_status o) | inl _ => None end) (dget id (challenges p'))) as Hset.
    { intros st' Hl ->. rewrite Hg. cbn. by rewrite dget_dset_eq. }
    destruct Hres as [(_ & -> & ->)|(_ & -> & ->)]; (eapply Hset; [|done]).
    + rewrite outcome_status by (by destruct (_ =? 0)). by apply life_wrong.
    + pose proof (po_ttl _ Hok). unfold make_OtpVerification, verified_outcome_is_complete. cbn.
      rewrite (proj2 (Z.leb_le _ _)), (proj2 (Z.leb_le _ _)), (proj2 (Z.ltb_lt _ _)) by lia. cbn.
      by eapply life_right.
Qed.

Lemma call_life id c p : provider_ok p → call_ok id c p →
  life (dget id (challenges p)) (status_of_call id c p) (dget id (challenges (run_provider_call c p))).
Proof.
  intros Hok Hc. destruct c as [env request|env id' code|sid ids]; simpl in *.
  - destruct (dispatch env request p) as [p' r] eqn:E.
    apply dispatch_cases in E as [[-> _]|(_ & _ & _ & _ & ->)]; [constructor|]. cbn.
    rewrite dget_dset_ne by apply Hc. constructor.
  - destruct (String.eqb_spec id' id) as [->|Hne]; [by apply verify_life|].
    destruct (verify env id' code p) as [p' r] eqn:E.
    apply verify_cases in E as [[-> _]|(st & _ & _ & _ & _ & [(_ & -> & _)|(_ & -> & _)])];
      [constructor|..]; cbn; rewrite dget_dset_ne by done; constructor.
  - destruct (retain_only sid ids p) as [p' r] eqn:E.
    apply retain_cases in E as E'. destruct E' as [(-> & _)|(-> & _)]; [constructor|].
    apply retain_spec in E as [_ E]; [|done]. cbn. rewrite E.
    destruct (dget id (challenges p)); [|constructor]. case_decide; constructor.
Qed.

(** *** Budget *)
Definition budget (st : option ChallengeState) : nat :=
  match st with
  | Some st => match cst_verified_at_epoch st with
               | None => Z.to_nat (cst_remaining_attempts st)
               | Some _ => 0
               end
  | None => 0
  end.
Definition is_verified (st : option ChallengeState) : bool :=
  match st with Some st => isSome (cst_verified_at_epoch st) | None => false end.
Definition is_dead (st : option ChallengeState) : bool :=
  match st with
  | Some st => negb (isSome (cst_verified_at_epoch st)) && (cst_remaining_attempts st <=? 0)
  | None => true
  end.

(** The guesses a report stands for. *)
Definition guesses (status : OtpVerificationStatus) : nat :=
  match status with MISMATCHED => 1 | _ => 0 end.

Lemma life_budget st o st' : life st o st' →
  (match o with Some s => guesses s | None => 0 end + budget st' ≤ budget st)%nat ∧
  (o = Some VERIFIED → is_verified st = false → (1 + budget st' ≤ budget st)%nat) ∧
  (is_verified st = false → o ≠ Some VERIFIED → is_verified st' = false) ∧
  (st = None → o ≠ Some VERIFIED ∧ st' = None).
Proof.
  destruct 1 as [st|st| |st v status Hv Hs|st Hv|st Hv Hr|st st' Hv Hr Hv' Hr'|st st' v Hv Hr Hv'];
    unfold budget, is_verified; rewrite ?Hv, ?Hv'; simpl;
    try (split_and!; [lia|done..]; fail).
  - by destruct Hs as [-> | ->].
  - rewrite Hr'. destruct (_ =? 0); simpl; split_and!; try done; lia.
  - split_and!; [lia|lia|done..].
Qed.

Lemma life_dead st o st' : life st o st' →
  (o = Some EXHAUSTED → is_dead st' = true) ∧
  (is_dead st = true → o ≠ Some VERIFIED ∧ is_dead st' = true).
Proof.
  destruct 1 as [st|st| |st v status Hv Hs|st Hv|st Hv Hr|st st' Hv Hr Hv' Hr'|st st' v Hv Hr Hv'];
    unfold is_dead; rewrite ?Hv, ?Hv'; simpl; try (split; done).
  - destruct Hs as [-> | ->]; done.
  - split; [|done]. intros _. by apply Z.leb_le.
  - rewrite Hr'. split.
    + destruct (_ =? 0) eqn:Hz; [|done]. intros _. bools. apply Z.leb_le. lia.
    + intros Hd. bools. lia.
  - split; [done|]. intros Hd. bools. lia.
Qed.

Definition mismatches (l : list OtpVerificationStatus) : nat :=
  length (filter (λ s, s = MISMATCHED) l).

Lemma statuses_cons id c cs p :
  statuses id (c :: cs) p =
  option_list (status_of_call id c p) ++ statuses id cs (run_provider_call c p).
Proof. done. Qed.

Lemma mismatches_cons o l :
  mismatches (option_list o ++ l) =
  (match o with Some s => guesses s | None => 0 end + mismatches l)%nat.
Proof. unfold mismatches. rewrite filter_app, length_app. by destruct o as [[]|]. Qed.

Lemma statuses_budget id cs p : provider_ok p → calls_ok id cs p →
  (mismatches (statuses id cs p) +
   (if bool_decide (VERIFIED ∈ statuses id cs p) && negb (is_verified (dget id (challenges p)))
    then 1 else 0) ≤ budget (dget id (challenges p)))%nat ∧
  (dget id (challenges p) = None → VERIFIED ∉ statuses id cs p).
Proof.
  revert p. induction cs as [|c cs IH]; intros p Hok.
  { intros _. split; [|set_solver]. rewrite bool_decide_eq_false_2 by set_solver. apply Nat.le_0_l. }
  intros [Hc Hcs]. rewrite statuses_cons, mismatches_cons.
  pose proof (call_life id c p Hok Hc) as Hl.
  destruct (IH _ (run_provider_call_ok id c p Hc Hok) Hcs) as [IHb IHn].
  destruct (life_budget _ _ _ Hl) as (Hb & Hver & Hkeep & Hnone). clear IH.
  set (o := status_of_call id c p) in *. set (st := dget id (challenges p)) in *.
  set (st' := dget id (challenges (run_provider_call c p))) in *.
  set (l := statuses id cs (run_provider_call c p)) in *.
  split.
  - destruct (is_verified st) eqn:Hst; cbn [negb]; rewrite ?andb_false_r, ?andb_true_r.
    { destruct (bool_decide _ && _); lia. }
    destruct (decide (o = Some VERIFIED)) as [Ho|Ho].
    + specialize (Hver Ho eq_refl). rewrite Ho. cbn [guesses].
      destruct (_ && _); destruct (bool_decide _); lia.
    + rewrite (Hkeep eq_refl Ho) in IHb. cbn [negb] in IHb. rewrite andb_true_r in IHb.
      assert (bool_decide (VERIFIED ∈ option_list o ++ l) = bool_decide (VERIFIED ∈ l)) as ->; [|lia].
      apply bool_decide_ext. rewrite elem_of_app. destruct o as [s|]; cbn; set_solver.
  - intros Hst. destruct (Hnone Hst) as [Ho Hst']. specialize (IHn Hst').
    destruct o as [s|]; cbn; set_solver.
Qed.

Lemma statuses_dead id cs p : provider_ok p → calls_ok id cs p →
  is_dead (dget id (challenges p)) = true → VERIFIED ∉ statuses id cs p.
Proof.
  revert p. induction cs as [|c cs IH]; intros p Hok; [set_solver|]. intros [Hc Hcs] Hd.
  destruct (life_dead _ _ _ (call_life id c p Hok Hc)) as [_ Hdead]. destruct (Hdead Hd) as [Ho Hd'].
  specialize (IH _ (run_provider_call_ok id c p Hc Hok) Hcs Hd'). rewrite statuses_cons.
  destruct (status_of_call id c p) as [s|]; cbn; set_solver.
Qed.

Lemma statuses_exhausted id cs p before after : provider_ok p → calls_ok id cs p →
  statuses id cs p = before ++ EXHAUSTED :: after → VERIFIED ∉ after.
Proof.
  revert p before. induction cs as [|c cs IH]; intros p before Hok; [by destruct before|].
  intros [Hc Hcs]. rewrite statuses_cons.
  pose proof (run_provider_call_ok id c p Hc Hok) as Hok'.
  destruct (life_dead _ _ _ (call_life id c p Hok Hc)) as [Hex _].
  destruct (status_of_call id c p) as [s|]; [|by apply IH].
  destruct before as [|b before]; cbn; intros [= -> Heq]; [|by eapply IH].
  rewrite <-Heq. by apply statuses_dead, Hex.
Qed.

(** The guess budget of a challenge: over any later provider calls - other dispatches, cleanups,
    checks of any codes at any times - the wrong codes reported as mismatches and the first
    acceptance together number at most the attempts the challenge was dispatched with, a
    discarded challenge is never accepted, and once the attempts are reported as exhausted the
    challenge is never accepted, not even with the right code. *)
Theorem otp_guess_budget p id st cs :
  provider_ok p → dget id (challenges p) = Some st → cst_verified_at_epoch st = None →
  calls_ok id cs p →
  (mismatches (statuses id cs p) + (if bool_decide (VERIFIED ∈ statuses id cs p) then 1 else 0) ≤
    Z.to_nat (cst_remaining_attempts st))%nat ∧
  (∀ before after, statuses id cs p = before ++ EXHAUSTED :: after → VERIFIED ∉ after).
Proof.
  intros Hok Hg Hv Hcs. split.
  - destruct (statuses_budget id cs p Hok Hcs) as [Hb _]. rewrite Hg in Hb. cbn in Hb.
    rewrite Hv, andb_true_r in Hb. exact Hb.
  - intros before after. by apply statuses_exhausted.
Qed.

(** A challenge that is kept is the one that was dispatched. *)
Lemma call_keeps id c p st' : provider_ok p → call_ok id c p →
  dget id (challenges (run_provider_call c p)) = Some st' →
  ∃ st, dget id (challenges p) = Some st ∧ cst_request st' = cst_request st ∧
    cst_challenge st' = cst_challenge st.
Proof.
  intros Hok Hc. destruct c as [env request|env id' code|sid ids]; simpl in *.
  - destruct (dispatch env request p) as [p' r] eqn:E.
    apply dispatch_cases in E as [[-> _]|(_ & _ & _ & _ & ->)]; cbn; [by eauto|].
    rewrite dget_dset_ne by apply Hc. by eauto.
  - destruct (verify env id' code p) as [p' r] eqn:E.
    apply verify_cases in E as [[-> _]|(st & Hg & _ & _ & _ & Hres)]; cbn; [by eauto|].
    destruct Hres as [(_ & -> & _)|(_ & -> & _)]; cbn; rewrite dget_dset;
      (case_decide; [subst; intros [= <-]; by eauto|by eauto]).
  - destruct (retain_only sid ids p) as [p' r] eqn:E.
    apply retain_cases in E as E'. destruct E' as [(-> & _)|(-> & _)]; cbn; [by eauto|].
    apply retain_spec in E as [_ E]; [|done]. rewrite E.
    destruct (dget id (challenges p)); [|done]. case_decide; [done|]. by eauto.
Qed.

Lemma run_keeps id cs p st' : provider_ok p → calls_ok id cs p →
  dget id (challenges (run_provider cs p)) = Some st' →
  provider_ok (run_provider cs p) ∧
  ∃ st, dget id (challenges p) = Some st ∧ cst_request st' = cst_request st ∧
    cst_challenge st' = cst_challenge st.
Proof.
  revert p. induction cs as [|c cs IH]; intros p Hok; [by eauto|]. intros [Hc Hcs] Hg. simpl in Hg.
  destruct (IH _ (run_provider_call_ok id c p Hc Hok) Hcs Hg) as (Hok' & st & Hst & Hr & Hch).
  split; [done|]. apply call_keeps in Hst as (st0 & Hst0 & Hr0 & Hch0); [|done..].
  exists st0. by rewrite Hr, Hch.
Qed.

(** The challenge a dispatch returns is kept under its own id with the request. *)
Lemma dispatch_stored p env request c : provider_ok p → (dispatch env request p).2 = inr c →
  ∃ st, dget (challenge_id c) (challenges (dispatch env request p).1) = Some st ∧
    cst_request st = request ∧ cst_challenge st = c.
Proof.
  intros Hok. destruct (dispatch env request p) as [p' r] eqn:E. cbn. intros ->.
  apply dispatch_cases in E as [[-> Hc]|(_ & _ & _ & Hc & ->)].
  - destruct (Hc c eq_refl) as (id & st & _ & Hst & Hr & ->). exists st.
    by rewrite (co_id _ _ _ (po_challenges _ Hok _ _ Hst)).
  - injection Hc as ->. exists (fresh_state env request p). cbn. by rewrite dget_dset_eq.
Qed.

(** Dispatch is idempotent: while a challenge is kept, the same request is answered with that
    challenge again and changes nothing, and a different request under its key never gets a
    challenge and changes nothing. *)
Theorem otp_dispatch_idempotent p cs env request c :
  provider_ok p → env_ok p env → (dispatch env request p).2 = inr c →
  calls_ok (challenge_id c) cs (dispatch env request p).1 →
  let later := run_provider cs (dispatch env request p).1 in
  is_Some (dget (challenge_id c) (challenges later)) → ∀ env',
  dispatch env' request later = (later, inr c) ∧
  (∀ request', rq_dispatch_idempotency_key request' = rq_dispatch_idempotency_key request →
     request' ≠ request → ∃ e, dispatch env' request' later = (later, inl e)).
Proof.
  intros Hok Henv Hc Hcs later [st Hst] env'.
  destruct (dispatch_stored _ _ _ _ Hok Hc) as (st0 & Hst0 & Hr0 & Hc0).
  destruct (run_keeps _ _ _ _ (dispatch_ok _ _ _ Henv Hok) Hcs Hst) as (Hlater & st1 & Hst1 & Hr & Hch).
  assert (cst_request st = request ∧ cst_challenge st = c) as [Hreq Hcl] by (split; congruence).
  destruct (po_challenges _ Hlater _ _ Hst) as [_ _ Ht Hf Hi _]. rewrite Hreq in *.
  fold later in Ht, Hf, Hi, Hst. clearbody later. split.
  - unfold dispatch. munfold_goal. rewrite Ht, String.eqb_refl, Hf. simpl.
    rewrite Hi, Hst. rewrite bool_decide_eq_true_2 by done. by rewrite Hcl.
  - intros request' Hkey Hne. unfold dispatch. munfold_goal.
    destruct (String.eqb _ _); simpl; [|by eauto].
    destruct (dmem (vs_factor_ref (rq_subject request')) _); simpl; [|by eauto].
    rewrite Hkey, Hi, Hst, bool_decide_eq_false_2 by congruence. eexists. reflexivity.
Qed.

(** Cleanup is confined to its session and loses nothing else: a cleanup that succeeds drops
    exactly the named session's challenges outside the retained set, leaves every other
    challenge as it was, and keeps dispatch keys and challenges in one-to-one correspondence; a
    cleanup that retains an unknown challenge or one of another session is refused and changes
    nothing. *)
Theorem otp_cleanup_confined sid ids p p' r :
  provider_ok p → retain_only sid ids p = (p', r) →
  provider_ok p' ∧
  (r = inr tt →
   (∀ id, id ∈ ids → ∃ st, dget id (challenges p') = Some st ∧ session_of st = strip sid) ∧
   ∀ id, dget id (challenges p') =
     match dget id (challenges p) with
     | Some st => if decide (session_of st = strip sid ∧ id ∉ ids) then None else Some st
     | None => None
     end) ∧
  (r ≠ inr tt → p' = p) ∧
  (∀ id, id ∈ ids → (∀ st, dget id (challenges p) = Some st → session_of st ≠ strip sid) →
   r ≠ inr tt).
Proof.
  intros Hok E. apply retain_cases in E as E'.
  destruct E' as [(-> & e & ->)|(-> & Hs & Hall & Hp)]; [by split_and!|].
  destruct (retain_spec _ _ _ _ Hok E) as [Hok' Hget]. split_and!; [done| |done|].
  - intros _. split; [|done]. intros id Hid. destruct (Hall id Hid) as (st & Hst & Hss).
    exists st. rewrite Hget, Hst, decide_False by naive_solver. done.
  - intros id Hid Hno. destruct (Hall id Hid) as (st & Hst & Hss). by apply (Hno st) in Hst.
Qed.

(** ** Witnesses *)
Definition demo_provider : OtpProvider :=
  mkProvider "acme" [("f-1", "482913")] 300 600 [] [] 0.
Definition demo_request : OtpChallengeRequest :=
  mkRequest (mkSubject "acme" "s-1" "cust-1" "f-1" purpose_refund) "d-1" 3.
Definition demo_dispatched : OtpProvider := (dispatch (mkEnv 100 "ch-1") demo_request demo_provider).1.

Lemma demo_provider_ok : provider_ok demo_provider.
Proof. split; cbn; try done; constructor. Qed.

Lemma demo_dispatched_ok : provider_ok demo_dispatched.
Proof. apply dispatch_ok; [by split_and!|apply demo_provider_ok]. Qed.

Definition demo_guesses : list ProviderCall :=
  [CallVerify (mkEnv 110 "") "ch-1" "000000"; CallVerify (mkEnv 111 "") "ch-1" "000001";
   CallVerify (mkEnv 112 "") "ch-1" "000002"; CallVerify (mkEnv 113 "") "ch-1" "482913"].

Lemma otp_guess_budget_witness :
  statuses "ch-1" demo_guesses demo_dispatched = [MISMATCHED; MISMATCHED; EXHAUSTED; EXHAUSTED] ∧
  VERIFIED ∉ [EXHAUSTED].
Proof.
  split; [by vm_compute|].
  eapply (otp_guess_budget demo_dispatched "ch-1" _ demo_guesses demo_dispatched_ok);
    [reflexivity|reflexivity|by split_and!|].
  instantiate (1 := [MISMATCHED; MISMATCHED]). by vm_compute.
Defined.

Lemma otp_dispatch_idempotent_witness :
  let later := run_provider demo_guesses demo_dispatched in
  dispatch (mkEnv 200 "ch-2") demo_request later = (later, inr (mkChallenge "ch-1" 400)).
Proof.
  apply (otp_dispatch_idempotent demo_provider demo_guesses (mkEnv 100 "ch-1") demo_request
    (mkChallenge "ch-1" 400)); [apply demo_provider_ok|by split_and!|by vm_compute|by split_and!|].
  eexists. by vm_compute.
Defined.

Lemma otp_cleanup_confined_witness :
  (retain_only "s-2" [] demo_dispatched).2 = inr tt ∧
  is_Some (dget "ch-1" (challenges (retain_only "s-2" [] demo_dispatched).1)) ∧
  (retain_only "s-2" ["ch-1"] demo_dispatched).2 ≠ inr tt.
Proof.
  split_and!; [by vm_compute| |].
  - destruct (otp_cleanup_confined "s-2" [] demo_dispatched _ _ demo_dispatched_ok (surjective_pairing _))
      as (_ & Hget & _). rewrite (proj2 (Hget eq_refl)). eexists. by vm_compute.
  - destruct (otp_cleanup_confined "s-2" ["ch-1"] demo_dispatched _ _ demo_dispatched_ok
      (surjective_pairing _)) as (_ & _ & _ & Hno).
    apply (Hno "ch-1"); [set_solver|]. intros st. vm_compute. intros [= <-]. done.
Defined.
