(* ===== verification/ProofStore.v ===== *)
(** * Where verification authority comes from

    The verification store over any provider: a proof is only ever minted from
    the provider's own VERIFIED outcome for the subject this session
    dispatched.  Over a provider that keeps the port's contract, which the
    fixture provider does, checking a dispatched challenge never fails. *)

From S2P Require Import Prelude PyText OrderScope Regex Spoken Verification OtpProvider.
Local Open Scope Z_scope.
Local Open Scope list_scope.

(** The tenant of a provider is set once. *)
Class OtpTenantStable (P : Type) `{OtpPort P} := {
  dispatch_tenant : ∀ env rq (p : P), otp_tenant_id (otp_dispatch env rq p).1 = otp_tenant_id p;
  verify_tenant : ∀ env id code (p : P), otp_tenant_id (otp_verify env id code p).1 = otp_tenant_id p;
  retain_tenant : ∀ sid ids (p : P), otp_tenant_id (otp_retain_only sid ids p).1 = otp_tenant_id p }.

(** The contract of the port: the challenges in force and their subjects. *)
Class OtpPortLaws (P : Type) `{OtpTenantStable P} := {
  otp_ok : P → Prop;
  otp_env_ok : P → otp_env → Prop;
  otp_scope : P → string → option VerificationSubject;
  otp_scope_text : ∀ p id subj, otp_ok p → otp_scope p id = Some subj → nonempty (strip id) = true;
  dispatch_lawful : ∀ env rq p p' r, otp_ok p → otp_env_ok p env → otp_dispatch env rq p = (p', r) →
    otp_ok p' ∧ (∀ id subj, otp_scope p id = Some subj → otp_scope p' id = Some subj) ∧
    ∀ c, r = inr c → otp_scope p' (challenge_id c) = Some (rq_subject rq);
  verify_lawful : ∀ env id code p p' r, otp_ok p → 0 ≤ env_now env → otp_verify env id code p = (p', r) →
    otp_ok p' ∧ (∀ id', otp_scope p' id' = otp_scope p id') ∧
    (is_Some (otp_scope p id) → ∃ o, r = inr o ∧ ov_challenge_id o = id ∧
       (ov_status o = VERIFIED → ov_subject o = otp_scope p id ∧
          ∃ v e, ov_verified_at_epoch o = Some v ∧ ov_proof_expires_at_epoch o = Some e ∧ 0 ≤ v < e));
  retain_lawful : ∀ sid ids p p', otp_ok p → otp_retain_only sid ids p = (p', inr tt) →
    otp_ok p' ∧ ∀ id, id ∈ ids → otp_scope p' id = otp_scope p id;
  retain_refused : ∀ sid ids p p' e, otp_retain_only sid ids p = (p', inl e) → p' = p }.

(** ** The fixture provider keeps the contract *)
#[export] Instance OtpProvider_stable : OtpTenantStable OtpProvider.
Proof.
  split; cbn.
  - intros env rq p. destruct (dispatch env rq p) as [p' r] eqn:E.
    by apply dispatch_cases in E as [[-> _]|(_ & _ & _ & _ & ->)].
  - intros env id code p. destruct (verify env id code p) as [p' r] eqn:E.
    by apply verify_cases in E as [[-> _]|(st & _ & _ & _ & _ & [(_ & -> & _)|(_ & -> & _)])].
  - intros sid ids p. destruct (retain_only sid ids p) as [p' r] eqn:E.
    apply retain_cases in E as [[-> _]|(_ & _ & _ & ->)]; [done|]. cbn.
    generalize (dkeys (filter (λ kv, session_of kv.2 = strip sid ∧ kv.1 ∉ fromkeys ids) (challenges p))).
    intros l. revert p. induction l as [|id l IH]; intros p; simpl; [done|].
    destruct (dget id (challenges p)); [|done]. by rewrite IH.
Qed.

Definition provider_scope (p : OtpProvider) (id : string) : option VerificationSubject :=
  (λ st, rq_subject (cst_request st)) <$> dget id (challenges p).

Lemma verify_total env id code p st : provider_ok p → 0 ≤ env_now env →
  dget id (challenges p) = Some st →
  ∃ o, (verify env id code p).2 = inr o ∧ ov_challenge_id o = id ∧
    (ov_status o = VERIFIED → ov_subject o = Some (rq_subject (cst_request st)) ∧
       ∃ v e, ov_verified_at_epoch o = Some v ∧ ov_proof_expires_at_epoch o = Some e ∧ 0 ≤ v < e).
Proof.
  intros Hok Hnow Hg. destruct (po_challenges _ Hok _ _ Hg) as [_ _ _ Hf _ Hp].
  pose proof (po_ttl _ Hok) as Httl.
  assert (∀ s, s ≠ VERIFIED → ∃ o, outcome id s = inr o ∧ ov_challenge_id o = id ∧
    (ov_status o = VERIFIED → ov_subject o = Some (rq_subject (cst_request st)) ∧
       ∃ v e, ov_verified_at_epoch o = Some v ∧ ov_proof_expires_at_epoch o = Some e ∧ 0 ≤ v < e)) as Hout.
  { intros s Hs. rewrite outcome_status by done. eexists. by split_and!. }
  assert (∀ v e, 0 ≤ v < e → ∃ o, make_OtpVerification id VERIFIED (Some (rq_subject (cst_request st)))
    (Some v) (Some e) = inr o ∧ ov_challenge_id o = id ∧
    (ov_status o = VERIFIED → ov_subject o = Some (rq_subject (cst_request st)) ∧
       ∃ v e, ov_verified_at_epoch o = Some v ∧ ov_proof_expires_at_epoch o = Some e ∧ 0 ≤ v < e)) as Hver.
  { intros v e He. unfold make_OtpVerification, verified_outcome_is_complete. cbn.
    rewrite (proj2 (Z.leb_le _ _)), (proj2 (Z.leb_le _ _)), (proj2 (Z.ltb_lt _ _)) by lia. cbn.
    eexists. split; [done|]. cbn. eauto 10. }
  unfold verify. munfold_goal. rewrite Hg. unfold dmem in Hf.
  destruct (dget _ (codes_by_factor_ref p)) as [code'|]; [|done].
  destruct (cst_verified_at_epoch st) as [v|], (cst_proof_expires_at_epoch st) as [e|]; try done.
  - destruct (String.eqb _ _); simpl; [by apply Hver|by apply Hout].
  - destruct (_ <=? _); simpl; [by apply Hout|].
    destruct (cst_remaining_attempts st <=? 0); simpl; [by apply Hout|].
    destruct (String.eqb _ _); simpl; [apply Hver; lia|apply Hout; by destruct (_ =? 0)].
Qed.

#[export] Program Instance OtpProvider_laws : OtpPortLaws OtpProvider :=
  {| otp_ok := provider_ok; otp_env_ok := env_ok; otp_scope := provider_scope |}.
Next Obligation.
  intros p id subj Hok. unfold provider_scope. destruct (dget id (challenges p)) eqn:Hg; [|done].
  intros _. apply (co_text _ _ _ (po_challenges _ Hok _ _ Hg)).
Qed.
Next Obligation.
  intros env rq p p' r Hok Henv E. cbn in E. pose proof (dispatch_ok env rq p Henv Hok) as Hok'.
  pose proof (dispatch_stored p env rq) as Hst. rewrite E in Hok', Hst. cbn in Hok', Hst.
  split; [done|]. split.
  - intros id subj. unfold provider_scope.
    apply dispatch_cases in E as [[-> _]|(_ & _ & _ & _ & ->)]; [done|]. cbn.
    destruct Henv as (_ & _ & Hfresh). rewrite dget_dset. case_decide; [subst|done].
    by rewrite Hfresh.
  - intros c ->. unfold provider_scope. destruct (Hst c Hok eq_refl) as (st & -> & <- & _). done.
Qed.
Next Obligation.
  intros env id code p p' r Hok Hnow E. cbn in E.
  pose proof (verify_ok env id code p Hnow Hok) as Hok'.
  pose proof (verify_total env id code p) as Htot. rewrite E in Hok', Htot. cbn in Hok', Htot.
  split; [done|]. split.
  - intros id'. unfold provider_scope.
    apply verify_cases in E as [[-> _]|(st & Hg & _ & _ & _ & [(_ & -> & _)|(_ & -> & _)])]; [done|..];
      cbn; rewrite dget_dset; (case_decide; [subst; by rewrite Hg|done]).
  - unfold provider_scope. intros [subj Hs]. destruct (dget id (challenges p)) as [st|]; [|done].
    by apply Htot.
Qed.
Next Obligation.
  intros sid ids p p' Hok E. cbn in E.
  apply retain_spec in E as E'; [|done]. destruct E' as [Hok' Hget]. split; [done|].
  intros id Hid. unfold provider_scope. rewrite Hget. destruct (dget id (challenges p)); [|done].
  by rewrite decide_False by naive_solver.
Qed.
Next Obligation.
  intros sid ids p p' e E. cbn in E. by apply retain_cases in E as [[-> _]|(? & _)].
Qed.

(** ** Runs of the store *)
Section runs.
Context {P : Type} `{OtpTenantStable P}.
Implicit Types (s : VerificationStore P).

Inductive StoreCall :=
  | VDispatch (env : store_env) (subj : VerificationSubject) (key : string) (attempts : Z)
  | VVerify (env : store_env) (id code : string)
  | VRetain (env : store_env) (proof : VerificationProof)
  | VClear.

Definition run_store_call (c : StoreCall) s : VerificationStore P :=
  match c with
  | VDispatch env subj key attempts => (dispatch_otp env subj key attempts s).1
  | VVerify env id code => (verify_otp env id code s).1
  | VRetain env proof => (store_retain_only env proof s).1
  | VClear => (Verification.clear s).1
  end.

(** The provider's own VERIFIED outcomes during a call. *)
Definition provider_said (c : StoreCall) s : list (string * VerificationSubject) :=
  match c with
  | VVerify env id code =>
      let spoken := spoken_digits code in
      match (otp_verify (se_otp env) id (if nonempty spoken then spoken else strip code) (vs_otp s)).2 with
      | inr o =>
          match ov_subject o with
          | Some subj => if decide (ov_status o = VERIFIED) then [(ov_challenge_id o, subj)] else []
          | None => []
          end
      | inl _ => []
      end
  | _ => []
  end.

(** Only validated subjects are dispatched. *)
Definition subject_valid (c : StoreCall) : Prop :=
  match c with VDispatch _ subj _ _ => VerificationSubject_valid subj = true | _ => True end.

(** A store built for a session and used, with what the provider verified on the way. *)
Inductive store_run : VerificationStore P → list (string * VerificationSubject) → Prop :=
  | run_new otp session s : new_store otp session = inr s → store_run s []
  | run_call c s said : store_run s said → subject_valid c →
      store_run (run_store_call c s) (provider_said c s ++ said).

(** What the store keeps about its challenges and proofs. *)
Record store_ok s (said : list (string * VerificationSubject)) : Prop := {
  so_subjects : ∀ id subj, dget id (subjects_by_challenge s) = Some subj →
    vs_tenant_id subj = tenant_id s ∧ vs_session_id subj = session_id s ∧
    VerificationSubject_valid subj = true;
  so_proofs : ∀ id proof, dget id (proofs_by_challenge s) = Some proof →
    ∃ subj, dget id (subjects_by_challenge s) = Some subj ∧ (id, subj) ∈ said ∧
      vp_tenant_id proof = vs_tenant_id subj ∧ vp_session_id proof = vs_session_id subj ∧
      vp_customer_ref proof = vs_customer_ref subj ∧ vp_factor_ref proof = vs_factor_ref subj ∧
      vp_purpose proof = vs_purpose subj;
  so_nodup : NoDup (dkeys (proofs_by_challenge s)) }.

Lemma store_ok_more s said more : store_ok s said → store_ok s (more ++ said).
Proof.
  intros [Hs Hp Hn]. split; [done| |done]. intros id proof Hg.
  destruct (Hp _ _ Hg) as (subj & ? & ? & ?). exists subj. split_and!; [done|set_solver|naive_solver..].
Qed.

(** Only the provider has moved. *)
Lemma store_ok_otp s p' said : store_ok s said → otp_tenant_id p' = otp_tenant_id (vs_otp s) →
  store_ok (mkVStore p' (session_id s) (subjects_by_challenge s) (proofs_by_challenge s)) said.
Proof. intros [Hs Hp Hn] Ht. split; unfold tenant_id in *; cbn; rewrite ?Ht; done. Qed.

Lemma text_strip x : text_ok x = true → strip x = x ∧ nonempty x = true.
Proof. unfold text_ok. intros. bools. split; [by apply String.eqb_eq|done]. Qed.

Lemma make_proof_fields proof_id subj id v e proof : VerificationSubject_valid subj = true →
  make_VerificationProof proof_id (vs_tenant_id subj) (vs_session_id subj) (vs_customer_ref subj)
    (vs_factor_ref subj) (vs_purpose subj) id v e = inr proof →
  vp_tenant_id proof = vs_tenant_id subj ∧ vp_session_id proof = vs_session_id subj ∧
  vp_customer_ref proof = vs_customer_ref subj ∧ vp_factor_ref proof = vs_factor_ref subj ∧
  vp_purpose proof = vs_purpose subj ∧ vp_expires_at_epoch proof = e.
Proof.
  unfold VerificationSubject_valid, make_VerificationProof, non_empty_text. intros Hv. bools. munfold.
  repeat match goal with H : text_ok _ = true |- _ => apply text_strip in H as [-> ->] end.
  intros. mcases. by split_and!.
Qed.

(** The store after a dispatch: the provider has moved and the subject may be recorded. *)
Lemma dispatch_otp_cases env subj key n s s' r :
  dispatch_otp env subj key n s = (s', r) →
  s' = s ∨
  (vs_tenant_id subj = tenant_id s ∧ vs_session_id subj = session_id s ∧
   ∃ rq p' r', rq_subject rq = subj ∧ otp_dispatch (se_otp env) rq (vs_otp s) = (p', r') ∧
     let s1 := mkVStore p' (session_id s) (subjects_by_challenge s) (proofs_by_challenge s) in
     (s' = s1 ∨
      ∃ c, r' = inr c ∧ s' = set_subjects (dset (challenge_id c) subj) s1 ∧
        (∀ old, dget (challenge_id c) (subjects_by_challenge s) = Some old → old = subj))).
Proof.
  unfold dispatch_otp, make_OtpChallengeRequest, non_empty_text, with_otp. munfold_goal.
  destruct (String.eqb_spec (vs_tenant_id subj) (tenant_id s)); simpl; [|intros; simplify_eq; by left].
  destruct (String.eqb_spec (vs_session_id subj) (session_id s)); simpl; [|intros; simplify_eq; by left].
  destruct (nonempty (strip key)); simpl; [|intros; simplify_eq; by left].
  destruct (1 <=? n); simpl; [|intros; simplify_eq; by left].
  destruct (otp_dispatch _ _ _) as [p' [err|c]] eqn:E; intros.
  - simplify_eq. right. split_and!; [done..|]. eexists _, p', _. split_and!; [|exact E|by left]. done.
  - right. split_and!; [done..|]. eexists _, p', _. split_and!; [|exact E|]; [done|].
    simpl in *. destruct (dget (challenge_id c) (subjects_by_challenge s)) as [old|] eqn:Hg.
    + case_bool_decide; simplify_eq; [|by left]. right. exists c. split_and!; [done..|]. intros ? ?; congruence.
    + simplify_eq. right. exists c. split_and!; [done..|]. intros ? ?; congruence.
Qed.

(** The store after a check: the provider has moved and one proof may be recorded. *)
Lemma verify_otp_cases env id code s s' r :
  verify_otp env id code s = (s', r) →
  s' = s ∨
  ∃ p' r' subj, dget id (subjects_by_challenge s) = Some subj ∧
    otp_verify (se_otp env) id
      (if nonempty (spoken_digits code) then spoken_digits code else strip code) (vs_otp s) = (p', r') ∧
    let s1 := mkVStore p' (session_id s) (subjects_by_challenge s) (proofs_by_challenge s) in
    (s' = s1 ∨
     ∃ o v e proof, r' = inr o ∧ ov_challenge_id o = id ∧ ov_status o = VERIFIED ∧
       ov_subject o = Some subj ∧ dget id (proofs_by_challenge s) = None ∧
       make_VerificationProof (se_proof_id env) (vs_tenant_id subj) (vs_session_id subj)
         (vs_customer_ref subj) (vs_factor_ref subj) (vs_purpose subj) id v e = inr proof ∧
       s' = set_proofs (dset id proof) s1).
Proof.
  unfold verify_otp, with_otp. munfold_goal.
  destruct (dget id (subjects_by_challenge s)) as [subj|] eqn:Hg; [|intros; simplify_eq; by left].
  destruct (otp_verify _ _ _ _) as [p' [err|o]] eqn:E; intros.
  { simplify_eq. right. eexists p', _, subj. split_and!; [done|done|by left]. }
  right. eexists p', _, subj. split_and!; [done|done|]. simpl in *.
  destruct (String.eqb_spec (ov_challenge_id o) id); simplify_eq/=; [|by left].
  rewrite bool_decide_eq_true_2 in * by done.
  case_bool_decide as Hst; simplify_eq/=; [|by left].
  case_bool_decide as Hsu; simplify_eq/=; [|by left].
  destruct (ov_verified_at_epoch o) as [v|], (ov_proof_expires_at_epoch o) as [e|]; simplify_eq/=;
    try by left.
  unfold dmem in *. destruct (dget (ov_challenge_id o) (proofs_by_challenge s)) as [pr|] eqn:Hp; simplify_eq/=.
  - rewrite Hp in *. simplify_eq. by left.
  - destruct (make_VerificationProof _ _ _ _ _ _ _ _ _) as [e'|proof] eqn:Hm; simplify_eq/=; [by left|].
    rewrite dget_dset_eq in *. simplify_eq. right. eexists o, _, _, proof. split_and!; try done; exact Hm.
Qed.

Lemma run_store_call_ok c s said : subject_valid c → store_ok s said →
  store_ok (run_store_call c s) (provider_said c s ++ said).
Proof.
  intros Hc Hok. destruct c as [env subj key n|env id code|env proof|]; cbn [run_store_call].
  - destruct (dispatch_otp env subj key n s) as [s' r] eqn:E. cbn.
    apply dispatch_otp_cases in E as [->|(Ht & Hs & rq & p' & r' & Hrq & Ep & Hcase)]; [done|].
    pose proof (dispatch_tenant (se_otp env) rq (vs_otp s)) as Hten. rewrite Ep in Hten. cbn in Hten.
    destruct Hcase as [->|(c & _ & -> & Hold)].
    + by apply store_ok_otp.
    + apply (store_ok_otp s p') in Hok as [Hsu Hpr Hn]; [|exact Hten].
      split; cbn [set_subjects subjects_by_challenge proofs_by_challenge]; [| |exact Hn].
      * intros id subj'. rewrite dget_dset. case_decide; [|apply Hsu]. intros [= <-].
        unfold tenant_id in *. cbn in *. rewrite Hten. by split_and!.
      * intros id proof (subj' & Hg & Hrest)%Hpr. exists subj'. split; [|done].
        cbn in Hg. rewrite dget_dset. case_decide; [subst|done]. by rewrite (Hold _ Hg).
  - destruct (verify_otp env id code s) as [s' r] eqn:E. cbn [fst].
    apply verify_otp_cases in E as [->|(p' & r' & subj & Hg & Ep & Hcase)]; [by apply store_ok_more|].
    pose proof (verify_tenant (se_otp env) id
      (if nonempty (spoken_digits code) then spoken_digits code else strip code) (vs_otp s)) as Hten.
    rewrite Ep in Hten. cbn in Hten.
    destruct Hcase as [->|(o & v & e & proof & -> & Hid & Hst & Hsubj & Hnone & Hm & ->)].
    { apply store_ok_more. by apply store_ok_otp. }
    assert (provider_said (VVerify env id code) s = [(id, subj)]) as ->.
    { cbn. rewrite Ep. cbn. by rewrite Hsubj, Hst, Hid. }
    apply (store_ok_more _ _ [(id, subj)]) in Hok.
    apply (store_ok_otp s p') in Hok as [Hsu Hpr Hn]; [|exact Hten]. cbn in Hsu, Hpr.
    destruct (Hsu _ _ Hg) as (_ & _ & Hvalid).
    split; cbn [set_proofs subjects_by_challenge proofs_by_challenge]; [exact Hsu| |auto with pydict].
    intros id' proof'. rewrite dget_dset. case_decide; [subst|apply Hpr]. intros [= <-].
    apply make_proof_fields in Hm as (H1 & H2 & H3 & H4 & H5 & _); [|done].
    exists subj. split_and!; try done. set_solver.
  - cbn. unfold store_retain_only, with_otp. munfold_goal.
    destruct (_ && _) eqn:Hp; simpl; [|done]. bools.
    destruct (dget (vp_challenge_id proof) (subjects_by_challenge s)) as [subj|] eqn:Hg; [|done].
    pose proof (retain_tenant (session_id s) [vp_challenge_id proof] (vs_otp s)) as Hten.
    destruct (otp_retain_only _ _ _) as [p' [e|[]]] eqn:Ep; simpl; cbn in Hten; [by apply store_ok_otp|].
    apply (store_ok_otp s p') in Hok as [Hsu Hpr Hn]; [|exact Hten].
    split; cbn [set_proofs set_subjects subjects_by_challenge proofs_by_challenge].
    + intros id subj'. simpl. case_decide as Hid; [|done]. intros [= <-]. apply (Hsu _ _ Hg).
    + intros id proof'. simpl. case_decide as Hid; [|done]. intros [= <-]. rewrite <-Hid.
      match goal with Hp : dget _ (proofs_by_challenge s) = Some proof |- _ => apply Hpr in Hp as
        (subj' & Hg' & Hrest) end.
      cbn in Hg'. rewrite Hg in Hg'. injection Hg' as <-. by exists subj.
    + repeat constructor. set_solver.
  - cbn. unfold Verification.clear, with_otp. munfold_goal.
    pose proof (retain_tenant (session_id s) [] (vs_otp s)) as Hten.
    destruct (otp_retain_only _ _ _) as [p' [e|[]]] eqn:Ep; simpl; cbn in Hten; [by apply store_ok_otp|].
    split; cbn; [done|done|constructor].
Qed.

Lemma store_run_ok s said : store_run s said → store_ok s said.
Proof.
  induction 1 as [otp session s Hn|c s said _ IH Hc]; [|by apply run_store_call_ok].
  unfold new_store in Hn. munfold. destruct (nonempty (strip session)); simplify_eq.
  split; cbn; [done|done|constructor].
Qed.

(** C28 Verification authority is earned: however a session uses its verification store, and
    whatever the provider answers, authority for a subject is only found when the subject is
    this tenant's and this session's, no more than level 2 is asked for, and the provider
    itself reported a challenge as verified for a subject with the same customer and factor
    that this store had dispatched; and the check of one challenge only succeeds when the
    provider verified exactly this subject for it. *)
Theorem verification_authority_earned s said now subj level :
  store_run s said →
  (authorization_satisfies now s subj level = true →
   vs_tenant_id subj = tenant_id s ∧ vs_session_id subj = session_id s ∧ level ≤ 2 ∧
   ∃ id earned, (id, earned) ∈ said ∧ vs_customer_ref earned = vs_customer_ref subj ∧
     vs_factor_ref earned = vs_factor_ref subj ∧
     dget id (subjects_by_challenge s) = Some earned) ∧
  (∀ id, challenge_satisfies now s id subj level = true → (id, subj) ∈ said ∧
   current_level now s = 2).
Proof.
  intros [Hsu Hpr Hn]%store_run_ok. split.
  - unfold authorization_satisfies. intros (proof & Hin & Hs)%existsb_exists.
    apply list_elem_of_In in Hin. unfold dvalues in Hin.
    apply list_elem_of_fmap in Hin as ([id pr] & -> & Hin). cbn in Hs.
    destruct (Hpr id pr) as (earned & Hg & Hsaid & H1 & H2 & H3 & H4 & _); [by apply elem_dget|].
    destruct (Hsu _ _ Hg) as (Ht & Hse & _).
    unfold proof_satisfies, raised_to in Hs. bools.
    repeat match goal with H : (_ =? _)%string = true |- _ => apply String.eqb_eq in H end.
    split_and!; [congruence|congruence|done|]. exists id, earned. split_and!; congruence.
  - intros id. unfold challenge_satisfies. intros [Hg Hp]%andb_true_iff. bools.
    destruct (dget id (proofs_by_challenge s)) as [proof|] eqn:Hproof; [|done].
    destruct (Hpr _ _ Hproof) as (earned & Hg' & Hsaid & _). rewrite Hg in Hg'. simplify_eq.
    split; [done|]. unfold proof_satisfies in Hp. bools.
    assert (proof ∈ grants now s) as Hin.
    { unfold grants. apply list_elem_of_filter. split; [done|]. unfold dvalues.
      apply list_elem_of_fmap. exists (id, proof). split; [done|]. by apply dget_Some_elem. }
    unfold current_level. destruct (grants now s) as [|g gs]; [set_solver|]. simpl.
    assert (∀ l : list VerificationProof, foldl Z.max 2 (raised_to <$> l) = 2) as ->; [|done].
    induction l as [|x l IH]; [done|]. exact IH.
Qed.
End runs.

(** ** Over a lawful provider *)
Section lawful.
Context {P : Type} `{OtpPortLaws P}.
Implicit Types (s : VerificationStore P).

(** The store and its provider agree on every challenge in use. *)
Definition agree s : Prop :=
  otp_ok (vs_otp s) ∧ ∀ id subj, dget id (subjects_by_challenge s) = Some subj →
    otp_scope (vs_otp s) id = Some subj ∧ VerificationSubject_valid subj = true.

Definition store_env_ok s (env : store_env) : Prop :=
  otp_env_ok (vs_otp s) (se_otp env) ∧ 0 ≤ env_now (se_otp env) ∧
  nonempty (strip (se_proof_id env)) = true.

Lemma make_proof_total proof_id subj id v e : VerificationSubject_valid subj = true →
  nonempty (strip proof_id) = true → nonempty (strip id) = true → 0 ≤ v < e →
  ∃ proof, make_VerificationProof proof_id (vs_tenant_id subj) (vs_session_id subj)
    (vs_customer_ref subj) (vs_factor_ref subj) (vs_purpose subj) id v e = inr proof.
Proof.
  unfold VerificationSubject_valid, make_VerificationProof, non_empty_text.
  intros Hv Hp Hid He. bools. munfold_goal. rewrite Hp, Hid.
  repeat match goal with H : text_ok _ = true |- _ => apply text_strip in H as [-> ->] end.
  rewrite (proj2 (Z.leb_le _ _)), (proj2 (Z.leb_le _ _)), (proj2 (Z.ltb_lt _ _)) by lia. simpl. eauto.
Qed.

(** A check of a dispatched challenge: the provider's verdict, and what the store makes of it. *)
Lemma verify_otp_returns s env id code subj :
  agree s → 0 ≤ env_now (se_otp env) → nonempty (strip (se_proof_id env)) = true →
  dget id (subjects_by_challenge s) = Some subj →
  let s' := (verify_otp env id code s).1 in
  ∃ status o p', (verify_otp env id code s).2 = inr status ∧ agree s' ∧
    otp_verify (se_otp env) id
      (if nonempty (spoken_digits code) then spoken_digits code else strip code) (vs_otp s) = (p', inr o) ∧
    vs_otp s' = p' ∧ subjects_by_challenge s' = subjects_by_challenge s ∧ session_id s' = session_id s ∧
    (ov_status o ≠ VERIFIED → status = ov_status o ∧ proofs_by_challenge s' = proofs_by_challenge s) ∧
    (ov_status o = VERIFIED → ∃ proof, dget id (proofs_by_challenge s') = Some proof ∧
       (dget id (proofs_by_challenge s) = Some proof ∨ dget id (proofs_by_challenge s) = None ∧
        ∃ v e, ov_proof_expires_at_epoch o = Some e ∧
          make_VerificationProof (se_proof_id env) (vs_tenant_id subj) (vs_session_id subj)
          (vs_customer_ref subj) (vs_factor_ref subj) (vs_purpose subj) id v e = inr proof) ∧
       status = if proof_is_fresh (se_now env) proof then VERIFIED else EXPIRED).
Proof.
  intros [Hok Hsc] Hnow Hpid Hg. destruct (Hsc _ _ Hg) as [Hscope Hvalid].
  unfold verify_otp, with_otp. munfold_goal. rewrite Hg.
  destruct (otp_verify _ _ _ _) as [p' r] eqn:Ep.
  destruct (verify_lawful _ _ _ _ _ _ Hok Hnow Ep) as (Hok' & Hsame & Htot).
  destruct Htot as (o & -> & Hid & Hver); [by eauto|]. simpl.
  set (s1 := mkVStore p' (session_id s) (subjects_by_challenge s) (proofs_by_challenge s)).
  assert (agree s1) as Hagree.
  { split; [done|]. intros id' subj' Hg'. cbn. rewrite Hsame. by apply Hsc. }
  rewrite Hid, String.eqb_refl. simpl. rewrite Hg, bool_decide_eq_true_2 by done. simpl.
  case_bool_decide as Hst; simpl; [|by eexists _, o, p'].
  destruct (Hver Hst) as (Hsubj & v & e & -> & He & Hve). rewrite He.
  rewrite bool_decide_eq_true_2 by congruence. simpl.
  unfold dmem. destruct (dget id (proofs_by_challenge s)) as [proof|] eqn:Hp; simpl.
  - rewrite ?Hp. eexists _, o, p'. split_and!; try done. intros _. exists proof. by split_and!; [|left|].
  - destruct (make_proof_total (se_proof_id env) subj id v e) as [proof Hproof]; try done.
    { exact (otp_scope_text (vs_otp s) id subj Hok Hscope). }
    rewrite Hproof. simpl. rewrite dget_dset_eq. eexists _, o, p'. split_and!; try done.
    intros _. exists proof. cbn [fst set_proofs proofs_by_challenge].
    split_and!; [by rewrite dget_dset_eq|right; split; [done|by eauto]|done].
Qed.

(** The store and a provider that keeps the port's contract never disagree: dispatching and
    checking keep them in agreement, and checking a challenge the store dispatched always
    returns a status, never one of the store's contract errors; it returns VERIFIED exactly
    when the challenge then satisfies its own subject at level 2 on an outcome the provider
    verified.  The fixture provider keeps the contract (instance [OtpProvider_laws]). *)
Theorem verify_otp_total s env id code subj :
  agree s → store_env_ok s env → dget id (subjects_by_challenge s) = Some subj →
  ∃ status, (verify_otp env id code s).2 = inr status ∧ agree (verify_otp env id code s).1 ∧
    (status = VERIFIED → ∃ proof, dget id (proofs_by_challenge (verify_otp env id code s).1) = Some proof ∧
       se_now env < vp_expires_at_epoch proof).
Proof.
  intros Ha (_ & Hnow & Hpid) Hg.
  destruct (verify_otp_returns s env id code subj Ha Hnow Hpid Hg)
    as (status & o & p' & Hs & Ha' & _ & _ & _ & _ & Hn & Hv).
  exists status. split_and!; [done|done|]. intros ->.
  destruct (decide (ov_status o = VERIFIED)) as [E|E]; [|destruct (Hn E); congruence].
  destruct (Hv E) as (proof & Hp & _ & Hfresh). exists proof. split; [done|].
  unfold proof_is_fresh in Hfresh. by destruct (Z.ltb_spec (se_now env) (vp_expires_at_epoch proof)).
Qed.
End lawful.

(** ** Witnesses *)
Definition demo_vstore : VerificationStore OtpProvider := mkVStore demo_provider "s-1" [] [].
Definition demo_subject : VerificationSubject :=
  mkSubject "acme" "s-1" "cust-1" "f-1" purpose_refund.
Definition demo_env (now : Z) (fresh : string) : store_env := mkStoreEnv (mkEnv now fresh) now "proof-1".
Definition demo_vdispatched : VerificationStore OtpProvider :=
  (dispatch_otp (demo_env 100 "ch-1") demo_subject "d-1" 3 demo_vstore).1.
Definition demo_vverified : VerificationStore OtpProvider :=
  (verify_otp (demo_env 120 "") "ch-1" "four eight two nine one three" demo_vdispatched).1.

Lemma demo_run : store_run demo_vverified [("ch-1", demo_subject)].
Proof.
  assert (store_run demo_vstore []) as H0 by (by apply (run_new demo_provider "s-1")).
  apply (run_call (VDispatch (demo_env 100 "ch-1") demo_subject "d-1" 3)) in H0; [|by vm_compute].
  apply (run_call (VVerify (demo_env 120 "") "ch-1" "four eight two nine one three")) in H0; [|done].
  assert (run_store_call (VVerify (demo_env 120 "") "ch-1" "four eight two nine one three")
    (run_store_call (VDispatch (demo_env 100 "ch-1") demo_subject "d-1" 3) demo_vstore) =
    demo_vverified) as Heq by reflexivity.
  rewrite Heq in H0. vm_compute in H0. vm_compute. exact H0.
Qed.

Lemma verification_authority_earned_witness :
  authorization_satisfies 130 demo_vverified demo_subject 2 = true ∧
  ∃ id earned, (id, earned) ∈ [("ch-1", demo_subject)] ∧
    vs_customer_ref earned = "cust-1" ∧ vs_factor_ref earned = "f-1" ∧
    dget id (subjects_by_challenge demo_vverified) = Some earned.
Proof.
  split; [by vm_compute|].
  refine (proj2 (proj2 (proj2 (proj1 (verification_authority_earned demo_vverified
    [("ch-1", demo_subject)] 130 demo_subject 2 _) _)))); [|by vm_compute].
  exact demo_run.
Defined.

Lemma verify_otp_total_witness :
  ∃ status, (verify_otp (demo_env 120 "") "ch-1" "four eight two nine one three" demo_vdispatched).2 =
    inr status ∧ (status = VERIFIED → ∃ proof,
      dget "ch-1" (proofs_by_challenge demo_vverified) = Some proof ∧ 120 < vp_expires_at_epoch proof).
Proof.
  destruct (verify_otp_total demo_vdispatched (demo_env 120 "ch-2") "ch-1"
    "four eight two nine one three" demo_subject) as (status & Hr & _ & Hv).
  - split; [apply demo_dispatched_ok|]. intros id subj Hg%dget_Some_elem.
    change (subjects_by_challenge demo_vdispatched) with [("ch-1", demo_subject)] in Hg.
    apply list_elem_of_singleton in Hg. injection Hg as -> ->. split; by vm_compute.
  - split; [split_and!|split]; by vm_compute.
  - by vm_compute.
  - exists status. split; [exact Hr|exact Hv].
Defined.
