(* ===== verification/Catalog.v ===== *)
(** * Catalog retrieval (commerce/catalog.py)

    Word tokens of a text, whole-run name matching, the lexical ranking of
    named items, and the fixture catalog with its bounded, duplicate-free
    results.  Prices are whole cents. *)

From stdpp Require Import sorting.
From S2P Require Import Prelude PyText Regex Tokens OrderScope.
Local Open Scope list_scope.

Definition CATALOG_RESULT_MAX_ITEMS : nat := 10.

Record CatalogProduct := mkProduct { sku : string; name : string; price_usd : Z }.

#[export] Instance CatalogProduct_eq_dec : EqDecision CatalogProduct.
Proof. solve_decision. Defined.

(** The declared constraints of a product. *)
Definition CatalogProduct_valid (p : CatalogProduct) : bool :=
  nonempty (sku p) && nonempty (name p) && (0 <=? price_usd p).

(** [CatalogFixture.product_skus_are_unique]: the loop that collects the repeated SKUs. *)
Fixpoint duplicate_skus (seen : list string) (l : list CatalogProduct) : list string :=
  match l with
  | [] => []
  | p :: l' =>
      if bool_decide (sku p ∈ seen) then sku p :: duplicate_skus (sku p :: seen) l'
      else duplicate_skus (sku p :: seen) l'
  end.

Definition make_CatalogFixture (products : list CatalogProduct) : res (list CatalogProduct) :=
  if forallb CatalogProduct_valid products then
    requires (bool_decide (duplicate_skus [] products = [])) ValidationError
      "product SKUs must be unique" ;;
    inr products
  else raises ValidationError "".

(** [CatalogProductSet]: at most ten products, no SKU twice. *)
Definition make_CatalogProductSet (products : list CatalogProduct) : res (list CatalogProduct) :=
  if (length products <=? CATALOG_RESULT_MAX_ITEMS)%nat then
    requires (length (fromkeys (sku <$> products)) =? length products)%nat ValidationError
      "catalog result contains duplicate product SKUs" ;;
    inr products
  else raises ValidationError "".

Record Candidate := mkCandidate {
  cand_key : string; cand_sku : string; cand_name : string; cand_price_usd : Z
}.

(** ** Word tokens *)
(** [current] holds the characters of the open token, last first. *)
Fixpoint word_tokens_go (current s : string) : list string :=
  match s with
  | "" => if nonempty current then [srev current] else []
  | String character s' =>
      if is_alnum character then word_tokens_go (String character current) s'
      else if nonempty current then srev current :: word_tokens_go "" s'
      else word_tokens_go "" s'
  end.
Definition word_tokens (value : string) : list string := word_tokens_go "" (lower value).

Definition contains_token_sequence (haystack needle : list string) : bool :=
  if (length needle =? 0)%nat || (length haystack <? length needle)%nat then false
  else
    let width := length needle in
    existsb (λ index, bool_decide (take width (drop index haystack) = needle))
      (seq 0 (length haystack - width + 1)).

Definition text_speaks_name (text name : string) : bool :=
  contains_token_sequence (word_tokens text) (word_tokens name).

Definition name_is_subphrase_of (inner outer : string) : bool :=
  let inner_tokens := word_tokens inner in
  let outer_tokens := word_tokens outer in
  negb (bool_decide (inner_tokens = outer_tokens)) &&
  contains_token_sequence outer_tokens inner_tokens.

(** ** Ranking *)
Section ranking.
  Context {T : Type} (item_name : T → string).

  (** A ranked item: its score, its position in the input and the item. *)
Definition ranked : Type := nat * nat * T.

Definition overlap (query_tokens name_tokens : list string) : nat :=
    length (base.filter (λ t, t ∈ name_tokens) (fromkeys query_tokens)).

Definition minimum_overlap (query_tokens name_tokens : list string) : nat :=
    if (length query_tokens =? 1)%nat || (length name_tokens =? 1)%nat then 1 else 2.

Definition score (query_tokens name_tokens : list string) : nat :=
    overlap query_tokens name_tokens +
    Nat.b2n (contains_token_sequence query_tokens name_tokens
             || contains_token_sequence name_tokens query_tokens).

  (** The loop body for the items from position [index] on. *)
Fixpoint rank_items (query_tokens : list string) (index : nat) (items : list T) : list ranked :=
    match items with
    | [] => []
    | item :: items' =>
        let name_tokens := word_tokens (item_name item) in
        if (overlap query_tokens name_tokens <? minimum_overlap query_tokens name_tokens)%nat
        then rank_items query_tokens (S index) items'
        else (score query_tokens name_tokens, index, item) :: rank_items query_tokens (S index) items'
    end.

  (** [(-candidate[0], candidate[1])], compared lexicographically. *)
Definition rank_le (x y : ranked) : Prop :=
    (y.1.1 < x.1.1)%nat ∨ (y.1.1 = x.1.1 ∧ (x.1.2 ≤ y.1.2)%nat).

#[global] Instance rank_le_dec x y : Decision (rank_le x y).
  Proof. unfold rank_le. apply _. Defined.

Definition rank_named_items (items : list T) (query : string) : list (nat * T) :=
    let query_tokens := word_tokens query in
    if (length query_tokens =? 0)%nat then []
    else (λ r : ranked, (r.1.1, r.2)) <$> merge_sort rank_le (rank_items query_tokens 0 items).

Definition match_named_items (items : list T) (query : string) : list T :=
    let ranked := rank_named_items items query in
    match ranked with
    | [] => []
    | (best_score, _) :: _ => snd <$> base.filter (λ r, r.1 = best_score) ranked
    end.
End ranking.

(** [number_candidates]: keys count from one. *)
Definition number_candidates (items : list CatalogProduct) : list Candidate :=
  imap (λ index item,
    mkCandidate (str_int (Z.of_nat index + 1)) (sku item) (name item) (price_usd item)) items.

(** ** The fixture catalog *)
Record FixtureCatalog := mkCatalog {
  tenant_id : string;
  products : list CatalogProduct;
  by_sku : list (string * CatalogProduct)
}.

Definition new_catalog (tenant : string) (fixture : list CatalogProduct) : res FixtureCatalog :=
  tenant_id ← Guest.normalize_tenant_id tenant "fixture catalog";
  inr (mkCatalog tenant_id fixture (dict_of ((λ p, (sku p, p)) <$> fixture))).

Definition search (c : FixtureCatalog) (query : string) : res (list CatalogProduct) :=
  make_CatalogProductSet
    (snd <$> take CATALOG_RESULT_MAX_ITEMS (rank_named_items name (products c) query)).

Definition browse (c : FixtureCatalog) : res (list CatalogProduct) :=
  make_CatalogProductSet (take CATALOG_RESULT_MAX_ITEMS (products c)).

Definition resolve_products (c : FixtureCatalog) (skus : list string)
    : list (option CatalogProduct) :=
  (λ s, dget s (by_sku c)) <$> skus.

Definition demo_products : list CatalogProduct :=
  [mkProduct "JKT-1" "Rain jacket" 8900; mkProduct "JKT-2" "Waterproof rain jacket" 12900;
   mkProduct "SCK-1" "Wool socks" 1500; mkProduct "HAT-1" "Rain-hat" 2500].

(** ** Token runs *)
Lemma contains_token_sequence_spec haystack needle :
  contains_token_sequence haystack needle = true ↔
  needle ≠ [] ∧ ∃ a b, haystack = a ++ needle ++ b.
Proof.
  unfold contains_token_sequence.
  destruct (Nat.eqb_spec (length needle) 0) as [Hn|Hn]; simpl.
  { split; [done|]. intros [Hne _]. by destruct needle. }
  destruct (Nat.ltb_spec (length haystack) (length needle)) as [Hl|Hl]; simpl.
  { split; [done|]. intros (_ & a & b & ->). rewrite !length_app in Hl. lia. }
  rewrite existsb_exists. split.
  - intros (i & _ & Heq). bools. split; [by intros ->|].
    exists (take i haystack), (drop (length needle) (drop i haystack)).
    rewrite <-Heq at 1. by rewrite !take_drop.
  - intros (_ & a & b & ->). exists (length a). split.
    + apply in_seq. rewrite !length_app in *. lia.
    + apply bool_decide_eq_true. by rewrite drop_app_length, take_app_length.
Qed.

Lemma contains_token_sequence_trans x y z :
  contains_token_sequence x y = true → contains_token_sequence y z = true →
  contains_token_sequence x z = true.
Proof.
  rewrite !contains_token_sequence_spec. intros (_ & a & b & ->) (Hz & c & d & ->).
  split; [done|]. exists (a ++ c), (d ++ b). by rewrite <-!app_assoc.
Qed.

Lemma subphrase_shorter inner outer : name_is_subphrase_of inner outer = true →
  (length (word_tokens inner) < length (word_tokens outer))%nat.
Proof.
  unfold name_is_subphrase_of. intros [Hne (Hi & a & b & Heq)%contains_token_sequence_spec]%andb_true_iff.
  bools. rewrite Heq, !length_app.
  assert (length a + length b ≠ 0)%nat; [|lia].
  intros H0. destruct a, b; simpl in H0; try lia. rewrite app_nil_r in Heq. done.
Qed.

(** ** Tokens *)
Definition token_char (c : ascii) : bool := is_alnum c && negb (is_upper c).
Definition word_token (t : string) : Prop := t ≠ "" ∧ sforall token_char t = true.

Lemma lower_char_token c : is_alnum (lower_char c) = true → token_char (lower_char c) = true.
Proof.
  intros H. pose proof (all_ascii_spec
    (λ c, negb (is_alnum (lower_char c)) || token_char (lower_char c))) as Hall.
  specialize (Hall (ltac:(by vm_compute)) c). simpl in Hall. by rewrite H in Hall.
Qed.

Lemma token_char_space c : token_char c = true → is_space c = false ∧ lower_char c = c ∧ is_alnum c = true.
Proof.
  intros H. pose proof (all_ascii_spec (λ c, negb (token_char c) ||
    (negb (is_space c) && Ascii.eqb (lower_char c) c && is_alnum c))) as Hall.
  specialize (Hall (ltac:(by vm_compute)) c). cbv beta in Hall. rewrite H in Hall. simpl in Hall. bools.
  split_and!; [done| |done]. by apply Ascii.eqb_eq.
Qed.

Lemma word_tokens_go_ok s : ∀ current, sforall token_char current = true →
  Forall word_token (word_tokens_go current (lower s)).
Proof.
  unfold lower. induction s as [|c s IH]; intros current Hc; simpl.
  - destruct (nonempty current) eqn:Hn; [|constructor]. apply nonempty_spec in Hn.
    constructor; [|constructor]. split; [by apply srev_nonempty|by rewrite sforall_srev].
  - destruct (is_alnum (lower_char c)) eqn:Ha.
    + apply IH. simpl. by rewrite lower_char_token.
    + destruct (nonempty current) eqn:Hn; [|by apply IH]. apply nonempty_spec in Hn.
      constructor; [|by apply IH]. split; [by apply srev_nonempty|by rewrite sforall_srev].
Qed.

Lemma word_tokens_ok s : Forall word_token (word_tokens s).
Proof. by apply word_tokens_go_ok. Qed.

Lemma word_tokens_go_word t current s : sforall token_char t = true →
  word_tokens_go current (t +:+ s) = word_tokens_go (srev_go current t) s.
Proof.
  revert current. induction t as [|c t IH]; intros current Ht; [done|]. simpl in Ht.
  apply andb_true_iff in Ht as [Hc Ht]. rewrite app_cons. simpl.
  apply token_char_space in Hc as (_ & _ & ->). by apply IH.
Qed.

Lemma lower_app a b : lower (a +:+ b) = lower a +:+ lower b.
Proof. unfold lower. induction a as [|c a IH]; [done|]. rewrite app_cons. simpl. by rewrite IH. Qed.

Lemma lower_token t : sforall token_char t = true → lower t = t.
Proof.
  unfold lower. induction t as [|c t IH]; [done|]. simpl. intros [Hc Ht]%andb_true_iff.
  apply token_char_space in Hc as (_ & -> & _). by rewrite IH.
Qed.

Lemma word_tokens_join l : Forall word_token l → word_tokens (join " " l) = l.
Proof.
  induction 1 as [|t l [Hne Ht] Hl IH]; [done|]. unfold word_tokens in *.
  assert (nonempty (srev_go "" t) = true) as Hcur by by apply nonempty_spec, srev_nonempty.
  rewrite join_cons_tail, lower_app, lower_token, word_tokens_go_word by done.
  destruct l as [|u l].
  - simpl. rewrite Hcur. f_equal. apply srev_involutive.
  - unfold join_tail. rewrite lower_app. simpl. rewrite Hcur.
    f_equal; [apply srev_involutive|done].
Qed.
(** ** Ranking *)
Section ranking_facts.
  Context {T : Type} (item_name : T → string) (query : string).

  (** An item is a match when it shares enough words with the query. *)
Definition matches (item : T) : bool :=
    negb (length (word_tokens query) =? 0)%nat &&
    (minimum_overlap (word_tokens query) (word_tokens (item_name item)) <=?
      overlap (word_tokens query) (word_tokens (item_name item)))%nat.
Definition item_score (item : T) : nat :=
    score (word_tokens query) (word_tokens (item_name item)).

Lemma rank_items_eq index items : word_tokens query ≠ [] →
    (λ r : ranked, (r.1.1, r.2)) <$> rank_items item_name (word_tokens query) index items =
    (λ p, (item_score p, p)) <$> base.filter (λ p, matches p = true) items.
  Proof.
    intros Hq. revert index. induction items as [|p items IH]; intros index; [done|]. simpl.
    assert (matches p = negb (overlap (word_tokens query) (word_tokens (item_name p)) <?
      minimum_overlap (word_tokens query) (word_tokens (item_name p)))%nat) as Hm.
    { unfold matches. destruct (word_tokens query); [done|]. simpl. by rewrite <-Nat.leb_antisym. }
    destruct (_ <? _)%nat; simpl in Hm.
    - by rewrite filter_cons_False by by rewrite Hm.
    - rewrite filter_cons_True by done. simpl. by rewrite IH.
  Qed.

#[local] Instance rank_le_total : Total (@rank_le T).
  Proof. intros x y. unfold rank_le. lia. Qed.
#[local] Instance rank_le_trans : Transitive (@rank_le T).
  Proof. intros x y z. unfold rank_le. lia. Qed.

Lemma rank_named_items_perm items :
    rank_named_items item_name items query ≡ₚ
    (λ p, (item_score p, p)) <$> base.filter (λ p, matches p = true) items.
  Proof.
    unfold rank_named_items. cbv zeta. destruct (decide (word_tokens query = [])) as [Hq|Hq].
    - rewrite Hq. simpl. assert (base.filter (λ p, matches p = true) items = []) as ->; [|done].
      induction items as [|p items IH]; [done|]. rewrite filter_cons_False; [done|].
      unfold matches. by rewrite Hq.
    - destruct (Nat.eqb_spec (length (word_tokens query)) 0) as [H0|_].
      { by apply nil_length_inv in H0. }
      rewrite merge_sort_Permutation. by rewrite rank_items_eq.
  Qed.

Lemma rank_named_items_sorted items :
    StronglySorted (λ x y, y.1 ≤ x.1)%nat (rank_named_items item_name items query).
  Proof.
    unfold rank_named_items. cbv zeta. destruct (_ =? 0)%nat; [constructor|].
    pose proof (StronglySorted_merge_sort rank_le
      (rank_items item_name (word_tokens query) 0 items)) as H.
    induction H as [|r l Hl IH Hr]; [constructor|]. rewrite fmap_cons. constructor; [done|].
    apply Forall_fmap. eapply Forall_impl; [done|]. intros y. unfold rank_le. simpl. lia.
  Qed.

Lemma elem_rank items s p :
    (s, p) ∈ rank_named_items item_name items query ↔ s = item_score p ∧ matches p = true ∧ p ∈ items.
  Proof.
    rewrite rank_named_items_perm, list_elem_of_fmap. setoid_rewrite list_elem_of_filter.
    naive_solver.
  Qed.

  (** The head of the ranking has the largest score. *)
Lemma rank_head_best items best p0 l :
    rank_named_items item_name items query = (best, p0) :: l →
    best = item_score p0 ∧ matches p0 = true ∧ p0 ∈ items ∧
    ∀ p, p ∈ items → matches p = true → (item_score p ≤ best)%nat.
  Proof.
    intros Heq. assert ((best, p0) ∈ rank_named_items item_name items query) as Hin
      by (rewrite Heq; left).
    apply elem_rank in Hin as (-> & Hm & Hin). split_and!; [done..|]. intros p Hp Hmp.
    assert ((item_score p, p) ∈ rank_named_items item_name items query) as Hr by by apply elem_rank.
    pose proof (rank_named_items_sorted items) as Hs. rewrite Heq in Hs, Hr.
    inversion Hs as [|? ? _ Hall]; subst. rewrite Forall_forall in Hall.
    apply elem_of_cons in Hr as [Hr|Hr]; [by injection Hr as -> ->|]. by apply (Hall (_, _) Hr).
  Qed.

Definition is_best (items : list T) (p : T) : Prop :=
    matches p = true ∧ Forall (λ p', matches p' = true → (item_score p' ≤ item_score p)%nat) items.
#[global] Instance is_best_dec items p : Decision (is_best items p).
  Proof. unfold is_best. apply _. Defined.

Lemma match_named_items_perm items :
    match_named_items item_name items query ≡ₚ base.filter (is_best items) items.
  Proof.
    unfold match_named_items. cbv zeta.
    pose proof (rank_named_items_perm items) as Hperm.
    destruct (rank_named_items item_name items query) as [|[best p0] l] eqn:E.
    - apply Permutation_nil_l in Hperm. symmetry in Hperm. apply fmap_nil_inv in Hperm.
      rewrite (list_filter_iff (is_best items) (λ p, is_best items p ∧ matches p = true)).
      2:{ intros p. unfold is_best. naive_solver. }
      rewrite <-list_filter_filter, Hperm. done.
    - apply rank_head_best in E as (-> & Hm0 & Hin0 & Hbest).
      rewrite Hperm, filter_fmap, <-list_fmap_compose, list_filter_filter. simpl.
      rewrite (list_fmap_ext _ id), list_fmap_id by done.
      erewrite filter_ext_elem; [done|]. intros p Hp. unfold is_best, compose. simpl.
      rewrite Forall_forall. split.
      + intros [Hs Hm]. split; [done|]. intros p' Hp' Hm'. rewrite Hs. auto.
      + intros [Hm Hall]. split; [|done]. apply Nat.le_antisymm; auto.
  Qed.
End ranking_facts.

Example ex1 : word_tokens "A Rain-hat, please!" = ["a"; "rain"; "hat"; "please"].
Proof. by vm_compute. Qed.
Example ex2 : (λ r, sku r.2) <$> rank_named_items name demo_products "rain jacket" = ["JKT-1"; "JKT-2"].
Proof. by vm_compute. Qed.
Example ex3 : sku <$> match_named_items name demo_products "wool rain socks" = ["SCK-1"].
Proof. by vm_compute. Qed.

(** ** The fixture catalog *)
Lemma duplicate_skus_nil seen l : duplicate_skus seen l = [] ↔
  NoDup (sku <$> l) ∧ ∀ p, p ∈ l → sku p ∉ seen.
Proof.
  revert seen. induction l as [|p l IH]; intros seen; simpl.
  - split; [intros; split; [constructor|set_solver]|done].
  - rewrite NoDup_cons. case_bool_decide as Hin.
    + split; [done|]. intros [_ H]. by destruct (H p ltac:(left)).
    + rewrite IH, list_elem_of_fmap. split.
      * intros [Hnd H]. split_and!; [|done|].
        -- intros (q & Heq & Hq). apply (H q Hq). rewrite Heq. left.
        -- intros q [->|Hq]%elem_of_cons; [done|]. intros ?. apply (H q Hq). by right.
      * intros [[Hp Hnd] H]. split; [done|]. intros q Hq [Heq|Hs]%elem_of_cons.
        -- apply Hp. eauto.
        -- by apply (H q); [right|].
Qed.

Lemma make_CatalogFixture_ok l : make_CatalogFixture l = inr l ↔
  forallb CatalogProduct_valid l = true ∧ NoDup (sku <$> l).
Proof.
  unfold make_CatalogFixture. destruct (forallb _ _); [|by split; [|intros [? _]]].
  rewrite requires_then, bool_decide_eq_true, duplicate_skus_nil. set_solver.
Qed.

Lemma fromkeys_go_id {A} `{!EqDecision A} (seen l : list A) :
  NoDup l → (∀ x, x ∈ l → x ∉ seen) → fromkeys_go seen l = l.
Proof.
  intros Hnd. revert seen. induction Hnd as [|x l Hx Hnd IH]; intros seen Hs; simpl; [done|].
  rewrite decide_False by (apply Hs; left). rewrite IH; [done|]. set_solver.
Qed.

Lemma make_CatalogProductSet_ok l : (length l ≤ 10)%nat → NoDup (sku <$> l) →
  make_CatalogProductSet l = inr l.
Proof.
  intros Hl Hnd. unfold make_CatalogProductSet, CATALOG_RESULT_MAX_ITEMS.
  rewrite (proj2 (Nat.leb_le _ _) Hl). apply requires_then. split; [|done].
  apply Nat.eqb_eq. unfold fromkeys. rewrite fromkeys_go_id; [by rewrite length_fmap|done|set_solver].
Qed.

Lemma new_catalog_products tenant fixture c :
  new_catalog tenant fixture = inr c →
  products c = fixture ∧ by_sku c = dict_of ((λ p, (sku p, p)) <$> fixture).
Proof.
  unfold new_catalog, mbind, res_bind. destruct (Guest.normalize_tenant_id _ _); [done|].
  intros [= <-]. done.
Qed.

Lemma NoDup_sku_take n (l : list CatalogProduct) : NoDup (sku <$> l) → NoDup (sku <$> take n l).
Proof. rewrite fmap_take. intros H. eapply sublist_NoDup; [done|]. apply sublist_take. Qed.

Lemma ranked_products_NoDup (l : list CatalogProduct) query :
  NoDup (sku <$> l) → NoDup (sku <$> (snd <$> rank_named_items name l query)).
Proof.
  intros H. rewrite (rank_named_items_perm name query l), <-!list_fmap_compose.
  eapply sublist_NoDup; [exact H|].
  change (sku ∘ snd ∘ (λ p, (item_score name query p, p))) with sku.
  apply fmap_sublist, sublist_filter.
Qed.

Lemma by_sku_get l s p : NoDup (sku <$> l) →
  dget s (dict_of ((λ p, (sku p, p)) <$> l)) = Some p ↔ p ∈ l ∧ sku p = s.
Proof.
  intros Hnd. rewrite dict_of_id by (unfold dkeys; by rewrite <-list_fmap_compose).
  split.
  - intros (q & [= -> ->] & Hq)%dget_Some_elem%list_elem_of_fmap. done.
  - intros [Hp <-]. apply elem_dget.
    + unfold dkeys. by rewrite <-list_fmap_compose.
    + apply list_elem_of_fmap. by exists p.
Qed.

(** Elements past a bound of a sorted list are no better than those before it. *)
Lemma sorted_take_drop {A} (R : A → A → Prop) l n x y :
  StronglySorted R l → x ∈ take n l → y ∈ drop n l → R x y.
Proof.
  intros Hs. revert n. induction Hs as [|z l Hs IH Hz]; intros [|n] Hx Hy; simpl in *;
    try (by apply elem_of_nil in Hx).
  apply elem_of_cons in Hx as [->|Hx]; [|by eapply IH].
  rewrite Forall_forall in Hz. apply Hz. rewrite <-(take_drop n l). set_solver.
Qed.

Lemma StronglySorted_take {A} (R : A → A → Prop) n l :
  StronglySorted R l → StronglySorted R (take n l).
Proof.
  intros Hs. revert n. induction Hs as [|z l Hs IH Hz]; intros [|n]; simpl; try constructor; auto.
  by apply Forall_take.
Qed.

Lemma ranked_prefix_sorted n (l : list CatalogProduct) query :
  StronglySorted (λ p q, item_score name query q ≤ item_score name query p)%nat
    (snd <$> take n (rank_named_items name l query)).
Proof.
  assert (Forall (λ x, x.1 = item_score name query x.2) (take n (rank_named_items name l query))) as Hf.
  { apply Forall_take, Forall_forall. by intros [s p] [? _]%elem_rank. }
  pose proof (StronglySorted_take _ n _ (rank_named_items_sorted name query l)) as Hs.
  induction Hs as [|x r Hs IH Hx]; [constructor|]. rewrite fmap_cons.
  apply Forall_cons in Hf as [Hfx Hf]. constructor; [auto|]. apply Forall_fmap.
  rewrite Forall_forall in Hx, Hf |- *. intros y Hy. simpl. rewrite <-Hfx, <-(Hf y Hy). auto.
Qed.

(** The numbered options of one answer have distinct keys. *)
Lemma number_candidates_keys items : NoDup (cand_key <$> number_candidates items).
Proof.
  apply NoDup_alt. intros i j k. unfold number_candidates. rewrite !list_lookup_fmap, !list_lookup_imap.
  destruct (items !! i), (items !! j); simpl; [|done..]. intros [= <-] [= H].
  apply (str_int_inj "") in H. lia.
Qed.

(** ** Properties *)

(** A name is spoken exactly when its words occur, in order and unbroken,
    among the words of the text.  "Being a subphrase" is that relation with a
    strictly shorter name, and a text that speaks the longer of two such names
    speaks the shorter one too, so prose cannot tell them apart. *)
Theorem speaks_name_is_token_run (text n inner outer : string) :
  (text_speaks_name text n = true ↔
    word_tokens n ≠ [] ∧ ∃ a b, word_tokens text = a ++ word_tokens n ++ b) ∧
  (name_is_subphrase_of inner outer = true →
    (length (word_tokens inner) < length (word_tokens outer))%nat ∧
    name_is_subphrase_of outer inner = false ∧
    (text_speaks_name text outer = true → text_speaks_name text inner = true)).
Proof.
  split; [apply contains_token_sequence_spec|]. intros H. pose proof (subphrase_shorter _ _ H).
  split_and!; [done| |].
  - apply not_true_iff_false. intros ?%subphrase_shorter. lia.
  - intros Ho. unfold name_is_subphrase_of in H. apply andb_true_iff in H as [_ H].
    by eapply contains_token_sequence_trans.
Qed.

Lemma speaks_name_is_token_run_witness :
  name_is_subphrase_of "Rain Jacket" "waterproof rain-jacket" = true ∧
  text_speaks_name "the Waterproof Rain jacket please" "Rain Jacket" = true.
Proof.
  split; [by vm_compute|].
  apply (speaks_name_is_token_run "the Waterproof Rain jacket please" ""
    "Rain Jacket" "waterproof rain-jacket"); by vm_compute.
Defined.

(** Tokenising a text gives non-empty words of lower-case letters and
    digits, and tokenising those words joined by spaces gives them back. *)
Theorem word_tokens_roundtrip (s : string) :
  Forall (λ t, t ≠ "" ∧ sforall token_char t = true) (word_tokens s) ∧
  word_tokens (join " " (word_tokens s)) = word_tokens s.
Proof. split; [apply word_tokens_ok|]. apply word_tokens_join, word_tokens_ok. Qed.

(** A catalog built from a validated fixture answers every search: at most
    ten products of the fixture, no SKU twice, each sharing enough words with
    the query, best score first; a matching product that is left out is left
    out because ten products that score at least as well were returned.
    Browsing returns the first ten products of the fixture. *)
Theorem search_returns_best (tenant query : string) fixture (c : FixtureCatalog) :
  make_CatalogFixture fixture = inr fixture → new_catalog tenant fixture = inr c →
  ∃ l, search c query = inr l ∧ (length l ≤ 10)%nat ∧ NoDup (sku <$> l) ∧
    (∀ p, p ∈ l → p ∈ fixture ∧ matches name query p = true) ∧
    StronglySorted (λ p q, item_score name query q ≤ item_score name query p)%nat l ∧
    (∀ p, p ∈ fixture → matches name query p = true → p ∉ l → length l = 10%nat ∧
      Forall (λ q, item_score name query p ≤ item_score name query q)%nat l) ∧
    browse c = inr (take 10 fixture).
Proof.
  intros [_ Hnd]%make_CatalogFixture_ok [Hps _]%new_catalog_products.
  unfold search. rewrite Hps. set (r := rank_named_items name fixture query).
  pose proof (rank_named_items_sorted name query fixture) as Hsort. fold r in Hsort.
  assert (∀ s p, (s, p) ∈ take 10 r → (s, p) ∈ r) as Hsub.
  { intros s p H. rewrite <-(take_drop 10 r). set_solver. }
  exists (snd <$> take 10 r). split_and!.
  - apply make_CatalogProductSet_ok; [rewrite length_fmap, length_take; lia|].
    rewrite fmap_take. by apply NoDup_sku_take, ranked_products_NoDup.
  - rewrite length_fmap, length_take. lia.
  - rewrite fmap_take. by apply NoDup_sku_take, ranked_products_NoDup.
  - intros p ([s p'] & -> & (_ & Hm & Hp)%Hsub%elem_rank)%list_elem_of_fmap. done.
  - by apply ranked_prefix_sorted.
  - intros p Hp Hm Hnot.
    assert ((item_score name query p, p) ∈ drop 10 r) as Hdrop.
    { assert ((item_score name query p, p) ∈ r) as Hr by by apply elem_rank.
      rewrite <-(take_drop 10 r) in Hr. apply elem_of_app in Hr as [Hr|Hr]; [|done].
      destruct Hnot. apply list_elem_of_fmap. by eexists (_, _). }
    split.
    + rewrite length_fmap, length_take.
      assert (length (drop 10 r) ≠ 0)%nat as H0.
      { intros H0. apply nil_length_inv in H0. rewrite H0 in Hdrop. by apply elem_of_nil in Hdrop. }
      rewrite length_drop in H0. lia.
    + apply Forall_fmap, Forall_forall. intros [s q] Hq. simpl.
      pose proof (sorted_take_drop _ _ _ _ _ Hsort Hq Hdrop) as Hle. simpl in Hle.
      apply Hsub, elem_rank in Hq as (-> & _). done.
  - unfold browse. rewrite Hps. apply make_CatalogProductSet_ok; [rewrite length_take; lia|].
    by apply NoDup_sku_take.
Qed.

Lemma search_returns_best_witness : ∃ c l,
  new_catalog " acme " demo_products = inr c ∧ search c "rain jacket" = inr l ∧
  (length l ≤ 10)%nat ∧ NoDup (sku <$> l).
Proof.
  eexists. destruct (search_returns_best " acme " "rain jacket" demo_products _
    ltac:(by vm_compute) ltac:(vm_compute; reflexivity)) as (l & Hl & Hn & Hd & _).
  exists l. split; [vm_compute; reflexivity|]. split; [exact Hl|]. split; [exact Hn|exact Hd].
Defined.

(** Selecting by name returns exactly the equally best matches: every item
    that matches the query and that no other match outscores, each as often as
    it occurs; with no query word, nothing. *)
Theorem match_named_items_best (items : list CatalogProduct) (query : string) :
  match_named_items name items query ≡ₚ base.filter (is_best name query items) items ∧
  (word_tokens query = [] → match_named_items name items query = []).
Proof.
  split; [apply match_named_items_perm|]. intros Hq.
  unfold match_named_items, rank_named_items. by rewrite Hq.
Qed.

Lemma match_named_items_best_witness :
  word_tokens " ?! " = [] ∧ match_named_items name demo_products " ?! " = [].
Proof. split; [by vm_compute|]. apply (match_named_items_best demo_products " ?! "). by vm_compute. Defined.

(** Resolving SKUs answers each request at its own position: the fixture's
    one product with that SKU, or nothing when no product has it. *)
Theorem resolve_products_pointwise tenant fixture (c : FixtureCatalog) skus :
  make_CatalogFixture fixture = inr fixture → new_catalog tenant fixture = inr c →
  length (resolve_products c skus) = length skus ∧
  ∀ i s, skus !! i = Some s → ∃ o, resolve_products c skus !! i = Some o ∧
    (∀ p, o = Some p ↔ p ∈ fixture ∧ sku p = s) ∧ (o = None ↔ s ∉ sku <$> fixture).
Proof.
  intros [_ Hnd]%make_CatalogFixture_ok [_ Hby]%new_catalog_products. unfold resolve_products.
  rewrite Hby. split; [apply length_fmap|]. intros i s Hs.
  set (o := dget s (dict_of ((λ p, (sku p, p)) <$> fixture))).
  assert (∀ p, o = Some p ↔ p ∈ fixture ∧ sku p = s) as Ho by (intros; by apply by_sku_get).
  exists o. split_and!; [by rewrite list_lookup_fmap, Hs|done|].
  rewrite list_elem_of_fmap. destruct o as [p|] eqn:E.
  - split; [done|]. intros Hn. destruct Hn. exists p. pose proof (proj1 (Ho p) eq_refl). naive_solver.
  - split; [|done]. intros _ (p & -> & Hp). by pose proof (proj2 (Ho p) (conj Hp eq_refl)).
Qed.

Lemma resolve_products_pointwise_witness : ∃ c,
  new_catalog "acme" demo_products = inr c ∧
  length (resolve_products c ["SCK-1"; "NOPE"]) = 2%nat.
Proof.
  eexists. split; [vm_compute; reflexivity|].
  apply (resolve_products_pointwise "acme" demo_products); [by vm_compute|vm_compute; reflexivity].
Defined.
