(* ===== verification/Consent.v ===== *)
(** * Closed consent (agents/_consent.py)

    Whether a caller's words authorise an irreversible action.  A reply is
    normalised to single-spaced words, a negation anywhere makes it a no, and
    only a reply that is nothing but affirmative phrases, with at least one
    that authorises, is a yes.  Text is ASCII, apart from the typographic
    apostrophe, which is the three bytes of its UTF-8 encoding. *)

From S2P Require Import Prelude PyText Regex Tokens WordRegex.
Local Open Scope list_scope.

(** ** Expressions *)
Definition NO_RE : wre :=
  WCats [WBound;
    WAlts (WLit "no") [WLit "nope"; WLit "nah"; WCats [WLit "don"; WOpt (WLit "'"); WLit "t"];
      WLit "do not"; WLit "cancel"; WLit "stop"; WCats [WLit "never"; WOpt (WLit " "); WLit "mind"];
      WLit "forget it"; WLit "wrong"];
    WBound].

Definition CANCEL_PHRASE_RE : wre :=
  WCats [WBound; WLit "cancel"; WOpt (WAlt (WLit "ling") (WLit "led")); WBound;
    WOpt (WCats [WSpaces;
      WAlts (WLit "that") [WLit "it"; WLit "this"; WLit "the"; WLit "my"]; WBound]);
    WOpt (WCats [WSpaces; WAlt (WLit "order") (WLit "purchase"); WBound])].

Definition PERSON_ACTION_RE : wre :=
  WCats [WBound; WLit "stop";
    WOpt (WCats [WSpaces;
      WAlts (WLit "it") [WLit "that"; WLit "this"; WLit "now";
        WCats [WLit "the"; WSpaces; WLit "automated"; WSpaces; WLit "help"];
        WCats [WLit "automated"; WSpaces; WLit "help"]]]);
    WBound].

Definition BARE_DECLINE_RE : wre :=
  WPlus (WCat
    (WAlts (WText "no thank you") [WText "no thanks"; WText "not now";
      WCats [WText "never"; WOpt (WText " "); WText "mind"]; WText "forget it";
      WCats [WText "don"; WOpt (WText "'"); WText "t"]; WText "do not"; WText "no";
      WText "nope"; WText "nah"])
    (WStar (WChar is_space))).

(** ** The affirmative vocabulary *)
Definition AFFIRMATIVE_SIGNALS : list (list string) :=
  [["sounds"; "good"]; ["please"; "do"]; ["go"; "ahead"]; ["do"; "it"]; ["that's"; "right"];
   ["that"; "is"; "right"]; ["that's"; "correct"]; ["that"; "is"; "correct"]; ["confirm"; "it"];
   ["yes"; "sir"]; ["yes"; "ma'am"]; ["certainly"]; ["that"; "works"]; ["let's"; "do"; "it"];
   ["sure"]; ["alright"]; ["yes"]; ["yeah"]; ["yep"]; ["yup"]; ["confirm"]; ["confirmed"];
   ["ok"]; ["okay"]].
Definition AFFIRMATIVE_FILLERS : list (list string) :=
  [["thank"; "you"]; ["and"]; ["please"]; ["then"]; ["absolutely"]; ["definitely"]; ["thanks"]].

Inductive Consent := no | yes | unclear.
(** [Literal["human", "no", "yes", "unclear"]] *)
Inductive ConfirmationVerdict := human | decided (c : Consent).
Inductive HandoffSource := DETERMINISTIC_POLICY | SEMANTIC_ROUTER | ROUTING_FAILURE_POLICY.

#[export] Instance Consent_eq_dec : EqDecision Consent.
Proof. solve_decision. Defined.
#[export] Instance HandoffSource_eq_dec : EqDecision HandoffSource.
Proof. solve_decision. Defined.
#[export] Instance ConfirmationVerdict_eq_dec : EqDecision ConfirmationVerdict.
Proof. solve_decision. Defined.

Record ConfirmationDecision := mkDecision {
  verdict : ConfirmationVerdict;
  handoff_source : option HandoffSource
}.

(** ** Normalisation *)
Definition PUNCTUATION_RE : re :=
  RPlus (RChar (λ c, sexists (Ascii.eqb c) ",.!?;:")).

(** [.replace("\N{RIGHT SINGLE QUOTATION MARK}", "'")] *)
Fixpoint replace_right_quote (s : string) : string :=
  match s with
  | "" => ""
  | String c1 s1 =>
      match s1 with
      | String c2 (String c3 s3) =>
          if (code c1 =? 226)%nat && (code c2 =? 128)%nat && (code c3 =? 153)%nat
          then String "'" (replace_right_quote s3)
          else String c1 (replace_right_quote s1)
      | _ => String c1 (replace_right_quote s1)
      end
  end.

Definition normalize_consent_reply (text : string) : string :=
  let normalized := replace_right_quote (lower text) in
  join " " (PyText.split (Regex.sub PUNCTUATION_RE " " normalized)).

(** ** The bounded affirmative grammar *)
(** [words[index : index + len(phrase)] == phrase] *)
Definition phrase_at (words : list string) (index : nat) (phrase : list string) : bool :=
  bool_decide (take (length phrase) (drop index words) = phrase).

(** What one visit of a state pushes, in the order it is pushed. *)
Definition pushes (words : list string) (index : nat) (has_signal : bool) : list (nat * bool) :=
  ((λ phrase, (index + length phrase, true)%nat) <$>
    base.filter (λ phrase, phrase_at words index phrase = true) AFFIRMATIVE_SIGNALS) ++
  ((λ phrase, (index + length phrase, has_signal)%nat) <$>
    base.filter (λ phrase, phrase_at words index phrase = true) AFFIRMATIVE_FILLERS).

(** The work list; its end, where Python pops, is the head of the list here. *)
Fixpoint affirm_loop (fuel : nat) (words : list string) (pending visited : list (nat * bool))
    : option bool :=
  match fuel with
  | O => None
  | S fuel =>
      match pending with
      | [] => Some false
      | (index, has_signal) :: pending =>
          if bool_decide ((index, has_signal) ∈ visited) then affirm_loop fuel words pending visited
          else
            let visited := (index, has_signal) :: visited in
            if (index =? length words)%nat then
              if has_signal then Some true else affirm_loop fuel words pending visited
            else affirm_loop fuel words (reverse (pushes words index has_signal) ++ pending) visited
      end
  end.

(** Each of the [2 * (length words + 1)] states is expanded once and pushes at most 31 others. *)
Definition affirm_fuel (words : list string) : nat := 2 + 64 * S (length words).
Definition is_bounded_affirmative (text : string) : bool :=
  let words := PyText.split text in
  default false (affirm_loop (affirm_fuel words) words [(0%nat, false)] []).

(** ** Classification *)
Definition classify_consent (text : string) : Consent :=
  let normalized := normalize_consent_reply text in
  if wsearch NO_RE normalized then no
  else if is_bounded_affirmative normalized then yes
  else unclear.

Definition classify_cancel_consent (text : string) : Consent :=
  classify_consent (wsub CANCEL_PHRASE_RE " " text).

Definition is_bare_decline (text : string) : bool :=
  wfullmatch BARE_DECLINE_RE (normalize_consent_reply text).

Definition classify_person_consent (text : string) : Consent :=
  let stripped := wsub PERSON_ACTION_RE " " text in
  if is_bare_decline stripped then no
  else if is_bounded_affirmative (normalize_consent_reply stripped) then yes
  else unclear.

(** The reply to an interrupt: its ["handoff_source"] ([None] when absent), the
    text of its ["text"] and the truth of its ["readback_interrupted"]. *)
Record answer := mkAnswer {
  answer_source : option string;
  answer_text : string;
  readback_interrupted : bool
}.

(** [HandoffSource(source_value)] *)
Definition HandoffSource_of (value : string) : res HandoffSource :=
  if String.eqb value "deterministic_policy" then inr DETERMINISTIC_POLICY
  else if String.eqb value "semantic_router" then inr SEMANTIC_ROUTER
  else if String.eqb value "routing_failure_policy" then inr ROUTING_FAILURE_POLICY
  else raises ValueError "".

Definition handoff_decision (a : answer) : res (option ConfirmationDecision) :=
  match answer_source a with
  | None => inr None
  | Some source_value =>
      match HandoffSource_of source_value with
      | inr source => inr (Some (mkDecision human (Some source)))
      | inl _ => raises ValueError "confirmation handoff source is invalid"
      end
  end.

Definition classify_person_confirmation (a : answer) : res ConfirmationDecision :=
  handoff ← handoff_decision a;
  match handoff with
  | Some d => inr d
  | None => inr (mkDecision (decided (classify_person_consent (answer_text a))) None)
  end.

Definition classify_confirmation (a : answer) (cancel_action : bool) : res ConfirmationDecision :=
  handoff ← handoff_decision a;
  match handoff with
  | Some d => inr d
  | None =>
      if readback_interrupted a then inr (mkDecision (decided unclear) None)
      else
        let verdict := if cancel_action then classify_cancel_consent (answer_text a)
                       else classify_consent (answer_text a) in
        inr (mkDecision (decided verdict) None)
  end.

(** ** The grammar the work list decides

    [phrases b ws]: the words are a sequence of known phrases, and [b] tells
    whether one of them authorises. *)
Inductive phrases : bool → list string → Prop :=
  | phrases_nil : phrases false []
  | phrases_signal p b ws : p ∈ AFFIRMATIVE_SIGNALS → phrases b ws → phrases true (p ++ ws)
  | phrases_filler p b ws : p ∈ AFFIRMATIVE_FILLERS → phrases b ws → phrases b (p ++ ws).

Section worklist.
  Context (words : list string).

  (** One edge of the search, and the states it can reach. *)
Definition edge (x y : nat * bool) : Prop := x.1 ≠ length words ∧ y ∈ pushes words x.1 x.2.
Definition accepting (x : nat * bool) : Prop := x = (length words, true).
Definition node_ok (x : nat * bool) : Prop := (x.1 ≤ length words)%nat.
Definition universe : list (nat * bool) :=
    list_prod (seq 0 (S (length words))) [true; false].

Lemma phrase_at_spec i p :
    phrase_at words i p = true ↔ ∃ rest, drop i words = p ++ rest.
  Proof.
    unfold phrase_at. rewrite bool_decide_eq_true. split.
    - intros H. exists (drop (length p) (drop i words)). rewrite <-H at 1. by rewrite take_drop.
    - intros [rest ->]. by rewrite take_app_length.
  Qed.

Lemma elem_pushes i h y :
    y ∈ pushes words i h ↔ ∃ p rest, drop i words = p ++ rest ∧
      y.1 = (i + length p)%nat ∧
      ((p ∈ AFFIRMATIVE_SIGNALS ∧ y.2 = true) ∨ (p ∈ AFFIRMATIVE_FILLERS ∧ y.2 = h)).
  Proof.
    unfold pushes. rewrite elem_of_app, !list_elem_of_fmap. destruct y as [j b]; simpl.
    setoid_rewrite list_elem_of_filter. setoid_rewrite phrase_at_spec. naive_solver.
  Qed.

Lemma pushes_length i h : (length (pushes words i h) ≤ 31)%nat.
  Proof.
    unfold pushes. rewrite length_app, !length_fmap.
    pose proof (length_filter (λ p, phrase_at words i p = true) AFFIRMATIVE_SIGNALS).
    pose proof (length_filter (λ p, phrase_at words i p = true) AFFIRMATIVE_FILLERS).
    simpl in *. lia.
  Qed.

Lemma edge_ok x y : node_ok x → edge x y → node_ok y.
  Proof.
    intros Hx [_ (p & rest & Hd & Hy & _)%elem_pushes]. unfold node_ok in *.
    assert (length (drop x.1 words) = length (p ++ rest)) as Hl by by rewrite Hd.
    rewrite length_drop, length_app in Hl. lia.
  Qed.

Lemma elem_universe x : x ∈ universe ↔ node_ok x.
  Proof.
    unfold universe, node_ok. destruct x as [i []]; rewrite list_elem_of_In, in_prod_iff, in_seq;
      simpl; split; intros; try lia; repeat split; try lia; auto.
  Qed.

  (** A finished search has looked at every reachable state. *)
Definition search_inv (pending visited : list (nat * bool)) : Prop :=
    NoDup visited ∧ visited ⊆ universe ∧ pending ⊆ universe ∧
    (∀ x, x ∈ visited → ¬ accepting x) ∧
    (∀ x y, x ∈ visited → edge x y → y ∈ visited ∨ y ∈ pending).

Definition measure (pending visited : list (nat * bool)) : nat :=
    length pending + 32 * (length universe - length visited).

  (** Expanding a new state keeps the invariant and makes progress. *)
Definition expand (x : nat * bool) (pending : list (nat * bool)) : list (nat * bool) :=
    if (x.1 =? length words)%nat then pending else reverse (pushes words x.1 x.2) ++ pending.

Lemma elem_expand x pending y : y ∈ expand x pending ↔ edge x y ∨ y ∈ pending.
  Proof.
    unfold expand, edge. destruct (Nat.eqb_spec x.1 (length words)); [naive_solver|].
    rewrite elem_of_app, elem_of_reverse. naive_solver.
  Qed.

Lemma visit_inv x pending visited :
    search_inv (x :: pending) visited → x ∈ visited → search_inv pending visited.
  Proof.
    intros (Hnd & Hvu & Hpu & Hacc & Hcl) Hv. split_and!; [done|done|set_solver|done|].
    intros y z Hy Hyz. destruct (Hcl y z Hy Hyz) as [?|[->|?]%elem_of_cons]; auto.
  Qed.

Lemma expand_inv x pending visited :
    search_inv (x :: pending) visited → x ∉ visited → ¬ accepting x →
    search_inv (expand x pending) (x :: visited).
  Proof.
    intros (Hnd & Hvu & Hpu & Hacc & Hcl) Hv Hx.
    assert (x ∈ universe) as Hu by set_solver. split_and!.
    - by constructor.
    - set_solver.
    - intros y [Hxy|Hy]%elem_expand; [|set_solver].
      apply elem_universe. eapply edge_ok; [|done]. by apply elem_universe.
    - intros y [->|Hy]%elem_of_cons; auto.
    - intros y z [->|Hy]%elem_of_cons Hyz; rewrite elem_expand; [naive_solver|].
      destruct (Hcl y z Hy Hyz) as [?|[->|?]%elem_of_cons]; set_solver.
  Qed.

Lemma expand_measure x pending visited :
    search_inv (x :: pending) visited → x ∉ visited →
    (measure (expand x pending) (x :: visited) < measure (x :: pending) visited)%nat.
  Proof.
    intros (Hnd & Hvu & Hpu & _) Hv.
    assert (S (length visited) ≤ length universe)%nat as Hlt.
    { change (length (x :: visited) ≤ length universe)%nat.
      apply submseteq_length, NoDup_submseteq; [by constructor|set_solver]. }
    assert (length (expand x pending) ≤ 31 + length pending)%nat as Hl.
    { unfold expand. case_match; [lia|]. rewrite length_app, length_reverse.
      pose proof (pushes_length x.1 x.2). lia. }
    unfold measure. cbn [length]. lia.
  Qed.

Lemma affirm_loop_spec fuel pending visited :
    search_inv pending visited → (measure pending visited < fuel)%nat →
    (affirm_loop fuel words pending visited = Some true ∧
      ∃ x y, x ∈ pending ∧ rtc edge x y ∧ accepting y) ∨
    (affirm_loop fuel words pending visited = Some false ∧
      ∃ closed, pending ⊆ closed ∧ visited ⊆ closed ∧ (∀ x, x ∈ closed → ¬ accepting x) ∧
        (∀ x y, x ∈ closed → edge x y → y ∈ closed)).
  Proof.
    revert pending visited. induction fuel as [|fuel IH]; intros pending visited Hinv Hm; [lia|].
    destruct pending as [|[i h] pending]; simpl.
    { right. split; [done|]. destruct Hinv as (_ & _ & _ & Hacc & Hcl).
      exists visited. split_and!; [set_solver|done|done|]. intros x y Hx Hxy.
      destruct (Hcl x y Hx Hxy); set_solver. }
    case_bool_decide as Hv.
    { destruct (IH pending visited) as [(-> & x & y & ? & ?)|(-> & closed & ? & ?)].
      - by eapply visit_inv.
      - unfold measure in *. cbn [length] in Hm. lia.
      - left. split; [done|]. exists x, y. set_solver.
      - right. split; [done|]. exists closed. set_solver. }
    destruct (decide (accepting (i, h))) as [Ha|Ha].
    { injection Ha as -> ->. rewrite Nat.eqb_refl. left. split; [done|].
      exists (length words, true), (length words, true). split_and!; [left|reflexivity|done]. }
    assert ((if (i =? length words)%nat
             then if h then Some true else affirm_loop fuel words pending ((i, h) :: visited)
             else affirm_loop fuel words (reverse (pushes words i h) ++ pending) ((i, h) :: visited))
      = affirm_loop fuel words (expand (i, h) pending) ((i, h) :: visited)) as ->.
    { unfold expand. simpl. destruct (Nat.eqb_spec i (length words)); [|done].
      destruct h; [|done]. subst. by destruct Ha. }
    destruct (IH (expand (i, h) pending) ((i, h) :: visited))
      as [(-> & x & y & Hx & ? & ?)|(-> & closed & Hc & ? & ? & ?)].
    - by apply expand_inv.
    - pose proof (expand_measure _ _ _ Hinv Hv). lia.
    - left. split; [done|]. apply elem_expand in Hx as [Hx|Hx].
      + exists (i, h), y. split_and!; [left|by eapply rtc_l|done].
      + exists x, y. set_solver.
    - right. split; [done|]. exists closed. split_and!; [|set_solver|done|done].
      intros x [->|Hx]%elem_of_cons; [set_solver|]. apply Hc, elem_expand. by right.
  Qed.

Lemma affirm_loop_start :
    affirm_loop (affirm_fuel words) words [(0%nat, false)] [] = Some true ↔
    rtc edge (0%nat, false) (length words, true).
  Proof.
    destruct (affirm_loop_spec (affirm_fuel words) [(0%nat, false)] [])
      as [(-> & x & y & ->%list_elem_of_singleton & H & ->)|(-> & closed & Hp & _ & Hacc & Hcl)].
    - split_and!; [constructor|set_solver| |set_solver|set_solver].
      intros x ->%list_elem_of_singleton. apply elem_universe. unfold node_ok. simpl. lia.
    - unfold measure, affirm_fuel, universe. rewrite length_prod, length_seq. simpl. lia.
    - done.
    - split; [done|]. intros H. exfalso.
      assert (∀ x y, rtc edge x y → x ∈ closed → y ∈ closed) as Hrtc.
      { induction 1; auto. eauto. }
      eapply (Hacc (length words, true)); [|done]. eapply Hrtc; [done|]. set_solver.
  Qed.

Lemma affirm_loop_total :
    ∃ b, affirm_loop (affirm_fuel words) words [(0%nat, false)] [] = Some b.
  Proof.
    destruct (affirm_loop_spec (affirm_fuel words) [(0%nat, false)] []) as [[-> _]|[-> _]]; eauto.
    - split_and!; [constructor|set_solver| |set_solver|set_solver].
      intros x ->%list_elem_of_singleton. apply elem_universe. unfold node_ok. simpl. lia.
    - unfold measure, affirm_fuel, universe. rewrite length_prod, length_seq. simpl. lia.
  Qed.

  (** Paths to the end spell out a phrase sequence. *)
Lemma rtc_edge_phrases x y : rtc edge x y → accepting y → node_ok x →
    ∃ b, phrases b (drop x.1 words) ∧ (b || x.2) = true.
  Proof.
    induction 1 as [x|x y z Hxy _ IH]; intros Ha Hx.
    - rewrite Ha. simpl. rewrite drop_all. exists false. split; [constructor|done].
    - destruct (IH Ha (edge_ok _ _ Hx Hxy)) as (b & Hph & Hb).
      destruct Hxy as [_ (p & rest & Hd & Hy & Hp)%elem_pushes].
      assert (drop y.1 words = rest) as Hr.
      { rewrite Hy, <-drop_drop, Hd. by rewrite drop_app_length. }
      rewrite Hd. rewrite Hr in Hph. destruct Hp as [[Hp H2]|[Hp H2]].
      + exists true. split; [by eapply phrases_signal|done].
      + exists b. split; [by apply phrases_filler|by rewrite <-H2].
  Qed.

Lemma phrase_nonempty p :
    p ∈ AFFIRMATIVE_SIGNALS ∨ p ∈ AFFIRMATIVE_FILLERS → (1 ≤ length p)%nat.
  Proof.
    intros Hp. assert (Forall (λ p, (1 ≤ length p)%nat) (AFFIRMATIVE_SIGNALS ++ AFFIRMATIVE_FILLERS))
      as HF by (repeat constructor).
    rewrite Forall_forall in HF. apply HF. by rewrite elem_of_app.
  Qed.

Lemma phrases_rtc_edge b ws : phrases b ws → ∀ i h, (i ≤ length words)%nat → drop i words = ws →
    rtc edge (i, h) (length words, b || h).
  Proof.
    assert (∀ i p ws, (i ≤ length words)%nat → drop i words = p ++ ws →
      (i + length p ≤ length words)%nat ∧ drop (i + length p) words = ws) as Hnext.
    { intros i p ws' Hi Hd. assert (length (drop i words) = length (p ++ ws')) as Hl by by rewrite Hd.
      rewrite length_drop, length_app in Hl. split; [lia|].
      rewrite <-drop_drop, Hd. by rewrite drop_app_length. }
    induction 1 as [|p b ws Hp _ IH|p b ws Hp _ IH]; intros i h Hi Hd.
    - assert (length (drop i words) = 0%nat) as Hl by by rewrite Hd.
      rewrite length_drop in Hl. replace (length words) with i by lia. done.
    - destruct (Hnext _ _ _ Hi Hd) as [Hi' Hd'].
      pose proof (phrase_nonempty p (or_introl Hp)) as Hlen.
      eapply rtc_l; [|simpl; rewrite <-(orb_true_r b); by apply (IH (i + length p)%nat true)].
      split; [simpl; lia|]. apply elem_pushes. exists p, ws. simpl. auto.
    - destruct (Hnext _ _ _ Hi Hd) as [Hi' Hd'].
      pose proof (phrase_nonempty p (or_intror Hp)) as Hlen.
      eapply rtc_l; [|by apply (IH (i + length p)%nat h)].
      split; [simpl; lia|]. apply elem_pushes. exists p, ws. simpl. auto.
  Qed.
End worklist.

(** The search always ends within its fuel and decides the grammar. *)
Lemma is_bounded_affirmative_iff text :
  is_bounded_affirmative text = true ↔ phrases true (PyText.split text).
Proof.
  unfold is_bounded_affirmative. set (words := PyText.split text). cbv zeta.
  assert (default false (affirm_loop (affirm_fuel words) words [(0%nat, false)] []) = true ↔
    affirm_loop (affirm_fuel words) words [(0%nat, false)] [] = Some true) as ->.
  { destruct (affirm_loop _ _ _ _) as [[]|]; naive_solver. }
  rewrite affirm_loop_start. split.
  - intros H. apply rtc_edge_phrases in H as (b & H & Hb); [|done|unfold node_ok; simpl; lia].
    simpl in *. rewrite orb_false_r in Hb. by subst.
  - intros H. apply (phrases_rtc_edge words true words H 0 false); [lia|done].
Qed.

(** ** Negation *)
Definition NEGATIONS : list (list string) :=
  [["no"]; ["nope"]; ["nah"]; ["dont"]; ["don't"]; ["do"; "not"]; ["cancel"]; ["stop"];
   ["nevermind"]; ["never"; "mind"]; ["forget"; "it"]; ["wrong"]].

(** The words of a normalised reply. *)
Definition consent_words (text : string) : list string :=
  PyText.split (Regex.sub PUNCTUATION_RE " " (replace_right_quote (lower text))).

Lemma split_normalize text : PyText.split (normalize_consent_reply text) = consent_words text.
Proof. apply split_join, split_tokens. Qed.

(** A negation phrase between spaces or the ends of the text matches. *)
Lemma no_re_negation p neg post :
  neg ∈ NEGATIONS → p = None ∨ p = Some " "%char → post = "" ∨ (∃ y, post = " " +:+ y) →
  isSome (wmatch_at NO_RE p (join " " neg +:+ post)) = true.
Proof.
  intros Hneg Hp Hpost. unfold NEGATIONS in Hneg.
  destruct Hp as [-> | ->], Hpost as [-> | [y ->]];
    repeat (apply elem_of_cons in Hneg as [->|Hneg]; [vm_compute; reflexivity|]);
    by apply elem_of_nil in Hneg.
Qed.

Lemma negation_matches a neg b :
  neg ∈ NEGATIONS → wsearch NO_RE (join " " (a ++ neg ++ b)) = true.
Proof.
  intros Hneg. destruct (join_part " " a neg b) as (pre & post & -> & Hpre & Hpost).
  { intros ->. unfold NEGATIONS in Hneg. set_solver. }
  assert (isSome (wmatch_at NO_RE (last_char None pre) (join " " neg +:+ post)) = true) as Hm.
  { apply no_re_negation; [done| |done]. destruct Hpre as [-> | [x ->]]; [by left|].
    right. by rewrite last_char_app. }
  apply wmatch_at_spec in Hm as (p' & s' & H). apply wsearch_spec.
  by exists pre, (join " " neg +:+ post), p', s'.
Qed.

(** No sentence of the affirmative vocabulary holds a negation. *)
Definition vocabulary : list string := fromkeys (mjoin (AFFIRMATIVE_SIGNALS ++ AFFIRMATIVE_FILLERS)).

Lemma phrases_vocabulary b ws : phrases b ws → ws ⊆ vocabulary.
Proof.
  unfold vocabulary. intros H w Hw. apply elem_of_fromkeys, list_elem_of_join.
  induction H as [|p b ws Hp _ IH|p b ws Hp _ IH]; [set_solver| |];
    apply elem_of_app in Hw as [Hw|Hw]; auto; exists p; rewrite elem_of_app; auto.
Qed.

Definition no_body : wre :=
  match NO_RE with WCat _ r => r | r => r end.

Definition clear_start (s : string) : bool :=
  negb (isSome (wmatch no_body None s (λ p s, Some (p, s)))).

Lemma vocabulary_clear r :
  forallb (λ w', clear_start w' && forallb (λ w2, clear_start (w' +:+ " " +:+ w2 +:+ r)) vocabulary)
    ("" :: mjoin (suffixes <$> vocabulary)) = true.
Proof. vm_compute. reflexivity. Qed.

Lemma no_body_prev {X} p s (k : option ascii → string → option X) :
  wmatch no_body p s k = wmatch no_body None s k.
Proof. destruct s; reflexivity. Qed.

Lemma clear_start_no_run s p p' s' : clear_start s = true → ¬ wrun NO_RE p s p' s'.
Proof.
  intros Hc H. change NO_RE with (WCat WBound no_body) in H.
  remember (WCat WBound no_body) as r eqn:Hr. destruct H as [| | |a b p s p1 s1 p2 s2 H1 H2| | | | | |];
    try discriminate. injection Hr as -> ->. inversion H1; subst.
  unfold clear_start in Hc. destruct (wmatch no_body None s1 _) as [?|] eqn:E; [done|].
  rewrite <-(no_body_prev p1) in E. by pose proof (wmatch_complete _ _ _ _ E _ _ H2).
Qed.

Lemma no_re_vocabulary ws : ws ⊆ vocabulary → wsearch NO_RE (join " " ws) = false.
Proof.
  intros Hws. apply not_true_iff_false. intros (pre & rest & p' & s' & Heq & H)%wsearch_spec.
  revert H. apply clear_start_no_run. apply join_suffix in Heq as (w' & l' & Hw & Hl & ->).
  assert (w' ∈ "" :: mjoin (suffixes <$> vocabulary)) as Hv.
  { destruct Hw as [->|(w & Hw & Hs)]; [left|]. right. apply list_elem_of_join.
    exists (suffixes w). split; [done|]. apply list_elem_of_fmap. eauto. }
  assert (∀ r, clear_start w' = true ∧
    ∀ w2, w2 ∈ vocabulary → clear_start (w' +:+ " " +:+ w2 +:+ r) = true) as Hclear.
  { intros r. pose proof (vocabulary_clear r) as Hall. rewrite forallb_forall in Hall.
    specialize (Hall w' (proj1 (list_elem_of_In _ _) Hv)). bools. split; [done|].
    match goal with H : forallb _ _ = true |- _ => rewrite forallb_forall in H; rename H into Hc end.
    intros w2 Hw2. by apply Hc, list_elem_of_In. }
  destruct l' as [|w2 l']; [rewrite app_empty_r; apply (Hclear "")|].
  unfold join_tail at 1. rewrite join_cons_tail. apply Hclear, Hws, Hl. left.
Qed.

Lemma classify_consent_yes text :
  classify_consent text = yes ↔ phrases true (consent_words text).
Proof.
  unfold classify_consent. cbv zeta. rewrite <-split_normalize, <-is_bounded_affirmative_iff.
  destruct (is_bounded_affirmative (normalize_consent_reply text)) eqn:Ha.
  - split; [done|]. intros _.
    apply is_bounded_affirmative_iff in Ha. rewrite split_normalize in Ha.
    apply phrases_vocabulary in Ha. apply no_re_vocabulary in Ha.
    change (join " " (consent_words text)) with (normalize_consent_reply text) in Ha. by rewrite Ha.
  - destruct (wsearch _ _); done.
Qed.

Lemma classify_consent_negation text a neg b :
  neg ∈ NEGATIONS → consent_words text = a ++ neg ++ b → classify_consent text = no.
Proof.
  intros Hneg Heq. unfold classify_consent. cbv zeta.
  change (normalize_consent_reply text) with (join " " (consent_words text)).
  by rewrite Heq, negation_matches.
Qed.

Lemma person_consent_yes text : classify_person_consent text = yes →
  phrases true (consent_words (wsub PERSON_ACTION_RE " " text)).
Proof.
  unfold classify_person_consent. cbv zeta. destruct (is_bare_decline _); [done|].
  destruct (is_bounded_affirmative _) eqn:E; [|done]. intros _.
  apply is_bounded_affirmative_iff in E. by rewrite split_normalize in E.
Qed.

(** ** Properties *)

(** A reply to a closed question is a yes exactly when its normalised words
    are a sequence of the known affirmative phrases and fillers with at least
    one phrase that authorises; the negation scan never overrules such a
    reply, and the work list of [_is_bounded_affirmative] ends on every input. *)
Theorem consent_yes_iff_affirmative (text : string) :
  (classify_consent text = yes ↔ phrases true (consent_words text)) ∧
  (let words := PyText.split (normalize_consent_reply text) in
   isSome (affirm_loop (affirm_fuel words) words [(0%nat, false)] []) = true).
Proof.
  split; [apply classify_consent_yes|]. cbv zeta. set (words := PyText.split _).
  by destruct (affirm_loop_total words) as [? ->].
Qed.

(** A negation anywhere among the words of a reply makes it a no, whatever
    affirmative phrases surround it; at the cancellation readback the same
    holds of what is left once the cancel phrase is taken out. *)
Theorem negation_wins (text : string) (a neg b : list string) :
  neg ∈ NEGATIONS →
  (consent_words text = a ++ neg ++ b → classify_consent text = no) ∧
  (consent_words (wsub CANCEL_PHRASE_RE " " text) = a ++ neg ++ b →
   classify_cancel_consent text = no).
Proof. intros Hneg. split; by apply classify_consent_negation. Qed.

Lemma negation_wins_witness :
  ["do"; "not"] ∈ NEGATIONS ∧ classify_consent "Yes, go ahead... no wait, do not!" = no ∧
  classify_cancel_consent "yes cancel my order; no, do not" = no.
Proof.
  assert (["do"; "not"] ∈ NEGATIONS) as H by (apply list_elem_of_In; simpl; tauto).
  split; [exact H|]. split.
  - refine (proj1 (negation_wins "Yes, go ahead... no wait, do not!"
      ["yes"; "go"; "ahead"; "no"; "wait"] _ [] H) _). by vm_compute.
  - refine (proj2 (negation_wins "yes cancel my order; no, do not" ["yes"; "no"] _ [] H) _).
    by vm_compute.
Defined.

(** C36 An authorising verdict is earned: it needs a reply with no handoff
    request, a readback that was heard to its end, and words in the affirmative
    grammar (after the cancel phrase is taken out at a cancellation).  A valid
    handoff source always wins, heard or not, and an unknown one is an error. *)
Theorem confirmation_yes_earned (a : answer) (cancel_action : bool) :
  (∀ d, classify_confirmation a cancel_action = inr d → verdict d = decided yes →
    answer_source a = None ∧ readback_interrupted a = false ∧ handoff_source d = None ∧
    phrases true (consent_words
      (if cancel_action then wsub CANCEL_PHRASE_RE " " (answer_text a) else answer_text a))) ∧
  (∀ v, answer_source a = Some v →
    (∃ src, HandoffSource_of v = inr src ∧
      classify_confirmation a cancel_action = inr (mkDecision human (Some src)) ∧
      classify_person_confirmation a = inr (mkDecision human (Some src))) ∨
    (is_ok (HandoffSource_of v) = false ∧ is_ok (classify_confirmation a cancel_action) = false ∧
      is_ok (classify_person_confirmation a) = false)) ∧
  (answer_source a = None → is_ok (classify_confirmation a cancel_action) = true).
Proof.
  unfold classify_confirmation, classify_person_confirmation, handoff_decision.
  destruct a as [[v|] text interrupted]; simpl; split_and!.
  - intros d Hd. destruct (HandoffSource_of v); simpl in Hd; [done|]. by simplify_eq.
  - intros v' [= <-]. destruct (HandoffSource_of v) as [e|src]; [right; done|left; eauto].
  - done.
  - intros d Hd. destruct interrupted; simplify_eq/=; [done|]. intros [= Hv].
    split_and!; [done|done|done|]. destruct cancel_action; by apply classify_consent_yes.
  - done.
  - by destruct interrupted.
Qed.

Lemma confirmation_yes_earned_witness :
  phrases true (consent_words (wsub CANCEL_PHRASE_RE " " "Yeah, cancel that order.")) ∧
  is_ok (classify_confirmation (mkAnswer (Some "nobody") "yes" false) false) = false.
Proof.
  split.
  - eapply (confirmation_yes_earned (mkAnswer None "Yeah, cancel that order." false) true);
      by vm_compute.
  - destruct (proj1 (proj2 (confirmation_yes_earned (mkAnswer (Some "nobody") "yes" false) false))
      "nobody" eq_refl) as [(src & H & _)|(_ & H & _)]; [by vm_compute in H|exact H].
Defined.
