(* ===== verification/Confirmation.v ===== *)
(** * Confirmation policies and the spoken policy

    dtos/confirmation.py: what a readback must speak before a sensitive tool
    may run, and the verification floors of refunds, profile changes and
    account-wide reads.  agents/spoken_policy.py: the sentences derived from
    the enforced policy values.  Amounts are whole cents. *)

From S2P Require Import Prelude PyText Regex Tokens Profile.
Local Open Scope list_scope.

Definition CRITICAL_CONFIRMATION_FIELDS : list string :=
  ["quantity"; "line_items"; "total_amount"; "order_id"; "new_address";
   "new_payment_instrument_ref"; "new_contact"].

Inductive ConfirmationStrength := readback | explicit_yes | double_confirm.

Record ToolConfirmationPolicy := mkPolicy {
  tool : string;
  confirm_fields : list string;
  strength : ConfirmationStrength
}.

(** Construction: [min_length] of both fields, and [_fields_are_critical]. *)
Definition make_ToolConfirmationPolicy (tool : string) (confirm_fields : list string)
    (strength : ConfirmationStrength) : res ToolConfirmationPolicy :=
  if nonempty tool && negb (length confirm_fields =? 0)%nat then
    let unknown := base.filter (λ f, f ∉ CRITICAL_CONFIRMATION_FIELDS) confirm_fields in
    requires (length unknown =? 0)%nat ValidationError "not in CRITICAL_CONFIRMATION_FIELDS" ;;
    inr (mkPolicy tool confirm_fields strength)
  else raises ValidationError "".

(** [not rendered[field] or rendered[field] not in phrase] *)
Definition unspoken (rendered : list (string * string)) (phrase field : string) : bool :=
  match dget field rendered with
  | Some v => negb (nonempty v) || negb (py_in v phrase)
  | None => false
  end.

Definition validate_confirmation_rendering (policy : ToolConfirmationPolicy)
    (rendered : list (string * string)) (phrase : string) : res string :=
  let missing := base.filter (λ f, f ∉ dkeys rendered) (confirm_fields policy) in
  requires (length missing =? 0)%nat ValueError "confirmation cannot render declared fields" ;;
  requires (length (base.filter (λ f, unspoken rendered phrase f = true) (confirm_fields policy))
      =? 0)%nat ValueError "confirmation does not speak declared fields" ;;
  inr phrase.

(** ** Verification floors *)
Inductive RefundDestination := original | new_instrument | new_address.

Definition refund_required_level (amount_usd : Z) (destination : RefundDestination) : Z :=
  match destination with
  | new_instrument | new_address => 2
  | original => 1
  end.
Definition profile_change_required_level (field : ProfileField) : Z := 2.
Definition identity_required_level : Z := 2.

(** ** The declared contracts *)
Definition ISSUE_REFUND_POLICY : res ToolConfirmationPolicy :=
  make_ToolConfirmationPolicy "issue_refund"
    ["order_id"; "total_amount"; "new_payment_instrument_ref"] explicit_yes.
Definition CREATE_RETURN_POLICY : res ToolConfirmationPolicy :=
  make_ToolConfirmationPolicy "create_return" ["order_id"; "total_amount"] explicit_yes.
Definition PROFILE_CHANGE_POLICIES (field : ProfileField) : res ToolConfirmationPolicy :=
  match field with
  | address => make_ToolConfirmationPolicy "update_profile" ["new_address"] explicit_yes
  | contact => make_ToolConfirmationPolicy "update_profile" ["new_contact"] explicit_yes
  end.

(** ** The session's policy values (dtos/state.py) *)
Inductive CartQuantitySource := conversation | this_request.

Record PolicyContext := mkPolicyContext {
  max_order_value_usd : Z;
  allow_ai_merchant_handoff : bool;
  refund_auto_approve_under_usd : Z;
  refund_require_human_above_usd : Z;
  refund_returnless_under_usd : Z;
  return_window_days : Z;
  pending_ttl_seconds : Z;
  otp_max_attempts : Z;
  contact_reask_max : Z;
  auth_denials_before_human_offer : Z;
  max_tool_hops : Z;
  identity_clarification_reask_max : Z;
  support_clarification_reask_max : Z;
  cart_clarification_reask_max : Z;
  router_clarification_reask_max : Z;
  cart_quantity_source : CartQuantitySource;
  cancel_batch_max : Z;
  spoken_policy_extra : option string
}.

Definition PolicyContext_valid (p : PolicyContext) : bool :=
  (0 <=? max_order_value_usd p) && (0 <=? refund_auto_approve_under_usd p) &&
  (0 <=? refund_require_human_above_usd p) && (0 <=? refund_returnless_under_usd p) &&
  (1 <=? return_window_days p) && (0 <? pending_ttl_seconds p) &&
  (1 <=? otp_max_attempts p) && (0 <=? contact_reask_max p) &&
  (1 <=? auth_denials_before_human_offer p) && (1 <=? max_tool_hops p) &&
  (0 <=? identity_clarification_reask_max p) && (0 <=? support_clarification_reask_max p) &&
  (0 <=? cart_clarification_reask_max p) && (0 <=? router_clarification_reask_max p) &&
  (1 <=? cancel_batch_max p).

(** ** The spoken policy *)
(** [f"{amount:.0f}"]: the nearest whole number of dollars, ties to even. *)
Definition round_half_even (cents : Z) : Z :=
  let q := cents / 100 in
  let r := cents mod 100 in
  if r <? 50 then q else if 50 <? r then q + 1 else if Z.even q then q else q + 1.
Definition str_dollars (cents : Z) : string := str_int (round_half_even cents).

Definition returnless_sentence (policy : PolicyContext) : string :=
  let threshold := refund_returnless_under_usd policy in
  if threshold <=? 0 then
    "For an order that has already shipped, a refund is issued once the return is arranged."
  else
    "For an order that has already shipped, refunds over $" +:+ str_dollars threshold +:+
    " are issued once the return is arranged; smaller amounts may be refunded without a return.".

Definition human_review_sentence (policy : PolicyContext) : string :=
  "Refunds above $" +:+ str_dollars (refund_require_human_above_usd policy) +:+
  " are handled by our support team rather than on this call.".

Definition return_window_sentence (policy : PolicyContext) : string :=
  "Returns are accepted within " +:+ str_int (return_window_days policy) +:+ " days of delivery.".

Definition compose_spoken_policy (policy : PolicyContext) : string :=
  let parts := [returnless_sentence policy; return_window_sentence policy;
                human_review_sentence policy] in
  let parts :=
    match spoken_policy_extra policy with
    | Some extra => if nonempty extra then parts ++ [strip extra] else parts
    | None => parts
    end in
  join " " parts.

Definition demo_policy (returnless human window : Z) : PolicyContext :=
  mkPolicyContext 50000 true 5000 human returnless window 120 2 1 2 5 1 1 1 1 conversation 5 None.

Example ex_spoken : compose_spoken_policy (demo_policy 5000 20000 30) =
  "For an order that has already shipped, refunds over $50 are issued once the return is arranged; smaller amounts may be refunded without a return. Returns are accepted within 30 days of delivery. Refunds above $200 are handled by our support team rather than on this call.".
Proof. by vm_compute. Qed.

(** ** Readbacks *)
Lemma length_filter_zero {A} (P : A → Prop) `{!∀ x, Decision (P x)} (l : list A) :
  (length (base.filter P l) =? 0)%nat = true ↔ ∀ x, x ∈ l → ¬ P x.
Proof.
  rewrite Nat.eqb_eq. split.
  - intros H0 x Hx HP. apply nil_length_inv in H0. by eapply filter_nil_not_elem_of.
  - intros Hno. destruct (base.filter P l) as [|x r] eqn:E; [done|].
    assert (x ∈ base.filter P l) as [? ?]%list_elem_of_filter by (rewrite E; left). naive_solver.
Qed.

Definition spoken (rendered : list (string * string)) (phrase field : string) : Prop :=
  ∃ v, dget field rendered = Some v ∧ v ≠ "" ∧ py_in v phrase = true.

Lemma spoken_iff rendered phrase f :
  spoken rendered phrase f ↔ f ∈ dkeys rendered ∧ unspoken rendered phrase f = false.
Proof.
  unfold spoken, unspoken. destruct (dget f rendered) as [v|] eqn:E.
  - assert (f ∈ dkeys rendered).
    { unfold dkeys. apply list_elem_of_fmap. exists (f, v). split; [done|]. by apply dget_Some_elem. }
    rewrite orb_false_iff, !negb_false_iff, nonempty_spec. naive_solver.
  - apply dget_None in E. naive_solver.
Qed.

Lemma validate_rendering_ok policy rendered phrase :
  is_ok (validate_confirmation_rendering policy rendered phrase) = true ↔
  ∀ f, f ∈ confirm_fields policy → spoken rendered phrase f.
Proof.
  unfold validate_confirmation_rendering. cbv zeta.
  assert (∀ b1 c1 m1 b2 c2 m2, is_ok (requires b1 c1 m1 ;; requires b2 c2 m2 ;; inr phrase) = true ↔
    b1 = true ∧ b2 = true) as Hok.
  { intros [] c1 m1 [] c2 m2; simpl; naive_solver. }
  rewrite Hok, !length_filter_zero. setoid_rewrite spoken_iff. split.
  - intros [Hk Hu] f Hf. specialize (Hk f Hf). specialize (Hu f Hf).
    split; [destruct (decide (f ∈ dkeys rendered)); tauto|by apply not_true_is_false].
  - intros H. split; intros f Hf; destruct (H f Hf) as [? Hu]; [tauto|by rewrite Hu].
Qed.

Lemma validate_rendering_value policy rendered phrase :
  match validate_confirmation_rendering policy rendered phrase with
  | inr p => p = phrase
  | inl e => exc_cls e = ValueError
  end.
Proof.
  unfold validate_confirmation_rendering. cbv zeta. munfold_goal.
  destruct (_ =? 0)%nat; [destruct (_ =? 0)%nat|]; done.
Qed.

(** ** Decimal numbers inside a sentence *)
Lemma pretty_N_char_digit x : is_digit (pretty_N_char x) = true.
Proof. destruct x as [|p]; [done|]. do 4 (try (destruct p as [p|p|]; try done)). Qed.

Lemma pretty_N_go_digits n s : sforall is_digit s = true → sforall is_digit (pretty_N_go n s) = true.
Proof.
  revert s. induction (N.lt_wf_0 n) as [n _ IH]; intros s Hs.
  destruct (decide (n = 0)%N) as [->|]; [by rewrite pretty_N_go_0|].
  rewrite pretty_N_go_step by lia. apply IH; [apply N.div_lt; lia|].
  simpl. by rewrite pretty_N_char_digit.
Qed.

Lemma str_int_digits z : 0 ≤ z → sforall is_digit (str_int z) = true.
Proof.
  intros Hz. unfold str_int, pretty, pretty_Z. destruct z as [|p|p]; [done| |lia].
  unfold pretty, pretty_positive, pretty, pretty_N. case_decide; [done|]. by apply pretty_N_go_digits.
Qed.

(** A run of digits followed by something else can be read off the text. *)
Definition digit_free_head (s : string) : bool :=
  match s with "" => true | String c _ => negb (is_digit c) end.

Lemma digits_inj a b s t :
  sforall is_digit a = true → sforall is_digit b = true →
  digit_free_head s = true → digit_free_head t = true →
  a +:+ s = b +:+ t → a = b ∧ s = t.
Proof.
  intros Ha Hb Hs Ht. revert b Hb. induction a as [|c a IH]; intros [|d b] Hb Heq; simpl in *;
    rewrite ?app_nil_s, ?app_cons in Heq.
  - done.
  - subst s. simpl in Hs. bools. congruence.
  - subst t. simpl in Ht. bools. congruence.
  - injection Heq as -> Heq. bools. by destruct (IH ltac:(done) b ltac:(done) Heq) as [-> ->].
Qed.

Lemma str_int_text_inj p x y s t : 0 ≤ x → 0 ≤ y →
  digit_free_head s = true → digit_free_head t = true →
  p +:+ (str_int x +:+ s) = p +:+ (str_int y +:+ t) → x = y ∧ s = t.
Proof.
  intros Hx Hy Hs Ht Heq%app_string_inj_l.
  apply digits_inj in Heq as [Hn ->]; auto using str_int_digits.
  split; [|done]. by apply (str_int_inj "").
Qed.

Lemma round_half_even_nonneg c : 0 ≤ c → 0 ≤ round_half_even c.
Proof.
  intros. pose proof (Z.div_pos c 100 ltac:(done) ltac:(lia)).
  unfold round_half_even. cbv zeta. repeat case_match; lia.
Qed.

(** The rounded amount is within half a dollar of the amount. *)
Lemma round_half_even_error c : Z.abs (100 * round_half_even c - c) ≤ 50.
Proof.
  pose proof (Z.div_mod c 100 ltac:(lia)). pose proof (Z.mod_pos_bound c 100 ltac:(lia)).
  unfold round_half_even. cbv zeta. repeat case_match; bools; lia.
Qed.

Lemma round_half_even_whole c d :
  c mod 100 = 0 → d mod 100 = 0 → round_half_even c = round_half_even d → c = d.
Proof.
  intros Hc Hd Heq. unfold round_half_even in Heq. cbv zeta in Heq. rewrite Hc, Hd in Heq.
  simpl in Heq. rewrite (Z.div_mod c 100), (Z.div_mod d 100) by lia. by rewrite Hc, Hd, Heq.
Qed.

(** The derived part of the spoken policy, with what follows each number. *)
Definition window_tail (p : PolicyContext) : string :=
  " days of delivery. Refunds above $" +:+
  (str_dollars (refund_require_human_above_usd p) +:+
   " are handled by our support team rather than on this call.").
Definition after_returnless (p : PolicyContext) : string :=
  " Returns are accepted within " +:+ (str_int (return_window_days p) +:+ window_tail p).

Lemma compose_without_extra p : spoken_policy_extra p = None →
  compose_spoken_policy p = returnless_sentence p +:+ after_returnless p.
Proof.
  intros H. unfold compose_spoken_policy. rewrite H. rewrite join_cons2. simpl join.
  unfold return_window_sentence, human_review_sentence, after_returnless, window_tail.
  by rewrite !app_assoc_s.
Qed.

(** The dollars the returnless sentence names: none when there is no threshold. *)
Definition spoken_threshold (p : PolicyContext) : option Z :=
  if refund_returnless_under_usd p <=? 0 then None
  else Some (round_half_even (refund_returnless_under_usd p)).

Lemma after_returnless_inj p q :
  PolicyContext_valid p = true → PolicyContext_valid q = true →
  after_returnless p = after_returnless q →
  return_window_days p = return_window_days q ∧
  round_half_even (refund_require_human_above_usd p) =
    round_half_even (refund_require_human_above_usd q).
Proof.
  unfold PolicyContext_valid, after_returnless. intros Hp Hq Heq. bools.
  apply str_int_text_inj in Heq as [Hw Ht]; [|lia|lia|done|done]. split; [done|].
  unfold window_tail, str_dollars in Ht.
  apply str_int_text_inj in Ht as [Hh _]; [done|by apply round_half_even_nonneg..|done|done].
Qed.

Lemma compose_inj p q :
  PolicyContext_valid p = true → PolicyContext_valid q = true →
  spoken_policy_extra p = None → spoken_policy_extra q = None →
  compose_spoken_policy p = compose_spoken_policy q →
  spoken_threshold p = spoken_threshold q ∧ after_returnless p = after_returnless q.
Proof.
  intros Hp Hq Ep Eq Heq. rewrite !compose_without_extra in Heq by done.
  unfold returnless_sentence, spoken_threshold in *. cbv zeta in Heq.
  destruct (refund_returnless_under_usd p <=? 0) eqn:Lp, (refund_returnless_under_usd q <=? 0) eqn:Lq.
  - apply app_string_inj_l in Heq. done.
  - discriminate Heq.
  - discriminate Heq.
  - rewrite !app_assoc_s in Heq. bools. unfold str_dollars in Heq.
    apply str_int_text_inj in Heq as [-> Ht]; [|apply round_half_even_nonneg; lia..|done|done].
    apply app_string_inj_l in Ht. done.
Qed.

(** ** Properties *)

(** A readback is accepted exactly when every field the policy declares is
    rendered to a non-empty text that occurs in the spoken phrase; it is then
    returned unchanged, and any other rendering is a [ValueError].  The
    contracts the platform declares are themselves accepted. *)
Theorem readback_speaks_every_field (policy : ToolConfirmationPolicy) rendered phrase :
  (is_ok (validate_confirmation_rendering policy rendered phrase) = true ↔
    ∀ f, f ∈ confirm_fields policy →
      ∃ v, dget f rendered = Some v ∧ v ≠ "" ∧ py_in v phrase = true) ∧
  match validate_confirmation_rendering policy rendered phrase with
  | inr p => p = phrase
  | inl e => exc_cls e = ValueError
  end ∧
  Forall (λ r, is_ok r = true)
    [ISSUE_REFUND_POLICY; CREATE_RETURN_POLICY; PROFILE_CHANGE_POLICIES address;
     PROFILE_CHANGE_POLICIES contact].
Proof.
  split_and!; [apply validate_rendering_ok|apply validate_rendering_value|].
  repeat constructor.
Qed.

(** The spoken policy follows the enforced values up to whole dollars: two
    sessions without free-text extras hear the same summary exactly when they
    have the same return window, the same human-review amount to the nearest
    dollar and the same returnless threshold to the nearest dollar (with no
    threshold told apart from any threshold); on whole-dollar policies the
    enforced values themselves are equal. *)
Theorem spoken_policy_tracks_values (p q : PolicyContext) :
  PolicyContext_valid p = true → PolicyContext_valid q = true →
  spoken_policy_extra p = None → spoken_policy_extra q = None →
  (compose_spoken_policy p = compose_spoken_policy q ↔
    spoken_threshold p = spoken_threshold q ∧ return_window_days p = return_window_days q ∧
    round_half_even (refund_require_human_above_usd p) =
      round_half_even (refund_require_human_above_usd q)) ∧
  (compose_spoken_policy p = compose_spoken_policy q →
    Forall (λ c, c mod 100 = 0)
      [refund_returnless_under_usd p; refund_returnless_under_usd q;
       refund_require_human_above_usd p; refund_require_human_above_usd q] →
    refund_returnless_under_usd p = refund_returnless_under_usd q ∧
    return_window_days p = return_window_days q ∧
    refund_require_human_above_usd p = refund_require_human_above_usd q).
Proof.
  intros Hp Hq Ep Eq. split.
  - split.
    + intros Heq. apply compose_inj in Heq as [? Ha]; auto.
      apply after_returnless_inj in Ha as [? ?]; auto.
    + intros (Ht & Hw & Hh). rewrite !compose_without_extra by done.
      unfold after_returnless, window_tail, str_dollars. rewrite Hw, Hh. f_equal.
      unfold returnless_sentence, spoken_threshold, str_dollars in *. cbv zeta.
      by destruct (_ <=? 0), (_ <=? 0); simplify_eq; rewrite ?Ht.
  - intros Heq HF. apply compose_inj in Heq as [Ht Ha]; auto.
    apply after_returnless_inj in Ha as [Hw Hh]; auto.
    rewrite !Forall_cons in HF. destruct HF as (H1 & H2 & H3 & H4 & _).
    split_and!; [|done|by apply round_half_even_whole].
    unfold spoken_threshold in Ht. unfold PolicyContext_valid in Hp, Hq. bools.
    destruct (Z.leb_spec (refund_returnless_under_usd p) 0),
      (Z.leb_spec (refund_returnless_under_usd q) 0); simplify_eq; [lia|].
    by apply round_half_even_whole.
Qed.

Lemma spoken_policy_tracks_values_witness :
  compose_spoken_policy (demo_policy 5000 20000 30) =
    compose_spoken_policy (demo_policy 4960 20030 30) ∧
  compose_spoken_policy (demo_policy 5000 20000 30) ≠
    compose_spoken_policy (demo_policy 5000 20100 30).
Proof.
  split.
  - refine (proj2 (proj1 (spoken_policy_tracks_values (demo_policy 5000 20000 30)
      (demo_policy 4960 20030 30) eq_refl eq_refl eq_refl eq_refl)) _).
    split; [reflexivity|split; reflexivity].
  - intros H. pose proof (proj1 (proj1 (spoken_policy_tracks_values (demo_policy 5000 20000 30)
      (demo_policy 5000 20100 30) eq_refl eq_refl eq_refl eq_refl)) H) as (_ & _ & Hh).
    vm_compute in Hh. discriminate Hh.
Defined.

(** The sentence can name an amount that is not the enforced one: a threshold
    of 49.60 dollars is spoken as 50. *)
Lemma spoken_policy_rounds :
  refund_returnless_under_usd (demo_policy 4960 20000 30) ≠
    refund_returnless_under_usd (demo_policy 5000 20000 30) ∧
  compose_spoken_policy (demo_policy 4960 20000 30) = compose_spoken_policy (demo_policy 5000 20000 30).
Proof. by vm_compute. Qed.
