(* ===== verification/ConfigResolver.v ===== *)
(** * Layered merchant configuration (config/resolver.py)

    The three-layer merge, the safety lock and the platform ceilings.  A parsed
    YAML document is a [value]; mapping keys are the text [str(key)] gives.
    Numbers are exact rationals, with the IEEE special values YAML can spell.
    The schema validation [MerchantConfig.model_validate] belongs to pydantic
    and is a parameter. *)

From Stdlib Require Import QArith.
From S2P Require Import Prelude PyText Regex.
Local Open Scope list_scope.

Inductive number := Fin (q : Q) | Inf (negative : bool) | NaN.

Inductive value :=
  | VNull
  | VBool (b : bool)
  | VNum (n : number)
  | VStr (s : string)
  | VList (l : list value)
  | VMap (d : list (string * value)).

Definition dict : Type := list (string * value).

Definition SAFETY_LOCK_DECLARATION_KEY : string := "_safety_locked".
Definition PLATFORM_ONLY_KEYS : list string := ["_safety_locked"; "_platform"].
Definition ALWAYS_LOCKED : list string := PLATFORM_ONLY_KEYS.

(** ** Key paths *)
Definition extend_path (prefix key : string) : string :=
  if nonempty prefix then prefix +:+ "." +:+ key else key.

Fixpoint iter_key_paths_of (v : value) (prefix : string) : list string :=
  match v with
  | VMap d =>
      (fix go (d : dict) : list string :=
         match d with
         | [] => []
         | (key, x) :: d' =>
             let path := extend_path prefix key in
             path :: iter_key_paths_of x path ++ go d'
         end) d
  | _ => []
  end.
Definition iter_key_paths (data : dict) : list string := iter_key_paths_of (VMap data) "".

(** ** Merge *)
(** [merged[key]] after the overlay's [value] for a key whose entry is [existing]. *)
Fixpoint merge_value (existing : option value) (v : value) : value :=
  match existing, v with
  | Some (VMap base), VMap overlay =>
      VMap ((fix go (merged overlay : dict) : dict :=
               match overlay with
               | [] => merged
               | (key, x) :: overlay' =>
                   go (dset key (merge_value (dget key merged) x) merged) overlay'
               end) base overlay)
  | _, _ => v
  end.
Fixpoint deep_merge (merged overlay : dict) : dict :=
  match overlay with
  | [] => merged
  | (key, x) :: overlay' =>
      deep_merge (dset key (merge_value (dget key merged) x) merged) overlay'
  end.

(** ** The safety lock *)
Definition assert_no_locked_keys (layer : dict) (locked : list string) : res unit :=
  requires (negb (existsb (λ path, bool_decide (path ∈ locked)) (iter_key_paths layer)))
    SafetyLockViolationError "layer attempts to set safety-locked key".

(** [frozenset(base.get("_safety_locked", []))], the part a path can equal. *)
Fixpoint characters (s : string) : list string :=
  match s with "" => [] | String c s' => String c "" :: characters s' end.
Definition hashable (v : value) : bool :=
  match v with VList _ | VMap _ => false | _ => true end.
Definition declared_locks (base : dict) : res (list string) :=
  match dget SAFETY_LOCK_DECLARATION_KEY base with
  | None => inr []
  | Some (VList l) =>
      requires (forallb hashable l) TypeError "unhashable type" ;;
      inr (omap (λ v, match v with VStr s => Some s | _ => None end) l)
  | Some (VMap d) => inr (dkeys d)
  | Some (VStr s) => inr (characters s)
  | Some _ => raises TypeError "object is not iterable"
  end.

(** ** Comparison of configuration values *)
Definition num_gt (a b : number) : bool :=
  match a, b with
  | NaN, _ | _, NaN => false
  | Fin x, Fin y => negb (Qle_bool x y)
  | Inf n, Inf m => negb n && m
  | Inf n, Fin _ => negb n
  | Fin _, Inf m => m
  end.
Definition num_eq (a b : number) : bool :=
  match a, b with
  | Fin x, Fin y => Qeq_bool x y
  | Inf n, Inf m => Bool.eqb n m
  | _, _ => false
  end.
(** A bool compares as an integer. *)
Definition as_number (v : value) : option number :=
  match v with
  | VNum n => Some n
  | VBool b => Some (Fin (if b then 1 else 0)%Q)
  | _ => None
  end.

(** [==]: mappings compare as sets of entries. *)
Fixpoint py_eq (a b : value) : bool :=
  match a, b with
  | VNull, VNull => true
  | VStr s, VStr t => String.eqb s t
  | VList l, VList m =>
      (fix go (l m : list value) : bool :=
         match l, m with
         | [], [] => true
         | x :: l', y :: m' => py_eq x y && go l' m'
         | _, _ => false
         end) l m
  | VMap d, VMap e =>
      (length d =? length e)%nat &&
      (fix go (d : dict) : bool :=
         match d with
         | [] => true
         | (k, x) :: d' => match dget k e with Some y => py_eq x y | None => false end && go d'
         end) d
  | _, _ =>
      match as_number a, as_number b with
      | Some x, Some y => num_eq x y
      | _, _ => false
      end
  end.

Fixpoint str_gt (s t : string) : bool :=
  match s, t with
  | "", _ => false
  | _, "" => true
  | String a s', String b t' =>
      if Ascii.eqb a b then str_gt s' t' else (code b <? code a)%nat
  end.

(** [a > b]: lists compare at their first difference; other mixtures raise. *)
Fixpoint py_gt (a b : value) : res bool :=
  match a, b with
  | VStr s, VStr t => inr (str_gt s t)
  | VList l, VList m =>
      (fix go (l m : list value) : res bool :=
         match l, m with
         | [], _ => inr false
         | _ :: _, [] => inr true
         | x :: l', y :: m' => if py_eq x y then go l' m' else py_gt x y
         end) l m
  | _, _ =>
      match as_number a, as_number b with
      | Some x, Some y => inr (num_gt x y)
      | _, _ => raises TypeError "'>' not supported"
      end
  end.

(** ** Platform ceilings *)
(** [section(container, key)]: a missing section is empty. *)
Definition section (container : dict) (key : string) : res dict :=
  match dget key container with
  | None => inr []
  | Some (VMap d) => inr d
  | Some _ => raises ConfigResolutionError "must be a mapping"
  end.

(** [container.get(key)], with [None] for a null. *)
Definition getv (container : dict) (key : string) : option value :=
  match dget key container with Some VNull => None | o => o end.

(** [if value is not None and limit is not None and value > limit: raise] *)
Definition check_ceiling (v limit : option value) : res unit :=
  match v, limit with
  | Some v, Some limit =>
      above ← py_gt v limit;
      requires (negb above) PolicyBoundsViolationError "exceeds the platform ceiling"
  | _, _ => inr tt
  end.

Fixpoint check_all (pairs : list (option value * option value)) : res unit :=
  match pairs with
  | [] => inr tt
  | (v, limit) :: pairs' => check_ceiling v limit ;; check_all pairs'
  end.

Definition SECURITY_CEILINGS : list (string * string) :=
  [("otp_max_attempts", "otp_max_attempts_ceiling"); ("contact_reask_max", "contact_reask_ceiling");
   ("auth_denials_before_human_offer", "auth_denials_ceiling"); ("max_tool_hops", "tool_hops_ceiling")].
Definition CLARIFICATION_OWNERS : list string := ["identity"; "support"; "cart"; "router"].

Definition assert_policy_within_bounds (merged : dict) : res unit :=
  platform ← section merged "_platform";
  limits ← section platform "limits";
  policies ← section merged "policies";
  refunds ← section policies "refunds";
  let require_human := getv refunds "require_human_above_usd" in
  check_ceiling require_human (getv limits "refund_require_human_ceiling_usd") ;;
  check_ceiling (getv refunds "auto_approve_under_usd") require_human ;;
  check_ceiling (getv refunds "returnless_under_usd") (getv limits "refund_returnless_ceiling_usd") ;;
  check_ceiling (getv policies "pending_confirmation_ttl_seconds")
    (getv limits "pending_confirmation_ttl_max_seconds") ;;
  returns ← section policies "returns";
  check_ceiling (getv returns "window_days") (getv limits "return_window_max_days") ;;
  security ← section policies "security";
  check_all ((λ '(field, ceiling), (getv security field, getv limits ceiling)) <$> SECURITY_CEILINGS) ;;
  clarification ← section policies "clarification_reask_max";
  clarification_ceiling ← section limits "clarification_reask_ceiling";
  check_all ((λ owner, (getv clarification owner, getv clarification_ceiling owner))
    <$> CLARIFICATION_OWNERS).

(** A [TypeError] of the comparison is reported as a resolution error. *)
Definition check_bounds (merged : dict) : res unit :=
  match assert_policy_within_bounds merged with
  | inl e => if decide (exc_cls e = TypeError)
             then raises ConfigResolutionError "resolved config contains invalid policy value types"
             else inl e
  | inr u => inr u
  end.

Section resolve.
  Context {MerchantConfig : Type}.
  (** [MerchantConfig.model_validate]: the config, or a validation error. *)
  Context (model_validate : dict → option MerchantConfig).

Definition resolve_merchant_config (base template override : dict) : res MerchantConfig :=
    declared ← declared_locks base;
    let locked := ALWAYS_LOCKED ++ declared in
    assert_no_locked_keys template locked ;;
    assert_no_locked_keys override locked ;;
    let merged := deep_merge (deep_merge base template) override in
    check_bounds merged ;;
    let merged := foldl (λ d k, dpop k d) merged PLATFORM_ONLY_KEYS in
    match model_validate merged with
    | Some config => inr config
    | None => raises ConfigResolutionError "resolved config failed validation"
    end.
End resolve.

(** ** Merge semantics *)
Lemma merge_value_maps b o : merge_value (Some (VMap b)) (VMap o) = VMap (deep_merge b o).
Proof. reflexivity. Qed.

Lemma dget_deep_merge b o k : NoDup (dkeys o) →
  dget k (deep_merge b o) =
    match dget k o with Some x => Some (merge_value (dget k b) x) | None => dget k b end.
Proof.
  revert b. induction o as [|[k' x] o IH]; intros b Hnd; [done|]. simpl.
  apply NoDup_cons in Hnd as [Hk Hnd]. rewrite IH by done. rewrite dget_dset.
  case_decide as Heq; [subst|done]. by rewrite (proj2 (dget_None k o)).
Qed.

(** A Python [dict] holds each key once, at every level. *)
Fixpoint wf_value (v : value) : bool :=
  match v with
  | VMap d =>
      bool_decide (NoDup (dkeys d)) &&
      (fix go (d : dict) : bool :=
         match d with [] => true | (_, x) :: d' => wf_value x && go d' end) d
  | _ => true
  end.

Lemma wf_map_inv d : wf_value (VMap d) = true →
  NoDup (dkeys d) ∧ ∀ k x, dget k d = Some x → wf_value x = true.
Proof.
  simpl. intros [Hnd Hgo]%andb_true_iff. bools. split; [done|]. clear Hnd.
  induction d as [|[k' x'] d IH]; intros k x Hk; [done|]. simpl in *.
  apply andb_true_iff in Hgo as [Hx Hgo].
  case_decide; simplify_eq; [done|]. by eapply IH.
Qed.

(** The value at a path of keys. *)
Fixpoint get_path (ks : list string) (v : value) : option value :=
  match ks with
  | [] => Some v
  | k :: ks' => match v with VMap d => dget k d ≫= get_path ks' | _ => None end
  end.

Lemma get_path_single d k : get_path [k] (VMap d) = dget k d.
Proof. simpl. by destruct (dget k d). Qed.

Definition is_map (v : value) : bool := match v with VMap _ => true | _ => false end.

(** A layer that puts something else than a mapping strictly above the path. *)
Definition masks (layer : dict) (ks : list string) : Prop :=
  ∃ pre suf x, ks = pre ++ suf ∧ pre ≠ [] ∧ suf ≠ [] ∧
    get_path pre (VMap layer) = Some x ∧ is_map x = false.

(** What a layer does not mention it does not change, unless it masks it. *)
Lemma merge_untouched ks : ∀ b o, wf_value (VMap o) = true → ks ≠ [] →
  get_path ks (VMap o) = None →
  get_path ks (VMap (deep_merge b o)) = get_path ks (VMap b) ∨ masks o ks.
Proof.
  induction ks as [|k ks IH]; intros b o Hwf Hne Hget; [done|].
  destruct (wf_map_inv _ Hwf) as [Hnd Hsub]. simpl in Hget |- *.
  rewrite dget_deep_merge by done. destruct (dget k o) as [x|] eqn:Hk; simpl in Hget; [|by left].
  destruct (decide (ks = [])) as [->|Hks]; [done|]. destruct (is_map x) eqn:Hx.
  2:{ right. exists [k], ks, x. split_and!; [done..| |done]. simpl. by rewrite Hk. }
  destruct x as [| | | | |o']; try done. simpl.
  destruct (dget k b) as [[| | | | |b']|] eqn:Hb; simpl.
  1-5,7: left; rewrite ?Hget; by destruct ks.
  change (get_path ks (merge_value (Some (VMap b')) (VMap o')) = get_path ks (VMap b') ∨
    masks o (k :: ks)).
  rewrite merge_value_maps. destruct (IH b' o' (Hsub _ _ Hk) Hks Hget) as [?|Hm]; [by left|].
  right. destruct Hm as (pre & suf & x & -> & Hp & Hs & Hg & Hm).
  exists (k :: pre), suf, x. split_and!; [done..| |done]. simpl. by rewrite Hk.
Qed.

(** ** The paths a layer sets *)
Fixpoint dotted_from (prefix : string) (ks : list string) : string :=
  match ks with [] => prefix | k :: ks' => dotted_from (extend_path prefix k) ks' end.
(** ["a.b.c"] *)
Definition dotted : list string → string := dotted_from "".

Lemma iter_key_paths_cons d k x prefix :
  dget k d = Some x →
  extend_path prefix k ∈ iter_key_paths_of (VMap d) prefix ∧
  ∀ p, p ∈ iter_key_paths_of x (extend_path prefix k) → p ∈ iter_key_paths_of (VMap d) prefix.
Proof.
  induction d as [|[k' x'] d IH]; [done|]. simpl. case_decide as Heq.
  - intros [= ->]. subst. split; [left|]. intros p Hp. right. apply elem_of_app. by left.
  - intros Hk. destruct (IH Hk) as [H1 H2]. split.
    + right. apply elem_of_app. right. exact H1.
    + intros p Hp. right. apply elem_of_app. right. by apply H2.
Qed.

Lemma get_path_iter ks : ∀ v prefix x, ks ≠ [] → get_path ks v = Some x →
  dotted_from prefix ks ∈ iter_key_paths_of v prefix.
Proof.
  induction ks as [|k ks IH]; intros v prefix x Hne Hget; [done|].
  destruct v as [| | | | |d]; try done. simpl in Hget.
  destruct (dget k d) as [y|] eqn:Hk; [|done]. simpl in Hget.
  destruct (iter_key_paths_cons d k y prefix Hk) as [Hhere Hbelow].
  destruct (decide (ks = [])) as [->|Hks]; [exact Hhere|]. cbn [dotted_from].
  apply Hbelow. by eapply IH.
Qed.

Lemma assert_no_locked_keys_spec layer locked u :
  assert_no_locked_keys layer locked = inr u ↔ ∀ p, p ∈ iter_key_paths layer → p ∉ locked.
Proof.
  unfold assert_no_locked_keys. destruct u. rewrite requires_ok, negb_true_iff.
  rewrite <-not_true_iff_false, existsb_exists. setoid_rewrite <-list_elem_of_In.
  setoid_rewrite bool_decide_eq_true. naive_solver.
Qed.

Lemma lock_hides layer locked u ks :
  assert_no_locked_keys layer locked = inr u → ks ≠ [] → dotted ks ∈ locked →
  get_path ks (VMap layer) = None.
Proof.
  rewrite assert_no_locked_keys_spec. intros H Hne Hin.
  destruct (get_path ks (VMap layer)) as [x|] eqn:E; [|done].
  destruct (H (dotted ks)); [|done]. by eapply get_path_iter.
Qed.

(** ** A successful resolution *)
Lemma resolve_inv {C} (validate : dict → option C) base template override c :
  resolve_merchant_config validate base template override = inr c →
  ∃ declared, declared_locks base = inr declared ∧
    assert_no_locked_keys template (ALWAYS_LOCKED ++ declared) = inr tt ∧
    assert_no_locked_keys override (ALWAYS_LOCKED ++ declared) = inr tt ∧
    let merged := deep_merge (deep_merge base template) override in
    assert_policy_within_bounds merged = inr tt ∧
    validate (dpop "_platform" (dpop "_safety_locked" merged)) = Some c.
Proof.
  unfold resolve_merchant_config, check_bounds, mbind, res_bind.
  intros H. destruct (declared_locks base) as [|declared] eqn:E1; [done|]. exists declared.
  destruct (assert_no_locked_keys template _) as [|[]] eqn:E2; [done|].
  destruct (assert_no_locked_keys override _) as [|[]] eqn:E3; [done|]. cbv zeta in *.
  destruct (assert_policy_within_bounds _) as [e|[]] eqn:E4; [by case_decide|].
  simpl in H. destruct (validate _) eqn:E5; [|done]. by simplify_eq.
Qed.

Lemma locked_path_merge {C} (validate : dict → option C) base template override c declared ks :
  wf_value (VMap template) = true → wf_value (VMap override) = true →
  resolve_merchant_config validate base template override = inr c →
  declared_locks base = inr declared → ks ≠ [] → dotted ks ∈ ALWAYS_LOCKED ++ declared →
  get_path ks (VMap (deep_merge (deep_merge base template) override)) = get_path ks (VMap base) ∨
  masks template ks ∨ masks override ks.
Proof.
  intros Ht Ho (declared' & Hd & Hlt & Hlo & _)%resolve_inv Hd' Hne Hin.
  rewrite Hd' in Hd. injection Hd as <-.
  pose proof (lock_hides _ _ _ _ Hlt Hne Hin) as Hnt. pose proof (lock_hides _ _ _ _ Hlo Hne Hin) as Hno.
  destruct (merge_untouched ks (deep_merge base template) override Ho Hne Hno) as [->|?]; [|by auto].
  destruct (merge_untouched ks base template Ht Hne Hnt) as [?|?]; auto.
Qed.

Lemma masks_single layer k : ¬ masks layer [k].
Proof.
  intros ([|p pre] & suf & x & Heq & Hp & Hs & _); [done|]. injection Heq as _ Heq.
  symmetry in Heq. apply app_eq_nil in Heq as [_ ->]. done.
Qed.

Lemma platform_merge {C} (validate : dict → option C) base template override c :
  wf_value (VMap template) = true → wf_value (VMap override) = true →
  resolve_merchant_config validate base template override = inr c →
  dget "_platform" (deep_merge (deep_merge base template) override) = dget "_platform" base.
Proof.
  intros Ht Ho Hr. destruct (resolve_inv _ _ _ _ _ Hr) as (declared & Hd & _).
  destruct (locked_path_merge validate _ _ _ _ _ ["_platform"] Ht Ho Hr Hd) as [H|[H|H]].
  - done.
  - apply elem_of_app. left. apply (bool_decide_eq_true (dotted ["_platform"] ∈ ALWAYS_LOCKED)).
    by vm_compute.
  - by rewrite !get_path_single in H.
  - by apply masks_single in H.
  - by apply masks_single in H.
Qed.

(** ** Ceilings *)
Lemma bind_inr {A B} (m : res A) (f : A → res B) b :
  (x ← m; f x) = inr b ↔ ∃ a, m = inr a ∧ f a = inr b.
Proof. unfold mbind, res_bind. destruct m; naive_solver. Qed.

Lemma section_path c k d ks : section c k = inr d → ks ≠ [] →
  get_path (k :: ks) (VMap c) = get_path ks (VMap d).
Proof.
  unfold section. simpl. destruct (dget k c) as [[| | | | |d']|]; intros H Hne; simplify_eq/=; [done|].
  by destruct ks.
Qed.

(** Two values that are both set are in order. *)
Definition in_order (v limit : option value) : Prop :=
  ∀ x y, v = Some x → limit = Some y → x ≠ VNull → y ≠ VNull → py_gt x y = inr false.

Lemma getv_some d k x : dget k d = Some x → x ≠ VNull → getv d k = Some x.
Proof. unfold getv. intros -> ?. by destruct x. Qed.

Lemma check_ceiling_ok d k e l u :
  check_ceiling (getv d k) (getv e l) = inr u →
  in_order (get_path [k] (VMap d)) (get_path [l] (VMap e)).
Proof.
  unfold in_order. rewrite !get_path_single. intros H x y Hx Hy Nx Ny.
  rewrite (getv_some _ _ _ Hx Nx), (getv_some _ _ _ Hy Ny) in H. unfold check_ceiling in H.
  apply bind_inr in H as ([] & Hgt & H); done.
Qed.

Lemma check_all_ok d e pairs u :
  check_all ((λ '(k, l), (getv d k, getv e l)) <$> pairs) = inr u →
  ∀ k l, (k, l) ∈ pairs → in_order (get_path [k] (VMap d)) (get_path [l] (VMap e)).
Proof.
  revert u. induction pairs as [|[k l] pairs IH]; intros u; [set_solver|]. rewrite fmap_cons. simpl.
  intros (u' & H1 & H2)%bind_inr k' l' [[= -> ->]|Hin]%elem_of_cons; [by eapply check_ceiling_ok|].
  by eapply IH.
Qed.

(** The merchant-tunable values, by their path under [policies], and the
    platform limit of each, by its path under [_platform.limits]. *)
Definition CEILINGS : list (list string * list string) :=
  [(["refunds"; "require_human_above_usd"], ["refund_require_human_ceiling_usd"]);
   (["refunds"; "returnless_under_usd"], ["refund_returnless_ceiling_usd"]);
   (["pending_confirmation_ttl_seconds"], ["pending_confirmation_ttl_max_seconds"]);
   (["returns"; "window_days"], ["return_window_max_days"])] ++
  ((λ '(field, ceiling), (["security"; field], [ceiling])) <$> SECURITY_CEILINGS) ++
  ((λ owner, (["clarification_reask_max"; owner], ["clarification_reask_ceiling"; owner]))
    <$> CLARIFICATION_OWNERS).

Lemma within_bounds_ceilings merged :
  assert_policy_within_bounds merged = inr tt →
  (∀ p l, (p, l) ∈ CEILINGS →
    in_order (get_path ("policies" :: p) (VMap merged))
      (get_path ("_platform" :: "limits" :: l) (VMap merged))) ∧
  in_order (get_path ["policies"; "refunds"; "auto_approve_under_usd"] (VMap merged))
    (get_path ["policies"; "refunds"; "require_human_above_usd"] (VMap merged)).
Proof.
  unfold assert_policy_within_bounds.
  intros (platform & Hplat & H)%bind_inr. apply bind_inr in H as (limits & Hlim & H).
  apply bind_inr in H as (policies & Hpol & H). apply bind_inr in H as (refunds & Href & H).
  cbv zeta in H. apply bind_inr in H as (? & H1 & H). apply bind_inr in H as (? & H2 & H).
  apply bind_inr in H as (? & H3 & H). apply bind_inr in H as (? & H4 & H).
  apply bind_inr in H as (returns & Hret & H). apply bind_inr in H as (? & H5 & H).
  apply bind_inr in H as (security & Hsec & H). apply bind_inr in H as (? & H6 & H).
  apply bind_inr in H as (clar & Hclar & H). apply bind_inr in H as (clarc & Hclarc & H7).
  assert (∀ l, l ≠ [] → get_path ("_platform" :: "limits" :: l) (VMap merged) =
    get_path l (VMap limits)) as Lim.
  { intros l Hl. by rewrite (section_path _ _ _ _ Hplat), (section_path _ _ _ _ Hlim). }
  assert (∀ l, l ≠ [] → get_path ("policies" :: l) (VMap merged) = get_path l (VMap policies)) as Pol.
  { intros l Hl. by rewrite (section_path _ _ _ _ Hpol). }
  assert (∀ k d f, section policies k = inr d →
    get_path ["policies"; k; f] (VMap merged) = get_path [f] (VMap d)) as Sub.
  { intros k d f Hd. by rewrite Pol, (section_path _ _ _ _ Hd). }
  split.
  - intros p l Hin. unfold CEILINGS in Hin.
    apply elem_of_app in Hin as [Hin|[Hin|Hin]%elem_of_app].
    + rewrite !elem_of_cons, elem_of_nil in Hin.
      destruct Hin as [[= -> ->]|[[= -> ->]|[[= -> ->]|[[= -> ->]|[]]]]]; rewrite Lim by done.
      * erewrite Sub by done. by eapply check_ceiling_ok.
      * erewrite Sub by done. by eapply check_ceiling_ok.
      * rewrite Pol by done. by eapply check_ceiling_ok.
      * erewrite Sub by done. by eapply check_ceiling_ok.
    + apply list_elem_of_fmap in Hin as ([f c] & [= -> ->] & Hin).
      rewrite Lim by done. erewrite Sub by done. by eapply check_all_ok.
    + apply list_elem_of_fmap in Hin as (owner & [= -> ->] & Hin).
      rewrite Lim by done. rewrite (section_path _ _ _ _ Hclarc) by done. erewrite Sub by done.
      eapply (check_all_ok clar clarc ((λ o, (o, o)) <$> CLARIFICATION_OWNERS)).
      * rewrite <-list_fmap_compose. exact H7.
      * apply list_elem_of_fmap. eauto.
  - rewrite !(Sub _ _ _ Href). by eapply check_ceiling_ok.
Qed.

Lemma platform_path merged base ks : dget "_platform" merged = dget "_platform" base →
  get_path ("_platform" :: ks) (VMap merged) = get_path ("_platform" :: ks) (VMap base).
Proof. intros H. simpl. by rewrite H. Qed.

(** For finite numbers "not above" is [<=]. *)
Lemma py_gt_fin x y : py_gt (VNum (Fin x)) (VNum (Fin y)) = inr false ↔ (x <= y)%Q.
Proof.
  simpl. rewrite <-Qle_bool_iff. destruct (Qle_bool x y); naive_solver.
Qed.

(** What a layer sets to something else than a mapping is what the merge holds. *)
Lemma merge_set ks : ∀ b o x, wf_value (VMap o) = true → ks ≠ [] →
  get_path ks (VMap o) = Some x → is_map x = false →
  get_path ks (VMap (deep_merge b o)) = Some x.
Proof.
  induction ks as [|k ks IH]; intros b o x Hwf Hne Hget Hx; [done|].
  destruct (wf_map_inv _ Hwf) as [Hnd Hsub]. simpl in Hget |- *.
  rewrite dget_deep_merge by done. destruct (dget k o) as [y|] eqn:Hk; [|done]. simpl in Hget |- *.
  destruct (decide (ks = [])) as [->|Hks].
  { simpl in Hget. simplify_eq. simpl. destruct (dget k b) as [[| | | | |b']|]; by destruct x. }
  destruct y as [| | | | |o']; try (by destruct ks).
  destruct (dget k b) as [[| | | | |b']|] eqn:Hb; simpl; try done.
  change (get_path ks (merge_value (Some (VMap b')) (VMap o')) = Some x).
  rewrite merge_value_maps. eapply IH; eauto.
Qed.

(** ** Properties *)

(** C40 A layer that sets a locked path is rejected with
    [SafetyLockViolationError], for the two paths locked in code and every path
    the base declares.  When a configuration is resolved, a locked path holds
    what the base put there, unless a layer replaced one of its proper
    ancestors by something that is not a mapping; a locked top-level key always
    holds the base's value. *)
Theorem safety_lock_holds {C} (validate : dict → option C) base template override declared :
  wf_value (VMap template) = true → wf_value (VMap override) = true →
  declared_locks base = inr declared →
  let locked := ALWAYS_LOCKED ++ declared in
  let merged := deep_merge (deep_merge base template) override in
  (∀ ks x, ks ≠ [] → dotted ks ∈ locked →
    get_path ks (VMap template) = Some x ∨ get_path ks (VMap override) = Some x →
    ∃ m, resolve_merchant_config validate base template override =
      inl (Exc SafetyLockViolationError m)) ∧
  (∀ c, resolve_merchant_config validate base template override = inr c →
    validate (dpop "_platform" (dpop "_safety_locked" merged)) = Some c ∧
    (∀ ks, ks ≠ [] → dotted ks ∈ locked →
      get_path ks (VMap merged) = get_path ks (VMap base) ∨ masks template ks ∨ masks override ks) ∧
    (∀ k, dotted [k] ∈ locked → dget k merged = dget k base)).
Proof.
  intros Ht Ho Hd locked merged. split.
  - intros ks x Hne Hin Hset. unfold resolve_merchant_config. rewrite Hd. simpl.
    assert (∀ layer u, get_path ks (VMap layer) = Some x →
      assert_no_locked_keys layer locked ≠ inr u) as Hrej.
    { intros layer u Hg Ha. by rewrite (lock_hides _ _ _ _ Ha Hne Hin) in Hg. }
    assert (∀ layer, assert_no_locked_keys layer locked = inr tt ∨
      ∃ m, assert_no_locked_keys layer locked = inl (Exc SafetyLockViolationError m)) as Hcases.
    { intros layer. unfold assert_no_locked_keys, requires, raises.
      destruct (negb _); [by left|right; eauto]. }
    change ("_safety_locked" :: "_platform" :: declared) with locked.
    destruct (Hcases template) as [Et|[m ->]]; [|simpl; eauto]. rewrite Et. simpl.
    destruct (Hcases override) as [Eo|[m ->]]; [|simpl; eauto].
    destruct Hset as [Hset|Hset]; by destruct (Hrej _ tt Hset).
  - intros c Hr. pose proof (resolve_inv _ _ _ _ _ Hr) as (_ & _ & _ & _ & _ & Hv).
    split; [done|]. assert (∀ ks, ks ≠ [] → dotted ks ∈ locked →
      get_path ks (VMap merged) = get_path ks (VMap base) ∨ masks template ks ∨ masks override ks)
      as Hp by (intros; by eapply locked_path_merge).
    split; [done|]. intros k Hk. rewrite <-!get_path_single.
    destruct (Hp [k]) as [H|[H|H]]; [done|done|done|by apply masks_single in H..].
Qed.

(** A small base, template and override in the shape of the shipped ones. *)
Definition num (z : Z) : value := VNum (Fin (inject_Z z)).
Definition demo_base : dict :=
  [("_safety_locked", VList [VStr "_platform"; VStr "policies.cancel_batch_max"]);
   ("_platform", VMap [("limits", VMap [("refund_require_human_ceiling_usd", num 500);
      ("pending_confirmation_ttl_max_seconds", num 300); ("otp_max_attempts_ceiling", num 3)])]);
   ("policies", VMap [("cancel_batch_max", num 10)])].
Definition demo_template : dict :=
  [("policies", VMap [("refunds", VMap [("require_human_above_usd", num 200)])])].
Definition demo_override : dict :=
  [("policies", VMap [("refunds", VMap [("require_human_above_usd", num 150)]);
     ("security", VMap [("otp_max_attempts", num 2)])])].

Lemma safety_lock_holds_witness :
  (∃ m, resolve_merchant_config Some demo_base demo_template
      [("policies", VMap [("cancel_batch_max", num 99)])] = inl (Exc SafetyLockViolationError m)) ∧
  dget "_platform" (deep_merge (deep_merge demo_base demo_template) demo_override) =
    dget "_platform" demo_base.
Proof.
  assert (∀ p, bool_decide (p ∈ ALWAYS_LOCKED ++ ["_platform"; "policies.cancel_batch_max"]) = true →
    p ∈ ALWAYS_LOCKED ++ ["_platform"; "policies.cancel_batch_max"]) as Hin
    by (intros p H; by apply bool_decide_eq_true in H).
  split.
  - eapply (proj1 (safety_lock_holds Some demo_base demo_template
      [("policies", VMap [("cancel_batch_max", num 99)])]
      ["_platform"; "policies.cancel_batch_max"] eq_refl eq_refl eq_refl)
      ["policies"; "cancel_batch_max"] (num 99)); [done|by apply Hin|by right].
  - destruct (proj2 (safety_lock_holds Some demo_base demo_template demo_override
      ["_platform"; "policies.cancel_batch_max"] eq_refl eq_refl eq_refl) _ eq_refl) as (_ & _ & H).
    apply H. by apply Hin.
Defined.

(** A resolved configuration is within the platform's own ceilings: each
    merchant-tunable amount, window, time-out and attempt budget that is set is
    not above the limit the base layer sets for it (for finite numbers, at most
    that limit), and auto-approval is not above the human-review line. *)
Theorem ceilings_bind {C} (validate : dict → option C) base template override c :
  wf_value (VMap template) = true → wf_value (VMap override) = true →
  resolve_merchant_config validate base template override = inr c →
  let merged := deep_merge (deep_merge base template) override in
  (∀ p l, (p, l) ∈ CEILINGS →
    in_order (get_path ("policies" :: p) (VMap merged))
      (get_path ("_platform" :: "limits" :: l) (VMap base)) ∧
    ∀ x y, get_path ("policies" :: p) (VMap merged) = Some (VNum (Fin x)) →
      get_path ("_platform" :: "limits" :: l) (VMap base) = Some (VNum (Fin y)) → (x <= y)%Q) ∧
  in_order (get_path ["policies"; "refunds"; "auto_approve_under_usd"] (VMap merged))
    (get_path ["policies"; "refunds"; "require_human_above_usd"] (VMap merged)).
Proof.
  intros Ht Ho Hr merged. pose proof (platform_merge _ _ _ _ _ Ht Ho Hr) as Hplat.
  destruct (resolve_inv _ _ _ _ _ Hr) as (_ & _ & _ & _ & Hb & _).
  apply within_bounds_ceilings in Hb as [Hc Ha]. split; [|exact Ha].
  intros p l Hin. specialize (Hc p l Hin). rewrite (platform_path _ base _ Hplat) in Hc.
  split; [done|]. intros x y Hx Hy. apply py_gt_fin. by eapply Hc.
Qed.

Lemma ceilings_bind_witness :
  (inject_Z 150 <= inject_Z 500)%Q ∧ is_ok (resolve_merchant_config Some demo_base demo_template
    [("policies", VMap [("refunds", VMap [("require_human_above_usd", num 501)])])]) = false.
Proof.
  split; [|by vm_compute].
  eapply (proj1 (ceilings_bind Some demo_base demo_template demo_override _ eq_refl eq_refl eq_refl)
    ["refunds"; "require_human_above_usd"] ["refund_require_human_ceiling_usd"]);
    [by left|vm_compute; reflexivity|vm_compute; reflexivity].
Defined.

(** Merging is last-wins along paths: what the overlay sets to a scalar or
    list is what the merge holds there, and where the overlay says nothing the
    merge agrees with the base unless the overlay replaced an ancestor. *)
Theorem merge_last_wins (base overlay : dict) :
  wf_value (VMap overlay) = true →
  ∀ ks, ks ≠ [] →
  match get_path ks (VMap overlay) with
  | Some x => is_map x = false → get_path ks (VMap (deep_merge base overlay)) = Some x
  | None => get_path ks (VMap (deep_merge base overlay)) = get_path ks (VMap base) ∨ masks overlay ks
  end.
Proof.
  intros Hwf ks Hne. destruct (get_path ks (VMap overlay)) as [x|] eqn:E.
  - intros Hx. by apply merge_set.
  - by apply merge_untouched.
Qed.

Lemma merge_last_wins_witness :
  get_path ["policies"; "refunds"; "require_human_above_usd"]
    (VMap (deep_merge demo_template demo_override)) = Some (num 150).
Proof.
  apply (merge_last_wins demo_template demo_override eq_refl
    ["policies"; "refunds"; "require_human_above_usd"]); done.
Defined.

(** A locked path below the top level can be lost: a template that sets its
    ancestor to a scalar, and an override that builds the section anew without
    the locked key, are both accepted by the lock. *)
Lemma ancestor_replaced_unlocked : ∃ c,
  resolve_merchant_config Some demo_base [("policies", VNull)]
    [("policies", VMap [("cart", VNull)])] = inr c ∧
  get_path ["policies"; "cancel_batch_max"] (VMap c) = None ∧
  get_path ["policies"; "cancel_batch_max"] (VMap demo_base) = Some (num 10).
Proof. eexists. split; [vm_compute; reflexivity|]. by vm_compute. Qed.

(** A time-out that is not a number is not above any ceiling. *)
Lemma nan_ttl_within_bounds :
  is_ok (assert_policy_within_bounds (deep_merge demo_base
    [("policies", VMap [("pending_confirmation_ttl_seconds", VNum NaN)])])) = true.
Proof. by vm_compute. Qed.
