(* ===== verification/SessionState.v ===== *)
(** * Session-owned restorable state (durability/session_state.py, durability/session_payload.py)

    [SessionStateCoordinator]: every mutation of the cart, the recent-order
    context and the guest scope runs on a copy, is committed under an operation
    id, and only then replaces the local projection.  The coordinator's lock
    makes each call one atomic step.  Persistence is the interface
    [SessionPersistence]; the publication of the session registry
    (durability/session_registry.py) implements it on the row and the receipts
    of one session. *)

From S2P Require Import Prelude PyText Money Receipts Cart OrderScope.
Local Open Scope Z_scope.
Local Open Scope list_scope.

(** ** Payload *)
(** [PrincipalRetirementMarker]: its transition id. *)
Definition make_PrincipalRetirementMarker (transition_id : string) : res string :=
  requires (negb (blank transition_id)) ValidationError
    "principal retirement transition id must not be blank" ;;
  inr transition_id.

Record DurableSessionPayload := mkPayload {
  dp_cart : CartSessionState;
  dp_recent_orders : Recent.RecentOrderSnapshot;
  dp_guest_order_refs : list string;
  dp_principal_retirement : option string
}.

(** [DurableSessionPayload.guest_order_refs_are_canonical] *)
Definition guest_order_refs_are_canonical (refs : list string) : res unit :=
  requires (bool_decide (NoDup refs)) ValidationError
    "durable session payload contains duplicate guest orders" ;;
  requires (forallb (λ ref, nonempty ref && bool_decide (ref = canon ref)) refs) ValidationError
    "guest order references must be canonical".

Definition make_payload cart recent guest retirement : res DurableSessionPayload :=
  guest_order_refs_are_canonical guest ;;
  inr (mkPayload cart recent guest retirement).

(** [DurableSessionPayload()] *)
Definition empty_payload : DurableSessionPayload :=
  mkPayload (mkCartSessionState [] []) Recent.empty_snapshot [] None.

(** [SessionOperationResult]: the union of its two kinds. *)
Inductive SessionOperationResult :=
  | EmptySessionOperationResult
  | CartMutationSessionOperationResult (record : CartMutationRecord).

Definition same_kind (a b : SessionOperationResult) : bool :=
  match a, b with
  | EmptySessionOperationResult, EmptySessionOperationResult
  | CartMutationSessionOperationResult _, CartMutationSessionOperationResult _ => true
  | _, _ => false
  end.

(** The request of each operation: the dictionary whose JSON is fingerprinted. *)
Inductive SessionRequest :=
  | cart_mutation (operation : CartOperation) (sku name : string) (price_usd : Decimal)
      (quantity : option Z) (pre_confirm_quantity : Z)
  | placement_projection (order_id : string)
  | recent_orders (order_refs : list string) (operation : OrderContextOperation)
      (focused_order_ref : option string) (outcomes : list (string * string))
  | clear_recent
  | clear_all
  | begin_retirement (transition_id : string)
  | finish_retirement (transition_id : string).

Definition OrderContextOperation_text (op : OrderContextOperation) : string :=
  match op with
  | op_read => "read" | op_list => "list" | op_place => "place"
  | op_cancel => "cancel" | op_refund => "refund" | op_return => "return"
  end.

Definition recent_orders_operation_id (operation : OrderContextOperation) (owner_id : string)
    : res string :=
  let normalized_owner := strip owner_id in
  requires (nonempty normalized_owner) ValueError "recent-order operation owner must not be blank" ;;
  inr ("recent-orders:" +:+ OrderContextOperation_text operation +:+ ":" +:+ normalized_owner).

(** ** Persistence *)
(** [RestoredSessionState], with the revision of its record. *)
Record RestoredSessionState := mkRestored {
  rs_payload : DurableSessionPayload;
  rs_session_revision : Z;
  rs_replayed : bool;
  rs_operation_revision : option Z;
  rs_operation_result : option SessionOperationResult
}.

(** [RestoredSessionState.operation_receipt_matches_replay] *)
Definition operation_receipt_matches_replay (r : RestoredSessionState) : bool :=
  let has_complete_receipt := isSome (rs_operation_revision r) && isSome (rs_operation_result r) in
  let has_partial_receipt := isSome (rs_operation_revision r) || isSome (rs_operation_result r) in
  negb ((rs_replayed r && negb has_complete_receipt) ||
        (negb (rs_replayed r) && has_partial_receipt)) &&
  match rs_operation_revision r with Some n => n <=? rs_session_revision r | None => true end.

(** [SessionStatePersistencePort.publish]; the first argument is what the
    publication observes of the world. *)
Class SessionPersistence (P E : Type) := {
  publish : E → Z → string → string → DurableSessionPayload → SessionOperationResult →
    M P RestoredSessionState
}.

(** ** The coordinator *)
Record Projection := mkProjection {
  pj_cart : CartStore;
  pj_recent : Recent.RecentOrderContext;
  pj_guest : Guest.GuestOrderScope
}.

Record Coordinator := mkCoordinator {
  projection : Projection;
  revision : Z;
  principal_retirement : option string;
  local_operations : list (string * (string * SessionOperationResult))
}.

Definition new_coordinator (p : Projection) (session_revision : Z) (retirement : option string)
    : res Coordinator :=
  requires (negb (session_revision <? 0)) ValueError "session revision must not be negative" ;;
  inr (mkCoordinator p session_revision retirement []).

(** A step on one component of the projection. *)
Definition on_cart {A} (m : M CartStore A) : M Projection A := λ p,
  match m (pj_cart p) with (c, r) => (mkProjection c (pj_recent p) (pj_guest p), r) end.
Definition on_recent {A} (m : M Recent.RecentOrderContext A) : M Projection A := λ p,
  match m (pj_recent p) with (c, r) => (mkProjection (pj_cart p) c (pj_guest p), r) end.
Definition on_guest {A} (m : M Guest.GuestOrderScope A) : M Projection A := λ p,
  match m (pj_guest p) with (c, r) => (mkProjection (pj_cart p) (pj_recent p) c, r) end.

(** The payload of a projection. *)
Definition export (p : Projection) (retirement : option string) : res DurableSessionPayload :=
  cart ← export_state (pj_cart p);
  make_payload cart (Recent.snapshot_ (pj_recent p)) (Guest.order_refs (pj_guest p)) retirement.

Definition snapshot (c : Coordinator) : res DurableSessionPayload :=
  export (projection c) (principal_retirement c).

Definition copy_projection (c : Coordinator) (payload : DurableSessionPayload) : res Projection :=
  recent ← Recent.from_snapshot (dp_recent_orders payload)
             (Z.of_nat (Recent.max_refs (pj_recent (projection c))));
  guest ← Guest.from_refs (Guest.tenant_id (pj_guest (projection c)))
            (Guest.session_id (pj_guest (projection c))) (dp_guest_order_refs payload);
  inr (mkProjection (from_state (dp_cart payload)) recent guest).

Definition reconstruct (payload : DurableSessionPayload) (tenant_id session_id : string)
    (recent_order_max_refs session_revision : Z) : res Coordinator :=
  recent ← Recent.from_snapshot (dp_recent_orders payload) recent_order_max_refs;
  guest ← Guest.from_refs tenant_id session_id (dp_guest_order_refs payload);
  new_coordinator (mkProjection (from_state (dp_cart payload)) recent guest) session_revision
    (dp_principal_retirement payload).

Section coordinator.
  Context {P E : Type} `{SessionPersistence P E}.
  (** [_fingerprint]: the SHA-256 of the request's canonical JSON. *)
  Context (fingerprint : SessionRequest → string).

  (** The coordinator and what it persists to. *)
Record Session := mkSession { coordinator : Coordinator; persistence : option P }.

Definition SM (A : Type) : Type := M Session A.

Definition set_coordinator (c : Coordinator) : SM unit :=
    modify (λ s, mkSession c (persistence s)).
Definition set_persistence (p : P) : SM unit :=
    modify (λ s, mkSession (coordinator s) (Some p)).
Definition on_projection {A} (m : M Projection A) : SM A := λ s,
    let c := coordinator s in
    match m (projection c) with
    | (p, r) => (mkSession (mkCoordinator p (revision c) (principal_retirement c)
                              (local_operations c)) (persistence s), r)
    end.

  (** Each restore is its own assignment to the live objects. *)
Definition install (payload : DurableSessionPayload) (new_revision : Z) : SM unit :=
    on_projection (on_cart (restore_state (dp_cart payload))) ;;
    on_projection (on_recent (Recent.restore_snapshot (dp_recent_orders payload))) ;;
    on_projection (on_guest (Guest.restore_refs (dp_guest_order_refs payload))) ;;
    s ← get;
    set_coordinator (mkCoordinator (projection (coordinator s)) new_revision
      (dp_principal_retirement payload) (local_operations (coordinator s))).

Definition remember (operation_id : string) (entry : string * SessionOperationResult) : SM unit :=
    s ← get;
    let c := coordinator s in
    set_coordinator (mkCoordinator (projection c) (revision c) (principal_retirement c)
      (dset operation_id entry (local_operations c))).

Definition discard_local_projection : SM unit :=
    s ← get;
    install empty_payload (revision (coordinator s)) ;;
    s ← get;
    let c := coordinator s in
    set_coordinator (mkCoordinator (projection c) (revision c) (principal_retirement c) []).

  (** [_commit]; [marker] is [None] when the retirement marker is kept. *)
Definition commit (env : E) (operation_id : string) (request : SessionRequest)
      (mutate : M Projection SessionOperationResult) (marker : option (option string))
      : SM (SessionOperationResult * Z) :=
    require (negb (blank operation_id)) ValueError "session-state operation id must not be blank" ;;
    let request_fingerprint := fingerprint request in
    s ← get;
    let c := coordinator s in
    match dget operation_id (local_operations c) with
    | Some prior =>
        require (String.eqb prior.1 request_fingerprint) SessionStateWriteError
          "operation_conflict" ;;
        mret (prior.2, revision c)
    | None =>
        payload ← lift (snapshot c);
        candidate ← lift (copy_projection c payload);
        match mutate candidate with
        | (_, inl e) => lift (inl e)
        | (candidate, inr value) =>
            let new_marker := match marker with None => principal_retirement c | Some m => m end in
            candidate ← lift (export candidate new_marker);
            match persistence s with
            | None =>
                let next_revision := revision c + 1 in
                remember operation_id (request_fingerprint, value) ;;
                install candidate next_revision ;;
                mret (value, next_revision)
            | Some p =>
                match publish env (revision c) operation_id request_fingerprint candidate value p with
                | (p', r) =>
                    set_persistence p' ;;
                    committed ← lift r;
                    value ←
                      (if rs_replayed committed then
                         match rs_operation_result committed with
                         | Some stored =>
                             require (same_kind stored value) SessionRegistryDataError
                               "stored session operation result does not match the operation" ;;
                             mret stored
                         | None => raise SessionRegistryDataError
                             "stored session operation result does not match the operation"
                         end
                       else mret value);
                    install (rs_payload committed) (rs_session_revision committed) ;;
                    remember operation_id (request_fingerprint, value) ;;
                    mret (value, rs_session_revision committed)
                end
            end
        end
    end.

  (** ** The operations *)
Definition clear_projection : M Projection SessionOperationResult :=
    on_cart clear ;; on_recent Recent.clear ;; on_guest Guest.clear ;;
    mret EmptySessionOperationResult.

  (** What each request does to the candidate projection. *)
Definition mutation (idempotency_key : string) (request : SessionRequest)
      : M Projection SessionOperationResult :=
    match request with
    | cart_mutation operation sku name price quantity pre =>
        record ← on_cart (apply_confirmed_mutation idempotency_key operation sku name price quantity pre);
        mret (CartMutationSessionOperationResult record)
    | placement_projection order_id =>
        on_guest (Guest.record order_id) ;;
        on_cart clear ;;
        on_recent (Recent.record [order_id] op_place None []) ;;
        mret EmptySessionOperationResult
    | recent_orders refs operation focused outcomes =>
        on_recent (Recent.record refs operation focused outcomes) ;;
        mret EmptySessionOperationResult
    | clear_recent => on_recent Recent.clear ;; mret EmptySessionOperationResult
    | clear_all | begin_retirement _ => clear_projection
    | finish_retirement _ => mret EmptySessionOperationResult
    end.

Definition marker_of (request : SessionRequest) : option (option string) :=
    match request with
    | begin_retirement transition_id => Some (Some transition_id)
    | finish_retirement _ => Some None
    | _ => None
    end.

Definition commit_request (env : E) (operation_id : string) (request : SessionRequest)
      : SM (SessionOperationResult * Z) :=
    commit env operation_id request (mutation operation_id request) (marker_of request).

Definition apply_cart_mutation env (idempotency_key : string) operation sku name price_usd quantity
      pre_confirm_quantity : SM (SessionOperationResult * Z) :=
    commit_request env idempotency_key
      (cart_mutation operation sku name price_usd quantity pre_confirm_quantity).

Definition complete_placement env (idempotency_key order_id : string)
      : SM (SessionOperationResult * Z) :=
    commit_request env idempotency_key (placement_projection (canon order_id)).

Definition record_recent_orders env (operation_id : string) order_refs operation focused outcomes
      : SM (SessionOperationResult * Z) :=
    commit_request env operation_id (recent_orders order_refs operation focused outcomes).

Definition clear_recent_orders env (operation_id : string) : SM (SessionOperationResult * Z) :=
    commit_request env operation_id clear_recent.

Definition clear_ephemeral env (operation_id : string) : SM (SessionOperationResult * Z) :=
    commit_request env operation_id clear_all.

Definition begin_principal_retirement env (transition_id : string)
      : SM (SessionOperationResult * Z) :=
    marker ← lift (make_PrincipalRetirementMarker transition_id);
    commit_request env ("principal-retirement:" +:+ transition_id) (begin_retirement marker).

Definition finish_principal_retirement env (transition_id : string)
      : SM (SessionOperationResult * Z) :=
    s ← get;
    require (bool_decide (principal_retirement (coordinator s) = Some transition_id)) RuntimeError
      "principal retirement completion does not match its marker" ;;
    commit_request env ("principal-retirement-complete:" +:+ transition_id)
      (finish_retirement transition_id).
End coordinator.
Arguments mkSession {P}.
Arguments coordinator {P}.
Arguments persistence {P}.

(** ** The registry's publication *)
Record SessionRow := mkRow {
  row_active : bool;
  row_rotation_pending : bool;
  row_revision : Z;
  row_payload : DurableSessionPayload;
  (** operation id: request fingerprint, committed revision, result *)
  row_operations : list (string * (string * Z * SessionOperationResult))
}.

(** What one transaction observes: whether the caller's lease authority still
    holds when the row is locked, and when the row is updated. *)
Record publish_env := mkPublishEnv { pe_locked : bool; pe_lease_live : bool }.

(** [AuthorityIdentifier]: no white space, at least one character. *)
Definition authority_identifier (s : string) : bool :=
  nonempty s && sforall (λ c, negb (is_space c)) s.

(** [PostgresSessionRegistry.publish], one transaction: an error rolls it back. *)
Definition registry_publish (env : publish_env) (expected_revision : Z)
    (operation_id request_fingerprint : string) (payload : DurableSessionPayload)
    (operation_result : SessionOperationResult) : M SessionRow RestoredSessionState :=
  require ((0 <=? expected_revision) && authority_identifier operation_id) ValidationError "" ;;
  require (pe_locked env) LeaseAdmissionError "" ;;
  record ← get;
  require (row_active record) LeaseAdmissionError "lifecycle_rejected" ;;
  require (negb (row_rotation_pending record)) SessionStateWriteError "rotation_pending" ;;
  match dget operation_id (row_operations record) with
  | Some (receipt_fingerprint, operation_revision, result) =>
      require (String.eqb receipt_fingerprint request_fingerprint) SessionStateWriteError
        "operation_conflict" ;;
      let restored := mkRestored (row_payload record) (row_revision record) true
                        (Some operation_revision) (Some result) in
      lift (validated (operation_receipt_matches_replay restored) restored)
  | None =>
      require (expected_revision =? row_revision record) SessionStateWriteError "stale_revision" ;;
      let next_revision := row_revision record + 1 in
      require (pe_lease_live env) LeaseAdmissionError "lease_expired" ;;
      put (mkRow (row_active record) (row_rotation_pending record) next_revision payload
             (dset operation_id (request_fingerprint, next_revision, operation_result)
                (row_operations record))) ;;
      lift (let restored := mkRestored payload next_revision false None None in
            validated (operation_receipt_matches_replay restored) restored)
  end.

#[export] Instance registry_persistence : SessionPersistence SessionRow publish_env :=
  {| publish := registry_publish |}.
