(* ===== verification/SessionCommit.v ===== *)
(** * Commits of the session state are atomic and happen once

    A projection survives its own payload, every request keeps it well formed,
    and so a commit either changes nothing or installs exactly the committed
    state; an operation id is applied once by a coordinator and once per
    registry row, whichever worker repeats it. *)

From S2P Require Import Prelude PyText Money Receipts Cart OrderScope SessionState.
Local Open Scope Z_scope.
Local Open Scope list_scope.

(** ** Well-formed projections *)
Record guest_ok (g : Guest.GuestOrderScope) : Prop := {
  go_tenant : strip (Guest.tenant_id g) = Guest.tenant_id g;
  go_tenant_text : nonempty (Guest.tenant_id g) = true;
  go_session : strip (Guest.session_id g) = Guest.session_id g;
  go_session_text : blank (Guest.session_id g) = false;
  go_nodup : NoDup (Guest.order_refs g);
  go_canon : ∀ r, r ∈ Guest.order_refs g → nonempty r = true ∧ canon r = r
}.

Record projection_ok (p : Projection) : Prop := {
  po_cart : cart_ok (pj_cart p);
  po_recent : Recent.context_ok (pj_recent p);
  po_guest : guest_ok (pj_guest p)
}.

(** Two projections of one session. *)
Definition same_scope (p q : Projection) : Prop :=
  Recent.max_refs (pj_recent p) = Recent.max_refs (pj_recent q) ∧
  Guest.tenant_id (pj_guest p) = Guest.tenant_id (pj_guest q) ∧
  Guest.session_id (pj_guest p) = Guest.session_id (pj_guest q).

#[export] Instance same_scope_equiv : Equivalence same_scope.
Proof.
  split; [by intros ?|intros ?? (?&?&?); split_and!; congruence|].
  intros ??? (?&?&?) (?&?&?). split_and!; congruence.
Qed.

Lemma record_all_canonical refs : ∀ g,
  (∀ r, r ∈ refs → nonempty r = true ∧ canon r = r) → NoDup (Guest.order_refs g ++ refs) →
  Guest.record_all refs g = (Guest.set_refs (λ d, d ++ ((λ r, (r, tt)) <$> refs)) g, inr tt).
Proof.
  induction refs as [|r refs IH]; intros g Hc Hnd; simpl.
  - unfold Guest.set_refs. rewrite app_nil_r. by destruct g.
  - destruct (Hc r ltac:(left)) as [Hne Hr]. unfold Guest.record. munfold_goal. rewrite Hr, Hne.
    assert (dget r (Guest.order_refs_ g) = None) as Hfresh.
    { apply dget_None. intros Hin. apply NoDup_app in Hnd as (_ & Hd & _).
      apply (Hd r Hin). left. }
    rewrite IH; [|set_solver|].
    + unfold Guest.set_refs. simpl. rewrite dset_fresh by done. by rewrite <-app_assoc.
    + unfold Guest.order_refs, Guest.set_refs. simpl. rewrite dkeys_dset_fresh by done.
      by rewrite <-app_assoc.
Qed.

Lemma unit_dict_keys (d : list (string * unit)) : (λ r, (r, tt)) <$> dkeys d = d.
Proof. induction d as [|[k []] d IH]; [done|]. unfold dkeys in *. rewrite !fmap_cons, IH. done. Qed.

Lemma from_refs_id g : guest_ok g →
  Guest.from_refs (Guest.tenant_id g) (Guest.session_id g) (Guest.order_refs g) = inr g.
Proof.
  intros [Ht Htt Hs Hst Hnd Hc]. unfold Guest.from_refs, Guest.new_scope, Guest.normalize_tenant_id.
  munfold_goal. cbv zeta. rewrite Ht, Htt, Hst, Hs. simpl.
  rewrite record_all_canonical by done. unfold Guest.set_refs. simpl.
  unfold Guest.order_refs. rewrite unit_dict_keys. by destruct g.
Qed.

Lemma from_snapshot_id c : Recent.context_ok c →
  Recent.from_snapshot (Recent.snapshot_ c) (Z.of_nat (Recent.max_refs c)) = inr c.
Proof.
  intros (Hm & _ & Hl). unfold Recent.from_snapshot, Recent.new_context. munfold_goal.
  rewrite (proj2 (Z.leb_le _ _)) by lia. rewrite (proj2 (Z.leb_le _ _)) by lia.
  rewrite Nat2Z.id. by destruct c.
Qed.

(** ** Payloads *)
Definition payload_of (p : Projection) (retirement : option string) : DurableSessionPayload :=
  mkPayload (exported (pj_cart p)) (Recent.snapshot_ (pj_recent p)) (Guest.order_refs (pj_guest p))
    retirement.

Lemma export_ok p retirement : projection_ok p → export p retirement = inr (payload_of p retirement).
Proof.
  intros [Hc _ [_ _ _ _ Hnd Hcan]]. unfold export. rewrite exported_constructs by done. simpl.
  unfold make_payload, guest_order_refs_are_canonical. munfold_goal.
  rewrite bool_decide_eq_true_2 by done.
  assert (forallb (λ ref, nonempty ref && bool_decide (ref = canon ref))
    (Guest.order_refs (pj_guest p)) = true) as ->; [|done].
  apply forallb_forall. intros r Hr%list_elem_of_In. destruct (Hcan r Hr) as [-> ->].
  by rewrite bool_decide_eq_true_2.
Qed.

Lemma copy_projection_ok c : projection_ok (projection c) →
  copy_projection c (payload_of (projection c) (principal_retirement c)) = inr (projection c).
Proof.
  intros [Hc Hr Hg]. unfold copy_projection, payload_of. simpl.
  rewrite from_snapshot_id by done. simpl. rewrite from_refs_id by done. simpl.
  rewrite from_state_exported by done. by destruct (projection c).
Qed.

Section install.
  Context {P : Type}.

  (** Installing the payload of a projection of the same session installs it. *)
Lemma install_ok (s : Session (P:=P)) p retirement n :
    projection_ok p → same_scope p (projection (coordinator s)) →
    install (payload_of p retirement) n s =
    (mkSession (mkCoordinator p n retirement (local_operations (coordinator s))) (persistence s),
     inr tt).
  Proof.
    intros [Hc Hr Hg] (Hm & Ht & Hs). destruct s as [[[cart recent guest] rev ret ops] st].
    simpl in *. unfold install, on_projection, on_cart, on_recent, on_guest, restore_state,
      Recent.restore_snapshot, Guest.restore_refs, set_coordinator. munfold_goal. simpl.
    destruct Hr as (Hm1 & _ & Hl). rewrite <-Hm, (proj2 (Nat.leb_le _ _)) by done. simpl.
    rewrite <-Ht, <-Hs, from_refs_id by done. simpl. rewrite from_state_exported by done.
    unfold Recent.set_snapshot, Guest.set_refs. simpl. rewrite <-Hm, <-Ht, <-Hs.
    destruct p as [c1 [m1 s1] [t1 i1 r1]]. done.
  Qed.
End install.

(** ** Requests keep a projection well formed *)
#[local] Instance record_accepts_dec n refs f outs : Decision (Recent.record_accepts n refs f outs).
Proof.
  unfold Recent.record_accepts. apply and_dec; [apply _|apply and_dec].
  - destruct (Recent.focus_of n f (Recent.canonical_refs refs)) as [x|]; [|by left].
    destruct (decide (x ∈ Recent.canonical_refs refs)); [left|right]; naive_solver.
  - destruct (decide (Forall (λ rc, canon rc.1 ∈ Recent.canonical_refs refs) outs)) as [H|H];
      [left|right]; by rewrite Forall_forall in H.
Defined.

Lemma recent_record_ok c refs op f outs : Recent.context_ok c →
  Recent.context_ok (Recent.record refs op f outs c).1 ∧
  Recent.max_refs (Recent.record refs op f outs c).1 = Recent.max_refs c.
Proof.
  intros Hok. destruct (decide (Recent.record_accepts (Recent.max_refs c) refs f outs)) as [Ha|Ha].
  - destruct Hok as (Hm & _ & _).
    destruct (Recent.record_accepted c refs op f outs Hm Ha) as [-> Hcoh]. split; [|done].
    destruct Ha as (_ & Hf & _).
    destruct (Recent.bounded_of_spec (Recent.max_refs c) _ _ Hm (fromkeys_NoDup _) Hf)
      as (_ & _ & Hlen & _).
    by split_and!.
  - by destruct (Recent.record_rejects c refs op f outs Ha) as [e ->].
Qed.

Lemma guest_record_ok g o : guest_ok g →
  guest_ok (Guest.record o g).1 ∧ Guest.tenant_id (Guest.record o g).1 = Guest.tenant_id g ∧
  Guest.session_id (Guest.record o g).1 = Guest.session_id g.
Proof.
  intros [Ht Htt Hs Hst Hnd Hc]. unfold Guest.record. munfold_goal.
  destruct (nonempty (canon o)) eqn:Hn; simpl; [|done].
  split_and!; [|done..]. split; simpl; try done.
  - by apply dset_NoDup.
  - intros r Hr. unfold Guest.order_refs in Hr. simpl in Hr.
    destruct (dget (canon o) (Guest.order_refs_ g)) as [u|] eqn:E.
    + erewrite dkeys_dset_mem in Hr by done. by apply Hc.
    + rewrite dkeys_dset_fresh in Hr by done.
      apply elem_of_app in Hr as [Hr| ->%list_elem_of_singleton]; [by apply Hc|].
      split; [done|apply canon_idem].
Qed.

Lemma guest_clear_ok g : guest_ok g → guest_ok (Guest.clear g).1.
Proof. intros []. split; simpl; try done; [constructor|set_solver]. Qed.

(** Steps on one component. *)
Definition keeps (m : Projection → Projection) : Prop :=
  ∀ p, projection_ok p → projection_ok (m p) ∧ same_scope p (m p).

Lemma on_cart_keeps {A} (m : M CartStore A) :
  (∀ c, cart_ok c → cart_ok (m c).1) → keeps (λ p, (on_cart m p).1).
Proof.
  intros Hm p [Hc Hr Hg]. unfold on_cart. specialize (Hm _ Hc). destruct (m (pj_cart p)).
  by split.
Qed.
Lemma on_recent_keeps {A} (m : M Recent.RecentOrderContext A) :
  (∀ c, Recent.context_ok c →
    Recent.context_ok (m c).1 ∧ Recent.max_refs (m c).1 = Recent.max_refs c) →
  keeps (λ p, (on_recent m p).1).
Proof.
  intros Hm p [Hc Hr Hg]. unfold on_recent. specialize (Hm _ Hr). destruct (m (pj_recent p)).
  destruct Hm as [? Hn]. split; [done|]. split_and!; simpl in *; congruence.
Qed.
Lemma on_guest_keeps {A} (m : M Guest.GuestOrderScope A) :
  (∀ g, guest_ok g → guest_ok (m g).1 ∧ Guest.tenant_id (m g).1 = Guest.tenant_id g ∧
    Guest.session_id (m g).1 = Guest.session_id g) →
  keeps (λ p, (on_guest m p).1).
Proof.
  intros Hm p [Hc Hr Hg]. unfold on_guest. specialize (Hm _ Hg). destruct (m (pj_guest p)).
  destruct Hm as (? & Ht & Hs). split; [done|]. split_and!; simpl in *; congruence.
Qed.
Lemma bind_keeps {A B} (m : M Projection A) (k : A → M Projection B) :
  keeps (λ p, (m p).1) → (∀ a, keeps (λ p, (k a p).1)) → keeps (λ p, (mbind k m p).1).
Proof.
  intros Hm Hk p Hp. destruct (Hm p Hp) as [Hp1 Hs1]. unfold mbind, M_bind.
  destruct (m p) as [p1 [e|a]]; [done|]. simpl in *. destruct (Hk a p1 Hp1) as [Hp2 Hs2].
  split; [done|]. by transitivity p1.
Qed.
Lemma ret_keeps {A} (a : A) : keeps (λ p, (mret (M:=M Projection) a p).1).
Proof. by intros p Hp. Qed.

Create HintDb session.
#[export] Hint Resolve ret_keeps recent_record_ok guest_record_ok apply_preserves_ok : session.

Lemma recent_clear_keeps : keeps (λ p, (on_recent Recent.clear p).1).
Proof. apply on_recent_keeps. intros c Hc. split; [by apply Recent.clear_ok|done]. Qed.
Lemma cart_clear_keeps : keeps (λ p, (on_cart clear p).1).
Proof. apply on_cart_keeps. intros c _. apply empty_cart_ok. Qed.
Lemma guest_clear_keeps : keeps (λ p, (on_guest Guest.clear p).1).
Proof. apply on_guest_keeps. intros g Hg. split; [by apply guest_clear_ok|done]. Qed.
#[export] Hint Resolve recent_clear_keeps cart_clear_keeps guest_clear_keeps : session.

Ltac keeps_step :=
  repeat (apply bind_keeps; [|intros ?]);
  first [apply ret_keeps|solve [auto with session]
        |apply on_cart_keeps|apply on_recent_keeps|apply on_guest_keeps];
  intros; auto with session.

Lemma mutation_keeps key request : keeps (λ p, (mutation key request p).1).
Proof.
  destruct request; cbn [mutation]; unfold clear_projection; keeps_step.
Qed.

(** ** What a payload restores to *)
Definition payload_fits (p0 : Projection) (pl : DurableSessionPayload) : Prop :=
  ∃ p m, pl = payload_of p m ∧ projection_ok p ∧ same_scope p p0.

Lemma payload_fits_scope p q pl : same_scope p q → payload_fits p pl → payload_fits q pl.
Proof. intros Hs (r & m & -> & Hr & Hrp). exists r, m. split_and!; [done|done|]. by transitivity p. Qed.

(** ** What the coordinator relies on of its persistence

    A rejected publication changes nothing, a replay changes nothing, a first
    publication returns what was published, and what is stored for a session
    restores in that session. *)
Class SessionPersistenceLaws (P E : Type) `{SessionPersistence P E} := {
  store_fits : Projection → P → Prop;
  store_fits_scope p q st : same_scope p q → store_fits p st → store_fits q st;
  publish_error env n op fp pl v st st' e :
    publish env n op fp pl v st = (st', inl e) → st' = st;
  publish_replay env n op fp pl v st st' r :
    publish env n op fp pl v st = (st', inr r) → rs_replayed r = true → st' = st;
  publish_first env n op fp pl v st st' r :
    publish env n op fp pl v st = (st', inr r) → rs_replayed r = false →
    rs_payload r = pl ∧ rs_session_revision r = n + 1;
  publish_fits p0 env n op fp pl v st st' r :
    store_fits p0 st → payload_fits p0 pl → publish env n op fp pl v st = (st', inr r) →
    store_fits p0 st' ∧ payload_fits p0 (rs_payload r)
}.

Section commits.
  Context {P E : Type} `{SessionPersistenceLaws P E}.
  Context (fingerprint : SessionRequest → string).
  Implicit Types (s : Session (P:=P)) (c : Coordinator).

Definition session_ok s : Prop :=
    projection_ok (projection (coordinator s)) ∧
    match persistence s with
    | Some st => store_fits (projection (coordinator s)) st
    | None => True
    end.

Definition new_marker c (request : SessionRequest) : option string :=
    match marker_of request with None => principal_retirement c | Some m => m end.

  (** The value an accepted publication yields: a replayed one has to be of the same kind. *)
Definition replayed_value (r : RestoredSessionState) (v : SessionOperationResult)
      : res SessionOperationResult :=
    if rs_replayed r then
      match rs_operation_result r with
      | Some stored => if same_kind stored v then inr stored else raises SessionRegistryDataError
          "stored session operation result does not match the operation"
      | None => raises SessionRegistryDataError
          "stored session operation result does not match the operation"
      end
    else inr v.

  (** The coordinator after it installs a payload under a revision. *)
Definition installed c (p : Projection) (n : Z) (m : option string) op entry : Coordinator :=
    mkCoordinator p n m (dset op entry (local_operations c)).

Lemma commit_blank env op request s : blank op = true →
    ∃ e, commit_request fingerprint env op request s = (s, inl e).
  Proof. intros Hb. unfold commit_request, commit. munfold_goal. rewrite Hb. simpl. eauto. Qed.

Lemma commit_known env op request s fp v :
    blank op = false → dget op (local_operations (coordinator s)) = Some (fp, v) →
    commit_request fingerprint env op request s =
      if String.eqb fp (fingerprint request)
      then (s, inr (v, revision (coordinator s)))
      else (s, inl (Exc SessionStateWriteError "operation_conflict")).
  Proof.
    intros Hb Hk. unfold commit_request, commit. munfold_goal. rewrite Hb. simpl. rewrite Hk. simpl.
    by destruct (String.eqb _ _).
  Qed.

Lemma commit_new env op request s :
    projection_ok (projection (coordinator s)) → blank op = false →
    dget op (local_operations (coordinator s)) = None →
    let c := coordinator s in let fp := fingerprint request in
    match mutation op request (projection c) with
    | (_, inl e) => commit_request fingerprint env op request s = (s, inl e)
    | (p, inr v) =>
        projection_ok p ∧ same_scope p (projection c) ∧
        match persistence s with
        | None => commit_request fingerprint env op request s =
            (mkSession (installed c p (revision c + 1) (new_marker c request) op (fp, v)) None,
             inr (v, revision c + 1))
        | Some st =>
            match publish env (revision c) op fp (payload_of p (new_marker c request)) v st with
            | (st', inl e) => commit_request fingerprint env op request s =
                (mkSession c (Some st'), inl e)
            | (st', inr r) =>
                match replayed_value r v with
                | inl e => commit_request fingerprint env op request s =
                    (mkSession c (Some st'), inl e)
                | inr w => ∀ q m, rs_payload r = payload_of q m → projection_ok q →
                    same_scope q (projection c) →
                    commit_request fingerprint env op request s =
                    (mkSession (installed c q (rs_session_revision r) m op (fp, w)) (Some st'),
                     inr (w, rs_session_revision r))
                end
            end
        end
    end.
  Proof.
    intros Hp Hb Hn c fp. pose proof (mutation_keeps op request _ Hp) as [Hp' Hs'].
    unfold commit_request, commit. munfold_goal. rewrite Hb. cbn [negb].
    fold c. unfold c in *. rewrite Hn. unfold snapshot. rewrite export_ok by done. cbn iota beta.
    rewrite copy_projection_ok by done. cbn iota beta.
    destruct (mutation op request (projection (coordinator s))) as [p [e|v]]; [done|].
    simpl in Hp', Hs'. split_and!; [done|by symmetry|]. fold (new_marker (coordinator s) request).
    rewrite export_ok by done. cbn iota beta. destruct (persistence s) as [st|] eqn:Hst.
    - destruct (publish env _ op _ _ v st) as [st' [e|r]]; [done|].
      cbn iota beta. unfold replayed_value. destruct (rs_replayed r).
      + destruct (rs_operation_result r) as [w|]; [|done]. destruct (same_kind w v); [|done].
        unfold set_persistence, remember, set_coordinator. munfold_goal.
        intros q m -> Hq Hqs. by rewrite install_ok by done.
      + unfold set_persistence, remember, set_coordinator. munfold_goal.
        intros q m -> Hq Hqs. by rewrite install_ok by done.
    - unfold remember, set_coordinator. munfold_goal. rewrite install_ok; [by rewrite Hst|done|].
      by symmetry.
  Qed.

  (** A call on a well-formed session: an error leaves the session as it was, a
      result leaves a well-formed session of the same scope. *)
Definition call_outcome s (r : Session (P:=P) * res (SessionOperationResult * Z)) : Prop :=
    match r with
    | (s', inl _) => s' = s
    | (s', inr (_, n)) => session_ok s' ∧ revision (coordinator s') = n ∧
        same_scope (projection (coordinator s)) (projection (coordinator s'))
    end.

Lemma commit_request_outcome env op request s :
    session_ok s → call_outcome s (commit_request fingerprint env op request s).
  Proof.
    intros [Hp Hst]. destruct (blank op) eqn:Hb.
    { unfold commit_request, commit. munfold_goal. by rewrite Hb. }
    destruct (dget op (local_operations (coordinator s))) as [[fp v]|] eqn:Hk.
    { erewrite commit_known by done. by destruct (String.eqb _ _). }
    pose proof (commit_new env op request s Hp Hb Hk) as Hnew. cbv zeta in Hnew.
    destruct (mutation op request (projection (coordinator s))) as [p [e|v]]; [by rewrite Hnew|].
    destruct Hnew as (Hp' & Hs' & Hnew). destruct (persistence s) as [st|] eqn:Est.
    2:{ rewrite Hnew. split_and!; [by split|done|by symmetry]. }
    destruct (publish _ _ _ _ _ _ st) as [st' [e|r]] eqn:Epub.
    { rewrite Hnew, (publish_error _ _ _ _ _ _ _ _ _ Epub). simpl. rewrite <-Est. by destruct s. }
    destruct (replayed_value r v) as [e|w] eqn:Er.
    - rewrite Hnew. unfold replayed_value in Er. destruct (rs_replayed r) eqn:Erep; [|done].
      rewrite (publish_replay _ _ _ _ _ _ _ _ _ Epub Erep). simpl. rewrite <-Est. by destruct s.
    - assert (payload_fits (projection (coordinator s))
        (payload_of p (new_marker (coordinator s) request))) as Hfit by (by eexists _, _).
      destruct (publish_fits _ _ _ _ _ _ _ _ _ _ Hst Hfit Epub) as [Hst' (q & m & Hr & Hq & Hqs)].
      rewrite (Hnew q m Hr Hq Hqs). split_and!; [|done|by symmetry].
      split; [done|]. simpl. by eapply store_fits_scope.
  Qed.

  (** The public calls of the coordinator. *)
Inductive SessionCall :=
    | CallCartMutation (key : string) (operation : CartOperation) (sku name : string)
        (price_usd : Decimal) (quantity : option Z) (pre_confirm_quantity : Z)
    | CallCompletePlacement (key order_id : string)
    | CallRecordRecent (operation_id : string) (refs : list string)
        (operation : OrderContextOperation) (focused : option string) (outs : list (string * string))
    | CallClearRecent (operation_id : string)
    | CallClearEphemeral (operation_id : string)
    | CallBeginRetirement (transition_id : string)
    | CallFinishRetirement (transition_id : string).

Definition run_call (env : E) (call : SessionCall) : SM (P:=P) (SessionOperationResult * Z) :=
    match call with
    | CallCartMutation key operation sku name price quantity pre =>
        apply_cart_mutation fingerprint env key operation sku name price quantity pre
    | CallCompletePlacement key order_id => complete_placement fingerprint env key order_id
    | CallRecordRecent id refs operation focused outs =>
        record_recent_orders fingerprint env id refs operation focused outs
    | CallClearRecent id => clear_recent_orders fingerprint env id
    | CallClearEphemeral id => clear_ephemeral fingerprint env id
    | CallBeginRetirement id => begin_principal_retirement fingerprint env id
    | CallFinishRetirement id => finish_principal_retirement fingerprint env id
    end.

  (** A call fails its own check or is the commit of a request. *)
Lemma run_call_cases env call s :
    (∃ e, run_call env call s = (s, inl e)) ∨
    ∃ op request, run_call env call s = commit_request fingerprint env op request s.
  Proof.
    destruct call; try (by right; eexists _, _); simpl.
    - unfold begin_principal_retirement, make_PrincipalRetirementMarker. munfold_goal.
      destruct (blank transition_id); simpl; [left|right]; eauto.
    - unfold finish_principal_retirement. munfold_goal.
      case_bool_decide; [right|left]; eauto.
  Qed.

Lemma run_call_outcome env call s : session_ok s → call_outcome s (run_call env call s).
  Proof.
    intros Hs. destruct (run_call_cases env call s) as [[e ->]|(op & req & ->)]; [done|].
    by apply commit_request_outcome.
  Qed.

  (** A remembered operation stays remembered. *)
Lemma commit_remembers env op request s s' r op' entry :
    session_ok s → commit_request fingerprint env op request s = (s', r) →
    dget op' (local_operations (coordinator s)) = Some entry →
    dget op' (local_operations (coordinator s')) = Some entry.
  Proof.
    intros Hs Hc Hk'. pose proof (commit_request_outcome env op request s Hs) as Ho. rewrite Hc in Ho.
    destruct r as [e|[v n]]; [by rewrite Ho|]. clear Ho. destruct Hs as [Hp Hst].
    destruct (blank op) eqn:Hb.
    { unfold commit_request, commit in Hc. munfold. by rewrite Hb in Hc. }
    destruct (dget op (local_operations (coordinator s))) as [[fp w]|] eqn:Hk.
    { erewrite commit_known in Hc by done. destruct (String.eqb _ _); by simplify_eq. }
    assert (∀ c p k m e, dget op' (local_operations c) = Some entry →
      dget op (local_operations c) = None →
      dget op' (local_operations (installed c p k m op e)) = Some entry) as Hkeep.
    { intros c p k m e H1 H2. simpl. rewrite dget_dset_ne; [done|]. intros ->. congruence. }
    pose proof (commit_new env op request s Hp Hb Hk) as Hnew. cbv zeta in Hnew.
    destruct (mutation op request (projection (coordinator s))) as [p [e|w]]; [congruence|].
    destruct Hnew as (Hp' & Hs' & Hnew). destruct (persistence s) as [st|] eqn:Est.
    2:{ rewrite Hnew in Hc. simplify_eq. by apply Hkeep. }
    destruct (publish _ _ _ _ _ _ st) as [st' [e|rr]] eqn:Epub; [congruence|].
    destruct (replayed_value rr w) as [e|u] eqn:Er; [congruence|].
    assert (payload_fits (projection (coordinator s))
      (payload_of p (new_marker (coordinator s) request))) as Hfit by (by eexists _, _).
    destruct (publish_fits _ _ _ _ _ _ _ _ _ _ Hst Hfit Epub) as [Hst' (q & m & Hr & Hq & Hqs)].
    rewrite (Hnew q m Hr Hq Hqs) in Hc. simplify_eq. by apply Hkeep.
  Qed.
End commits.

Section replay.
  Context {P E : Type} `{SessionPersistenceLaws P E}.
  Context (fingerprint : SessionRequest → string).

Definition call_step (s s' : Session (P:=P)) : Prop :=
    ∃ env call, s' = (run_call fingerprint env call s).1.

Lemma call_step_ok s s' : session_ok s → call_step s s' → session_ok s'.
  Proof.
    intros Hs (env & call & ->). pose proof (run_call_outcome fingerprint env call s Hs) as Ho.
    destruct (run_call _ _ _ _) as [s1 [e|[v n]]]; simpl in *; [by subst|]. by destruct Ho.
  Qed.

Lemma call_step_remembers s s' op entry : session_ok s → call_step s s' →
    dget op (local_operations (coordinator s)) = Some entry →
    dget op (local_operations (coordinator s')) = Some entry.
  Proof.
    intros Hs (env & call & ->) Hk.
    destruct (run_call_cases fingerprint env call s) as [[e ->]|(op' & req & ->)]; [done|].
    destruct (commit_request _ _ _ _ _) as [s1 r] eqn:Ec. by eapply commit_remembers.
  Qed.

  (** A successful commit is remembered with its fingerprint and value. *)
Lemma commit_success_remembered env op request (s s' : Session (P:=P)) v n :
    session_ok s → commit_request fingerprint env op request s = (s', inr (v, n)) →
    blank op = false ∧
    dget op (local_operations (coordinator s')) = Some (fingerprint request, v).
  Proof.
    intros [Hp Hst] Hc. destruct (blank op) eqn:Hb.
    { unfold commit_request, commit in Hc. munfold. by rewrite Hb in Hc. }
    split; [done|].
    destruct (dget op (local_operations (coordinator s))) as [[fp w]|] eqn:Hk.
    { erewrite commit_known in Hc by done. destruct (String.eqb_spec fp (fingerprint request));
        by simplify_eq. }
    pose proof (commit_new fingerprint env op request s Hp Hb Hk) as Hnew. cbv zeta in Hnew.
    destruct (mutation op request (projection (coordinator s))) as [p [e|w]]; [congruence|].
    destruct Hnew as (Hp' & Hs' & Hnew). destruct (persistence s) as [st|] eqn:Est.
    2:{ rewrite Hnew in Hc. simplify_eq. simpl. apply dget_dset_eq. }
    destruct (publish _ _ _ _ _ _ st) as [st' [e|rr]] eqn:Epub; [congruence|].
    destruct (replayed_value rr w) as [e|u] eqn:Er; [congruence|].
    assert (payload_fits (projection (coordinator s))
      (payload_of p (new_marker (coordinator s) request))) as Hfit by (by eexists _, _).
    destruct (publish_fits _ _ _ _ _ _ _ _ _ _ Hst Hfit Epub) as [Hst' (q & m & Hr & Hq & Hqs)].
    rewrite (Hnew q m Hr Hq Hqs) in Hc. simplify_eq. simpl. apply dget_dset_eq.
  Qed.
End replay.

(** ** Properties *)

(** Every call of the session coordinator is atomic, over any persistence
    that keeps the port's contract: an error leaves coordinator and store as
    they were, and a result leaves a well-formed session of the same scope at
    the revision it reports.  Without persistence a first call installs exactly
    what its request does to the old projection, one revision later. *)
Theorem session_call_atomic {P E} `{SessionPersistenceLaws P E} (fingerprint : SessionRequest → string)
    (env : E) (call : SessionCall) (s : Session (P:=P)) :
  session_ok s →
  (∀ s' e, run_call fingerprint env call s = (s', inl e) → s' = s) ∧
  (∀ s' v n, run_call fingerprint env call s = (s', inr (v, n)) →
    session_ok s' ∧ revision (coordinator s') = n ∧
    same_scope (projection (coordinator s)) (projection (coordinator s'))) ∧
  (persistence s = None → ∀ op request, blank op = false →
    dget op (local_operations (coordinator s)) = None →
    commit_request fingerprint env op request s =
    match mutation op request (projection (coordinator s)) with
    | (_, inl e) => (s, inl e)
    | (p, inr v) =>
        let n := revision (coordinator s) + 1 in
        (mkSession (mkCoordinator p n (new_marker (coordinator s) request)
           (dset op (fingerprint request, v) (local_operations (coordinator s)))) None, inr (v, n))
    end).
Proof.
  intros Hs. pose proof (run_call_outcome fingerprint env call s Hs) as Ho. split_and!.
  { intros s' e Hr. by rewrite Hr in Ho. }
  { intros s' v n Hr. by rewrite Hr in Ho. }
  intros Hnone op request Hb Hk.
  pose proof (commit_new fingerprint env op request s (proj1 Hs) Hb Hk) as Hnew. cbv zeta in Hnew.
  destruct (mutation _ _ _) as [p [e|v]]; [done|]. destruct Hnew as (_ & _ & Hnew).
  by rewrite Hnone in Hnew.
Qed.

(** An operation is applied once per coordinator: after it returned a value,
    whatever calls follow, repeating its id with the same request returns that
    value and changes nothing, and using its id for a request with another
    fingerprint is an [operation_conflict] that changes nothing. *)
Theorem session_operation_once {P E} `{SessionPersistenceLaws P E}
    (fingerprint : SessionRequest → string) (env env' : E) op request request'
    (s s1 s2 : Session (P:=P)) v n :
  session_ok s → commit_request fingerprint env op request s = (s1, inr (v, n)) →
  rtc (call_step fingerprint) s1 s2 →
  commit_request fingerprint env' op request' s2 =
    if String.eqb (fingerprint request) (fingerprint request')
    then (s2, inr (v, revision (coordinator s2)))
    else (s2, inl (Exc SessionStateWriteError "operation_conflict")).
Proof.
  intros Hs Hc Hrun. destruct (commit_success_remembered _ _ _ _ _ _ _ _ Hs Hc) as [Hb Hk].
  pose proof (commit_request_outcome fingerprint env op request s Hs) as Ho. rewrite Hc in Ho.
  destruct Ho as (Hs1 & _). apply commit_known; [done|].
  clear Hc Hs. induction Hrun as [x|x y z Hstep _ IH]; [done|].
  apply IH; [by eapply call_step_remembers|by eapply call_step_ok].
Qed.

(** A small session, used by the witnesses. *)
Definition demo_projection : Projection :=
  mkProjection empty_cart (Recent.mkContext 10 Recent.empty_snapshot)
    (Guest.mkScope "acme" "s-1" []).
Definition demo_session : Session (P:=SessionRow) :=
  mkSession (mkCoordinator demo_projection 0 None []) None.
Definition demo_fingerprint (r : SessionRequest) : string :=
  match r with
  | placement_projection o => "placement " +:+ o
  | begin_retirement t => "begin " +:+ t
  | _ => "other"
  end.
Definition demo_env : publish_env := mkPublishEnv true true.

Lemma demo_projection_ok : projection_ok demo_projection.
Proof.
  split; simpl; [apply empty_cart_ok| |].
  - split_and!; [simpl; lia|apply Recent.empty_snapshot_ok|simpl; lia].
  - split; simpl; try done; [constructor|set_solver].
Qed.

Lemma demo_session_ok {E} `{SessionPersistenceLaws SessionRow E} : session_ok demo_session.
Proof. split; [apply demo_projection_ok|done]. Qed.
