(* ===== verification/SessionRefine.v ===== *)
(** * The workers of a session refine one serial session

    The registry's publication keeps the coordinator's contract.  Any number of
    workers that reconstruct the session, call their coordinators and are
    fenced off at any point, with the row's lifecycle changing underneath,
    produce only serial applications of requests to the row's own previous
    state, each operation id applied at most once. *)

From S2P Require Import Prelude PyText Money Receipts Cart OrderScope SessionState SessionCommit.
Local Open Scope Z_scope.
Local Open Scope list_scope.

(** ** The registry keeps the contract *)
Lemma registry_publish_cases env n op fp pl v st st' r :
  registry_publish env n op fp pl v st = (st', r) →
  (st' = st ∧ ∃ e, r = inl e) ∨
  (st' = st ∧ ∃ k w, dget op (row_operations st) = Some (fp, k, w) ∧
    r = inr (mkRestored (row_payload st) (row_revision st) true (Some k) (Some w))) ∨
  (dget op (row_operations st) = None ∧ n = row_revision st ∧
    st' = mkRow (row_active st) (row_rotation_pending st) (row_revision st + 1) pl
            (dset op (fp, row_revision st + 1, v) (row_operations st)) ∧
    r = inr (mkRestored pl (row_revision st + 1) false None None)).
Proof.
  unfold registry_publish, operation_receipt_matches_replay. munfold_goal. intros Hr.
  destruct ((0 <=? n) && _); simpl in Hr; [|simplify_eq; eauto].
  destruct (pe_locked env); simpl in Hr; [|simplify_eq; eauto].
  destruct (row_active st) eqn:Ea; simpl in Hr; [|simplify_eq; eauto].
  destruct (row_rotation_pending st) eqn:Ep; simpl in Hr; [simplify_eq; eauto|].
  destruct (dget op (row_operations st)) as [[[fp' k] w]|] eqn:Ek; simpl in Hr.
  - destruct (String.eqb_spec fp' fp); simpl in Hr; [|simplify_eq; eauto].
    destruct (k <=? row_revision st); simpl in Hr; simplify_eq; [|eauto]. right; left. eauto.
  - destruct (Z.eqb_spec n (row_revision st)); simpl in Hr; [|simplify_eq; eauto].
    destruct (pe_lease_live env); simpl in Hr; simplify_eq; [|eauto]. right; right. eauto.
Qed.

#[export] Program Instance registry_laws : SessionPersistenceLaws SessionRow publish_env :=
  {| store_fits p0 st := payload_fits p0 (row_payload st) |}.
Next Obligation. intros p q st. apply payload_fits_scope. Qed.
Next Obligation.
  intros env n op fp pl v st st' e Hp. apply registry_publish_cases in Hp. naive_solver.
Qed.
Next Obligation.
  intros env n op fp pl v st st' r Hp Hr. apply registry_publish_cases in Hp. naive_solver.
Qed.
Next Obligation.
  intros env n op fp pl v st st' r Hp Hr. apply registry_publish_cases in Hp. naive_solver.
Qed.
Next Obligation.
  intros p0 env n op fp pl v st st' r Hst Hpl Hp. apply registry_publish_cases in Hp. naive_solver.
Qed.

(** ** The serial session *)
Section system.
  Context (fingerprint : SessionRequest → string) (p0 : Projection).

Definition marker_after (m : option string) (request : SessionRequest) : option string :=
    match marker_of request with None => m | Some m' => m' end.

  (** A request applied to the state the row holds, or a change of the row's
      lifecycle by other transactions. *)
Inductive serial_step : SessionRow → SessionRow → Prop :=
    | serial_apply row p m op request p' v :
        row_payload row = payload_of p m → projection_ok p →
        dget op (row_operations row) = None →
        mutation op request p = (p', inr v) →
        serial_step row
          (mkRow (row_active row) (row_rotation_pending row) (row_revision row + 1)
             (payload_of p' (marker_after m request))
             (dset op (fingerprint request, row_revision row + 1, v) (row_operations row)))
    | serial_lifecycle row active pending :
        serial_step row (mkRow active pending (row_revision row) (row_payload row)
          (row_operations row)).

  (** ** The workers *)
Record System := mkSystem { workers : list Coordinator; row : SessionRow }.

Inductive system_step : System → System → Prop :=
    | step_call ws rw i c env call s' rw' r :
        ws !! i = Some c →
        run_call fingerprint env call (mkSession c (Some rw)) = (s', r) →
        persistence s' = Some rw' →
        system_step (mkSystem ws rw) (mkSystem (<[i:=coordinator s']> ws) rw')
    | step_reconstruct ws rw c :
        reconstruct (row_payload rw) (Guest.tenant_id (pj_guest p0)) (Guest.session_id (pj_guest p0))
          (Z.of_nat (Recent.max_refs (pj_recent p0))) (row_revision rw) = inr c →
        system_step (mkSystem ws rw) (mkSystem (ws ++ [c]) rw)
    (* A worker that stops, or discards its projection, is not used again. *)
    | step_stop ws rw i :
        system_step (mkSystem ws rw) (mkSystem (delete i ws) rw)
    | step_lifecycle ws rw active pending :
        system_step (mkSystem ws rw)
          (mkSystem ws (mkRow active pending (row_revision rw) (row_payload rw) (row_operations rw))).

  (** A worker never runs ahead of the row; at the row's revision it holds the
      row's state; what it remembers has a receipt. *)
Record worker_ok (rw : SessionRow) (c : Coordinator) : Prop := {
    wo_projection : projection_ok (projection c);
    wo_scope : same_scope (projection c) p0;
    wo_revision : revision c ≤ row_revision rw;
    wo_current : revision c = row_revision rw →
      row_payload rw = payload_of (projection c) (principal_retirement c);
    wo_receipts : ∀ op fp v, dget op (local_operations c) = Some (fp, v) →
      ∃ k, dget op (row_operations rw) = Some (fp, k, v)
  }.

Record system_ok (σ : System) : Prop := {
    so_row : payload_fits p0 (row_payload (row σ));
    so_workers : ∀ i c, workers σ !! i = Some c → worker_ok (row σ) c
  }.

Definition system_init (σ : System) : Prop :=
    workers σ = [] ∧ payload_fits p0 (row_payload (row σ)).

Lemma system_init_ok σ : system_init σ → system_ok σ.
  Proof. intros [Hw Hr]. split; [done|]. intros i c. by rewrite Hw. Qed.

  (** Another worker's publication leaves a worker behind, never ahead. *)
Lemma worker_ok_publish rw c active pending pl op entry :
    worker_ok rw c → dget op (row_operations rw) = None →
    worker_ok (mkRow active pending (row_revision rw + 1) pl (dset op entry (row_operations rw))) c.
  Proof.
    intros [Hp Hs Hr Hc Ho] Hn. split; simpl; try done; [lia|lia|].
    intros op' fp v Hk. destruct (Ho _ _ _ Hk) as [k Hk']. exists k.
    rewrite dget_dset_ne; [done|]. congruence.
  Qed.

  (** What one commit does to the row and to its worker. *)
Lemma commit_system rw c env op request s' r :
    payload_fits p0 (row_payload rw) → worker_ok rw c →
    commit_request fingerprint env op request (mkSession c (Some rw)) = (s', r) →
    ∃ rw', persistence s' = Some rw' ∧ worker_ok rw' (coordinator s') ∧
      payload_fits p0 (row_payload rw') ∧
      (rw' = rw ∨ (dget op (row_operations rw) = None ∧ serial_step rw rw' ∧
        ∃ pl entry, rw' = mkRow (row_active rw) (row_rotation_pending rw) (row_revision rw + 1) pl
                            (dset op entry (row_operations rw)))) ∧
      (∀ v n, r = inr (v, n) → ∃ k, dget op (row_operations rw') = Some (fingerprint request, k, v)).
  Proof.
    intros Hfit Hw Hrun. pose proof Hw as [Hp Hs Hr Hc Ho].
    destruct (blank op) eqn:Hb.
    { destruct (commit_blank fingerprint env op request (mkSession c (Some rw)) Hb) as [e He].
      rewrite He in Hrun. simplify_eq.
      exists rw. split_and!; [done|done|done|by left|done]. }
    destruct (dget op (local_operations c)) as [[fp v]|] eqn:Hk.
    { erewrite commit_known in Hrun by done. destruct (Ho _ _ _ Hk) as [k Hk'].
      exists rw. destruct (String.eqb_spec fp (fingerprint request)) as [Heq|_]; simplify_eq/=.
      - split_and!; [done|done|done|by left|]. intros v' n' [= <- _]. eauto.
      - split_and!; [done|done|done|by left|done]. }
    pose proof (commit_new fingerprint env op request (mkSession c (Some rw)) Hp Hb Hk) as Hnew.
    cbv zeta in Hnew. cbn [coordinator persistence] in Hnew.
    destruct (mutation op request (projection c)) as [p [e|v]] eqn:Hmut.
    { rewrite Hnew in Hrun. simplify_eq. exists rw. split_and!; [done|done|done|by left|done]. }
    destruct Hnew as (Hp' & Hs' & Hnew).
    destruct (publish env _ _ _ _ _ rw) as [rw' pr] eqn:Epub.
    pose proof Epub as Hcases. apply registry_publish_cases in Hcases
      as [(-> & e & ->)|[(-> & k & w & Hk' & ->)|(Hn & Hrev & -> & ->)]].
    - rewrite Hnew in Hrun. simplify_eq. exists rw. split_and!; [done|done|done|by left|done].
    - unfold replayed_value in Hnew. simpl in Hnew. destruct (same_kind w v).
      2:{ rewrite Hnew in Hrun. simplify_eq. exists rw. split_and!; [done|done|done|by left|done]. }
      destruct Hfit as (q & m & Hq & Hqok & Hqs).
      rewrite (Hnew q m Hq Hqok ltac:(by transitivity p0)) in Hrun. simplify_eq. simpl.
      exists rw. split_and!; [done| |by eexists _, _|by left|].
      + split; simpl; [done|done|lia|done|]. intros op' fp' v'. rewrite dget_dset.
        case_decide; [intros [= <- <-]; subst; eauto|by apply Ho].
      + intros v' n' [= <- _]. eauto.
    - unfold replayed_value in Hnew. simpl in Hnew.
      rewrite (Hnew p _ eq_refl Hp' Hs') in Hrun. simplify_eq. simpl.
      eexists. split_and!; [done| | | |].
      + split; simpl; [done|by transitivity (projection c)|lia|done|].
        intros op' fp' v'. rewrite !dget_dset. case_decide; [intros [= <- <-]; eauto|]. by apply Ho.
      + eexists _, _. split_and!; [done|done|by transitivity (projection c)].
      + right. split; [done|]. split; [|eauto]. by eapply serial_apply; [by apply Hc|done..|].
      + intros v' n' [= <- _]. simpl. rewrite dget_dset_eq. eauto.
  Qed.

Lemma reconstruct_worker_ok rw c :
    payload_fits p0 (row_payload rw) →
    reconstruct (row_payload rw) (Guest.tenant_id (pj_guest p0)) (Guest.session_id (pj_guest p0))
      (Z.of_nat (Recent.max_refs (pj_recent p0))) (row_revision rw) = inr c →
    worker_ok rw c.
  Proof.
    intros (q & m & Hq & Hqok & Hqs). pose proof Hqok as [Hc Hr Hg]. pose proof Hqs as (Hm & Ht & Hi).
    unfold reconstruct, new_coordinator. rewrite Hq. simpl. rewrite <-Hm, <-Ht, <-Hi.
    rewrite from_snapshot_id by done. simpl. rewrite from_refs_id by done. simpl. munfold_goal.
    rewrite from_state_exported by done. destruct (row_revision rw <? 0); simpl; [done|].
    intros [= <-]. destruct q as [qc qr qg]. by split.
  Qed.

Lemma system_step_ok σ σ' : system_ok σ → system_step σ σ' →
    system_ok σ' ∧ rtc serial_step (row σ) (row σ').
  Proof.
    intros [Hrow Hws] Hstep. destruct Hstep as [ws rw i c env call s' rw' r Hi Hrun Hst
      |ws rw c Hrec|ws rw i|ws rw active pending]; simpl in *.
    - assert (∃ op request, commit_request fingerprint env op request (mkSession c (Some rw)) = (s', r)
        ∨ s' = mkSession c (Some rw)) as (op & request & [Hc| ->]).
      { destruct (run_call_cases fingerprint env call (mkSession c (Some rw)))
          as [[e Heq]|(op & request & Heq)]; rewrite Heq in Hrun.
        - exists "", clear_all. right. by simplify_eq.
        - exists op, request. by left. }
      + destruct (commit_system rw c env op request s' r Hrow (Hws _ _ Hi) Hc)
          as (rw'' & Hst' & Hw & Hfit & Hcase & _). simplify_eq.
        destruct Hcase as [->|(Hn & Hser & pl & entry & Heq)].
        * split; [|done]. split; [done|]. simpl. intros j d Hj.
          apply list_lookup_insert_Some in Hj as [(_ & <- & _)|[_ Hj]]; [done|by eapply Hws].
        * split; [|by apply rtc_once]. split; [done|]. simpl. intros j d Hj.
          apply list_lookup_insert_Some in Hj as [(_ & <- & _)|[_ Hj]]; [done|].
          rewrite Heq. apply worker_ok_publish; [by eapply Hws|done].
      + simplify_eq/=. split; [|done]. split; [done|]. simpl. intros j d Hj.
        apply list_lookup_insert_Some in Hj as [(_ & <- & _)|[_ Hj]]; by eapply Hws.
    - split; [|done]. split; [done|]. simpl. intros j d Hj.
      apply lookup_app_Some in Hj as [Hj|[_ Hj]]; [by eapply Hws|].
      apply list_lookup_singleton_Some in Hj as [_ <-].
      by eapply reconstruct_worker_ok.
    - split; [|done]. split; [done|]. simpl. intros j d Hj.
      destruct (decide (j < i)%nat).
      + rewrite list_lookup_delete_lt in Hj by done. by eapply Hws.
      + rewrite list_lookup_delete_ge in Hj by lia. by eapply Hws.
    - split; [|apply rtc_once, serial_lifecycle]. split; [done|]. simpl. intros j d Hj.
      destruct (Hws _ _ Hj) as [? ? ? ? ?]. by split.
  Qed.
End system.

Section receipts.
  Context (fingerprint : SessionRequest → string) (p0 : Projection).

Lemma serial_keeps_receipts rw rw' op entry :
    rtc (serial_step fingerprint) rw rw' → dget op (row_operations rw) = Some entry →
    dget op (row_operations rw') = Some entry.
  Proof.
    induction 1 as [|x y z Hstep _ IH]; [done|]. intros Hk. apply IH.
    destruct Hstep; simpl; [|done]. rewrite dget_dset_ne; [done|]. congruence.
  Qed.

Lemma system_run_ok σ σ' : system_ok p0 σ → rtc (system_step fingerprint p0) σ σ' →
    system_ok p0 σ' ∧ rtc (serial_step fingerprint) (row σ) (row σ').
  Proof.
    intros Hok Hrun. induction Hrun as [|x y z Hstep _ IH]; [done|].
    destruct (system_step_ok fingerprint p0 _ _ Hok Hstep) as [Hy Hs].
    destruct (IH Hy) as [Hz Hs']. split; [done|]. by etransitivity.
  Qed.

  (** A worker's commit under an id that has a receipt changes no row. *)
Lemma commit_with_receipt rw c env op request s' r fp k v :
    payload_fits p0 (row_payload rw) → worker_ok p0 rw c →
    dget op (row_operations rw) = Some (fp, k, v) →
    commit_request fingerprint env op request (mkSession c (Some rw)) = (s', r) →
    persistence s' = Some rw ∧ ∀ v' n, r = inr (v', n) → v' = v ∧ fingerprint request = fp.
  Proof.
    intros Hfit Hw Hk Hc.
    destruct (commit_system fingerprint p0 rw c env op request s' r Hfit Hw Hc)
      as (rw' & Hst & _ & _ & [->|(Hn & _)] & Hv); [|congruence].
    split; [done|]. intros v' n Hr. destruct (Hv _ _ Hr) as [k' Hk']. by simplify_eq.
  Qed.
End receipts.

(** ** Properties *)

(** C23 Refinement: whatever calls any number of workers of one session make,
    however they are interleaved, restarted from the row and stopped, the row
    only ever moves by applying a request to the state it held (no update is
    lost, no stale projection is published) or by a change of its lifecycle; a
    worker at the row's revision holds exactly the row's state. *)
Theorem workers_refine_serial_session (fingerprint : SessionRequest → string) p0 σ σ' :
  system_init p0 σ → rtc (system_step fingerprint p0) σ σ' →
  rtc (serial_step fingerprint) (row σ) (row σ') ∧
  ∀ i c, workers σ' !! i = Some c → revision c ≤ row_revision (row σ') ∧
    (revision c = row_revision (row σ') →
     row_payload (row σ') = payload_of (projection c) (principal_retirement c)).
Proof.
  intros Hi%system_init_ok Hrun.
  destruct (system_run_ok _ _ _ _ Hi Hrun) as [[_ Hws] Hs]. split; [done|].
  intros i c Hc. destruct (Hws _ _ Hc). by split.
Qed.

(** Exactly once across workers: once a worker's commit of an operation id
    returned a value, in every later state of the system any worker's commit
    under that id leaves the row as it is, and if it returns at all it returns
    the same value, for a request with the same fingerprint. *)
Theorem operation_once_across_workers (fingerprint : SessionRequest → string) p0 σ0 ws rw i c
    env op request s1 v n rw1 σ2 j c2 env2 request2 s2 r2 :
  system_init p0 σ0 → rtc (system_step fingerprint p0) σ0 (mkSystem ws rw) → ws !! i = Some c →
  commit_request fingerprint env op request (mkSession c (Some rw)) = (s1, inr (v, n)) →
  persistence s1 = Some rw1 →
  rtc (system_step fingerprint p0) (mkSystem (<[i:=coordinator s1]> ws) rw1) σ2 →
  workers σ2 !! j = Some c2 →
  commit_request fingerprint env2 op request2 (mkSession c2 (Some (row σ2))) = (s2, r2) →
  persistence s2 = Some (row σ2) ∧
  ∀ v2 n2, r2 = inr (v2, n2) → v2 = v ∧ fingerprint request2 = fingerprint request.
Proof.
  intros Hi%system_init_ok Hrun0 Hc Hcom Hst Hrun Hc2 Hcom2.
  destruct (system_run_ok _ _ _ _ Hi Hrun0) as [[Hfit Hws] _].
  destruct (commit_system fingerprint p0 _ _ _ _ _ _ _ Hfit (Hws _ _ Hc) Hcom)
    as (rw' & Hst' & Hw & Hfit' & Hcase & Hv). simplify_eq.
  destruct (Hv v n eq_refl) as [k Hk].
  assert (system_ok p0 (mkSystem (<[i:=coordinator s1]> ws) rw1)) as Hok1.
  { split; [done|]. simpl. intros j' d Hj.
    apply list_lookup_insert_Some in Hj as [(_ & <- & _)|[_ Hj]]; [done|].
    destruct Hcase as [->|(Hn & _ & pl & entry & ->)]; [by eapply Hws|].
    apply worker_ok_publish; [by eapply Hws|done]. }
  destruct (system_run_ok _ _ _ _ Hok1 Hrun) as [[Hfit2 Hws2] Hser].
  pose proof (serial_keeps_receipts _ _ _ _ _ Hser Hk) as Hk2.
  eapply (commit_with_receipt fingerprint p0); [exact Hfit2|by eapply Hws2|exact Hk2|exact Hcom2].
Qed.

(** ** A run of two workers *)
Definition demo_row : SessionRow := mkRow true false 0 empty_payload [].
Definition demo_system : System := mkSystem [] demo_row.
Definition demo_worker : Coordinator := mkCoordinator demo_projection 0 None [].
Definition demo_after : Session (P:=SessionRow) :=
  (commit_request demo_fingerprint demo_env "place-1" (placement_projection "ORD-9001")
     (mkSession demo_worker (Some demo_row))).1.

Lemma demo_init : system_init demo_projection demo_system.
Proof.
  split; [done|]. exists demo_projection, None. split; [done|]. split; [apply demo_projection_ok|done].
Qed.

Lemma demo_two_workers :
  rtc (system_step demo_fingerprint demo_projection) demo_system
    (mkSystem [demo_worker; demo_worker] demo_row).
Proof.
  eapply rtc_l; [apply (step_reconstruct _ _ [] demo_row demo_worker); by vm_compute|].
  eapply rtc_l; [apply (step_reconstruct _ _ [demo_worker] demo_row demo_worker); by vm_compute|].
  apply rtc_refl.
Qed.

Lemma workers_refine_serial_session_witness : ∃ σ,
  rtc (system_step demo_fingerprint demo_projection) demo_system σ ∧
  row_revision (row σ) = 1 ∧
  rtc (serial_step demo_fingerprint) demo_row (row σ).
Proof.
  set (σ := mkSystem (<[0%nat:=coordinator demo_after]> [demo_worker; demo_worker])
    (default demo_row (persistence demo_after))).
  assert (rtc (system_step demo_fingerprint demo_projection) demo_system σ) as Hrun.
  { etransitivity; [apply demo_two_workers|]. apply rtc_once.
    eapply (step_call _ _ _ _ 0%nat demo_worker demo_env
      (CallCompletePlacement "place-1" "ord-9001")); by vm_compute. }
  exists σ. split; [exact Hrun|]. split; [by vm_compute|].
  exact (proj1 (workers_refine_serial_session demo_fingerprint demo_projection demo_system σ
    demo_init Hrun)).
Defined.

(** The second worker, behind by one revision, repeats the placement: it gets
    the recorded value and the row stays as it is. *)
Lemma operation_once_across_workers_witness : ∃ s2,
  commit_request demo_fingerprint demo_env "place-1" (placement_projection "ORD-9001")
    (mkSession demo_worker (persistence demo_after)) = (s2, inr (EmptySessionOperationResult, 1)) ∧
  persistence s2 = persistence demo_after.
Proof.
  eexists. split; [vm_compute; reflexivity|].
  exact (proj1 (operation_once_across_workers demo_fingerprint demo_projection demo_system
    [demo_worker; demo_worker] demo_row 0%nat demo_worker demo_env "place-1"
    (placement_projection "ORD-9001") demo_after EmptySessionOperationResult 1
    (default demo_row (persistence demo_after))
    (mkSystem (<[0%nat:=coordinator demo_after]> [demo_worker; demo_worker])
      (default demo_row (persistence demo_after)))
    1%nat demo_worker demo_env (placement_projection "ORD-9001") _ _ demo_init demo_two_workers
    eq_refl eq_refl eq_refl (rtc_refl _ _) eq_refl eq_refl)).
Defined.

Definition demo_placed : Session (P:=SessionRow) :=
  (run_call demo_fingerprint demo_env (CallCompletePlacement "place-1" "ord-9001") demo_session).1.

Lemma session_call_atomic_witness :
  revision (coordinator demo_placed) = 1 ∧
  same_scope demo_projection (projection (coordinator demo_placed)) ∧
  run_call demo_fingerprint demo_env (CallFinishRetirement "t-1") demo_session =
    (demo_session, inl (Exc RuntimeError
      "principal retirement completion does not match its marker")).
Proof.
  assert (run_call demo_fingerprint demo_env (CallCompletePlacement "place-1" "ord-9001") demo_session
    = (demo_placed, inr (EmptySessionOperationResult, 1))) as E by (vm_compute; reflexivity).
  destruct (proj1 (proj2 (session_call_atomic demo_fingerprint demo_env
    (CallCompletePlacement "place-1" "ord-9001") demo_session demo_session_ok)) _ _ _ E)
    as (_ & Hrev & Hscope).
  split; [exact Hrev|]. split; [exact Hscope|]. vm_compute. reflexivity.
Defined.

Lemma session_operation_once_witness :
  let s1 := (commit_request demo_fingerprint demo_env "place-1" (placement_projection "ORD-1")
    demo_session).1 in
  commit_request demo_fingerprint demo_env "place-1" (placement_projection "ORD-2") s1 =
    (s1, inl (Exc SessionStateWriteError "operation_conflict")).
Proof.
  cbv zeta.
  refine (session_operation_once demo_fingerprint demo_env demo_env "place-1"
    (placement_projection "ORD-1") (placement_projection "ORD-2") demo_session _ _
    EmptySessionOperationResult 1 demo_session_ok _ (rtc_refl _ _)).
  by vm_compute.
Defined.
