(* ===== verification/Encryption.v ===== *)
(** * Authenticated envelopes (durability/encryption.py)

    The context a payload is sealed in, the associated data built from it, and
    the cipher that seals with the active key and opens with any retained one.
    AES-GCM is the interface [Aead]; the associated data is the dictionary
    whose sorted JSON the code authenticates. *)

From S2P Require Import Prelude PyText Money Receipts Cart OrderScope SessionState.
Local Open Scope Z_scope.
Local Open Scope list_scope.

Definition ENVELOPE_FORMAT : string := "aes_256_gcm_v1".

(** ** Identifiers *)
(** [ConfigIdentifier]: [^[A-Za-z0-9][A-Za-z0-9._-]*$] *)
Definition config_identifier (s : string) : bool :=
  match s with
  | "" => false
  | String c s' => is_alnum c && sforall (λ c, is_alnum c || existsb (Ascii.eqb c) ["."%char; "_"%char; "-"%char]) s'
  end.
(** [^[0-9a-f]{64}$] *)
Definition hex_digit (c : ascii) : bool := is_digit c || between 97 102 c.
Definition hex64 (s : string) : bool := bool_decide (String.length s = 64%nat) && sforall hex_digit s.

(** ** Contexts *)
Inductive SessionPayloadPurpose := session_projection | operation_result.
#[export] Instance SessionPayloadPurpose_eq_dec : EqDecision SessionPayloadPurpose.
Proof. solve_decision. Defined.

Record SessionEnvelopeContext := mkSessionContext {
  sc_tenant_id : string;
  sc_logical_session_id : string;
  sc_checkpoint_namespace : string;
  sc_payload_schema_version : Z;
  sc_payload_purpose : SessionPayloadPurpose;
  sc_session_revision : Z;
  sc_operation_id : option string;
  sc_request_fingerprint : option string }.

(** [SessionEnvelopeContext._validate_purpose] *)
Definition validate_purpose (c : SessionEnvelopeContext) : bool :=
  match sc_payload_purpose c with
  | operation_result => isSome (sc_operation_id c) && isSome (sc_request_fingerprint c)
  | session_projection => negb (isSome (sc_operation_id c) || isSome (sc_request_fingerprint c))
  end.
Definition opt_holds (f : string → bool) (o : option string) : bool := match o with Some s => f s | None => true end.
Definition make_SessionEnvelopeContext (c : SessionEnvelopeContext) : res SessionEnvelopeContext :=
  validated (authority_identifier (sc_tenant_id c) && authority_identifier (sc_logical_session_id c)
             && authority_identifier (sc_checkpoint_namespace c) && (1 <=? sc_payload_schema_version c)
             && (0 <=? sc_session_revision c) && opt_holds authority_identifier (sc_operation_id c)
             && opt_holds hex64 (sc_request_fingerprint c) && validate_purpose c) c.

(** [CheckpointEnvelopeContext] *)
Inductive CheckpointPayloadSurface :=
  | cs_checkpoint | cs_metadata | cs_channel_value | cs_pending_write | cs_pending_write_manifest.
Record CheckpointEnvelopeContext := mkCheckpointContext {
  cc_tenant_id : string;
  cc_logical_session_id : string;
  cc_checkpoint_namespace : string;
  cc_payload_schema_version : Z;
  cc_deployment_id : string;
  cc_graph_contract : string;
  cc_langgraph_checkpoint_namespace : string;
  cc_payload_surface : CheckpointPayloadSurface;
  cc_payload_reference : string }.

Inductive EnvelopeContext :=
  | session_context (c : SessionEnvelopeContext)
  | checkpoint_context (c : CheckpointEnvelopeContext).
Definition context_schema_version (c : EnvelopeContext) : Z :=
  match c with
  | session_context c => sc_payload_schema_version c
  | checkpoint_context c => cc_payload_schema_version c
  end.

(** ** Associated data *)
Inductive json_scalar := js_null | js_int (z : Z) | js_str (s : string).
Definition purpose_text (p : SessionPayloadPurpose) : string :=
  match p with session_projection => "session_projection" | operation_result => "operation_result" end.
Definition surface_text (s : CheckpointPayloadSurface) : string :=
  match s with
  | cs_checkpoint => "checkpoint" | cs_metadata => "metadata" | cs_channel_value => "channel_value"
  | cs_pending_write => "pending_write" | cs_pending_write_manifest => "pending_write_manifest"
  end.
Definition js_opt (o : option string) : json_scalar := match o with Some s => js_str s | None => js_null end.

(** [_associated_data]: the keys in sorted order. *)
Definition associated_data (context : EnvelopeContext) (key_version : string) (payload_schema_version : Z)
    : list (string * json_scalar) :=
  match context with
  | session_context c =>
      [("checkpoint_namespace", js_str (sc_checkpoint_namespace c)); ("envelope_format", js_str ENVELOPE_FORMAT);
       ("key_version", js_str key_version); ("logical_session_id", js_str (sc_logical_session_id c));
       ("operation_id", js_opt (sc_operation_id c)); ("payload_purpose", js_str (purpose_text (sc_payload_purpose c)));
       ("payload_schema_version", js_int payload_schema_version);
       ("request_fingerprint", js_opt (sc_request_fingerprint c));
       ("session_revision", js_int (sc_session_revision c)); ("tenant_id", js_str (sc_tenant_id c))]
  | checkpoint_context c =>
      [("checkpoint_namespace", js_str (cc_checkpoint_namespace c)); ("deployment_id", js_str (cc_deployment_id c));
       ("envelope_format", js_str ENVELOPE_FORMAT); ("graph_contract", js_str (cc_graph_contract c));
       ("key_version", js_str key_version);
       ("langgraph_checkpoint_namespace", js_str (cc_langgraph_checkpoint_namespace c));
       ("logical_session_id", js_str (cc_logical_session_id c));
       ("payload_reference", js_str (cc_payload_reference c));
       ("payload_schema_version", js_int payload_schema_version);
       ("payload_surface", js_str (surface_text (cc_payload_surface c))); ("tenant_id", js_str (cc_tenant_id c))]
  end.

(** ** The cipher *)
(** [AESGCM(key).encrypt] and [.decrypt]; [None] is [InvalidTag]. *)
Class Aead (K C : Type) := {
  aead_seal : K → string → string → list (string * json_scalar) → C;
  aead_open : K → string → C → list (string * json_scalar) → option string }.
(** What is sealed opens with the same key, nonce and associated data, and with no other
    associated data. *)
Class AeadLaws (K C : Type) `{Aead K C} := {
  aead_open_seal k n p a : aead_open k n (aead_seal k n p a) a = Some p;
  aead_authentic k n p a a' p' : aead_open k n (aead_seal k n p a) a' = Some p' → a' = a }.

Record SessionEnvelope (C : Type) := mkEnvelope {
  se_key_version : string;
  se_payload_schema_version : Z;
  se_nonce : string;
  se_ciphertext : C }.
Arguments mkEnvelope {C}.
Arguments se_key_version {C}.
Arguments se_payload_schema_version {C}.
Arguments se_nonce {C}.
Arguments se_ciphertext {C}.

Record AesGcmSessionCipher (K : Type) := mkCipher { active_key_version : string; keys : list (string * K) }.
Arguments mkCipher {K}.
Arguments active_key_version {K}.
Arguments keys {K}.

(** [AesGcmSessionCipher.__post_init__] *)
Definition make_cipher {K} (c : AesGcmSessionCipher K) : res (AesGcmSessionCipher K) :=
  requires (config_identifier (active_key_version c)) ValidationError "" ;;
  requires (dmem (active_key_version c) (keys c)) ValueError "active key version is unavailable" ;;
  requires (forallb config_identifier (dkeys (keys c))) ValidationError "" ;;
  inr c.

Section cipher.
Context {K C : Type} `{Aead K C}.
Implicit Types (cipher : AesGcmSessionCipher K) (context : EnvelopeContext).

(** [AesGcmSessionCipher.encrypt]; the nonce is drawn by the caller's environment. *)
Definition encrypt cipher (nonce plaintext : string) context : res (SessionEnvelope C) :=
  requires (nonempty plaintext) ValueError "session plaintext must be non-empty bytes" ;;
  match dget (active_key_version cipher) (keys cipher) with
  | None => raises KeyError ""
  | Some key =>
      let schema := context_schema_version context in
      inr (mkEnvelope (active_key_version cipher) schema nonce
             (aead_seal key nonce plaintext (associated_data context (active_key_version cipher) schema)))
  end.

(** [AesGcmSessionCipher.decrypt] *)
Definition decrypt cipher (envelope : SessionEnvelope C) context : res string :=
  match dget (se_key_version envelope) (keys cipher) with
  | None => raises SessionEnvelopeError "session envelope key version is unavailable"
  | Some key =>
      requires (se_payload_schema_version envelope =? context_schema_version context) SessionEnvelopeError
        "session envelope could not be authenticated" ;;
      match aead_open key (se_nonce envelope) (se_ciphertext envelope)
              (associated_data context (se_key_version envelope) (se_payload_schema_version envelope)) with
      | Some plaintext => inr plaintext
      | None => raises SessionEnvelopeError "session envelope could not be authenticated"
      end
  end.

(** ** Laws *)
(** The associated data determine the context. *)
Lemma associated_data_inj c1 c2 k1 k2 n1 n2 :
  n1 = context_schema_version c1 → n2 = context_schema_version c2 →
  associated_data c1 k1 n1 = associated_data c2 k2 n2 → c1 = c2 ∧ k1 = k2.
Proof.
  intros -> -> Heq.
  destruct c1 as [[? ? ? ? p1 ? o1 f1]|[? ? ? ? ? ? ? s1 ?]], c2 as [[? ? ? ? p2 ? o2 f2]|[? ? ? ? ? ? ? s2 ?]];
    cbn [associated_data context_schema_version sc_tenant_id sc_logical_session_id sc_checkpoint_namespace
      sc_payload_schema_version sc_payload_purpose sc_session_revision sc_operation_id sc_request_fingerprint
      cc_tenant_id cc_logical_session_id cc_checkpoint_namespace cc_payload_schema_version cc_deployment_id
      cc_graph_contract cc_langgraph_checkpoint_namespace cc_payload_surface cc_payload_reference] in Heq;
    try discriminate.
  - assert (∀ a b, js_opt a = js_opt b → a = b) as Hopt by (intros [] []; cbn; congruence).
    assert (∀ a b, purpose_text a = purpose_text b → a = b) as Hp by (intros [] []; cbn; congruence).
    injection Heq. intros. split; [f_equal; f_equal|]; auto.
  - assert (∀ a b, surface_text a = surface_text b → a = b) as Hs by (intros [] []; cbn; congruence).
    injection Heq. intros. split; [f_equal; f_equal|]; auto.
Qed.

Context `{!AeadLaws K C}.

(** A sealed payload opens under every cipher that retains its key: after a key rotation too. *)
Lemma decrypt_encrypt cipher cipher' nonce p context e key :
  encrypt cipher nonce p context = inr e →
  dget (active_key_version cipher) (keys cipher) = Some key →
  dget (active_key_version cipher) (keys cipher') = Some key →
  decrypt cipher' e context = inr p.
Proof.
  unfold encrypt, decrypt. intros Henc Hk Hk'. rewrite Hk in Henc. munfold. destruct (nonempty p); simplify_eq/=.
  rewrite Hk', Z.eqb_refl. by rewrite aead_open_seal.
Qed.

(** It opens in no other context. *)
Lemma decrypt_bound cipher cipher' nonce p context context' e key p' :
  encrypt cipher nonce p context = inr e →
  dget (active_key_version cipher) (keys cipher) = Some key →
  dget (active_key_version cipher) (keys cipher') = Some key →
  decrypt cipher' e context' = inr p' → context' = context ∧ p' = p.
Proof.
  unfold encrypt, decrypt. intros Henc Hk Hk' Hdec. rewrite Hk in Henc. munfold. destruct (nonempty p); simplify_eq/=.
  rewrite Hk' in Hdec. destruct (_ =? _) eqn:Hs; [|done]. apply Z.eqb_eq in Hs. cbn in Hdec.
  destruct (aead_open _ _ _ _) as [p0|] eqn:Ho; simplify_eq.
  pose proof (aead_authentic _ _ _ _ _ _ Ho) as Ha.
  destruct (associated_data_inj context' context _ _ _ _ Hs eq_refl Ha) as [-> _].
  split; [done|]. rewrite aead_open_seal in Ho. congruence.
Qed.
End cipher.

(** ** A reference cipher: the sealed text keeps what it is bound to *)
Definition sealed_text : Type := string * string * string * list (string * json_scalar).
#[export] Instance json_scalar_eq_dec : EqDecision json_scalar.
Proof. solve_decision. Defined.
#[export] Instance reference_aead : Aead string sealed_text := {|
  aead_seal k n p a := (k, n, p, a);
  aead_open k n c a :=
    match c with (k', n', p, a') => if decide (k' = k ∧ n' = n ∧ a' = a) then Some p else None end |}.
#[export] Instance reference_aead_laws : AeadLaws string sealed_text.
Proof.
  split.
  - intros. cbn. by rewrite decide_True.
  - intros k n p a a' p' Ho. cbn in Ho. destruct (decide (k = k ∧ n = n ∧ a = a')) as [(_ & _ & ->)|]; [done|discriminate].
Qed.
