(* ===== verification/Registry.v ===== *)
(** * The session registry (durability/session_registry.py, durability/migrations.py, durability/postgres_checkpoints.py)

    The authority over durable sessions: one row per session with its lease,
    its fence and its encrypted payload, the checkpoint generations of the
    session and the receipts of its operations.  A method of the registry is
    one transaction on the database; the statements it runs are updates of the
    rows their WHERE clauses select, checked against the constraints the
    migrations declare.  An error rolls the transaction back.

    The rows of the child tables are kept with the session they reference
    (their foreign keys cascade), and the three tables of the checkpoint
    library are the thread ids of their rows. *)

From stdpp Require Import gmap.
From Stdlib Require Import QArith_base.
From S2P Require Import Prelude PyText Money Receipts Cart OrderScope SessionState Encryption.
Local Open Scope Z_scope.
Local Open Scope list_scope.

(** ** Data *)
Inductive SessionLifecycle := OPENING | ACTIVE | CLOSING | CLOSED.
#[export] Instance SessionLifecycle_eq_dec : EqDecision SessionLifecycle.
Proof. solve_decision. Defined.

(** The provider of a transport is always LiveKit. *)
Record TransportAuthority := mkTransport { tr_room_id : string; tr_assignment_id : string; tr_worker_id : string }.
#[export] Instance TransportAuthority_eq_dec : EqDecision TransportAuthority.
Proof. solve_decision. Defined.
Record AdmittedSessionAuthority := mkAdmitted { aa_logical_session_id : string; aa_transport : TransportAuthority }.
#[export] Instance AdmittedSessionAuthority_eq_dec : EqDecision AdmittedSessionAuthority.
Proof. solve_decision. Defined.

Record SessionContract := mkContract {
  ct_tenant_id : string;
  ct_authority : AdmittedSessionAuthority;
  ct_deployment_id : string;
  ct_graph_contract : string;
  ct_config_version : string }.
#[export] Instance SessionContract_eq_dec : EqDecision SessionContract.
Proof. solve_decision. Defined.
Definition ct_session (c : SessionContract) : string := aa_logical_session_id (ct_authority c).

(** Seconds as the code receives them: a float, [None] when it is not finite. *)
Abbreviation seconds := (option Q).

Record SessionRegistration := mkRegistration {
  rg_contract : SessionContract;
  rg_principal_generation : Z;
  rg_session_revision : Z;
  rg_retention_seconds : seconds }.
Record SessionLeaseRequest := mkLeaseRequest { lr_lease_owner_id : string; lr_duration_seconds : seconds }.
Record SessionLeaseAuthority := mkLease {
  la_contract : SessionContract; la_lease_owner_id : string; la_fencing_generation : Z }.
Record SessionLeaseRenewal := mkRenewal { ln_authority : SessionLeaseAuthority; ln_duration_seconds : seconds }.
Record SessionCloseRequest := mkCloseRequest {
  cr_operation_id : string; cr_lease_owner_id : string; cr_duration_seconds : seconds }.
Record SessionCloseAuthority := mkClose {
  ca_contract : SessionContract; ca_operation_id : string; ca_lease_owner_id : string; ca_fencing_generation : Z }.
Record SessionStatePublication := mkPublication {
  pu_lease : SessionLeaseAuthority;
  pu_expected_revision : Z;
  pu_operation_id : string;
  pu_request_fingerprint : string;
  pu_payload : DurableSessionPayload;
  pu_operation_result : SessionOperationResult }.

(** The validators of the request models. *)
Definition transport_valid (t : TransportAuthority) : bool :=
  authority_identifier (tr_room_id t) && authority_identifier (tr_assignment_id t) && authority_identifier (tr_worker_id t).
Definition contract_valid (c : SessionContract) : bool :=
  authority_identifier (ct_tenant_id c) && authority_identifier (ct_session c) && transport_valid (aa_transport (ct_authority c))
  && authority_identifier (ct_deployment_id c) && authority_identifier (ct_graph_contract c)
  && authority_identifier (ct_config_version c).
Definition close_request_valid (r : SessionCloseRequest) : bool :=
  authority_identifier (cr_operation_id r) && authority_identifier (cr_lease_owner_id r).

Record SessionRecord (C : Type) := mkRecord {
  sr_contract : SessionContract;
  sr_lifecycle : SessionLifecycle;
  sr_checkpoint_namespace : string;
  sr_principal_generation : Z;
  sr_session_revision : Z;
  sr_fencing_generation : Z;
  sr_lease_owner_id : option string;
  sr_lease_expires_at : option Z;
  sr_close_operation_id : option string;
  sr_expires_at : Z;
  sr_envelope : option (SessionEnvelope C);
  sr_created_at : Z;
  sr_updated_at : Z }.
Arguments mkRecord {C}.
Arguments sr_contract {C}.
Arguments sr_lifecycle {C}.
Arguments sr_checkpoint_namespace {C}.
Arguments sr_principal_generation {C}.
Arguments sr_session_revision {C}.
Arguments sr_fencing_generation {C}.
Arguments sr_lease_owner_id {C}.
Arguments sr_lease_expires_at {C}.
Arguments sr_close_operation_id {C}.
Arguments sr_expires_at {C}.
Arguments sr_envelope {C}.
Arguments sr_created_at {C}.
Arguments sr_updated_at {C}.

Inductive GenerationState := gs_pending | gs_current | gs_retired | gs_deleted.
#[export] Instance GenerationState_eq_dec : EqDecision GenerationState.
Proof. solve_decision. Defined.

(** A row of [platform_checkpoint_generations]. *)
Record GenerationRow := mkGeneration {
  gr_checkpoint_namespace : string;
  gr_storage_thread_id : string;
  gr_fencing_generation : Z;
  gr_principal_generation : Z;
  gr_state : GenerationState;
  gr_transition_id : option string;
  gr_source_revision : option Z }.
#[export] Instance GenerationRow_eq_dec : EqDecision GenerationRow.
Proof. solve_decision. Defined.
(** [CheckpointGeneration]: the row with the scope of its session. *)
Record CheckpointGeneration := mkCheckpointGeneration {
  cg_tenant_id : string;
  cg_logical_session_id : string;
  cg_deployment_id : string;
  cg_graph_contract : string;
  cg_row : GenerationRow }.
#[export] Instance CheckpointGeneration_eq_dec : EqDecision CheckpointGeneration.
Proof. solve_decision. Defined.

(** A row of [platform_session_operations]. *)
Record OperationRow (C : Type) := mkOperation {
  or_operation_id : string;
  or_request_fingerprint : string;
  or_committed_revision : Z;
  or_committed_checkpoint_namespace : string;
  or_result_envelope : SessionEnvelope C }.
Arguments mkOperation {C}.
Arguments or_operation_id {C}.
Arguments or_request_fingerprint {C}.
Arguments or_committed_revision {C}.
Arguments or_committed_checkpoint_namespace {C}.
Arguments or_result_envelope {C}.

(** A session with its generations, its receipts and the manifests of its pending writes,
    each with the namespace of its generation. *)
Record Entry (C : Type) := mkEntry {
  en_row : SessionRecord C;
  en_generations : list GenerationRow;
  en_operations : list (OperationRow C);
  en_manifests : list (string * string) }.
Arguments mkEntry {C}.
Arguments en_row {C}.
Arguments en_generations {C}.
Arguments en_operations {C}.
Arguments en_manifests {C}.

Record Database (C : Type) := mkDatabase {
  db_sessions : gmap (string * string) (Entry C);
  db_checkpoints : list string }.
Arguments mkDatabase {C}.
Arguments db_sessions {C}.
Arguments db_checkpoints {C}.

(** ** What one transaction observes *)
(** Where the connection is lost, if it is: before the commit, or after it. *)
Inductive Fault := no_fault | lost_before_commit | lost_after_commit.
Record tx_env := mkTx {
  (** [clock_timestamp()] when the row is locked, when it is written, when the row a default
      fills in is created, and when a rejected write looks again *)
  tx_locked : Z; tx_written : Z; tx_created : Z; tx_rechecked : Z;
  tx_nonce : string; tx_result_nonce : string;
  tx_fault : Fault }.

(** ** Durations *)
Definition timedelta_max : Z := 1000000000 * 86400 * 1000000 - 1.
(** [timedelta(seconds=...)]: microseconds, rounded half to even. *)
Definition timedelta_us (q : Q) : Z :=
  let n := Qnum q * 1000000 in
  let d := Z.pos (Qden q) in
  let t := n / d in
  let r := n mod d in
  if 2 * r <? d then t else if d <? 2 * r then t + 1 else if Z.even t then t else t + 1.
Definition lease_duration (s : seconds) : res Z :=
  match s with
  | None => raises SessionRegistryDataError "lease duration must be positive and finite"
  | Some q =>
      requires (0 <? Qnum q) SessionRegistryDataError "lease duration must be positive and finite" ;;
      let us := timedelta_us q in
      requires (us <=? timedelta_max) SessionRegistryDataError "lease duration is outside the supported range" ;;
      inr us
  end.

(** ** Namespaces *)
Definition checkpoint_namespace (session : string) (fence : Z) : string :=
  session +:+ "::fence::" +:+ str_int fence.
Definition principal_namespace (session : string) (fence principal : Z) : string :=
  checkpoint_namespace session fence +:+ "::principal::" +:+ str_int principal.
Definition checkpoint_namespace_matches (namespace session : string) (fence principal : Z) : bool :=
  String.eqb namespace (checkpoint_namespace session fence)
  || String.eqb namespace (principal_namespace session fence principal).

(** ** Payloads *)
(** The pydantic models of the two payloads and their JSON. *)
Record SessionOperationReceiptPayload := mkReceipt {
  rp_operation_id : string; rp_request_fingerprint : string; rp_result : SessionOperationResult }.
Definition make_receipt (r : SessionOperationReceiptPayload) : res SessionOperationReceiptPayload :=
  validated (authority_identifier (rp_operation_id r) && hex64 (rp_request_fingerprint r)) r.
Class PayloadCodec := {
  payload_to_bytes : DurableSessionPayload → string;
  payload_from_bytes : string → res DurableSessionPayload;
  receipt_to_bytes : SessionOperationReceiptPayload → string;
  receipt_from_bytes : string → res SessionOperationReceiptPayload }.
Definition payload_valid (p : DurableSessionPayload) : bool := is_ok (guest_order_refs_are_canonical (dp_guest_order_refs p)).
Class PayloadCodecLaws `{PayloadCodec} := {
  payload_round_trip p : payload_valid p = true → payload_from_bytes (payload_to_bytes p) = inr p;
  payload_bytes_nonempty p : nonempty (payload_to_bytes p) = true;
  receipt_round_trip r : is_ok (make_receipt r) = true → receipt_from_bytes (receipt_to_bytes r) = inr r;
  receipt_bytes_nonempty r : nonempty (receipt_to_bytes r) = true }.

Definition SESSION_PAYLOAD_SCHEMA_VERSION : Z := 2.
Definition SESSION_OPERATION_RESULT_SCHEMA_VERSION : Z := 2.

(** ** Constraints of the schema *)
(** [x = btrim(x) AND x <> ''] *)
Definition sql_text (s : string) : bool := nonempty s && negb (starts_with " " s) && negb (ends_with " " s).
Definition opt_text (o : option string) : bool := opt_holds sql_text o.
Definition eq_lifecycle (r l : SessionLifecycle) : bool := bool_decide (r = l).

(** The CHECK constraints of [platform_sessions] at schema version 8. *)
Definition session_checks {C} (r : SessionRecord C) : bool :=
  let c := sr_contract r in
  let closed := eq_lifecycle (sr_lifecycle r) CLOSED in
  let closing := eq_lifecycle (sr_lifecycle r) CLOSING in
  sql_text (ct_tenant_id c) && sql_text (ct_session c) && sql_text (sr_checkpoint_namespace r)
  && sql_text (ct_deployment_id c) && sql_text (ct_graph_contract c) && sql_text (ct_config_version c)
  && sql_text (tr_room_id (aa_transport (ct_authority c))) && sql_text (tr_assignment_id (aa_transport (ct_authority c)))
  && sql_text (tr_worker_id (aa_transport (ct_authority c)))
  && (0 <=? sr_principal_generation r) && (0 <=? sr_session_revision r) && (0 <=? sr_fencing_generation r)
  && Bool.eqb (isSome (sr_lease_owner_id r)) (isSome (sr_lease_expires_at r))
  && opt_text (sr_lease_owner_id r)
  && (sr_created_at r <? sr_expires_at r) && (sr_created_at r <=? sr_updated_at r)
  && Bool.eqb closed (negb (isSome (sr_envelope r)))
  && Bool.eqb closed (negb (isSome (sr_lease_owner_id r)))
  && (closed || (0 <? sr_fencing_generation r))
  && (closing || closed
      || checkpoint_namespace_matches (sr_checkpoint_namespace r) (ct_session c) (sr_fencing_generation r)
           (sr_principal_generation r))
  && match sr_lease_expires_at r with
     | None => true
     | Some t => (sr_created_at r <? t) && (closing || (t <=? sr_expires_at r))
     end
  && opt_text (sr_close_operation_id r)
  && match sr_envelope r with Some e => se_payload_schema_version e =? 2 | None => true end.

(** The CHECK constraints of [platform_checkpoint_generations]. *)
Definition storage_thread_format (s : string) : bool :=
  starts_with "cp_" s && hex64 (String.substring 3 (String.length s - 3) s).
Definition generation_checks (g : GenerationRow) : bool :=
  sql_text (gr_checkpoint_namespace g) && (0 <=? gr_fencing_generation g) && (0 <=? gr_principal_generation g)
  && opt_text (gr_transition_id g) && match gr_source_revision g with Some n => 0 <=? n | None => true end
  && Bool.eqb (isSome (gr_transition_id g)) (isSome (gr_source_revision g))
  && (negb (bool_decide (gr_state g = gs_pending)) || isSome (gr_transition_id g))
  && storage_thread_format (gr_storage_thread_id g).
(** Its keys within one session: the namespace, the two generation numbers, the transition,
    and the partial indexes over the current and the pending generation. *)
Definition in_state (s : GenerationState) (g : GenerationRow) : bool := bool_decide (gr_state g = s).
Definition count_state (s : GenerationState) (l : list GenerationRow) : nat := length (List.filter (in_state s) l).
Definition generation_keys (l : list GenerationRow) : bool :=
  bool_decide (NoDup (gr_checkpoint_namespace <$> l))
  && bool_decide (NoDup ((λ g, (gr_fencing_generation g, gr_principal_generation g)) <$> l))
  && bool_decide (NoDup (omap gr_transition_id l))
  && (count_state gs_current l <=? 1)%nat && (count_state gs_pending l <=? 1)%nat.
(** [storage_thread_id] is unique across the table. *)
Definition storage_ids {C} (db : Database C) : list string :=
  '(_, e) ← map_to_list (db_sessions db); gr_storage_thread_id <$> en_generations e.

(** The constraints of [platform_session_operations]. *)
Definition operation_checks {C} (o : OperationRow C) : bool :=
  sql_text (or_operation_id o) && hex64 (or_request_fingerprint o) && (0 <? or_committed_revision o)
  && sql_text (or_committed_checkpoint_namespace o) && (se_payload_schema_version (or_result_envelope o) =? 2).
Definition operation_keys {C} (l : list (OperationRow C)) : bool :=
  bool_decide (NoDup (or_operation_id <$> l)) && bool_decide (NoDup (or_committed_revision <$> l)).

(** ** The executable domain schema *)
(** [SessionRegistryRecord._validate_state] and the field types. *)
Definition record_valid {C} (r : SessionRecord C) : bool :=
  let closed := eq_lifecycle (sr_lifecycle r) CLOSED in
  let closing := eq_lifecycle (sr_lifecycle r) CLOSING in
  contract_valid (sr_contract r) && authority_identifier (sr_checkpoint_namespace r)
  && (0 <=? sr_principal_generation r) && (0 <=? sr_session_revision r) && (0 <=? sr_fencing_generation r)
  && opt_holds authority_identifier (sr_lease_owner_id r) && opt_holds authority_identifier (sr_close_operation_id r)
  && Bool.eqb (isSome (sr_lease_owner_id r)) (isSome (sr_lease_expires_at r))
  && negb (closed && isSome (sr_envelope r)) && negb (closed && isSome (sr_lease_owner_id r))
  && negb (negb closed && negb (isSome (sr_envelope r))) && negb (negb closed && negb (isSome (sr_lease_owner_id r)))
  && negb (negb closed && (sr_fencing_generation r <? 1))
  && (if closing then isSome (sr_close_operation_id r) else closed || negb (isSome (sr_close_operation_id r)))
  && (closing || closed
      || checkpoint_namespace_matches (sr_checkpoint_namespace r) (ct_session (sr_contract r)) (sr_fencing_generation r)
           (sr_principal_generation r))
  && match sr_lease_expires_at r with
     | None => true
     | Some t => negb (t <=? sr_created_at r) && (closing || closed || (t <=? sr_expires_at r))
     end
  && negb (sr_updated_at r <? sr_created_at r).
(** [_record_from_row] *)
Definition record_from_row {C} (r : SessionRecord C) : res (SessionRecord C) :=
  requires (record_valid r) SessionRegistryDataError "stored session registry row is invalid" ;; inr r.

(** ** Authority *)
(** [_lease_authority_rejection] *)
Definition lease_live {C} (r : SessionRecord C) (now : Z) : bool :=
  match sr_lease_expires_at r with Some t => now <? t | None => false end.
Definition is_owner {C} (r : SessionRecord C) (owner : string) : bool := bool_decide (sr_lease_owner_id r = Some owner).
Definition lease_authority_rejection {C} (r : SessionRecord C) (a : SessionLeaseAuthority) (now : Z) : option string :=
  let c := sr_contract r in
  let ac := la_contract a in
  if sr_expires_at r <=? now then Some "session_expired"
  else if negb (bool_decide (sr_lifecycle r ∈ [OPENING; ACTIVE])) then Some "lifecycle_rejected"
  else if negb (String.eqb (ct_deployment_id c) (ct_deployment_id ac)) then Some "wrong_deployment"
  else if negb (String.eqb (ct_graph_contract c) (ct_graph_contract ac)) then Some "wrong_graph_contract"
  else if negb (String.eqb (ct_config_version c) (ct_config_version ac)) then Some "stale_config"
  else if negb (bool_decide (ct_authority c = ct_authority ac)) then Some "wrong_transport"
  else if negb (lease_live r now) then Some "lease_expired"
  else if negb (is_owner r (la_lease_owner_id a)) then Some "wrong_lease_owner"
  else if negb (sr_fencing_generation r =? la_fencing_generation a) then Some "stale_fence"
  else None.

(** [_close_authority_rejection] *)
Definition close_authority_rejection {C} (r : SessionRecord C) (a : SessionCloseAuthority) (now : Z) : option string :=
  let c := sr_contract r in
  let ac := ca_contract a in
  if negb (eq_lifecycle (sr_lifecycle r) CLOSING) then Some "not_eligible"
  else if negb (String.eqb (ct_tenant_id c) (ct_tenant_id ac)) || negb (bool_decide (ct_authority c = ct_authority ac))
  then Some "wrong_close_owner"
  else if negb (String.eqb (ct_deployment_id c) (ct_deployment_id ac))
       || negb (String.eqb (ct_graph_contract c) (ct_graph_contract ac))
       || negb (String.eqb (ct_config_version c) (ct_config_version ac))
       || negb (is_owner r (ca_lease_owner_id a))
       || negb (bool_decide (sr_close_operation_id r = Some (ca_operation_id a)))
  then Some "wrong_close_owner"
  else if negb (sr_fencing_generation r =? ca_fencing_generation a) then Some "stale_fence"
  else if negb (lease_live r now) then Some "not_eligible"
  else None.

(** ** Statements *)
Section registry.
Context {K C : Type} `{Aead K C} `{PayloadCodec}.
Context (digest : list (string * json_scalar) → string) (cipher : AesGcmSessionCipher K).
Notation Row := (SessionRecord C).
Notation DB := (Database C).
Implicit Types (r : Row) (db : DB) (env : tx_env).

(** [CheckpointBinding.storage_thread_id]: the fingerprint of the generation's scope. *)
Definition storage_thread_id (c : SessionContract) (thread_id : string) : string :=
  "cp_" +:+ digest [("namespace", js_str ("ns_" +:+ digest [("deployment_id", js_str (ct_deployment_id c));
                                                              ("graph_contract", js_str (ct_graph_contract c));
                                                              ("tenant_id", js_str (ct_tenant_id c))]));
                    ("thread_id", js_str thread_id)].

Definition key_of (c : SessionContract) : string * string := (ct_tenant_id c, ct_session c).
Definition session_of db (k : string * string) : option (Entry C) := db_sessions db !! k.
Definition set_entry (k : string * string) (e : Entry C) db : DB :=
  mkDatabase (<[k := e]> (db_sessions db)) (db_checkpoints db).
Definition with_row (f : Row → Row) (e : Entry C) : Entry C :=
  mkEntry (f (en_row e)) (en_generations e) (en_operations e) (en_manifests e).
Definition with_generations (l : list GenerationRow) (e : Entry C) : Entry C :=
  mkEntry (en_row e) l (en_operations e) (en_manifests e).

(** UNIQUE (tenant_id, checkpoint_namespace) of [platform_sessions]. *)
Definition namespace_free db (k : string * string) (namespace : string) : bool :=
  forallb (λ '(k', e), negb (String.eqb k'.1 k.1) || bool_decide (k' = k)
                       || negb (String.eqb (sr_checkpoint_namespace (en_row e)) namespace))
    (map_to_list (db_sessions db)).

(** [UPDATE platform_sessions SET ... WHERE key AND condition RETURNING ...] *)
Definition update_session (k : string * string) (condition : Row → bool) (f : Row → Row) : M DB (option Row) :=
  db ← get;
  match session_of db k with
  | Some e =>
      if condition (en_row e) then
        let r := f (en_row e) in
        require (session_checks r) PsycopgError "check constraint" ;;
        require (namespace_free db k (sr_checkpoint_namespace r)) UniqueViolation "" ;;
        put (set_entry k (with_row f e) db) ;;
        mret (Some r)
      else mret None
  | None => mret None
  end.

(** The statements on [platform_checkpoint_generations]. *)
Definition insert_generation (k : string * string) (g : GenerationRow) : M DB unit :=
  db ← get;
  match session_of db k with
  | Some e =>
      let l := en_generations e ++ [g] in
      require (generation_checks g) PsycopgError "check constraint" ;;
      require (generation_keys l && negb (bool_decide (gr_storage_thread_id g ∈ storage_ids db))) UniqueViolation "" ;;
      put (set_entry k (with_generations l e) db)
  | None => raise PsycopgError "foreign key"
  end.
Definition set_state (s : GenerationState) (g : GenerationRow) : GenerationRow :=
  mkGeneration (gr_checkpoint_namespace g) (gr_storage_thread_id g) (gr_fencing_generation g) (gr_principal_generation g)
    s (gr_transition_id g) (gr_source_revision g).
(** The rows the statement selects, in its new state, and how many they are. *)
Definition update_generations (k : string * string) (select : GenerationRow → bool) (s : GenerationState) : M DB nat :=
  db ← get;
  match session_of db k with
  | Some e =>
      let l := (λ g, if select g then set_state s g else g) <$> en_generations e in
      require (forallb generation_checks l) PsycopgError "check constraint" ;;
      require (generation_keys l) UniqueViolation "" ;;
      put (set_entry k (with_generations l e) db) ;;
      mret (length (List.filter select (en_generations e)))
  | None => mret 0%nat
  end.

(** [INSERT INTO platform_session_operations] *)
Definition insert_operation (k : string * string) (o : OperationRow C) : M DB unit :=
  db ← get;
  match session_of db k with
  | Some e =>
      require (operation_checks o) PsycopgError "check constraint" ;;
      require (operation_keys (en_operations e ++ [o])) UniqueViolation "" ;;
      put (set_entry k (mkEntry (en_row e) (en_generations e) (en_operations e ++ [o]) (en_manifests e)) db)
  | None => raise PsycopgError "foreign key"
  end.

(** ** Transactions *)
Definition transaction {A} (m : M DB A) : M DB A := λ db,
  match m db with
  | (db', inr a) => (db', inr a)
  | (_, inl e) => (db, inl e)
  end.
(** The commit and its acknowledgement. *)
Definition committed {A} env (m : M DB A) : M DB A := λ db,
  match tx_fault env with
  | no_fault => transaction m db
  | lost_before_commit => (db, inl (Exc TimeoutError ""))
  | lost_after_commit =>
      match transaction m db with
      | (db', inr _) => (db', inl (Exc TimeoutError ""))
      | (db', inl e) => (db', inl e)
      end
  end.
(** [except PsycopgError: raise SessionRegistryError]; a unique violation is one. *)
Definition is_psycopg (e : exc) : bool := bool_decide (exc_cls e = PsycopgError ∨ exc_cls e = UniqueViolation).
Definition is_value_error (e : exc) : bool := bool_decide (exc_cls e = ValueError ∨ exc_cls e = ValidationError).
Definition translating {A} (f : exc → exc) (m : M DB A) : M DB A := λ db,
  match m db with
  | (db', inr a) => (db', inr a)
  | (db', inl e) => (db', inl (f e))
  end.
Definition registry_failure (message : string) (e : exc) : exc :=
  if is_psycopg e then Exc SessionRegistryError message else e.
Definition invalid_as (message : string) (e : exc) : exc :=
  if is_value_error e then Exc SessionRegistryDataError message else e.

(** ** Reading under the lock *)
(** [_locked_session] *)
Definition locked_session (k : string * string) : M DB Row :=
  db ← get;
  match session_of db k with
  | None => raise LeaseAdmissionError "session_not_found"
  | Some e => lift (record_from_row (en_row e))
  end.
(** [_locked_record] *)
Definition locked_record env (a : SessionLeaseAuthority) : M DB Row :=
  record ← locked_session (key_of (la_contract a));
  match lease_authority_rejection record a (tx_locked env) with
  | Some reason => raise LeaseAdmissionError reason
  | None => mret record
  end.
(** [_locked_close_record] *)
Definition locked_close_record env (a : SessionCloseAuthority) : M DB Row :=
  record ← locked_session (key_of (ca_contract a));
  match close_authority_rejection record a (tx_locked env) with
  | Some reason => raise SessionCloseError reason
  | None => mret record
  end.

(** The model of a row, [storage_authority_matches_binding]. *)
Definition make_generation (c : SessionContract) (g : GenerationRow) : res CheckpointGeneration :=
  requires (authority_identifier (gr_checkpoint_namespace g) && authority_identifier (gr_storage_thread_id g)
            && (0 <=? gr_fencing_generation g) && (0 <=? gr_principal_generation g)
            && opt_holds authority_identifier (gr_transition_id g)
            && match gr_source_revision g with Some n => 0 <=? n | None => true end) ValidationError "" ;;
  requires (String.eqb (gr_storage_thread_id g) (storage_thread_id c (gr_checkpoint_namespace g))) ValidationError
    "checkpoint storage authority does not match its binding" ;;
  inr (mkCheckpointGeneration (ct_tenant_id c) (ct_session c) (ct_deployment_id c) (ct_graph_contract c) g).

(** [ORDER BY fencing_generation, principal_generation] *)
Definition generation_le (a b : GenerationRow) : bool :=
  (gr_fencing_generation a <? gr_fencing_generation b)
  || ((gr_fencing_generation a =? gr_fencing_generation b) && (gr_principal_generation a <=? gr_principal_generation b)).
Fixpoint insert_ordered (g : GenerationRow) (l : list GenerationRow) : list GenerationRow :=
  match l with
  | [] => [g]
  | x :: l' => if generation_le g x then g :: l else x :: insert_ordered g l'
  end.
Definition ordered (l : list GenerationRow) : list GenerationRow := foldr insert_ordered [] l.
Definition cg_in_state (s : GenerationState) (g : CheckpointGeneration) : bool := in_state s (cg_row g).

Definition generation_rows (k : string * string) : M DB (list GenerationRow) :=
  db ← get; mret (match session_of db k with Some e => en_generations e | None => [] end).
(** [_checkpoint_generations] *)
Definition checkpoint_generations_of (record : Row) (require_current : bool) : M DB (list CheckpointGeneration) :=
  rows ← generation_rows (key_of (sr_contract record));
  generations ← lift (mapM (make_generation (sr_contract record)) (ordered rows));
  let current := List.filter (cg_in_state gs_current) generations in
  require (negb require_current
           || match current with
              | [g] => String.eqb (gr_checkpoint_namespace (cg_row g)) (sr_checkpoint_namespace record)
                       && (gr_fencing_generation (cg_row g) =? sr_fencing_generation record)
                       && (gr_principal_generation (cg_row g) =? sr_principal_generation record)
              | _ => false
              end) SessionRegistryDataError "checkpoint inventory does not match the current session" ;;
  mret generations.

(** [_rotation_members] *)
Definition rotation_members (generations : list CheckpointGeneration) (transition_id : string)
    : res (option (CheckpointGeneration * CheckpointGeneration)) :=
  match List.find (λ g, bool_decide (gr_transition_id (cg_row g) = Some transition_id)) generations with
  | None => inr None
  | Some destination =>
      let sources := List.filter (λ g,
        (gr_fencing_generation (cg_row g) =? gr_fencing_generation (cg_row destination))
        && (gr_principal_generation (cg_row g) =? gr_principal_generation (cg_row destination) - 1)) generations in
      match sources, gr_source_revision (cg_row destination) with
      | [source], Some _ => inr (Some (source, destination))
      | _, _ => raises SessionRegistryDataError "checkpoint rotation inventory is inconsistent"
      end
  end.

(** ** Envelopes *)
(** [_envelope_context] for the projection, and for a result. *)
Definition projection_context (record : Row) (namespace : string) (revision : Z) : res EnvelopeContext :=
  requires (authority_identifier namespace) ValidationError "" ;;
  c ← make_SessionEnvelopeContext (mkSessionContext (ct_tenant_id (sr_contract record)) (ct_session (sr_contract record))
        namespace SESSION_PAYLOAD_SCHEMA_VERSION session_projection revision None None);
  inr (session_context c).
Definition result_context (record : Row) (namespace : string) (revision : Z) (operation_id fingerprint : string)
    : res EnvelopeContext :=
  requires (authority_identifier namespace) ValidationError "" ;;
  c ← make_SessionEnvelopeContext (mkSessionContext (ct_tenant_id (sr_contract record)) (ct_session (sr_contract record))
        namespace SESSION_OPERATION_RESULT_SCHEMA_VERSION operation_result revision (Some operation_id) (Some fingerprint));
  inr (session_context c).

Definition restore_error {A} (reason : string) : res A := raises SessionRestoreError reason.
(** [_restore_payload] *)
Definition restore_payload (record : Row) : res DurableSessionPayload :=
  match sr_envelope record with
  | None => restore_error "payload_schema_invalid"
  | Some envelope =>
      if negb (se_payload_schema_version envelope =? SESSION_PAYLOAD_SCHEMA_VERSION) then restore_error "payload_schema_invalid"
      else
        context ← projection_context record (sr_checkpoint_namespace record) (sr_session_revision record);
        match decrypt cipher envelope context with
        | inl e => if bool_decide (exc_cls e = SessionEnvelopeError) then restore_error "decryption_failed" else inl e
        | inr plaintext =>
            match payload_from_bytes plaintext with
            | inl e => if is_value_error e || bool_decide (exc_cls e = TypeError) then restore_error "payload_schema_invalid" else inl e
            | inr payload => inr payload
            end
        end
  end.

(** [_operation_result_from_row]; the message of its data error is the restore reason. *)
Definition operation_result_from_row (record : Row) (o : OperationRow C) (operation_id fingerprint : string)
    : res SessionOperationResult :=
  let envelope := or_result_envelope o in
  let data_error {A} (reason : string) : res A := raises SessionRegistryDataError reason in
  if negb (se_payload_schema_version envelope =? SESSION_OPERATION_RESULT_SCHEMA_VERSION) then data_error "payload_schema_invalid"
  else if negb (authority_identifier (or_committed_checkpoint_namespace o) && (0 <? or_committed_revision o)) then
    data_error "reconstruction_failed"
  else
    context ← result_context record (or_committed_checkpoint_namespace o) (or_committed_revision o) operation_id fingerprint;
    match decrypt cipher envelope context with
    | inl e => if bool_decide (exc_cls e = SessionEnvelopeError) then data_error "decryption_failed" else inl e
    | inr plaintext =>
        match receipt_from_bytes plaintext with
        | inl e => if is_value_error e || bool_decide (exc_cls e = TypeError) then data_error "payload_schema_invalid" else inl e
        | inr receipt =>
            if String.eqb (rp_operation_id receipt) operation_id && String.eqb (rp_request_fingerprint receipt) fingerprint
            then inr (rp_result receipt) else data_error "reconstruction_failed"
        end
    end.

(** [SessionOperationEvidence] *)
Record OperationEvidence := mkOperationEvidence {
  oe_operation_id : string;
  oe_request_fingerprint : string;
  oe_committed_revision : Z;
  oe_committed_checkpoint_namespace : string;
  oe_result : SessionOperationResult }.
(** [_operation_evidence_from_row] *)
Definition operation_evidence_from_row (record : Row) (o : OperationRow C) : res OperationEvidence :=
  match
    (requires (authority_identifier (or_operation_id o) && authority_identifier (or_committed_checkpoint_namespace o))
       ValidationError "" ;;
     result ← operation_result_from_row record o (or_operation_id o) (or_request_fingerprint o);
     validated (hex64 (or_request_fingerprint o) && (1 <=? or_committed_revision o))
       (mkOperationEvidence (or_operation_id o) (or_request_fingerprint o) (or_committed_revision o)
          (or_committed_checkpoint_namespace o) result))
  with
  | inr evidence => inr evidence
  | inl e =>
      if bool_decide (exc_cls e = SessionRegistryDataError) then restore_error (exc_msg e)
      else if is_value_error e || bool_decide (exc_cls e = TypeError) then restore_error "reconstruction_failed"
      else inl e
  end.

(** ** Leases *)
(** [INSERT INTO platform_sessions] *)
Definition insert_session (r : Row) : M DB unit :=
  db ← get;
  let k := key_of (sr_contract r) in
  require (negb (isSome (session_of db k))) UniqueViolation "" ;;
  require (session_checks r) PsycopgError "check constraint" ;;
  require (namespace_free db k (sr_checkpoint_namespace r)) UniqueViolation "" ;;
  put (set_entry k (mkEntry r [] [] []) db).

(** [register_and_acquire] *)
Definition register_and_acquire env (registration : SessionRegistration) (lease : SessionLeaseRequest)
    (payload : DurableSessionPayload) : M DB Row :=
  let c := rg_contract registration in
  let fence := 1 in
  let namespace := checkpoint_namespace (ct_session c) fence in
  row ← translating (λ e,
      if bool_decide (exc_cls e = UniqueViolation) then Exc LeaseAdmissionError "session_exists"
      else if is_value_error e then Exc SessionRegistryDataError "session payload cannot be encrypted"
      else registry_failure "session registration failed" e)
    (lease_for ← lift (lease_duration (lr_duration_seconds lease));
     retention ← lift (lease_duration (rg_retention_seconds registration));
     require (lease_for <? retention) SessionRegistryDataError "session retention must be longer than the initial lease" ;;
     context ← lift (make_SessionEnvelopeContext (mkSessionContext (ct_tenant_id c) (ct_session c) namespace
                       SESSION_PAYLOAD_SCHEMA_VERSION session_projection (rg_session_revision registration) None None));
     envelope ← lift (encrypt cipher (tx_nonce env) (payload_to_bytes payload) (session_context context));
     committed env
       (let r := mkRecord c OPENING namespace (rg_principal_generation registration) (rg_session_revision registration)
                   fence (Some (lr_lease_owner_id lease)) (Some (tx_written env + lease_for)) None
                   (tx_written env + retention) (Some envelope) (tx_created env) (tx_created env) in
        insert_session r ;;
        insert_generation (key_of c) (mkGeneration namespace (storage_thread_id c namespace) fence
          (rg_principal_generation registration) gs_current None None) ;;
        mret r));
  lift (record_from_row row).

(** The updates of a session row. *)
Definition activated (now : Z) r : Row :=
  mkRecord (sr_contract r) ACTIVE (sr_checkpoint_namespace r) (sr_principal_generation r) (sr_session_revision r)
    (sr_fencing_generation r) (sr_lease_owner_id r) (sr_lease_expires_at r) (sr_close_operation_id r) (sr_expires_at r)
    (sr_envelope r) (sr_created_at r) now.
Definition lease_extended (t now : Z) r : Row :=
  mkRecord (sr_contract r) (sr_lifecycle r) (sr_checkpoint_namespace r) (sr_principal_generation r) (sr_session_revision r)
    (sr_fencing_generation r) (sr_lease_owner_id r) (Some t) (sr_close_operation_id r) (sr_expires_at r)
    (sr_envelope r) (sr_created_at r) now.
Definition close_leased (owner operation : string) (t now : Z) r : Row :=
  mkRecord (sr_contract r) CLOSING (sr_checkpoint_namespace r) (sr_principal_generation r) (sr_session_revision r)
    (sr_fencing_generation r + 1) (Some owner) (Some t) (Some operation) (sr_expires_at r)
    (sr_envelope r) (sr_created_at r) now.
Definition published (revision : Z) (envelope : SessionEnvelope C) (now : Z) r : Row :=
  mkRecord (sr_contract r) (sr_lifecycle r) (sr_checkpoint_namespace r) (sr_principal_generation r) revision
    (sr_fencing_generation r) (sr_lease_owner_id r) (sr_lease_expires_at r) (sr_close_operation_id r) (sr_expires_at r)
    (Some envelope) (sr_created_at r) now.
Definition switched (namespace : string) (principal : Z) (envelope : SessionEnvelope C) (now : Z) r : Row :=
  mkRecord (sr_contract r) (sr_lifecycle r) namespace principal (sr_session_revision r)
    (sr_fencing_generation r) (sr_lease_owner_id r) (sr_lease_expires_at r) (sr_close_operation_id r) (sr_expires_at r)
    (Some envelope) (sr_created_at r) now.
Definition tombstone (expires now : Z) r : Row :=
  mkRecord (sr_contract r) CLOSED (sr_checkpoint_namespace r) (sr_principal_generation r) (sr_session_revision r)
    (sr_fencing_generation r) None None (sr_close_operation_id r) expires None (sr_created_at r) now.

(** The lease conditions every guarded UPDATE repeats at its own clock reading. *)
Definition holds_lease (a : SessionLeaseAuthority) (now : Z) r : bool :=
  is_owner r (la_lease_owner_id a) && (sr_fencing_generation r =? la_fencing_generation a)
  && (now <? sr_expires_at r) && lease_live r now.
(** The row the UPDATE returned, or why it selected none. *)
Definition or_expired env (record : Row) (updated : option Row) : M DB Row :=
  match updated with
  | Some row => mret row
  | None => raise LeaseAdmissionError (if sr_expires_at record <=? tx_rechecked env then "session_expired" else "lease_expired")
  end.

(** [activate] *)
Definition activate env (a : SessionLeaseAuthority) : M DB Row :=
  row ← translating (registry_failure "session activation failed") (committed env
    (record ← locked_record env a;
     if eq_lifecycle (sr_lifecycle record) ACTIVE then mret record
     else
       updated ← update_session (key_of (la_contract a))
                   (λ r, eq_lifecycle (sr_lifecycle r) OPENING && holds_lease a (tx_written env) r)
                   (activated (tx_written env));
       or_expired env record updated));
  lift (record_from_row row).

(** [GREATEST(lease_expires_at, LEAST(expires_at, now + duration))] *)
Definition renewed_until (r : Row) (now duration : Z) : Z :=
  let t := Z.min (sr_expires_at r) (now + duration) in
  match sr_lease_expires_at r with Some t0 => Z.max t0 t | None => t end.
(** [renew] *)
Definition renew env (renewal : SessionLeaseRenewal) : M DB Row :=
  let a := ln_authority renewal in
  row ← translating (λ e, invalid_as "session lease renewal is invalid" (registry_failure "session lease renewal failed" e))
    (duration ← lift (lease_duration (ln_duration_seconds renewal));
     committed env
       (record ← locked_record env a;
        updated ← update_session (key_of (la_contract a)) (holds_lease a (tx_written env))
                    (λ r, lease_extended (renewed_until r (tx_written env) duration) (tx_written env) r);
        or_expired env record updated));
  lift (record_from_row row).

(** ** State *)
(** [publish]: the record with the payload and the receipt. *)
Definition publish_session env (p : SessionStatePublication) : M DB (Row * RestoredSessionState) :=
  let a := pu_lease p in
  let k := key_of (la_contract a) in
  outcome ← translating (registry_failure "session state publication failed") (committed env
    (record ← locked_record env a;
     require (eq_lifecycle (sr_lifecycle record) ACTIVE) LeaseAdmissionError "lifecycle_rejected" ;;
     rows ← generation_rows k;
     require (negb (existsb (in_state gs_pending) rows)) SessionStateWriteError "rotation_pending" ;;
     db ← get;
     let receipt := List.find (λ o, String.eqb (or_operation_id o) (pu_operation_id p))
                      (match session_of db k with Some e => en_operations e | None => [] end) in
     match receipt with
     | Some o =>
         require (String.eqb (or_request_fingerprint o) (pu_request_fingerprint p)) SessionStateWriteError "operation_conflict" ;;
         payload ← lift (restore_payload record);
         result ← lift (operation_result_from_row record o (pu_operation_id p) (pu_request_fingerprint p));
         let restored := mkRestored payload (sr_session_revision record) true (Some (or_committed_revision o)) (Some result) in
         restored ← lift (validated (operation_receipt_matches_replay restored) restored);
         mret (inl (record, restored))
     | None =>
         require (pu_expected_revision p =? sr_session_revision record) SessionStateWriteError "stale_revision" ;;
         let next_revision := sr_session_revision record + 1 in
         context ← lift (projection_context record (sr_checkpoint_namespace record) next_revision);
         envelope ← lift (encrypt cipher (tx_nonce env) (payload_to_bytes (pu_payload p)) context);
         receipt ← lift (make_receipt (mkReceipt (pu_operation_id p) (pu_request_fingerprint p) (pu_operation_result p)));
         result_for ← lift (result_context record (sr_checkpoint_namespace record) next_revision (pu_operation_id p)
                              (pu_request_fingerprint p));
         result_envelope ← lift (encrypt cipher (tx_result_nonce env) (receipt_to_bytes receipt) result_for);
         updated ← update_session k
                     (λ r, eq_lifecycle (sr_lifecycle r) ACTIVE && holds_lease a (tx_written env) r
                           && (sr_session_revision r =? pu_expected_revision p))
                     (published next_revision envelope (tx_written env));
         row ← or_expired env record updated;
         insert_operation k (mkOperation (pu_operation_id p) (pu_request_fingerprint p) next_revision
                               (sr_checkpoint_namespace record) result_envelope) ;;
         mret (inr row)
     end));
  match outcome with
  | inl replay => mret replay
  | inr row =>
      r ← lift (record_from_row row);
      let restored := mkRestored (pu_payload p) (sr_session_revision r) false None None in
      restored ← lift (validated (operation_receipt_matches_replay restored) restored);
      mret (r, restored)
  end.

(** [restore] *)
Definition restore_session env (a : SessionLeaseAuthority) : M DB (Row * RestoredSessionState) :=
  '(record, payload) ← translating (registry_failure "session state restore failed") (committed env
    (record ← locked_record env a;
     payload ← lift (restore_payload record);
     mret (record, payload)));
  let restored := mkRestored payload (sr_session_revision record) false None None in
  restored ← lift (validated (operation_receipt_matches_replay restored) restored);
  mret (record, restored).

(** [get] *)
Definition get_session (k : string * string) : M DB (option Row) :=
  db ← get;
  match session_of db k with
  | None => mret None
  | Some e => r ← lift (record_from_row (en_row e)); mret (Some r)
  end.

(** ** Revisions *)
(** What the checkpoint holds as its revision: nothing, an integer, something else. *)
Inductive revision_value := rv_absent | rv_int (z : Z) | rv_other.
Inductive CheckpointRevisionDisposition := SEED_REQUIRED | CURRENT_REVISION | SESSION_AHEAD.
#[export] Instance CheckpointRevisionDisposition_eq_dec : EqDecision CheckpointRevisionDisposition.
Proof using. solve_decision. Defined.
(** [classify_checkpoint_revision] *)
Definition classify_checkpoint_revision (checkpoint : revision_value) (session_revision : Z) : res CheckpointRevisionDisposition :=
  match checkpoint with
  | rv_int n =>
      if n <? 0 then restore_error "checkpoint_invalid"
      else if session_revision <? 0 then raises ValueError "session revision must not be negative"
      else if session_revision <? n then restore_error "revision_mismatch"
      else if n <? session_revision then inr SESSION_AHEAD else inr CURRENT_REVISION
  | _ => restore_error "checkpoint_invalid"
  end.

Record CheckpointRevisionReconciliation := mkReconciled {
  rc_record : Row;
  rc_payload : DurableSessionPayload;
  rc_checkpoint_revision : option Z;
  rc_disposition : CheckpointRevisionDisposition;
  rc_operations : list OperationEvidence }.
(** [evidence_is_complete] *)
Definition evidence_is_complete (x : CheckpointRevisionReconciliation) : bool :=
  match rc_disposition x, rc_checkpoint_revision x with
  | SEED_REQUIRED, n =>
      eq_lifecycle (sr_lifecycle (rc_record x)) OPENING && (sr_session_revision (rc_record x) =? 0) && negb (isSome n)
      && (length (rc_operations x) =? 0)%nat
  | _, None => false
  | CURRENT_REVISION, Some n => (n =? sr_session_revision (rc_record x)) && (length (rc_operations x) =? 0)%nat
  | SESSION_AHEAD, Some n =>
      (sr_session_revision (rc_record x) =? n + 1)
      && bool_decide (oe_committed_revision <$> rc_operations x = [n + 1])
      && forallb (λ o, String.eqb (oe_committed_checkpoint_namespace o) (sr_checkpoint_namespace (rc_record x))) (rc_operations x)
  end.
(** The receipts of a range of revisions, in order. *)
Fixpoint insert_operation_row (o : OperationRow C) (l : list (OperationRow C)) : list (OperationRow C) :=
  match l with
  | [] => [o]
  | x :: l' => if or_committed_revision o <=? or_committed_revision x then o :: l else x :: insert_operation_row o l'
  end.
Definition operations_between (low high : Z) (l : list (OperationRow C)) : list (OperationRow C) :=
  foldr insert_operation_row []
    (List.filter (λ o, (low <? or_committed_revision o) && (or_committed_revision o <=? high)) l).

(** [reconcile_checkpoint_revision] *)
Definition reconcile_checkpoint_revision env (a : SessionLeaseAuthority) (checkpoint : revision_value)
    : M DB CheckpointRevisionReconciliation :=
  translating (λ e, if is_value_error e || bool_decide (exc_cls e = TypeError)
                    then Exc SessionRegistryDataError "checkpoint revision reconciliation is invalid"
                    else registry_failure "checkpoint revision reconciliation failed" e)
    (committed env
      (record ← locked_record env a;
       payload ← lift (restore_payload record);
       require (negb (isSome (dp_principal_retirement payload))) SessionRestoreError "principal_retirement_pending" ;;
       let reconciled x := lift (validated (evidence_is_complete x) x) in
       match checkpoint with
       | rv_absent =>
           require (eq_lifecycle (sr_lifecycle record) OPENING && (sr_session_revision record =? 0)) SessionRestoreError
             "checkpoint_invalid" ;;
           reconciled (mkReconciled record payload None SEED_REQUIRED [])
       | _ =>
           disposition ← lift (classify_checkpoint_revision checkpoint (sr_session_revision record));
           match checkpoint, disposition with
           | rv_int n, CURRENT_REVISION => reconciled (mkReconciled record payload (Some n) CURRENT_REVISION [])
           | rv_int n, _ =>
               require (sr_session_revision record =? n + 1) SessionRestoreError "revision_gap_unexplained" ;;
               db ← get;
               operations ← lift (mapM (operation_evidence_from_row record)
                 (operations_between n (sr_session_revision record)
                    (match session_of db (key_of (sr_contract record)) with Some e => en_operations e | None => [] end)));
               require (bool_decide (oe_committed_revision <$> operations = [n + 1])
                        && forallb (λ o, String.eqb (oe_committed_checkpoint_namespace o) (sr_checkpoint_namespace record))
                             operations) SessionRestoreError "revision_gap_unexplained" ;;
               reconciled (mkReconciled record payload (Some n) SESSION_AHEAD operations)
           | _, _ => raise AssertionError ""
           end
       end)).

(** ** Rotation of the checkpoint generation *)
Record CheckpointRotation := mkRotation { ro_source : CheckpointGeneration; ro_destination : CheckpointGeneration }.
(** [generations_form_one_rotation]; the binding version is always 1. *)
Definition generations_form_one_rotation (x : CheckpointRotation) : bool :=
  let s := ro_source x in
  let d := ro_destination x in
  String.eqb (cg_tenant_id s) (cg_tenant_id d) && String.eqb (cg_logical_session_id s) (cg_logical_session_id d)
  && String.eqb (cg_deployment_id s) (cg_deployment_id d) && String.eqb (cg_graph_contract s) (cg_graph_contract d)
  && (gr_fencing_generation (cg_row s) =? gr_fencing_generation (cg_row d))
  && bool_decide (gr_state (cg_row s) ∈ [gs_retired; gs_deleted])
  && bool_decide (gr_state (cg_row d) ∈ [gs_current; gs_retired; gs_deleted])
  && isSome (gr_transition_id (cg_row d)) && isSome (gr_source_revision (cg_row d))
  && (gr_principal_generation (cg_row d) =? gr_principal_generation (cg_row s) + 1).
Definition make_rotation (x : CheckpointRotation) : res CheckpointRotation := validated (generations_form_one_rotation x) x.
Definition cg_set_state (s : GenerationState) (g : CheckpointGeneration) : CheckpointGeneration :=
  mkCheckpointGeneration (cg_tenant_id g) (cg_logical_session_id g) (cg_deployment_id g) (cg_graph_contract g)
    (set_state s (cg_row g)).
Definition at_namespace (namespace : string) (s : GenerationState) (g : GenerationRow) : bool :=
  String.eqb (gr_checkpoint_namespace g) namespace && in_state s g.

(** [checkpoint_generations] *)
Definition checkpoint_generations env (a : SessionLeaseAuthority) : M DB (list CheckpointGeneration) :=
  translating (λ e, invalid_as "checkpoint generation inventory is invalid" (registry_failure "checkpoint generation lookup failed" e))
    (committed env (record ← locked_record env a; checkpoint_generations_of record true)).

(** [begin_checkpoint_rotation] *)
Definition begin_checkpoint_rotation env (a : SessionLeaseAuthority) (expected_revision expected_principal : Z)
    (transition_id : string) : M DB CheckpointGeneration :=
  require (authority_identifier transition_id) ValidationError "" ;;
  require ((0 <=? expected_revision) && (0 <=? expected_principal)) ValueError
    "rotation requires non-negative integer revision and principal generation" ;;
  translating (registry_failure "checkpoint rotation allocation failed") (committed env
    (record ← locked_record env a;
     require (eq_lifecycle (sr_lifecycle record) ACTIVE) LeaseAdmissionError "lifecycle_rejected" ;;
     generations ← checkpoint_generations_of record true;
     payload ← lift (restore_payload record);
     let marked := bool_decide (dp_principal_retirement payload = Some transition_id) in
     rotation ← lift (rotation_members generations transition_id);
     match rotation with
     | Some (source, prior) =>
         require (bool_decide (gr_source_revision (cg_row prior) = Some expected_revision)
                  && (gr_principal_generation (cg_row prior) =? expected_principal + 1)
                  && (gr_fencing_generation (cg_row prior) =? la_fencing_generation a)
                  && (gr_principal_generation (cg_row source) =? expected_principal))
           SessionStateWriteError "operation_conflict" ;;
         require (negb (cg_in_state gs_pending prior)
                  || (cg_in_state gs_current source && marked && (sr_session_revision record =? expected_revision)))
           SessionRegistryDataError "rotation allocation has inconsistent state" ;;
         mret prior
     | None =>
         require (negb (existsb (cg_in_state gs_pending) generations)) SessionStateWriteError "rotation_pending" ;;
         require (isSome (dp_principal_retirement payload)) SessionStateWriteError "retirement_marker_missing" ;;
         require marked SessionStateWriteError "operation_conflict" ;;
         require (sr_session_revision record =? expected_revision) SessionStateWriteError "stale_revision" ;;
         require (sr_principal_generation record =? expected_principal) SessionStateWriteError "stale_principal" ;;
         let c := sr_contract record in
         let next := sr_principal_generation record + 1 in
         let namespace := principal_namespace (ct_session c) (sr_fencing_generation record) next in
         let row := mkGeneration namespace (storage_thread_id c namespace) (sr_fencing_generation record) next gs_pending
                      (Some transition_id) (Some expected_revision) in
         destination ← lift (make_generation c row);
         insert_generation (key_of c) row ;;
         mret destination
     end)).

(** [switch_checkpoint_generation] *)
Definition switch_checkpoint_generation env (a : SessionLeaseAuthority) (transition_id : string) : M DB CheckpointRotation :=
  require (authority_identifier transition_id) ValidationError "" ;;
  translating (registry_failure "checkpoint rotation switch failed") (committed env
    (record ← locked_record env a;
     require (eq_lifecycle (sr_lifecycle record) ACTIVE) LeaseAdmissionError "lifecycle_rejected" ;;
     generations ← checkpoint_generations_of record true;
     members ← lift (rotation_members generations transition_id);
     match members with
     | None => raise SessionStateWriteError "rotation_not_found"
     | Some (source, destination) =>
         payload ← lift (restore_payload record);
         let revision := default 0 (gr_source_revision (cg_row destination)) in
         if negb (cg_in_state gs_pending destination) then
           require (bool_decide (gr_state (cg_row source) ∈ [gs_retired; gs_deleted]) && (revision <=? sr_session_revision record))
             SessionRegistryDataError "completed checkpoint rotation is inconsistent" ;;
           lift (make_rotation (mkRotation source destination))
         else
           let k := key_of (sr_contract record) in
           let from := gr_checkpoint_namespace (cg_row source) in
           let to := gr_checkpoint_namespace (cg_row destination) in
           require (cg_in_state gs_current source && String.eqb (sr_checkpoint_namespace record) from
                    && (sr_principal_generation record =? gr_principal_generation (cg_row source))
                    && (sr_session_revision record =? revision)
                    && bool_decide (dp_principal_retirement payload = Some transition_id))
             SessionRegistryDataError "pending checkpoint rotation is inconsistent" ;;
           context ← lift (projection_context record to (sr_session_revision record));
           envelope ← lift (encrypt cipher (tx_nonce env) (payload_to_bytes payload) context);
           retired ← update_generations k (at_namespace from gs_current) gs_retired;
           require (retired =? 1)%nat SessionRegistryDataError "checkpoint rotation did not retire its source" ;;
           current ← update_generations k (at_namespace to gs_pending) gs_current;
           require (current =? 1)%nat SessionRegistryDataError "checkpoint rotation did not publish its destination" ;;
           updated ← update_session k
             (λ r, String.eqb (sr_checkpoint_namespace r) from
                   && (sr_principal_generation r =? gr_principal_generation (cg_row source))
                   && (sr_session_revision r =? revision) && holds_lease a (tx_written env) r)
             (switched to (gr_principal_generation (cg_row destination)) envelope (tx_written env));
           match updated with
           | None =>
               if sr_expires_at record <=? tx_rechecked env then raise LeaseAdmissionError "session_expired"
               else if negb (lease_live record (tx_rechecked env)) then raise LeaseAdmissionError "lease_expired"
               else raise SessionRegistryDataError "checkpoint rotation switch lost authority"
           | Some row =>
               row ← lift (record_from_row row);
               require (String.eqb (sr_checkpoint_namespace row) to
                        && (sr_principal_generation row =? gr_principal_generation (cg_row destination))
                        && (sr_session_revision row =? revision)) SessionRegistryDataError
                 "checkpoint rotation returned an inconsistent session" ;;
               lift (make_rotation (mkRotation (cg_set_state gs_retired source) (cg_set_state gs_current destination)))
           end
     end)).

(** [record_checkpoint_deletion] *)
Definition record_checkpoint_deletion env (a : SessionLeaseAuthority) (transition_id : string) : M DB CheckpointGeneration :=
  require (authority_identifier transition_id) ValidationError "" ;;
  translating (registry_failure "checkpoint deletion record failed") (committed env
    (record ← locked_record env a;
     generations ← checkpoint_generations_of record true;
     members ← lift (rotation_members generations transition_id);
     match members with
     | None => raise SessionStateWriteError "rotation_not_found"
     | Some (source, destination) =>
         require (negb (cg_in_state gs_pending destination || cg_in_state gs_current source)) SessionRegistryDataError
           "checkpoint deletion requires a completed rotation" ;;
         if cg_in_state gs_deleted source then mret source
         else
           require (cg_in_state gs_retired source) SessionRegistryDataError "checkpoint deletion source is not retired" ;;
           deleted ← update_generations (key_of (sr_contract record))
                       (at_namespace (gr_checkpoint_namespace (cg_row source)) gs_retired) gs_deleted;
           require (deleted =? 1)%nat SessionRegistryDataError "checkpoint deletion was not recorded" ;;
           mret (cg_set_state gs_deleted source)
     end)).

(** ** Close *)
Record SessionCloseClaim := mkClaim {
  cm_authority : SessionCloseAuthority;
  cm_record : Row;
  cm_generations : list CheckpointGeneration }.
(** [claim_matches_registry_state] *)
Definition claim_matches_registry_state (x : SessionCloseClaim) : bool :=
  let r := cm_record x in
  let a := cm_authority x in
  eq_lifecycle (sr_lifecycle r) CLOSING && bool_decide (sr_contract r = ca_contract a)
  && bool_decide (sr_close_operation_id r = Some (ca_operation_id a)) && is_owner r (ca_lease_owner_id a)
  && (sr_fencing_generation r =? ca_fencing_generation a)
  && forallb (λ g, String.eqb (cg_tenant_id g) (ct_tenant_id (sr_contract r))
                   && String.eqb (cg_logical_session_id g) (ct_session (sr_contract r))) (cm_generations x).
(** [_close_authority] and [_close_claim] *)
Definition close_authority (record : Row) : res SessionCloseAuthority :=
  match sr_close_operation_id record, sr_lease_owner_id record with
  | Some operation, Some owner => inr (mkClose (sr_contract record) operation owner (sr_fencing_generation record))
  | _, _ => raises SessionRegistryDataError "closing session is missing cleanup authority"
  end.
Definition close_claim (record : Row) : M DB SessionCloseClaim :=
  authority ← lift (close_authority record);
  generations ← checkpoint_generations_of record false;
  let claim := mkClaim authority record generations in
  lift (validated (claim_matches_registry_state claim) claim).

(** [_take_close_lease] *)
Definition take_close_lease env (record : Row) (request : SessionCloseRequest) : M DB Row :=
  require (match sr_close_operation_id record with Some id => String.eqb id (cr_operation_id request) | None => true end)
    SessionCloseError "wrong_close_owner" ;;
  duration ← lift (lease_duration (cr_duration_seconds request));
  updated ← update_session (key_of (sr_contract record)) (λ _, true)
    (close_leased (cr_lease_owner_id request) (default (cr_operation_id request) (sr_close_operation_id record))
       (tx_locked env + duration) (tx_locked env));
  match updated with
  | None => raise SessionRegistryError "session close claim returned no authoritative row"
  | Some row => lift (record_from_row row)
  end.

(** [begin_close] *)
Definition begin_close env (a : SessionLeaseAuthority) (request : SessionCloseRequest) : M DB SessionCloseClaim :=
  translating (registry_failure "session close transition failed") (committed env
    (record ← locked_session (key_of (la_contract a));
     let closing := eq_lifecycle (sr_lifecycle record) CLOSING
                    && bool_decide (sr_close_operation_id record = Some (cr_operation_id request)) in
     let live := lease_live record (tx_locked env) in
     if closing && is_owner record (cr_lease_owner_id request) && live then close_claim record
     else
       let reclaim := closing && negb live in
       require (negb (eq_lifecycle (sr_lifecycle record) CLOSING) || reclaim) SessionCloseError "wrong_close_owner" ;;
       match (if reclaim then None else lease_authority_rejection record a (tx_locked env)) with
       | Some reason => raise LeaseAdmissionError reason
       | None => record ← take_close_lease env record request; close_claim record
       end)).

Record ExpiredSessionCandidate := mkCandidate { ex_key : string * string; ex_close_operation_id : option string }.
(** [claim_expired] *)
Definition claim_expired env (candidate : ExpiredSessionCandidate) (request : SessionCloseRequest) : M DB SessionCloseClaim :=
  translating (registry_failure "expired session claim failed") (committed env
    (record ← locked_session (ex_key candidate);
     require (negb (eq_lifecycle (sr_lifecycle record) CLOSED)) SessionCloseError "not_eligible" ;;
     require (negb (lease_live record (tx_locked env))
              || (negb (eq_lifecycle (sr_lifecycle record) CLOSING) && (sr_expires_at record <=? tx_locked env)))
       SessionCloseError "not_eligible" ;;
     record ← take_close_lease env record request;
     close_claim record)).

(** [refresh_close] *)
Definition refresh_close env (a : SessionCloseAuthority) (duration_seconds : seconds) : M DB SessionCloseClaim :=
  duration ← lift (lease_duration duration_seconds);
  translating (registry_failure "session close renewal failed") (committed env
    (record ← locked_session (key_of (ca_contract a));
     let c := sr_contract record in
     let ac := ca_contract a in
     require (eq_lifecycle (sr_lifecycle record) CLOSING) SessionCloseError "not_eligible" ;;
     require (bool_decide (ct_authority c = ct_authority ac) && String.eqb (ct_deployment_id c) (ct_deployment_id ac)
              && String.eqb (ct_graph_contract c) (ct_graph_contract ac)
              && String.eqb (ct_config_version c) (ct_config_version ac)
              && bool_decide (sr_close_operation_id record = Some (ca_operation_id a)))
       SessionCloseError "wrong_close_owner" ;;
     if negb (lease_live record (tx_locked env)) then
       record ← take_close_lease env record (mkCloseRequest (ca_operation_id a) (ca_lease_owner_id a) duration_seconds);
       close_claim record
     else
       require (is_owner record (ca_lease_owner_id a)) SessionCloseError "wrong_close_owner" ;;
       let t := tx_locked env + duration in
       updated ← update_session (key_of c) (λ _, true)
         (λ r, lease_extended (match sr_lease_expires_at r with Some t0 => Z.max t0 t | None => t end) (tx_locked env) r);
       match updated with
       | None => raise SessionRegistryError "session close renewal returned no authoritative row"
       | Some row => record ← lift (record_from_row row); close_claim record
       end)).

(** [close_checkpoint_generations] *)
Definition close_checkpoint_generations env (a : SessionCloseAuthority) : M DB (list CheckpointGeneration) :=
  translating (registry_failure "session close inventory failed") (committed env
    (record ← locked_close_record env a; checkpoint_generations_of record false)).

(** [record_close_checkpoint_deletion] *)
Definition record_close_checkpoint_deletion env (a : SessionCloseAuthority) (namespace : string) : M DB CheckpointGeneration :=
  require (authority_identifier namespace) ValidationError "" ;;
  translating (λ e, if is_value_error e || bool_decide (exc_cls e = TypeError)
                    then Exc SessionRegistryDataError "session close checkpoint record is invalid"
                    else registry_failure "session close checkpoint update failed" e)
    (committed env
      (record ← locked_close_record env a;
       let k := key_of (sr_contract record) in
       let here g := String.eqb (gr_checkpoint_namespace g) namespace in
       update_generations k here gs_deleted ;;
       rows ← generation_rows k;
       match List.find here rows with
       | None => raise SessionCloseError "cleanup_incomplete"
       | Some g => lift (make_generation (sr_contract record) g)
       end)).

(** [finalize_close] *)
Definition finalize_close env (a : SessionCloseAuthority) (retention_seconds : seconds) : M DB Row :=
  retention ← lift (lease_duration retention_seconds);
  row ← translating (registry_failure "session close finalization failed") (committed env
    (record ← locked_session (key_of (ca_contract a));
     if eq_lifecycle (sr_lifecycle record) CLOSED then
       require (bool_decide (sr_close_operation_id record = Some (ca_operation_id a))) SessionCloseError "wrong_close_owner" ;;
       mret record
     else
       match close_authority_rejection record a (tx_locked env) with
       | Some reason => raise SessionCloseError reason
       | None =>
           let k := key_of (sr_contract record) in
           generations ← checkpoint_generations_of record false;
           require (negb (length generations =? 0)%nat && forallb (cg_in_state gs_deleted) generations) SessionCloseError
             "cleanup_incomplete" ;;
           let storage := (λ g, gr_storage_thread_id (cg_row g)) <$> generations in
           db ← get;
           require (forallb (λ t, negb (bool_decide (t ∈ storage))) (db_checkpoints db)
                    && match session_of db k with Some e => (length (en_manifests e) =? 0)%nat | None => true end)
             SessionCloseError "cleanup_incomplete" ;;
           modify (λ db, match session_of db k with
                         | Some e => set_entry k (mkEntry (en_row e) [] [] (en_manifests e)) db
                         | None => db
                         end) ;;
           updated ← update_session k (λ _, true) (tombstone (tx_locked env + retention) (tx_locked env));
           match updated with
           | None => raise SessionRegistryError "session close finalization returned no row"
           | Some row => mret row
           end
       end));
  lift (record_from_row row).

(** ** Reaping *)
Definition expired_row (now : Z) r : bool :=
  negb (eq_lifecycle (sr_lifecycle r) CLOSED)
  && (match sr_lease_expires_at r with Some t => t <=? now | None => false end
      || (negb (eq_lifecycle (sr_lifecycle r) CLOSING) && (sr_expires_at r <=? now))).
Definition reap_time r : Z := default (sr_expires_at r) (sr_lease_expires_at r).
Fixpoint str_leb (a b : string) : bool :=
  match a, b with
  | "", _ => true
  | String _ _, "" => false
  | String x a', String y b' => (code x <? code y)%nat || ((code x =? code y)%nat && str_leb a' b')
  end.
Definition reap_le (x y : (string * string) * Entry C) : bool :=
  let tx := reap_time (en_row x.2) in
  let ty := reap_time (en_row y.2) in
  (tx <? ty) || ((tx =? ty) && str_leb x.1.2 y.1.2).
Fixpoint insert_by {A} (le : A → A → bool) (x : A) (l : list A) : list A :=
  match l with
  | [] => [x]
  | y :: l' => if le x y then x :: l else y :: insert_by le x l'
  end.
Definition sort_by {A} (le : A → A → bool) (l : list A) : list A := foldr (insert_by le) [] l.
Definition tenant_sessions (tenant : string) db : list ((string * string) * Entry C) :=
  List.filter (λ '(k, _), String.eqb k.1 tenant) (map_to_list (db_sessions db)).

(** [expired_sessions] *)
Definition expired_sessions env (tenant : string) (limit : nat) : M DB (list ExpiredSessionCandidate) :=
  require (authority_identifier tenant) ValidationError "" ;;
  require (1 <=? limit)%nat ValueError "expired session limit must be a positive integer" ;;
  translating (registry_failure "expired session lookup failed") (committed env
    (db ← get;
     let rows := take limit (sort_by reap_le (List.filter (λ x, expired_row (tx_locked env) (en_row x.2)) (tenant_sessions tenant db))) in
     mret ((λ x, mkCandidate x.1 (sr_close_operation_id (en_row x.2))) <$> rows))).

Definition purge_le (x y : (string * string) * Entry C) : bool :=
  let tx := sr_expires_at (en_row x.2) in
  let ty := sr_expires_at (en_row y.2) in
  (tx <? ty) || ((tx =? ty) && str_leb x.1.2 y.1.2).
(** [purge_closed_tombstones]: the children of a row go with it. *)
Definition purge_closed_tombstones env (tenant : string) (limit : nat) : M DB nat :=
  require (authority_identifier tenant) ValidationError "" ;;
  require (1 <=? limit)%nat ValueError "closed tombstone limit must be a positive integer" ;;
  translating (registry_failure "closed session tombstone purge failed") (committed env
    (db ← get;
     let closed := List.filter (λ x, eq_lifecycle (sr_lifecycle (en_row x.2)) CLOSED && (sr_expires_at (en_row x.2) <=? tx_locked env))
                     (tenant_sessions tenant db) in
     let expired := (take limit (sort_by purge_le closed)).*1 in
     put (mkDatabase (foldr delete (db_sessions db) expired) (db_checkpoints db)) ;;
     mret (length expired))).

(** [tenant_durable_row_counts] *)
Record TenantDurableRowCounts := mkCounts {
  tc_tenant_id : string; tc_observed_at : Z;
  tc_sessions : nat; tc_operations : nat; tc_generations : nat; tc_manifests : nat }.
Definition total {A} (f : A → nat) (l : list A) : nat := foldr (λ x n, f x + n)%nat 0%nat l.
Definition tenant_durable_row_counts env (tenant : string) : M DB TenantDurableRowCounts :=
  require (authority_identifier tenant) ValidationError "" ;;
  translating (registry_failure "tenant durable-state observation failed") (committed env
    (db ← get;
     let rows := tenant_sessions tenant db in
     mret (mkCounts tenant (tx_locked env) (length rows) (total (λ x, length (en_operations x.2)) rows)
             (total (λ x, length (en_generations x.2)) rows) (total (λ x, length (en_manifests x.2)) rows)))).

(** ** The checkpoint data plane (durability/postgres_checkpoints.py) *)
Inductive CheckpointAuthority := by_lease (a : SessionLeaseAuthority) | by_close (a : SessionCloseAuthority).
Inductive CheckpointOperation := op_read_checkpoint | op_write_checkpoint | op_delete_checkpoint.
Definition cp_contract (a : CheckpointAuthority) : SessionContract :=
  match a with by_lease a => la_contract a | by_close a => ca_contract a end.
(** [_validate_session] *)
Definition data_plane_rejection (a : CheckpointAuthority) (now : Z) r : option string :=
  let c := sr_contract r in
  let ac := cp_contract a in
  let lease owner fence :=
    if negb (lease_live r now) then Some "lease_expired"
    else if negb (is_owner r owner) then Some "wrong_lease_owner"
    else if negb (sr_fencing_generation r =? fence) then Some "stale_fence"
    else None in
  if negb (String.eqb (ct_deployment_id c) (ct_deployment_id ac)) then Some "wrong_deployment"
  else if negb (String.eqb (ct_graph_contract c) (ct_graph_contract ac)) then Some "wrong_graph_contract"
  else if negb (String.eqb (ct_config_version c) (ct_config_version ac)) then Some "stale_config"
  else if negb (bool_decide (aa_transport (ct_authority c) = aa_transport (ct_authority ac))) then Some "wrong_transport"
  else
    match a with
    | by_close a =>
        if negb (eq_lifecycle (sr_lifecycle r) CLOSING) then Some "lifecycle_rejected"
        else if negb (bool_decide (sr_close_operation_id r = Some (ca_operation_id a))) then Some "wrong_lease_owner"
        else lease (ca_lease_owner_id a) (ca_fencing_generation a)
    | by_lease a =>
        if sr_expires_at r <=? now then Some "session_expired"
        else if negb (bool_decide (sr_lifecycle r ∈ [OPENING; ACTIVE])) then Some "lifecycle_rejected"
        else lease (la_lease_owner_id a) (la_fencing_generation a)
    end.
(** [_authorized_generation] *)
Definition authorized_generation env (a : CheckpointAuthority) (thread_id : string) (op : CheckpointOperation)
    : M DB CheckpointGeneration :=
  let refuse (reason : string) : M DB CheckpointGeneration := raise CheckpointDataPlaneError reason in
  db ← get;
  match session_of db (key_of (cp_contract a)) with
  | None => refuse "session_not_found"
  | Some e =>
      match data_plane_rejection a (tx_locked env) (en_row e) with
      | Some reason => refuse reason
      | None =>
          let fix look (rows : list GenerationRow) : res (option CheckpointGeneration) :=
            match rows with
            | [] => inr None
            | g :: rows' =>
                match make_generation (cp_contract a) g with
                | inl _ => raises CheckpointSchemaError "checkpoint generation row is malformed"
                | inr candidate =>
                    if String.eqb (gr_storage_thread_id g) thread_id then inr (Some candidate) else look rows'
                end
            end in
          found ← lift (look (en_generations e));
          match found with
          | None => refuse "unregistered_generation"
          | Some g =>
              let closing := match a with by_close _ => true | by_lease _ => false end in
              match op with
              | op_write_checkpoint =>
                  if closing || negb (bool_decide (gr_state (cg_row g) ∈ [gs_current; gs_pending])) then refuse "generation_not_writable"
                  else mret g
              | op_delete_checkpoint =>
                  if negb closing && negb (bool_decide (gr_state (cg_row g) ∈ [gs_retired; gs_deleted])) then
                    refuse "generation_not_deletable"
                  else mret g
              | op_read_checkpoint => mret g
              end
          end
      end
  end.
(** The manifests of a session and the rows of the checkpoint library. *)
Definition with_checkpoints (k : string * string) (f : list (string * string) → list (string * string))
    (g : list string → list string) db : DB :=
  match session_of db k with
  | Some e =>
      mkDatabase (<[k := mkEntry (en_row e) (en_generations e) (en_operations e) (f (en_manifests e))]> (db_sessions db))
        (g (db_checkpoints db))
  | None => db
  end.
(** [aput] and [aput_writes]: the saver of the checkpoint library adds rows of the thread, and
    the manifest of the generation is stored beside them. *)
Definition checkpoint_put env (a : CheckpointAuthority) (thread_id checkpoint_id : string) : M DB unit :=
  committed env
    (g ← authorized_generation env a thread_id op_write_checkpoint;
     let m := (gr_checkpoint_namespace (cg_row g), checkpoint_id) in
     modify (with_checkpoints (key_of (cp_contract a)) (λ l, if decide (m ∈ l) then l else m :: l) (cons thread_id))).
(** [adelete_thread]: every row of the thread, and the manifests of its generation. *)
Definition adelete_thread env (a : CheckpointAuthority) (thread_id : string) : M DB unit :=
  committed env
    (g ← authorized_generation env a thread_id op_delete_checkpoint;
     modify (with_checkpoints (key_of (cp_contract a))
               (List.filter (λ m, negb (String.eqb m.1 (gr_checkpoint_namespace (cg_row g)))))
               (List.filter (λ t, negb (String.eqb t thread_id))))).
End registry.
