(* ===== verification/RegistryLaws.v ===== *)
(** * The session registry: what its transactions do (durability/session_registry.py)

    Every call of the registry is described by the steps it may take on one
    session ([session_step]): an authority that is checked, then one change of
    the row, its generations or its receipts.  The invariants of a session are
    proved by induction on these steps, and every reachable database satisfies
    them. *)

From stdpp Require Import gmap.
From S2P Require Import Prelude PyText Money Receipts Cart OrderScope SessionState Confirmation Encryption Registry.
Local Open Scope Z_scope.
Local Open Scope list_scope.

(** ** Successful computations *)
Section inversion.
Context {S : Type}.
Lemma M_bind_done {A B} (m : M S A) (k : A → M S B) s s' b :
  (m ≫= k) s = (s', inr b) → ∃ s1 a, m s = (s1, inr a) ∧ k a s1 = (s', inr b).
Proof. unfold mbind, M_bind. destruct (m s) as [s1 [e|a]]; [done|]. eauto. Qed.
Lemma M_require_done {A} b c t (k : M S A) s s' a :
  (require b c t ;; k) s = (s', inr a) → b = true ∧ k s = (s', inr a).
Proof. unfold require. destruct b; [done|]. by intros (? & ? & [=] & _)%M_bind_done. Qed.
Lemma M_lift_done {A B} (r : res A) (k : A → M S B) s s' b :
  (lift r ≫= k) s = (s', inr b) → ∃ a, r = inr a ∧ k a s = (s', inr b).
Proof. destruct r; [done|]. eauto. Qed.
Lemma M_get_done {B} (k : S → M S B) s s' b : (get ≫= k) s = (s', inr b) → k s s = (s', inr b).
Proof. done. Qed.
Lemma M_modify_done {B} f (k : unit → M S B) s s' b : (modify f ≫= k) s = (s', inr b) → k tt (f s) = (s', inr b).
Proof. done. Qed.
Lemma M_ret_done {A} (a : A) (s s' : S) b : (mret a : M S A) s = (s', inr b) → s' = s ∧ b = a.
Proof. by intros [= -> ->]. Qed.
Lemma M_lift_end {A} (r : res A) (s s' : S) b : (lift r : M S A) s = (s', inr b) → s' = s ∧ r = inr b.
Proof. by intros [= -> ->]. Qed.
End inversion.
Lemma requires_done {A} b c t (k : res A) v : (requires b c t ;; k) = inr v → b = true ∧ k = inr v.
Proof. by rewrite requires_then. Qed.
Lemma res_bind_done {A B} (m : res A) (k : A → res B) v : m ≫= k = inr v → ∃ a, m = inr a ∧ k a = inr v.
Proof. destruct m; [done|]. eauto. Qed.
Lemma validated_done {A} b (x v : A) : validated b x = inr v → b = true ∧ v = x.
Proof. unfold validated. destruct b; [|done]. by intros [= ->]. Qed.

Ltac streqs := repeat match goal with Hs : String.eqb _ _ = true |- _ => apply String.eqb_eq in Hs end.
(** One step of inversion on a successful run. *)
Ltac mstep H :=
  lazymatch type of H with
  | (require _ _ _ ≫= _) _ = (_, inr _) => apply M_require_done in H as [? H]
  | (lift _ ≫= _) _ = (_, inr _) => let a := fresh "a" in let E := fresh "E" in apply M_lift_done in H as (a & E & H)
  | (get ≫= _) _ = (_, inr _) => apply M_get_done in H
  | (modify _ ≫= _) _ = (_, inr _) => apply M_modify_done in H
  | (lift _) _ = (_, inr _) => let E := fresh "E" in apply M_lift_end in H as [-> E]
  | mret _ _ = (_, inr _) => apply M_ret_done in H as [-> ->]
  end; cbv beta iota zeta in H.

Section steps.
Context {K C : Type} `{Aead K C} `{PayloadCodec}.
Context (digest : list (string * json_scalar) → string) (cipher : AesGcmSessionCipher K).
Notation Row := (SessionRecord C).
Notation DB := (Database C).
Implicit Types (r : Row) (db : DB) (env : tx_env) (e : Entry C).

(** ** Statements *)
Lemma session_set k e db k' : session_of (set_entry k e db) k' = if decide (k = k') then Some e else session_of db k'.
Proof. unfold session_of, set_entry. cbn. case_decide; subst; [by rewrite lookup_insert_eq|by rewrite lookup_insert_ne]. Qed.
Lemma session_set_eq k e db : session_of (set_entry k e db) k = Some e.
Proof. rewrite session_set. by rewrite decide_True. Qed.
Lemma set_set k e e' db : set_entry k e (set_entry k e' db) = set_entry k e db.
Proof. unfold set_entry. cbn. by rewrite insert_insert_eq. Qed.

Lemma update_session_done k cond f db db' o : update_session k cond f db = (db', inr o) →
  match o with
  | None => db' = db
  | Some r => ∃ e, session_of db k = Some e ∧ cond (en_row e) = true ∧ r = f (en_row e) ∧ session_checks r = true ∧
      namespace_free db k (sr_checkpoint_namespace r) = true ∧ db' = set_entry k (with_row f e) db
  end.
Proof.
  unfold update_session. intros Hu. mstep Hu. destruct (session_of db k) as [e|] eqn:He; [|mstep Hu; done].
  destruct (cond (en_row e)) eqn:Hc; [|mstep Hu; done]. mstep Hu. mstep Hu. cbn in Hu. injection Hu as <- <-.
  exists e. by split_and!.
Qed.

Lemma insert_generation_done k g db db' u : insert_generation k g db = (db', inr u) →
  ∃ e, session_of db k = Some e ∧ generation_checks g = true ∧ generation_keys (en_generations e ++ [g]) = true ∧
    db' = set_entry k (with_generations (en_generations e ++ [g]) e) db.
Proof.
  unfold insert_generation. intros Hu. mstep Hu. destruct (session_of db k) as [e|] eqn:He; [|done].
  mstep Hu. mstep Hu. bools. cbn in Hu. injection Hu as <- <-. exists e. by split_and!.
Qed.
Definition moved (select : GenerationRow → bool) (s : GenerationState) (l : list GenerationRow) : list GenerationRow :=
  (λ g, if select g then set_state s g else g) <$> l.
Lemma update_generations_done k select s db db' n : update_generations k select s db = (db', inr n) →
  match session_of db k with
  | None => db' = db ∧ n = 0%nat
  | Some e => forallb generation_checks (moved select s (en_generations e)) = true ∧
      generation_keys (moved select s (en_generations e)) = true ∧
      db' = set_entry k (with_generations (moved select s (en_generations e)) e) db ∧
      n = length (List.filter select (en_generations e))
  end.
Proof.
  unfold update_generations. intros Hu. mstep Hu. destruct (session_of db k) as [e|] eqn:He; [|mstep Hu; done].
  mstep Hu. mstep Hu. cbn in Hu. injection Hu as <- <-. by split_and!.
Qed.
Lemma insert_operation_done k o db db' u : insert_operation k o db = (db', inr u) →
  ∃ e, session_of db k = Some e ∧ operation_checks o = true ∧ operation_keys (en_operations e ++ [o]) = true ∧
    db' = set_entry k (mkEntry (en_row e) (en_generations e) (en_operations e ++ [o]) (en_manifests e)) db.
Proof.
  unfold insert_operation. intros Hu. mstep Hu. destruct (session_of db k) as [e|] eqn:He; [|done].
  mstep Hu. mstep Hu. cbn in Hu. injection Hu as <- <-. exists e. by split_and!.
Qed.

(** ** Authority *)
Lemma locked_session_done k db db' r : locked_session k db = (db', inr r) →
  db' = db ∧ record_valid r = true ∧ ∃ e, session_of db k = Some e ∧ en_row e = r.
Proof.
  unfold locked_session. intros Hl. mstep Hl. destruct (session_of db k) as [e|] eqn:He; [|done]. mstep Hl.
  unfold record_from_row in E. apply requires_done in E as [Hv [= <-]]. eauto.
Qed.

(** What a lease that is not rejected has. *)
Definition lease_held (a : SessionLeaseAuthority) (now : Z) r : Prop :=
  now < sr_expires_at r ∧ (sr_lifecycle r = OPENING ∨ sr_lifecycle r = ACTIVE) ∧
  ct_deployment_id (sr_contract r) = ct_deployment_id (la_contract a) ∧
  ct_graph_contract (sr_contract r) = ct_graph_contract (la_contract a) ∧
  ct_config_version (sr_contract r) = ct_config_version (la_contract a) ∧
  ct_authority (sr_contract r) = ct_authority (la_contract a) ∧
  lease_live r now = true ∧ sr_lease_owner_id r = Some (la_lease_owner_id a) ∧
  sr_fencing_generation r = la_fencing_generation a.
Lemma lease_held_iff a now r : lease_authority_rejection r a now = None ↔ lease_held a now r.
Proof.
  unfold lease_authority_rejection, lease_held, is_owner. cbv zeta.
  repeat match goal with |- context [String.eqb ?x ?y] => destruct (String.eqb_spec x y) end;
  repeat match goal with |- context [bool_decide ?P] => destruct (bool_decide_reflect P) end;
  destruct (Z.leb_spec (sr_expires_at r) now), (Z.eqb_spec (sr_fencing_generation r) (la_fencing_generation a)),
    (lease_live r now); cbn; split; intros Hx; try done; try (split_and!; try done; set_solver);
    destruct Hx as (? & [?|?] & ? & ? & ? & ? & ? & ? & ?); try done; try lia; set_solver.
Qed.
Definition close_held (a : SessionCloseAuthority) (now : Z) r : Prop :=
  sr_lifecycle r = CLOSING ∧ sr_contract r = ca_contract a ∧ lease_live r now = true ∧
  sr_lease_owner_id r = Some (ca_lease_owner_id a) ∧ sr_close_operation_id r = Some (ca_operation_id a) ∧
  sr_fencing_generation r = ca_fencing_generation a.
Lemma close_held_iff a now r : close_authority_rejection r a now = None ↔ close_held a now r.
Proof.
  unfold close_authority_rejection, close_held, is_owner, eq_lifecycle. cbv zeta.
  assert (sr_contract r = ca_contract a ↔ ct_tenant_id (sr_contract r) = ct_tenant_id (ca_contract a) ∧
    ct_authority (sr_contract r) = ct_authority (ca_contract a) ∧
    ct_deployment_id (sr_contract r) = ct_deployment_id (ca_contract a) ∧
    ct_graph_contract (sr_contract r) = ct_graph_contract (ca_contract a) ∧
    ct_config_version (sr_contract r) = ct_config_version (ca_contract a)) as ->
    by (destruct (sr_contract r), (ca_contract a); cbn; naive_solver).
  repeat match goal with |- context [String.eqb ?x ?y] => destruct (String.eqb_spec x y) end;
  repeat match goal with |- context [bool_decide ?P] => destruct (bool_decide_reflect P) end;
  destruct (Z.eqb_spec (sr_fencing_generation r) (ca_fencing_generation a)), (lease_live r now);
  cbn; split; intros Hx; try done; try (by split_and!); destruct Hx as (? & (? & ? & ? & ? & ?) & ? & ? & ? & ?); done.
Qed.
Lemma locked_record_done env a db db' r : locked_record env a db = (db', inr r) →
  db' = db ∧ record_valid r = true ∧ lease_held a (tx_locked env) r ∧
  ∃ e, session_of db (key_of (la_contract a)) = Some e ∧ en_row e = r.
Proof.
  intros (db1 & x & (-> & Hv & Hx)%locked_session_done & Hl)%M_bind_done.
  destruct (lease_authority_rejection _ _ _) eqn:Hrej; [done|]. mstep Hl. apply lease_held_iff in Hrej. by split_and!.
Qed.
Lemma locked_close_record_done env a db db' r : locked_close_record env a db = (db', inr r) →
  db' = db ∧ record_valid r = true ∧ close_held a (tx_locked env) r ∧
  ∃ e, session_of db (key_of (ca_contract a)) = Some e ∧ en_row e = r.
Proof.
  intros (db1 & x & (-> & Hv & Hx)%locked_session_done & Hl)%M_bind_done.
  destruct (close_authority_rejection _ _ _) eqn:Hrej; [done|]. mstep Hl. apply close_held_iff in Hrej. by split_and!.
Qed.

(** ** Inventories *)
Lemma make_generation_done c g x : make_generation digest c g = inr x →
  x = mkCheckpointGeneration (ct_tenant_id c) (ct_session c) (ct_deployment_id c) (ct_graph_contract c) g ∧
  gr_storage_thread_id g = storage_thread_id digest c (gr_checkpoint_namespace g).
Proof.
  unfold make_generation. intros [_ [Hs [= <-]]%requires_done]%requires_done. by apply String.eqb_eq in Hs.
Qed.
Lemma ordered_perm l : ordered l ≡ₚ l.
Proof.
  assert (∀ g l', insert_ordered g l' ≡ₚ g :: l') as Hins.
  { intros g l'. induction l' as [|x l' IH]; cbn; [done|]. case_match; [done|]. rewrite IH. apply perm_swap. }
  induction l as [|g l IH]; cbn; [done|]. by rewrite Hins, IH.
Qed.
Lemma generations_of_done (record : Row) b db db' l : checkpoint_generations_of digest record b db = (db', inr l) →
  db' = db ∧ cg_row <$> l = ordered (match session_of db (key_of (sr_contract record)) with Some e => en_generations e | None => [] end) ∧
  Forall (λ g, make_generation digest (sr_contract record) (cg_row g) = inr g) l ∧
  (b = true → ∃ g, List.filter (cg_in_state gs_current) l = [g] ∧
     gr_checkpoint_namespace (cg_row g) = sr_checkpoint_namespace record ∧
     gr_fencing_generation (cg_row g) = sr_fencing_generation record ∧
     gr_principal_generation (cg_row g) = sr_principal_generation record).
Proof.
  unfold checkpoint_generations_of. intros (db1 & rows & Hg & Hl)%M_bind_done. unfold generation_rows in Hg. mstep Hg. mstep Hg.
  mstep Hl. mstep Hl. mstep Hl. rename E into Hm.
  split; [done|]. set (rows := match session_of db _ with Some _ => _ | None => _ end) in *. clearbody rows.
  assert (∀ xs ys, mapM (make_generation digest (sr_contract record)) xs = inr ys →
    cg_row <$> ys = xs ∧ Forall (λ g, make_generation digest (sr_contract record) (cg_row g) = inr g) ys) as Hmap.
  { induction xs as [|x xs IH]; intros ys Hys; cbn in Hys; [by injection Hys as <-|].
    apply res_bind_done in Hys as (y & Hy & (zs & Hzs & [= <-])%res_bind_done). destruct (IH _ Hzs) as [<- Hall].
    pose proof Hy as [-> _]%make_generation_done. cbn. split; [done|]. by constructor. }
  destruct (Hmap _ _ Hm) as [-> Hall]. split_and!; [done..|]. intros ->. cbn in H1.
  destruct (List.filter _ _) as [|g [|]]; try done. bools. exists g. split_and!; [done|by apply String.eqb_eq|done|done].
Qed.

(** ** The steps of a session *)
Inductive actor :=
  | lease_holder (a : SessionLeaseAuthority) | publisher (p : SessionStatePublication) | close_holder (owner : string) | close_taker.
Definition acts (a : SessionLeaseAuthority) e : Prop := ∃ now, lease_held a now (en_row e).
Definition pending_in (l : list GenerationRow) : bool := existsb (in_state gs_pending) l.
(** The generation the session writes its checkpoints to, and no other current one. *)
Definition current_matches e : Prop :=
  ∃ g, List.filter (in_state gs_current) (en_generations e) = [g] ∧
    gr_checkpoint_namespace g = sr_checkpoint_namespace (en_row e) ∧
    gr_fencing_generation g = sr_fencing_generation (en_row e) ∧
    gr_principal_generation g = sr_principal_generation (en_row e).
Definition next_generation (transition : string) r : GenerationRow :=
  let next := sr_principal_generation r + 1 in
  let namespace := principal_namespace (ct_session (sr_contract r)) (sr_fencing_generation r) next in
  mkGeneration namespace (storage_thread_id digest (sr_contract r) namespace) (sr_fencing_generation r) next gs_pending
    (Some transition) (Some (sr_session_revision r)).

Inductive session_step : actor → Entry C → Entry C → Prop :=
  | step_activate a now e : acts a e → sr_lifecycle (en_row e) = OPENING → session_checks (activated now (en_row e)) = true →
      session_step (lease_holder a) e (with_row (activated now) e)
  | step_renew a t now e : acts a e → session_checks (lease_extended t now (en_row e)) = true →
      session_step (lease_holder a) e (with_row (lease_extended t now) e)
  | step_publish p now nonce nonce' context context' envelope envelope' e (r := en_row e) (next := sr_session_revision r + 1) :
      acts (pu_lease p) e → sr_lifecycle r = ACTIVE → pending_in (en_generations e) = false →
      payload_valid (pu_payload p) = true → sr_session_revision r = pu_expected_revision p →
      pu_operation_id p ∉ (or_operation_id <$> en_operations e) →
      projection_context r (sr_checkpoint_namespace r) next = inr context →
      encrypt cipher nonce (payload_to_bytes (pu_payload p)) context = inr envelope →
      is_ok (make_receipt (mkReceipt (pu_operation_id p) (pu_request_fingerprint p) (pu_operation_result p))) = true →
      result_context r (sr_checkpoint_namespace r) next (pu_operation_id p) (pu_request_fingerprint p) = inr context' →
      encrypt cipher nonce' (receipt_to_bytes (mkReceipt (pu_operation_id p) (pu_request_fingerprint p) (pu_operation_result p)))
        context' = inr envelope' →
      session_checks (published next envelope now r) = true →
      session_step (publisher p) e
        (mkEntry (published next envelope now r) (en_generations e)
           (en_operations e ++ [mkOperation (pu_operation_id p) (pu_request_fingerprint p) next (sr_checkpoint_namespace r) envelope'])
           (en_manifests e))
  | step_allocate a transition payload e : acts a e → sr_lifecycle (en_row e) = ACTIVE → pending_in (en_generations e) = false →
      current_matches e → restore_payload cipher (en_row e) = inr payload → dp_principal_retirement payload = Some transition →
      make_generation digest (sr_contract (en_row e)) (next_generation transition (en_row e)) =
        inr (mkCheckpointGeneration (ct_tenant_id (sr_contract (en_row e))) (ct_session (sr_contract (en_row e)))
               (ct_deployment_id (sr_contract (en_row e))) (ct_graph_contract (sr_contract (en_row e)))
               (next_generation transition (en_row e))) →
      generation_keys (en_generations e ++ [next_generation transition (en_row e)]) = true →
      session_step (lease_holder a) e (with_generations (en_generations e ++ [next_generation transition (en_row e)]) e)
  | step_switch a source destination payload nonce context envelope now e (r := en_row e) :
      acts a e → sr_lifecycle r = ACTIVE → current_matches e →
      source ∈ en_generations e → destination ∈ en_generations e →
      gr_state source = gs_current → gr_state destination = gs_pending →
      gr_checkpoint_namespace source = sr_checkpoint_namespace r →
      gr_principal_generation source = sr_principal_generation r →
      gr_fencing_generation destination = gr_fencing_generation source →
      gr_principal_generation destination = gr_principal_generation source + 1 →
      restore_payload cipher r = inr payload →
      projection_context r (gr_checkpoint_namespace destination) (sr_session_revision r) = inr context →
      encrypt cipher nonce (payload_to_bytes payload) context = inr envelope →
      session_checks (switched (gr_checkpoint_namespace destination) (gr_principal_generation destination) envelope now r) = true →
      record_valid (switched (gr_checkpoint_namespace destination) (gr_principal_generation destination) envelope now r) = true →
      generation_keys (moved (at_namespace (gr_checkpoint_namespace destination) gs_pending) gs_current
        (moved (at_namespace (gr_checkpoint_namespace source) gs_current) gs_retired (en_generations e))) = true →
      session_step (lease_holder a) e
        (mkEntry (switched (gr_checkpoint_namespace destination) (gr_principal_generation destination) envelope now r)
           (moved (at_namespace (gr_checkpoint_namespace destination) gs_pending) gs_current
              (moved (at_namespace (gr_checkpoint_namespace source) gs_current) gs_retired (en_generations e)))
           (en_operations e) (en_manifests e))
  | step_delete_source a namespace e : acts a e →
      generation_keys (moved (at_namespace namespace gs_retired) gs_deleted (en_generations e)) = true →
      session_step (lease_holder a) e (with_generations (moved (at_namespace namespace gs_retired) gs_deleted (en_generations e)) e)
  | step_take_close owner operation t now e : sr_lifecycle (en_row e) ≠ CLOSED →
      (sr_close_operation_id (en_row e) = None ∨ sr_close_operation_id (en_row e) = Some operation) →
      session_checks (close_leased owner operation t now (en_row e)) = true →
      record_valid (close_leased owner operation t now (en_row e)) = true →
      session_step close_taker e (with_row (close_leased owner operation t now) e)
  | step_refresh_close owner t now e : sr_lifecycle (en_row e) = CLOSING → sr_lease_owner_id (en_row e) = Some owner →
      session_checks (lease_extended t now (en_row e)) = true →
      session_step (close_holder owner) e (with_row (lease_extended t now) e)
  | step_close_delete a now namespace e : close_held a now (en_row e) →
      generation_keys (moved (λ g, String.eqb (gr_checkpoint_namespace g) namespace) gs_deleted (en_generations e)) = true →
      session_step (close_holder (ca_lease_owner_id a)) e
        (with_generations (moved (λ g, String.eqb (gr_checkpoint_namespace g) namespace) gs_deleted (en_generations e)) e)
  | step_finalize a at_ expires now e : close_held a at_ (en_row e) →
      en_generations e ≠ [] → Forall (λ g, gr_state g = gs_deleted) (en_generations e) → en_manifests e = [] →
      session_checks (tombstone expires now (en_row e)) = true →
      session_step (close_holder (ca_lease_owner_id a)) e (mkEntry (tombstone expires now (en_row e)) [] [] []).

(** Each row is kept under its own key. *)
Definition keyed db : Prop := ∀ k e, session_of db k = Some e → key_of (sr_contract (en_row e)) = k.
(** One step of one session. *)
Definition steps_as (who : actor) db db' : Prop :=
  keyed db → db' = db ∨ ∃ k e e', session_of db k = Some e ∧ session_step who e e' ∧ db' = set_entry k e' db.

(** ** What a computation may change *)
Definition touches {A} (P : DB → DB → Prop) (m : M DB A) : Prop :=
  ∀ db db' o, m db = (db', o) → db' = db ∨ P db db'.
Definition reads {A} (m : M DB A) : Prop := ∀ db, (m db).1 = db.

Lemma touches_require {A} P b c t (m : M DB A) : (b = true → touches P m) → touches P (require b c t ;; m).
Proof. intros Hm db db' o. unfold require. destruct b; [by apply Hm|]. cbn. intros [= <- _]. by left. Qed.
Lemma touches_lift {A B} P (x : res A) (m : A → M DB B) : (∀ a, x = inr a → touches P (m a)) → touches P (lift x ≫= m).
Proof. intros Hm db db' o. destruct x as [err|a]; [intros [= <- _]; by left|]. by apply Hm. Qed.
Lemma touches_post {A B} P (m : M DB A) (k : A → M DB B) : touches P m → (∀ a, reads (k a)) → touches P (m ≫= k).
Proof.
  intros Hm Hk db db' o. unfold mbind, M_bind. destruct (m db) as [db1 [err|a]] eqn:E; [intros [= <- _]; eauto|].
  intros Hr. specialize (Hk a db1). rewrite Hr in Hk. cbn in Hk. subst db'. eauto.
Qed.
Lemma touches_translating {A} P f (m : M DB A) : touches P m → touches P (translating f m).
Proof.
  intros Hm db db' o. unfold translating. destruct (m db) as [db1 [err|a]] eqn:E; intros [= <- _]; eauto.
Qed.
Lemma touches_committed {A} P env (m : M DB A) :
  (∀ db db' a, m db = (db', inr a) → db' = db ∨ P db db') → touches P (committed env m).
Proof.
  intros Hm db db' o. unfold committed, transaction. destruct (tx_fault env), (m db) as [db1 [err|a]] eqn:E; intros [= <- _]; eauto.
Qed.
Lemma reads_lift {A} (x : res A) : reads (lift x).
Proof. done. Qed.
Lemma reads_bind {A B} (m : M DB A) (k : A → M DB B) : reads m → (∀ a, reads (k a)) → reads (m ≫= k).
Proof.
  intros Hm Hk db. specialize (Hm db). unfold mbind, M_bind. destruct (m db) as [db1 [err|a]]; cbn in *; subst; [done|]. apply Hk.
Qed.
Lemma committed_done {A} env (m : M DB A) db db' a : committed env m db = (db', inr a) → m db = (db', inr a) ∧ tx_fault env = no_fault.
Proof. unfold committed, transaction. destruct (tx_fault env), (m db) as [? [?|?]]; naive_solver. Qed.
Lemma translating_done {A} f (m : M DB A) db db' a : translating f m db = (db', inr a) → m db = (db', inr a).
Proof. unfold translating. destruct (m db) as [? [?|?]]; naive_solver. Qed.
Lemma or_expired_done env (record : Row) o db db' r : or_expired env record o db = (db', inr r) → db' = db ∧ o = Some r.
Proof. unfold or_expired. destruct o; [|done]. by intros [-> ->]%M_ret_done. Qed.

(** ** Each call, as steps *)
Lemma keyed_contract k e db : keyed db → session_of db k = Some e → key_of (sr_contract (en_row e)) = k.
Proof. intros Hk. apply Hk. Qed.

Lemma activate_touches env a : touches (steps_as (lease_holder a)) (activate env a).
Proof.
  unfold activate. apply touches_post; [|intros; apply reads_lift]. apply touches_translating, touches_committed.
  intros db db' r (db1 & record & (-> & Hv & Hh & e & He & <-)%locked_record_done & Hrun)%M_bind_done.
  destruct (eq_lifecycle _ _); [mstep Hrun; by left|].
  apply M_bind_done in Hrun as (db1 & o & Hu & [-> ->]%or_expired_done). right. intros _. right.
  apply update_session_done in Hu as (e' & He' & Hc & -> & Hchk & _ & ->). rewrite He in He'. injection He' as <-.
  unfold eq_lifecycle in Hc. bools. exists (key_of (la_contract a)), e, (with_row (activated (tx_written env)) e).
  split_and!; [done| |done]. constructor; [by eexists|done|done].
Qed.
Lemma renew_touches env renewal : touches (steps_as (lease_holder (ln_authority renewal))) (renew env renewal).
Proof.
  unfold renew. cbv zeta. apply touches_post; [|intros; apply reads_lift]. apply touches_translating, touches_lift.
  intros duration _. apply touches_committed.
  intros db db' r (db1 & record & (-> & Hv & Hh & e & He & <-)%locked_record_done & Hrun)%M_bind_done.
  apply M_bind_done in Hrun as (db1 & o & Hu & [-> ->]%or_expired_done). right. intros _. right.
  apply update_session_done in Hu as (e' & He' & Hc & -> & Hchk & _ & ->). rewrite He in He'. injection He' as <-.
  eexists _, e, _. split_and!; [done| |done]. apply (step_renew _ (renewed_until (en_row e) (tx_written env) duration)); [by eexists|done].
Qed.

Lemma filter_cg s (l : list CheckpointGeneration) :
  cg_row <$> List.filter (cg_in_state s) l = List.filter (in_state s) (cg_row <$> l).
Proof. induction l as [|g l IH]; cbn; [done|]. unfold cg_in_state at 1. destruct (in_state s (cg_row g)); cbn; by rewrite IH. Qed.
Lemma filter_perm {A} (f : A → bool) l l' : l ≡ₚ l' → List.filter f l ≡ₚ List.filter f l'.
Proof.
  induction 1; cbn; repeat case_match; try done; [by apply perm_skip|by apply perm_swap|by etrans].
Qed.
Lemma existsb_perm {A} (f : A → bool) l l' : l ≡ₚ l' → existsb f l = existsb f l'.
Proof. induction 1; cbn; [done|by f_equal| |by etrans]. by destruct (f x), (f y). Qed.
Lemma existsb_cg s (l : list CheckpointGeneration) : existsb (cg_in_state s) l = existsb (in_state s) (cg_row <$> l).
Proof. induction l as [|g l IH]; cbn; [done|]. by rewrite IH. Qed.

(** The inventory a lease transaction reads is the current one of the session. *)
Lemma inventory_done db db' e l : keyed db → session_of db (key_of (sr_contract (en_row e))) = Some e →
  checkpoint_generations_of digest (en_row e) true db = (db', inr l) →
  db' = db ∧ current_matches e ∧ cg_row <$> l ≡ₚ en_generations e ∧
  Forall (λ g, make_generation digest (sr_contract (en_row e)) (cg_row g) = inr g) l.
Proof.
  intros Hk He (-> & Hl & Hall & Hc)%generations_of_done. rewrite He in Hl.
  assert (cg_row <$> l ≡ₚ en_generations e) as Hp by (rewrite Hl; apply ordered_perm).
  split_and!; [done| |done|done]. destruct (Hc eq_refl) as (g & Hf & ? & ? & ?). exists (cg_row g). split_and!; [|done..].
  apply Permutation_singleton_r. rewrite <-(filter_perm _ _ _ Hp), <-filter_cg, Hf. done.
Qed.
Lemma find_in {A} (f : A → bool) l x : List.find f l = Some x → x ∈ l ∧ f x = true.
Proof. intros [Hin Hf]%List.find_some. by rewrite list_elem_of_In. Qed.
Lemma rotation_members_done l id s d : rotation_members l id = inr (Some (s, d)) →
  s ∈ l ∧ d ∈ l ∧ gr_transition_id (cg_row d) = Some id ∧
  gr_fencing_generation (cg_row s) = gr_fencing_generation (cg_row d) ∧
  gr_principal_generation (cg_row s) = gr_principal_generation (cg_row d) - 1 ∧ isSome (gr_source_revision (cg_row d)) = true.
Proof.
  unfold rotation_members. destruct (List.find _ _) as [d'|] eqn:Hf; [|done]. apply find_in in Hf as [Hin Hid]. bools.
  destruct (List.filter _ l) as [|s' [|]] eqn:Hs; [done| |done]. destruct (gr_source_revision _) eqn:Hr; [|done].
  intros [= <- <-]. assert (s' ∈ List.filter (λ g, (gr_fencing_generation (cg_row g) =? gr_fencing_generation (cg_row d'))
    && (gr_principal_generation (cg_row g) =? gr_principal_generation (cg_row d') - 1)) l) as Hin' by (rewrite Hs; left).
  apply list_elem_of_In, filter_In in Hin' as [Hin'%list_elem_of_In Hc]. bools. by rewrite Hr.
Qed.
Lemma rotation_none l id : rotation_members l id = inr None → Forall (λ g, gr_transition_id (cg_row g) ≠ Some id) l.
Proof.
  unfold rotation_members. destruct (List.find _ _) as [d'|] eqn:Hf; [by repeat case_match|].
  intros _. apply Forall_forall. intros g Hg Hid. pose proof (List.find_none _ _ Hf g (proj1 (list_elem_of_In _ _) Hg)) as Hn.
  cbn in Hn. bools. done.
Qed.

Lemma begin_rotation_touches env a n p id :
  touches (steps_as (lease_holder a)) (begin_checkpoint_rotation digest cipher env a n p id).
Proof.
  unfold begin_checkpoint_rotation. apply touches_require. intros Hid. apply touches_require. intros _.
  apply touches_translating, touches_committed.
  intros db db' x (db1 & record & (-> & Hv & Hh & e & He & <-)%locked_record_done & Hrun)%M_bind_done.
  mstep Hrun. unfold eq_lifecycle in *. bools. right. intros Hk. pose proof (Hk _ _ He) as Hke. rewrite <-Hke in He.
  apply M_bind_done in Hrun as (db1 & gens & (-> & Hcur & Hp & Hall)%(inventory_done _ _ e) & Hrun); [|done..].
  mstep Hrun. mstep Hrun. destruct a1 as [[source prior]|].
  - mstep Hrun. mstep Hrun. mstep Hrun. by left.
  - right. mstep Hrun. mstep Hrun. mstep Hrun. mstep Hrun. mstep Hrun. mstep Hrun. bools.
    apply M_bind_done in Hrun as (db1 & u & (e' & He' & Hchk & Hkeys & ->)%insert_generation_done & Hrun). mstep Hrun.
    rewrite He in He'. injection He' as <-. exists (key_of (sr_contract (en_row e))), e. eexists. split_and!; [done| |done].
    pose proof E1 as [-> _]%make_generation_done. subst n.
    eapply (step_allocate _ id _ e); try done; [by eexists|]. unfold pending_in. by rewrite <-(existsb_perm _ _ _ Hp), <-existsb_cg.
Qed.
Lemma in_inventory e l g : cg_row <$> l ≡ₚ en_generations e → g ∈ l → cg_row g ∈ en_generations e.
Proof. intros <- Hg. apply list_elem_of_fmap. by exists g. Qed.

Lemma switch_touches env a id : touches (steps_as (lease_holder a)) (switch_checkpoint_generation digest cipher env a id).
Proof.
  unfold switch_checkpoint_generation. apply touches_require. intros Hid.
  apply touches_translating, touches_committed.
  intros db db' x (db1 & record & (-> & Hv & Hh & e & He & <-)%locked_record_done & Hrun)%M_bind_done.
  mstep Hrun. unfold eq_lifecycle in *. bools. right. intros Hk. pose proof (Hk _ _ He) as Hke. rewrite <-Hke in He.
  apply M_bind_done in Hrun as (db1 & gens & (-> & Hcur & Hp & Hall)%(inventory_done _ _ e) & Hrun); [|done..].
  apply M_lift_done in Hrun as ([[source destination]|] & Hm & Hrun); [|done]. cbv beta iota in Hrun.
  apply M_lift_done in Hrun as (payload & Hpay & Hrun). cbv beta iota zeta in Hrun.
  destruct (cg_in_state gs_pending destination) eqn:Hd; cbn [negb] in Hrun; [|mstep Hrun; mstep Hrun; by left].
  right. mstep Hrun. apply M_lift_done in Hrun as (context & Hctx & Hrun). cbv beta in Hrun.
  apply M_lift_done in Hrun as (envelope & Henv & Hrun). cbv beta in Hrun.
  apply M_bind_done in Hrun as (db1 & n1 & Hu1%update_generations_done & Hrun). rewrite He in Hu1. destruct Hu1 as (_ & _ & -> & _).
  mstep Hrun. apply M_bind_done in Hrun as (db2 & n2 & Hu2%update_generations_done & Hrun). rewrite session_set_eq in Hu2.
  destruct Hu2 as (_ & Hkeys & -> & _). mstep Hrun. rewrite set_set in Hrun.
  apply M_bind_done in Hrun as (db3 & o & Hu3%update_session_done & Hrun). destruct o as [row|].
  2: { by repeat case_match. }
  destruct Hu3 as (e' & He' & _ & -> & Hchk & _ & ->). rewrite session_set_eq in He'. injection He' as <-. rewrite set_set in Hrun.
  apply M_lift_done in Hrun as (row & [Hrv _]%requires_done & Hrun). mstep Hrun. mstep Hrun.
  cbn [with_row with_generations en_row en_generations en_operations en_manifests] in *.
  apply rotation_members_done in Hm as (Hs & Hdin & _ & Hf & Hpr & _). unfold cg_in_state, in_state in *. bools.
  streqs. exists (key_of (sr_contract (en_row e))), e. eexists. split_and!; [done| |done].
  eapply (step_switch a (cg_row source) (cg_row destination) _ _ _ _ _ e); try done; [by eexists|by eapply in_inventory..|lia].
Qed.

Lemma deletion_touches env a id : touches (steps_as (lease_holder a)) (record_checkpoint_deletion digest env a id).
Proof.
  unfold record_checkpoint_deletion. apply touches_require. intros Hid.
  apply touches_translating, touches_committed.
  intros db db' x (db1 & record & (-> & Hv & Hh & e & He & <-)%locked_record_done & Hrun)%M_bind_done.
  right. intros Hk. pose proof (Hk _ _ He) as Hke. rewrite <-Hke in He.
  apply M_bind_done in Hrun as (db1 & gens & (-> & Hcur & Hp & Hall)%(inventory_done _ _ e) & Hrun); [|done..].
  apply M_lift_done in Hrun as ([[source destination]|] & Hm & Hrun); [|done]. cbv beta iota in Hrun.
  mstep Hrun. destruct (cg_in_state gs_deleted source); [mstep Hrun; by left|]. mstep Hrun.
  apply M_bind_done in Hrun as (db1 & n1 & Hu1%update_generations_done & Hrun). rewrite He in Hu1. destruct Hu1 as (_ & Hkeys & -> & _).
  mstep Hrun. mstep Hrun. right. eexists _, e, _. split_and!; [done| |done]. constructor; [by eexists|done].
Qed.

(** ** Publication *)
(** A publication that changes the database: the session's next revision, with its receipt. *)
Definition publishes p db db' : Prop := let k := key_of (la_contract (pu_lease p)) in
  ∃ e now nonce context envelope envelope', let r := en_row e in let next := pu_expected_revision p + 1 in
    let e' := mkEntry (published next envelope now r) (en_generations e)
                (en_operations e ++ [mkOperation (pu_operation_id p) (pu_request_fingerprint p) next (sr_checkpoint_namespace r) envelope'])
                (en_manifests e) in
    session_of db k = Some e ∧ session_step (publisher p) e e' ∧ db' = set_entry k e' db ∧
    pu_operation_id p ∉ (or_operation_id <$> en_operations e) ∧
    is_ok (make_receipt (mkReceipt (pu_operation_id p) (pu_request_fingerprint p) (pu_operation_result p))) = true ∧
    result_context r (sr_checkpoint_namespace r) next (pu_operation_id p) (pu_request_fingerprint p) = inr context ∧
    encrypt cipher nonce (receipt_to_bytes (mkReceipt (pu_operation_id p) (pu_request_fingerprint p) (pu_operation_result p)))
      context = inr envelope'.
Lemma publish_does env p : payload_valid (pu_payload p) = true → touches (publishes p) (publish_session cipher env p).
Proof.
  intros Hvalid. unfold publish_session. cbv zeta. apply touches_post.
  2: { intros [[r x]|r]; [by intros ?|]. by repeat (apply reads_bind; [apply reads_lift|intros]). }
  apply touches_translating, touches_committed.
  intros db db' x (db1 & record & (-> & Hv & Hh & e & He & <-)%locked_record_done & Hrun)%M_bind_done.
  mstep Hrun. unfold eq_lifecycle in *. bools. apply M_bind_done in Hrun as (db1 & rows & Hrows & Hrun).
  unfold generation_rows in Hrows. mstep Hrows. mstep Hrows. mstep Hrun. mstep Hrun. rewrite He in *.
  destruct (List.find _ _) as [o|] eqn:Hfind.
  - mstep Hrun. mstep Hrun. mstep Hrun. mstep Hrun. mstep Hrun. by left.
  - mstep Hrun. apply M_lift_done in Hrun as (context & Hctx & Hrun). apply M_lift_done in Hrun as (envelope & Henv & Hrun).
    apply M_lift_done in Hrun as (receipt & Hrec & Hrun). pose proof Hrec as [_ ->]%validated_done.
    apply M_lift_done in Hrun as (context' & Hctx' & Hrun). apply M_lift_done in Hrun as (envelope' & Henv' & Hrun).
    cbv beta in Hrun. apply M_bind_done in Hrun as (db1 & o & Hu & Hrun). apply M_bind_done in Hrun as (db2 & row & [-> ->]%or_expired_done & Hrun).
    apply update_session_done in Hu as (e' & He' & Hc & -> & Hchk & _ & ->). rewrite He in He'. injection He' as <-.
    apply M_bind_done in Hrun as (db2 & u & (e' & He' & Hochk & Hokeys & ->)%insert_operation_done & Hrun). mstep Hrun.
    rewrite session_set_eq in He'. injection He' as <-. rewrite set_set. right. bools.
    match goal with Hx : pu_expected_revision p = _ |- _ => rename Hx into Hexp end.
    assert (pu_operation_id p ∉ or_operation_id <$> en_operations e) as Hnew.
    { intros (o & Ho & Hin)%list_elem_of_fmap.
      pose proof (List.find_none _ _ Hfind o (proj1 (list_elem_of_In _ _) Hin)) as Hn. cbn in Hn. rewrite <-Ho in Hn.
      by rewrite String.eqb_refl in Hn. }
    unfold publishes. cbv zeta. rewrite Hexp. eexists e, _, _, _, _, _. split_and!; [done| |done|exact Hnew|by rewrite Hrec|done|done].
    cbn [with_row en_row en_generations en_operations en_manifests].
    eapply (step_publish p _ _ _ _ _ _ _ e); try done; [by eexists|].
    by rewrite Hrec.
Qed.
Lemma publish_touches env p : payload_valid (pu_payload p) = true → touches (steps_as (publisher p)) (publish_session cipher env p).
Proof.
  intros Hp db db' o Hrun. destruct (publish_does env p Hp db db' o Hrun) as [->|(e & ? & ? & ? & ? & ? & He & Hs & -> & _)]; [by left|].
  right. intros _. right. by eexists _, e, _.
Qed.

(** ** Close *)
Lemma close_claim_done (record : Row) db db' x : close_claim digest record db = (db', inr x) →
  db' = db ∧ cm_record x = record ∧ close_authority record = inr (cm_authority x) ∧
  checkpoint_generations_of digest record false db = (db, inr (cm_generations x)).
Proof.
  unfold close_claim. intros (a & Ha & Hrun)%M_lift_done. apply M_bind_done in Hrun as (db1 & l & Hl & Hrun).
  pose proof Hl as (-> & _)%generations_of_done. mstep Hrun. apply validated_done in E as [_ ->]. by split_and!.
Qed.
Lemma take_close_done env e request db db' r : session_of db (key_of (sr_contract (en_row e))) = Some e →
  take_close_lease env (en_row e) request db = (db', inr r) →
  ∃ duration, lease_duration (cr_duration_seconds request) = inr duration ∧
  let f := close_leased (cr_lease_owner_id request) (cr_operation_id request) (tx_locked env + duration) (tx_locked env) in
  r = f (en_row e) ∧ db' = set_entry (key_of (sr_contract (en_row e))) (with_row f e) db ∧ session_checks (f (en_row e)) = true ∧
  record_valid (f (en_row e)) = true ∧
  (sr_close_operation_id (en_row e) = None ∨ sr_close_operation_id (en_row e) = Some (cr_operation_id request)).
Proof.
  intros He. unfold take_close_lease. intros Hrun. mstep Hrun. apply M_lift_done in Hrun as (duration & Hd & Hrun).
  exists duration. split; [done|]. cbv beta in Hrun. apply M_bind_done in Hrun as (db1 & o & Hu%update_session_done & Hrun).
  assert (default (cr_operation_id request) (sr_close_operation_id (en_row e)) = cr_operation_id request ∧
    (sr_close_operation_id (en_row e) = None ∨ sr_close_operation_id (en_row e) = Some (cr_operation_id request))) as [Hop Hor].
  { destruct (sr_close_operation_id (en_row e)) as [id|]; [|by auto]. apply String.eqb_eq in H1 as ->. by auto. }
  rewrite Hop in *. destruct o as [row|]; [|done]. destruct Hu as (e' & He' & _ & -> & Hchk & _ & ->).
  rewrite He in He'. injection He' as <-. mstep Hrun. unfold record_from_row in E. apply requires_done in E as [Hv [= <-]].
  by split_and!.
Qed.

Lemma begin_close_touches env a request : touches (steps_as close_taker) (begin_close digest env a request).
Proof.
  unfold begin_close. apply touches_translating, touches_committed.
  intros db db' x (db1 & record & (-> & Hv & e & He & <-)%locked_session_done & Hrun)%M_bind_done. cbv zeta in Hrun.
  right. intros Hk. pose proof (Hk _ _ He) as Hke. rewrite <-Hke in He.
  destruct (_ && _ && _) eqn:Hreplay; [left; by apply close_claim_done in Hrun as (-> & _)|]. right. mstep Hrun.
  unfold eq_lifecycle in *.
  assert (sr_lifecycle (en_row e) ≠ CLOSED ∧ ∃ db1 r, take_close_lease env (en_row e) request db = (db1, inr r) ∧
    close_claim digest r db1 = (db', inr x)) as (Hopen & db1 & r & Ht & (-> & _)%close_claim_done).
  { destruct (bool_decide_reflect (sr_lifecycle (en_row e) = CLOSING)) as [Hc|Hc]; cbn in *.
    - split; [by rewrite Hc|]. destruct (_ && negb _); [|done]. by apply M_bind_done in Hrun.
    - destruct (lease_authority_rejection _ _ _) eqn:Hrej; [done|]. apply lease_held_iff in Hrej as (_ & Hl & _).
      split; [by destruct Hl as [->| ->]|]. by apply M_bind_done in Hrun. }
  apply take_close_done in Ht as (duration & _ & -> & -> & Hchk & Hrv & Hop); [|done].
  eexists _, e, _. split_and!; [done| |done]. by constructor.
Qed.
Lemma claim_expired_touches env c request : touches (steps_as close_taker) (claim_expired digest env c request).
Proof.
  unfold claim_expired. apply touches_translating, touches_committed.
  intros db db' x (db1 & record & (-> & Hv & e & He & <-)%locked_session_done & Hrun)%M_bind_done.
  right. intros Hk. pose proof (Hk _ _ He) as Hke. rewrite <-Hke in He. right. mstep Hrun. mstep Hrun.
  unfold eq_lifecycle in *. bools. apply M_bind_done in Hrun as (db1 & r & Ht & (-> & _)%close_claim_done).
  apply take_close_done in Ht as (duration & _ & -> & -> & Hchk & Hrv & Hop); [|done].
  eexists _, e, _. split_and!; [done| |done]. by constructor.
Qed.
(** A refresh keeps the lease of its owner, or takes over a lapsed one. *)
Lemma refresh_close_touches env a s : touches (λ db db', steps_as (close_holder (ca_lease_owner_id a)) db db' ∨ steps_as close_taker db db')
  (refresh_close digest env a s).
Proof.
  unfold refresh_close. apply touches_lift. intros duration Hd. apply touches_translating, touches_committed.
  intros db db' x (db1 & record & (-> & Hv & e & He & <-)%locked_session_done & Hrun)%M_bind_done. cbv zeta in Hrun. right.
  mstep Hrun. mstep Hrun. unfold eq_lifecycle in *. bools. destruct (lease_live _ _) eqn:Hlive; cbn [negb] in Hrun.
  - left. intros Hk. pose proof (Hk _ _ He) as Hke. rewrite <-Hke in He. right. mstep Hrun. unfold is_owner in *. bools.
    apply M_bind_done in Hrun as (db1 & o & Hu%update_session_done & Hrun). destruct o as [row|]; [|done].
    destruct Hu as (e' & He' & _ & -> & Hchk & _ & ->). rewrite He in He'. injection He' as <-.
    apply M_lift_done in Hrun as (r & _ & (-> & _)%close_claim_done). eexists _, e, _. split_and!; [done| |done].
    by apply (step_refresh_close _ (match sr_lease_expires_at (en_row e) with Some t0 => Z.max t0 (tx_locked env + duration) | None => tx_locked env + duration end)).
  - right. intros Hk. pose proof (Hk _ _ He) as Hke. rewrite <-Hke in He. right.
    apply M_bind_done in Hrun as (db1 & r & Ht & (-> & _)%close_claim_done).
    apply take_close_done in Ht as (duration' & _ & -> & -> & Hchk & Hrv & Hop); [|done].
    eexists _, e, _. split_and!; [done| |done]. constructor; [by rewrite H1|done..].
Qed.
Lemma close_delete_touches env a namespace :
  touches (steps_as (close_holder (ca_lease_owner_id a))) (record_close_checkpoint_deletion digest env a namespace).
Proof.
  unfold record_close_checkpoint_deletion. apply touches_require. intros Hid. apply touches_translating, touches_committed.
  intros db db' x (db1 & record & (-> & Hv & Hh & e & He & <-)%locked_close_record_done & Hrun)%M_bind_done. cbv zeta in Hrun.
  right. intros Hk. pose proof (Hk _ _ He) as Hke. rewrite <-Hke in He. right.
  apply M_bind_done in Hrun as (db1 & n1 & Hu1%update_generations_done & Hrun). rewrite He in Hu1. destruct Hu1 as (_ & Hkeys & -> & _).
  apply M_bind_done in Hrun as (db2 & rows & Hr & Hrun). unfold generation_rows in Hr. mstep Hr. mstep Hr.
  destruct (List.find _ _); [|done]. mstep Hrun. eexists _, e, _. split_and!; [done| |done]. by eapply (step_close_delete _ _ _ e).
Qed.
Lemma finalize_touches env a s : touches (steps_as (close_holder (ca_lease_owner_id a))) (finalize_close digest env a s).
Proof.
  unfold finalize_close. apply touches_lift. intros retention Hd. apply touches_post; [|intros; apply reads_lift].
  apply touches_translating, touches_committed.
  intros db db' x (db1 & record & (-> & Hv & e & He & <-)%locked_session_done & Hrun)%M_bind_done.
  right. intros Hk. pose proof (Hk _ _ He) as Hke. rewrite <-Hke in He.
  destruct (eq_lifecycle _ _); [mstep Hrun; mstep Hrun; by left|].
  destruct (close_authority_rejection _ _ _) eqn:Hrej; [done|]. apply close_held_iff in Hrej. right.
  apply M_bind_done in Hrun as (db1 & gens & (-> & Hl & _ & _)%generations_of_done & Hrun). rewrite He in Hl.
  mstep Hrun. mstep Hrun. mstep Hrun. mstep Hrun. rewrite He in *. bools.
  apply M_bind_done in Hrun as (db1 & o & Hu%update_session_done & Hrun). destruct o as [row|]; [|done].
  destruct Hu as (e' & He' & _ & -> & Hchk & _ & ->). rewrite session_set_eq in He'. injection He' as <-. mstep Hrun.
  rewrite set_set. eexists _, e, _. split_and!; [done| |done].
  cbn [with_row en_row en_generations en_operations en_manifests] in *. destruct (en_manifests e) eqn:Hman; [|done].
  eapply (step_finalize a _ _ _ e); try done.
  - intros Hnil. rewrite Hnil in Hl. by destruct gens.
  - assert (Forall (λ g, gr_state g = gs_deleted) (cg_row <$> gens)) as Hdel.
    { apply Forall_fmap, Forall_forall. intros g Hg. apply list_elem_of_In in Hg.
      pose proof (proj1 (forallb_forall _ _) H4 g Hg) as Hs. unfold cg_in_state, in_state in Hs. by bools. }
    rewrite Hl in Hdel. by rewrite (ordered_perm (en_generations e)) in Hdel.
Qed.
End steps.
