(* ===== verification/RegistryInv.v ===== *)
(** * The session registry: invariants of its sessions (durability/session_registry.py)

    What every session of a reachable database satisfies: its row parses, its
    current generation is the one the row names, its receipts are the
    consecutive revisions up to its own, its payload and every receipt open
    with the cipher, and a closed session keeps nothing. *)

From stdpp Require Import gmap.
From S2P Require Import Prelude PyText Money Receipts Cart OrderScope SessionState Confirmation Encryption Registry RegistryLaws.
Local Open Scope Z_scope.
Local Open Scope list_scope.

(** Equalities between constructors, decided. *)
Ltac lifecycles :=
  repeat match goal with
  | Hx : context [bool_decide (?a = ?b)] |- _ =>
      first [rewrite (bool_decide_eq_true_2 (a = b)) in Hx by reflexivity
            |rewrite (bool_decide_eq_false_2 (a = b)) in Hx by discriminate]
  | |- context [bool_decide (?a = ?b)] =>
      first [rewrite (bool_decide_eq_true_2 (a = b)) by reflexivity
            |rewrite (bool_decide_eq_false_2 (a = b)) by discriminate]
  end; cbn [andb orb negb] in *.

Section invariants.
Context {K C : Type} `{!Aead K C} `{!AeadLaws K C} `{!PayloadCodec} `{!PayloadCodecLaws}.
Context (digest : list (string * json_scalar) → string) (cipher : AesGcmSessionCipher K).
Notation Row := (SessionRecord C).
Notation DB := (Database C).
Implicit Types (r : Row) (db : DB) (env : tx_env) (e : Entry C).

(** ** Rows *)
Definition open_lifecycle (l : SessionLifecycle) : Prop := l = OPENING ∨ l = ACTIVE.
Record ids_ok r : Prop := {
  ids_contract : contract_valid (sr_contract r) = true;
  ids_namespace : authority_identifier (sr_checkpoint_namespace r) = true;
  ids_owner : opt_holds authority_identifier (sr_lease_owner_id r) = true;
  ids_close : opt_holds authority_identifier (sr_close_operation_id r) = true;
  ids_closing : sr_lifecycle r = CLOSING → isSome (sr_close_operation_id r) = true;
  ids_open : open_lifecycle (sr_lifecycle r) → sr_close_operation_id r = None }.
Lemma record_valid_ids r : record_valid r = true → ids_ok r.
Proof.
  unfold record_valid, eq_lifecycle. cbv zeta. intros Hv. bools. split; try done.
  - intros Hl. rewrite bool_decide_eq_true_2 in * by done. done.
  - intros [Hl|Hl]; rewrite Hl in *; cbn in *; destruct (sr_close_operation_id r); done.
Qed.
(** The constraints of the table and the identifiers of the models give a row that parses. *)
Lemma record_valid_checks r : session_checks r = true → ids_ok r → record_valid r = true.
Proof.
  unfold session_checks, record_valid, eq_lifecycle. cbv zeta. intros Hc [H1 H2 H3 H4 H5 H6]. bools.
  rewrite H1, H2, H3, H4. unfold open_lifecycle in H6.
  destruct (sr_lifecycle r), (sr_lease_owner_id r), (sr_lease_expires_at r) as [t|], (sr_envelope r), (sr_close_operation_id r); lifecycles; cbn in *;
    try done; try (by specialize (H5 eq_refl)); try (specialize (H6 ltac:(auto)); done);
    bools; repeat match goal with
    | Hx : (?a <=? ?b) = true |- _ => rewrite Hx; apply Z.leb_le in Hx
    | Hx : ?a ≤ ?b |- _ => rewrite (proj2 (Z.leb_le a b) Hx); clear Hx
    | Hx : (_ <? _) = true |- _ => apply Z.ltb_lt in Hx
    end; cbn;
    repeat match goal with
    | |- context [?a <? ?b] => destruct (Z.ltb_spec a b)
    | |- context [?a <=? ?b] => destruct (Z.leb_spec a b)
    end; cbn; try lia; rewrite ?andb_true_r; try done.
Qed.

(** ** Payloads *)
Lemma encrypt_active nonce p context (envelope : SessionEnvelope C) : encrypt cipher nonce p context = inr envelope →
  ∃ key, dget (active_key_version cipher) (keys cipher) = Some key.
Proof. unfold encrypt. intros [_ Henc]%requires_done. destruct (dget _ _); [eauto|done]. Qed.
Lemma encrypt_schema nonce p context (envelope : SessionEnvelope C) : encrypt cipher nonce p context = inr envelope →
  se_payload_schema_version envelope = context_schema_version context.
Proof. unfold encrypt. intros [_ Henc]%requires_done. destruct (dget _ _); [|done]. by injection Henc as <-. Qed.
Lemma opens nonce p context (envelope : SessionEnvelope C) : encrypt cipher nonce p context = inr envelope → decrypt cipher envelope context = inr p.
Proof. intros Henc. destruct (encrypt_active _ _ _ _ Henc) as [key Hkey]. by eapply decrypt_encrypt. Qed.

Lemma restore_payload_ext r r' : sr_contract r' = sr_contract r → sr_checkpoint_namespace r' = sr_checkpoint_namespace r →
  sr_session_revision r' = sr_session_revision r → sr_envelope r' = sr_envelope r → restore_payload cipher r' = restore_payload cipher r.
Proof. unfold restore_payload, projection_context. by intros -> -> -> ->. Qed.
Lemma projection_context_schema r namespace revision context : projection_context r namespace revision = inr context →
  context_schema_version context = 2.
Proof. unfold projection_context. intros [_ (c & [_ ->]%validated_done & [= <-])%res_bind_done]%requires_done. done. Qed.
(** A payload sealed for a row is what the row restores. *)
Lemma sealed_restores r r' nonce context (envelope : SessionEnvelope C) p :
  projection_context r (sr_checkpoint_namespace r') (sr_session_revision r') = inr context →
  encrypt cipher nonce (payload_to_bytes p) context = inr envelope → sr_contract r' = sr_contract r →
  sr_envelope r' = Some envelope → payload_valid p = true → restore_payload cipher r' = inr p.
Proof.
  intros Hctx Henc Hc He Hp. unfold restore_payload. rewrite He.
  rewrite (encrypt_schema _ _ _ _ Henc), (projection_context_schema _ _ _ _ Hctx). cbn [negb Z.eqb SESSION_PAYLOAD_SCHEMA_VERSION Pos.eqb].
  unfold projection_context in *. rewrite Hc, Hctx. change (inr context ≫= ?k) with (k context). cbv beta.
  rewrite (opens _ _ _ _ Henc), payload_round_trip by done. done.
Qed.

Definition receipt_ok r (o : OperationRow C) : Prop := ∃ result,
  operation_result_from_row cipher r o (or_operation_id o) (or_request_fingerprint o) = inr result ∧
  operation_evidence_from_row cipher r o =
    inr (mkOperationEvidence (or_operation_id o) (or_request_fingerprint o) (or_committed_revision o)
           (or_committed_checkpoint_namespace o) result).
Lemma receipt_ext r r' o : sr_contract r' = sr_contract r → receipt_ok r o → receipt_ok r' o.
Proof. unfold receipt_ok, operation_evidence_from_row, operation_result_from_row, result_context. by intros ->. Qed.
Lemma result_context_done r namespace revision id fp context : result_context r namespace revision id fp = inr context →
  authority_identifier namespace = true ∧ context_schema_version context = 2.
Proof. unfold result_context. intros [? (c & [_ ->]%validated_done & [= <-])%res_bind_done]%requires_done. done. Qed.
Lemma sealed_receipt r nonce id fp result revision namespace context (envelope : SessionEnvelope C) :
  is_ok (make_receipt (mkReceipt id fp result)) = true → 0 < revision →
  result_context r namespace revision id fp = inr context →
  encrypt cipher nonce (receipt_to_bytes (mkReceipt id fp result)) context = inr envelope →
  receipt_ok r (mkOperation id fp revision namespace envelope) ∧
  operation_result_from_row cipher r (mkOperation id fp revision namespace envelope) id fp = inr result.
Proof.
  intros Hr Hrev Hctx Henc. pose proof (result_context_done _ _ _ _ _ _ Hctx) as [Hns Hsch].
  pose proof Hr as Hr0. unfold make_receipt, validated in Hr0. cbn [rp_operation_id rp_request_fingerprint] in Hr0.
  destruct (authority_identifier id) eqn:Hid; [|done]. destruct (hex64 fp) eqn:Hfp; [|done].
  assert (operation_result_from_row cipher r (mkOperation id fp revision namespace envelope) id fp = inr result) as Hres.
  { unfold operation_result_from_row. cbn [or_result_envelope or_committed_checkpoint_namespace or_committed_revision].
    rewrite (encrypt_schema _ _ _ _ Henc), Hsch, Hns, (proj2 (Z.ltb_lt 0 revision) Hrev). cbn [negb andb Z.eqb Pos.eqb SESSION_OPERATION_RESULT_SCHEMA_VERSION].
    rewrite Hctx. change (inr context ≫= ?k) with (k context). cbv beta. rewrite (opens _ _ _ _ Henc), receipt_round_trip by done.
    cbn. by rewrite !String.eqb_refl. }
  split; [|done]. exists result. split; [done|]. unfold operation_evidence_from_row.
  cbn [or_operation_id or_request_fingerprint or_committed_revision or_committed_checkpoint_namespace].
  rewrite Hid, Hns, Hres, Hfp, (proj2 (Z.leb_le 1 revision)) by lia. done.
Qed.

(** ** Generations *)
Lemma keys_namespaces l : generation_keys l = true → NoDup (gr_checkpoint_namespace <$> l).
Proof. unfold generation_keys. intros Hk. by bools. Qed.
Lemma moved_namespaces f s l : gr_checkpoint_namespace <$> moved f s l = gr_checkpoint_namespace <$> l.
Proof. unfold moved. rewrite <-list_fmap_compose. apply list_fmap_ext. intros i g _. cbn. by destruct (f g). Qed.
Lemma filter_one {A B} (key : A → B) (f : A → bool) l x : NoDup (key <$> l) → x ∈ l → f x = true →
  (∀ y, f y = true → key y = key x) → List.filter f l = [x].
Proof.
  intros Hnd Hin Hfx Hkey. induction l as [|y l IH]; [by apply not_elem_of_nil in Hin|].
  rewrite fmap_cons in Hnd. apply NoDup_cons in Hnd as [Hn Hnd]. cbn. apply elem_of_cons in Hin as [->|Hin].
  - rewrite Hfx. f_equal. assert (∀ z, z ∈ l → f z = false) as Hl.
    { intros z Hz. destruct (f z) eqn:Hf; [|done]. destruct Hn. rewrite <-(Hkey z Hf). apply list_elem_of_fmap. by exists z. }
    clear -Hl. induction l as [|z l IH]; [done|]. cbn. rewrite (Hl z) by left. apply IH. intros. apply Hl. by right.
  - destruct (f y) eqn:Hf; [|by apply IH]. destruct Hn. rewrite (Hkey y Hf). apply list_elem_of_fmap. by exists x.
Qed.
Lemma filter_moved_other f s s' l : s ≠ s' → (∀ g, f g = true → gr_state g ≠ s') →
  List.filter (in_state s') (moved f s l) = List.filter (in_state s') l.
Proof.
  intros Hs Hf. induction l as [|g l IH]; [done|]. cbn [moved list_fmap fmap List.filter]. fold (moved f s l).
  destruct (f g) eqn:Hg; cbn [List.filter].
  - assert (in_state s' (set_state s g) = false) as -> by (by apply bool_decide_eq_false_2).
    assert (in_state s' g = false) as -> by (by apply bool_decide_eq_false_2, Hf). done.
  - by rewrite IH.
Qed.
Lemma filter_moved_to f s l : (∀ g, f g = true → gr_state g ≠ s) → List.filter (in_state s) l = [] →
  List.filter (in_state s) (moved f s l) = set_state s <$> List.filter f l.
Proof.
  intros Hf. induction l as [|g l IH]; [done|]. cbn [moved list_fmap fmap List.filter]. fold (moved f s l).
  destruct (in_state s g) eqn:Hg; [done|]. intros Hl. destruct (f g) eqn:Hfg; cbn [List.filter].
  - assert (in_state s (set_state s g) = true) as -> by (by apply bool_decide_eq_true_2). cbn. f_equal. by apply IH.
  - rewrite Hg. by apply IH.
Qed.
Lemma filter_retired (l : list GenerationRow) g : NoDup (gr_checkpoint_namespace <$> l) → List.filter (in_state gs_current) l = [g] →
  List.filter (in_state gs_current) (moved (at_namespace (gr_checkpoint_namespace g) gs_current) gs_retired l) = [].
Proof.
  intros Hnd Hg. assert (∀ x, x ∈ l → gr_state x = gs_current → x = g) as Hone.
  { intros x Hx Hs. assert (x ∈ List.filter (in_state gs_current) l) as Hin.
    { apply list_elem_of_In, filter_In. split; [by apply list_elem_of_In|]. unfold in_state. by rewrite bool_decide_eq_true_2. }
    rewrite Hg in Hin. by apply list_elem_of_singleton in Hin. }
  clear Hg Hnd. induction l as [|x l IH]; [done|]. cbn [moved list_fmap fmap List.filter]. fold (moved (at_namespace (gr_checkpoint_namespace g) gs_current) gs_retired l).
  unfold at_namespace at 1. destruct (in_state gs_current x) eqn:Hx.
  - unfold in_state in Hx. bools. rewrite (Hone x) by first [done|left]. rewrite String.eqb_refl. cbn. apply IH. intros y Hy Hs. apply Hone; [by right|done].
  - rewrite andb_false_r. cbn [List.filter]. rewrite Hx. apply IH. intros y Hy Hs. apply Hone; [by right|done].
Qed.

(** ** What holds of every session *)
Definition scoped (c : SessionContract) (g : GenerationRow) : CheckpointGeneration :=
  mkCheckpointGeneration (ct_tenant_id c) (ct_session c) (ct_deployment_id c) (ct_graph_contract c) g.
Definition row_ok (c : SessionContract) (g : GenerationRow) : Prop := make_generation digest c g = inr (scoped c g).
Record entry_ok e : Prop := {
  ok_valid : record_valid (en_row e) = true;
  ok_checks : session_checks (en_row e) = true;
  (** the inventory parses, has its keys, and while the session is open names its current generation *)
  ok_rows : Forall (row_ok (sr_contract (en_row e))) (en_generations e);
  ok_keys : generation_keys (en_generations e) = true;
  ok_current : open_lifecycle (sr_lifecycle (en_row e)) → current_matches e;
  (** a pending generation is the next one, allocated at this revision for the marked retirement *)
  ok_pending : open_lifecycle (sr_lifecycle (en_row e)) → ∀ g, g ∈ en_generations e → gr_state g = gs_pending →
    gr_fencing_generation g = sr_fencing_generation (en_row e) ∧
    gr_principal_generation g = sr_principal_generation (en_row e) + 1 ∧
    gr_source_revision g = Some (sr_session_revision (en_row e)) ∧ sr_lifecycle (en_row e) = ACTIVE ∧
    ∃ payload, restore_payload cipher (en_row e) = inr payload ∧ dp_principal_retirement payload = gr_transition_id g;
  (** the receipts are the revisions since the session was registered, one operation each *)
  ok_log : ∃ start, 0 ≤ start ≤ sr_session_revision (en_row e) ∧
    or_committed_revision <$> en_operations e = seqZ (start + 1) (sr_session_revision (en_row e) - start);
  ok_ids : NoDup (or_operation_id <$> en_operations e);
  ok_receipts : Forall (receipt_ok (en_row e)) (en_operations e);
  (** the payload opens while the session is open or closing, and nothing is kept once it is closed *)
  ok_restores : sr_lifecycle (en_row e) ≠ CLOSED → ∃ p, payload_valid p = true ∧ restore_payload cipher (en_row e) = inr p;
  ok_closed : sr_lifecycle (en_row e) = CLOSED →
    sr_envelope (en_row e) = None ∧ sr_lease_owner_id (en_row e) = None ∧
    en_generations e = [] ∧ en_operations e = [] ∧ en_manifests e = [];
  (** a manifest is of a generation of the inventory *)
  ok_manifests : ∀ m, m ∈ en_manifests e → m.1 ∈ gr_checkpoint_namespace <$> en_generations e;
  ok_nonempty : sr_lifecycle (en_row e) ≠ CLOSED → en_generations e ≠ [] }.

Lemma row_change e f : entry_ok e → let r' := f (en_row e) in
  sr_contract r' = sr_contract (en_row e) → sr_checkpoint_namespace r' = sr_checkpoint_namespace (en_row e) →
  sr_session_revision r' = sr_session_revision (en_row e) → sr_envelope r' = sr_envelope (en_row e) →
  sr_lifecycle (en_row e) ≠ CLOSED → sr_lifecycle r' ≠ CLOSED → session_checks r' = true → record_valid r' = true →
  (open_lifecycle (sr_lifecycle r') → open_lifecycle (sr_lifecycle (en_row e)) ∧
     sr_fencing_generation r' = sr_fencing_generation (en_row e) ∧
     sr_principal_generation r' = sr_principal_generation (en_row e) ∧
     (sr_lifecycle (en_row e) = ACTIVE → sr_lifecycle r' = ACTIVE)) →
  entry_ok (with_row f e).
Proof.
  intros [Hv Hc Hrows Hkeys Hcur Hpend Hlog Hids Hrec Hres Hcl Hman Hne] r' H1 H2 H3 H4 Hopen Hopen' Hc' Hv' Hl.
  pose proof (restore_payload_ext (en_row e) r' H1 H2 H3 H4) as Hext.
  split; cbn [with_row en_row en_generations en_operations en_manifests]; fold r'; try done.
  - by rewrite H1.
  - intros (Ho & Hf & Hp & _)%Hl. destruct (Hcur Ho) as (g & ? & ? & ? & ?). exists g.
    cbn [with_row en_row en_generations]. fold r'. rewrite H2, Hf, Hp. by split_and!.
  - intros (Ho & Hf & Hp & Ha)%Hl g Hg Hs. destruct (Hpend Ho g Hg Hs) as (? & ? & ? & ? & ?).
    rewrite Hf, Hp, H3, Hext. split_and!; try done. by apply Ha.
  - by rewrite H3.
  - eapply Forall_impl; [done|]. intros o. by apply receipt_ext.
  - intros _. rewrite Hext. by apply Hres.
  - intros _. by apply Hne.
Qed.
Lemma acts_open a e : acts a e → open_lifecycle (sr_lifecycle (en_row e)).
Proof. intros (now & _ & Hl & _). done. Qed.
Lemma open_not_closed l : open_lifecycle l → l ≠ CLOSED.
Proof. by intros [->| ->]. Qed.
Lemma scoped_state c s g : row_ok c g → row_ok c (set_state s g).
Proof.
  unfold row_ok, make_generation. cbn. intros Hg. apply requires_done in Hg as [Ha Hg]. apply requires_done in Hg as [Hb _].
  by rewrite Ha, Hb.
Qed.
Lemma moved_rows c f s l : Forall (row_ok c) l → Forall (row_ok c) (moved f s l).
Proof.
  intros Hl. unfold moved. rewrite Forall_fmap. eapply Forall_impl; [exact Hl|]. intros g Hg. cbn. destruct (f g); [by apply scoped_state|done].
Qed.
Lemma moved_in f s l g : g ∈ moved f s l → ∃ g0, g0 ∈ l ∧ g = (if f g0 then set_state s g0 else g0).
Proof. unfold moved. intros (g0 & -> & Hg)%list_elem_of_fmap. eauto. Qed.

(** Retired or deleted generations change nothing else. *)
Lemma moved_ok e f s : entry_ok e → (s = gs_deleted ∨ s = gs_retired) →
  (open_lifecycle (sr_lifecycle (en_row e)) → ∀ g, f g = true → gr_state g ≠ gs_current) →
  sr_lifecycle (en_row e) ≠ CLOSED → generation_keys (moved f s (en_generations e)) = true →
  entry_ok (with_generations (moved f s (en_generations e)) e).
Proof.
  intros [Hv Hc Hrows Hkeys Hcur Hpend Hlog Hids Hrec Hres Hcl Hman Hne] Hs Hf Hopen Hk.
  split; cbn [with_generations en_row en_generations en_operations en_manifests]; try done.
  - by apply moved_rows.
  - intros Ho. destruct (Hcur Ho) as (g & Hg & ? & ? & ?). exists g. cbn. split_and!; try done.
    rewrite filter_moved_other; [done|by destruct Hs as [->| ->]|by apply Hf].
  - intros Ho g (g0 & Hg0 & ->)%moved_in Hst. destruct (f g0); [by destruct Hs as [->| ->]|]. by apply Hpend.
  - by rewrite moved_namespaces.
  - intros Hl. specialize (Hne Hl). by destruct (en_generations e).
Qed.

Lemma valid_after r r' : record_valid r = true → session_checks r' = true → sr_contract r' = sr_contract r →
  sr_checkpoint_namespace r' = sr_checkpoint_namespace r →
  (sr_lease_owner_id r' = sr_lease_owner_id r ∨ sr_lease_owner_id r' = None) →
  sr_close_operation_id r' = sr_close_operation_id r →
  (sr_lifecycle r' = sr_lifecycle r ∨ sr_lifecycle r' = CLOSED ∨ open_lifecycle (sr_lifecycle r)) → sr_lifecycle r' ≠ CLOSING ∨ sr_lifecycle r = CLOSING →
  record_valid r' = true.
Proof.
  intros [H1 H2 H3 H4 H5 H6]%record_valid_ids Hc Hct Hns Ho Hop Hl Hcl. apply record_valid_checks; [done|].
  split; rewrite ?Hct, ?Hns, ?Hop; try done.
  - by destruct Ho as [->| ->].
  - intros ?. destruct Hcl as [?|?]; [done|by apply H5].
  - intros Hopen. apply H6. destruct Hl as [<-|[Hl|Hl]]; [done| |done]. rewrite Hl in Hopen. by destruct Hopen.
Qed.

Lemma activate_ok a now e : entry_ok e → acts a e → sr_lifecycle (en_row e) = OPENING →
  session_checks (activated now (en_row e)) = true → entry_ok (with_row (activated now) e).
Proof.
  intros He Ha Hl Hc. apply row_change; try done; [by rewrite Hl| |].
  - eapply valid_after; [by apply He|done..|by left|done|right; right; by left|by left].
  - intros _. split_and!; try done. by left.
Qed.
Lemma extend_ok t now e : entry_ok e → sr_lifecycle (en_row e) ≠ CLOSED → session_checks (lease_extended t now (en_row e)) = true →
  entry_ok (with_row (lease_extended t now) e).
Proof.
  intros He Hl Hc. apply row_change; try done.
  - eapply valid_after; [by apply He|done..|by left|done|by left|]. destruct (decide (sr_lifecycle (en_row e) = CLOSING)); auto.
Qed.
Lemma take_close_ok owner operation t now e : entry_ok e → sr_lifecycle (en_row e) ≠ CLOSED →
  session_checks (close_leased owner operation t now (en_row e)) = true →
  record_valid (close_leased owner operation t now (en_row e)) = true → entry_ok (with_row (close_leased owner operation t now) e).
Proof. intros He Hl Hc Hv. apply row_change; try done. by intros [?|?]. Qed.

Lemma seqZ_snoc start n : 0 ≤ n → seqZ start (n + 1) = seqZ start n ++ [start + n].
Proof. intros. rewrite seqZ_app by lia. f_equal. Qed.

Lemma publish_ok p now nonce nonce' context context' envelope envelope' e (r := en_row e) (next := sr_session_revision r + 1) :
  entry_ok e → open_lifecycle (sr_lifecycle r) → pending_in (en_generations e) = false →
  payload_valid (pu_payload p) = true → pu_operation_id p ∉ (or_operation_id <$> en_operations e) →
  projection_context r (sr_checkpoint_namespace r) next = inr context →
  encrypt cipher nonce (payload_to_bytes (pu_payload p)) context = inr envelope →
  is_ok (make_receipt (mkReceipt (pu_operation_id p) (pu_request_fingerprint p) (pu_operation_result p))) = true →
  result_context r (sr_checkpoint_namespace r) next (pu_operation_id p) (pu_request_fingerprint p) = inr context' →
  encrypt cipher nonce' (receipt_to_bytes (mkReceipt (pu_operation_id p) (pu_request_fingerprint p) (pu_operation_result p)))
    context' = inr envelope' →
  session_checks (published next envelope now r) = true →
  entry_ok (mkEntry (published next envelope now r) (en_generations e)
     (en_operations e ++ [mkOperation (pu_operation_id p) (pu_request_fingerprint p) next (sr_checkpoint_namespace r) envelope'])
     (en_manifests e)).
Proof.
  intros [Hv Hc Hrows Hkeys Hcur Hpend Hlog Hids Hrec Hres Hcl Hman Hne] Ho Hnp Hp Hnew Hctx Henc Hr Hctx' Henc' Hc'.
  assert (0 ≤ sr_session_revision r) as Hrev by (destruct Hlog as (start & ? & _); subst r; lia).
  split; cbn [en_row en_generations en_operations en_manifests]; try done.
  - eapply valid_after; [exact Hv|done..|by left|done|by left|]. left. cbn. by destruct Ho as [->| ->].
  - intros Ho' g Hg Hs. exfalso. unfold pending_in in Hnp.
    assert (existsb (in_state gs_pending) (en_generations e) = true) as Hex; [|by rewrite Hex in Hnp].
    apply existsb_exists. exists g. split; [by apply list_elem_of_In|]. unfold in_state. by rewrite bool_decide_eq_true_2.
  - destruct Hlog as (start & Hs & Hl). exists start. subst next r. cbn [published sr_session_revision]. split; [lia|].
    rewrite fmap_app, Hl. generalize dependent (sr_session_revision (en_row e)). intros n **.
    replace (n + 1 - start) with (n - start + 1) by lia. rewrite seqZ_snoc by lia.
    by replace (start + 1 + (n - start)) with (n + 1) by lia.
  - rewrite fmap_app. apply NoDup_app. split_and!; [done| |apply NoDup_singleton]. intros x Hx Hx'%list_elem_of_singleton.
    cbn in Hx'. by subst x.
  - apply Forall_app. split; [eapply Forall_impl; [exact Hrec|]; intros o; by apply receipt_ext|].
    apply Forall_singleton. apply (receipt_ext r); [done|]. eapply sealed_receipt; try done. subst next. lia.
  - intros _. exists (pu_payload p). split; [done|]. by eapply (sealed_restores r).
  - cbn. intros Hx. by destruct Ho as [Ho|Ho]; rewrite Ho in Hx.
Qed.

Lemma allocate_ok transition payload e : entry_ok e → sr_lifecycle (en_row e) = ACTIVE →
  restore_payload cipher (en_row e) = inr payload → dp_principal_retirement payload = Some transition →
  row_ok (sr_contract (en_row e)) (next_generation digest transition (en_row e)) →
  pending_in (en_generations e) = false →
  generation_keys (en_generations e ++ [next_generation digest transition (en_row e)]) = true →
  entry_ok (with_generations (en_generations e ++ [next_generation digest transition (en_row e)]) e).
Proof.
  intros [Hv Hc Hrows Hkeys Hcur Hpend Hlog Hids Hrec Hres Hcl Hman Hne] Hl Hp Hm Hg Hnp Hk.
  split; cbn [with_generations en_row en_generations en_operations en_manifests]; try done.
  - apply Forall_app. split; [done|]. by apply Forall_singleton.
  - intros Ho. destruct (Hcur Ho) as (g & Hg' & ? & ? & ?). exists g. cbn. split_and!; try done.
    rewrite List.filter_app, Hg'. done.
  - intros Ho g [Hin|Hin%list_elem_of_singleton]%elem_of_app Hs; [by apply Hpend|]. subst g. cbn. split_and!; try done. by exists payload.
  - intros Hx. by rewrite Hl in Hx.
  - intros m Hm'%Hman. rewrite fmap_app. apply elem_of_app. by left.
  - intros _. by destruct (en_generations e).
Qed.

Lemma switch_ok source destination payload nonce context envelope now e (r := en_row e) :
  entry_ok e → sr_lifecycle r = ACTIVE → current_matches e →
  source ∈ en_generations e → destination ∈ en_generations e →
  gr_state source = gs_current → gr_state destination = gs_pending →
  gr_checkpoint_namespace source = sr_checkpoint_namespace r →
  gr_fencing_generation destination = gr_fencing_generation source →
  restore_payload cipher r = inr payload →
  projection_context r (gr_checkpoint_namespace destination) (sr_session_revision r) = inr context →
  encrypt cipher nonce (payload_to_bytes payload) context = inr envelope →
  let r' := switched (gr_checkpoint_namespace destination) (gr_principal_generation destination) envelope now r in
  let gens := moved (at_namespace (gr_checkpoint_namespace destination) gs_pending) gs_current
                (moved (at_namespace (gr_checkpoint_namespace source) gs_current) gs_retired (en_generations e)) in
  session_checks r' = true → record_valid r' = true → generation_keys gens = true →
  entry_ok (mkEntry r' gens (en_operations e) (en_manifests e)) ∧ restore_payload cipher r' = inr payload.
Proof.
  intros [Hv Hc Hrows Hkeys Hcur Hpend Hlog Hids Hrec Hres Hcl Hman Hne] Hl (g & Hg & Hgns & Hgf & Hgp) Hsin Hdin Hs Hd Hsns Hfence Hpay Hctx Henc
    r' gens Hc' Hv' Hk'.
  pose proof (keys_namespaces _ Hkeys) as Hnd.
  assert (source = g) as ->.
  { assert (source ∈ List.filter (in_state gs_current) (en_generations e)) as Hin.
    { apply list_elem_of_In, filter_In. split; [by apply list_elem_of_In|]. unfold in_state. by rewrite bool_decide_eq_true_2. }
    rewrite Hg in Hin. by apply list_elem_of_singleton in Hin. }
  pose proof (filter_retired _ _ Hnd Hg) as Hnone. set (l1 := moved (at_namespace (gr_checkpoint_namespace g) gs_current) gs_retired (en_generations e)) in *.
  assert (destination ∈ l1) as Hdin1.
  { subst l1. unfold moved. apply list_elem_of_fmap. exists destination. split; [|done]. unfold at_namespace, in_state. rewrite Hd.
    by rewrite andb_false_r. }
  assert (List.filter (in_state gs_current) gens = [set_state gs_current destination]) as Hone.
  { subst gens. rewrite filter_moved_to; [|by intros x Hx; unfold at_namespace, in_state in Hx; bools; congruence|done].
    rewrite (filter_one gr_checkpoint_namespace _ _ destination); [done|by subst l1; rewrite moved_namespaces|done| |].
    - unfold at_namespace, in_state. by rewrite String.eqb_refl, Hd.
    - intros y Hy. unfold at_namespace in Hy. bools. by apply String.eqb_eq. }
  assert (∃ p, payload_valid p = true ∧ restore_payload cipher r = inr p) as (p & Hpv & Hp) by (apply Hres; subst r; by rewrite Hl).
  assert (p = payload) as -> by congruence.
  assert (restore_payload cipher r' = inr payload) as Hr' by (by eapply (sealed_restores r)).
  split; [|done]. split; cbn [en_row en_generations en_operations en_manifests]; try done.
  - by do 2 apply moved_rows.
  - intros _. exists (set_state gs_current destination). subst r. split_and!; [done..|cbn; congruence|done].
  - intros _ x Hx Hst. exfalso. subst gens. apply moved_in in Hx as (x1 & Hx1 & ->).
    destruct (at_namespace (gr_checkpoint_namespace destination) gs_pending x1) eqn:Hx'; [done|].
    apply moved_in in Hx1 as (x0 & Hx0 & ->). destruct (at_namespace (gr_checkpoint_namespace g) gs_current x0); [done|].
    (* the only pending generation of an open session is the next one *)
    assert (∀ y, y ∈ en_generations e → gr_state y = gs_pending →
      (gr_fencing_generation y, gr_principal_generation y) = (sr_fencing_generation r, sr_principal_generation r + 1)) as Hy.
    { intros y Hy Hys. destruct (Hpend ltac:(by right) y Hy Hys) as (-> & -> & _). done. }
    assert (NoDup ((λ g, (gr_fencing_generation g, gr_principal_generation g)) <$> en_generations e)) as Hnd2
      by (unfold generation_keys in Hkeys; by bools).
    assert (x0 = destination) as ->.
    { apply list_elem_of_lookup in Hx0 as [i Hi]. apply list_elem_of_lookup in Hdin as [j Hj].
      pose proof (Hy x0 ltac:(by eapply list_elem_of_lookup_2) Hst) as E1. pose proof (Hy destination ltac:(by eapply list_elem_of_lookup_2) Hd) as E2.
      assert (i = j) as ->; [|congruence]. apply (NoDup_lookup _ i j (sr_fencing_generation r, sr_principal_generation r + 1) Hnd2);
        rewrite list_lookup_fmap; [rewrite Hi|rewrite Hj]; cbn; by rewrite ?E1, ?E2. }
    unfold at_namespace, in_state in Hx'. by rewrite String.eqb_refl, Hd in Hx'.
  - intros _. by exists payload.
  - cbn. intros Hx. subst r. by rewrite Hl in Hx.
  - unfold gens, l1. by rewrite !moved_namespaces.
  - intros _. unfold gens, l1. by destruct (en_generations e).
Qed.

Lemma finalize_ok expires now e : entry_ok e → sr_lifecycle (en_row e) = CLOSING → session_checks (tombstone expires now (en_row e)) = true →
  entry_ok (mkEntry (tombstone expires now (en_row e)) [] [] []).
Proof.
  intros [Hv Hc Hrows Hkeys Hcur Hpend Hlog Hids Hrec Hres Hcl Hman Hne] Hl Hc'.
  split; cbn [en_row en_generations en_operations en_manifests]; try done.
  - eapply valid_after; [exact Hv|done..|by right|done|by right; left|by left].
  - cbn. by intros [?|?].
  - cbn. by intros [?|?].
  - destruct Hlog as (start & ? & _). exists (sr_session_revision (en_row e)). cbn. split; [lia|]. by rewrite Z.sub_diag.
  - constructor.
  - by intros m ?%not_elem_of_nil.
Qed.

Lemma step_entry_ok who e e' : entry_ok e → session_step digest cipher who e e' → entry_ok e'.
Proof.
  intros He Hs. destruct Hs.
  - by eapply activate_ok.
  - apply extend_ok; [done| |done]. by eapply open_not_closed, acts_open.
  - eapply publish_ok; try done. subst r. by eapply acts_open.
  - by eapply allocate_ok.
  - by eapply switch_ok.
  - apply moved_ok; [done|by left| |by eapply open_not_closed, acts_open|done].
    intros _ g Hg Hst. unfold at_namespace, in_state in Hg. bools. congruence.
  - by apply take_close_ok.
  - apply extend_ok; [done| |done]. congruence.
  - match goal with Hx : close_held _ _ _ |- _ => destruct Hx as (Hcl & _) end. apply moved_ok; [done|by left| |congruence|done]. rewrite Hcl. by intros [?|?].
  - match goal with Hx : close_held _ _ _ |- _ => destruct Hx as (Hcl & _) end. by apply finalize_ok.
Qed.

(** ** Databases *)
Definition db_ok db : Prop := ∀ k e, session_of db k = Some e → key_of (sr_contract (en_row e)) = k ∧ entry_ok e.
Lemma db_ok_keyed db : db_ok db → keyed db.
Proof. intros Hdb k e He. by destruct (Hdb k e He). Qed.
Lemma db_ok_set db k e : db_ok db → key_of (sr_contract (en_row e)) = k → entry_ok e → db_ok (set_entry k e db).
Proof. intros Hdb Hk He k' e'. rewrite session_set. case_decide; [intros [= <-]; by subst|apply Hdb]. Qed.
Lemma step_contract who e e' : session_step digest cipher who e e' → sr_contract (en_row e') = sr_contract (en_row e).
Proof. by destruct 1. Qed.
Lemma steps_ok who db db' : db_ok db → steps_as digest cipher who db db' → db_ok db'.
Proof.
  intros Hdb Hs. destruct (Hs (db_ok_keyed _ Hdb)) as [->|(k & e & e' & He & Hstep & ->)]; [done|].
  destruct (Hdb k e He) as [Hk Hok]. apply db_ok_set; [done|by rewrite (step_contract _ _ _ Hstep)|by eapply step_entry_ok].
Qed.

Lemma substring_all s : String.substring 0 (String.length s) s = s.
Proof. induction s as [|c s IH]; [done|]. cbn. by rewrite IH. Qed.
Lemma storage_identifier s : storage_thread_format s = true → authority_identifier s = true.
Proof.
  unfold storage_thread_format. intros Hs. apply andb_true_iff in Hs as [Hp Hh]. destruct s as [|a [|b [|c s]]]; cbn [starts_with] in Hp; bools; try done.
  cbn [String.length String.substring] in Hh. rewrite Nat.sub_succ, Nat.sub_succ, Nat.sub_succ, Nat.sub_0_r, substring_all in Hh.
  repeat match goal with Hx : Ascii.eqb _ _ = true |- _ => apply Ascii.eqb_eq in Hx as <- end.
  unfold hex64 in Hh. apply andb_true_iff in Hh as [_ Hh].
  assert (sforall (λ c, negb (is_space c)) s = true) as Hs.
  { revert Hh. clear. induction s as [|c s IH]; [done|]. cbn [sforall]. intros Hx. apply andb_true_iff in Hx as [Hc Hx]. rewrite (IH Hx).
    rewrite andb_true_r. revert Hc. clear. destruct c as [[] [] [] [] [] [] [] []]; vm_compute; done. }
  unfold authority_identifier. cbn. by rewrite Hs.
Qed.

(** A new session: no receipt yet, and the payload it was registered with. *)
Definition registered (c : SessionContract) (payload : DurableSessionPayload) (revision : Z) db db' : Prop :=
  session_of db (key_of c) = None ∧ ∃ e, entry_ok e ∧ sr_contract (en_row e) = c ∧ db' = set_entry (key_of c) e db ∧
    en_operations e = [] ∧ restore_payload cipher (en_row e) = inr payload ∧ sr_session_revision (en_row e) = revision.
Lemma register_touches env registration lease payload :
  contract_valid (rg_contract registration) = true → authority_identifier (lr_lease_owner_id lease) = true →
  payload_valid payload = true →
  touches (registered (rg_contract registration) payload (rg_session_revision registration)) (register_and_acquire digest cipher env registration lease payload).
Proof.
  intros Hc Ho Hp. unfold register_and_acquire. cbv zeta. apply touches_post; [|intros; apply reads_lift].
  apply touches_translating, touches_lift. intros for_ Hf. apply touches_lift. intros retention Hr. apply touches_require.
  intros Hlt. apply touches_lift. intros sc Hsc. pose proof Hsc as [Hscv ->]%validated_done. apply touches_lift. intros envelope Henv.
  apply touches_committed. intros db db' x Hrun.
  apply M_bind_done in Hrun as (db1 & u & Hins & Hrun). unfold insert_session in Hins. mstep Hins. mstep Hins. mstep Hins. mstep Hins.
  cbn in Hins. injection Hins as <- _.
  apply M_bind_done in Hrun as (db1 & u' & (e & He & Hchk & Hkeys & ->)%insert_generation_done & Hrun). mstep Hrun.
  rewrite session_set_eq in He. injection He as <-. rewrite set_set. right.
  set (r := mkRecord _ _ _ _ _ _ _ _ _ _ _ _ _) in *. set (g := mkGeneration _ _ _ _ _ _ _) in *.
  cbn [with_generations en_row en_generations en_operations en_manifests app] in *.
  split; [by destruct (session_of db _)|]. bools.
  assert (restore_payload cipher r = inr payload) as Hrestore.
  { eapply (sealed_restores r); try done. unfold projection_context. cbn [r sr_contract sr_checkpoint_namespace sr_session_revision].
    match goal with Hns : authority_identifier (sc_checkpoint_namespace _) = true |- _ => cbn in Hns; rewrite Hns end.
    change (requires true ?c ?m ;; ?k) with k. rewrite Hsc. done. }
  exists (mkEntry r [g] [] []). split_and!; [|done..].
  split; cbn [en_row en_generations en_operations en_manifests]; try done.
  - apply record_valid_checks; [done|]. by split.
  - apply Forall_singleton. unfold row_ok, make_generation. cbn [g gr_checkpoint_namespace gr_storage_thread_id gr_fencing_generation gr_principal_generation gr_transition_id gr_source_revision].
    match goal with Hns : authority_identifier (sc_checkpoint_namespace _) = true |- _ => cbn in Hns; rewrite Hns end.
    unfold generation_checks in Hchk. cbn [g gr_checkpoint_namespace gr_storage_thread_id gr_fencing_generation gr_principal_generation gr_transition_id gr_source_revision] in Hchk.
    bools. match goal with Hs : storage_thread_format _ = true |- _ => rewrite (storage_identifier _ Hs) end.
    rewrite (proj2 (Z.leb_le 0 (rg_principal_generation registration))) by done. cbn. by rewrite String.eqb_refl.
  - intros _. by exists g.
  - intros _ g' ->%list_elem_of_singleton Hst. done.
  - exists (rg_session_revision registration). cbn. split; [|by rewrite Z.sub_diag].
    match goal with Hs : session_checks r = true |- _ => unfold session_checks in Hs end. bools. cbn in *. bools. lia.
  - constructor.
  - intros _. by exists payload.
  - by intros m ?%not_elem_of_nil.
Qed.

Definition unlisted db db' : Prop := ∃ expired, db' = mkDatabase (foldr delete (db_sessions db) expired) (db_checkpoints db).
Lemma purge_touches env tenant limit : touches unlisted (purge_closed_tombstones env tenant limit).
Proof.
  unfold purge_closed_tombstones. apply touches_require. intros _. apply touches_require. intros _. apply touches_translating, touches_committed.
  intros db db' x Hrun. mstep Hrun. apply M_bind_done in Hrun as (db1 & u & [= <- _] & Hrun). mstep Hrun. right. by eexists.
Qed.
Lemma lookup_purged (m : gmap (string * string) (Entry C)) l k e : foldr delete m l !! k = Some e → m !! k = Some e.
Proof.
  induction l as [|k' l IH]; cbn; [done|]. destruct (decide (k' = k)) as [->|]; [by rewrite lookup_delete_eq|].
  by rewrite lookup_delete_ne.
Qed.
Lemma unlisted_ok db db' : db_ok db → unlisted db db' → db_ok db'.
Proof. intros Hdb (l & ->) k e He. apply Hdb. unfold session_of in *. cbn in *. by eapply lookup_purged. Qed.

(** The checkpoint rows and manifests of a session that is not closed. *)
Definition data_plane_rows db db' : Prop := ∃ k e l t, session_of db k = Some e ∧ en_generations e ≠ [] ∧
  (∀ m, m ∈ l → m ∈ en_manifests e ∨ m.1 ∈ gr_checkpoint_namespace <$> en_generations e) ∧
  db' = mkDatabase (<[k := mkEntry (en_row e) (en_generations e) (en_operations e) l]> (db_sessions db)) t.
Lemma authorized_done env a thread op db db' g : authorized_generation digest env a thread op db = (db', inr g) →
  db' = db ∧ ∃ e, session_of db (key_of (cp_contract a)) = Some e ∧ data_plane_rejection a (tx_locked env) (en_row e) = None ∧
    cg_row g ∈ en_generations e ∧ gr_storage_thread_id (cg_row g) = thread.
Proof.
  unfold authorized_generation. cbv zeta. intros Hrun. mstep Hrun.
  destruct (session_of db _) as [e|] eqn:He; [|done]. destruct (data_plane_rejection _ _ _) eqn:Hd; [done|].
  apply M_lift_done in Hrun as ([x|] & Hl & Hrun); [|done].
  assert (cg_row x ∈ en_generations e ∧ gr_storage_thread_id (cg_row x) = thread) as [Hin Ht].
  { revert Hl. generalize (en_generations e) as l. induction l as [|g0 l IH]; [done|]. cbn.
    destruct (make_generation digest (cp_contract a) g0) as [|y] eqn:Hm; [done|]. apply make_generation_done in Hm as [-> _].
    destruct (String.eqb_spec (gr_storage_thread_id g0) thread) as [Ht|Ht].
    - intros [= <-]. split; [by left|done].
    - intros Hl. destruct (IH Hl) as [? ?]. split; [by right|done]. }
  assert (db' = db ∧ g = x) as [-> ->]; [|by split; [|exists e]].
  destruct op; [by mstep Hrun|destruct (_ || _)|destruct (_ && _)]; try done; by mstep Hrun.
Qed.
Lemma with_checkpoints_rows db k e f g : session_of db k = Some e → en_generations e ≠ [] →
  (∀ m, m ∈ f (en_manifests e) → m ∈ en_manifests e ∨ m.1 ∈ gr_checkpoint_namespace <$> en_generations e) →
  data_plane_rows db (with_checkpoints k f g db).
Proof. intros He Hg Hm. unfold with_checkpoints. rewrite He. by exists k, e, (f (en_manifests e)), (g (db_checkpoints db)). Qed.
Lemma nonempty_in {A} (x : A) l : x ∈ l → l ≠ [].
Proof. by intros Hx ->; apply not_elem_of_nil in Hx. Qed.
Lemma put_touches env a thread id : touches data_plane_rows (checkpoint_put digest env a thread id).
Proof.
  unfold checkpoint_put. apply touches_committed.
  intros db db' x (db1 & g & (-> & e & He & _ & Hin & _)%authorized_done & [= <- _])%M_bind_done. right.
  eapply with_checkpoints_rows; [done|by eapply nonempty_in|]. intros m. case_decide; [by left|].
  intros [->|?]%elem_of_cons; [right; cbn; by apply (list_elem_of_fmap_2 gr_checkpoint_namespace)|by left].
Qed.
Lemma delete_thread_touches env a thread : touches data_plane_rows (adelete_thread digest env a thread).
Proof.
  unfold adelete_thread. apply touches_committed.
  intros db db' x (db1 & g & (-> & e & He & _ & Hin & _)%authorized_done & [= <- _])%M_bind_done. right.
  eapply with_checkpoints_rows; [done|by eapply nonempty_in|]. intros m [Hm _]%list_elem_of_In%filter_In. left. by apply list_elem_of_In.
Qed.
Lemma manifests_ok e l : entry_ok e → sr_lifecycle (en_row e) ≠ CLOSED →
  (∀ m, m ∈ l → m ∈ en_manifests e ∨ m.1 ∈ gr_checkpoint_namespace <$> en_generations e) →
  entry_ok (mkEntry (en_row e) (en_generations e) (en_operations e) l).
Proof. intros [Hv Hc Hrows Hkeys Hcur Hpend Hlog Hids Hrec Hres Hcl Hman Hne] Hl Hm. split; try done. cbn. intros m [?%Hman|?]%Hm; done. Qed.
Lemma data_plane_ok db db' : db_ok db → data_plane_rows db db' → db_ok db'.
Proof.
  intros Hdb (k & e & l & t & He & Hg & Hm & ->). destruct (Hdb k e He) as [Hk Hok].
  change (db_ok (mkDatabase (db_sessions (set_entry k (mkEntry (en_row e) (en_generations e) (en_operations e) l) db)) t)).
  intros k' e' He'. apply (db_ok_set db k (mkEntry (en_row e) (en_generations e) (en_operations e) l)); try done.
  apply manifests_ok; [done| |done]. intros Hcl. by destruct (ok_closed _ Hok Hcl) as (_ & _ & ? & _).
Qed.

(** ** Calls *)
Inductive registry_call :=
  | call_register env (registration : SessionRegistration) (lease : SessionLeaseRequest) (payload : DurableSessionPayload)
  | call_activate env (a : SessionLeaseAuthority)
  | call_renew env (renewal : SessionLeaseRenewal)
  | call_publish env (p : SessionStatePublication)
  | call_begin_rotation env (a : SessionLeaseAuthority) (revision principal : Z) (transition : string)
  | call_switch env (a : SessionLeaseAuthority) (transition : string)
  | call_record_deletion env (a : SessionLeaseAuthority) (transition : string)
  | call_begin_close env (a : SessionLeaseAuthority) (request : SessionCloseRequest)
  | call_claim_expired env (candidate : ExpiredSessionCandidate) (request : SessionCloseRequest)
  | call_refresh_close env (a : SessionCloseAuthority) (duration : seconds)
  | call_close_deletion env (a : SessionCloseAuthority) (namespace : string)
  | call_finalize env (a : SessionCloseAuthority) (retention : seconds)
  | call_purge env (tenant : string) (limit : nat)
  | call_put env (a : CheckpointAuthority) (thread id : string)
  | call_delete_thread env (a : CheckpointAuthority) (thread : string).

Definition ran {A} (m : M DB A) db : DB * option exc :=
  match m db with (db', inl x) => (db', Some x) | (db', inr _) => (db', None) end.
Definition run_registry (call : registry_call) : DB → DB * option exc :=
  match call with
  | call_register env g l p => ran (register_and_acquire digest cipher env g l p)
  | call_activate env a => ran (activate env a)
  | call_renew env n => ran (renew env n)
  | call_publish env p => ran (publish_session cipher env p)
  | call_begin_rotation env a n m id => ran (begin_checkpoint_rotation digest cipher env a n m id)
  | call_switch env a id => ran (switch_checkpoint_generation digest cipher env a id)
  | call_record_deletion env a id => ran (record_checkpoint_deletion digest env a id)
  | call_begin_close env a request => ran (begin_close digest env a request)
  | call_claim_expired env c request => ran (claim_expired digest env c request)
  | call_refresh_close env a s => ran (refresh_close digest env a s)
  | call_close_deletion env a ns => ran (record_close_checkpoint_deletion digest env a ns)
  | call_finalize env a s => ran (finalize_close digest env a s)
  | call_purge env tenant n => ran (purge_closed_tombstones env tenant n)
  | call_put env a t id => ran (checkpoint_put digest env a t id)
  | call_delete_thread env a t => ran (adelete_thread digest env a t)
  end.
(** The arguments the request models admit. *)
Definition registry_call_valid (call : registry_call) : bool :=
  match call with
  | call_register _ g l p =>
      contract_valid (rg_contract g) && authority_identifier (lr_lease_owner_id l) && payload_valid p
  | call_publish _ p => payload_valid (pu_payload p)
  | _ => true
  end.
Definition run_all (calls : list registry_call) db : DB := foldl (λ db call, (run_registry call db).1) db calls.
Definition empty_database : DB := mkDatabase ∅ [].

Lemma ran_touches {A} P (m : M DB A) db : touches P m → (ran m db).1 = db ∨ P db (ran m db).1.
Proof. intros Hm. unfold ran. destruct (m db) as [db' [x|a]] eqn:E; exact (Hm _ _ _ E). Qed.
(** What a call does to the database. *)
Lemma run_registry_effect call db : registry_call_valid call = true →
  let db' := (run_registry call db).1 in
  db' = db ∨ (∃ who, steps_as digest cipher who db db') ∨ (∃ c payload n, registered c payload n db db') ∨ data_plane_rows db db' ∨
  (unlisted db db' ∧ ∃ env tenant n, call = call_purge env tenant n).
Proof.
  intros Hv. destruct call; cbn in Hv |- *.
  - bools. destruct (ran_touches _ _ db (register_touches env registration lease payload ltac:(done) ltac:(done) ltac:(done))); eauto 10.
  - destruct (ran_touches _ _ db (activate_touches digest cipher env a)); eauto 10.
  - destruct (ran_touches _ _ db (renew_touches digest cipher env renewal)); eauto 10.
  - destruct (ran_touches _ _ db (publish_touches digest cipher env p Hv)); eauto 10.
  - destruct (ran_touches _ _ db (begin_rotation_touches digest cipher env a revision principal transition)); eauto 10.
  - destruct (ran_touches _ _ db (switch_touches digest cipher env a transition)); eauto 10.
  - destruct (ran_touches _ _ db (deletion_touches digest cipher env a transition)); eauto 10.
  - destruct (ran_touches _ _ db (begin_close_touches digest cipher env a request)); eauto 10.
  - destruct (ran_touches _ _ db (claim_expired_touches digest cipher env candidate request)); eauto 10.
  - destruct (ran_touches _ _ db (refresh_close_touches digest cipher env a duration)) as [?|[?|?]]; eauto 10.
  - destruct (ran_touches _ _ db (close_delete_touches digest cipher env a namespace)); eauto 10.
  - destruct (ran_touches _ _ db (finalize_touches digest cipher env a retention)); eauto 10.
  - destruct (ran_touches _ _ db (purge_touches env tenant limit)); eauto 12.
  - destruct (ran_touches _ _ db (put_touches env a thread id)); eauto 10.
  - destruct (ran_touches _ _ db (delete_thread_touches env a thread)); eauto 10.
Qed.
Lemma run_registry_ok call db : registry_call_valid call = true → db_ok db → db_ok (run_registry call db).1.
Proof.
  intros Hv Hdb. destruct (run_registry_effect call db Hv) as [->|[(who & Hs)|[(c & payload & n & _ & e & He & <- & -> & _)|[Hd|[Hp _]]]]]; [done|..].
  - by eapply steps_ok.
  - by apply db_ok_set.
  - by eapply data_plane_ok.
  - by eapply unlisted_ok.
Qed.
Lemma run_all_ok calls db : Forall (λ call, registry_call_valid call = true) calls → db_ok db → db_ok (run_all calls db).
Proof.
  intros Hv. revert db. induction Hv as [|call calls Hc _ IH]; intros db Hdb; [done|]. cbn. by apply IH, run_registry_ok.
Qed.
Lemma empty_database_ok : db_ok empty_database.
Proof. done. Qed.
End invariants.
