(* ===== verification/RegistryLog.v ===== *)
(** * The session registry: what the log of a session says

    Every receipt a session holds is of a publication somebody made, and reads
    back as the result that publication carried; the payload of a session is
    the one of its last publication, or the one it was registered with. *)

From stdpp Require Import gmap.
From S2P Require Import Prelude PyText Money Receipts Cart OrderScope SessionState Confirmation Encryption Registry RegistryLaws RegistryInv.
Local Open Scope Z_scope.
Local Open Scope list_scope.

Section log.
Context {K C : Type} `{!Aead K C} `{!AeadLaws K C} `{!PayloadCodec} `{!PayloadCodecLaws}.
Context (digest : list (string * json_scalar) → string) (cipher : AesGcmSessionCipher K).
Notation DB := (Database C).
Implicit Types (db : DB) (env : tx_env) (e : Entry C) (calls : list registry_call).
Notation run := (run_registry digest cipher).
Notation runs := (run_all digest cipher).
Notation entry_ok := (entry_ok digest cipher).
Notation db_ok := (db_ok digest cipher).
Notation session_step := (session_step digest cipher).

(** What a call does to the database, and which calls publish and register. *)
Lemma run_origin call db : registry_call_valid call = true → let db' := (run call db).1 in
  db' = db ∨ (∃ who, steps_as digest cipher who db db' ∧ ∀ p, who ≠ publisher p) ∨
  (∃ env p, call = call_publish env p ∧ publishes digest cipher p db db') ∨
  (∃ env g l payload, call = call_register env g l payload ∧
     registered digest cipher (rg_contract g) payload (rg_session_revision g) db db') ∨
  data_plane_rows db db' ∨ unlisted db db'.
Proof.
  intros Hv. destruct call; cbn in Hv |- *.
  - bools. destruct (ran_touches _ _ db (register_touches digest cipher env registration lease payload ltac:(done) ltac:(done) ltac:(done))); eauto 12.
  - destruct (ran_touches _ _ db (activate_touches digest cipher env a)); eauto 10.
  - destruct (ran_touches _ _ db (renew_touches digest cipher env renewal)); eauto 10.
  - destruct (ran_touches _ _ db (publish_does digest cipher env p Hv)); eauto 10.
  - destruct (ran_touches _ _ db (begin_rotation_touches digest cipher env a revision principal transition)); eauto 10.
  - destruct (ran_touches _ _ db (switch_touches digest cipher env a transition)); eauto 10.
  - destruct (ran_touches _ _ db (deletion_touches digest cipher env a transition)); eauto 10.
  - destruct (ran_touches _ _ db (begin_close_touches digest cipher env a request)); eauto 10.
  - destruct (ran_touches _ _ db (claim_expired_touches digest cipher env candidate request)); eauto 10.
  - destruct (ran_touches _ _ db (refresh_close_touches digest cipher env a duration)) as [?|[?|?]]; eauto 10.
  - destruct (ran_touches _ _ db (close_delete_touches digest cipher env a namespace)); eauto 10.
  - destruct (ran_touches _ _ db (finalize_touches digest cipher env a retention)); eauto 10.
  - destruct (ran_touches _ _ db (purge_touches env tenant limit)); eauto 12.
  - destruct (ran_touches _ _ db (put_touches digest env a thread id)); eauto 10.
  - destruct (ran_touches _ _ db (delete_thread_touches digest env a thread)); eauto 10.
Qed.

(** ** The account of a session *)
(** The publication a receipt is of. *)
Definition published_by calls (k : string * string) e (w : OperationRow C) (p : SessionStatePublication) : Prop :=
  (∃ env, call_publish env p ∈ calls) ∧ key_of (la_contract (pu_lease p)) = k ∧
  or_operation_id w = pu_operation_id p ∧ or_request_fingerprint w = pu_request_fingerprint p ∧
  or_committed_revision w = pu_expected_revision p + 1 ∧
  operation_result_from_row cipher (en_row e) w (or_operation_id w) (or_request_fingerprint w) = inr (pu_operation_result p).
Record accounted calls (k : string * string) e : Prop := {
  ac_receipts : ∀ w, w ∈ en_operations e → ∃ p, published_by calls k e w p;
  ac_payload : sr_lifecycle (en_row e) ≠ CLOSED → ∃ payload, restore_payload cipher (en_row e) = inr payload ∧
    match last (en_operations e) with
    | Some w => ∃ p, published_by calls k e w p ∧ pu_payload p = payload ∧ sr_session_revision (en_row e) = pu_expected_revision p + 1
    | None => ∃ env g l, call_register env g l payload ∈ calls ∧ key_of (rg_contract g) = k ∧
        sr_session_revision (en_row e) = rg_session_revision g
    end }.
Lemma published_by_more calls calls' k e e' w p : (∀ call, call ∈ calls → call ∈ calls') → sr_contract (en_row e') = sr_contract (en_row e) →
  published_by calls k e w p → published_by calls' k e' w p.
Proof.
  intros Hsub Hc ((env & Hin) & ? & ? & ? & ? & Hres). split_and!; try done; [by exists env; apply Hsub|].
  revert Hres. unfold operation_result_from_row, result_context. by rewrite Hc.
Qed.
(** Nothing that counts changed. *)
Lemma accounted_same calls calls' k e e' : (∀ call, call ∈ calls → call ∈ calls') → sr_contract (en_row e') = sr_contract (en_row e) →
  en_operations e' = en_operations e → (sr_lifecycle (en_row e') ≠ CLOSED → sr_lifecycle (en_row e) ≠ CLOSED) →
  sr_session_revision (en_row e') = sr_session_revision (en_row e) → restore_payload cipher (en_row e') = restore_payload cipher (en_row e) →
  accounted calls k e → accounted calls' k e'.
Proof.
  intros Hsub Hc Hops Hl Hrev Hres [Hr Hp]. split; rewrite Hops.
  - intros w Hw. destruct (Hr w Hw) as (p & Hby). exists p. by eapply published_by_more.
  - intros Ho. rewrite Hres, Hrev. destruct (Hp (Hl Ho)) as (payload & Hpay & Hlast). exists payload. split; [done|].
    destruct (last _) as [w|].
    + destruct Hlast as (p & ? & ? & ?). exists p. split_and!; [by eapply published_by_more|done..].
    + destruct Hlast as (env & g & l & ? & ? & ?). exists env, g, l. by split_and!; [apply Hsub|..].
Qed.
Lemma step_accounted calls calls' k who e e' : (∀ call, call ∈ calls → call ∈ calls') → entry_ok e → (∀ p, who ≠ publisher p) →
  session_step who e e' → accounted calls k e → accounted calls' k e'.
Proof.
  intros Hsub Hok Hquiet Hs Hac. destruct Hs.
  3: by destruct (Hquiet p).
  9: { split; cbn; [by intros w ?%not_elem_of_nil|done]. }
  4: { destruct (switch_ok digest cipher source destination payload nonce context envelope now e) as [_ Hres]; try done.
       eapply accounted_same; [exact Hsub|..|exact Hac]; try done. cbn [en_row]. by etransitivity; [exact Hres|]. }
  all: eapply accounted_same; [exact Hsub|..|exact Hac]; try done. intros _. congruence.
Qed.
Lemma published_restores p e e' : session_step (publisher p) e e' → restore_payload cipher (en_row e') = inr (pu_payload p).
Proof. intros Hs. inversion Hs; subst. by eapply (sealed_restores cipher (en_row e)). Qed.
Lemma published_accounted calls calls' env p db db' : (∀ call, call ∈ calls → call ∈ calls') → call_publish env p ∈ calls' → db_ok db →
  publishes digest cipher p db db' → (∀ k e, session_of db k = Some e → accounted calls k e) →
  ∀ k e, session_of db' k = Some e → accounted calls' k e.
Proof.
  intros Hsub Hin Hdb (e & now & nonce & context & envelope & envelope' & He & Hs & -> & _ & Hr & Hctx & Henc) Hac k' e'.
  rewrite session_set. case_decide as Hk; [|intros He'; by eapply accounted_same, Hac]. intros [= <-]. subst k'.
  destruct (Hdb _ _ He) as [_ Hok]. pose proof (step_entry_ok digest cipher _ _ _ Hok Hs) as Hok'.
  set (w := mkOperation _ _ _ _ envelope') in *. set (e' := mkEntry _ _ _ _) in *.
  assert (0 < pu_expected_revision p + 1) as Hpos.
  { destruct (ok_log _ _ _ Hok') as (start & Hstart & Hlog). cbn in Hstart, Hlog. rewrite fmap_app in Hlog.
    assert (pu_expected_revision p + 1 ∈ seqZ (start + 1) (pu_expected_revision p + 1 - start)) as Hx%elem_of_seqZ; [|lia].
    rewrite <-Hlog. apply elem_of_app. right. by left. }
  pose proof (proj2 (sealed_receipt cipher (en_row e) _ _ _ _ _ _ _ _ Hr Hpos Hctx Henc)) as Hres.
  assert (published_by calls' (key_of (la_contract (pu_lease p))) e' w p) as Hby by (split_and!; [by exists env|done..]).
  destruct (Hac _ _ He) as [Hrec _]. split.
  - cbn. intros w' [Hw'|Hw'%list_elem_of_singleton]%elem_of_app; [|subst w'; by exists p].
    destruct (Hrec w' Hw') as (p' & Hp'). exists p'. by eapply published_by_more.
  - intros _. exists (pu_payload p). split.
    + by apply (published_restores p e).
    + cbn [e' en_operations]. rewrite last_snoc. exists p. by split_and!.
Qed.
Lemma call_accounted calls call db : registry_call_valid call = true → db_ok db → (∀ k e, session_of db k = Some e → accounted calls k e) →
  ∀ k e, session_of (run call db).1 k = Some e → accounted (calls ++ [call]) k e.
Proof.
  intros Hv Hdb Hac k e'. assert (∀ c, c ∈ calls → c ∈ calls ++ [call]) as Hsub by (intros; apply elem_of_app; by left).
  assert (call ∈ calls ++ [call]) as Hlast by (apply elem_of_app; right; by left).
  assert (∀ e e', accounted calls k e → e' = e → accounted (calls ++ [call]) k e') as Hsame by (intros e1 ? Ha ->; by eapply accounted_same, Ha).
  destruct (run_origin call db Hv) as [->|[(who & Hs & Hq)|[(env & p & -> & Hp)|[(env & g & l & payload & -> & Hr)|[Hd|Hu]]]]].
  - intros He. by eapply Hsame; [apply Hac|].
  - destruct (Hs (db_ok_keyed _ _ _ Hdb)) as [->|(k' & e1 & e2 & He1 & Hst & ->)]; [intros He; by eapply Hsame; [apply Hac|]|].
    rewrite session_set. case_decide; [|intros He; by eapply Hsame; [apply Hac|]]. intros [= <-]. subst k'.
    destruct (Hdb _ _ He1) as [_ Hok]. by eapply step_accounted; [..|apply Hac].
  - intros He. by eapply (published_accounted calls _ env p db).
  - destruct Hr as (_ & e0 & _ & Hc & -> & Hops & Hpay & Hrev). rewrite session_set. case_decide as Hk; [|intros He; by eapply Hsame; [apply Hac|]].
    intros [= <-]. split; rewrite Hops; [by intros w ?%not_elem_of_nil|]. intros _. exists payload. split; [done|]. by exists env, g, l.
  - destruct Hd as (k' & e1 & l & t & He1 & _ & _ & ->). unfold session_of. cbn.
    destruct (decide (k' = k)) as [->|]; [|rewrite lookup_insert_ne by done; intros He; by eapply Hsame; [apply Hac|]].
    rewrite lookup_insert_eq. intros [= <-]. apply (accounted_same calls _ k e1); try done. by apply Hac.
  - destruct Hu as (l & ->). intros He%lookup_purged. by eapply Hsame; [apply Hac|].
Qed.
(** Along every history every session is accounted for. *)
Lemma calls_accounted calls : Forall (λ call, registry_call_valid call = true) calls →
  ∀ k e, session_of (runs calls empty_database) k = Some e → accounted calls k e.
Proof.
  induction calls as [|call calls IH] using rev_ind; [done|]. intros [Hc Hv]%Forall_app k e. apply Forall_inv in Hv.
  unfold run_all. rewrite foldl_app. intros He. apply (call_accounted calls call (runs calls empty_database)); [done| |by apply IH|done].
  by apply run_all_ok; [|apply empty_database_ok].
Qed.
End log.
