(* ===== verification/RegistryProps.v ===== *)
(** * The session registry: fencing and publication once

    Theorems over every history of calls: the invariants of every session and
    of the keys across sessions, a superseded fence never writes again, and an
    operation commits once whatever acknowledgements are lost. *)

From stdpp Require Import gmap.
From S2P Require Import Prelude PyText Money Receipts Cart OrderScope SessionState SessionCommit Confirmation Encryption Registry RegistryLaws RegistryInv RegistryLog.
Local Open Scope Z_scope.
Local Open Scope list_scope.

Section props.
Context {K C : Type} `{!Aead K C} `{!AeadLaws K C} `{!PayloadCodec} `{!PayloadCodecLaws}.
Context (digest : list (string * json_scalar) → string) (cipher : AesGcmSessionCipher K).
Notation Row := (SessionRecord C).
Notation DB := (Database C).
Implicit Types (r : Row) (db : DB) (env : tx_env) (e : Entry C).
Notation run := (run_registry digest cipher).
Notation runs := (run_all digest cipher).

(** ** Fences *)
(** The session is not purged along a history: a session leaves the database only as a purged
    tombstone, and its identity may then be registered anew. *)
Fixpoint kept (k : string * string) (calls : list registry_call) db : Prop :=
  match calls with
  | [] => True
  | call :: calls => is_Some (session_of (run call db).1 k) ∧ kept k calls (run call db).1
  end.
Lemma step_fence who e e' : session_step digest cipher who e e' → sr_fencing_generation (en_row e) ≤ sr_fencing_generation (en_row e').
Proof. destruct 1; cbn; try (subst r); try done; lia. Qed.

(** What a relation between the states of one session needs to hold along a history. *)
Lemma call_along (R : Entry C → Entry C → Prop) call db k e :
  (∀ e, R e e) → (∀ who e e', session_step digest cipher who e e' → R e e') →
  (∀ e l, R e (mkEntry (en_row e) (en_generations e) (en_operations e) l)) →
  registry_call_valid call = true → is_Some (session_of (run call db).1 k) → db_ok digest cipher db → session_of db k = Some e →
  ∃ e', session_of (run call db).1 k = Some e' ∧ R e e'.
Proof.
  intros Hrefl Hstep Hman Hv Hp Hdb He. revert Hp.
  destruct (run_registry_effect digest cipher call db Hv) as [->|[(who & Hs)|[(c & payload & n & Hnone & e0 & He0 & <- & -> & _)|[Hd|[(l & ->) _]]]]]; intros Hp;
    [by eauto| | | |].
  - destruct (Hs (db_ok_keyed _ _ _ Hdb)) as [->|(k' & e1 & e2 & He1 & Hst & ->)]; [by eauto|].
    rewrite session_set. case_decide as Hk; [|by eauto]. subst k'. rewrite He in He1. injection He1 as <-. by eauto.
  - rewrite session_set. case_decide as Hk; [|by eauto]. subst k. congruence.
  - destruct Hd as (k' & e1 & l & t & He1 & _ & _ & ->). unfold session_of. cbn.
    destruct (decide (k' = k)) as [->|]; [|rewrite lookup_insert_ne by done; by eauto].
    rewrite lookup_insert_eq. rewrite He in He1. injection He1 as <-. by eauto.
  - destruct Hp as [e' He']. exists e'. split; [done|]. apply lookup_purged in He'. unfold session_of in He. assert (e' = e) as -> by congruence. done.
Qed.
Lemma calls_along (R : Entry C → Entry C → Prop) calls db k e :
  (∀ e, R e e) → (∀ e1 e2 e3, R e1 e2 → R e2 e3 → R e1 e3) → (∀ who e e', session_step digest cipher who e e' → R e e') →
  (∀ e l, R e (mkEntry (en_row e) (en_generations e) (en_operations e) l)) →
  Forall (λ call, registry_call_valid call = true) calls → kept k calls db → db_ok digest cipher db → session_of db k = Some e →
  ∃ e', session_of (runs calls db) k = Some e' ∧ R e e'.
Proof.
  intros Hrefl Htrans Hstep Hman Hc. revert db e. induction Hc as [|call calls Hv _ IH]; intros db e Hk Hdb He; [by eauto|].
  destruct Hk as [Hp Hk].
  destruct (call_along R call db k e) as (e1 & He1 & HR); [done..|].
  destruct (IH (run call db).1 e1) as (e2 & He2 & HR'); [done|by apply run_registry_ok|done|]. exists e2. split; [done|by eapply Htrans].
Qed.

(** The authority a call presents. *)
Definition lease_fence (a : SessionLeaseAuthority) : SessionContract * Z := (la_contract a, la_fencing_generation a).
Definition close_fence (a : SessionCloseAuthority) : SessionContract * Z := (ca_contract a, ca_fencing_generation a).
Definition data_fence (a : CheckpointAuthority) : SessionContract * Z :=
  match a with by_lease a => lease_fence a | by_close a => close_fence a end.
Definition fence_of (call : registry_call) : option (SessionContract * Z) :=
  match call with
  | call_activate _ a | call_begin_rotation _ a _ _ _ | call_switch _ a _ | call_record_deletion _ a _ => Some (lease_fence a)
  | call_renew _ n => Some (lease_fence (ln_authority n))
  | call_publish _ p => Some (lease_fence (pu_lease p))
  | call_begin_close _ a _ => Some (lease_fence a)
  | call_refresh_close _ a _ | call_close_deletion _ a _ | call_finalize _ a _ => Some (close_fence a)
  | call_put _ a _ _ | call_delete_thread _ a _ => Some (data_fence a)
  | _ => None
  end.

(** The close a call is for: its clock, its operation and the worker. *)
Definition close_of (call : registry_call) : option (tx_env * string * string) :=
  match call with
  | call_begin_close env _ request => Some (env, cr_operation_id request, cr_lease_owner_id request)
  | call_refresh_close env a _ | call_finalize env a _ => Some (env, ca_operation_id a, ca_lease_owner_id a)
  | _ => None
  end.
(** What a close may still do to the session that is under it, whatever fence it presents: be
    told where it stands, keep the lease its own worker holds, or take a lapsed lease again. *)
Inductive resumes (env : tx_env) (op owner : string) e : Entry C → Prop :=
  | resumes_told : sr_lifecycle (en_row e) = CLOSING ∨ sr_lifecycle (en_row e) = CLOSED → resumes env op owner e e
  | resumes_renewed t now : sr_lifecycle (en_row e) = CLOSING → lease_live (en_row e) (tx_locked env) = true →
      sr_lease_owner_id (en_row e) = Some owner → resumes env op owner e (with_row (lease_extended t now) e)
  | resumes_retaken t now : sr_lifecycle (en_row e) = CLOSING → lease_live (en_row e) (tx_locked env) = false →
      resumes env op owner e (with_row (close_leased owner op t now) e).

Definition refused {A} (m : M DB A) db : Prop := ∃ x, m db = (db, inl x).
Lemma refused_bind {A B} (m : M DB A) (k : A → M DB B) db : refused m db → refused (m ≫= k) db.
Proof. intros [x Hx]. exists x. unfold mbind, M_bind. by rewrite Hx. Qed.
Lemma refused_require {A} b c t (m : M DB A) db : refused m db → refused (require b c t ;; m) db.
Proof. intros Hm. unfold require. destruct b; [done|]. by eexists. Qed.
Lemma refused_lift {A B} (x : res A) (m : A → M DB B) db : (∀ a, refused (m a) db) → refused (lift x ≫= m) db.
Proof. intros Hm. destruct x as [x|a]; [by eexists|]. apply Hm. Qed.
Lemma refused_translating {A} f (m : M DB A) db : refused m db → refused (translating f m) db.
Proof. intros [x Hx]. eexists. unfold translating. by rewrite Hx. Qed.
Lemma refused_committed {A} env (m : M DB A) db : refused m db → refused (committed env m) db.
Proof. intros [x Hx]. unfold committed, transaction, refused. rewrite Hx. destruct (tx_fault env); by eexists. Qed.
Lemma refused_ran {A} (m : M DB A) db : refused m db → ∃ x, ran m db = (db, Some x).
Proof. intros [x Hx]. exists x. unfold ran. by rewrite Hx. Qed.

Lemma refused_lease env a db e : session_of db (key_of (la_contract a)) = Some e →
  la_fencing_generation a < sr_fencing_generation (en_row e) → refused (locked_record env a) db.
Proof.
  intros He Hf. unfold locked_record, locked_session. unfold refused, mbind, M_bind, get. rewrite He. unfold lift.
  unfold record_from_row. destruct (record_valid _); cbn; [|by eexists].
  destruct (lease_authority_rejection _ _ _) eqn:Hr; [by eexists|]. apply lease_held_iff in Hr. destruct Hr as (_ & _ & _ & _ & _ & _ & _ & _ & Hr). lia.
Qed.
Lemma refused_close env a db e : session_of db (key_of (ca_contract a)) = Some e →
  ca_fencing_generation a < sr_fencing_generation (en_row e) → refused (locked_close_record env a) db.
Proof.
  intros He Hf. unfold locked_close_record, locked_session. unfold refused, mbind, M_bind, get. rewrite He. unfold lift.
  unfold record_from_row. destruct (record_valid _); cbn; [|by eexists].
  destruct (close_authority_rejection _ _ _) eqn:Hr; [by eexists|]. apply close_held_iff in Hr. destruct Hr as (_ & _ & _ & _ & _ & Hr). lia.
Qed.
Lemma refused_data env a thread op db e : session_of db (key_of (cp_contract a)) = Some e →
  (data_fence a).2 < sr_fencing_generation (en_row e) → refused (authorized_generation digest env a thread op) db.
Proof.
  intros He Hf. unfold authorized_generation. unfold refused, mbind, M_bind, get. rewrite He.
  assert (is_Some (data_plane_rejection a (tx_locked env) (en_row e))) as [x ->]; [|by eexists].
  unfold data_plane_rejection. cbv zeta. repeat (case_match; [by eexists|]).
  destruct a as [a|a]; cbn in Hf.
  - rewrite (proj2 (Z.eqb_neq (sr_fencing_generation (en_row e)) (la_fencing_generation a))) by lia. cbn. repeat (case_match; try by eexists).
  - rewrite (proj2 (Z.eqb_neq (sr_fencing_generation (en_row e)) (ca_fencing_generation a))) by lia. cbn. repeat (case_match; try by eexists).
Qed.
(** The calls that end a close are refused, or answered by what the transaction comes to. *)
Lemma ran_answered {A} f env (m : M DB A) (P : DB → Prop) db : (∀ db' a, m db = (db', inr a) → P db') →
  (∃ x, ran (translating f (committed env m)) db = (db, Some x)) ∨ P (ran (translating f (committed env m)) db).1.
Proof.
  intros Hm. unfold ran, translating, committed, transaction.
  destruct (tx_fault env); [| |]; destruct (m db) as [db' [x|a]] eqn:Hrun; try (left; by eexists); right; by eapply Hm.
Qed.
Lemma ran_post {A B} (m : M DB A) (k : A → res B) (P : DB → Prop) db :
  (∃ x, ran m db = (db, Some x)) ∨ P (ran m db).1 → (∃ x, ran (a ← m; lift (k a)) db = (db, Some x)) ∨ P (ran (a ← m; lift (k a)) db).1.
Proof.
  unfold ran, mbind, M_bind, lift. destruct (m db) as [db' [x|a]]; [done|].
  intros [[x [=]]|Hp]. right. by destruct (k a).
Qed.
Lemma set_same k e db : session_of db k = Some e → set_entry k e db = db.
Proof. intros He. unfold set_entry. unfold session_of in He. by rewrite insert_id; [destruct db|]. Qed.
Definition resumed env (op owner : string) k e db db' : Prop :=
  ∃ e', sr_close_operation_id (en_row e) = Some op ∧ resumes env op owner e e' ∧ db' = set_entry k e' db.

Section stale.
Context (db : DB) (e : Entry C).
Lemma stale_begin env a request : let k := key_of (la_contract a) in
  session_of db k = Some e → key_of (sr_contract (en_row e)) = k → la_fencing_generation a < sr_fencing_generation (en_row e) →
  (∃ x, run (call_begin_close env a request) db = (db, Some x)) ∨
  resumed env (cr_operation_id request) (cr_lease_owner_id request) k e db (run (call_begin_close env a request) db).1.
Proof.
  intros k He Hk Hf. cbn [run_registry]. apply ran_answered.
  intros db' x (db1 & record & (-> & _ & e1 & He1 & <-)%locked_session_done & Hrun)%M_bind_done.
  fold k in He1. rewrite He in He1. injection He1 as <-. cbv zeta in Hrun.
  destruct (_ && _ && _) eqn:Hreplay.
  { apply close_claim_done in Hrun as (-> & _). unfold eq_lifecycle in Hreplay. bools.
    exists e. split_and!; [done| |by rewrite set_same]. apply resumes_told. by left. }
  mstep Hrun. unfold eq_lifecycle in *. destruct (bool_decide_reflect (sr_lifecycle (en_row e) = CLOSING)) as [Hc|Hc]; cbn in *.
  2: { destruct (lease_authority_rejection _ _ _) eqn:Hrej; [done|]. apply lease_held_iff in Hrej as (_ & _ & _ & _ & _ & _ & _ & _ & Hrej). lia. }
  destruct (bool_decide_reflect (sr_close_operation_id (en_row e) = Some (cr_operation_id request))) as [Hop|]; [|done]. cbn in *.
  destruct (lease_live _ _) eqn:Hlive; [done|]. cbn in Hrun. apply M_bind_done in Hrun as (db1 & r & Ht & (-> & _)%close_claim_done).
  apply take_close_done in Ht as (duration & _ & _ & -> & _); [|by rewrite Hk].
  rewrite Hk. eexists. split_and!; [done| |done]. by apply resumes_retaken.
Qed.
Lemma stale_refresh env a s : let k := key_of (ca_contract a) in
  session_of db k = Some e → key_of (sr_contract (en_row e)) = k →
  (∃ x, run (call_refresh_close env a s) db = (db, Some x)) ∨
  resumed env (ca_operation_id a) (ca_lease_owner_id a) k e db (run (call_refresh_close env a s) db).1.
Proof.
  intros k He Hk. cbn [run_registry]. unfold refresh_close. destruct (lease_duration s) as [x|duration]; [left; by exists x|].
  apply ran_answered. intros db' x (db1 & record & (-> & _ & e1 & He1 & <-)%locked_session_done & Hrun)%M_bind_done.
  fold k in He1. rewrite He in He1. injection He1 as <-. cbv zeta in Hrun. mstep Hrun. mstep Hrun. unfold eq_lifecycle in *. bools.
  destruct (lease_live _ _) eqn:Hlive; cbn [negb] in Hrun.
  - mstep Hrun. unfold is_owner in *. bools. apply M_bind_done in Hrun as (db1 & o & Hu%update_session_done & Hrun). destruct o as [row|]; [|done].
    destruct Hu as (e1 & He1 & _ & -> & _ & _ & ->). rewrite Hk, He in He1. injection He1 as <-.
    apply M_lift_done in Hrun as (r & _ & (-> & _)%close_claim_done). rewrite Hk. eexists. split_and!; [done| |done]. by apply resumes_renewed.
  - apply M_bind_done in Hrun as (db1 & r & Ht & (-> & _)%close_claim_done).
    apply take_close_done in Ht as (duration' & _ & _ & -> & _); [|by rewrite Hk]. rewrite Hk. eexists. split_and!; [done| |done]. by apply resumes_retaken.
Qed.
Lemma stale_finalize env a s : let k := key_of (ca_contract a) in
  session_of db k = Some e → ca_fencing_generation a < sr_fencing_generation (en_row e) →
  (∃ x, run (call_finalize env a s) db = (db, Some x)) ∨
  resumed env (ca_operation_id a) (ca_lease_owner_id a) k e db (run (call_finalize env a s) db).1.
Proof.
  intros k He Hf. cbn [run_registry]. unfold finalize_close. destruct (lease_duration s) as [x|retention]; [left; by exists x|].
  apply ran_post, ran_answered. intros db' x (db1 & record & (-> & _ & e1 & He1 & <-)%locked_session_done & Hrun)%M_bind_done.
  fold k in He1. rewrite He in He1. injection He1 as <-. unfold eq_lifecycle in *.
  destruct (bool_decide_reflect (sr_lifecycle (en_row e) = CLOSED)) as [Hc|Hc].
  - mstep Hrun. mstep Hrun. bools. exists e. split_and!; [done| |by rewrite set_same]. apply resumes_told. by right.
  - destruct (close_authority_rejection _ _ _) eqn:Hrej; [done|]. apply close_held_iff in Hrej as (_ & _ & _ & _ & _ & Hrej). lia.
Qed.
End stale.
Lemma stale_refused call c f db e : db_ok digest cipher db → fence_of call = Some (c, f) → session_of db (key_of c) = Some e →
  f < sr_fencing_generation (en_row e) →
  (∃ x, run call db = (db, Some x)) ∨
  ∃ env op owner, close_of call = Some (env, op, owner) ∧ resumed env op owner (key_of c) e db (run call db).1.
Proof.
  intros Hdb Hcall He Hf. pose proof (proj1 (Hdb _ _ He)) as Hk.
  destruct call; cbn in Hcall; try discriminate; try (injection Hcall as <- <-).
  7: { destruct (stale_begin db e env a request He Hk Hf); [by left|]. right. by eexists _, _, _. }
  7: { destruct (stale_refresh db e env a duration He Hk); [by left|]. right. by eexists _, _, _. }
  8: { destruct (stale_finalize db e env a retention He Hf); [by left|]. right. by eexists _, _, _. }
  all: left; cbn [run_registry]; apply refused_ran.
  - by apply refused_bind, refused_translating, refused_committed, refused_bind, refused_lease with e.
  - apply refused_bind, refused_translating, refused_lift. intros ?. by apply refused_committed, refused_bind, refused_lease with e.
  - by apply refused_bind, refused_translating, refused_committed, refused_bind, refused_lease with e.
  - by apply refused_require, refused_require, refused_translating, refused_committed, refused_bind, refused_lease with e.
  - by apply refused_require, refused_translating, refused_committed, refused_bind, refused_lease with e.
  - by apply refused_require, refused_translating, refused_committed, refused_bind, refused_lease with e.
  - by apply refused_require, refused_translating, refused_committed, refused_bind, refused_close with e.
  - apply refused_committed, refused_bind, refused_data with e; destruct a; injection Hcall as <- <-; done.
  - apply refused_committed, refused_bind, refused_data with e; destruct a; injection Hcall as <- <-; done.
Qed.
(** ** The constraints of the schema *)
(** No two sessions of a tenant name one checkpoint namespace, no two generations share a storage
    thread, and every generation passes the checks of its table. *)
Definition generations_ok e : Prop :=
  NoDup (gr_storage_thread_id <$> en_generations e) ∧ forallb generation_checks (en_generations e) = true.
Record constrained db : Prop := {
  cn_across : ∀ k1 e1 k2 e2, session_of db k1 = Some e1 → session_of db k2 = Some e2 → k1 ≠ k2 →
    (k1.1 = k2.1 → sr_checkpoint_namespace (en_row e1) ≠ sr_checkpoint_namespace (en_row e2)) ∧
    ∀ g1 g2, g1 ∈ en_generations e1 → g2 ∈ en_generations e2 → gr_storage_thread_id g1 ≠ gr_storage_thread_id g2;
  cn_within : ∀ k e, session_of db k = Some e → generations_ok e }.
Lemma constrained_set k e db : constrained db → generations_ok e →
  (∀ k' e', session_of db k' = Some e' → k' ≠ k →
     (k'.1 = k.1 → sr_checkpoint_namespace (en_row e') ≠ sr_checkpoint_namespace (en_row e)) ∧
     ∀ g' g, g' ∈ en_generations e' → g ∈ en_generations e → gr_storage_thread_id g' ≠ gr_storage_thread_id g) →
  constrained (set_entry k e db).
Proof.
  intros [Hu Hw] Hok Hn. split.
  - intros k1 e1 k2 e2. rewrite !session_set. do 2 case_decide; subst; intros Hk1 Hk2 Hne; simplify_eq; [| |by eapply Hu].
    + destruct (Hn k2 e2) as [Ha Hb]; [done|congruence|]. split; [intros ? ?; by apply Ha|]. intros g1 g2 ? ? ?. by eapply Hb.
    + by apply Hn.
  - intros k' e'. rewrite session_set. case_decide; [by intros [= <-]|apply Hw].
Qed.
Lemma namespace_free_iff db k namespace : namespace_free db k namespace = true ↔
  ∀ k' e', session_of db k' = Some e' → k' ≠ k → k'.1 = k.1 → sr_checkpoint_namespace (en_row e') ≠ namespace.
Proof.
  unfold namespace_free. rewrite forallb_forall. split.
  - intros Hf k' e' He' Hne Ht Hns. specialize (Hf (k', e')). cbn in Hf. rewrite Ht, Hns, !String.eqb_refl, bool_decide_eq_false_2 in Hf by done.
    cbn in Hf. assert (In (k', e') (map_to_list (db_sessions db))) as Hin by by apply list_elem_of_In, elem_of_map_to_list.
    by specialize (Hf Hin).
  - intros Hf [k' e'] Hin%list_elem_of_In%elem_of_map_to_list. destruct (String.eqb_spec k'.1 k.1) as [Ht|]; [|done]. cbn.
    case_bool_decide as Hk; [done|]. cbn. destruct (String.eqb_spec (sr_checkpoint_namespace (en_row e')) namespace); [|done].
    by destruct (Hf k' e').
Qed.
Lemma storage_ids_in db k e g : session_of db k = Some e → g ∈ en_generations e → gr_storage_thread_id g ∈ storage_ids db.
Proof.
  intros He Hg. unfold storage_ids. apply list_elem_of_bind. exists (k, e). split; [by apply list_elem_of_fmap_2|by apply elem_of_map_to_list].
Qed.

Definition preserves {A} (m : M DB A) : Prop := ∀ db, constrained db → constrained (m db).1.
Lemma preserves_done {A} (m : M DB A) : (∀ db db' a, constrained db → m db = (db', inr a) → constrained db') →
  (∀ db db' x, constrained db → m db = (db', inl x) → constrained db') → preserves m.
Proof. intros Hd Hx db Hu. destruct (m db) as [db' [x|a]] eqn:Hm; cbn; eauto. Qed.
Lemma preserves_bind {A B} (m : M DB A) (k : A → M DB B) : preserves m → (∀ a, preserves (k a)) → preserves (m ≫= k).
Proof. intros Hm Hk db Hu. unfold mbind, M_bind. specialize (Hm db Hu). destruct (m db) as [db' [x|a]]; [done|]. by apply Hk. Qed.
Lemma preserves_reads {A} (m : M DB A) : reads m → preserves m.
Proof. intros Hr db Hu. by rewrite Hr. Qed.
Lemma preserves_require b c t : preserves (require b c t : M DB unit).
Proof. apply preserves_reads. by destruct b. Qed.
Lemma preserves_translating {A} f (m : M DB A) : preserves m → preserves (translating f m).
Proof. intros Hm db Hu. specialize (Hm db Hu). unfold translating. by destruct (m db) as [db' [x|a]]. Qed.
Lemma preserves_committed {A} env (m : M DB A) : preserves m → preserves (committed env m).
Proof.
  intros Hm db Hu. specialize (Hm db Hu). unfold committed, transaction. by destruct (tx_fault env), (m db) as [db' [x|a]].
Qed.
Lemma preserves_update k cond f : preserves (update_session k cond f).
Proof.
  intros db Hu. unfold update_session, mbind, M_bind, get. destruct (session_of db k) as [e|] eqn:He; [|done].
  destruct (cond _); [|done]. unfold require. destruct (session_checks _); [|done]. cbn.
  destruct (namespace_free _ _ _) eqn:Hf; [|done]. cbn. rewrite namespace_free_iff in Hf.
  apply constrained_set; [done|exact (cn_within _ Hu k _ He)|]. intros k' e' He' Hne. split; [by apply Hf|]. cbn. intros. by eapply (cn_across _ Hu k' e' k e).
Qed.
Lemma preserves_insert_generation k g : preserves (insert_generation k g).
Proof.
  intros db Hu. unfold insert_generation, mbind, M_bind, get. destruct (session_of db k) as [e|] eqn:He; [|done].
  unfold require. destruct (generation_checks _) eqn:Hc; [|done]. cbn. destruct (generation_keys _); [|done].
  case_bool_decide as Hg; [done|]. cbn. destruct (cn_within _ Hu _ _ He) as [Hnd Hch]. apply constrained_set; [done| |].
  - split; cbn [with_generations en_generations]; [|rewrite forallb_app, Hch; cbn [forallb andb]; by rewrite Hc]. rewrite fmap_app. apply NoDup_app. split_and!; [done| |apply NoDup_singleton].
    intros x (g' & -> & Hg')%list_elem_of_fmap Hx%list_elem_of_singleton. destruct Hg. rewrite <-Hx. by eapply storage_ids_in.
  - intros k' e' He' Hne. cbn. destruct (cn_across _ Hu k' e' k e He' He Hne) as [Hns Hst].
    split; [done|]. intros g1 g2 Hg1 [Hg2|Hg2%list_elem_of_singleton]%elem_of_app; [by apply Hst|]. subst g2.
    intros Hs. destruct Hg. rewrite <-Hs. by eapply storage_ids_in.
Qed.
Lemma moved_storage f s l : gr_storage_thread_id <$> moved f s l = gr_storage_thread_id <$> l.
Proof. unfold moved. rewrite <-list_fmap_compose. apply list_fmap_ext. intros _ g _. cbn. by destruct (f g). Qed.
Lemma preserves_update_generations k f s : preserves (update_generations k f s).
Proof.
  intros db Hu. unfold update_generations, mbind, M_bind, get. destruct (session_of db k) as [e|] eqn:He; [|done].
  unfold require. destruct (forallb _ _) eqn:Hch; [|done]. cbn. destruct (generation_keys _); [|done]. cbn.
  apply constrained_set; [done| |].
  - split; cbn; [|done]. change (NoDup (gr_storage_thread_id <$> moved f s (en_generations e))). rewrite moved_storage. exact (proj1 (cn_within _ Hu k _ He)).
  - intros k' e' He' Hne. cbn. destruct (cn_across _ Hu k' e' k e He' He Hne) as [Hns Hst].
    split; [done|]. intros g1 g2 Hg1 (g & Hg & ->)%moved_in. specialize (Hst g1 g Hg1 Hg). by destruct (f g).
Qed.
Lemma preserves_insert_operation k o : preserves (insert_operation k o).
Proof.
  intros db Hu. unfold insert_operation, mbind, M_bind, get. destruct (session_of db k) as [e|] eqn:He; [|done].
  unfold require. destruct (operation_checks _); [|done]. cbn. destruct (operation_keys _); [|done]. cbn.
  apply constrained_set; [done|exact (cn_within _ Hu k _ He)|]. intros k' e' He' Hne. by apply (cn_across _ Hu k' e' k e).
Qed.
Lemma preserves_insert_session r : preserves (insert_session r).
Proof.
  intros db Hu. unfold insert_session, mbind, M_bind, get. unfold require. destruct (negb _); [|done]. cbn. destruct (session_checks _); [|done]. cbn.
  destruct (namespace_free _ _ _) eqn:Hf; [|done]. cbn. rewrite namespace_free_iff in Hf.
  apply constrained_set; [done|by split; [constructor|]|]. intros k' e' He' Hne. cbn. split; [by apply Hf|]. intros ? ? ? ?%not_elem_of_nil. done.
Qed.
Lemma preserves_entry k f : (∀ e, sr_checkpoint_namespace (en_row (f e)) = sr_checkpoint_namespace (en_row e) ∧
    (en_generations (f e) = en_generations e ∨ en_generations (f e) = [])) →
  preserves (modify (λ db, match session_of db k with Some e => set_entry k (f e) db | None => db end)).
Proof.
  intros Hf db Hu. unfold modify. cbn. destruct (session_of db k) as [e|] eqn:He; [|done]. destruct (Hf e) as [Hns Hg].
  apply constrained_set; [done| |].
  - destruct (cn_within _ Hu _ _ He). destruct Hg as [Hg|Hg]; unfold generations_ok; rewrite Hg; [done|by split; [constructor|]].
  - intros k' e' He' Hne. rewrite Hns. destruct (cn_across _ Hu k' e' k e He' He Hne) as [? Hst]. split; [done|].
    intros g1 g2 ? Hg2. destruct Hg as [Hg|Hg]; rewrite Hg in Hg2; [by apply Hst|by apply not_elem_of_nil in Hg2].
Qed.
Lemma constrained_sessions db l : constrained db → constrained (mkDatabase (db_sessions db) l).
Proof. by intros [? ?]. Qed.
Lemma preserves_checkpoints k f g : preserves (modify (with_checkpoints k f g)).
Proof.
  intros db Hu. pose proof (preserves_entry k (λ e, mkEntry (en_row e) (en_generations e) (en_operations e) (f (en_manifests e)))
    ltac:(intros; by split; [|left]) db Hu) as Hp. revert Hp. unfold modify, with_checkpoints. cbn. destruct (session_of db k); [|done]. apply constrained_sessions.
Qed.
Lemma unlisted_constrained db db' : constrained db → unlisted db db' → constrained db'.
Proof.
  intros Hu (l & ->). split.
  - intros k1 e1 k2 e2 He1 He2. unfold session_of in *. cbn in *. apply lookup_purged in He1, He2. by apply (cn_across _ Hu).
  - intros k e He. unfold session_of in *. cbn in *. apply lookup_purged in He. by apply (cn_within _ Hu k).
Qed.

Ltac preserve :=
  cbv zeta;
  repeat lazymatch goal with
    | |- preserves (_ ≫= _) => apply preserves_bind; [|intros ?]
    | |- preserves (require _ _ _) => apply preserves_require
    | |- preserves (translating _ _) => apply preserves_translating
    | |- preserves (committed _ _) => apply preserves_committed
    | |- preserves (update_session _ _ _) => apply preserves_update
    | |- preserves (insert_generation _ _) => apply preserves_insert_generation
    | |- preserves (update_generations _ _ _) => apply preserves_update_generations
    | |- preserves (insert_operation _ _) => apply preserves_insert_operation
    | |- preserves (insert_session _) => apply preserves_insert_session
    | |- preserves (modify (with_checkpoints _ _ _)) => apply preserves_checkpoints
    | |- preserves (modify _) => apply preserves_entry; intros ?; by split; [|right]
    | |- preserves (locked_record _ _) => unfold locked_record
    | |- preserves (locked_close_record _ _) => unfold locked_close_record
    | |- preserves (locked_session _) => unfold locked_session
    | |- preserves (checkpoint_generations_of _ _ _) => unfold checkpoint_generations_of
    | |- preserves (generation_rows _) => unfold generation_rows
    | |- preserves (or_expired _ _ _) => unfold or_expired
    | |- preserves (close_claim _ _) => unfold close_claim; cbv zeta
    | |- preserves (take_close_lease _ _ _) => unfold take_close_lease
    | |- preserves (authorized_generation _ _ _ _ _) => unfold authorized_generation; cbv zeta
    | |- preserves (match _ with _ => _ end) => case_match
    | |- preserves _ => apply preserves_reads; done
    end.
Lemma run_constrained call db : constrained db → constrained (run call db).1.
Proof.
  assert (∀ A (m : M DB A), preserves m → constrained db → constrained (ran m db).1) as Hran.
  { intros A m Hm Hu. specialize (Hm db Hu). unfold ran. by destruct (m db) as [db' [x|a]]. }
  destruct call; cbn [run_registry]; try apply Hran.
  - unfold register_and_acquire. preserve.
  - unfold activate. preserve.
  - unfold renew. preserve.
  - unfold publish_session. preserve.
  - unfold begin_checkpoint_rotation. preserve.
  - unfold switch_checkpoint_generation. preserve.
  - unfold record_checkpoint_deletion. preserve.
  - unfold begin_close. preserve.
  - unfold claim_expired. preserve.
  - unfold refresh_close. preserve.
  - unfold record_close_checkpoint_deletion. preserve.
  - unfold finalize_close. preserve.
  - intros db' Hu. destruct (purge_touches env tenant limit db' _ _ (surjective_pairing _)) as [Heq|Hp]; [by rewrite Heq|by eapply unlisted_constrained].
  - unfold checkpoint_put. preserve.
  - unfold adelete_thread. preserve.
Qed.
Lemma run_all_constrained calls db : constrained db → constrained (runs calls db).
Proof. revert db. induction calls as [|call calls IH]; intros db Hu; [done|]. by apply IH, run_constrained. Qed.
Lemma empty_constrained : constrained empty_database.
Proof. by split. Qed.
(** C10 Along every history of calls of a registry, whatever their arguments, the clock readings
    and the losses of their connections: each session is kept under its own key; its row passes
    the domain schema; its inventory parses and, while the session is open, names exactly the
    generation the session writes to; a pending generation is the next one, allocated at this
    revision for the retirement its payload marks; its receipts are the revisions since it was
    registered, one operation each, and each is of a publication the history made, to this very
    session, and reads back as the result that publication carried; until the session is closed
    its payload opens, as the one of its last publication, or as the one it was registered with
    when there was none, at the revision that call says; and once it is closed nothing of it is
    kept.  Its pending writes are of its own generations.  No two generations of any sessions
    share a storage thread, and no two sessions of a tenant a checkpoint namespace. *)
Theorem registry_sessions_sound calls : Forall (λ call, registry_call_valid call = true) calls →
  let db := runs calls empty_database in
  (∀ k e, session_of db k = Some e →
     key_of (sr_contract (en_row e)) = k ∧ entry_ok digest cipher e ∧ accounted cipher calls k e) ∧ constrained db.
Proof.
  intros Hc. split; [|by apply run_all_constrained, empty_constrained]. intros k e He.
  destruct (run_all_ok digest cipher calls _ Hc (empty_database_ok _ _) k e He) as [Hk Hok]. split_and!; [done..|].
  by eapply calls_accounted.
Qed.

(** C13 Once the fence of a session has passed the one an authority was given, every later call
    that presents that authority (activation, renewal, publication, rotation, deletion, the
    writes and deletes of the checkpoint data plane, and every step of a close) is refused and
    leaves the database as it is, for as long as the tombstone of the session is not purged; with
    one exception.  The close a session is already under, presenting its operation, may be told
    where it stands, keep the lease its own worker still holds, or take the lapsed lease again
    under the next fence; even then the payload, the inventory, the receipts and the revision
    stay as they are. *)
Theorem stale_fence_shut_out calls call db c f e : db_ok digest cipher db → session_of db (key_of c) = Some e →
  f < sr_fencing_generation (en_row e) → Forall (λ call, registry_call_valid call = true) calls → kept (key_of c) calls db →
  fence_of call = Some (c, f) →
  (∃ x, run call (runs calls db) = (runs calls db, Some x)) ∨
  ∃ env op owner e1, close_of call = Some (env, op, owner) ∧ session_of (runs calls db) (key_of c) = Some e1 ∧
    resumed env op owner (key_of c) e1 (runs calls db) (run call (runs calls db)).1.
Proof.
  intros Hdb He Hf Hc Hkept Hcall.
  destruct (calls_along (λ e e', sr_fencing_generation (en_row e) ≤ sr_fencing_generation (en_row e')) calls db (key_of c) e)
    as (e' & He' & Hle); [done|cbn; intros; lia|apply step_fence|done..|].
  destruct (stale_refused call c f (runs calls db) e') as [Hx|(env & op & owner & Hop & Hr)]; [by apply run_all_ok|done|done|lia|by left|].
  right. by exists env, op, owner, e'.
Qed.

(** ** Receipts *)
(** What later states keep of a session: its contract, its receipts until it is closed. *)
Definition keeps e e' : Prop :=
  sr_contract (en_row e') = sr_contract (en_row e) ∧
  (sr_lifecycle (en_row e) = CLOSED → sr_lifecycle (en_row e') = CLOSED) ∧
  (sr_lifecycle (en_row e') = CLOSED ∨ ∀ o, o ∈ en_operations e → o ∈ en_operations e').
Lemma step_not_closed who e e' : session_step digest cipher who e e' → sr_lifecycle (en_row e) ≠ CLOSED.
Proof.
  destruct 1; try (apply open_not_closed; by eapply acts_open); try subst r; try done; try congruence.
  all: match goal with Hh : close_held _ _ _ |- _ => by destruct Hh as (-> & _) end.
Qed.
Lemma step_keeps_receipts who e e' : session_step digest cipher who e e' → keeps e e'.
Proof.
  intros Hs. split_and!; [by eapply step_contract|by intros ?%(step_not_closed _ _ _ Hs)|].
  destruct Hs; cbn; try (right; set_solver). by left.
Qed.
Lemma keeps_trans e1 e2 e3 : keeps e1 e2 → keeps e2 e3 → keeps e1 e3.
Proof. intros (? & ? & [?|?]) (? & ? & [?|?]); split_and!; try congruence; eauto. Qed.

Lemma find_unique {A B} `{EqDecision B} (key : A → B) (f : A → bool) l x : NoDup (key <$> l) → x ∈ l →
  (∀ y, f y = true ↔ key y = key x) → List.find f l = Some x.
Proof.
  intros Hn Hx Hf. destruct (List.find f l) as [y|] eqn:Hy.
  - apply find_in in Hy as [Hin Hk%Hf]. f_equal. apply list_elem_of_split in Hx as (l1 & l2 & ->). 
    rewrite fmap_app in Hn. cbn in Hn. apply NoDup_app in Hn as (_ & H1 & [H2 _]%NoDup_cons).
    apply elem_of_app in Hin as [Hin|[->|Hin]%elem_of_cons]; [|done|].
    + exfalso. eapply (H1 (key y)); [by apply list_elem_of_fmap_2|]. rewrite Hk. by left.
    + exfalso. apply H2. rewrite <-Hk. by apply list_elem_of_fmap_2.
  - pose proof (List.find_none _ _ Hy x (proj1 (list_elem_of_In _ _) Hx)) as Hn'. by rewrite (proj2 (Hf x) eq_refl) in Hn'.
Qed.

Lemma receipt_bounds e w : entry_ok digest cipher e → w ∈ en_operations e →
  0 < or_committed_revision w ≤ sr_session_revision (en_row e).
Proof.
  intros Hok Hw. destruct (ok_log _ _ _ Hok) as (start & Hs & Hl).
  assert (or_committed_revision w ∈ or_committed_revision <$> en_operations e) as Hin by by apply list_elem_of_fmap_2.
  rewrite Hl in Hin. apply elem_of_seqZ in Hin. lia.
Qed.
(** A publication under an operation the session has a receipt of replays it. *)
Lemma publish_replays env p db db' o e w : session_of db (key_of (la_contract (pu_lease p))) = Some e →
  payload_valid (pu_payload p) = true → entry_ok digest cipher e → w ∈ en_operations e → or_operation_id w = pu_operation_id p →
  publish_session cipher env p db = (db', o) →
  db' = db ∧ ∀ r st, o = inr (r, st) → or_request_fingerprint w = pu_request_fingerprint p ∧ rs_replayed st = true ∧
    rs_operation_revision st = Some (or_committed_revision w) ∧ rs_session_revision st = sr_session_revision (en_row e) ∧
    ∃ result, rs_operation_result st = Some result ∧
      operation_result_from_row cipher (en_row e) w (or_operation_id w) (or_request_fingerprint w) = inr result.
Proof.
  intros He Hp Hok Hw Hid Hrun.
  assert (List.find (λ o, String.eqb (or_operation_id o) (pu_operation_id p)) (en_operations e) = Some w) as Hfind.
  { eapply (find_unique or_operation_id); [by apply Hok|done|]. intros y. rewrite String.eqb_eq. by rewrite Hid. }
  split.
  { destruct (publish_does digest cipher env p Hp db db' o Hrun) as [->|(e0 & ? & ? & ? & ? & ? & He0 & _ & _ & Hnew & _)]; [done|].
    rewrite He in He0. injection He0 as <-. destruct Hnew. rewrite <-Hid. by apply list_elem_of_fmap_2. }
  intros r st ->. unfold publish_session in Hrun. cbv zeta in Hrun.
  apply M_bind_done in Hrun as (db1 & out & (Hrun & _)%translating_done%committed_done & Hout).
  apply M_bind_done in Hrun as (db2 & record & (-> & Hv & Hh & e1 & He1 & <-)%locked_record_done & Hrun).
  rewrite He in He1. injection He1 as <-.
  mstep Hrun. apply M_bind_done in Hrun as (db2 & rows & Hrows & Hrun).
  unfold generation_rows in Hrows. mstep Hrows. mstep Hrows. mstep Hrun. mstep Hrun. rewrite He, Hfind in Hrun.
  mstep Hrun. mstep Hrun. mstep Hrun. mstep Hrun. apply M_ret_done in Hrun as [-> ->]. cbv beta iota in Hout.
  injection Hout as _ <- <-. pose proof E1 as [_ ->]%validated_done. streqs.
  cbn. split_and!; try done. eexists. split; [done|]. by rewrite Hid, H3.
Qed.

Lemma publish_closed env p db e : session_of db (key_of (la_contract (pu_lease p))) = Some e → sr_lifecycle (en_row e) = CLOSED →
  payload_valid (pu_payload p) = true → ∃ x, publish_session cipher env p db = (db, inl x).
Proof.
  intros He Hcl Hp. destruct (publish_session cipher env p db) as [db' [x|a]] eqn:Hrun.
  - exists x. destruct (publish_does digest cipher env p Hp db db' _ Hrun) as [->|(e0 & ? & ? & ? & ? & ? & He0 & Hs & _)]; [done|].
    rewrite He in He0. injection He0 as <-. by destruct (step_not_closed _ _ _ Hs).
  - exfalso. unfold publish_session in Hrun. cbv zeta in Hrun.
    apply M_bind_done in Hrun as (db1 & out & (Hrun & _)%translating_done%committed_done & _).
    apply M_bind_done in Hrun as (db2 & record & (-> & _ & (_ & Ho & _) & e1 & He1 & <-)%locked_record_done & _).
    rewrite He in He1. injection He1 as <-. rewrite Hcl in Ho. by destruct Ho.
Qed.

(** C11 An operation is committed once.  When a publication has changed the database, whether or
    not its acknowledgement arrived, then after any later calls that leave the session in the
    database (only the purge of its tombstone, long after it was closed, removes it) a second
    publication under the same operation changes nothing; and where it is answered, the answer is the receipt of the
    first one: it was asked with the same fingerprint, it is a replay, and it carries the
    revision and the result the first one committed. *)
Theorem operation_committed_once env p db db' o calls env' p' db'' o' :
  db_ok digest cipher db → payload_valid (pu_payload p) = true → payload_valid (pu_payload p') = true →
  publish_session cipher env p db = (db', o) → db' ≠ db →
  Forall (λ call, registry_call_valid call = true) calls → kept (key_of (la_contract (pu_lease p))) calls db' →
  key_of (la_contract (pu_lease p')) = key_of (la_contract (pu_lease p)) → pu_operation_id p' = pu_operation_id p →
  publish_session cipher env' p' (runs calls db') = (db'', o') →
  db'' = runs calls db' ∧
  ∀ r st, o' = inr (r, st) → pu_request_fingerprint p' = pu_request_fingerprint p ∧ rs_replayed st = true ∧
    rs_operation_revision st = Some (pu_expected_revision p + 1) ∧ rs_operation_result st = Some (pu_operation_result p).
Proof.
  intros Hdb Hp Hp' Hrun Hne Hcalls Hkept Hk Hid Hrun'.
  destruct (publish_does digest cipher env p Hp db db' o Hrun) as [|(e & now & nonce & context & envelope & envelope' & He & Hs & -> & _ & Hr & Hctx & Henc)];
    [done|]. clear Hne Hrun.
  destruct (Hdb _ _ He) as [Hkey Hok]. pose proof (step_entry_ok digest cipher _ _ _ Hok Hs) as Hok'.
  set (w := mkOperation _ _ _ _ envelope') in *. set (e1 := mkEntry _ _ (_ ++ [w]) _) in *.
  assert (w ∈ en_operations e1) as Hw by (apply elem_of_app; right; by left).
  pose proof (proj1 (receipt_bounds e1 w Hok' Hw) : 0 < pu_expected_revision p + 1) as Hpos.
  pose proof (proj2 (sealed_receipt cipher (en_row e) _ _ _ _ _ _ _ _ Hr Hpos Hctx Henc)) as Hres. clear Hr Hctx Henc.
  destruct (calls_along keeps calls (set_entry (key_of (la_contract (pu_lease p))) e1 db) (key_of (la_contract (pu_lease p))) e1)
    as (e2 & He2 & Hc2 & _ & Hk2).
  1,4: intros; split_and!; [done..|by right].
  1: apply keeps_trans.
  1: apply step_keeps_receipts.
  1: done.
  1: done.
  1: by apply db_ok_set.
  1: apply session_set_eq.
  assert (db_ok digest cipher (runs calls (set_entry (key_of (la_contract (pu_lease p))) e1 db))) as Hdb2.
  { apply run_all_ok; [done|by apply db_ok_set]. }
  generalize dependent (runs calls (set_entry (key_of (la_contract (pu_lease p))) e1 db)). intros db2 Hrun' He2 Hdb2.
  destruct (Hdb2 _ _ He2) as [_ Hok2]. rewrite <-Hk in He2. destruct Hk2 as [Hcl|Hk2].
  - pose proof (publish_closed env' p' db2 e2 He2 Hcl Hp') as [x Hx]. rewrite Hx in Hrun'. by injection Hrun' as <- <-.
  - destruct (publish_replays env' p' db2 db'' o' e2 w He2 Hp' Hok2 (Hk2 _ Hw) (eq_sym Hid) Hrun') as [-> Hst].
    split; [done|]. intros r st Hr. destruct (Hst r st Hr) as (Hfp & ? & ? & _ & result & -> & Hres'). split_and!; try done.
    enough (operation_result_from_row cipher (en_row e2) w (or_operation_id w) (or_request_fingerprint w) =
      operation_result_from_row cipher (en_row e) w (or_operation_id w) (or_request_fingerprint w)) as Heq.
    { rewrite Heq in Hres'. pose proof (eq_trans (eq_sym Hres') Hres) as Hx. by injection Hx as ->. }
    unfold operation_result_from_row, result_context. by rewrite Hc2.
Qed.

End props.
