(* ===== verification/RegistryRefine.v ===== *)
(** * The session registry: its contract with the session coordinator

    The publication of the database refines the publication the session
    coordinator is proved against (durability/session_registry.py [publish],
    [SessionState.registry_publish]). *)

From stdpp Require Import gmap.
From S2P Require Import Prelude PyText Tokens Money Receipts Cart OrderScope SessionState SessionCommit Confirmation Encryption Registry RegistryLaws RegistryInv RegistryProps.
Local Open Scope Z_scope.
Local Open Scope list_scope.

Section props.
Context {K C : Type} `{!Aead K C} `{!AeadLaws K C} `{!PayloadCodec} `{!PayloadCodecLaws}.
Context (digest : list (string * json_scalar) → string) (cipher : AesGcmSessionCipher K).
Notation Row := (SessionRecord C).
Notation DB := (Database C).
Implicit Types (r : Row) (db : DB) (env : tx_env) (e : Entry C).

(** ** The contract of the session coordinator *)
Definition publication_valid p : bool :=
  payload_valid (pu_payload p) && (0 <=? pu_expected_revision p) && authority_identifier (pu_operation_id p)
  && hex64 (pu_request_fingerprint p).
(** The row the coordinator is proved against, read off a session. *)
Record views e (s : SessionRow) : Prop := {
  vw_active : row_active s = eq_lifecycle (sr_lifecycle (en_row e)) ACTIVE;
  vw_pending : row_rotation_pending s = pending_in (en_generations e);
  vw_revision : row_revision s = sr_session_revision (en_row e);
  vw_payload : restore_payload cipher (en_row e) = inr (row_payload s);
  vw_operations : Forall2 (λ o x, x.1 = or_operation_id o ∧ x.2.1 = (or_request_fingerprint o, or_committed_revision o) ∧
      operation_result_from_row cipher (en_row e) o (or_operation_id o) (or_request_fingerprint o) = inr x.2.2)
    (en_operations e) (row_operations s) }.
(** What the coordinator's model observes: the lease when the row is locked, and when it is written. *)
Definition view_env env p r : publish_env :=
  mkPublishEnv (negb (isSome (lease_authority_rejection r (pu_lease p) (tx_locked env)))) (holds_lease (pu_lease p) (tx_written env) r).
Definition same_answer (o : exc + Row * RestoredSessionState) (o' : exc + RestoredSessionState) : Prop :=
  match o, o' with
  | inr (_, st), inr st' => st = st'
  | inl x, inl x' => exc_cls x = exc_cls x'
  | _, _ => False
  end.

Lemma next_contexts r namespace n : record_valid r = true → authority_identifier namespace = true → 0 ≤ n →
  (∃ c, projection_context r namespace n = inr c) ∧
  ∀ id fp, authority_identifier id = true → hex64 fp = true → ∃ c, result_context r namespace n id fp = inr c.
Proof.
  intros Hv Hns Hn. destruct (record_valid_ids _ Hv) as [Hc _ _ _ _ _]. unfold contract_valid in Hc. bools.
  unfold projection_context, result_context, make_SessionEnvelopeContext, validated, validate_purpose. cbn.
  split; [|intros id fp Hid Hfp]; rewrite Hns; cbn;
    repeat match goal with Hx : authority_identifier ?s = true |- context [authority_identifier ?s] => rewrite Hx end;
    rewrite (proj2 (Z.leb_le 0 n)) by done; rewrite ?Hfp; cbn; eauto.
Qed.
Lemma find_none_fresh id l : List.find (λ o, String.eqb (or_operation_id o) id) l = None → id ∉ (or_operation_id <$> (l : list (OperationRow C))).
Proof.
  intros Hfind (o & -> & Hin)%list_elem_of_fmap.
  pose proof (List.find_none _ _ Hfind o (proj1 (list_elem_of_In _ _) Hin)) as Hn. cbn in Hn. by rewrite String.eqb_refl in Hn.
Qed.
Lemma views_find e s id : views e s →
  match List.find (λ o, String.eqb (or_operation_id o) id) (en_operations e) with
  | None => dget id (row_operations s) = None
  | Some w => ∃ result, dget id (row_operations s) = Some (or_request_fingerprint w, or_committed_revision w, result) ∧
      w ∈ en_operations e ∧ or_operation_id w = id ∧
      operation_result_from_row cipher (en_row e) w (or_operation_id w) (or_request_fingerprint w) = inr result
  end.
Proof.
  intros Hw. pose proof (vw_operations _ _ Hw) as Hops. clear Hw. induction Hops as [|w [i [[f n] result]] ws xs (Hi & Hf & Hr) _ IH]; [done|].
  cbn in Hi, Hf, Hr |- *. simplify_eq. destruct (String.eqb_spec (or_operation_id w) id) as [<-|Hne].
  - rewrite decide_True by done. exists result. split_and!; [done|by left|done|done].
  - rewrite decide_False by done. destruct (List.find _ _); [|done]. destruct IH as (r' & ? & ? & ? & ?). exists r'. split_and!; try done. by right.
Qed.
(** ** Running forward *)
Lemma bind_ok {A B} (m : M DB A) (k : A → M DB B) db db' a : m db = (db', inr a) → (m ≫= k) db = k a db'.
Proof. unfold mbind, M_bind. by intros ->. Qed.
Lemma bind_fails {A B} (m : M DB A) (k : A → M DB B) db db' x : m db = (db', inl x) → (m ≫= k) db = (db', inl x).
Proof. unfold mbind, M_bind. by intros ->. Qed.
Lemma require_ok {A} b c t (m : M DB A) db : b = true → (require b c t ;; m) db = m db.
Proof. by intros ->. Qed.
Lemma require_fails {A} b c t (m : M DB A) db : b = false → (require b c t ;; m) db = (db, inl (Exc c t)).
Proof. by intros ->. Qed.
Lemma lift_ok {A B} x a (k : A → M DB B) db : x = inr a → (lift x ≫= k) db = k a db.
Proof. by intros ->. Qed.
Lemma locked_record_is env a db e : session_of db (key_of (la_contract a)) = Some e → record_valid (en_row e) = true →
  locked_record env a db = (db, match lease_authority_rejection (en_row e) a (tx_locked env) with
                                | Some reason => inl (Exc LeaseAdmissionError reason) | None => inr (en_row e) end).
Proof.
  intros He Hv. unfold locked_record, locked_session. unfold mbind, M_bind, get. rewrite He. unfold record_from_row. rewrite Hv. cbn.
  by case_match.
Qed.
Lemma update_session_is k cond f db e : session_of db k = Some e → session_checks (f (en_row e)) = true →
  namespace_free db k (sr_checkpoint_namespace (f (en_row e))) = true →
  update_session k cond f db = if cond (en_row e) then (set_entry k (with_row f e) db, inr (Some (f (en_row e)))) else (db, inr None).
Proof.
  intros He Hc Hn. unfold update_session. unfold mbind, M_bind, get. rewrite He. destruct (cond _); [|done]. unfold require. by rewrite Hc, Hn.
Qed.
Lemma insert_operation_is k o db e : session_of db k = Some e → operation_checks o = true →
  operation_keys (en_operations e ++ [o]) = true →
  insert_operation k o db = (set_entry k (mkEntry (en_row e) (en_generations e) (en_operations e ++ [o]) (en_manifests e)) db, inr ()).
Proof. intros He Hc Hk. unfold insert_operation. unfold mbind, M_bind, get. rewrite He. unfold require. by rewrite Hc, Hk. Qed.
Lemma constrained_free db k e : constrained db → session_of db k = Some e → namespace_free db k (sr_checkpoint_namespace (en_row e)) = true.
Proof. intros Hu He. apply namespace_free_iff. intros k' e' He' Hne Ht. by apply (cn_across _ Hu k' e' k e). Qed.
Lemma identifier_text s : authority_identifier s = true → sql_text s = true.
Proof.
  assert (∀ t, sforall (λ c, negb (is_space c)) t = true → starts_with " " t = false) as Hstart.
  { intros [|c t]; [done|]. cbn [sforall starts_with]. intros [Hc _]%andb_true_iff. apply andb_false_iff. left.
    apply Ascii.eqb_neq. intros <-. discriminate Hc. }
  unfold authority_identifier, sql_text, ends_with. intros [Hn Hs]%andb_true_iff. rewrite Hn, (Hstart s Hs). cbn [negb andb].
  change (srev " ") with " ". rewrite Hstart; [done|]. by rewrite sforall_srev.
Qed.
Lemma published_checks r next (envelope : SessionEnvelope C) now : session_checks r = true → sr_lifecycle r ≠ CLOSED → 0 ≤ next → sr_created_at r ≤ now →
  se_payload_schema_version envelope = 2 → session_checks (published next envelope now r) = true.
Proof.
  unfold session_checks, published, eq_lifecycle. cbv zeta. cbn. intros Hc Hl Hn Hnow Hs.
  rewrite Hs, (proj2 (Z.leb_le 0 next) Hn), (proj2 (Z.leb_le _ _) Hnow). rewrite (bool_decide_eq_false_2 (sr_lifecycle r = CLOSED)) in * by done.
  rewrite !andb_true_iff in *. naive_solver.
Qed.
Lemma published_operation p r (envelope : SessionEnvelope C) next : publication_valid p = true → authority_identifier (sr_checkpoint_namespace r) = true →
  0 < next → se_payload_schema_version envelope = 2 →
  operation_checks (mkOperation (pu_operation_id p) (pu_request_fingerprint p) next (sr_checkpoint_namespace r) envelope) = true.
Proof.
  intros Hp Hns Hn Hs. unfold operation_checks. cbn. unfold publication_valid in Hp. bools.
  rewrite !identifier_text by done. rewrite Hs, (proj2 (Z.ltb_lt 0 next) Hn). by repeat match goal with Hx : hex64 _ = true |- _ => rewrite Hx end.
Qed.
Lemma next_keys e o : entry_ok digest cipher e → or_operation_id o ∉ (or_operation_id <$> en_operations e) →
  or_committed_revision o = sr_session_revision (en_row e) + 1 → operation_keys (en_operations e ++ [o]) = true.
Proof.
  intros Hok Hnew Hrev. destruct (ok_log _ _ _ Hok) as (start & Hs & Hl). unfold operation_keys. rewrite !fmap_app, Hl.
  apply andb_true_iff. split; apply bool_decide_eq_true_2, NoDup_app; cbn.
  - split_and!; [apply Hok| |apply NoDup_singleton]. by intros x Hx ->%list_elem_of_singleton.
  - split_and!; [apply NoDup_seqZ| |apply NoDup_singleton]. intros x Hx ->%list_elem_of_singleton. rewrite Hrev in Hx.
    apply elem_of_seqZ in Hx. lia.
Qed.
(** The publication of the coordinator's model, branch by branch. *)
Lemma registry_publish_runs penv n op fp pl v st : 0 ≤ n → authority_identifier op = true →
  registry_publish penv n op fp pl v st =
  if pe_locked penv then
    if row_active st then
      if row_rotation_pending st then (st, inl (Exc SessionStateWriteError "rotation_pending"))
      else match dget op (row_operations st) with
           | Some (f, k, w) =>
               if String.eqb f fp then
                 if k <=? row_revision st then (st, inr (mkRestored (row_payload st) (row_revision st) true (Some k) (Some w)))
                 else (st, inl (Exc ValidationError ""))
               else (st, inl (Exc SessionStateWriteError "operation_conflict"))
           | None =>
               if n =? row_revision st then
                 if pe_lease_live penv then
                   (mkRow true false (row_revision st + 1) pl (dset op (fp, row_revision st + 1, v) (row_operations st)),
                    inr (mkRestored pl (row_revision st + 1) false None None))
                 else (st, inl (Exc LeaseAdmissionError "lease_expired"))
               else (st, inl (Exc SessionStateWriteError "stale_revision"))
           end
    else (st, inl (Exc LeaseAdmissionError "lifecycle_rejected"))
  else (st, inl (Exc LeaseAdmissionError "")).
Proof.
  intros Hn Hop. unfold registry_publish, operation_receipt_matches_replay. rewrite Hop, (proj2 (Z.leb_le 0 n) Hn).
  destruct penv as [[] live], st as [[] [] rev pl0 ops]; try done; munfold_goal; cbn.
  all: destruct (dget op ops) as [[[f k] w]|]; cbn; [destruct (String.eqb f fp); [|done]; cbn; by destruct (k <=? rev)|].
  all: destruct (n =? rev); [|done]; by destruct live.
Qed.

Lemma encrypt_ok nonce p context : nonempty p = true → is_Some (dget (active_key_version cipher) (keys cipher)) →
  ∃ envelope : SessionEnvelope C, encrypt cipher nonce p context = inr envelope.
Proof. intros Hp [key Hkey]. unfold encrypt. rewrite Hp, Hkey. by eexists. Qed.
(** The transaction of a publication, once the lease is held on an active session with no rotation pending. *)
Definition publication env p (record : Row) : M DB ((Row * RestoredSessionState) + Row) :=
  let next := sr_session_revision record + 1 in
  let k := key_of (la_contract (pu_lease p)) in
  context ← lift (projection_context record (sr_checkpoint_namespace record) next);
  envelope ← lift (encrypt cipher (tx_nonce env) (payload_to_bytes (pu_payload p)) context);
  receipt ← lift (make_receipt (mkReceipt (pu_operation_id p) (pu_request_fingerprint p) (pu_operation_result p)));
  result_for ← lift (result_context record (sr_checkpoint_namespace record) next (pu_operation_id p) (pu_request_fingerprint p));
  result_envelope ← lift (encrypt cipher (tx_result_nonce env) (receipt_to_bytes receipt) result_for);
  updated ← update_session k
              (λ r, eq_lifecycle (sr_lifecycle r) ACTIVE && holds_lease (pu_lease p) (tx_written env) r
                    && (sr_session_revision r =? pu_expected_revision p))
              (published next envelope (tx_written env));
  row ← or_expired env record updated;
  insert_operation k (mkOperation (pu_operation_id p) (pu_request_fingerprint p) next (sr_checkpoint_namespace record) result_envelope) ;;
  mret (inr row).
Lemma publication_is env p db e s : let k := key_of (la_contract (pu_lease p)) in let next := sr_session_revision (en_row e) + 1 in
  session_of db k = Some e → entry_ok digest cipher e → constrained db → views e s → publication_valid p = true →
  is_Some (dget (active_key_version cipher) (keys cipher)) → sr_created_at (en_row e) ≤ tx_written env →
  sr_lifecycle (en_row e) = ACTIVE → pending_in (en_generations e) = false → pu_expected_revision p = sr_session_revision (en_row e) →
  pu_operation_id p ∉ (or_operation_id <$> en_operations e) →
  if holds_lease (pu_lease p) (tx_written env) (en_row e) then
    ∃ e', publication env p (en_row e) db = (set_entry k e' db, inr (inr (en_row e'))) ∧ record_valid (en_row e') = true ∧
      sr_session_revision (en_row e') = next ∧
      views e' (mkRow true false next (pu_payload p)
                  (row_operations s ++ [(pu_operation_id p, (pu_request_fingerprint p, next, pu_operation_result p))]))
  else ∃ reason, publication env p (en_row e) db = (db, inl (Exc LeaseAdmissionError reason)).
Proof.
  intros k next He Hok Hu Hw Hp [key Hkey] Hnow Hact Hpend Hexp Hnew.
  pose proof Hp as Hp0. unfold publication_valid in Hp0. bools.
  pose proof (ok_valid _ _ _ Hok) as Hv. destruct (record_valid_ids _ Hv) as [_ Hns _ _ _ _].
  destruct (next_contexts (en_row e) (sr_checkpoint_namespace (en_row e)) next Hv Hns ltac:(lia)) as [[context Hctx] Hctxs].
  destruct (Hctxs (pu_operation_id p) (pu_request_fingerprint p)) as [context' Hctx']; [done..|].
  destruct (encrypt_ok (tx_nonce env) _ context (payload_bytes_nonempty (pu_payload p)) ltac:(by eexists)) as [envelope Henc].
  assert (make_receipt (mkReceipt (pu_operation_id p) (pu_request_fingerprint p) (pu_operation_result p)) =
    inr (mkReceipt (pu_operation_id p) (pu_request_fingerprint p) (pu_operation_result p))) as Hreceipt.
  { unfold make_receipt, validated. cbn. by repeat match goal with Hx : _ = true |- context [if ?b then _ else _] => rewrite Hx; cbn end. }
  destruct (encrypt_ok (tx_result_nonce env) _ context' (receipt_bytes_nonempty
    (mkReceipt (pu_operation_id p) (pu_request_fingerprint p) (pu_operation_result p))) ltac:(by eexists)) as [envelope' Henc'].
  unfold publication. cbv zeta. fold next. rewrite (lift_ok _ _ _ _ Hctx), (lift_ok _ _ _ _ Henc), (lift_ok _ _ _ _ Hreceipt),
    (lift_ok _ _ _ _ Hctx'), (lift_ok _ _ _ _ Henc').
  assert (session_checks (published next envelope (tx_written env) (en_row e)) = true) as Hchecks.
  { apply published_checks; [apply Hok|congruence|lia|done|]. rewrite (encrypt_schema _ _ _ _ _ Henc). by eapply projection_context_schema. }
  pose proof (update_session_is k (λ r, eq_lifecycle (sr_lifecycle r) ACTIVE && holds_lease (pu_lease p) (tx_written env) r
     && (sr_session_revision r =? pu_expected_revision p)) _ db e He Hchecks (constrained_free _ _ _ Hu He)) as Hupd. cbv beta in Hupd.
  assert (eq_lifecycle (sr_lifecycle (en_row e)) ACTIVE = true) as Hact' by by apply bool_decide_eq_true_2.
  rewrite Hact', Hexp, Z.eqb_refl, andb_true_r in Hupd. cbn [andb] in Hupd. rewrite <-Hexp in Hupd.
  destruct (holds_lease (pu_lease p) (tx_written env) (en_row e)) eqn:Hheld.
  2: { rewrite Hexp in Hupd |- *. rewrite (bind_ok _ _ _ _ _ Hupd). by eexists. }
  set (w := mkOperation (pu_operation_id p) (pu_request_fingerprint p) next (sr_checkpoint_namespace (en_row e)) envelope').
  set (e' := mkEntry (published next envelope (tx_written env) (en_row e)) (en_generations e) (en_operations e ++ [w]) (en_manifests e)).
  assert (entry_ok digest cipher e') as Hok'.
  { eapply (publish_ok digest cipher p _ _ _ context context'); [done|by right|done|done|done|exact Hctx|exact Henc|by rewrite Hreceipt|exact Hctx'|exact Henc'|done]. }
  pose proof (insert_operation_is k w (set_entry k (with_row (published next envelope (tx_written env)) e) db)
    (with_row (published next envelope (tx_written env)) e) (session_set_eq _ _ _)) as Hins.
  assert (operation_checks w = true) as Hop.
  { apply published_operation; [done|done|lia|]. rewrite (encrypt_schema _ _ _ _ _ Henc'). exact (proj2 (result_context_done _ _ _ _ _ _ Hctx')). }
  assert (operation_keys (en_operations e ++ [w]) = true) as Hks by by apply next_keys.
  exists e'. split_and!.
  - rewrite Hexp in Hupd |- *. rewrite (bind_ok _ _ _ _ _ Hupd). cbn [or_expired].
    etransitivity; [apply bind_ok; reflexivity|]. rewrite (bind_ok _ _ _ _ _ (Hins Hop Hks)). by rewrite set_set.
  - apply Hok'.
  - done.
  - split; unfold e'; cbn [row_active row_rotation_pending row_revision row_payload row_operations en_row en_generations en_operations]; try done.
    + by eapply (sealed_restores cipher (en_row e)).
    + apply Forall2_app; [apply Hw|]. apply Forall2_cons_2; [|done]. cbn [fst snd]. split_and!; [done..|].
      refine (proj2 (sealed_receipt cipher (en_row e) _ _ _ _ _ _ _ _ _ _ Hctx' Henc')); [by rewrite Hreceipt|lia].
Qed.
Lemma published_answer (r : Row) pl n : record_valid r = true → sr_session_revision r = n →
  ∀ db, (record ← lift (record_from_row r);
         let restored := mkRestored pl (sr_session_revision record) false None None in
         restored ← lift (validated (operation_receipt_matches_replay restored) restored);
         mret (record, restored) : M DB (Row * RestoredSessionState)) db = (db, inr (r, mkRestored pl n false None None)).
Proof. intros Hv <- db. unfold record_from_row. rewrite Hv. done. Qed.

(** The transaction of [publish_session]. *)
Definition publish_transaction env p : M DB ((Row * RestoredSessionState) + Row) :=
  let a := pu_lease p in
  let k := key_of (la_contract a) in
  record ← locked_record env a;
  require (eq_lifecycle (sr_lifecycle record) ACTIVE) LeaseAdmissionError "lifecycle_rejected" ;;
  rows ← generation_rows k;
  require (negb (existsb (in_state gs_pending) rows)) SessionStateWriteError "rotation_pending" ;;
  db ← get;
  let receipt := List.find (λ o, String.eqb (or_operation_id o) (pu_operation_id p))
                   (match session_of db k with Some e => en_operations e | None => [] end) in
  match receipt with
  | Some o =>
      require (String.eqb (or_request_fingerprint o) (pu_request_fingerprint p)) SessionStateWriteError "operation_conflict" ;;
      payload ← lift (restore_payload cipher record);
      result ← lift (operation_result_from_row cipher record o (pu_operation_id p) (pu_request_fingerprint p));
      let restored := mkRestored payload (sr_session_revision record) true (Some (or_committed_revision o)) (Some result) in
      restored ← lift (validated (operation_receipt_matches_replay restored) restored);
      mret (inl (record, restored))
  | None =>
      require (pu_expected_revision p =? sr_session_revision record) SessionStateWriteError "stale_revision" ;;
      publication env p record
  end.
Definition publish_answer p (outcome : (Row * RestoredSessionState) + Row) : M DB (Row * RestoredSessionState) :=
  match outcome with
  | inl replay => mret replay
  | inr row =>
      r ← lift (record_from_row row);
      let restored := mkRestored (pu_payload p) (sr_session_revision r) false None None in
      restored ← lift (validated (operation_receipt_matches_replay restored) restored);
      mret (r, restored)
  end.
Lemma publish_session_is env p : publish_session cipher env p =
  (translating (registry_failure "session state publication failed") (committed env (publish_transaction env p)) ≫= publish_answer p).
Proof. reflexivity. Qed.

Lemma transaction_agrees env p db e s : let k := key_of (la_contract (pu_lease p)) in
  session_of db k = Some e → entry_ok digest cipher e → constrained db → views e s →
  publication_valid p = true → is_Some (dget (active_key_version cipher) (keys cipher)) → sr_created_at (en_row e) ≤ tx_written env →
  let '(s', o') := registry_publish (view_env env p (en_row e)) (pu_expected_revision p) (pu_operation_id p) (pu_request_fingerprint p)
                     (pu_payload p) (pu_operation_result p) s in
  match o' with
  | inl x' => s' = s ∧ ∃ x, publish_transaction env p db = (db, inl x) ∧ exc_cls x = exc_cls x' ∧ is_psycopg x = false
  | inr st => ∃ e' out r, publish_transaction env p db = (set_entry k e' db, inr out) ∧ views e' s' ∧
      ∀ db1, publish_answer p out db1 = (db1, inr (r, st))
  end.
Proof.
  intros k He Hok Hu Hw Hp Hkey Hnow.
  assert (set_entry k e db = db) as Hsame by (unfold set_entry, k; rewrite insert_id by done; by destruct db).
  pose proof Hp as Hp0. unfold publication_valid in Hp0. bools.
  rewrite registry_publish_runs by done. unfold publish_transaction. cbv zeta. fold k.
  pose proof (locked_record_is env (pu_lease p) db e He (ok_valid _ _ _ Hok)) as Hlock.
  cbn [pe_locked pe_lease_live view_env]. destruct (lease_authority_rejection _ _ _) as [reason|]; cbn [isSome negb].
  { split; [done|]. eexists. split; [by apply bind_fails|done]. }
  rewrite (bind_ok _ _ _ _ _ Hlock), (vw_active _ _ Hw).
  destruct (eq_lifecycle (sr_lifecycle (en_row e)) ACTIVE) eqn:Hact; [|split; [done|]; eexists; split; [by apply require_fails|done]].
  rewrite require_ok by done. unfold eq_lifecycle in Hact. bools.
  assert (generation_rows k db = (db, inr (en_generations e))) as Hrows.
  { unfold generation_rows. unfold mbind, M_bind, get. by rewrite He. }
  rewrite (bind_ok _ _ _ _ _ Hrows), (vw_pending _ _ Hw). unfold pending_in.
  destruct (existsb _ (en_generations e)) eqn:Hpend; [split; [done|]; eexists; split; [by apply require_fails|done]|].
  rewrite require_ok by done. rewrite (bind_ok _ _ db db db) by done. rewrite He.
  pose proof (views_find e s (pu_operation_id p) Hw) as Hfind.
  destruct (List.find _ (en_operations e)) as [w|] eqn:Hnone.
  - destruct Hfind as (result & -> & Hin & Hwid & Hres).
    destruct (String.eqb_spec (or_request_fingerprint w) (pu_request_fingerprint p)) as [Hfp|Hfp];
      [|split; [done|]; eexists; split; [by apply require_fails|done]].
    destruct (receipt_bounds digest cipher e w Hok Hin) as [_ Hle]. rewrite (vw_revision _ _ Hw), (proj2 (Z.leb_le _ _) Hle).
    rewrite require_ok by done. rewrite (lift_ok _ _ _ _ (vw_payload _ _ Hw)).
    rewrite Hwid, Hfp in Hres. rewrite (lift_ok _ _ _ _ Hres). unfold operation_receipt_matches_replay. cbn. rewrite (proj2 (Z.leb_le _ _) Hle).
    eexists e, _, _. split; [by rewrite Hsame|]. split; [done|]. by intros db1.
  - rewrite Hfind, (vw_revision _ _ Hw).
    destruct (Z.eqb_spec (pu_expected_revision p) (sr_session_revision (en_row e))) as [Hexp|];
      [|split; [done|]; eexists; split; [by apply require_fails|done]].
    rewrite require_ok by done.
    assert (pu_operation_id p ∉ or_operation_id <$> en_operations e) as Hnew by by apply find_none_fresh.
    pose proof (publication_is env p db e s He Hok Hu Hw Hp Hkey Hnow Hact Hpend Hexp Hnew) as Hpub.
    destruct (holds_lease _ _ _).
    + destruct Hpub as (e' & Hpub & Hv' & Hrev & Hw'). exists e', (inr (en_row e')), (en_row e'). split; [exact Hpub|].
      split; [|by apply published_answer]. rewrite dset_fresh by done. exact Hw'.
    + destruct Hpub as [reason Hpub]. split; [done|]. eexists. by split.
Qed.

(** C12 The publication of the database is the publication the session coordinator is proved
    against.  On a session of a reachable database whose row the coordinator's row views, a
    well-formed publication leaves a session that the coordinator's next row views, in place of
    the first and of no other, and gives the same answer: the same restored state, or an error of
    the same class.  When the connection is lost before the commit nothing is changed, and when
    it is lost after it, an accepted publication is stored although the caller sees the loss. *)
Theorem publish_refines_coordinator env p db k e s db' o s' o' :
  k = key_of (la_contract (pu_lease p)) → db_ok digest cipher db → constrained db → session_of db k = Some e → views e s →
  publication_valid p = true → is_Some (dget (active_key_version cipher) (keys cipher)) → sr_created_at (en_row e) ≤ tx_written env →
  publish_session cipher env p db = (db', o) →
  registry_publish (view_env env p (en_row e)) (pu_expected_revision p) (pu_operation_id p) (pu_request_fingerprint p)
    (pu_payload p) (pu_operation_result p) s = (s', o') →
  let stored := ∃ e', db' = set_entry k e' db ∧ views e' s' in
  match tx_fault env with
  | no_fault => stored ∧ same_answer o o'
  | lost_before_commit => db' = db ∧ o = inl (Exc TimeoutError "")
  | lost_after_commit => stored ∧ match o' with inr _ => o = inl (Exc TimeoutError "") | inl _ => same_answer o o' end
  end.
Proof.
  intros -> Hdb Hu He Hw Hp Hkey Hnow Hrun Hspec stored. destruct (Hdb _ _ He) as [_ Hok].
  assert (set_entry (key_of (la_contract (pu_lease p))) e db = db) as Hsame.
  { unfold set_entry. rewrite insert_id by done. by destruct db. }
  pose proof (transaction_agrees env p db e s He Hok Hu Hw Hp Hkey Hnow) as Ht. rewrite Hspec in Ht.
  rewrite publish_session_is in Hrun. unfold committed, transaction, translating in Hrun.
  destruct o' as [x'|st].
  - destruct Ht as (-> & x & Ht & Hx & Hps). unfold mbind, M_bind in Hrun. rewrite Ht in Hrun. unfold registry_failure in Hrun.
    destruct (tx_fault env); cbn in Hrun; rewrite ?Hps in Hrun; simplify_eq; try done; (split; [|done]); exists e; by rewrite Hsame.
  - destruct Ht as (e' & out & r & Ht & Hw' & Hans). unfold mbind, M_bind in Hrun. rewrite Ht in Hrun.
    destruct (tx_fault env); cbn in Hrun.
    + rewrite Hans in Hrun. simplify_eq. split; [by exists e'|done].
    + by simplify_eq.
    + simplify_eq. split; [by exists e'|done].
Qed.
End props.
