(* ===== verification/RegistryExamples.v ===== *)
(** * The session registry on concrete histories

    A payload codec, a fingerprint and a cipher for which the assumed laws
    hold, and the theorems of the registry applied to short histories. *)

From stdpp Require Import gmap.
From Stdlib Require Import QArith_base.
From S2P Require Import Prelude PyText Money Receipts Cart OrderScope SessionState SessionCommit Confirmation Encryption Registry RegistryLaws RegistryInv RegistryLog RegistryProps RegistryRefine.
Local Open Scope Z_scope.
Local Open Scope list_scope.

(** ** A payload codec *)
#[local] Instance CartOperation_countable : Countable CartOperation.
Proof.
  refine (inj_countable' (λ o, match o with add => 0%nat | remove => 1%nat | set_quantity_op => 2%nat end)
    (λ n, match n with 0%nat => add | 1%nat => remove | _ => set_quantity_op end) _). by intros [].
Defined.
#[local] Instance MutationOutcome_countable : Countable MutationOutcome.
Proof. refine (inj_countable' (λ o, bool_decide (o = applied)) (λ b : bool, if b then applied else unchanged) _). by intros []. Defined.
#[local] Instance OrderContextOperation_countable : Countable OrderContextOperation.
Proof.
  refine (inj_countable' (λ o, match o with op_read => 0%nat | op_list => 1%nat | op_place => 2%nat | op_cancel => 3%nat
                                          | op_refund => 4%nat | op_return => 5%nat end)
    (λ n, match n with 0%nat => op_read | 1%nat => op_list | 2%nat => op_place | 3%nat => op_cancel | 4%nat => op_refund
                     | _ => op_return end) _). by intros [].
Defined.
#[local] Instance CartLine_countable : Countable CartLine.
Proof.
  refine (inj_countable' (λ l, (cl_sku l, cl_name l, cl_price_usd l, cl_quantity l)) (λ '(a, b, c, d), mkCartLine a b c d) _). by intros [].
Defined.
#[local] Instance CartMutationRecord_countable : Countable CartMutationRecord.
Proof.
  refine (inj_countable' (λ r, (cm_operation r, cm_sku r, cm_name r, cm_price_usd r, cm_quantity r,
      (cm_pre_confirm_quantity r, cm_previous_quantity r, cm_final_quantity r, cm_outcome r)))
    (λ '(a, b, c, d, e, (f, g, h, i)), mkCartMutationRecord a b c d e f g h i) _). by intros [].
Defined.
#[local] Instance CartMutationReceipt_eq_dec : EqDecision CartMutationReceipt.
Proof. solve_decision. Defined.
#[local] Instance CartMutationReceipt_countable : Countable CartMutationReceipt.
Proof. refine (inj_countable' (λ r, (rc_idempotency_key r, Cart.rc_record r)) (λ '(a, b), mkCartMutationReceipt a b) _). by intros []. Defined.
#[local] Instance CartSessionState_eq_dec : EqDecision CartSessionState.
Proof. solve_decision. Defined.
#[local] Instance CartSessionState_countable : Countable CartSessionState.
Proof. refine (inj_countable' (λ s, (cs_lines s, cs_mutation_receipts s)) (λ '(a, b), mkCartSessionState a b) _). by intros []. Defined.
#[local] Existing Instance Recent.RecentOrderSnapshot_eq_dec.
#[local] Instance RecentOrderSnapshot_countable : Countable Recent.RecentOrderSnapshot.
Proof.
  refine (inj_countable' (λ s, (Recent.focused_order_ref s, Recent.order_refs s, Recent.operation s, Recent.outcomes s, Recent.complete s))
    (λ '(a, b, c, d, e), Recent.mkSnapshot a b c d e) _). by intros [].
Defined.
#[local] Instance DurableSessionPayload_eq_dec : EqDecision DurableSessionPayload.
Proof. solve_decision. Defined.
#[local] Instance DurableSessionPayload_countable : Countable DurableSessionPayload.
Proof.
  refine (inj_countable' (λ p, (dp_cart p, dp_recent_orders p, dp_guest_order_refs p, dp_principal_retirement p))
    (λ '(a, b, c, d), mkPayload a b c d) _). by intros [].
Defined.
#[local] Instance SessionOperationResult_eq_dec : EqDecision SessionOperationResult.
Proof. solve_decision. Defined.
#[local] Instance SessionOperationResult_countable : Countable SessionOperationResult.
Proof.
  refine (inj_countable' (λ r, match r with EmptySessionOperationResult => None | CartMutationSessionOperationResult m => Some m end)
    (λ o, match o with None => EmptySessionOperationResult | Some m => CartMutationSessionOperationResult m end) _). by intros [].
Defined.
#[local] Instance SessionOperationReceiptPayload_eq_dec : EqDecision SessionOperationReceiptPayload.
Proof. solve_decision. Defined.
#[local] Instance SessionOperationReceiptPayload_countable : Countable SessionOperationReceiptPayload.
Proof.
  refine (inj_countable' (λ r, (rp_operation_id r, rp_request_fingerprint r, rp_result r)) (λ '(a, b, c), mkReceipt a b c) _). by intros [].
Defined.

Fixpoint bits (p : positive) : string :=
  match p with xH => "1" | xO p => String "0" (bits p) | xI p => String "1" (bits p) end.
Fixpoint of_bits (s : string) : option positive :=
  match s with
  | "" => None
  | String c "" => Some xH
  | String c s' => if ascii_dec c "0" then xO <$> of_bits s' else xI <$> of_bits s'
  end.
Lemma of_bits_bits p : of_bits (bits p) = Some p.
Proof.
  induction p as [p IH|p IH|]; [| |done]; cbn; rewrite IH; by destruct (bits p) eqn:Hb; [destruct p|].
Qed.
Definition to_text {A} `{Countable A} (x : A) : string := bits (encode x).
Definition of_text {A} `{Countable A} (s : string) : res A :=
  match of_bits s ≫= decode with Some x => inr x | None => raises ValueError "" end.
#[export] Instance reference_codec : PayloadCodec := {|
  payload_to_bytes := to_text;
  payload_from_bytes s := p ← of_text s; guest_order_refs_are_canonical (dp_guest_order_refs p) ;; inr p;
  receipt_to_bytes := to_text;
  receipt_from_bytes s := r ← of_text s; make_receipt r |}.
Lemma of_to_text {A} `{Countable A} (x : A) : of_text (to_text x) = inr x.
Proof. unfold of_text, to_text. rewrite of_bits_bits. cbn. by rewrite decode_encode. Qed.
#[export] Instance reference_codec_laws : PayloadCodecLaws.
Proof.
  split; cbn.
  - intros p Hp. rewrite of_to_text. unfold payload_valid in Hp. cbn. by destruct (guest_order_refs_are_canonical _) as [|[]].
  - intros p. unfold to_text. by destruct (encode p).
  - intros r Hr. rewrite of_to_text. cbn. unfold make_receipt, validated in *. by destruct (_ && _).
  - intros r. unfold to_text. by destruct (encode r).
Qed.

(** ** A deployment *)
(** A fingerprint of the text it is taken of. *)
Fixpoint repeat_char (c : ascii) (n : nat) : string := match n with O => "" | S n => String c (repeat_char c n) end.
Definition reference_digest (l : list (string * json_scalar)) : string :=
  let n := Nat.min 64 (foldr (λ (x : string * json_scalar) m, match x.2 with js_str s => String.length s + m | _ => m end)%nat 0%nat l) in
  repeat_char "a" n +:+ repeat_char "0" (64 - n).
Definition reference_cipher : AesGcmSessionCipher string := mkCipher "k1" [("k1", "secret")].
Definition a_contract : SessionContract := mkContract "acme" (mkAdmitted "s1" (mkTransport "room" "job" "worker")) "dep" "graph" "cfg".
Definition at_time (t : Z) (fault : Fault) : tx_env := mkTx t t t t "n" "m" fault.
Definition a_lease : SessionLeaseAuthority := mkLease a_contract "w1" 1.
Definition fingerprint : string := repeat_char "f" 64.
Definition a_publication (revision : Z) (op : string) : SessionStatePublication :=
  mkPublication a_lease revision op fingerprint empty_payload EmptySessionOperationResult.
(** A session of two days, leased for a minute, and activated. *)
Definition opened : list registry_call :=
  [call_register (at_time 0 no_fault) (mkRegistration a_contract 0 0 (Some (172800#1)%Q)) (mkLeaseRequest "w1" (Some (60#1)%Q)) empty_payload;
   call_activate (at_time 1 no_fault) a_lease].
Abbreviation live := (run_all reference_digest reference_cipher opened (empty_database (C := sealed_text))).
Abbreviation run := (run_registry (C := sealed_text) reference_digest reference_cipher).
Abbreviation runs := (run_all (C := sealed_text) reference_digest reference_cipher).
Example opened_live : sr_lifecycle ∘ en_row <$> session_of live ("acme", "s1") = Some ACTIVE.
Proof. vm_compute. reflexivity. Qed.

Lemma opened_valid : Forall (λ call, registry_call_valid call = true) opened.
Proof. by repeat constructor. Qed.
Lemma live_ok : db_ok reference_digest reference_cipher live.
Proof. apply run_all_ok; [apply opened_valid|apply empty_database_ok]. Qed.
Definition entry_of (db : Database sealed_text) : Entry sealed_text :=
  default (mkEntry (mkRecord a_contract CLOSED "" 0 0 0 None None None 0 None 0 0) [] [] []) (session_of db ("acme", "s1")).

(** The session stays sound through a publication whose acknowledgement is lost, and through its close. *)
Definition a_history : list registry_call := opened ++
  [call_publish (at_time 2 lost_after_commit) (a_publication 0 "op-1");
   call_publish (at_time 3 no_fault) (a_publication 0 "op-1");
   call_begin_close (at_time 4 no_fault) a_lease (mkCloseRequest "close-1" "reaper" (Some (60#1)%Q));
   call_close_deletion (at_time 5 no_fault) (mkClose a_contract "close-1" "reaper" 2) "s1::fence::1";
   call_finalize (at_time 6 no_fault) (mkClose a_contract "close-1" "reaper" 2) (Some (86400#1)%Q)].
Example a_history_closes : sr_lifecycle ∘ en_row <$> session_of (runs a_history empty_database) ("acme", "s1") = Some CLOSED.
Proof. vm_compute. reflexivity. Qed.
(** The session half way, with the receipt of its publication. *)
Definition published_history : list registry_call := opened ++ [call_publish (at_time 2 lost_after_commit) (a_publication 0 "op-1")].
Lemma registry_sessions_sound_witness :
  sr_lifecycle (en_row (entry_of (runs a_history empty_database))) = CLOSED ∧ constrained (runs a_history empty_database) ∧
  restore_payload reference_cipher (en_row (entry_of (runs published_history empty_database))) = inr empty_payload.
Proof.
  destruct (registry_sessions_sound reference_digest reference_cipher a_history ltac:(by repeat constructor)) as [_ Hcon].
  destruct (registry_sessions_sound reference_digest reference_cipher published_history ltac:(by repeat constructor)) as [Hs _].
  split_and!; [vm_compute; reflexivity|exact Hcon|].
  destruct (Hs ("acme", "s1") (entry_of (runs published_history empty_database))) as (_ & _ & Hac); [vm_compute; reflexivity|].
  destruct (ac_payload _ _ _ _ Hac) as (payload & -> & Hlast); [vm_compute; discriminate|].
  assert (last (en_operations (entry_of (runs published_history empty_database))) ≠ None) as Hne by (vm_compute; discriminate).
  destruct (last _) as [w|]; [|by destruct Hne].
  destruct Hlast as (p & ((env & Hin) & _) & <- & _).
  apply elem_of_cons in Hin as [[=]|Hin]. apply elem_of_cons in Hin as [[=]|Hin]. apply list_elem_of_singleton in Hin.
  by injection Hin as _ ->.
Defined.

(** A worker whose session was taken for its close no longer publishes. *)
Definition taken : list registry_call := opened ++
  [call_begin_close (at_time 2 no_fault) a_lease (mkCloseRequest "close-1" "reaper" (Some (60#1)%Q))].
Lemma taken_ok : db_ok reference_digest reference_cipher (runs taken empty_database).
Proof. apply run_all_ok; [by repeat constructor|apply empty_database_ok]. Qed.
Lemma stale_fence_shut_out_witness :
  let db := runs [call_close_deletion (at_time 3 no_fault) (mkClose a_contract "close-1" "reaper" 2) "s1::fence::1"] (runs taken empty_database) in
  ∃ x, run (call_publish (at_time 4 no_fault) (a_publication 0 "op-1")) db = (db, Some x).
Proof.
  destruct (stale_fence_shut_out reference_digest reference_cipher
    [call_close_deletion (at_time 3 no_fault) (mkClose a_contract "close-1" "reaper" 2) "s1::fence::1"]
    (call_publish (at_time 4 no_fault) (a_publication 0 "op-1")) (runs taken empty_database) a_contract 1
    (entry_of (runs taken empty_database)) taken_ok) as [Hx|(env & op & owner & e1 & [=] & _)].
  - vm_compute. reflexivity.
  - vm_compute. reflexivity.
  - by repeat constructor.
  - vm_compute. by split; [eexists|].
  - reflexivity.
  - exact Hx.
Defined.

(** A publication whose acknowledgement was lost, and its retry. *)
Lemma operation_committed_once_witness :
  let db' := (publish_session reference_cipher (at_time 2 lost_after_commit) (a_publication 0 "op-1") live).1 in
  ∃ st r, (publish_session reference_cipher (at_time 3 no_fault) (a_publication 7 "op-1") db').2 = inr (r, st) ∧
    rs_replayed st = true ∧ rs_operation_revision st = Some 1.
Proof.
  pose proof (operation_committed_once reference_digest reference_cipher (at_time 2 lost_after_commit) (a_publication 0 "op-1") live _ _ []
    (at_time 3 no_fault) (a_publication 7 "op-1") _ _ live_ok eq_refl eq_refl (surjective_pairing _)
    ltac:(intros Hx; apply (f_equal (λ db, sr_session_revision (en_row (entry_of db)))) in Hx; vm_compute in Hx; discriminate Hx)
    (Forall_nil_2 _) I eq_refl eq_refl (surjective_pairing _)) as [_ Hst].
  destruct (publish_session reference_cipher (at_time 3 no_fault) (a_publication 7 "op-1") _).2 as [x|[r st]] eqn:Ho.
  - exfalso. vm_compute in Ho. discriminate Ho.
  - exists st, r. destruct (Hst r st eq_refl) as (_ & ? & ? & _). by split_and!.
Defined.

(** The row the coordinator starts from, and its first publication. *)
Lemma publish_refines_coordinator_witness :
  let s := mkRow true false 0 empty_payload [] in
  let p := a_publication 0 "op-1" in
  ∃ e', (publish_session reference_cipher (at_time 2 no_fault) p live).1 = set_entry ("acme", "s1") e' live ∧
    views reference_cipher e' (mkRow true false 1 empty_payload [("op-1", (fingerprint, 1, EmptySessionOperationResult))]).
Proof.
  intros s p.
  refine (proj1 (publish_refines_coordinator reference_digest reference_cipher (at_time 2 no_fault) p live ("acme", "s1") (entry_of live) s
    _ _ _ _ eq_refl live_ok _ _ _ _ _ _ (surjective_pairing _) _)).
  - apply run_all_constrained, empty_constrained.
  - vm_compute. reflexivity.
  - split; try (vm_compute; reflexivity). vm_compute. constructor.
  - vm_compute. reflexivity.
  - vm_compute. by eexists.
  - vm_compute. discriminate.
  - vm_compute. reflexivity.
Defined.
