(* ===== verification/SessionClose.v ===== *)
(** * Closing durable sessions (durability/session_lifecycle.py)

    One fenced close for the live teardown and for the reaper: a claim bumps
    the fence, the checkpoint generations are deleted one by one under the
    claim, and the session becomes a tombstone.  The coordinator's methods are
    sequences of transactions on the registry; between two of them other
    workers may run any calls of their own. *)

From stdpp Require Import gmap.
From Stdlib Require Import QArith_base.
From S2P Require Import Prelude PyText Money Receipts Cart OrderScope SessionState Confirmation Encryption Registry RegistryLaws RegistryInv.
Local Open Scope Z_scope.
Local Open Scope list_scope.

(** ** Results *)
Record TenantReapResult := mkReap {
  tr_tenant_id : string; tr_sessions_closed : Z; tr_tombstones_purged : Z; tr_failure_count : Z }.
(** [TenantReapResult.__post_init__] *)
Definition make_reap_result (r : TenantReapResult) : res TenantReapResult :=
  requires (authority_identifier (tr_tenant_id r)) ValidationError "" ;;
  requires (0 <=? tr_sessions_closed r) ValueError "sessions_closed must be a non-negative integer" ;;
  requires (0 <=? tr_tombstones_purged r) ValueError "tombstones_purged must be a non-negative integer" ;;
  requires (0 <=? tr_failure_count r) ValueError "failure_count must be a non-negative integer" ;;
  inr r.
(** How a sweep of one tenant ends: [TenantReapFailure] keeps the result of the sweep. *)
Inductive ReapReply :=
  | reaped (r : TenantReapResult)
  | reap_failed (causes : list exc) (r : TenantReapResult)
  | reap_raised (e : exc).
(** [TenantReapFailure.__new__] *)
Definition tenant_reap_failure (causes : list exc) (r : TenantReapResult) : ReapReply :=
  if tr_failure_count r =? Z.of_nat (length causes) then reap_failed causes r
  else reap_raised (Exc ValueError "tenant reaper failure count must match its retained causes").

Record ReaperCycleResult := mkCycle { rr_tenants : list TenantReapResult }.
(** [ReaperCycleResult.__post_init__] *)
Definition make_cycle (r : ReaperCycleResult) : res ReaperCycleResult :=
  requires (bool_decide (NoDup (tr_tenant_id <$> rr_tenants r))) ValueError "reaper cycle tenant results must be unique" ;; inr r.
Definition sum_of {A} (f : A → Z) (l : list A) : Z := foldr (λ x n, f x + n) 0 l.
Definition cycle_sessions_closed (r : ReaperCycleResult) : Z := sum_of tr_sessions_closed (rr_tenants r).
Definition cycle_failure_count (r : ReaperCycleResult) : Z := sum_of tr_failure_count (rr_tenants r).
Definition failed_tenant_ids (r : ReaperCycleResult) : list string :=
  tr_tenant_id <$> List.filter (λ t, negb (tr_failure_count t =? 0)) (rr_tenants r).

(** ** The coordinator *)
Section close.
Context {K C : Type} `{!Aead K C} `{!PayloadCodec}.
Context (digest : list (string * json_scalar) → string) (cipher : AesGcmSessionCipher K).
(** What the n-th transaction observes, what other workers run before it, and the hexadecimal
    form of the n-th [uuid4()]. *)
Context (envs : nat → tx_env) (others : nat → list registry_call) (uuids : nat → string).
(** Whether the saved checkpoint of a generation ends in an interrupt: the saver of the checkpoint library. *)
Context (saved_interrupt : Database C → CheckpointGeneration → res bool).
Notation Row := (SessionRecord C).
Notation DB := (Database C).
Notation Claim := (SessionCloseClaim (C := C)).

Record World := mkWorld { w_db : DB; w_calls : nat; w_uuids : nat }.
(** One transaction, after what the others did. *)
Definition call {A} (m : tx_env → M DB A) : M World A := λ w,
  let '(db, o) := m (envs (w_calls w)) (run_all digest cipher (others (w_calls w)) (w_db w)) in
  (mkWorld db (S (w_calls w)) (w_uuids w), o).
Definition uuid : M World string := λ w, (mkWorld (w_db w) (w_calls w) (S (w_uuids w)), inr (uuids (w_uuids w))).

Record Coordinator := mkCoordinator {
  co_checkpoint_io_timeout_seconds : Q; co_close_lease_duration_seconds : Q; co_tombstone_retention_seconds : Q }.
(** [DurableSessionLifecycleCoordinator.__init__] *)
Definition make_coordinator (c : Coordinator) : res Coordinator :=
  requires (0 <? Qnum (co_checkpoint_io_timeout_seconds c)) ValueError "checkpoint close timeout must be positive" ;;
  requires (0 <? Qnum (co_close_lease_duration_seconds c)) ValueError "session close lease duration must be positive" ;;
  requires (0 <? Qnum (co_tombstone_retention_seconds c)) ValueError "closed tombstone retention must be positive" ;;
  inr c.
Context (co : Coordinator).
Definition close_lease : seconds := Some (co_close_lease_duration_seconds co).

(** [begin_live_close] *)
Definition begin_live_close (a : SessionLeaseAuthority) (operation_id lease_owner_id : string) : M World Claim :=
  let request := mkCloseRequest operation_id lease_owner_id close_lease in
  require (close_request_valid request) ValidationError "" ;;
  call (λ env, begin_close digest env a request).

(** [close_completed] *)
Definition close_completed (a : SessionLeaseAuthority) (operation_id : string) : M World bool :=
  record ← call (λ _, get_session (key_of (la_contract a)));
  mret match record with
       | None => false
       | Some r =>
           let c := sr_contract r in
           let ac := la_contract a in
           eq_lifecycle (sr_lifecycle r) CLOSED && bool_decide (sr_close_operation_id r = Some operation_id)
           && bool_decide (ct_authority c = ct_authority ac) && String.eqb (ct_deployment_id c) (ct_deployment_id ac)
           && String.eqb (ct_graph_contract c) (ct_graph_contract ac) && String.eqb (ct_config_version c) (ct_config_version ac)
       end.

(** [_refresh_claim] *)
Definition refresh_claim (claim : Claim) : M World Claim :=
  call (λ env, refresh_close digest env (cm_authority claim) close_lease).

(** [_averify_thread_deleted]: whether the backend lists a checkpoint of the thread. *)
Definition thread_remains env (a : CheckpointAuthority) (thread_id : string) : M DB bool :=
  committed env
    (authorized_generation digest env a thread_id op_read_checkpoint ;;
     db ← get;
     mret (bool_decide (thread_id ∈ db_checkpoints db))).
(** [SchemaValidatedCheckpointSaver.adelete_thread], bound to one generation *)
Definition delete_bound_thread (a : SessionCloseAuthority) (g : CheckpointGeneration) (thread_id : string) : M World unit :=
  require (storage_thread_format thread_id && String.eqb thread_id (gr_storage_thread_id (cg_row g))) CheckpointScopeError
    "checkpoint deletion is outside the bound tenant and deployment namespace" ;;
  call (λ env, adelete_thread digest env (by_close a) thread_id) ;;
  remains ← call (λ env, thread_remains env (by_close a) thread_id);
  require (negb remains) CheckpointDeletionError "checkpoint backend still contains checkpoints".

(** [_delete_generation] *)
Definition delete_generation (claim : Claim) (g : CheckpointGeneration) : M World Claim :=
  claim ← refresh_claim claim;
  delete_bound_thread (cm_authority claim) g (gr_storage_thread_id (cg_row g)) ;;
  claim ← refresh_claim claim;
  deleted ← call (λ env, record_close_checkpoint_deletion digest env (cm_authority claim) (gr_checkpoint_namespace (cg_row g)));
  require (cg_in_state gs_deleted deleted && String.eqb (gr_storage_thread_id (cg_row deleted)) (gr_storage_thread_id (cg_row g)))
    RuntimeError "session close recorded an inconsistent checkpoint deletion" ;;
  mret claim.

(** [checkpoint_has_pending_interrupt]: every retained generation, through the acquired fence. *)
Definition inspect_generation (a : SessionCloseAuthority) (g : CheckpointGeneration) env : M DB bool :=
  committed env
    (authorized_generation digest env (by_close a) (gr_storage_thread_id (cg_row g)) op_read_checkpoint ;;
     db ← get;
     lift (saved_interrupt db g)).
Fixpoint pending_interrupt (claim : Claim) (generations : list CheckpointGeneration) : M World bool :=
  match generations with
  | [] => mret false
  | g :: generations =>
      if cg_in_state gs_deleted g then pending_interrupt claim generations
      else
        claim ← refresh_claim claim;
        found ← call (inspect_generation (cm_authority claim) g);
        if found : bool then mret true else pending_interrupt claim generations
  end.
Definition checkpoint_has_pending_interrupt (claim : Claim) : M World bool := pending_interrupt claim (cm_generations claim).

(** [_finalize_registry_record] *)
Definition finalize_registry_record (a : SessionCloseAuthority) : M World Row :=
  closed ← call (λ env, finalize_close digest env a (Some (co_tombstone_retention_seconds co)));
  require (eq_lifecycle (sr_lifecycle closed) CLOSED && negb (isSome (sr_envelope closed))) RuntimeError
    "session close returned an incomplete tombstone" ;;
  mret closed.

Definition is_close_error (reason : string) (e : exc) : bool :=
  bool_decide (exc_cls e = SessionCloseError) && String.eqb (exc_msg e) reason.
Fixpoint delete_generations (generations : list CheckpointGeneration) (claim : Claim) : M World Claim :=
  match generations with
  | [] => mret claim
  | g :: generations => claim ← delete_generation claim g; delete_generations generations claim
  end.
(** [finalize]: where the claim is no longer eligible, the session may already be closed. *)
Definition finalize (claim : Claim) : M World Row :=
  let ineligible (claim : Claim) (e : exc) : M World Row :=
    if is_close_error "not_eligible" e then finalize_registry_record (cm_authority claim) else lift (inl e) in
  λ w, match refresh_claim claim w with
       | (w, inl e) => ineligible claim e w
       | (w, inr claim) =>
           match call (λ env, close_checkpoint_generations digest env (cm_authority claim)) w with
           | (w, inl e) => ineligible claim e w
           | (w, inr generations) =>
               (claim ← delete_generations generations claim;
                claim ← refresh_claim claim;
                finalize_registry_record (cm_authority claim)) w
           end
       end.

(** ** The reaper *)
(** [is_benign_race] *)
Definition is_benign_race (e : exc) : bool := is_close_error "not_eligible" e || is_close_error "wrong_close_owner" e.
(** One candidate: whether it was closed, and the failure it adds. *)
Definition reap_candidate (candidate : ExpiredSessionCandidate) : M World (bool * list exc) :=
  operation ← match ex_close_operation_id candidate with
              | Some id => if nonempty id then mret id else uuid
              | None => uuid
              end;
  owner ← uuid;
  let request := mkCloseRequest operation owner close_lease in
  require (close_request_valid request) ValidationError "" ;;
  (λ w : World,
       match call (λ env, claim_expired digest env candidate request) w with
       | (w, inl e) => (w, inr (false, if is_benign_race e then [] else [e]))
       | (w, inr claim) =>
           match finalize claim w with
           | (w, inl e) => (w, inr (false, if is_benign_race e then [] else [e]))
           | (w, inr _) => (w, inr (true, []))
           end
       end) : M World (bool * list exc).
Fixpoint reap_candidates (candidates : list ExpiredSessionCandidate) (closed : Z) (failures : list exc) : M World (Z * list exc) :=
  match candidates with
  | [] => mret (closed, failures)
  | candidate :: candidates =>
      '(done, more) ← reap_candidate candidate;
      reap_candidates candidates (if done : bool then closed + 1 else closed) (failures ++ more)
  end.
(** [reap_expired] *)
Definition reap_expired (tenant_id : string) (limit : nat) : World → World * ReapReply := λ w,
  match
    (candidates ← call (λ env, expired_sessions env tenant_id limit);
     reap_candidates candidates 0 []) w
  with
  | (w, inl e) => (w, reap_raised e)
  | (w, inr (closed, failures)) =>
      let '(w, purged, failures) :=
        match call (λ env, purge_closed_tombstones env tenant_id limit) w with
        | (w, inl e) => (w, 0, failures ++ [e])
        | (w, inr n) => (w, Z.of_nat n, failures)
        end in
      match make_reap_result (mkReap tenant_id closed purged (Z.of_nat (length failures))) with
      | inl e => (w, reap_raised e)
      | inr result => (w, if (length failures =? 0)%nat then reaped result else tenant_reap_failure failures result)
      end
  end.

(** ** The closer of one session *)
Record Closer := mkCloser {
  cl_authority : SessionLeaseAuthority; cl_operation_id : string; cl_lease_owner_id : string;
  cl_claim : option Claim; cl_finalized : bool }.
Definition set_claim (claim : Claim) (c : Closer) : Closer :=
  mkCloser (cl_authority c) (cl_operation_id c) (cl_lease_owner_id c) (Some claim) (cl_finalized c).
Definition set_finalized (c : Closer) : Closer :=
  mkCloser (cl_authority c) (cl_operation_id c) (cl_lease_owner_id c) (cl_claim c) true.
(** [bind] *)
Definition bind (a : SessionLeaseAuthority) : M World Closer :=
  operation ← uuid; owner ← uuid; mret (mkCloser a operation owner None false).
Definition live_close (c : Closer) : M World Claim := begin_live_close (cl_authority c) (cl_operation_id c) (cl_lease_owner_id c).
(** [begin_close] *)
Definition closer_begin (c : Closer) : M World Closer :=
  if isSome (cl_claim c) || cl_finalized c then mret c
  else λ w,
    match live_close c w with
    | (w, inr claim) => (w, inr (set_claim claim c))
    | (w, inl e) =>
        if bool_decide (exc_cls e = LeaseAdmissionError)
           && (String.eqb (exc_msg e) "lifecycle_rejected" || String.eqb (exc_msg e) "session_expired")
        then (completed ← close_completed (cl_authority c) (cl_operation_id c);
              if completed : bool then mret (set_finalized c) else lift (inl e)) w
        else (w, inl e)
    end.
(** [finalize_close]: the claim it keeps is the one of the last live close. *)
Definition closer_finalize (c : Closer) : World → World * Closer * res unit := λ w,
  if cl_finalized c then (w, c, inr tt)
  else
    match cl_claim c with
    | None => (w, c, raises RuntimeError "durable close was not begun")
    | Some claim =>
        match finalize claim w with
        | (w, inr _) => (w, set_finalized c, inr tt)
        | (w, inl e) =>
            if is_close_error "not_eligible" e then
              match live_close c w with
              | (w, inl e) => (w, c, inl e)
              | (w, inr claim) =>
                  let c := set_claim claim c in
                  match finalize claim w with
                  | (w, inl e) => (w, c, inl e)
                  | (w, inr _) => (w, set_finalized c, inr tt)
                  end
              end
            else (w, c, inl e)
        end
    end.
(** [checkpoint_has_pending_interrupt] *)
Definition closer_pending_interrupt (c : Closer) : M World bool :=
  if cl_finalized c then mret false
  else match cl_claim c with
       | None => raise RuntimeError "durable close was not begun"
       | Some claim => checkpoint_has_pending_interrupt claim
       end.
End close.

(** ** The sweep of every tenant *)
Section sweep.
Context {W : Type} (reap : string → nat → W → W * ReapReply).
Record Reaper := mkReaper { re_tenant_ids : list string; re_interval_seconds : seconds; re_batch_size : nat }.
(** [OperationalSessionReaper.__init__] *)
Definition make_reaper (tenant_ids : list string) (interval : seconds) (batch_size : nat) : res Reaper :=
  requires (forallb authority_identifier tenant_ids) ValidationError "" ;;
  requires (bool_decide (NoDup tenant_ids)) ValueError "session reaper tenant ids must be unique" ;;
  requires (match interval with Some q => 0 <? Qnum q | None => false end) ValueError
    "session reaper interval must be positive and finite" ;;
  requires (1 <=? batch_size)%nat ValueError "session reaper batch size must be a positive integer" ;;
  inr (mkReaper (sort_by str_leb tenant_ids) interval batch_size).
Definition failed_sweep (tenant : string) : TenantReapResult := mkReap tenant 0 0 1.
(** What one tenant adds to the cycle: its result, and its failure. *)
Definition tenant_outcome (tenant : string) (reply : ReapReply) : TenantReapResult * option exc :=
  match reply with
  | reaped r =>
      if String.eqb (tr_tenant_id r) tenant && (tr_failure_count r =? 0) then (r, None)
      else (failed_sweep tenant, Some (Exc ValueError "successful tenant reap result does not match its sweep"))
  | reap_failed _ r =>
      if String.eqb (tr_tenant_id r) tenant then (r, Some (Exc TenantReapFailure "one or more durable session cleanup operations failed"))
      else (failed_sweep tenant, Some (Exc BaseExceptionGroup "tenant reap result binding failed"))
  | reap_raised e => (failed_sweep tenant, Some e)
  end.
Inductive CycleReply :=
  | cycled (r : ReaperCycleResult)
  | cycle_failed (causes : list exc) (r : ReaperCycleResult)
  | cycle_raised (e : exc).
(** [ReaperCycleFailure.__new__] *)
Definition reaper_cycle_failure (causes : list exc) (r : ReaperCycleResult) : CycleReply :=
  if (length (failed_tenant_ids r) =? length causes)%nat then cycle_failed causes r
  else cycle_raised (Exc ValueError "reaper cycle failed-tenant count must match its retained causes").
Fixpoint sweep_tenants (tenants : list string) (batch : nat) (results : list TenantReapResult) (failures : list exc) (w : W)
    : W * (list TenantReapResult * list exc) :=
  match tenants with
  | [] => (w, (results, failures))
  | tenant :: tenants =>
      let '(w, reply) := reap tenant batch w in
      let '(result, failure) := tenant_outcome tenant reply in
      sweep_tenants tenants batch (results ++ [result]) (failures ++ match failure with Some e => [e] | None => [] end) w
  end.
(** [run_once] *)
Definition run_once (r : Reaper) (w : W) : W * CycleReply :=
  let '(w, (results, failures)) := sweep_tenants (re_tenant_ids r) (re_batch_size r) [] [] w in
  match make_cycle (mkCycle results) with
  | inl e => (w, cycle_raised e)
  | inr cycle => (w, if (length failures =? 0)%nat then cycled cycle else reaper_cycle_failure failures cycle)
  end.
(** [serve]: at once, then after every interval the stop event has not ended; the list says
    whether it was set during each cycle and during each wait. *)
Fixpoint serve (r : Reaper) (stops : list (bool * bool)) (w : W) : W :=
  match stops with
  | [] => w
  | (during, waiting) :: stops =>
      let w := (run_once r w).1 in
      if during || waiting then w else serve r stops w
  end.
End sweep.
