(* ===== verification/SessionCloseLaws.v ===== *)
(** * Closing durable sessions: a close completes

    Forward runs of the calls a close makes: without losses of the connection
    and while the clock of the database advances by less than the close lease
    between two calls, a claimed session becomes a tombstone that keeps
    nothing. *)

From stdpp Require Import gmap.
From Stdlib Require Import QArith_base.
From S2P Require Import Prelude PyText Money Receipts Cart OrderScope SessionState Confirmation Encryption Registry RegistryLaws RegistryInv RegistryProps RegistryRefine SessionClose.
Local Open Scope Z_scope.
Local Open Scope list_scope.

Section laws.
Context {K C : Type} `{!Aead K C} `{!AeadLaws K C} `{!PayloadCodec} `{!PayloadCodecLaws}.
Context (digest : list (string * json_scalar) → string) (cipher : AesGcmSessionCipher K).
Notation Row := (SessionRecord C).
Notation DB := (Database C).
Notation Claim := (SessionCloseClaim (C := C)).
Implicit Types (r : Row) (db : DB) (env : tx_env) (e : Entry C).

(** ** States of a close *)
(** A session under its key in a sound database. *)
Record sits db e : Prop := {
  si_ok : db_ok digest cipher db;
  si_con : constrained db;
  si_at : session_of db (key_of (sr_contract (en_row e))) = Some e }.
Lemma sits_ok db e : sits db e → entry_ok digest cipher e.
Proof. intros Hs. by destruct (si_ok _ _ Hs _ _ (si_at _ _ Hs)). Qed.
Lemma sits_run call db e e' : registry_call_valid call = true → sits db e →
  (run_registry digest cipher call db).1 = set_entry (key_of (sr_contract (en_row e))) e' db →
  sr_contract (en_row e') = sr_contract (en_row e) → sits (set_entry (key_of (sr_contract (en_row e))) e' db) e'.
Proof.
  intros Hv [Hok Hcon He] Hrun Hc. split.
  - rewrite <-Hrun. by apply run_registry_ok.
  - rewrite <-Hrun. by apply run_constrained.
  - rewrite Hc. apply session_set_eq.
Qed.
Lemma ran_at {A} (m : M DB A) db db' a : m db = (db', inr a) → (ran m db).1 = db'.
Proof. unfold ran. by intros ->. Qed.

Lemma locked_session_is k db e : session_of db k = Some e → record_valid (en_row e) = true → locked_session k db = (db, inr (en_row e)).
Proof. intros He Hv. unfold locked_session. unfold mbind, M_bind, get. rewrite He. unfold record_from_row. by rewrite Hv. Qed.
Lemma locked_close_record_is env a db e : session_of db (key_of (ca_contract a)) = Some e → record_valid (en_row e) = true →
  close_held a (tx_locked env) (en_row e) → locked_close_record env a db = (db, inr (en_row e)).
Proof.
  intros He Hv Hh. unfold locked_close_record. rewrite (bind_ok _ _ _ _ _ (locked_session_is _ _ _ He Hv)).
  apply close_held_iff in Hh. by rewrite Hh.
Qed.
Lemma committed_is {A} env (m : M DB A) db db' a : tx_fault env = no_fault → m db = (db', inr a) → committed env m db = (db', inr a).
Proof. intros Hf Hm. unfold committed, transaction. by rewrite Hf, Hm. Qed.
Lemma translating_is {A} f (m : M DB A) db db' a : m db = (db', inr a) → translating f m db = (db', inr a).
Proof. unfold translating. by intros ->. Qed.

(** ** Inventories *)
Definition inventory e : list CheckpointGeneration := scoped (sr_contract (en_row e)) <$> ordered (en_generations e).
Lemma inventory_is db e : session_of db (key_of (sr_contract (en_row e))) = Some e → entry_ok digest cipher e →
  checkpoint_generations_of digest (en_row e) false db = (db, inr (inventory e)).
Proof.
  intros He Hok. unfold checkpoint_generations_of.
  assert (generation_rows (key_of (sr_contract (en_row e))) db = (db, inr (en_generations e))) as Hrows.
  { unfold generation_rows. unfold mbind, M_bind, get. by rewrite He. }
  rewrite (bind_ok _ _ _ _ _ Hrows).
  assert (mapM (make_generation digest (sr_contract (en_row e))) (ordered (en_generations e)) = inr (inventory e)) as Hmap.
  { unfold inventory. assert (Forall (row_ok digest (sr_contract (en_row e))) (ordered (en_generations e))) as Hall.
    { rewrite ordered_perm. apply Hok. }
    revert Hall. induction (ordered (en_generations e)) as [|g l IH]; [done|]. intros [Hg Hl]%Forall_cons. cbn. rewrite Hg. cbn.
    by rewrite (IH Hl). }
  by rewrite (lift_ok _ _ _ _ Hmap).
Qed.
Lemma inventory_scope e : forallb (λ g, String.eqb (cg_tenant_id g) (ct_tenant_id (sr_contract (en_row e)))
  && String.eqb (cg_logical_session_id g) (ct_session (sr_contract (en_row e)))) (inventory e) = true.
Proof.
  apply forallb_forall. intros g Hg%list_elem_of_In. apply list_elem_of_fmap in Hg as (x & -> & _). cbn. by rewrite !String.eqb_refl.
Qed.

(** ** Claims *)
(** The claim a call on a closing session returns. *)
Definition claim_of e (claim : Claim) : Prop :=
  cm_record claim = en_row e ∧ cm_generations claim = inventory e ∧
  close_authority (en_row e) = inr (cm_authority claim).
Lemma close_claim_is db e op owner : session_of db (key_of (sr_contract (en_row e))) = Some e → entry_ok digest cipher e →
  sr_lifecycle (en_row e) = CLOSING → sr_close_operation_id (en_row e) = Some op → sr_lease_owner_id (en_row e) = Some owner →
  let a := mkClose (sr_contract (en_row e)) op owner (sr_fencing_generation (en_row e)) in
  close_claim digest (en_row e) db = (db, inr (mkClaim a (en_row e) (inventory e))).
Proof.
  intros He Hok Hl Hop Hown a. unfold close_claim, close_authority. rewrite Hop, Hown. rewrite (lift_ok (inr a) a _ _ eq_refl).
  rewrite (bind_ok _ _ _ _ _ (inventory_is db e He Hok)). unfold claim_matches_registry_state, eq_lifecycle, is_owner. cbn [cm_record cm_authority cm_generations a ca_contract ca_operation_id ca_lease_owner_id ca_fencing_generation].
  rewrite Hl, Hop, Hown, inventory_scope, Z.eqb_refl. rewrite !bool_decide_eq_true_2 by done. done.
Qed.

(** ** Leases *)
Lemma leased_checks r owner op t now : session_checks r = true → sr_lifecycle r ≠ CLOSED →
  authority_identifier owner = true → authority_identifier op = true → sr_created_at r < t → sr_created_at r ≤ now →
  session_checks (close_leased owner op t now r) = true.
Proof.
  unfold session_checks, close_leased, eq_lifecycle. cbv zeta. cbn. intros Hc Hl Ho%identifier_text Hop%identifier_text Ht Hnow.
  rewrite Ho, Hop, (proj2 (Z.ltb_lt _ _) Ht), (proj2 (Z.leb_le _ _) Hnow).
  rewrite (bool_decide_eq_false_2 (sr_lifecycle r = CLOSED)) in Hc by done. lifecycles. rewrite !andb_true_iff in *. destruct_and!.
  destruct (sr_envelope r); try done. cbn in *. split_and!; try done; bools; [apply Z.leb_le|apply Z.ltb_lt]; lia.
Qed.
Lemma extended_checks r t now : session_checks r = true → sr_lifecycle r = CLOSING → sr_created_at r < t → sr_created_at r ≤ now →
  session_checks (lease_extended t now r) = true.
Proof.
  unfold session_checks, lease_extended, eq_lifecycle. cbv zeta. cbn. intros Hc Hl Ht Hnow. rewrite Hl in *. lifecycles.
  rewrite (proj2 (Z.ltb_lt _ _) Ht), (proj2 (Z.leb_le _ _) Hnow). rewrite !andb_true_iff in *. destruct_and!.
  destruct (sr_lease_owner_id r); try done.
Qed.
Lemma tombstone_checks r expires now : session_checks r = true → sr_created_at r < expires → sr_created_at r ≤ now →
  session_checks (tombstone expires now r) = true.
Proof.
  unfold session_checks, tombstone, eq_lifecycle. cbv zeta. cbn. intros Hc Ht Hnow. lifecycles.
  rewrite (proj2 (Z.ltb_lt _ _) Ht), (proj2 (Z.leb_le _ _) Hnow). rewrite !andb_true_iff in *. destruct_and!. split_and!; done.
Qed.

Lemma take_close_is env db e request d : sits db e → sr_lifecycle (en_row e) ≠ CLOSED →
  (sr_close_operation_id (en_row e) = None ∨ sr_close_operation_id (en_row e) = Some (cr_operation_id request)) →
  close_request_valid request = true → lease_duration (cr_duration_seconds request) = inr d → 0 < d → sr_created_at (en_row e) ≤ tx_locked env →
  let f := close_leased (cr_lease_owner_id request) (cr_operation_id request) (tx_locked env + d) (tx_locked env) in
  take_close_lease env (en_row e) request db = (set_entry (key_of (sr_contract (en_row e))) (with_row f e) db, inr (f (en_row e))).
Proof.
  intros Hs Hl Hop Hreq Hd Hpos Hnow f. pose proof (sits_ok _ _ Hs) as Hok. pose proof (si_at _ _ Hs) as He.
  unfold close_request_valid in Hreq. bools.
  assert (session_checks (f (en_row e)) = true) as Hchecks by (apply leased_checks; [apply Hok|done|done|done|lia|done]).
  assert (record_valid (f (en_row e)) = true) as Hv.
  { destruct (record_valid_ids _ (ok_valid _ _ _ Hok)). apply record_valid_checks; [done|]. by split; try done; intros [|]. }
  assert (default (cr_operation_id request) (sr_close_operation_id (en_row e)) = cr_operation_id request) as Hdef
    by by destruct Hop as [->| ->].
  unfold take_close_lease. rewrite require_ok by by destruct Hop as [->| ->]; [|apply String.eqb_refl].
  rewrite (lift_ok _ _ _ _ Hd), Hdef. fold f.
  rewrite (bind_ok _ _ _ _ _ (update_session_is _ (λ _, true) f db e He Hchecks (constrained_free _ _ _ (si_con _ _ Hs) He))).
  unfold record_from_row. by rewrite Hv.
Qed.

(** A closing session whose lease the owner holds until some time. *)
Record leased db e (op owner : string) (until : Z) : Prop := {
  le_sits : sits db e;
  le_closing : sr_lifecycle (en_row e) = CLOSING;
  le_operation : sr_close_operation_id (en_row e) = Some op;
  le_owner : sr_lease_owner_id (en_row e) = Some owner;
  le_until : ∃ t, sr_lease_expires_at (en_row e) = Some t ∧ until ≤ t }.
(** The same session under another row. *)
Definition renewed e e' : Prop :=
  sr_contract (en_row e') = sr_contract (en_row e) ∧ sr_created_at (en_row e') = sr_created_at (en_row e) ∧
  en_generations e' = en_generations e ∧ en_operations e' = en_operations e ∧ en_manifests e' = en_manifests e.
Definition authority_of e (op owner : string) : SessionCloseAuthority :=
  mkClose (sr_contract (en_row e)) op owner (sr_fencing_generation (en_row e)).
Definition claim_at e (op owner : string) : Claim := mkClaim (authority_of e op owner) (en_row e) (inventory e).
Lemma leased_held db e op owner until now : leased db e op owner until → now < until → close_held (authority_of e op owner) now (en_row e).
Proof.
  intros [_ Hl Hop How (t & Ht & Hle)] Hnow. unfold close_held, lease_live. rewrite Ht. cbn. split_and!; try done. apply Z.ltb_lt. lia.
Qed.
Lemma claimed db e op owner until : leased db e op owner until →
  close_claim digest (en_row e) db = (db, inr (claim_at e op owner)).
Proof. intros [Hs Hl Hop How _]. apply close_claim_is; try done; [apply Hs|by eapply sits_ok]. Qed.

Lemma claim_after_take env db e request d : sits db e → sr_lifecycle (en_row e) ≠ CLOSED →
  (sr_close_operation_id (en_row e) = None ∨ sr_close_operation_id (en_row e) = Some (cr_operation_id request)) →
  close_request_valid request = true → lease_duration (cr_duration_seconds request) = inr d → 0 < d → sr_created_at (en_row e) ≤ tx_locked env →
  let f := close_leased (cr_lease_owner_id request) (cr_operation_id request) (tx_locked env + d) (tx_locked env) in
  let e' := with_row f e in let k := key_of (sr_contract (en_row e)) in
  (record ← take_close_lease env (en_row e) request; close_claim digest record) db =
    (set_entry k e' db, inr (claim_at e' (cr_operation_id request) (cr_lease_owner_id request))) ∧
  (∀ call, registry_call_valid call = true → (run_registry digest cipher call db).1 = set_entry k e' db →
    leased (set_entry k e' db) e' (cr_operation_id request) (cr_lease_owner_id request) (tx_locked env + d)).
Proof.
  intros Hs Hl Hop Hreq Hd Hpos Hnow f e' k. pose proof (take_close_is env db e request d Hs Hl Hop Hreq Hd Hpos Hnow) as Htake.
  assert (entry_ok digest cipher e') as Hok'.
  { pose proof (take_close_done env e request db _ _ (si_at _ _ Hs) Htake) as (d' & Hd' & _ & _ & Hc & Hv & _).
    rewrite Hd in Hd'. injection Hd' as <-. apply take_close_ok; [by eapply sits_ok|done|done|done]. }
  split.
  - rewrite (bind_ok _ _ _ _ _ Htake). apply (close_claim_is (set_entry k e' db) e'); try done. apply session_set_eq.
  - intros call Hv Hrun. split; try done; [by eapply sits_run|]. by exists (tx_locked env + d).
Qed.

(** ** The calls that claim *)
Lemma renewed_row f e : sr_contract (f (en_row e)) = sr_contract (en_row e) → sr_created_at (f (en_row e)) = sr_created_at (en_row e) →
  renewed e (with_row f e).
Proof. done. Qed.
(** What [refresh_close] does with a record whose authority matches. *)
Definition refresh_record env (a : SessionCloseAuthority) (s : seconds) (d : Z) (record : Row) : M DB Claim :=
  if negb (lease_live record (tx_locked env)) then
    record ← take_close_lease env record (mkCloseRequest (ca_operation_id a) (ca_lease_owner_id a) s);
    close_claim digest record
  else
    require (is_owner record (ca_lease_owner_id a)) SessionCloseError "wrong_close_owner" ;;
    let t := tx_locked env + d in
    updated ← update_session (key_of (sr_contract record)) (λ _, true)
      (λ r, lease_extended (match sr_lease_expires_at r with Some t0 => Z.max t0 t | None => t end) (tx_locked env) r);
    match updated with
    | None => raise SessionRegistryError "session close renewal returned no authoritative row"
    | Some row => record ← lift (record_from_row row); close_claim digest record
    end.
Lemma refresh_runs env db e a s d db' claim : sits db e → sr_lifecycle (en_row e) = CLOSING → sr_close_operation_id (en_row e) = Some (ca_operation_id a) →
  ca_contract a = sr_contract (en_row e) → tx_fault env = no_fault → lease_duration s = inr d →
  refresh_record env a s d (en_row e) db = (db', inr claim) → refresh_close digest env a s db = (db', inr claim).
Proof.
  intros Hs Hl Hop Hac Hf Hd Hrun. unfold refresh_close. rewrite (lift_ok _ _ _ _ Hd). apply translating_is, committed_is; [done|].
  rewrite Hac. rewrite (bind_ok _ _ _ _ _ (locked_session_is _ db e (si_at _ _ Hs) (ok_valid _ _ _ (sits_ok _ _ Hs)))). cbv zeta.
  rewrite require_ok by (unfold eq_lifecycle; by apply bool_decide_eq_true_2).
  rewrite require_ok by (rewrite !String.eqb_refl, !bool_decide_eq_true_2 by done; done). exact Hrun.
Qed.
(** [refresh_close], by the owner of the lease or after it has lapsed. *)
Lemma refresh_is env db e a op owner s d : sits db e → sr_lifecycle (en_row e) = CLOSING → sr_close_operation_id (en_row e) = Some op →
  ca_contract a = sr_contract (en_row e) → ca_operation_id a = op → ca_lease_owner_id a = owner →
  (lease_live (en_row e) (tx_locked env) = true → sr_lease_owner_id (en_row e) = Some owner) →
  authority_identifier owner = true → tx_fault env = no_fault → sr_created_at (en_row e) ≤ tx_locked env → lease_duration s = inr d → 0 < d →
  ∃ e', let k := key_of (sr_contract (en_row e)) in
    refresh_close digest env a s db = (set_entry k e' db, inr (claim_at e' op owner)) ∧ renewed e e' ∧
    leased (set_entry k e' db) e' op owner (tx_locked env + d).
Proof.
  intros Hs Hl Hop Hac Hao How Hown Hid Hf Hnow Hd Hpos. subst op owner. pose proof (si_at _ _ Hs) as He. pose proof (sits_ok _ _ Hs) as Hok.
  destruct (record_valid_ids _ (ok_valid _ _ _ Hok)) as [Hic Hin _ Hcl _ _]. rewrite Hop in Hcl. cbn in Hcl.
  pose proof (λ db' claim, refresh_runs env db e a s d db' claim Hs Hl Hop Hac Hf Hd) as Hruns. unfold refresh_record in Hruns.
  destruct (lease_live (en_row e) (tx_locked env)) eqn:Hlive; cbn [negb] in Hruns.
  - set (t := match sr_lease_expires_at (en_row e) with Some t0 => Z.max t0 (tx_locked env + d) | None => tx_locked env + d end).
    set (e' := with_row (lease_extended t (tx_locked env)) e). exists e'.
    assert (session_checks (lease_extended t (tx_locked env) (en_row e)) = true) as Hchecks.
    { apply extended_checks; [apply Hok|done| |done]. subst t. destruct (sr_lease_expires_at _); lia. }
    assert (entry_ok digest cipher e') as Hok' by (apply extend_ok; [done|by rewrite Hl|done]).
    assert (refresh_close digest env a s db = (set_entry (key_of (sr_contract (en_row e))) e' db, inr (claim_at e' (ca_operation_id a) (ca_lease_owner_id a)))) as Hrun.
    { apply Hruns. rewrite require_ok by (unfold is_owner; apply bool_decide_eq_true_2; by apply Hown).
      rewrite (bind_ok _ _ _ _ _ (update_session_is _ (λ _, true) (λ r, lease_extended (match sr_lease_expires_at r with Some t0 => Z.max t0 (tx_locked env + d) | None => tx_locked env + d end) (tx_locked env) r)
        db e He Hchecks (constrained_free _ _ _ (si_con _ _ Hs) He))).
      unfold record_from_row. fold t. rewrite (ok_valid _ _ _ Hok' : record_valid (lease_extended t (tx_locked env) (en_row e)) = true).
      change (lift (requires true ?c ?m ;; inr ?x) ≫= ?k) with (k x). cbv beta.
      apply (close_claim_is (set_entry _ e' db) e'); try done; [apply session_set_eq|by apply Hown]. }
    split_and!; [exact Hrun|done|]. split; try done; [|by apply Hown|].
    + apply (sits_run (call_refresh_close env a s)); try done. cbn [run_registry]. by eapply ran_at.
    + exists t. split; [done|]. subst t. destruct (sr_lease_expires_at _); lia.
  - destruct (claim_after_take env db e (mkCloseRequest (ca_operation_id a) (ca_lease_owner_id a) s) d Hs) as [Hrun Hleased]; try done.
    { by rewrite Hl. } { by right. } { unfold close_request_valid. cbn. by rewrite Hcl, Hid. }
    eexists. split_and!; [by apply Hruns|done|]. apply (Hleased (call_refresh_close env a s)); [done|]. cbn [run_registry].
    eapply ran_at. by apply Hruns.
Qed.

(** [claim_expired] of an eligible candidate. *)
Lemma claim_expired_is env db e request op d : let k := key_of (sr_contract (en_row e)) in
  sits db e → sr_lifecycle (en_row e) ≠ CLOSED →
  lease_live (en_row e) (tx_locked env) = false ∨ (sr_lifecycle (en_row e) ≠ CLOSING ∧ sr_expires_at (en_row e) ≤ tx_locked env) →
  (sr_close_operation_id (en_row e) = None ∨ sr_close_operation_id (en_row e) = Some (cr_operation_id request)) →
  close_request_valid request = true → tx_fault env = no_fault → sr_created_at (en_row e) ≤ tx_locked env →
  lease_duration (cr_duration_seconds request) = inr d → 0 < d →
  ∃ e', claim_expired digest env (mkCandidate k op) request db = (set_entry k e' db, inr (claim_at e' (cr_operation_id request) (cr_lease_owner_id request))) ∧
    renewed e e' ∧ leased (set_entry k e' db) e' (cr_operation_id request) (cr_lease_owner_id request) (tx_locked env + d).
Proof.
  intros k Hs Hl Hexp Hop Hreq Hf Hnow Hd Hpos.
  destruct (claim_after_take env db e request d Hs Hl Hop Hreq Hd Hpos Hnow) as [Hrun Hleased].
  assert (claim_expired digest env (mkCandidate k op) request db =
    (set_entry k (with_row (close_leased (cr_lease_owner_id request) (cr_operation_id request) (tx_locked env + d) (tx_locked env)) e) db,
     inr (claim_at (with_row (close_leased (cr_lease_owner_id request) (cr_operation_id request) (tx_locked env + d) (tx_locked env)) e)
            (cr_operation_id request) (cr_lease_owner_id request)))) as Hclaim.
  { unfold claim_expired. apply translating_is, committed_is; [done|].
    rewrite (bind_ok _ _ _ _ _ (locked_session_is _ db e (si_at _ _ Hs) (ok_valid _ _ _ (sits_ok _ _ Hs)))).
    rewrite require_ok by (unfold eq_lifecycle; by rewrite bool_decide_eq_false_2).
    rewrite require_ok; [exact Hrun|]. destruct Hexp as [->|[Hc Hle]]; [done|]. unfold eq_lifecycle.
    rewrite bool_decide_eq_false_2 by done. rewrite (proj2 (Z.leb_le _ _) Hle). apply orb_true_r. }
  eexists. split_and!; [exact Hclaim|done|]. apply (Hleased (call_claim_expired env (mkCandidate k op) request)); [done|].
  cbn [run_registry]. by eapply ran_at.
Qed.
(** [begin_close] by the holder of the session's lease. *)
Lemma begin_close_is env db e a request d : let k := key_of (sr_contract (en_row e)) in
  sits db e → key_of (la_contract a) = k → lease_held a (tx_locked env) (en_row e) →
  close_request_valid request = true → tx_fault env = no_fault → sr_created_at (en_row e) ≤ tx_locked env →
  lease_duration (cr_duration_seconds request) = inr d → 0 < d →
  ∃ e', begin_close digest env a request db = (set_entry k e' db, inr (claim_at e' (cr_operation_id request) (cr_lease_owner_id request))) ∧
    renewed e e' ∧ leased (set_entry k e' db) e' (cr_operation_id request) (cr_lease_owner_id request) (tx_locked env + d).
Proof.
  intros k Hs Hk Hheld Hreq Hf Hnow Hd Hpos.
  assert (open_lifecycle (sr_lifecycle (en_row e))) as Hopen by apply Hheld.
  assert (sr_close_operation_id (en_row e) = None) as Hop.
  { destruct (record_valid_ids _ (ok_valid _ _ _ (sits_ok _ _ Hs))) as [_ _ _ _ _ Ho]. by apply Ho. }
  destruct (claim_after_take env db e request d Hs (open_not_closed _ Hopen) (or_introl Hop) Hreq Hd Hpos Hnow) as [Hrun Hleased].
  assert (begin_close digest env a request db =
    (set_entry k (with_row (close_leased (cr_lease_owner_id request) (cr_operation_id request) (tx_locked env + d) (tx_locked env)) e) db,
     inr (claim_at (with_row (close_leased (cr_lease_owner_id request) (cr_operation_id request) (tx_locked env + d) (tx_locked env)) e)
            (cr_operation_id request) (cr_lease_owner_id request)))) as Hclaim.
  { unfold begin_close. apply translating_is, committed_is; [done|]. rewrite Hk.
    rewrite (bind_ok _ _ _ _ _ (locked_session_is _ db e (si_at _ _ Hs) (ok_valid _ _ _ (sits_ok _ _ Hs)))). cbv zeta.
    assert (eq_lifecycle (sr_lifecycle (en_row e)) CLOSING = false) as -> by (apply bool_decide_eq_false_2; by destruct Hopen as [->| ->]).
    cbn [andb negb orb]. rewrite require_ok by done. rewrite (proj2 (lease_held_iff a (tx_locked env) (en_row e)) Hheld). exact Hrun. }
  eexists. split_and!; [exact Hclaim|done|]. apply (Hleased (call_begin_close env a request)); [done|].
  cbn [run_registry]. by eapply ran_at.
Qed.

(** ** The calls a claim authorises *)
Lemma close_generations_is env db e op owner until : leased db e op owner until → tx_locked env < until → tx_fault env = no_fault →
  close_checkpoint_generations digest env (authority_of e op owner) db = (db, inr (inventory e)).
Proof.
  intros Hle Hnow Hf. pose proof (le_sits _ _ _ _ _ Hle) as Hs. unfold close_checkpoint_generations.
  apply translating_is, committed_is; [done|].
  rewrite (bind_ok _ _ _ _ _ (locked_close_record_is env (authority_of e op owner) db e (si_at _ _ Hs) (ok_valid _ _ _ (sits_ok _ _ Hs)) (leased_held _ _ _ _ _ _ Hle Hnow))).
  apply inventory_is; [apply Hs|by eapply sits_ok].
Qed.
Lemma authorized_is env db e op owner until g which : leased db e op owner until → tx_locked env < until → g ∈ en_generations e →
  which = op_read_checkpoint ∨ which = op_delete_checkpoint →
  authorized_generation digest env (by_close (authority_of e op owner)) (gr_storage_thread_id g) which db = (db, inr (scoped (sr_contract (en_row e)) g)).
Proof.
  intros Hle Hnow Hg Hw. pose proof (le_sits _ _ _ _ _ Hle) as Hs. pose proof (sits_ok _ _ Hs) as Hok.
  destruct (leased_held _ _ _ _ _ _ Hle Hnow) as (Hcl & _ & Hlive & How & Hop & _).
  unfold authorized_generation. unfold mbind at 1, M_bind at 1, get. cbn [cp_contract ca_contract authority_of]. rewrite (si_at _ _ Hs).
  assert (data_plane_rejection (by_close (authority_of e op owner)) (tx_locked env) (en_row e) = None) as ->.
  { unfold data_plane_rejection, eq_lifecycle, is_owner. cbn in *. rewrite !String.eqb_refl, Hcl, Hop, How, Hlive, Z.eqb_refl. cbn.
    by rewrite !bool_decide_eq_true_2 by done. }
  cbv zeta. pose proof (cn_within _ (si_con _ _ Hs) _ _ (si_at _ _ Hs)) as [Hnd _]. pose proof (ok_rows _ _ _ Hok) as Hrows.
  assert (∀ l, NoDup (gr_storage_thread_id <$> l) → Forall (row_ok digest (sr_contract (en_row e))) l → g ∈ l →
    (fix look (rows : list GenerationRow) : res (option CheckpointGeneration) :=
       match rows with
       | [] => inr None
       | g0 :: rows' =>
           match make_generation digest (sr_contract (en_row e)) g0 with
           | inl _ => raises CheckpointSchemaError "checkpoint generation row is malformed"
           | inr candidate =>
               if String.eqb (gr_storage_thread_id g0) (gr_storage_thread_id g) then inr (Some candidate) else look rows'
           end
       end) l = inr (Some (scoped (sr_contract (en_row e)) g))) as Hlook.
  { clear Hnd Hrows. induction l as [|g0 l IH]; [by intros _ _ ?%not_elem_of_nil|]. cbn.
    intros [Hn Hnd]%NoDup_cons [Hg0 Hl]%Forall_cons Hin. rewrite Hg0. destruct (String.eqb_spec (gr_storage_thread_id g0) (gr_storage_thread_id g)) as [Heq|Hne].
    - apply elem_of_cons in Hin as [->|Hin]; [done|]. destruct Hn. rewrite Heq. by apply list_elem_of_fmap_2.
    - apply elem_of_cons in Hin as [->|Hin]; [done|]. by apply IH. }
  cbn [ca_contract authority_of]. rewrite (lift_ok _ _ _ _ (Hlook _ Hnd Hrows Hg)). by destruct Hw as [->| ->].
Qed.

(** The thread of a generation, and the manifests of its writes, gone. *)
Definition without_thread g e db : DB :=
  mkDatabase (<[key_of (sr_contract (en_row e)) := mkEntry (en_row e) (en_generations e) (en_operations e)
      (List.filter (λ m, negb (String.eqb m.1 (gr_checkpoint_namespace g))) (en_manifests e))]> (db_sessions db))
    (List.filter (λ t, negb (String.eqb t (gr_storage_thread_id g))) (db_checkpoints db)).
Lemma adelete_is env db e op owner until g : leased db e op owner until → tx_locked env < until → g ∈ en_generations e → tx_fault env = no_fault →
  adelete_thread digest env (by_close (authority_of e op owner)) (gr_storage_thread_id g) db = (without_thread g e db, inr ()).
Proof.
  intros Hle Hnow Hg Hf. unfold adelete_thread. apply committed_is; [done|].
  rewrite (bind_ok _ _ _ _ _ (authorized_is env db e op owner until g op_delete_checkpoint Hle Hnow Hg ltac:(by right))).
  unfold modify, with_checkpoints. cbn [cp_contract ca_contract authority_of]. by rewrite (si_at _ _ (le_sits _ _ _ _ _ Hle)).
Qed.
Lemma remains_is env db e op owner until g : leased db e op owner until → tx_locked env < until → g ∈ en_generations e → tx_fault env = no_fault →
  thread_remains digest env (by_close (authority_of e op owner)) (gr_storage_thread_id g) db =
    (db, inr (bool_decide (gr_storage_thread_id g ∈ db_checkpoints db))).
Proof.
  intros Hle Hnow Hg Hf. unfold thread_remains. apply committed_is; [done|].
  by rewrite (bind_ok _ _ _ _ _ (authorized_is env db e op owner until g op_read_checkpoint Hle Hnow Hg ltac:(by left))).
Qed.

(** The generation of a namespace, deleted. *)
Definition deleted_at (namespace : string) (l : list GenerationRow) : list GenerationRow :=
  moved (λ g, String.eqb (gr_checkpoint_namespace g) namespace) gs_deleted l.
Lemma count_moved f s s' l : s ≠ s' → (count_state s' (moved f s l) ≤ count_state s' l)%nat.
Proof.
  intros Hs. unfold count_state, moved. induction l as [|g l IH]; [done|]. cbn. destruct (f g); unfold in_state in *; cbn.
  - rewrite bool_decide_eq_false_2 by done. case_bool_decide; cbn; lia.
  - case_bool_decide; cbn; lia.
Qed.
Lemma deleted_keys namespace l : generation_keys l = true → generation_keys (deleted_at namespace l) = true.
Proof.
  unfold generation_keys, deleted_at. intros Hk. bools.
  pose proof (count_moved (λ g, String.eqb (gr_checkpoint_namespace g) namespace) gs_deleted gs_current l ltac:(done)).
  pose proof (count_moved (λ g, String.eqb (gr_checkpoint_namespace g) namespace) gs_deleted gs_pending l ltac:(done)).
  repeat match goal with Hx : (_ <=? _)%nat = true |- _ => apply Nat.leb_le in Hx end.
  rewrite moved_namespaces. rewrite !andb_true_iff. split_and!; try (apply Nat.leb_le; lia); apply bool_decide_eq_true_2; [done|..].
  - unfold moved. rewrite <-list_fmap_compose. erewrite list_fmap_ext; [done|]. intros _ g _. cbn. by destruct (String.eqb _ _).
  - enough (omap gr_transition_id (moved (λ g, String.eqb (gr_checkpoint_namespace g) namespace) gs_deleted l) = omap gr_transition_id l) as -> by done.
    unfold moved. clear. induction l as [|g l IH]; [done|]. cbn. rewrite IH. by destruct (String.eqb _ _).
Qed.
Lemma deleted_checks namespace l : forallb generation_checks l = true → forallb generation_checks (deleted_at namespace l) = true.
Proof.
  unfold deleted_at, moved. intros Hl. apply forallb_forall. intros x Hx%list_elem_of_In. apply list_elem_of_fmap in Hx as (g & -> & Hg).
  pose proof (proj1 (forallb_forall _ _) Hl g ltac:(by apply list_elem_of_In)) as Hc. destruct (String.eqb _ _); [|done].
  unfold generation_checks in *. cbn. rewrite !andb_true_iff in *. destruct_and!. by split_and!.
Qed.
Lemma record_deletion_is env db e op owner until g : leased db e op owner until → tx_locked env < until → g ∈ en_generations e → tx_fault env = no_fault →
  record_close_checkpoint_deletion digest env (authority_of e op owner) (gr_checkpoint_namespace g) db =
    (set_entry (key_of (sr_contract (en_row e))) (with_generations (deleted_at (gr_checkpoint_namespace g) (en_generations e)) e) db,
     inr (scoped (sr_contract (en_row e)) (set_state gs_deleted g))).
Proof.
  intros Hle Hnow Hg Hf. pose proof (le_sits _ _ _ _ _ Hle) as Hs. pose proof (sits_ok _ _ Hs) as Hok.
  pose proof (proj1 (Forall_forall _ _) (ok_rows _ _ _ Hok) g Hg) as Hrow.
  assert (authority_identifier (gr_checkpoint_namespace g) = true) as Hns.
  { pose proof Hrow as Hx. unfold row_ok, make_generation in Hx. apply requires_done in Hx as [Hx _]. by bools. }
  unfold record_close_checkpoint_deletion. rewrite require_ok by done. apply translating_is, committed_is; [done|].
  rewrite (bind_ok _ _ _ _ _ (locked_close_record_is env (authority_of e op owner) db e (si_at _ _ Hs) (ok_valid _ _ _ Hok) (leased_held _ _ _ _ _ _ Hle Hnow))).
  cbv zeta. pose proof (cn_within _ (si_con _ _ Hs) _ _ (si_at _ _ Hs)) as [_ Hch].
  assert (∃ n, update_generations (key_of (sr_contract (en_row e))) (λ g0, String.eqb (gr_checkpoint_namespace g0) (gr_checkpoint_namespace g)) gs_deleted db =
    (set_entry (key_of (sr_contract (en_row e))) (with_generations (deleted_at (gr_checkpoint_namespace g) (en_generations e)) e) db, inr n)) as [n Hupd].
  { eexists. unfold update_generations. unfold mbind at 1, M_bind at 1, get. rewrite (si_at _ _ Hs). cbv zeta.
    fold (moved (λ g0, String.eqb (gr_checkpoint_namespace g0) (gr_checkpoint_namespace g)) gs_deleted (en_generations e)).
    fold (deleted_at (gr_checkpoint_namespace g) (en_generations e)).
    rewrite require_ok by by apply deleted_checks. rewrite require_ok by by apply deleted_keys, Hok. reflexivity. }
  rewrite (bind_ok _ _ _ _ _ Hupd).
  unfold generation_rows. unfold mbind at 1 2, M_bind at 1 2, get. rewrite session_set_eq. cbn [mret M_ret with_generations en_generations].
  rewrite (find_unique gr_checkpoint_namespace _ _ (set_state gs_deleted g)).
  - unfold lift. f_equal. by apply scoped_state.
  - unfold deleted_at. rewrite moved_namespaces. by apply keys_namespaces, Hok.
  - apply list_elem_of_fmap. exists g. by rewrite String.eqb_refl.
  - intros y. by rewrite String.eqb_eq.
Qed.

(** [finalize_close] of a session whose generations are all deleted and leave no rows. *)
Definition nothing_left e db : Prop :=
  en_generations e ≠ [] ∧ Forall (λ g, gr_state g = gs_deleted ∧ gr_storage_thread_id g ∉ db_checkpoints db) (en_generations e) ∧ en_manifests e = [].
Lemma finalize_is env db e op owner until s d : leased db e op owner until → tx_locked env < until → nothing_left e db → tx_fault env = no_fault →
  sr_created_at (en_row e) ≤ tx_locked env → lease_duration s = inr d → 0 < d →
  let r := tombstone (tx_locked env + d) (tx_locked env) (en_row e) in
  finalize_close digest env (authority_of e op owner) s db = (set_entry (key_of (sr_contract (en_row e))) (mkEntry r [] [] []) db, inr r).
Proof.
  intros Hle Hnow (Hne & Hdel & Hman) Hf Hcr Hd Hpos r. pose proof (le_sits _ _ _ _ _ Hle) as Hs. pose proof (sits_ok _ _ Hs) as Hok.
  set (k := key_of (sr_contract (en_row e))). pose proof (leased_held _ _ _ _ _ _ Hle Hnow) as Hh. pose proof (le_closing _ _ _ _ _ Hle) as Hcl.
  assert (session_checks r = true) as Hchecks by (apply tombstone_checks; [apply Hok|lia|done]).
  assert (record_valid r = true) as Hv by (apply (ok_valid digest cipher _ (finalize_ok digest cipher (tx_locked env + d) (tx_locked env) e Hok Hcl Hchecks))).
  unfold finalize_close. rewrite (lift_ok _ _ _ _ Hd).
  enough ((translating (registry_failure "session close finalization failed") (committed env
    (record ← locked_session (key_of (ca_contract (authority_of e op owner)));
     if eq_lifecycle (sr_lifecycle record) CLOSED then
       require (bool_decide (sr_close_operation_id record = Some (ca_operation_id (authority_of e op owner)))) SessionCloseError "wrong_close_owner" ;;
       mret record
     else
       match close_authority_rejection record (authority_of e op owner) (tx_locked env) with
       | Some reason => raise SessionCloseError reason
       | None =>
           let k := key_of (sr_contract record) in
           generations ← checkpoint_generations_of digest record false;
           require (negb (length generations =? 0)%nat && forallb (cg_in_state gs_deleted) generations) SessionCloseError
             "cleanup_incomplete" ;;
           let storage := (λ g, gr_storage_thread_id (cg_row g)) <$> generations in
           db ← get;
           require (forallb (λ t, negb (bool_decide (t ∈ storage))) (db_checkpoints db)
                    && match session_of db k with Some e => (length (en_manifests e) =? 0)%nat | None => true end)
             SessionCloseError "cleanup_incomplete" ;;
           modify (λ db, match session_of db k with
                         | Some e => set_entry k (mkEntry (en_row e) [] [] (en_manifests e)) db
                         | None => db
                         end) ;;
           updated ← update_session k (λ _, true) (tombstone (tx_locked env + d) (tx_locked env));
           match updated with
           | None => raise SessionRegistryError "session close finalization returned no row"
           | Some row => mret row
           end
       end))) db = (set_entry k (mkEntry r [] [] []) db, inr r)) as Hrun.
  { etransitivity; [by apply bind_ok|]. unfold record_from_row. by rewrite Hv. }
  apply translating_is, committed_is; [done|].
  rewrite (bind_ok _ _ _ _ _ (locked_session_is (key_of (ca_contract (authority_of e op owner))) db e (si_at _ _ Hs) (ok_valid _ _ _ Hok))).
  assert (eq_lifecycle (sr_lifecycle (en_row e)) CLOSED = false) as -> by (apply bool_decide_eq_false_2; by rewrite Hcl).
  apply close_held_iff in Hh. rewrite Hh. cbv zeta. rewrite (bind_ok _ _ _ _ _ (inventory_is db e (si_at _ _ Hs) Hok)).
  assert (Forall (λ g, cg_in_state gs_deleted g = true ∧ gr_storage_thread_id (cg_row g) ∉ db_checkpoints db) (inventory e)) as Hinv.
  { unfold inventory. apply Forall_fmap. rewrite ordered_perm. eapply Forall_impl; [exact Hdel|]. intros g [Hg Ht]. split; [|done].
    unfold cg_in_state, in_state. cbn. by rewrite bool_decide_eq_true_2. }
  rewrite require_ok.
  2: { apply andb_true_iff. split.
       - unfold inventory. rewrite length_fmap, (Permutation_length (ordered_perm (en_generations e))). by destruct (en_generations e).
       - apply forallb_forall. intros g Hg%list_elem_of_In. by apply (proj1 (Forall_forall _ _) Hinv). }
  rewrite (bind_ok _ _ db db db) by done.
  rewrite require_ok.
  2: { rewrite (si_at _ _ Hs), Hman, andb_true_r. apply forallb_forall. intros t Ht%list_elem_of_In. apply negb_true_iff, bool_decide_eq_false_2.
       intros (g & -> & Hg)%list_elem_of_fmap. by apply (proj2 (proj1 (Forall_forall _ _) Hinv g Hg)). }
  unfold modify. etransitivity; [by apply bind_ok|]. rewrite (si_at _ _ Hs), Hman. fold k.
  rewrite (bind_ok _ _ _ _ _ (update_session_is k (λ _, true) (tombstone (tx_locked env + d) (tx_locked env)) _ (mkEntry (en_row e) [] [] []) (session_set_eq _ _ _) Hchecks
    ltac:(apply namespace_free_iff; intros k' e'; rewrite session_set; case_decide; [congruence|];
          intros He' Hne' Ht'; exact (proj1 (cn_across _ (si_con _ _ Hs) k' e' k e He' (si_at _ _ Hs) Hne') Ht')))).
  rewrite set_set. done.
Qed.
End laws.
