(* ===== verification/SessionCloseProps.v ===== *)
(** * Closing durable sessions: what the coordinator achieves

    A close completes, whatever an earlier attempt left behind; the reaper
    closes every expired session; the sweep of one tenant never stops the
    sweep of another. *)

From stdpp Require Import gmap.
From Stdlib Require Import QArith_base.
From S2P Require Import Prelude PyText Money Receipts Cart OrderScope SessionState Confirmation Encryption Registry RegistryLaws RegistryInv RegistryProps RegistryRefine SessionClose SessionCloseLaws.
Local Open Scope Z_scope.
Local Open Scope list_scope.

Section close.
Context {K C : Type} `{!Aead K C} `{!AeadLaws K C} `{!PayloadCodec} `{!PayloadCodecLaws}.
Context (digest : list (string * json_scalar) → string) (cipher : AesGcmSessionCipher K).
Context (envs : nat → tx_env) (others : nat → list registry_call) (uuids : nat → string) (co : Coordinator).
Notation Row := (SessionRecord C).
Notation DB := (Database C).
Notation Claim := (SessionCloseClaim (C := C)).
Notation W := (World (C := C)).
Implicit Types (r : Row) (db : DB) (env : tx_env) (e : Entry C) (w : W) (claim : Claim).
Notation call := (call digest cipher envs others).
Notation refresh_claim := (refresh_claim digest cipher envs others co).
Notation sits := (sits digest cipher).
Notation leased := (leased digest cipher).
Notation delete_generation := (delete_generation digest cipher envs others co).
Notation delete_generations := (delete_generations digest cipher envs others co).
Notation finalize := (finalize digest cipher envs others co).

(** ** Calm *)
(** From the n-th call on: nobody else acts, no connection is lost, and two calls take less time
    than the close lease lasts. *)
Context (d retention : Z).
Definition calm (n : nat) : Prop := ∀ i, (n ≤ i)%nat →
  others i = [] ∧ tx_fault (envs i) = no_fault ∧
  tx_locked (envs i) ≤ tx_locked (envs (S i)) ∧ tx_locked (envs (S (S i))) < tx_locked (envs i) + d.
Definition durations : Prop :=
  lease_duration (close_lease co) = inr d ∧ lease_duration (Some (co_tombstone_retention_seconds co)) = inr retention ∧ 0 < d ∧ 0 < retention.
Definition now w : Z := tx_locked (envs (w_calls w)).
Lemma calm_le n i : calm n → (n ≤ i)%nat → calm i.
Proof. intros Hc Hle j Hj. apply Hc. lia. Qed.
Lemma calm_next w : calm (w_calls w) → tx_locked (envs (w_calls w)) ≤ tx_locked (envs (S (w_calls w))).
Proof. intros Hc. by apply (Hc (w_calls w)). Qed.

Lemma now_mono w w' : calm (w_calls w) → (w_calls w ≤ w_calls w')%nat → now w ≤ now w'.
Proof.
  unfold now. intros Hc. induction 1 as [|m Hle IH]; [done|]. etransitivity; [exact IH|]. by apply (Hc m).
Qed.
Definition after db w : W := mkWorld db (S (w_calls w)) (w_uuids w).
Lemma call_is {A} (m : tx_env → M DB A) w db' o : calm (w_calls w) → m (envs (w_calls w)) (w_db w) = (db', o) → call m w = (after db' w, o).
Proof. intros Hc Hm. unfold SessionClose.call. rewrite (proj1 (Hc (w_calls w) ltac:(done))). cbn. by rewrite Hm. Qed.
Lemma bindw {A B} (m : M W A) (k : A → M W B) w w' a : m w = (w', inr a) → (m ≫= k) w = k a w'.
Proof. unfold mbind, M_bind. by intros ->. Qed.
Lemma requirew {A} b c t (m : M W A) w : b = true → (require b c t ;; m) w = m w.
Proof. by intros ->. Qed.

Definition elsewhere k db db' : Prop := ∀ k', k' ≠ k → session_of db' k' = session_of db k'.
Lemma elsewhere_set k e db : elsewhere k db (set_entry k e db).
Proof. intros k' Hk. rewrite session_set. by rewrite decide_False. Qed.
Lemma elsewhere_trans k db1 db2 db3 : elsewhere k db1 db2 → elsewhere k db2 db3 → elsewhere k db1 db3.
Proof. intros H1 H2 k' Hk. by rewrite H2, H1. Qed.

(** A claim on a session, whatever record it was made from. *)
Definition claims claim e (op owner : string) : Prop :=
  ca_contract (cm_authority claim) = sr_contract (en_row e) ∧ ca_operation_id (cm_authority claim) = op ∧
  ca_lease_owner_id (cm_authority claim) = owner.
Lemma refresh_claim_is w e claim op owner : let k := key_of (sr_contract (en_row e)) in
  durations → calm (w_calls w) → sits (w_db w) e → sr_lifecycle (en_row e) = CLOSING → sr_close_operation_id (en_row e) = Some op →
  claims claim e op owner → (lease_live (en_row e) (now w) = true → sr_lease_owner_id (en_row e) = Some owner) →
  authority_identifier owner = true → sr_created_at (en_row e) ≤ now w →
  ∃ e', refresh_claim claim w = (after (set_entry k e' (w_db w)) w, inr (claim_at e' op owner)) ∧ renewed e e' ∧
    leased (set_entry k e' (w_db w)) e' op owner (now w + d).
Proof.
  intros k (Hd & _ & Hpos & _) Hcalm Hs Hl Hop (Hc & Ho & How) Hown Hid Hcr.
  destruct (refresh_is digest cipher (envs (w_calls w)) (w_db w) e (cm_authority claim) op owner (close_lease co) d) as (e' & Hrun & Hr & Hle);
    try done; [by apply Hcalm|].
  exists e'. split_and!; [by apply call_is|done..].
Qed.

Lemma sits_ran run_call db db' e e' : registry_call_valid run_call = true → sits db e →
  (run_registry digest cipher run_call db).1 = db' → session_of db' (key_of (sr_contract (en_row e'))) = Some e' → sits db' e'.
Proof.
  intros Hv [Hok Hcon _] <- He. split; [by apply run_registry_ok|by apply run_constrained|done].
Qed.
Lemma leased_row db db' e e' op owner until : leased db e op owner until → sits db' e' → en_row e' = en_row e → leased db' e' op owner until.
Proof. intros [_ ? ? ? ?] Hs Hr. split; rewrite ?Hr; done. Qed.

Record closing w e (op owner : string) : Prop := {
  cs_calm : calm (w_calls w);
  cs_created : sr_created_at (en_row e) ≤ now w;
  cs_owner : authority_identifier owner = true;
  cs_leased : ∃ until, leased (w_db w) e op owner until }.
Lemma closing_refreshed w e claim op owner : let k := key_of (sr_contract (en_row e)) in
  durations → closing w e op owner → claims claim e op owner →
  ∃ e', refresh_claim claim w = (after (set_entry k e' (w_db w)) w, inr (claim_at e' op owner)) ∧ renewed e e' ∧
    leased (set_entry k e' (w_db w)) e' op owner (now w + d).
Proof.
  intros k Hd [Hcalm Hcr Hid [until [Hs Hl Ho How Ht]]] Hc. by apply refresh_claim_is.
Qed.

(** What the deletion of one generation leaves. *)
Record cleared (g : GenerationRow) w e w' e' : Prop := {
  cd_calls : (w_calls w ≤ w_calls w')%nat;
  cd_contract : sr_contract (en_row e') = sr_contract (en_row e);
  cd_elsewhere : elsewhere (key_of (sr_contract (en_row e))) (w_db w) (w_db w');
  cd_generations : en_generations e' = deleted_at (gr_checkpoint_namespace g) (en_generations e);
  cd_manifests : en_manifests e' = List.filter (λ m, negb (String.eqb m.1 (gr_checkpoint_namespace g))) (en_manifests e);
  cd_checkpoints : db_checkpoints (w_db w') = List.filter (λ t, negb (String.eqb t (gr_storage_thread_id g))) (db_checkpoints (w_db w)) }.
Lemma delete_generation_is w e claim op owner g cg : durations → closing w e op owner → claims claim e op owner → g ∈ en_generations e →
  gr_checkpoint_namespace (cg_row cg) = gr_checkpoint_namespace g → gr_storage_thread_id (cg_row cg) = gr_storage_thread_id g →
  ∃ w' e' claim', delete_generation claim cg w = (w', inr claim') ∧ closing w' e' op owner ∧ claims claim' e' op owner ∧ cleared g w e w' e'.
Proof.
  intros Hd Hcl Hclaim Hg Hns Hst. set (k := key_of (sr_contract (en_row e))).
  destruct (closing_refreshed w e claim op owner Hd Hcl Hclaim) as (e1 & Hrun1 & (Hc1 & Hcr1 & Hg1 & Ho1 & Hm1) & Hle1).
  destruct Hcl as [Hcalm Hcr Hid _]. set (i := w_calls w) in *. fold k in Hrun1, Hle1.
  pose proof (Hcalm i ltac:(lia)) as (_ & Hf0 & Ht0 & Ht0'). pose proof (Hcalm (S i) ltac:(lia)) as (_ & Hf1 & Ht1 & Ht1').
  pose proof (Hcalm (S (S i)) ltac:(lia)) as (_ & Hf2 & Ht2 & Ht2'). pose proof (Hcalm (S (S (S i))) ltac:(lia)) as (_ & Hf3 & Ht3 & Ht3').
  pose proof (Hcalm (S (S (S (S i)))) ltac:(lia)) as (_ & Hf4 & Ht4 & Ht4').
  unfold now in *. fold i in Hcr, Hle1.
  set (w1 := after (set_entry k e1 (w_db w)) w) in *. set (db1 := set_entry k e1 (w_db w)) in *.
  assert (g ∈ en_generations e1) as Hgin by by rewrite Hg1.
  pose proof (cn_within _ (si_con _ _ _ _ (le_sits _ _ _ _ _ _ _ Hle1)) _ _ (si_at _ _ _ _ (le_sits _ _ _ _ _ _ _ Hle1))) as [_ Hchk].
  assert (storage_thread_format (gr_storage_thread_id g) = true) as Hformat.
  { pose proof (proj1 (forallb_forall _ _) Hchk g ltac:(by apply list_elem_of_In)) as Hx. unfold generation_checks in Hx. by bools. }
  (* the thread *)
  pose proof (adelete_is digest cipher (envs (S i)) db1 e1 op owner _ g Hle1 ltac:(lia) Hgin Hf1) as Hdel.
  set (db2 := without_thread g e1 db1) in *. set (e2 := mkEntry (en_row e1) (en_generations e1) (en_operations e1)
      (List.filter (λ m, negb (String.eqb m.1 (gr_checkpoint_namespace g))) (en_manifests e1))) in *.
  assert (key_of (sr_contract (en_row e1)) = k) as Hk1 by (unfold k; by rewrite Hc1).
  assert (sits db2 e2) as Hs2.
  { eapply (sits_ran (call_delete_thread (envs (S i)) (by_close (authority_of e1 op owner)) (gr_storage_thread_id g)) db1 db2 e1); [done|apply Hle1| |].
    - cbn [run_registry]. by eapply ran_at.
    - unfold db2, without_thread, session_of. cbn [db_sessions e2 en_row]. by rewrite lookup_insert_eq. }
  assert (leased db2 e2 op owner (tx_locked (envs i) + d)) as Hle2 by by eapply leased_row.
  pose proof (remains_is digest cipher (envs (S (S i))) db2 e2 op owner _ g Hle2 ltac:(lia) Hgin Hf2) as Hrem.
  assert (bool_decide (gr_storage_thread_id g ∈ db_checkpoints db2) = false) as Hgone.
  { apply bool_decide_eq_false_2. unfold db2, without_thread. cbn. intros [_ Hx]%list_elem_of_In%filter_In. by rewrite String.eqb_refl in Hx. }
  rewrite Hgone in Hrem.
  (* the record *)
  set (w2 := after db2 w1). set (w3 := after db2 w2).
  destruct (closing_refreshed w3 e2 (claim_at e1 op owner) op owner Hd) as (e3 & Hrun3 & (Hc3 & Hcr3 & Hg3 & Ho3 & Hm3) & Hle3).
  { split; [by apply (calm_le i); [|cbn; lia]| |done|by eexists]. unfold now, w3, w2, w1, after. cbn. fold i. rewrite Hcr1. lia. }
  { done. }
  set (db3 := set_entry (key_of (sr_contract (en_row e2))) e3 (w_db w3)) in *.
  assert (g ∈ en_generations e3) as Hgin3 by by rewrite Hg3.
  pose proof (record_deletion_is digest cipher (envs (S (S (S (S i))))) db3 e3 op owner _ g Hle3 ltac:(unfold now, w3, w2, w1, after; cbn; fold i; lia) Hgin3 Hf4) as Hrec.
  assert (key_of (sr_contract (en_row e3)) = k) as Hk3 by (rewrite Hc3; exact Hk1).
  set (e4 := with_generations (deleted_at (gr_checkpoint_namespace g) (en_generations e3)) e3) in *.
  set (w4 := after db3 w3). set (db4 := set_entry (key_of (sr_contract (en_row e3))) e4 db3) in *.
  exists (after db4 w4), e4, (claim_at e3 op owner). split_and!.
  - unfold SessionClose.delete_generation. rewrite (bindw _ _ _ _ _ Hrun1). cbn [cm_authority claim_at].
    assert (delete_bound_thread digest cipher envs others (authority_of e1 op owner) cg (gr_storage_thread_id (cg_row cg)) w1 = (w3, inr ())) as Hbound.
    { unfold delete_bound_thread. rewrite Hst. rewrite requirew by (rewrite String.eqb_refl, andb_true_r; exact Hformat).
      etransitivity; [apply bindw; apply call_is; [by apply (calm_le i); [|cbn; lia]|exact Hdel]|].
      etransitivity; [apply bindw; apply call_is; [by apply (calm_le i); [|cbn; lia]|exact Hrem]|]. done. }
    rewrite (bindw _ _ _ _ _ Hbound), (bindw _ _ _ _ _ Hrun3). cbn [cm_authority claim_at]. rewrite Hns.
    etransitivity; [apply bindw; apply call_is; [by apply (calm_le i); [|cbn; lia]|exact Hrec]|].
    rewrite requirew; [done|]. cbn [cg_row scoped set_state gr_storage_thread_id]. rewrite Hst, String.eqb_refl, andb_true_r.
    unfold cg_in_state, in_state. by rewrite bool_decide_eq_true_2.
  - split; [by apply (calm_le i); [|cbn; lia]| |done|].
    + unfold now, w4, w3, w2, w1, after. cbn. fold i. rewrite Hcr3. cbn. rewrite Hcr1. lia.
    + exists (now w3 + d). eapply leased_row; [exact Hle3| |done].
      eapply (sits_ran (call_close_deletion (envs (S (S (S (S i))))) (authority_of e3 op owner) (gr_checkpoint_namespace g)) db3); [done|apply Hle3| |].
      * cbn [run_registry]. by eapply ran_at.
      * cbn [en_row e4 with_generations]. apply session_set_eq.
  - done.
  - split.
    + cbn. lia.
    + cbn. rewrite Hc3. cbn. by rewrite Hc1.
    + fold k. cbn [after w_db]. apply (elsewhere_trans _ _ db3); [|unfold db4; rewrite Hk3; apply elsewhere_set].
      apply (elsewhere_trans _ _ db2); [|unfold db3; cbn [e2 en_row]; rewrite Hk1; apply elsewhere_set].
      apply (elsewhere_trans _ _ db1); [apply elsewhere_set|]. intros k' Hk'. unfold db2, without_thread, session_of. cbn.
      by rewrite lookup_insert_ne by (rewrite Hk1; done).
    + cbn. by rewrite Hg3, <-Hg1.
    + cbn. by rewrite Hm3, <-Hm1.
    + done.
Qed.

(** ** The deletion of every generation *)
(** A generation of the inventory is cleared, or still listed to be deleted. *)
Definition cleared_but (todo : list CheckpointGeneration) w e : Prop := ∀ g, g ∈ en_generations e →
  (gr_state g = gs_deleted ∧ gr_storage_thread_id g ∉ db_checkpoints (w_db w) ∧ ∀ m, m ∈ en_manifests e → m.1 ≠ gr_checkpoint_namespace g) ∨
  gr_checkpoint_namespace g ∈ (λ x, gr_checkpoint_namespace (cg_row x)) <$> todo.
Definition listed (todo : list CheckpointGeneration) e : Prop := Forall (λ x, ∃ g, g ∈ en_generations e ∧
  gr_checkpoint_namespace (cg_row x) = gr_checkpoint_namespace g ∧ gr_storage_thread_id (cg_row x) = gr_storage_thread_id g) todo.
Lemma closing_sits w e op owner : closing w e op owner → sits (w_db w) e.
Proof. intros [_ _ _ [until Hle]]. by apply Hle. Qed.
Lemma cleared_step g w e w' e' x todo op owner : closing w e op owner → g ∈ en_generations e →
  gr_checkpoint_namespace (cg_row x) = gr_checkpoint_namespace g → gr_storage_thread_id (cg_row x) = gr_storage_thread_id g →
  cleared g w e w' e' → cleared_but (x :: todo) w e → cleared_but todo w' e'.
Proof.
  intros Hcl Hg Hns Hst [_ Hc _ Hgens Hman Hchk] Hbut g' Hg'. rewrite Hgens in Hg'. unfold deleted_at in Hg'. apply moved_in in Hg' as (g0 & Hg0 & ->).
  pose proof (sits_ok _ _ _ _ (closing_sits _ _ _ _ Hcl)) as Hok.
  destruct (String.eqb_spec (gr_checkpoint_namespace g0) (gr_checkpoint_namespace g)) as [Heq|Hne].
  - left. cbn. split_and!; [done| |].
    + rewrite Hchk. intros [_ Hx]%list_elem_of_In%filter_In.
      assert (gr_storage_thread_id g0 = gr_storage_thread_id g) as Hs; [|by rewrite Hs, String.eqb_refl in Hx].
      pose proof (proj1 (Forall_forall _ _) (ok_rows _ _ _ Hok)) as Hrows.
      pose proof (Hrows g0 Hg0) as [_ ->]%make_generation_done. pose proof (Hrows g Hg) as [_ ->]%make_generation_done. by rewrite Heq.
    + rewrite Hman. intros m [_ Hm]%list_elem_of_In%filter_In Hmn. rewrite Hmn, Heq, String.eqb_refl in Hm. done.
  - destruct (Hbut g0 Hg0) as [(Hd & Ht & Hm)|Hin].
    + left. split_and!; [done| |].
      * rewrite Hchk. intros [Hx _]%list_elem_of_In%filter_In. by apply Ht, list_elem_of_In.
      * rewrite Hman. intros m [Hx _]%list_elem_of_In%filter_In. by apply Hm, list_elem_of_In.
    + right. cbn in Hin. apply elem_of_cons in Hin as [Hx|Hin]; [|done]. by rewrite Hns in Hx.
Qed.
Lemma listed_step g w e w' e' todo : cleared g w e w' e' → listed todo e → listed todo e'.
Proof.
  intros [_ _ _ Hgens _ _] Hl. eapply Forall_impl; [exact Hl|]. intros x (g0 & Hg0 & Hns & Hst).
  exists (if String.eqb (gr_checkpoint_namespace g0) (gr_checkpoint_namespace g) then set_state gs_deleted g0 else g0).
  split; [|by case_match]. rewrite Hgens. apply list_elem_of_fmap. by exists g0.
Qed.
Definition threads e : list string := gr_storage_thread_id <$> en_generations e.
Lemma cleared_threads g w e w' e' : cleared g w e w' e' → threads e' = threads e.
Proof.
  intros [_ _ _ Hgens _ _]. unfold threads. rewrite Hgens. unfold deleted_at, moved. rewrite <-list_fmap_compose.
  apply list_fmap_ext. intros _ x _. cbn. by case_match.
Qed.
Lemma delete_generations_is todo w e claim op owner : durations → closing w e op owner → claims claim e op owner →
  listed todo e → cleared_but todo w e →
  ∃ w' e' claim', delete_generations todo claim w = (w', inr claim') ∧ closing w' e' op owner ∧ claims claim' e' op owner ∧
    sr_contract (en_row e') = sr_contract (en_row e) ∧ elsewhere (key_of (sr_contract (en_row e))) (w_db w) (w_db w') ∧ cleared_but [] w' e' ∧
    threads e' = threads e ∧ (w_calls w ≤ w_calls w')%nat.
Proof.
  intros Hd. revert w e claim. induction todo as [|x todo IH]; intros w e claim Hcl Hclaim Hl Hbut.
  { exists w, e, claim. by split_and!. }
  apply Forall_cons in Hl as [(g & Hg & Hns & Hst) Hl].
  destruct (delete_generation_is w e claim op owner g x Hd Hcl Hclaim Hg Hns Hst) as (w1 & e1 & claim1 & Hrun & Hcl1 & Hclaim1 & Hdel).
  destruct (IH w1 e1 claim1 Hcl1 Hclaim1) as (w2 & e2 & claim2 & Hrun2 & Hcl2 & Hclaim2 & Hc2 & Hel2 & Hbut2 & Hth2 & Hcalls2).
  { by eapply listed_step. } { exact (cleared_step g w e w1 e1 x todo op owner Hcl Hg Hns Hst Hdel Hbut). }
  exists w2, e2, claim2. split_and!; try done.
  - cbn [SessionClose.delete_generations]. by rewrite (bindw _ _ _ _ _ Hrun).
  - rewrite Hc2. exact (cd_contract _ _ _ _ _ Hdel).
  - eapply elsewhere_trans; [exact (cd_elsewhere _ _ _ _ _ Hdel)|]. rewrite <-(cd_contract _ _ _ _ _ Hdel). exact Hel2.
  - rewrite Hth2. by eapply cleared_threads.
  - etransitivity; [exact (cd_calls _ _ _ _ _ Hdel)|done].
Qed.
Lemma all_cleared w e op owner : closing w e op owner → cleared_but [] w e → nothing_left e (w_db w).
Proof.
  intros Hcl Hbut. pose proof (sits_ok _ _ _ _ (closing_sits _ _ _ _ Hcl)) as Hok. destruct Hcl as [_ _ _ [until Hle]].
  assert (∀ g, g ∈ en_generations e → gr_state g = gs_deleted ∧ gr_storage_thread_id g ∉ db_checkpoints (w_db w) ∧
    ∀ m, m ∈ en_manifests e → m.1 ≠ gr_checkpoint_namespace g) as Hall by by (intros g Hg; destruct (Hbut g Hg) as [|?%not_elem_of_nil]).
  split_and!.
  - apply (ok_nonempty _ _ _ Hok). by rewrite (le_closing _ _ _ _ _ _ _ Hle).
  - apply Forall_forall. intros g Hg. by destruct (Hall g Hg) as (? & ? & _).
  - destruct (en_manifests e) as [|m l] eqn:Hm; [done|]. exfalso.
    destruct (proj1 (list_elem_of_fmap _ _ _) (ok_manifests _ _ _ Hok m ltac:(rewrite Hm; by left))) as (g & Hg & Hin).
    destruct (Hall g Hin) as (_ & _ & Hno). apply (Hno m); [by left|done].
Qed.

Lemma inventory_listed e : listed (inventory e) e.
Proof.
  unfold listed, inventory. apply Forall_fmap. rewrite ordered_perm. apply Forall_forall. intros g Hg. by exists g.
Qed.
Lemma inventory_covers w e : cleared_but (inventory e) w e.
Proof.
  intros g Hg. right. unfold inventory. rewrite <-list_fmap_compose. apply list_elem_of_fmap. exists g. split; [done|]. by rewrite ordered_perm.
Qed.

(** ** The close *)
Record closed_under w e (op : string) : Prop := {
  cu_sits : sits (w_db w) e;
  cu_closed : sr_lifecycle (en_row e) = CLOSED;
  cu_operation : sr_close_operation_id (en_row e) = Some op }.
Lemma finalize_done w e claim op owner : durations → calm (w_calls w) → sits (w_db w) e → sr_lifecycle (en_row e) = CLOSING →
  sr_close_operation_id (en_row e) = Some op → claims claim e op owner →
  (lease_live (en_row e) (now w) = true → sr_lease_owner_id (en_row e) = Some owner) →
  authority_identifier owner = true → sr_created_at (en_row e) ≤ now w →
  ∃ w' e' r, finalize claim w = (w', inr r) ∧ closed_under w' e' op ∧ sr_contract (en_row e') = sr_contract (en_row e) ∧
    calm (w_calls w') ∧ (w_calls w ≤ w_calls w')%nat ∧ elsewhere (key_of (sr_contract (en_row e))) (w_db w) (w_db w') ∧
    ∀ t, t ∈ threads e → t ∉ db_checkpoints (w_db w').
Proof.
  intros Hd Hcalm Hs Hl Hop Hclaim Hown Hid Hcr. set (k := key_of (sr_contract (en_row e))).
  destruct (refresh_claim_is w e claim op owner Hd Hcalm Hs Hl Hop Hclaim Hown Hid Hcr) as (e1 & Hrun1 & (Hc1 & Hcr1 & Hg1 & _) & Hle1).
  fold k in Hrun1, Hle1. set (w1 := after (set_entry k e1 (w_db w)) w) in *.
  pose proof (Hcalm (w_calls w) ltac:(lia)) as (_ & _ & Ht0 & Ht0'). pose proof (Hcalm (S (w_calls w)) ltac:(lia)) as (_ & Hf1 & Ht1 & _).
  unfold now in Hle1.
  pose proof (close_generations_is digest cipher (envs (w_calls w1)) (w_db w1) e1 op owner _ Hle1 ltac:(cbn; lia) Hf1) as Hgens.
  set (w2 := after (w_db w1) w1).
  assert (closing w2 e1 op owner) as Hcl2.
  { split; [by apply (calm_le (w_calls w)); [|cbn; lia]| |done|by eexists]. unfold now, w2, w1, after in *. cbn. lia. }
  destruct (delete_generations_is (inventory e1) w2 e1 (claim_at e1 op owner) op owner Hd Hcl2) as (w3 & e3 & claim3 & Hrun3 & Hcl3 & Hclaim3 & Hc3 & Hel3 & Hbut3 & Hth3 & Hcalls3).
  { done. } { apply inventory_listed. } { apply inventory_covers. }
  pose proof (all_cleared _ _ _ _ Hcl3 Hbut3) as Hnothing.
  destruct (closing_refreshed w3 e3 claim3 op owner Hd Hcl3 Hclaim3) as (e4 & Hrun4 & (Hc4 & Hcr4 & Hg4 & _ & Hm4) & Hle4).
  set (w4 := after (set_entry (key_of (sr_contract (en_row e3))) e4 (w_db w3)) w3) in *.
  pose proof (cs_calm _ _ _ _ Hcl3) as Hcalm3. pose proof (Hcalm3 (w_calls w3) ltac:(lia)) as (_ & _ & Ht3 & Ht3').
  pose proof (Hcalm3 (S (w_calls w3)) ltac:(lia)) as (_ & Hf4 & Ht4 & _). pose proof (cs_created _ _ _ _ Hcl3) as Hcr3'.
  destruct Hd as (_ & Hret & Hpos & Hpos'). unfold now in Hle4, Hcr3'.
  assert (nothing_left e4 (w_db w4)) as Hnothing4.
  { destruct Hnothing as (? & ? & ?). split_and!; [by rewrite Hg4| |by rewrite Hm4]. by rewrite Hg4. }
  pose proof (finalize_is digest cipher (envs (w_calls w4)) (w_db w4) e4 op owner _ (Some (co_tombstone_retention_seconds co)) retention Hle4
    ltac:(cbn; lia) Hnothing4 Hf4 ltac:(cbn; lia) Hret Hpos') as Hfin. cbv zeta in Hfin.
  set (r := tombstone _ _ (en_row e4)) in *. set (db5 := set_entry _ _ (w_db w4)) in Hfin.
  assert (key_of (sr_contract (en_row e4)) = k) as Hk4 by (rewrite Hc4, Hc3, Hc1; done).
  exists (after db5 w4), (mkEntry r [] [] []), r. split_and!.
  - unfold SessionClose.finalize. rewrite Hrun1. cbn [cm_authority claim_at]. fold w1.
    rewrite (call_is _ w1 _ _ ltac:(by apply (calm_le (w_calls w)); [|cbn; lia]) Hgens). fold w2. rewrite (bindw _ _ _ _ _ Hrun3), (bindw _ _ _ _ _ Hrun4).
    cbn [cm_authority claim_at]. unfold finalize_registry_record.
    etransitivity; [apply bindw; apply call_is; [by apply (calm_le (w_calls w3)); [|cbn; lia]|exact Hfin]|].
    by rewrite requirew.
  - split; [|done|by apply (le_operation _ _ _ _ _ _ _ Hle4)].
    eapply (sits_ran (call_finalize (envs (w_calls w4)) (authority_of e4 op owner) (Some (co_tombstone_retention_seconds co))) (w_db w4) db5 e4); [done|apply Hle4| |].
    + cbn [run_registry]. by eapply ran_at.
    + cbn [en_row r tombstone sr_contract]. apply session_set_eq.
  - cbn. rewrite Hc4, Hc3. by rewrite Hc1.
  - apply (calm_le (w_calls w3)); [done|cbn; lia].
  - cbn in *. lia.
  - cbn [after w_db]. unfold db5. rewrite Hk4. apply (elsewhere_trans _ _ (w_db w4)); [|apply elsewhere_set].
    cbn [w4 after w_db]. assert (key_of (sr_contract (en_row e3)) = k) as -> by (rewrite Hc3, Hc1; done).
    apply (elsewhere_trans _ _ (w_db w3)); [|apply elsewhere_set]. apply (elsewhere_trans _ _ (w_db w1)); [apply elsewhere_set|].
    intros k' Hk'. rewrite (Hel3 k'); [done|]. by rewrite Hc1.
  - intros t Ht. unfold threads in Hth3. rewrite Hg1 in Hth3. unfold threads in Ht. rewrite <-Hth3 in Ht.
    apply list_elem_of_fmap in Ht as (g & -> & Hg). destruct Hnothing as (_ & Hall & _). rewrite Forall_forall in Hall. by apply Hall.
Qed.

(** A session that its own close has already made a tombstone. *)
Lemma finalize_again w e claim op : durations → calm (w_calls w) → closed_under w e op →
  ca_contract (cm_authority claim) = sr_contract (en_row e) → ca_operation_id (cm_authority claim) = op →
  ∃ w', finalize claim w = (w', inr (en_row e)) ∧ w_db w' = w_db w ∧ (w_calls w ≤ w_calls w')%nat.
Proof.
  intros (Hd & Hret & _) Hcalm [Hs Hcl Hop] Hc Ho. pose proof (sits_ok _ _ _ _ Hs) as Hok.
  assert (refresh_claim claim w = (after (w_db w) w, inl (Exc SessionCloseError "not_eligible"))) as Hrefresh.
  { apply call_is; [done|]. unfold refresh_close. rewrite (lift_ok _ _ _ _ Hd). unfold translating, committed, transaction.
    rewrite (proj1 (proj2 (Hcalm (w_calls w) ltac:(lia)))), Hc.
    rewrite (bind_ok _ _ _ _ _ (locked_session_is _ _ _ (si_at _ _ _ _ Hs) (ok_valid _ _ _ Hok))). cbv zeta.
    rewrite require_fails; [done|]. unfold eq_lifecycle. apply bool_decide_eq_false_2. by rewrite Hcl. }
  set (w1 := after (w_db w) w) in *.
  assert (finalize_close digest (envs (w_calls w1)) (cm_authority claim) (Some (co_tombstone_retention_seconds co)) (w_db w1) = (w_db w1, inr (en_row e))) as Hfin.
  { unfold finalize_close. rewrite (lift_ok _ _ _ _ Hret). etransitivity; [apply bind_ok, translating_is, committed_is; [apply (Hcalm (S (w_calls w))); lia|]|].
    - rewrite Hc. rewrite (bind_ok _ _ _ _ _ (locked_session_is _ _ _ (si_at _ _ _ _ Hs) (ok_valid _ _ _ Hok))).
      assert (eq_lifecycle (sr_lifecycle (en_row e)) CLOSED = true) as -> by by apply bool_decide_eq_true_2.
      rewrite require_ok by (apply bool_decide_eq_true_2; by rewrite Ho). reflexivity.
    - unfold record_from_row. by rewrite (ok_valid _ _ _ Hok). }
  exists (after (w_db w) w1). split_and!; [|done|cbn; lia].
  unfold SessionClose.finalize. rewrite Hrefresh. cbn [is_close_error exc_cls exc_msg]. unfold is_close_error. cbn [exc_cls exc_msg]. rewrite bool_decide_eq_true_2 by done.
  cbn [andb String.eqb]. unfold finalize_registry_record.
  etransitivity; [apply bindw; apply call_is; [by apply (calm_le (w_calls w)); [|cbn; lia]|exact Hfin]|].
  rewrite requirew; [done|]. destruct (ok_closed _ _ _ Hok Hcl) as [-> _]. unfold eq_lifecycle. by rewrite bool_decide_eq_true_2.
Qed.

(** Where an earlier attempt of the same close may have left the session: claimed, with any of
    its generations already deleted, or closed. *)
Definition resumable w e (op owner : string) : Prop :=
  closed_under w e op ∨
  (sits (w_db w) e ∧ sr_lifecycle (en_row e) = CLOSING ∧ sr_close_operation_id (en_row e) = Some op ∧
   (lease_live (en_row e) (now w) = true → sr_lease_owner_id (en_row e) = Some owner) ∧ sr_created_at (en_row e) ≤ now w).
Notation closer_finalize := (closer_finalize digest cipher envs others co).
Notation closer_begin := (closer_begin digest cipher envs others co).
(** C14 A close completes, whatever an earlier attempt left behind.  When the session was claimed
    by this close (its lease is still this closer's, or has lapsed), with any of its generations
    already deleted, or when it was closed and only the acknowledgement was lost, one calm
    attempt to finalize ends the close: the session is a tombstone of this operation without a
    payload, a receipt, a pending write or a generation, the checkpoint backend holds no thread of
    the generations it had, no other session is touched, and the closer knows it is done. *)
Theorem close_completes c w e claim owner : durations → calm (w_calls w) → authority_identifier owner = true →
  cl_finalized c = false → cl_claim c = Some claim → claims claim e (cl_operation_id c) owner → resumable w e (cl_operation_id c) owner →
  ∃ w' e' c', closer_finalize c w = (w', c', inr tt) ∧ cl_finalized c' = true ∧
    sr_contract (en_row e') = sr_contract (en_row e) ∧ session_of (w_db w') (key_of (sr_contract (en_row e))) = Some e' ∧
    sr_lifecycle (en_row e') = CLOSED ∧ sr_close_operation_id (en_row e') = Some (cl_operation_id c) ∧ sr_envelope (en_row e') = None ∧
    en_generations e' = [] ∧ en_operations e' = [] ∧ en_manifests e' = [] ∧
    (∀ g, g ∈ en_generations e → gr_storage_thread_id g ∉ db_checkpoints (w_db w')) ∧
    ∀ k, k ≠ key_of (sr_contract (en_row e)) → session_of (w_db w') k = session_of (w_db w) k.
Proof.
  intros Hd Hcalm Hid Hf Hc Hclaim Hres.
  assert (∃ w' e' r, finalize claim w = (w', inr r) ∧ closed_under w' e' (cl_operation_id c) ∧ sr_contract (en_row e') = sr_contract (en_row e) ∧
    elsewhere (key_of (sr_contract (en_row e))) (w_db w) (w_db w') ∧ ∀ t, t ∈ threads e → t ∉ db_checkpoints (w_db w'))
    as (w' & e' & r & Hrun & [Hs Hcl Hop] & Hct & Hel & Hth).
  { destruct Hres as [Hcu|(Hs & Hl & Hop & Hown & Hcr)].
    - destruct (finalize_again w e claim _ Hd Hcalm Hcu) as (w' & Hrun & Hdb & _); [apply Hclaim..|].
      exists w', e, (en_row e). split_and!; [done| |done|by rewrite Hdb|]; destruct Hcu as [Hs Hcl Hop]; [split; by rewrite ?Hdb|].
      destruct (ok_closed _ _ _ (sits_ok _ _ _ _ Hs) Hcl) as (_ & _ & Hg & _). unfold threads. rewrite Hg. by intros t ?%not_elem_of_nil.
    - destruct (finalize_done w e claim _ owner Hd Hcalm Hs Hl Hop Hclaim Hown Hid Hcr) as (w' & e' & r & Hrun & Hcu & Hct & _ & _ & Hel & Hth).
      by exists w', e', r. }
  exists w', e', (set_finalized c). destruct (ok_closed _ _ _ (sits_ok _ _ _ _ Hs) Hcl) as (? & _ & ? & ? & ?).
  split_and!; try done; [|by rewrite <-Hct; apply Hs|].
  - unfold SessionClose.closer_finalize. by rewrite Hf, Hc, Hrun.
  - intros g Hg. apply Hth. by apply list_elem_of_fmap_2.
Qed.

(** The live teardown: the holder of the lease claims its session, and can then finalize it. *)
Lemma live_close_claims a w e : durations → calm (w_calls w) → (∀ n, authority_identifier (uuids n) = true) →
  sits (w_db w) e → key_of (la_contract a) = key_of (sr_contract (en_row e)) → lease_held a (now w) (en_row e) → sr_created_at (en_row e) ≤ now w →
  ∃ w' c e' claim, (c ← bind uuids a; closer_begin c) w = (w', inr c) ∧ cl_finalized c = false ∧ cl_claim c = Some claim ∧
    claims claim e' (cl_operation_id c) (cl_lease_owner_id c) ∧ authority_identifier (cl_lease_owner_id c) = true ∧
    resumable w' e' (cl_operation_id c) (cl_lease_owner_id c) ∧ sr_contract (en_row e') = sr_contract (en_row e) ∧ calm (w_calls w').
Proof.
  intros (Hd & _ & Hpos & _) Hcalm Hids Hs Hk Hh Hcr.
  set (op := uuids (w_uuids w)). set (owner := uuids (S (w_uuids w))). set (w0 := mkWorld (w_db w) (w_calls w) (S (S (w_uuids w)))).
  assert (close_request_valid (mkCloseRequest op owner (close_lease co)) = true) as Hreq by (unfold close_request_valid; cbn; unfold op, owner; by rewrite !Hids).
  destruct (begin_close_is digest cipher (envs (w_calls w)) (w_db w) e a (mkCloseRequest op owner (close_lease co)) d Hs Hk Hh Hreq) as (e1 & Hrun & (Hc1 & Hcr1 & _) & Hle);
    [by apply (Hcalm (w_calls w))|done..|].
  set (k := key_of (sr_contract (en_row e))) in *. set (w1 := after (set_entry k e1 (w_db w)) w0).
  exists w1, (mkCloser a op owner (Some (claim_at e1 op owner)) false), e1, (claim_at e1 op owner). split_and!; try done.
  - rewrite (bindw (bind uuids a) _ w w0 (mkCloser a op owner None false) eq_refl). unfold SessionClose.closer_begin. cbn [cl_claim cl_finalized isSome orb]. unfold live_close, begin_live_close. cbn [cl_authority cl_operation_id cl_lease_owner_id].
    rewrite (requirew _ _ _ _ _ Hreq). rewrite (call_is (λ env, begin_close digest env a (mkCloseRequest op owner (close_lease co))) w0 _ _ Hcalm Hrun). done.
  - by apply Hids.
  - right. destruct Hle as [Hs1 Hl1 Hop1 How1 _]. split_and!; try done. unfold now, w1, w0. cbn. rewrite Hcr1. etransitivity; [exact Hcr|]. by apply (Hcalm (w_calls w)).
  - apply (calm_le (w_calls w)); [done|cbn; lia].
Qed.
End close.
