(* ===== verification/SessionReap.v ===== *)
(** * Closing durable sessions: the reaper

    In calm, one sweep of a tenant closes every expired session it lists; and
    whatever happens to one tenant, every tenant of the cycle is swept. *)

From stdpp Require Import gmap.
From Stdlib Require Import QArith_base.
From S2P Require Import Prelude PyText Money Receipts Cart OrderScope SessionState Confirmation Encryption Registry RegistryLaws RegistryInv RegistryProps RegistryRefine SessionClose SessionCloseLaws SessionCloseProps.
Local Open Scope Z_scope.
Local Open Scope list_scope.

Section reap.
Context {K C : Type} `{!Aead K C} `{!AeadLaws K C} `{!PayloadCodec} `{!PayloadCodecLaws}.
Context (digest : list (string * json_scalar) → string) (cipher : AesGcmSessionCipher K).
Context (envs : nat → tx_env) (others : nat → list registry_call) (uuids : nat → string) (co : Coordinator).
Notation DB := (Database C).
Notation W := (World (C := C)).
Implicit Types (db : DB) (e : Entry C) (w : W).
Notation sits := (sits digest cipher).
Notation call := (call digest cipher envs others).
Notation reap_candidate := (reap_candidate digest cipher envs others uuids co).
Notation reap_candidates := (reap_candidates digest cipher envs others uuids co).
Notation reap_expired := (reap_expired digest cipher envs others uuids co).
Notation now := (now envs).
Notation closed_under := (closed_under digest cipher).
Context (d retention : Z).
Notation calm := (calm envs others d).
Notation durations := (durations co d retention).

(** A session the reaper may claim. *)
Definition due w e : Prop := sr_lifecycle (en_row e) ≠ CLOSED ∧
  (lease_live (en_row e) (now w) = false ∨ (sr_lifecycle (en_row e) ≠ CLOSING ∧ sr_expires_at (en_row e) ≤ now w)) ∧
  sr_created_at (en_row e) ≤ now w.
Lemma due_later w w' e : due w e → now w ≤ now w' → due w' e.
Proof.
  intros (Hl & Hdue & Hcr) Hle. split_and!; [done| |lia]. destruct Hdue as [Hlive|[? ?]]; [left|right; split; [done|lia]].
  unfold lease_live in *. destruct (sr_lease_expires_at (en_row e)); [|done]. apply Z.ltb_ge in Hlive. apply Z.ltb_ge. lia.
Qed.
Definition candidate_of k e : ExpiredSessionCandidate := mkCandidate k (sr_close_operation_id (en_row e)).
Lemma identifier_nonempty s : authority_identifier s = true → nonempty s = true.
Proof. unfold authority_identifier. intros Hs. by bools. Qed.

Lemma reap_candidate_is w e : let k := key_of (sr_contract (en_row e)) in
  durations → calm (w_calls w) → (∀ n, authority_identifier (uuids n) = true) → sits (w_db w) e → due w e →
  ∃ w' e', reap_candidate (candidate_of k e) w = (w', inr (true, [])) ∧ calm (w_calls w') ∧ (w_calls w ≤ w_calls w')%nat ∧
    sits (w_db w') e' ∧ sr_lifecycle (en_row e') = CLOSED ∧ sr_contract (en_row e') = sr_contract (en_row e) ∧ elsewhere k (w_db w) (w_db w').
Proof.
  intros k Hd Hcalm Hids Hs (Hl & Hdue & Hcr). pose proof Hd as (Hdl & _ & Hpos & _).
  destruct (record_valid_ids _ (ok_valid _ _ _ (sits_ok _ _ _ _ Hs))) as [_ _ _ Hcl _ _].
  assert (∃ w0 op owner, w_db w0 = w_db w ∧ w_calls w0 = w_calls w ∧ authority_identifier op = true ∧ authority_identifier owner = true ∧
    (sr_close_operation_id (en_row e) = None ∨ sr_close_operation_id (en_row e) = Some op) ∧
    ∀ X, (operation ← match ex_close_operation_id (candidate_of k e) with
              | Some id => if nonempty id then mret id else uuid uuids
              | None => uuid uuids
              end;
          owner ← uuid uuids; (X operation owner : M W (bool * list exc))) w = X op owner w0) as (w0 & op & owner & Hdb & Hcalls & Hop & How & Hor & Hstart).
  { unfold candidate_of. cbn [ex_close_operation_id]. destruct (sr_close_operation_id (en_row e)) as [id|].
    - cbn in Hcl. rewrite (identifier_nonempty _ Hcl). eexists (mkWorld (w_db w) (w_calls w) (S (w_uuids w))), id, _. split_and!; [done|done|exact Hcl|apply (Hids (w_uuids w))|by right|done].
    - eexists (mkWorld (w_db w) (w_calls w) (S (S (w_uuids w)))), _, _. split_and!; [done|done|apply (Hids (w_uuids w))|apply (Hids (S (w_uuids w)))|by left|done]. }
  assert (calm (w_calls w0)) as Hcalm0 by by rewrite Hcalls. assert (now w0 = now w) as Hnow by (unfold SessionCloseProps.now; by rewrite Hcalls).
  set (request := mkCloseRequest op owner (close_lease co)).
  assert (close_request_valid request = true) as Hreq by (unfold close_request_valid; cbn; by rewrite Hop, How).
  destruct (claim_expired_is digest cipher (envs (w_calls w0)) (w_db w0) e request (sr_close_operation_id (en_row e)) d) as (e1 & Hrun & (Hc1 & Hcr1 & _) & Hle);
    [by rewrite Hdb|done|by fold (now w0); rewrite Hnow|done|done|by apply (Hcalm0 (w_calls w0))|by fold (now w0); rewrite Hnow|done|done|].
  fold k in Hrun. set (w1 := after (set_entry k e1 (w_db w0)) w0).
  destruct Hle as [Hs1 Hl1 Hop1 How1 _]. cbn [cr_operation_id cr_lease_owner_id request] in *.
  pose proof (Hcalm0 (w_calls w0) ltac:(lia)) as (_ & _ & Ht & _).
  destruct (finalize_done digest cipher envs others co d retention w1 e1 (claim_at e1 op owner) op owner Hd) as (w2 & e2 & r & Hfin & [Hs2 Hcl2 _] & Hc2 & Hcalm2 & Hle2 & Hel2 & _);
    [apply (calm_le _ _ _ (w_calls w0)); [done|cbn; lia]|exact Hs1|done..| |].
  { unfold now, w1. cbn. rewrite Hcr1. unfold SessionCloseProps.now in *. rewrite Hcalls in *. lia. }
  exists w2, e2. split_and!; try done; [|cbn in *; lia|congruence|].
  - etransitivity; [apply (Hstart (λ operation owner, let request := mkCloseRequest operation owner (close_lease co) in
      require (close_request_valid request) ValidationError "" ;;
      (λ w : W,
           match call (λ env, claim_expired digest env (candidate_of k e) request) w with
           | (w, inl e) => (w, inr (false, if is_benign_race e then [] else [e]))
           | (w, inr claim) =>
               match SessionClose.finalize digest cipher envs others co claim w with
               | (w, inl e) => (w, inr (false, if is_benign_race e then [] else [e]))
               | (w, inr _) => (w, inr (true, []))
               end
           end) : M W (bool * list exc)))|].
    cbv zeta beta. fold request. rewrite (requirew _ _ _ _ _ Hreq). cbv beta.
    rewrite (call_is _ _ _ _ d (λ env, claim_expired digest env (candidate_of k e) request) w0 _ _ Hcalm0 Hrun). fold w1. by rewrite Hfin.
  - intros k' Hk'. rewrite (Hel2 k') by by rewrite Hc1. cbn [w1 after w_db]. rewrite session_set, decide_False by done. by rewrite Hdb.
Qed.

Definition key_at e : string * string := key_of (sr_contract (en_row e)).
Lemma reap_candidates_is l w n fs : durations → calm (w_calls w) → (∀ i, authority_identifier (uuids i) = true) →
  db_ok digest cipher (w_db w) → constrained (w_db w) → NoDup (key_at <$> l) → Forall (λ e, sits (w_db w) e ∧ due w e) l →
  ∃ w', reap_candidates ((λ e, candidate_of (key_at e) e) <$> l) n fs w = (w', inr (n + Z.of_nat (length l), fs)) ∧
    calm (w_calls w') ∧ (w_calls w ≤ w_calls w')%nat ∧ db_ok digest cipher (w_db w') ∧ constrained (w_db w') ∧
    (∀ k, k ∉ key_at <$> l → session_of (w_db w') k = session_of (w_db w) k) ∧
    ∀ e, e ∈ l → ∃ e', session_of (w_db w') (key_at e) = Some e' ∧ sr_lifecycle (en_row e') = CLOSED.
Proof.
  intros Hd Hcalm Hids. revert w n Hcalm. induction l as [|e l IH]; intros w n Hcalm Hok Hcon Hnd Hl.
  { exists w. cbn. rewrite Z.add_0_r. split_and!; try done. by intros e ?%not_elem_of_nil. }
  rewrite fmap_cons in Hnd. apply NoDup_cons in Hnd as [Hnew Hnd]. apply Forall_cons in Hl as [[Hs Hdue] Hl].
  destruct (reap_candidate_is w e Hd Hcalm Hids Hs Hdue) as (w1 & e1 & Hrun & Hcalm1 & Hcalls1 & Hs1 & Hcl1 & Hc1 & Hel1). fold (key_at e) in Hrun, Hel1.
  destruct (IH w1 (n + 1) Hcalm1) as (w2 & Hrun2 & Hcalm2 & Hcalls2 & Hok2 & Hcon2 & Hout2 & Hin2); try done; [apply Hs1..| |].
  { rewrite Forall_forall in *. intros x Hx. destruct (Hl x Hx) as [Hsx Hdx]. split; [|eapply due_later; [exact Hdx|by eapply now_mono]].
    split; [apply Hs1..|]. rewrite Hel1; [apply Hsx|]. intros Heq. apply Hnew. rewrite <-Heq. by apply (list_elem_of_fmap_2 key_at). }
  exists w2. split_and!; try done; [|lia| |].
  - cbn [fmap list_fmap SessionClose.reap_candidates]. etransitivity; [by apply bindw|]. cbn. rewrite app_nil_r.
    rewrite Hrun2. do 2 f_equal. f_equal. lia.
  - intros k Hk. cbn in Hk. apply not_elem_of_cons in Hk as [Hk1 Hk2]. rewrite Hout2 by done. by apply Hel1.
  - intros x [->|Hx]%elem_of_cons; [|by apply Hin2]. exists e1. split; [|done]. rewrite Hout2 by done. unfold key_at. rewrite <-Hc1. apply Hs1.
Qed.

(** ** The listing *)
Definition expired_in db (t : Z) (tenant : string) : list ((string * string) * Entry C) :=
  List.filter (λ x, expired_row t (en_row x.2)) (tenant_sessions tenant db).
Lemma sort_by_perm {A} (le : A → A → bool) l : sort_by le l ≡ₚ l.
Proof.
  assert (∀ x l', insert_by le x l' ≡ₚ x :: l') as Hins.
  { intros x l'. induction l' as [|y l' IH]; cbn; [done|]. case_match; [done|]. rewrite IH. apply perm_swap. }
  induction l as [|x l IH]; cbn; [done|]. by rewrite Hins, IH.
Qed.
Lemma expired_in_iff db t tenant k e : (k, e) ∈ expired_in db t tenant ↔ session_of db k = Some e ∧ k.1 = tenant ∧ expired_row t (en_row e) = true.
Proof.
  unfold expired_in, tenant_sessions, session_of. rewrite list_elem_of_In, !filter_In, <-list_elem_of_In, elem_of_map_to_list. cbn. rewrite String.eqb_eq. tauto.
Qed.
Lemma filter_sublist {A} (f : A → bool) l : sublist (List.filter f l) l.
Proof. induction l as [|x l IH]; cbn; [constructor|]. case_match; by constructor. Qed.
Lemma expired_in_keys db t tenant : NoDup ((expired_in db t tenant).*1).
Proof.
  eapply sublist_NoDup; [apply NoDup_fst_map_to_list with (m := db_sessions db)|]. unfold expired_in, tenant_sessions.
  apply (fmap_sublist fst). etransitivity; apply filter_sublist.
Qed.
Lemma expired_sessions_is env db tenant limit : tx_fault env = no_fault → authority_identifier tenant = true → (1 <= limit)%nat →
  ∃ rows, rows ⊆+ expired_in db (tx_locked env) tenant ∧ length rows = Nat.min limit (length (expired_in db (tx_locked env) tenant)) ∧
    expired_sessions env tenant limit db = (db, inr ((λ x, candidate_of x.1 x.2) <$> rows)).
Proof.
  intros Hf Ht Hlim. exists (take limit (sort_by reap_le (expired_in db (tx_locked env) tenant))). split_and!.
  - rewrite <-(sort_by_perm reap_le (expired_in db (tx_locked env) tenant)) at 2. apply sublist_submseteq, sublist_take.
  - by rewrite length_take, (Permutation_length (sort_by_perm _ _)).
  - unfold expired_sessions. rewrite require_ok by done. rewrite require_ok by by apply Nat.leb_le.
    by apply translating_is, committed_is.
Qed.

Lemma purge_is env db tenant limit : tx_fault env = no_fault → authority_identifier tenant = true → (1 <= limit)%nat →
  ∃ db' n, purge_closed_tombstones env tenant limit db = (db', inr n) ∧ unlisted db db'.
Proof.
  intros Hf Ht Hlim. eexists _, _. split.
  - unfold purge_closed_tombstones. rewrite require_ok by done. rewrite require_ok by by apply Nat.leb_le.
    apply translating_is, committed_is; [done|]. reflexivity.
  - by eexists.
Qed.
Lemma expired_is_due w e : expired_row (now w) (en_row e) = true → sr_created_at (en_row e) ≤ now w → due w e.
Proof.
  unfold expired_row, due, eq_lifecycle, lease_live. intros Hx Hcr. bools.
  match goal with Hx : _ || _ = true |- _ => apply orb_true_iff in Hx end.
  split_and!; [done| |done]. destruct H2 as [Hx|Hx].
  - left. destruct (sr_lease_expires_at _); [|done]. bools. by apply Z.ltb_ge.
  - right. by bools.
Qed.

Lemma submseteq_keys {A B} (l1 l2 : list (A * B)) : l1 ⊆+ l2 → NoDup l2.*1 → NoDup l1.*1.
Proof. intros (l3 & Hp)%submseteq_Permutation. rewrite Hp, fmap_app. by intros (? & _ & _)%NoDup_app. Qed.
Lemma expired_row_due w tenant k e : db_ok digest cipher (w_db w) → (sr_created_at (en_row e) ≤ now w) → (k, e) ∈ expired_in (w_db w) (now w) tenant →
  constrained (w_db w) → key_at e = k ∧ sits (w_db w) e ∧ due w e.
Proof.
  intros Hok Hcr (He & Hk & Hx)%expired_in_iff Hcon. destruct (Hok k e He) as [Hkey _].
  split_and!; [done| |by apply expired_is_due]. by split; [..|rewrite <-Hkey in He].
Qed.

(** One sweep over the rows it lists. *)
Lemma sweep_is w tenant limit : durations → calm (w_calls w) → (∀ i, authority_identifier (uuids i) = true) →
  db_ok digest cipher (w_db w) → constrained (w_db w) → authority_identifier tenant = true → (1 <= limit)%nat →
  (∀ k e, session_of (w_db w) k = Some e → sr_created_at (en_row e) ≤ now w) →
  let expired := expired_in (w_db w) (now w) tenant in
  ∃ w2 rows db' purged, reap_expired tenant limit w = (after db' w2, reaped (mkReap tenant (Z.of_nat (length rows)) (Z.of_nat purged) 0)) ∧
    length rows = Nat.min limit (length expired) ∧ rows ⊆+ expired ∧ unlisted (w_db w2) db' ∧ db_ok digest cipher (w_db w2) ∧
    ∀ k e, (k, e) ∈ rows → ∃ e', session_of (w_db w2) k = Some e' ∧ sr_lifecycle (en_row e') = CLOSED.
Proof.
  intros Hd Hcalm Hids Hok Hcon Ht Hlim Hcr expired.
  destruct (expired_sessions_is (envs (w_calls w)) (w_db w) tenant limit) as (rows & Hsub & Hlen & Hlist); [by apply (Hcalm (w_calls w))|done..|].
  fold (now w) in Hsub, Hlen. fold expired in Hsub, Hlen. set (w1 := after (w_db w) w).
  assert (∀ k e, (k, e) ∈ rows → key_at e = k ∧ sits (w_db w) e ∧ due w e) as Hrows.
  { intros k e Hin. pose proof (elem_of_submseteq _ _ _ Hin Hsub) as Hin'. apply (expired_row_due w tenant); [done| |done..].
    apply expired_in_iff in Hin' as [He _]. by eapply Hcr. }
  assert (key_at <$> rows.*2 = rows.*1) as Hkeys.
  { rewrite <-list_fmap_compose. apply list_fmap_ext. intros i [k e] Hx. cbn. apply list_elem_of_lookup_2 in Hx. by rewrite (proj1 (Hrows k e Hx)). }
  assert ((λ x : (string * string) * Entry C, candidate_of x.1 x.2) <$> rows = (λ e, candidate_of (key_at e) e) <$> rows.*2) as Hcands.
  { rewrite <-list_fmap_compose. apply list_fmap_ext. intros i [k e] Hx. cbn. apply list_elem_of_lookup_2 in Hx. by rewrite (proj1 (Hrows k e Hx)). }
  destruct (reap_candidates_is (rows.*2) w1 0 []) as (w2 & Hrun & Hcalm2 & Hcalls2 & Hok2 & Hcon2 & Hout2 & Hin2); try done.
  { apply (calm_le _ _ _ (w_calls w)); [done|cbn; lia]. }
  { rewrite Hkeys. apply (submseteq_keys _ expired); [done|apply expired_in_keys]. }
  { apply Forall_forall. intros e ([k e'] & -> & Hx)%list_elem_of_fmap. destruct (Hrows k e' Hx) as (_ & Hs & Hdue). cbn [snd].
    split; [done|]. eapply due_later; [exact Hdue|]. apply (now_mono _ others d); [done|cbn; lia]. }
  destruct (purge_is (envs (w_calls w2)) (w_db w2) tenant limit) as (db' & purged & Hpurge & Hun); [by apply (Hcalm2 (w_calls w2))|done..|].
  exists w2, rows, db', purged. split_and!; try done.
  - unfold SessionClose.reap_expired.
    erewrite bindw by (eapply call_is; [done|exact Hlist]). fold w1. rewrite Hcands, Hrun.
    erewrite call_is; [|done|exact Hpurge]. unfold make_reap_result. cbn [tr_tenant_id tr_sessions_closed tr_tombstones_purged tr_failure_count].
    rewrite Ht, length_fmap, Z.add_0_l.
    by rewrite (proj2 (Z.leb_le 0 (Z.of_nat (length rows)))), (proj2 (Z.leb_le 0 (Z.of_nat purged))) by lia.
  - intros k e Hx. destruct (Hin2 e) as (e' & He' & Hcl'); [by apply (list_elem_of_fmap_2 snd _ (k, e))|].
    exists e'. by rewrite (proj1 (Hrows k e Hx)) in He'.
Qed.

(** C15 In calm, one sweep of a tenant closes the expired sessions of the tenant: it lists as many
    of them as the limit allows, closes every one it lists (its generations, receipts, pending
    writes and payload are gone; a tombstone may already be purged), reports exactly that many
    and no failure; so a limit no smaller than their number leaves none of them open. *)
Theorem expired_sessions_reaped w tenant limit : durations → calm (w_calls w) → (∀ i, authority_identifier (uuids i) = true) →
  db_ok digest cipher (w_db w) → constrained (w_db w) → authority_identifier tenant = true → (1 <= limit)%nat →
  (∀ k e, session_of (w_db w) k = Some e → sr_created_at (en_row e) ≤ now w) →
  let expired := expired_in (w_db w) (now w) tenant in
  ∃ w' rows purged, reap_expired tenant limit w = (w', reaped (mkReap tenant (Z.of_nat (length rows)) purged 0)) ∧
    length rows = Nat.min limit (length expired) ∧ rows ⊆+ expired ∧
    (∀ k e, (k, e) ∈ rows → ∀ e', session_of (w_db w') k = Some e' →
       sr_lifecycle (en_row e') = CLOSED ∧ sr_envelope (en_row e') = None ∧ en_generations e' = [] ∧ en_operations e' = [] ∧ en_manifests e' = []) ∧
    ((length expired ≤ limit)%nat → ∀ k e, k.1 = tenant → session_of (w_db w) k = Some e → expired_row (now w) (en_row e) = true →
       ∀ e', session_of (w_db w') k = Some e' → sr_lifecycle (en_row e') = CLOSED) ∧ db_ok digest cipher (w_db w').
Proof.
  intros Hd Hcalm Hids Hok Hcon Ht Hlim Hcr expired.
  destruct (sweep_is w tenant limit) as (w2 & rows & db' & purged & Hrun & Hlen & Hsub & Hun & Hok2 & Hrows); try done.
  fold expired in Hlen, Hsub. pose proof (unlisted_ok _ _ _ _ Hok2 Hun) as Hok'.
  assert (∀ k e, (k, e) ∈ rows → ∀ e', session_of db' k = Some e' → sr_lifecycle (en_row e') = CLOSED) as Hclosed.
  { intros k e Hx e' He'. destruct (Hrows k e Hx) as (e2 & He2 & Hcl2). destruct Hun as (l & ->). apply lookup_purged in He'. unfold session_of in *. congruence. }
  exists (after db' w2), rows, (Z.of_nat purged). split_and!; try done.
  - intros k e Hx e' He'. pose proof (Hclosed k e Hx e' He') as Hcl. destruct (Hok' k e' He') as [_ Hent].
    destruct (ok_closed _ _ _ Hent Hcl) as (? & _ & ? & ? & ?). done.
  - intros Hall k e Hk He Hx e' He'. apply (Hclosed k e); [|done].
    rewrite (submseteq_length_Permutation rows expired) by (done || lia). by apply expired_in_iff.
Qed.

(** ** The cycle *)
(** What a sweep says about its tenant. *)
Definition reply_ok (tenant : string) (reply : ReapReply) : Prop :=
  match reply with
  | reaped r => tr_tenant_id r = tenant ∧ tr_failure_count r = 0
  | reap_failed causes r => tr_tenant_id r = tenant ∧ causes ≠ [] ∧ tr_failure_count r = Z.of_nat (length causes)
  | reap_raised _ => True
  end.
Lemma make_reap_result_same r r' : make_reap_result r = inr r' → r' = r.
Proof. unfold make_reap_result. intros Hr. do 4 apply requires_done in Hr as [_ Hr]. by injection Hr as ->. Qed.
Lemma reap_expired_reply tenant limit w : reply_ok tenant (reap_expired tenant limit w).2.
Proof.
  unfold SessionClose.reap_expired.
  match goal with |- context [match ?m w with _ => _ end] => destruct (m w) as [w1 [e|[closed failures]]]; [done|] end.
  match goal with |- context [match ?m w1 with _ => _ end] => destruct (m w1) as [w2 [e|n]] end; cbn [snd];
    match goal with |- context [make_reap_result ?r] => destruct (make_reap_result r) as [e'|r'] eqn:Hr; [done|]; apply make_reap_result_same in Hr as -> end.
  - rewrite (proj2 (Nat.eqb_neq (length (failures ++ [e])) 0)) by (rewrite length_app; cbn; lia).
    unfold tenant_reap_failure. cbn [tr_failure_count]. rewrite Z.eqb_refl. split_and!; [done|by destruct failures|done].
  - destruct failures as [|x fs]; [done|]. cbn [length Nat.eqb]. unfold tenant_reap_failure. cbn [tr_failure_count]. by rewrite Z.eqb_refl.
Qed.
Definition succeeded (reply : ReapReply) : bool := match reply with reaped _ => true | _ => false end.
(** The result a cycle keeps for one tenant. *)
Definition kept (tenant : string) (reply : ReapReply) : TenantReapResult :=
  match reply with reaped r | reap_failed _ r => r | reap_raised _ => mkReap tenant 0 0 1 end.
Lemma outcome_is tenant reply : reply_ok tenant reply → ∃ failure, tenant_outcome tenant reply = (kept tenant reply, failure) ∧
  tr_tenant_id (kept tenant reply) = tenant ∧ isSome failure = negb (succeeded reply) ∧
  negb (tr_failure_count (kept tenant reply) =? 0) = negb (succeeded reply).
Proof.
  destruct reply as [r|causes r|e]; cbn [reply_ok tenant_outcome kept succeeded].
  - intros [-> ->]. rewrite String.eqb_refl. by exists None.
  - intros (-> & Hne & ->). rewrite String.eqb_refl. eexists. split_and!; [done..|]. by destruct causes.
  - intros _. by eexists.
Qed.
End reap.

Section cycle.
Context {W : Type} (reap : string → nat → W → W * ReapReply) (Hreap : ∀ tenant limit w, reply_ok tenant (reap tenant limit w).2).
(** The sweeps of a cycle, one after the other: every tenant with the reply of its sweep. *)
Fixpoint sweeps (tenants : list string) (batch : nat) (w : W) : list (string * ReapReply) :=
  match tenants with
  | [] => []
  | tenant :: tenants => (tenant, (reap tenant batch w).2) :: sweeps tenants batch (reap tenant batch w).1
  end.
Definition swept (tenants : list string) (batch : nat) (w : W) : W := foldl (λ w tenant, (reap tenant batch w).1) w tenants.
Definition results_of (l : list (string * ReapReply)) : list TenantReapResult := (λ x, kept x.1 x.2) <$> l.
Definition failed_of (l : list (string * ReapReply)) : list string := fst <$> List.filter (λ x, negb (succeeded x.2)) l.
Lemma sweeps_tenants tenants batch w : fst <$> sweeps tenants batch w = tenants.
Proof. revert w. induction tenants as [|t l IH]; intros w; cbn; [done|]. f_equal. apply IH. Qed.
Lemma sweeps_ok tenants batch w : Forall (λ x, reply_ok x.1 x.2) (sweeps tenants batch w).
Proof. revert w. induction tenants as [|t l IH]; intros w; cbn; [done|]. constructor; [apply Hreap|apply IH]. Qed.
Lemma sweep_tenants_is tenants batch results failures w : ∃ more,
  sweep_tenants reap tenants batch results failures w = (swept tenants batch w, (results ++ results_of (sweeps tenants batch w), failures ++ more)) ∧
  length more = length (failed_of (sweeps tenants batch w)).
Proof.
  revert results failures w. induction tenants as [|t l IH]; intros results failures w.
  { exists []. by rewrite !app_nil_r. }
  pose proof (Hreap t batch w) as Hok. cbn. destruct (reap t batch w) as [w1 reply]. cbn [fst snd] in *.
  destruct (outcome_is t reply Hok) as (failure & Hout & _ & Hf & _). rewrite Hout.
  edestruct IH as (more & Hrun & Hlen). exists (match failure with Some e => [e] | None => [] end ++ more).
  split. { rewrite Hrun. by rewrite <-!app_assoc. }
  unfold failed_of in *. cbn. destruct (succeeded reply), failure; cbn in *; try done; by rewrite Hlen.
Qed.
Lemma all_succeeded l : (length (failed_of l) =? 0)%nat = forallb (λ x, succeeded x.2) l.
Proof. unfold failed_of. induction l as [|[t reply] l IH]; cbn; [done|]. by destruct (succeeded reply); cbn. Qed.
Lemma results_tenants l : Forall (λ x, reply_ok x.1 x.2) l → tr_tenant_id <$> results_of l = fst <$> l.
Proof. induction 1 as [|[t reply] l Hx Hl IH]; [done|]. unfold results_of in *. cbn in *. rewrite IH. f_equal. by destruct (outcome_is t reply Hx) as (? & _ & -> & _). Qed.
Lemma failed_results l : Forall (λ x, reply_ok x.1 x.2) l → failed_tenant_ids (mkCycle (results_of l)) = failed_of l.
Proof.
  unfold failed_tenant_ids, failed_of. cbn [rr_tenants]. induction 1 as [|[t reply] l Hx Hl IH]; [done|]. cbn.
  destruct (outcome_is t reply Hx) as (? & _ & Ht & _ & ->). destruct (succeeded reply); cbn; [exact IH|]. rewrite Ht. f_equal. exact IH.
Qed.
End cycle.

Section sweep.
Context {K C : Type} `{!Aead K C} `{!PayloadCodec}.
Context (digest : list (string * json_scalar) → string) (cipher : AesGcmSessionCipher K).
Context (envs : nat → tx_env) (others : nat → list registry_call) (uuids : nat → string) (co : Coordinator).
Notation reap_expired := (reap_expired digest cipher envs others uuids co).

(** The reaper isolates its tenants: whatever the registry answers and whatever other workers
    do, a cycle sweeps every tenant exactly once; it never raises; it keeps one result per tenant,
    that of its own sweep (a sweep that raised counts as one failure and no session); and it
    succeeds exactly when every sweep did, otherwise it fails with one cause for each tenant whose
    sweep did not. *)
Theorem tenant_sweeps_isolated ids interval batch r (w : World (C := C)) : make_reaper ids interval batch = inr r →
  let done := sweeps reap_expired (re_tenant_ids r) batch w in
  re_tenant_ids r ≡ₚ ids ∧ NoDup ids ∧ fst <$> done = re_tenant_ids r ∧
  Forall (λ x, reply_ok x.1 x.2) done ∧
  ∃ causes cycle, run_once reap_expired r w =
    (swept reap_expired (re_tenant_ids r) batch w, if forallb (λ x, succeeded x.2) done then cycled cycle else cycle_failed causes cycle) ∧
    rr_tenants cycle = results_of done ∧ failed_tenant_ids cycle = failed_of done ∧ length causes = length (failed_of done).
Proof.
  intros Hr l. unfold make_reaper in Hr. apply requires_done in Hr as [_ Hr]. apply requires_done in Hr as [Hnd Hr].
  do 2 apply requires_done in Hr as [_ Hr]. injection Hr as <-. cbn [re_tenant_ids re_batch_size] in *. apply bool_decide_eq_true in Hnd.
  pose proof (sort_by_perm str_leb ids) as Hperm.
  assert (Forall (λ x, reply_ok x.1 x.2) l) as Hok by (apply sweeps_ok, reap_expired_reply).
  split_and!; [done..|apply sweeps_tenants|done|].
  unfold run_once. cbn [re_tenant_ids re_batch_size].
  destruct (sweep_tenants_is reap_expired (reap_expired_reply _ _ _ _ _ _) (sort_by str_leb ids) batch [] [] w) as (causes & Hrun & Hlen). rewrite Hrun. fold l in Hlen |- *.
  exists causes, (mkCycle (results_of l)). cbn [app]. split_and!; [|done|by apply failed_results|done].
  unfold make_cycle. cbn [rr_tenants]. rewrite results_tenants by done. rewrite (sweeps_tenants _ _ _ _ : fst <$> l = _).
  rewrite bool_decide_eq_true_2 by by rewrite Hperm. cbn [requires mbind res_bind].
  unfold reaper_cycle_failure. rewrite failed_results, Hlen, Nat.eqb_refl, all_succeeded by done. done.
Qed.
End sweep.
