(* ===== verification/SessionExamples.v ===== *)
(** * Closing durable sessions on concrete databases *)

From stdpp Require Import gmap.
From Stdlib Require Import QArith_base.
From S2P Require Import Prelude PyText Money Receipts Cart OrderScope SessionState Confirmation Encryption Registry RegistryLaws RegistryInv RegistryProps RegistryRefine RegistryExamples SessionClose SessionCloseLaws SessionCloseProps SessionReap.
Local Open Scope Z_scope.
Local Open Scope list_scope.

(** A calm deployment: one call each microsecond from a start on, close leases of a minute,
    tombstones kept for a day. *)
Definition a_coordinator : Coordinator := mkCoordinator (5#1) (60#1) (86400#1).
Definition calm_from (start : Z) (i : nat) : tx_env := at_time (start + Z.of_nat i) no_fault.
Definition nobody (i : nat) : list registry_call := [].
Definition a_uuid (n : nat) : string := "uuid-" +:+ repeat_char "0" (Nat.modulo n 30).
Lemma a_coordinator_durations : durations a_coordinator 60000000 86400000000.
Proof. unfold durations. split_and!; reflexivity. Qed.
Lemma calm_from_calm start n : calm (calm_from start) nobody 60000000 n.
Proof. intros i _. cbn. split_and!; [done|done|lia|lia]. Qed.
Lemma a_uuid_identifier n : authority_identifier (a_uuid n) = true.
Proof. unfold a_uuid. pose proof (Nat.mod_upper_bound n 30 ltac:(lia)) as Hn. revert Hn. generalize (Nat.modulo n 30). intros m Hm. do 30 (destruct m as [|m]; [reflexivity|]). lia. Qed.

(** A close whose first attempt deleted the only generation and then died. *)
Definition half_closed : list registry_call := taken ++
  [call_close_deletion (at_time 5 no_fault) (mkClose a_contract "close-1" "reaper" 2) "s1::fence::1"].
Abbreviation interrupted := (runs half_closed empty_database).
Definition a_claim : SessionCloseClaim (C := sealed_text) := claim_at (entry_of interrupted) "close-1" "reaper".
Definition a_closer : Closer := mkCloser a_lease "close-1" "reaper" (Some a_claim) false.
Lemma half_closed_ok : Forall (λ c, registry_call_valid c = true) half_closed.
Proof. by repeat constructor. Qed.
Lemma close_completes_witness : ∃ w' c', closer_finalize reference_digest reference_cipher (calm_from 10) nobody a_coordinator a_closer (mkWorld interrupted 0 0)
  = (w', c', inr tt) ∧ cl_finalized c' = true ∧ sr_lifecycle ∘ en_row <$> session_of (w_db w') ("acme", "s1") = Some CLOSED.
Proof.
  destruct (close_completes reference_digest reference_cipher (calm_from 10) nobody a_coordinator 60000000 86400000000
    a_closer (mkWorld interrupted 0 0) (entry_of interrupted) a_claim "reaper") as (w' & e' & c' & Hrun & Hf & _ & He & Hcl & _).
  - exact a_coordinator_durations.
  - exact (calm_from_calm 10 0).
  - reflexivity.
  - reflexivity.
  - reflexivity.
  - split_and!; reflexivity.
  - right. split_and!; [|reflexivity|reflexivity|reflexivity|vm_compute; discriminate].
    split; [apply run_all_ok; [exact half_closed_ok|apply empty_database_ok]|apply run_all_constrained, empty_constrained|].
    vm_compute. reflexivity.
  - exists w', c'. split_and!; [exact Hrun|exact Hf|].
    change ("acme", "s1") with (key_of (sr_contract (en_row (entry_of interrupted)))). by rewrite He; cbn; rewrite Hcl.
Defined.

(** The session once its lease of a minute has lapsed. *)
Definition lapsed : World := mkWorld live 0 0.
Definition a_sweep := reap_expired reference_digest reference_cipher (calm_from 70000000) nobody a_uuid a_coordinator "acme" 10 lapsed.
Lemma sessions_of_live k e : session_of live k = Some e → k = ("acme", "s1") ∧ e = entry_of live.
Proof.
  assert (fst <$> map_to_list (db_sessions live) = [("acme", "s1")]) as Hkeys by (vm_compute; reflexivity).
  intros He. assert (k ∈ fst <$> map_to_list (db_sessions live)) as Hk.
  { apply list_elem_of_fmap. exists (k, e). split; [done|]. by apply elem_of_map_to_list. }
  rewrite Hkeys in Hk. apply list_elem_of_singleton in Hk as ->. split; [done|]. unfold entry_of. by rewrite He.
Qed.
Lemma expired_sessions_reaped_witness :
  ∃ w' r, a_sweep = (w', reaped r) ∧ tr_sessions_closed r = 1 ∧ tr_failure_count r = 0 ∧
    ∀ e', session_of (w_db w') ("acme", "s1") = Some e' → sr_lifecycle (en_row e') = CLOSED.
Proof.
  destruct (expired_sessions_reaped reference_digest reference_cipher (calm_from 70000000) nobody a_uuid a_coordinator 60000000 86400000000
    lapsed "acme" 10) as (w' & rows & purged & Hrun & Hlen & _ & _ & Hall & _).
  - exact a_coordinator_durations.
  - exact (calm_from_calm 70000000 0).
  - exact a_uuid_identifier.
  - exact live_ok.
  - apply run_all_constrained, empty_constrained.
  - reflexivity.
  - lia.
  - intros k e [-> ->]%sessions_of_live. by vm_compute.
  - assert (length rows = 1)%nat as Hone by (rewrite Hlen; by vm_compute).
    eexists w', _. split_and!; [exact Hrun|cbn; by rewrite Hone|done|].
    apply (Hall ltac:(vm_compute; lia) ("acme", "s1") (entry_of live)); by vm_compute.
Defined.

(** A cycle in which the database is lost while the first tenant is swept. *)
Definition shaky (i : nat) : tx_env := at_time (70000000 + Z.of_nat i) (if (i =? 0)%nat then lost_before_commit else no_fault).
Definition a_reaper : Reaper := mkReaper ["acme"; "zeta"] (Some (60#1)%Q) 10.
Definition a_cycle := run_once (reap_expired reference_digest reference_cipher shaky nobody a_uuid a_coordinator) a_reaper lapsed.
Lemma tenant_sweeps_isolated_witness :
  ∃ w' causes cycle, a_cycle = (w', cycle_failed causes cycle) ∧ tr_tenant_id <$> rr_tenants cycle = ["acme"; "zeta"] ∧
    failed_tenant_ids cycle = ["acme"] ∧ length causes = 1%nat.
Proof.
  destruct (tenant_sweeps_isolated reference_digest reference_cipher shaky nobody a_uuid a_coordinator ["zeta"; "acme"] (Some (60#1)%Q) 10
    a_reaper lapsed eq_refl) as (_ & _ & _ & _ & causes & cycle & Hrun & Hres & Hfailed & Hlen).
  set (done := sweeps _ _ _ _) in *.
  assert (results_of done = [mkReap "acme" 0 0 1; mkReap "zeta" 0 0 0]) as Hd by (by vm_compute).
  assert (failed_of done = ["acme"]) as Hf by (by vm_compute).
  assert (forallb (λ x, succeeded x.2) done = false) as Hs by (by vm_compute).
  rewrite Hs in Hrun. eexists _, causes, cycle. split_and!; [exact Hrun|by rewrite Hres, Hd|by rewrite Hfailed, Hf|by rewrite Hlen, Hf].
Defined.
