(* ===== verification/Requests.v ===== *)
(** * Typed requests and routes (dtos/orchestration.py)

    The intent requests a caller turn can be routed to, their validators, the
    route decisions and dispatch envelopes that carry them, the retained
    invocation and the payload of a principal transition.

    A value of [IntentRequest] here is any instance of the request classes,
    built past validation or not; [validate_request] is pydantic's validation
    of it, which strips texts.  Fresh uuids are arguments. *)

From S2P Require Import Prelude PyText Cart Orders OrderScope Profile Verification Confirmation.
Local Open Scope Z_scope.
Local Open Scope list_scope.

Inductive CancelScope := all_cancellable | both_cancellable.
#[export] Instance CancelScope_eq_dec : EqDecision CancelScope.
Proof. solve_decision. Defined.
Inductive AnswerTopic := policy_topic | general_topic.
Inductive ConversationAct :=
  | greeting | acknowledgment | farewell | invite_request | capability_summary | channel_check
  | repair.

Inductive CapabilityId :=
  | ANSWER_QUESTION | CONVERSE | SEARCH_CATALOG | VERIFY_ORDER_STATUS | READ_ORDER_TOTAL
  | LIST_ORDERS | VIEW_CART | MODIFY_CART | PLACE_ORDER | CANCEL_ORDERS | REFUND_ORDER
  | RETURN_ORDER | CHANGE_PROFILE | VERIFY_IDENTITY | SWITCH_ACCOUNT | VIEW_IDENTITY_STATUS
  | ABORT_CURRENT | DISCLOSE_AI_IDENTITY | REQUEST_PERSON.
#[export] Instance CapabilityId_eq_dec : EqDecision CapabilityId.
Proof. solve_decision. Defined.

(** ** Targets and selectors *)
Inductive OrderTarget := ExplicitOrderTarget (order_ref : string) | FocusedOrderTarget.

(** [OrderStatusSelector]: explicit set, focused, recent. *)
Inductive OrderStatusSelector :=
  | StatusExplicit (order_refs : list string) | StatusFocused | StatusRecent.

(** [CancelSelector]: explicit set, focused, cancellable scope. *)
Inductive CancelSelector :=
  | CancelExplicit (order_refs : list string) | CancelFocused | CancelScoped (scope : CancelScope).

Inductive CartItemSelector :=
  | CartItemQuery (query : string) | CartItemChoices (skus : list string)
  | ResolvedCartItemRef (sku : string).

Record OrderReadRequest := mkOrderRead {
  read_target : option OrderStatusSelector;
  explicit_target_turn_id : option string;
  explicit_target_confirmed : bool }.

(** ** Requests *)
Inductive IntentRequest :=
  | AnswerQuestion (topic : AnswerTopic)
  | Converse (act : ConversationAct)
  | SearchCatalog (query : option string)
  | VerifyOrderStatus (request : OrderReadRequest)
  | ReadOrderTotal (request : OrderReadRequest)
  | ListOrders (scope : list_scope)
  | ViewCart
  | ModifyCart (operation : CartOperation) (item : option CartItemSelector) (quantity : option Z)
  | PlaceOrder
  | CancelOrders (target : option CancelSelector)
  | RefundOrder (target : option OrderTarget) (amount_usd : option Z)
      (destination : option RefundDestination)
  | ReturnOrder (target : option OrderTarget)
  | ChangeProfile (field : ProfileField) (new_value : option string)
  | VerifyIdentity | SwitchAccount | ViewIdentityStatus | AbortCurrent | DiscloseAiIdentity
  | RequestPerson.

#[export] Instance RefundDestination_eq_dec : EqDecision RefundDestination.
Proof. solve_decision. Defined.
#[export] Instance CancelSelector_eq_dec : EqDecision CancelSelector.
Proof. unfold EqDecision, Decision; repeat decide equality. Defined.
#[export] Instance IntentRequest_eq_dec : EqDecision IntentRequest.
Proof. unfold EqDecision, Decision; repeat decide equality. Defined.

(** [request.kind] *)
Definition kind (r : IntentRequest) : CapabilityId :=
  match r with
  | AnswerQuestion _ => ANSWER_QUESTION | Converse _ => CONVERSE
  | SearchCatalog _ => SEARCH_CATALOG | VerifyOrderStatus _ => VERIFY_ORDER_STATUS
  | ReadOrderTotal _ => READ_ORDER_TOTAL | ListOrders _ => LIST_ORDERS | ViewCart => VIEW_CART
  | ModifyCart _ _ _ => MODIFY_CART | PlaceOrder => PLACE_ORDER
  | CancelOrders _ => CANCEL_ORDERS | RefundOrder _ _ _ => REFUND_ORDER
  | ReturnOrder _ => RETURN_ORDER | ChangeProfile _ _ => CHANGE_PROFILE
  | VerifyIdentity => VERIFY_IDENTITY | SwitchAccount => SWITCH_ACCOUNT
  | ViewIdentityStatus => VIEW_IDENTITY_STATUS | AbortCurrent => ABORT_CURRENT
  | DiscloseAiIdentity => DISCLOSE_AI_IDENTITY | RequestPerson => REQUEST_PERSON
  end.

(** [is_slot_complete] of each class. *)
Definition is_slot_complete (r : IntentRequest) : bool :=
  match r with
  | SearchCatalog query => isSome query
  | VerifyOrderStatus q | ReadOrderTotal q => isSome (read_target q)
  | ModifyCart operation item quantity =>
      match item with
      | None | Some (CartItemChoices _) => false
      | Some _ => bool_decide (operation = remove) || isSome quantity
      end
  | CancelOrders target => isSome target
  | RefundOrder target amount destination => isSome target && isSome amount && isSome destination
  | ReturnOrder target => isSome target
  | ChangeProfile _ new_value => isSome new_value
  | _ => true
  end.

(** ** Validation *)
Definition opt_text (s : option string) : res (option string) :=
  match s with
  | None => inr None
  | Some t => t ← non_empty_text t; inr (Some t)
  end.

(** [tuple[NonEmptyText, ...]] with a minimum length. *)
Definition text_tuple (n : nat) (l : list string) : res (list string) :=
  l ← mapR non_empty_text l;
  validated (n <=? length l)%nat l.

Definition validate_target (t : OrderTarget) : res OrderTarget :=
  match t with
  | ExplicitOrderTarget ref => ref ← non_empty_text ref; inr (ExplicitOrderTarget ref)
  | FocusedOrderTarget => inr FocusedOrderTarget
  end.

Definition validate_status_selector (t : OrderStatusSelector) : res OrderStatusSelector :=
  match t with
  | StatusExplicit refs => refs ← text_tuple 1 refs; inr (StatusExplicit refs)
  | _ => inr t
  end.

Definition validate_cancel_selector (t : CancelSelector) : res CancelSelector :=
  match t with
  | CancelExplicit refs => refs ← text_tuple 1 refs; inr (CancelExplicit refs)
  | _ => inr t
  end.

(** [CartItemChoices.skus_are_unique] *)
Definition validate_item (i : CartItemSelector) : res CartItemSelector :=
  match i with
  | CartItemQuery query => query ← non_empty_text query; inr (CartItemQuery query)
  | CartItemChoices skus =>
      skus ← text_tuple 2 skus;
      requires (bool_decide (NoDup skus)) ValidationError "cart item choices must be unique" ;;
      inr (CartItemChoices skus)
  | ResolvedCartItemRef sku => sku ← non_empty_text sku; inr (ResolvedCartItemRef sku)
  end.

Definition mapO {A B} (f : A → res B) (o : option A) : res (option B) :=
  match o with None => inr None | Some a => b ← f a; inr (Some b) end.

Definition is_explicit_set (t : option OrderStatusSelector) : bool :=
  match t with Some (StatusExplicit _) => true | _ => false end.

(** [OrderReadRequest.code_owned_target_evidence_is_coherent] *)
Definition code_owned_target_evidence_is_coherent (q : OrderReadRequest) : res unit :=
  requires (negb ((isSome (explicit_target_turn_id q) || explicit_target_confirmed q)
                  && negb (is_explicit_set (read_target q)))) ValidationError
    "only an explicit order-read target can carry caller evidence" ;;
  requires (negb (explicit_target_confirmed q && negb (isSome (explicit_target_turn_id q))))
    ValidationError "order-read confirmation requires its admitted source turn".

Definition validate_order_read (q : OrderReadRequest) : res OrderReadRequest :=
  target ← mapO validate_status_selector (read_target q);
  turn ← opt_text (explicit_target_turn_id q);
  let q := mkOrderRead target turn (explicit_target_confirmed q) in
  code_owned_target_evidence_is_coherent q ;;
  inr q.

Definition with_explicit_target_turn (turn_id : string) (q : OrderReadRequest) : res OrderReadRequest :=
  requires (is_explicit_set (read_target q)) ValueError
    "order-read target evidence requires an explicit target" ;;
  let normalized_turn_id := strip turn_id in
  requires (match explicit_target_turn_id q with
            | Some t => String.eqb t normalized_turn_id
            | None => true
            end) ValueError "order-read target evidence turn cannot be replaced" ;;
  validate_order_read
    (mkOrderRead (read_target q) (Some normalized_turn_id) (explicit_target_confirmed q)).

Definition with_confirmed_explicit_target (q : OrderReadRequest) : res OrderReadRequest :=
  requires (is_explicit_set (read_target q) && isSome (explicit_target_turn_id q)) ValueError
    "order-read confirmation requires explicit target evidence" ;;
  validate_order_read (mkOrderRead (read_target q) (explicit_target_turn_id q) true).

(** [ModifyCart.quantity_matches_operation] *)
Definition quantity_matches_operation (operation : CartOperation) (quantity : option Z) : res unit :=
  requires (negb (bool_decide (operation = remove) && isSome quantity)) ValidationError
    "remove must not carry a quantity" ;;
  requires (negb (bool_decide (operation = add)
                  && match quantity with Some q => q <? 1 | None => false end)) ValidationError
    "add quantity must be positive".

Definition at_least (bound : Z) (o : option Z) : bool :=
  match o with Some q => bound <=? q | None => true end.

(** [_revalidate_intent_request] *)
Definition validate_request (r : IntentRequest) : res IntentRequest :=
  match r with
  | SearchCatalog query => query ← opt_text query; inr (SearchCatalog query)
  | VerifyOrderStatus q => q ← validate_order_read q; inr (VerifyOrderStatus q)
  | ReadOrderTotal q => q ← validate_order_read q; inr (ReadOrderTotal q)
  | ModifyCart operation item quantity =>
      item ← mapO validate_item item;
      requires (at_least 0 quantity) ValidationError "" ;;
      quantity_matches_operation operation quantity ;;
      inr (ModifyCart operation item quantity)
  | CancelOrders target => target ← mapO validate_cancel_selector target; inr (CancelOrders target)
  | RefundOrder target amount destination =>
      target ← mapO validate_target target;
      requires (at_least 1 amount) ValidationError "" ;;
      inr (RefundOrder target amount destination)
  | ReturnOrder target => target ← mapO validate_target target; inr (ReturnOrder target)
  | ChangeProfile field new_value => new_value ← opt_text new_value; inr (ChangeProfile field new_value)
  | _ => inr r
  end.

(** ** Proposals and owner outputs *)
Inductive relationship := rel_single | rel_plural | rel_alternative | rel_ambiguous.

(** [OrderTargetProposal], with [_reference_count_matches_relationship]. *)
Definition make_OrderTargetProposal (rel : relationship) (refs : list string)
    : res (relationship * list string) :=
  refs ← text_tuple 0 refs;
  let count := length refs in
  requires (match rel with rel_single => (count =? 1)%nat | _ => true end) ValidationError
    "a single target proposal requires exactly one reference" ;;
  requires (match rel with rel_plural | rel_alternative => (2 <=? count)%nat | _ => true end)
    ValidationError "target proposal requires at least two references" ;;
  inr (rel, refs).

Inductive answer_decision := ad_answer | ad_clarify | ad_unsupported.
#[export] Instance answer_decision_eq_dec : EqDecision answer_decision.
Proof. solve_decision. Defined.

(** [AnswerResponse], with [_answer_matches_decision]. *)
Definition make_AnswerResponse (decision : answer_decision) (answer : option string)
    : res (answer_decision * option string) :=
  answer ← opt_text answer;
  requires (Bool.eqb (bool_decide (decision = ad_answer)) (isSome answer)) ValidationError
    "only the answer decision may carry a non-empty answer" ;;
  inr (decision, answer).

(** [_validate_product_skus] (dtos/state.py) and the loop of [CatalogAnswer]. *)
Definition validate_product_skus (value : list string) : res (list string) :=
  requires (negb (existsb blank value)) ValidationError "product SKUs must not be blank" ;;
  requires (bool_decide (NoDup value)) ValidationError "product SKUs must be unique" ;;
  inr value.

Record CatalogAnswer := mkCatalogAnswer {
  ca_answer : string; offered_skus : list string; referenced_skus : list string }.
Definition make_CatalogAnswer (answer : string) (offered referenced : list string) : res CatalogAnswer :=
  answer ← non_empty_text answer;
  validate_product_skus offered ;;
  validate_product_skus referenced ;;
  inr (mkCatalogAnswer answer offered referenced).

(** ** Invocations *)
Record ActiveInvocation := mkInvocation {
  invocation_id : string; request : IntentRequest; opened_turn_id : string }.
#[export] Instance ActiveInvocation_eq_dec : EqDecision ActiveInvocation.
Proof. solve_decision. Defined.

Definition make_ActiveInvocation (id : string) (r : IntentRequest) (turn : string) : res ActiveInvocation :=
  id ← non_empty_text id;
  r ← validate_request r;
  turn ← non_empty_text turn;
  inr (mkInvocation id r turn).

(** [ActiveInvocation.capability] *)
Definition capability (i : ActiveInvocation) : CapabilityId := kind (request i).

Definition with_request (r : IntentRequest) (i : ActiveInvocation) : res ActiveInvocation :=
  replacement ← make_ActiveInvocation (invocation_id i) r (opened_turn_id i);
  requires (bool_decide (capability replacement = capability i)) ValueError
    "active invocation request cannot change capability" ;;
  inr replacement.

Inductive ClarificationOwner :=
  | InvocationClarificationOwner (id : string) | RouterClarificationOwner (id : string).
#[export] Instance ClarificationOwner_eq_dec : EqDecision ClarificationOwner.
Proof. solve_decision. Defined.

(** ** Routes *)
Inductive ClarificationReason :=
  | ambiguous_intent | missing_target | missing_value | unsupported_workflow
  | unsupported_capability.

Inductive route := clarify_route | direct_route | continue_route.

Record RouteDecision := mkRoute {
  rd_decision : route; rd_request : option IntentRequest;
  rd_reason : option ClarificationReason }.

(** [isinstance(request.item, (CartItemChoices, ResolvedCartItemRef))] *)
Definition code_owned_item (r : IntentRequest) : bool :=
  match r with
  | ModifyCart _ (Some (CartItemChoices _ | ResolvedCartItemRef _)) _ => true
  | _ => false
  end.
Definition carries_profile_value (r : IntentRequest) : bool :=
  match r with ChangeProfile _ (Some _) => true | _ => false end.
Definition carries_target_evidence (r : IntentRequest) : bool :=
  match r with
  | VerifyOrderStatus q | ReadOrderTotal q =>
      isSome (explicit_target_turn_id q) || explicit_target_confirmed q
  | _ => false
  end.

(** [RouteDecision.payload_matches_decision] *)
Definition payload_matches_decision (d : RouteDecision) : res unit :=
  match rd_decision d with
  | clarify_route =>
      requires (negb (isSome (rd_request d) || negb (isSome (rd_reason d)))) ValidationError
        "clarify requires only a clarification_reason"
  | direct_route =>
      match rd_request d with
      | Some r =>
          requires (negb (isSome (rd_reason d))) ValidationError "direct requires only one request" ;;
          requires (negb (carries_profile_value r)) ValidationError
            "profile values are gathered by the owning capability" ;;
          requires (negb (code_owned_item r)) ValidationError
            "code-owned cart selectors are minted by the owning capability" ;;
          requires (negb (carries_target_evidence r)) ValidationError
            "order-read target evidence is minted by its owning flow"
      | None => raises ValidationError "direct requires only one request"
      end
  | continue_route =>
      requires (negb (isSome (rd_request d) || isSome (rd_reason d))) ValidationError
        "continue carries no payload"
  end.

Definition make_RouteDecision (decision : route) (r : option IntentRequest)
    (reason : option ClarificationReason) : res RouteDecision :=
  r ← mapO validate_request r;
  let d := mkRoute decision r reason in
  payload_matches_decision d ;;
  inr d.

Definition clarify (reason : ClarificationReason) : res RouteDecision :=
  make_RouteDecision clarify_route None (Some reason).
Definition direct (r : IntentRequest) : res RouteDecision :=
  make_RouteDecision direct_route (Some r) None.
Definition continue_current : res RouteDecision := make_RouteDecision continue_route None None.

Inductive RoutingFailureReason :=
  | invalid_output | routing_unavailable | context_invalid | decision_rejected.

(** [validate_route_output], over the fields of the returned value; a value with
    other fields does not validate either. *)
Definition validate_route_output (value : option (route * option IntentRequest * option ClarificationReason))
    : RouteDecision + RoutingFailureReason :=
  match value with
  | Some (decision, r, reason) =>
      match make_RouteDecision decision r reason with
      | inr d => inl d
      | inl _ => inr invalid_output
      end
  | None => inr invalid_output
  end.

Inductive dispatch_mode := mode_direct | mode_continue.
Record CapabilityDispatchEnvelope := mkEnvelope {
  de_turn_id : string; de_mode : dispatch_mode; de_request : option IntentRequest;
  observed_invocation_id : option string }.

(** [CapabilityDispatchEnvelope.payload_matches_mode] *)
Definition payload_matches_mode (e : CapabilityDispatchEnvelope) : res unit :=
  match de_mode e with
  | mode_direct =>
      match de_request e, observed_invocation_id e with
      | Some r, None => direct r ;; inr tt
      | _, _ => raises ValidationError "direct dispatch requires only one request"
      end
  | mode_continue =>
      requires (negb (isSome (de_request e) || negb (isSome (observed_invocation_id e))))
        ValidationError "continuation dispatch requires only the observed invocation ID"
  end.

Definition make_CapabilityDispatchEnvelope (turn : string) (mode : dispatch_mode)
    (r : option IntentRequest) (observed : option string) : res CapabilityDispatchEnvelope :=
  turn ← non_empty_text turn;
  r ← mapO validate_request r;
  observed ← opt_text observed;
  let e := mkEnvelope turn mode r observed in
  payload_matches_mode e ;;
  inr e.

(** ** Principal transitions *)
Inductive PrincipalCompletionKind := continue_request | completes_switch | completes_verify.

Definition is_principal_transition_continuation (r : IntentRequest) : bool :=
  match r with
  | ListOrders scope => match scope with scope_account => true | scope_session => false end
  | CancelOrders target =>
      match target with Some (CancelScoped _ | CancelExplicit _) => true | _ => false end
  | RefundOrder (Some (ExplicitOrderTarget _)) _ _ => true
  | ReturnOrder (Some (ExplicitOrderTarget _)) => true
  | RefundOrder _ _ _ | ReturnOrder _ => false
  | ChangeProfile _ _ => true
  | _ => false
  end.

Record PrincipalTransitionProjection := mkProjected {
  pt_continuation : option IntentRequest; pt_completion_kind : PrincipalCompletionKind }.

(** [PrincipalTransitionProjection], with [continuation_matches_completion].  A request that is
    already an instance is stored as it is. *)
Definition make_PrincipalTransitionProjection (continuation : option IntentRequest)
    (completion : PrincipalCompletionKind) : res PrincipalTransitionProjection :=
  (match completion, continuation with
   | continue_request, Some r =>
       requires (is_principal_transition_continuation r) ValidationError
         "continue_request requires an allowlisted continuation"
   | continue_request, None =>
       raises ValidationError "continue_request requires an allowlisted continuation"
   | _, Some _ => raises ValidationError "only continue_request may carry a continuation"
   | _, None => inr tt
   end) ;;
  inr (mkProjected continuation completion).

Definition project_principal_transition (r : option IntentRequest) : res PrincipalTransitionProjection :=
  match r with
  | None => raises ValueError "principal transition requires an initiating request"
  | Some SwitchAccount => make_PrincipalTransitionProjection None completes_switch
  | Some VerifyIdentity => make_PrincipalTransitionProjection None completes_verify
  | Some r =>
      if is_principal_transition_continuation r then
        make_PrincipalTransitionProjection (Some r) continue_request
      else raises ValueError "cannot continue across a principal transition"
  end.

Record PrincipalTransition := mkTransition {
  transition_id : string; tr_customer_ref : string; tr_masked_contact : string;
  fresh_proof : VerificationProof; initiating_request : IntentRequest }.
#[export] Instance PrincipalTransition_eq_dec : EqDecision PrincipalTransition.
Proof. solve_decision. Defined.

(** A [ValueError] raised in a validator becomes a [ValidationError]. *)
Definition in_validator {A} (r : res A) : res A :=
  match r with
  | inl (Exc ValueError m) => inl (Exc ValidationError m)
  | _ => r
  end.

(** [PrincipalTransition], with [initiating_request_is_allowlisted]. *)
Definition make_PrincipalTransition (id ref masked : string) (proof : VerificationProof)
    (r : IntentRequest) : res PrincipalTransition :=
  id ← non_empty_text id; ref ← non_empty_text ref; masked ← non_empty_text masked;
  in_validator (project_principal_transition (Some r)) ;;
  requires (String.eqb (vp_customer_ref proof) ref) ValidationError
    "principal transition proof does not match the customer" ;;
  requires (bool_decide (vp_purpose proof = purpose_identity)) ValidationError
    "principal transition requires an identity verification proof" ;;
  inr (mkTransition id ref masked proof r).

Inductive inspection := insp_none | insp_coherent | insp_inconsistent.
#[export] Instance inspection_eq_dec : EqDecision inspection.
Proof. solve_decision. Defined.

(** [PrincipalTransitionInspection], with [_transition_matches_outcome]. *)
Definition make_PrincipalTransitionInspection (outcome : inspection) (t : option PrincipalTransition)
    : res (inspection * option PrincipalTransition) :=
  requires (Bool.eqb (bool_decide (outcome = insp_none)) (negb (isSome t))) ValidationError
    "only the none outcome may omit a transition" ;;
  inr (outcome, t).

(** ** Lemmas *)
Lemma requires_inv b c m : requires b c m = inr tt → b = true.
Proof. by rewrite requires_ok. Qed.

Lemma non_empty_text_idem s t : non_empty_text s = inr t → non_empty_text t = inr t ∧ t = strip s.
Proof.
  unfold non_empty_text. munfold. case_match eqn:E; intros; simplify_eq.
  by rewrite strip_idem, E.
Qed.

(** A validation that stores what it has validated: doing it again changes nothing. *)
Definition stable {A} (f : A → res A) : Prop := ∀ a b, f a = inr b → f b = inr b.

Lemma stable_text : stable non_empty_text.
Proof. intros s t H. by apply non_empty_text_idem in H as [? _]. Qed.

Lemma stable_mapO {A} (f : A → res A) : stable f → stable (mapO f).
Proof.
  intros Hf [a|] b; simpl; munfold; [|naive_solver].
  destruct (f a) eqn:E; intros; simplify_eq. simpl. munfold. by rewrite (Hf _ _ E).
Qed.

Lemma opt_text_mapO o : opt_text o = mapO non_empty_text o.
Proof. by destruct o. Qed.

Lemma stable_opt_text : stable opt_text.
Proof. intros o p. rewrite !opt_text_mapO. apply stable_mapO, stable_text. Qed.

Lemma stable_mapR {A} (f : A → res A) : stable f → stable (mapR f).
Proof.
  intros Hf l. induction l as [|x l IH]; intros m; simpl; munfold; [naive_solver|].
  destruct (f x) eqn:E; [done|]. destruct (mapR f l) eqn:El; [done|]. intros; simplify_eq.
  simpl. munfold. by rewrite (Hf _ _ E), (IH _ eq_refl).
Qed.

Lemma stable_text_tuple n : stable (text_tuple n).
Proof.
  intros l m. unfold text_tuple. munfold. destruct (mapR non_empty_text l) eqn:E; [done|].
  case_match eqn:En; intros; simplify_eq. by rewrite (stable_mapR _ stable_text _ _ E), En.
Qed.

Create HintDb stable.
#[export] Hint Resolve stable_text stable_mapO stable_opt_text stable_mapR stable_text_tuple : stable.

Lemma stable_target : stable validate_target.
Proof.
  intros [r|] t; simpl; munfold; [|naive_solver]. destruct (non_empty_text r) eqn:E; [done|].
  intros; simplify_eq. simpl. munfold. by rewrite (stable_text _ _ E).
Qed.

Lemma stable_status_selector : stable validate_status_selector.
Proof.
  intros [l| |] t; simpl; munfold; [|naive_solver..]. destruct (text_tuple 1 l) eqn:E; [done|].
  intros; simplify_eq. simpl. munfold. by rewrite (stable_text_tuple _ _ _ E).
Qed.

Lemma stable_cancel_selector : stable validate_cancel_selector.
Proof.
  intros [l| |] t; simpl; munfold; [|naive_solver..]. destruct (text_tuple 1 l) eqn:E; [done|].
  intros; simplify_eq. simpl. munfold. by rewrite (stable_text_tuple _ _ _ E).
Qed.

Lemma stable_item : stable validate_item.
Proof.
  intros [q|l|s] t; simpl; munfold.
  - destruct (non_empty_text q) eqn:E; [done|]. intros; simplify_eq. simpl. munfold.
    by rewrite (stable_text _ _ E).
  - destruct (text_tuple 2 l) eqn:E; [done|]. case_match eqn:En; intros; simplify_eq. simpl. munfold.
    by rewrite (stable_text_tuple _ _ _ E), En.
  - destruct (non_empty_text s) eqn:E; [done|]. intros; simplify_eq. simpl. munfold.
    by rewrite (stable_text _ _ E).
Qed.

#[export] Hint Resolve stable_target stable_status_selector stable_cancel_selector stable_item : stable.

Lemma stable_order_read : stable validate_order_read.
Proof.
  intros q t. unfold validate_order_read. cbv [mbind res_bind].
  destruct (mapO validate_status_selector (read_target q)) eqn:Et; [done|].
  destruct (opt_text (explicit_target_turn_id q)) eqn:Eu; [done|].
  destruct (code_owned_target_evidence_is_coherent _) eqn:Ec; intros; simplify_eq. cbn.
  rewrite (stable_mapO _ stable_status_selector _ _ Et), (stable_opt_text _ _ Eu).
  by rewrite Ec.
Qed.
#[export] Hint Resolve stable_order_read : stable.

Lemma mapO_isSome {A B} (f : A → res B) o p : mapO f o = inr p → isSome p = isSome o.
Proof. destruct o as [a|]; simpl; munfold; [destruct (f a)|]; naive_solver. Qed.

Lemma opt_text_isSome o p : opt_text o = inr p → isSome p = isSome o.
Proof. rewrite opt_text_mapO. apply mapO_isSome. Qed.

(** Splits a chain of validations into the one that fails or the values it yields. *)
Ltac rsplit :=
  cbv [mbind res_bind];
  repeat match goal with
  | |- context [match ?x with inl _ => _ | inr _ => _ end] => destruct x eqn:?; [done|]
  end;
  intros; simplify_eq; cbn; cbv [mbind res_bind].

Ltac rres := repeat match goal with H : _ = inr _ |- _ => rewrite H end.

Lemma stable_request : stable validate_request.
Proof.
  intros r t. destruct r; cbn [validate_request]; try naive_solver; rsplit.
  - by erewrite stable_opt_text by done.
  - by erewrite stable_order_read by done.
  - by erewrite stable_order_read by done.
  - erewrite (stable_mapO _ stable_item) by done. by rres.
  - by erewrite (stable_mapO _ stable_cancel_selector) by done.
  - erewrite (stable_mapO _ stable_target) by done. by rres.
  - by erewrite (stable_mapO _ stable_target) by done.
  - by erewrite stable_opt_text by done.
Qed.

Lemma validate_order_read_keeps q t : validate_order_read q = inr t →
  isSome (read_target t) = isSome (read_target q) ∧
  isSome (explicit_target_turn_id t) = isSome (explicit_target_turn_id q) ∧
  explicit_target_confirmed t = explicit_target_confirmed q.
Proof.
  unfold validate_order_read. rsplit. by split_and!; [eapply mapO_isSome|eapply opt_text_isSome|].
Qed.

(** Validation strips texts: it keeps the capability and the slots. *)
Lemma validate_keeps r t : validate_request r = inr t →
  kind t = kind r ∧ is_slot_complete t = is_slot_complete r ∧
  carries_profile_value t = carries_profile_value r ∧ code_owned_item t = code_owned_item r ∧
  carries_target_evidence t = carries_target_evidence r.
Proof.
  destruct r; cbn [validate_request]; try (by intros [= <-]); rsplit.
  - apply opt_text_isSome in Heqs. by rewrite Heqs.
  - apply validate_order_read_keeps in Heqs as (-> & -> & ->). done.
  - apply validate_order_read_keeps in Heqs as (-> & -> & ->). done.
  - destruct item as [[]|]; cbn in Heqs; cbv [mbind res_bind] in Heqs;
      repeat (case_match; simplify_eq; try done).
  - apply mapO_isSome in Heqs. by rewrite Heqs.
  - apply mapO_isSome in Heqs. by rewrite Heqs.
  - apply mapO_isSome in Heqs. by rewrite Heqs.
  - apply opt_text_isSome in Heqs. destruct o, new_value; by rewrite ?Heqs.
Qed.

(** A request the router may hand over directly: nothing in it is owned by code. *)
Definition intent_only (r : IntentRequest) : bool :=
  negb (carries_profile_value r) && negb (code_owned_item r) && negb (carries_target_evidence r).

Lemma intent_only_validated r t : validate_request r = inr t → intent_only t = intent_only r.
Proof.
  intros (_ & _ & Hp & Hc & He)%validate_keeps. unfold intent_only. by rewrite Hp, Hc, He.
Qed.

Lemma direct_spec r d : direct r = inr d ↔
  ∃ t, validate_request r = inr t ∧ intent_only r = true ∧ d = mkRoute direct_route (Some t) None.
Proof.
  unfold direct, make_RouteDecision, payload_matches_decision. cbn. cbv [mbind res_bind].
  destruct (validate_request r) as [|t] eqn:E; [naive_solver|]. cbn.
  rewrite <-(intent_only_validated _ _ E). unfold intent_only. munfold.
  destruct (carries_profile_value t), (code_owned_item t), (carries_target_evidence t);
    naive_solver.
Qed.

(** A direct route or dispatch carries caller intent only.  A direct decision is accepted
    exactly for a valid request with no profile value, no code-owned cart selector and no
    order-read evidence, and stores its validated form; an admitted dispatch envelope either
    continues an observed invocation and carries no request, or carries a request a direct
    decision accepts unchanged. *)
Theorem dispatch_carries_intent_only :
  (∀ r d, direct r = inr d ↔
    ∃ t, validate_request r = inr t ∧ intent_only r = true ∧ d = mkRoute direct_route (Some t) None) ∧
  (∀ turn mode r observed e, make_CapabilityDispatchEnvelope turn mode r observed = inr e →
    match de_mode e, de_request e, observed_invocation_id e with
    | mode_direct, Some t, None =>
        intent_only t = true ∧ validate_request t = inr t ∧
        direct t = inr (mkRoute direct_route (Some t) None)
    | mode_continue, None, Some i => mode = mode_continue ∧ nonempty i = true
    | _, _, _ => False
    end).
Proof.
  split; [exact direct_spec|]. intros turn mode r observed e.
  unfold make_CapabilityDispatchEnvelope, payload_matches_mode. rsplit.
  destruct mode; cbn [de_mode de_request observed_invocation_id] in *.
  - destruct o as [t|], o0; try done.
    destruct (direct t) as [|d] eqn:Hd; [done|].
    assert (validate_request t = inr t) as Hv.
    { destruct r as [r|]; [|done]. simpl in Heqs0. cbv [mbind res_bind] in Heqs0.
      destruct (validate_request r) eqn:E; simplify_eq. by eapply stable_request. }
    apply direct_spec in Hd as (t' & Ht & ? & ->). split_and!; [done..|].
    apply direct_spec. by exists t.
  - destruct o, o0 as [j|]; try done. split; [done|].
    destruct observed as [x|]; cbn in Heqs1; [|done]. revert Heqs1. unfold non_empty_text. rsplit.
    revert Heqs1. munfold. destruct (nonempty (strip x)) eqn:?; by intros; simplify_eq.
Qed.

(** The principal-transition projection is a total interpretation of its allowlist: it
    succeeds exactly for an account switch, an identity verification, an account-wide list, a
    cancellation by scope or explicit orders, a refund or return of an explicit order and a
    profile change; the continuation is the request itself exactly when it is neither of the
    first two; and what it builds always passes its own validator. *)
Theorem principal_projection_total r :
  match project_principal_transition (Some r) with
  | inr p => pt_continuation p = (if bool_decide (r = SwitchAccount ∨ r = VerifyIdentity) then None else Some r)
      ∧ (pt_completion_kind p = continue_request ↔ pt_continuation p = Some r)
      ∧ make_PrincipalTransitionProjection (pt_continuation p) (pt_completion_kind p) = inr p
  | inl e => exc_cls e = ValueError ∧ r ≠ SwitchAccount ∧ r ≠ VerifyIdentity ∧
      match r with
      | ListOrders scope => scope = scope_session
      | CancelOrders target => target = None ∨ target = Some CancelFocused
      | RefundOrder target _ _ | ReturnOrder target => target = None ∨ target = Some FocusedOrderTarget
      | ChangeProfile _ _ => False
      | _ => True
      end
  end.
Proof.
  destruct r as [| | | | |[]| | | |[[]|]|[[]|]|[[]|]| | | | | | |]; cbn;
    split_and?; try done; try naive_solver.
Qed.

(** Refining the request of a retained invocation keeps its identity, its opening turn and
    its capability: the replacement is accepted exactly when it is valid and of the same
    capability, and validating it again changes nothing. *)
Theorem invocation_refinement_keeps_owner i r :
  make_ActiveInvocation (invocation_id i) (request i) (opened_turn_id i) = inr i →
  match with_request r i with
  | inr j => invocation_id j = invocation_id i ∧ opened_turn_id j = opened_turn_id i ∧
      capability j = capability i ∧ validate_request r = inr (request j) ∧
      make_ActiveInvocation (invocation_id j) (request j) (opened_turn_id j) = inr j
  | inl e => kind r ≠ capability i ∨ validate_request r = inl e
  end.
Proof.
  destruct i as [id q turn]. unfold with_request, make_ActiveInvocation, capability.
  cbn [invocation_id request opened_turn_id]. cbv [mbind res_bind].
  destruct (non_empty_text id) as [|id'] eqn:Ei; [done|].
  destruct (validate_request q) as [|q'] eqn:Eq; [done|].
  destruct (non_empty_text turn) as [|turn'] eqn:Et; [done|]. intros [= -> -> ->].
  destruct (validate_request r) as [|t] eqn:Er; [by right|].
  pose proof (validate_keeps _ _ Er) as [Hk _]. cbn [request].
  unfold requires. case_bool_decide; cbn; [|left; congruence].
  by rewrite Ei, Et, (stable_request _ _ Er).
Qed.

Lemma invocation_refinement_keeps_owner_witness :
  let i := mkInvocation "i-1" (RefundOrder None None None) "t-1" in
  match with_request (RefundOrder None (Some 500) None) i with
  | inr j => invocation_id j = "i-1" ∧ capability j = capability i
  | inl _ => False
  end.
Proof.
  intros i. pose proof (invocation_refinement_keeps_owner i (RefundOrder None (Some 500) None) eq_refl) as H.
  destruct (with_request _ i) as [e|j] eqn:E; [by vm_compute in E|]. split; apply H.
Defined.
