(* ===== verification/Reasoning.v ===== *)
(** * The reasoning state (dtos/state.py)

    The pending actions a conversation carries between turns, their
    validators, the graph state with its reducers and its turn-adjacency
    readers, and the updates nodes return.

    Times are integers.  A node's update is the list of its channel writes in
    order; a later write of a channel replaces an earlier one, as in a
    dictionary.  How LangGraph merges a written message list into the stored
    one is the argument [add_messages] of [apply_update]. *)

From S2P Require Import Prelude PyText Cart Orders Profile Verification Consent Confirmation.
From S2P Require Import Requests.
Local Open Scope Z_scope.
Local Open Scope list_scope.

(** ** Messages *)
Inductive json :=
  | JNull | JBool (b : bool) | JNum (d : Money.Decimal) | JStr (s : string)
  | JList (l : list json) | JObj (l : list (string * json)).
Record ToolCall := mkToolCall { tc_name : string; tc_args : list (string * json); tc_id : string }.
Inductive Message :=
  | HumanMessage (id : string) (content : string)
  | AIMessage (content : string) (tool_calls : list ToolCall)
  | ToolMessage (content : string) (tool_call_id : string).

(** ** Reducers *)
(** The loop of [merge_consumed_turn_ids]; the [seen] set holds what [merged] does. *)
Fixpoint merge_go (merged update : list string) : list string :=
  match update with
  | [] => merged
  | message_id :: update =>
      if decide (message_id ∈ merged) then merge_go merged update
      else merge_go (merged ++ [message_id]) update
  end.
Definition merge_consumed_turn_ids (existing update : list string) : list string :=
  merge_go existing update.

Inductive speaker := caller | assistant.
#[export] Instance speaker_eq_dec : EqDecision speaker.
Proof. solve_decision. Defined.
Record ConversationEntry := mkEntry {
  ce_speaker : speaker; ce_text : string; ce_turn_id : string; ce_heard : option bool }.

(** [ConversationEntry.only_assistant_lines_carry_playback] *)
Definition make_ConversationEntry (sp : speaker) (text turn : string) (heard : option bool)
    : res ConversationEntry :=
  text ← non_empty_text text; turn ← non_empty_text turn;
  requires (negb (bool_decide (sp = caller) && isSome heard)) ValidationError
    "a caller line carries no playback fact" ;;
  inr (mkEntry sp text turn heard).

Definition CONVERSATION_ENTRY_LIMIT : nat := 12.
Definition entry_key (e : ConversationEntry) : speaker * string := (ce_speaker e, ce_turn_id e).
Fixpoint append_go (merged update : list ConversationEntry) : list ConversationEntry :=
  match update with
  | [] => merged
  | entry :: update =>
      if decide (entry_key entry ∈ (entry_key <$> merged)) then append_go merged update
      else append_go (merged ++ [entry]) update
  end.
Definition append_conversation (existing update : list ConversationEntry) : list ConversationEntry :=
  last_n CONVERSATION_ENTRY_LIMIT (append_go existing update).

(** ** Handovers *)
Inductive HandoffReasonCode :=
  | hr_address_change | hr_contact_change | hr_payment_change | hr_cancel_order | hr_refund
  | hr_cart_write | hr_list_orders | hr_multi_step | hr_verification_required
  | hr_switch_account | hr_other.
(** [HandoffRequest]; its destination is always the human one. *)
Record HandoffRequest := mkHandoff { ho_reason_code : HandoffReasonCode; ho_source : HandoffSource }.

(** ** Pending actions *)
Record PendingCartMutation := mkPendingCart {
  pc_operation : CartOperation; pc_sku : string; pc_name : string; pc_price_usd : Z;
  pc_quantity : option Z; pc_pre_confirm_quantity : Z; pc_idempotency_key : string;
  pc_created_at : Z }.

(** [PendingCartMutation], with [idempotency_key_is_nonblank] and [quantity_matches_operation]. *)
Definition make_PendingCartMutation operation sku name price quantity pre key created
    : res PendingCartMutation :=
  requires (nonempty sku && nonempty name && (0 <=? price) && at_least 0 quantity && (0 <=? pre)
            && nonempty key) ValidationError "" ;;
  requires (negb (blank key)) ValidationError
    "cart mutation idempotency key must not be blank" ;;
  requires (negb (bool_decide (operation = remove) && isSome quantity)) ValidationError
    "remove cart mutation must not carry a quantity" ;;
  requires (negb (bool_decide (operation = add)
                  && match quantity with Some q => q <? 1 | None => true end)) ValidationError
    "add cart mutation requires a positive quantity" ;;
  requires (negb (bool_decide (operation = set_quantity_op) && negb (isSome quantity))) ValidationError
    "set-quantity cart mutation requires a final quantity" ;;
  inr (mkPendingCart operation sku name price quantity pre key created).

Record PendingPlacement := mkPlacement {
  pp_lines : list CartLine; pp_total_usd : Z; pp_idempotency_key : string; pp_created_at : Z;
  pp_duplicate_of : option string }.
Definition make_PendingPlacement lines total key created duplicate : res PendingPlacement :=
  validated ((1 <=? length lines)%nat && (0 <=? total) && nonempty key)
    (mkPlacement lines total key created duplicate).

Record PendingRefund := mkPendingRefund {
  pr_order_id : string; pr_summary : string; pr_amount_usd : Z; pr_destination : RefundDestination;
  pr_instrument_ref : string; pr_customer_ref : option string; pr_factor_ref : option string;
  pr_idempotency_key : string; pr_attempt_key : string; pr_challenge_id : option string;
  pr_created_at : Z }.

(** [PendingRefund], with [verification_subject_matches_destination]. *)
Definition make_PendingRefund order summary amount destination instrument customer factor key
    attempt challenge created : res PendingRefund :=
  requires (nonempty order && nonempty summary && (0 <=? amount) && nonempty instrument)
    ValidationError "" ;;
  customer ← opt_text customer; factor ← opt_text factor;
  key ← non_empty_text key; attempt ← non_empty_text attempt; challenge ← opt_text challenge;
  let has_subject := isSome customer && isSome factor in
  requires (negb (bool_decide (destination ≠ original) && negb has_subject)) ValidationError
    "L2 refund destination requires a verification subject" ;;
  requires (Bool.eqb (isSome customer) (isSome factor)) ValidationError
    "refund verification subject must be complete" ;;
  inr (mkPendingRefund order summary amount destination instrument customer factor key attempt
         challenge created).

Record CancelTarget := mkCancelTarget {
  ct_order_id : string; ct_summary : string; ct_idempotency_key : string }.
Definition make_CancelTarget order summary key : res CancelTarget :=
  validated (nonempty order && nonempty summary && nonempty key) (mkCancelTarget order summary key).

Record PendingCancelBatch := mkCancelBatch {
  cb_targets : list CancelTarget; cb_ineligible : list BatchCancelOutcome;
  cb_outcomes : list BatchCancelOutcome; cb_created_at : Z }.
Definition make_PendingCancelBatch targets created : res PendingCancelBatch :=
  validated (1 <=? length targets)%nat (mkCancelBatch targets [] [] created).

(** [PendingCancel]: the retained scope or the resolved batch. *)
Inductive PendingCancel := pending_scope (scope : CancelScope) | pending_batch (b : PendingCancelBatch).

Record PendingReturn := mkPendingReturn {
  pn_order_id : string; pn_summary : string; pn_refund_due_usd : Z; pn_idempotency_key : string;
  pn_created_at : Z }.
Definition make_PendingReturn order summary due key created : res PendingReturn :=
  validated (nonempty order && nonempty summary && (0 <=? due) && nonempty key)
    (mkPendingReturn order summary due key created).

Record PendingProfileChange := mkPendingProfile {
  pf_customer_ref : string; pf_field : ProfileField; pf_new_value : string; pf_factor_ref : string;
  pf_idempotency_key : string; pf_attempt_key : string; pf_challenge_id : option string;
  pf_created_at : Z }.
Definition make_PendingProfileChange customer field new_value factor key attempt challenge created
    : res PendingProfileChange :=
  customer ← non_empty_text customer;
  requires (nonempty new_value) ValidationError "" ;;
  factor ← non_empty_text factor; key ← non_empty_text key; attempt ← non_empty_text attempt;
  challenge ← opt_text challenge;
  inr (mkPendingProfile customer field new_value factor key attempt challenge created).

Record PendingIdentity := mkPendingIdentity {
  pi_customer_ref : string; pi_masked_contact : string; pi_factor_ref : string;
  pi_attempt_key : string; pi_challenge_id : option string }.
Definition make_PendingIdentity customer masked factor attempt challenge : res PendingIdentity :=
  customer ← non_empty_text customer;
  requires (nonempty masked) ValidationError "" ;;
  factor ← non_empty_text factor; attempt ← non_empty_text attempt; challenge ← opt_text challenge;
  inr (mkPendingIdentity customer masked factor attempt challenge).

(** ** Dialogue *)
Inductive ExecutionOwner := owner_cart | owner_support | owner_identity.
#[export] Instance ExecutionOwner_eq_dec : EqDecision ExecutionOwner.
Proof. solve_decision. Defined.

(** [SupportQuestionDetail] and [SupportAuthorizationDetail] *)
Inductive SupportDetail :=
  | sd_action | sd_order | sd_amount | sd_refund_destination | sd_profile_field | sd_profile_value
  | sd_order_match | sd_order_match_human_help.
Inductive CartClarificationDetail := cd_action | cd_item | cd_quantity.
Inductive PendingClarification :=
  | IdentityClarification
  | SupportClarification (detail : SupportDetail)
  | CartClarification (detail : CartClarificationDetail).

(** [ProductOffer] and [ProductReference] have the same fields. *)
Record ProductTurn := mkProductTurn { po_skus : list string; po_turn_id : string }.
Definition make_ProductTurn (skus : list string) (turn : string) : res ProductTurn :=
  requires (1 <=? length skus)%nat ValidationError "" ;;
  skus ← validate_product_skus skus;
  turn ← non_empty_text turn;
  inr (mkProductTurn skus turn).

(** [AssistantPrompt]: its only kind is the open help question, asked on a turn. *)
Record AssistantPrompt := mkPrompt { ap_turn_id : string }.
Record PendingAck := mkAck { ack_text : string; ack_open_help : bool }.
Record ClarificationLiveness := mkLiveness { cl_owner : ClarificationOwner; cl_reasks : Z }.

(** [PendingRecovery] (dtos/recovery.py) *)
Inductive ExceptionAction :=
  | SAFE_ABORT | CART_REVIEW | RECONCILE_PLACEMENT | RECONCILE_REFUND | RECONCILE_CANCEL
  | RECONCILE_RETURN | RECONCILE_PROFILE_CHANGE | ABORT_PRINCIPAL_WARNING
  | ABORT_PLACEMENT_CONFIRMATION | ABORT_REFUND_VERIFICATION | ABORT_REFUND_CONFIRMATION
  | ABORT_CANCEL_CONFIRMATION | ABORT_RETURN_CONFIRMATION | ABORT_PROFILE_VERIFICATION
  | ABORT_PROFILE_CONFIRMATION | ABORT_IDENTITY_VERIFICATION | RECONCILE_PRINCIPAL_TRANSITION
  | TERMINAL | ENGINE_LAST_RESORT.
Inductive recovery_trigger :=
  | node_exception | stream_cancelled | session_restored | confirmation_detour.
#[export] Instance recovery_trigger_eq_dec : EqDecision recovery_trigger.
Proof. solve_decision. Defined.
Record PendingRecovery := mkRecovery {
  rec_origin_node : string; rec_action : ExceptionAction; rec_trigger : recovery_trigger;
  rec_abandoned_message_id : option string }.
Definition make_PendingRecovery (origin : string) (action : ExceptionAction)
    (trigger : recovery_trigger) (abandoned : option string) : res PendingRecovery :=
  requires (nonempty origin) ValidationError "" ;;
  (if bool_decide (trigger = stream_cancelled) then
     requires (match abandoned with Some m => negb (blank m) | None => false end) ValidationError
       "stream-cancelled recovery requires a nonblank abandoned message ID"
   else
     requires (negb (isSome abandoned)) ValidationError
       "non-stream recovery forbids an abandoned message ID") ;;
  inr (mkRecovery origin action trigger abandoned).

(** [RouterNoActionEnvelope] (dtos/orchestration.py) *)
Record RouterNoActionEnvelope := mkNoAction {
  na_turn_id : string; na_owner : ClarificationOwner;
  na_reason : ClarificationReason + RoutingFailureReason }.

(** ** The state *)
Record ReasoningState := mkReasoning {
  session_revision : Z;
  messages : list Message;
  consumed_turn_ids : list string;
  handover : option HandoffRequest;
  automation_terminal : bool;
  pending_capability_dispatch : option CapabilityDispatchEnvelope;
  pending_router_no_action : option RouterNoActionEnvelope;
  pending_cart_mutation : option PendingCartMutation;
  pending_placement : option PendingPlacement;
  pending_refund : option PendingRefund;
  pending_cancel : option PendingCancel;
  pending_return : option PendingReturn;
  pending_profile_change : option PendingProfileChange;
  pending_identity : option PendingIdentity;
  active_invocation : option ActiveInvocation;
  pending_recovery : option PendingRecovery;
  identity_claim_misses : Z;
  execution_owner : option ExecutionOwner;
  pending_ack : option PendingAck;
  pending_clarification : option PendingClarification;
  clarification_liveness : option ClarificationLiveness;
  product_offer : option ProductTurn;
  product_reference : option ProductTurn;
  assistant_prompt : option AssistantPrompt;
  conversation : list ConversationEntry;
  confirmation_detour_turn : option string;
  farewell_turn : option string }.

(** [ReasoningState()] *)
Definition initial_state : ReasoningState :=
  mkReasoning 0 [] [] None false None None None None None None None None None None None 0 None
    None None None None None None [] None None.

(** One channel of an update. *)
Inductive Write :=
  | W_session_revision (n : Z)
  | W_messages (ms : list Message)
  | W_consumed_turn_ids (ids : list string)
  | W_handover (h : option HandoffRequest)
  | W_automation_terminal (b : bool)
  | W_pending_capability_dispatch (e : option CapabilityDispatchEnvelope)
  | W_pending_router_no_action (e : option RouterNoActionEnvelope)
  | W_pending_cart_mutation (p : option PendingCartMutation)
  | W_pending_placement (p : option PendingPlacement)
  | W_pending_refund (p : option PendingRefund)
  | W_pending_cancel (p : option PendingCancel)
  | W_pending_return (p : option PendingReturn)
  | W_pending_profile_change (p : option PendingProfileChange)
  | W_pending_identity (p : option PendingIdentity)
  | W_active_invocation (i : option ActiveInvocation)
  | W_pending_recovery (r : option PendingRecovery)
  | W_identity_claim_misses (n : Z)
  | W_execution_owner (o : option ExecutionOwner)
  | W_pending_ack (a : option PendingAck)
  | W_pending_clarification (c : option PendingClarification)
  | W_clarification_liveness (l : option ClarificationLiveness)
  | W_product_offer (p : option ProductTurn)
  | W_product_reference (p : option ProductTurn)
  | W_assistant_prompt (p : option AssistantPrompt)
  | W_conversation (es : list ConversationEntry)
  | W_confirmation_detour_turn (t : option string)
  | W_farewell_turn (t : option string).

(** [update.get(channel)]: the last write of a channel. *)
Definition written {A} (f : Write → option A) (ws : list Write) : option A :=
  foldl (λ cur w, match f w with Some a => Some a | None => cur end) None ws.
Definition last_value {A} (f : Write → option A) (ws : list Write) (old : A) : A :=
  default old (written f ws).
Definition reduced {A} (f : Write → option A) (reducer : A → A → A) (ws : list Write) (old : A) : A :=
  match written f ws with Some a => reducer old a | None => old end.

Section apply.
Context (add_messages : list Message → list Message → list Message).

Definition apply_update (ws : list Write) (s : ReasoningState) : ReasoningState :=
  mkReasoning
    (last_value (λ w, match w with W_session_revision v => Some v | _ => None end) ws (session_revision s))
    (reduced (λ w, match w with W_messages v => Some v | _ => None end) add_messages ws (messages s))
    (reduced (λ w, match w with W_consumed_turn_ids v => Some v | _ => None end)
       merge_consumed_turn_ids ws (consumed_turn_ids s))
    (last_value (λ w, match w with W_handover v => Some v | _ => None end) ws (handover s))
    (last_value (λ w, match w with W_automation_terminal v => Some v | _ => None end) ws (automation_terminal s))
    (last_value (λ w, match w with W_pending_capability_dispatch v => Some v | _ => None end) ws
       (pending_capability_dispatch s))
    (last_value (λ w, match w with W_pending_router_no_action v => Some v | _ => None end) ws
       (pending_router_no_action s))
    (last_value (λ w, match w with W_pending_cart_mutation v => Some v | _ => None end) ws (pending_cart_mutation s))
    (last_value (λ w, match w with W_pending_placement v => Some v | _ => None end) ws (pending_placement s))
    (last_value (λ w, match w with W_pending_refund v => Some v | _ => None end) ws (pending_refund s))
    (last_value (λ w, match w with W_pending_cancel v => Some v | _ => None end) ws (pending_cancel s))
    (last_value (λ w, match w with W_pending_return v => Some v | _ => None end) ws (pending_return s))
    (last_value (λ w, match w with W_pending_profile_change v => Some v | _ => None end) ws
       (pending_profile_change s))
    (last_value (λ w, match w with W_pending_identity v => Some v | _ => None end) ws (pending_identity s))
    (last_value (λ w, match w with W_active_invocation v => Some v | _ => None end) ws (active_invocation s))
    (last_value (λ w, match w with W_pending_recovery v => Some v | _ => None end) ws (pending_recovery s))
    (last_value (λ w, match w with W_identity_claim_misses v => Some v | _ => None end) ws (identity_claim_misses s))
    (last_value (λ w, match w with W_execution_owner v => Some v | _ => None end) ws (execution_owner s))
    (last_value (λ w, match w with W_pending_ack v => Some v | _ => None end) ws (pending_ack s))
    (last_value (λ w, match w with W_pending_clarification v => Some v | _ => None end) ws (pending_clarification s))
    (last_value (λ w, match w with W_clarification_liveness v => Some v | _ => None end) ws
       (clarification_liveness s))
    (last_value (λ w, match w with W_product_offer v => Some v | _ => None end) ws (product_offer s))
    (last_value (λ w, match w with W_product_reference v => Some v | _ => None end) ws (product_reference s))
    (last_value (λ w, match w with W_assistant_prompt v => Some v | _ => None end) ws (assistant_prompt s))
    (reduced (λ w, match w with W_conversation v => Some v | _ => None end) append_conversation ws (conversation s))
    (last_value (λ w, match w with W_confirmation_detour_turn v => Some v | _ => None end) ws
       (confirmation_detour_turn s))
    (last_value (λ w, match w with W_farewell_turn v => Some v | _ => None end) ws (farewell_turn s)).
End apply.

(** ** Validators of the state *)
(** [ReasoningState.consumed_turn_ids_are_unique_and_nonblank] *)
Definition consumed_turn_ids_are_unique_and_nonblank (value : list string) : res unit :=
  requires (negb (existsb blank value)) ValidationError "consumed turn IDs must not be blank" ;;
  requires (bool_decide (NoDup value)) ValidationError "consumed turn IDs must be unique".

Definition evidence_turn (r : IntentRequest) : option string :=
  match r with
  | VerifyOrderStatus q | ReadOrderTotal q => explicit_target_turn_id q
  | _ => None
  end.

(** [ReasoningState.invocation_turns_were_admitted] *)
Definition invocation_turns_were_admitted (s : ReasoningState) : res unit :=
  match active_invocation s with
  | None => inr tt
  | Some i =>
      requires (bool_decide (opened_turn_id i ∈ consumed_turn_ids s)) ValidationError
        "active invocation opening turn was not admitted" ;;
      match evidence_turn (request i) with
      | Some turn =>
          requires (bool_decide (turn ∈ consumed_turn_ids s)) ValidationError
            "order-status target source turn was not admitted"
      | None => inr tt
      end
  end.

(** What pydantic checks of a state whose parts are valid. *)
Definition validate_state (s : ReasoningState) : res ReasoningState :=
  requires (0 <=? session_revision s) ValidationError "" ;;
  consumed_turn_ids_are_unique_and_nonblank (consumed_turn_ids s) ;;
  invocation_turns_were_admitted s ;;
  inr s.

Definition reasoning_state_fields : list string :=
  ["checkpoint_schema_version"; "session_revision"; "messages"; "consumed_turn_ids"; "handover";
   "automation_terminal"; "pending_capability_dispatch"; "pending_router_no_action";
   "pending_cart_mutation"; "pending_placement"; "pending_refund"; "pending_cancel";
   "pending_return"; "pending_profile_change"; "pending_identity"; "active_invocation";
   "pending_recovery"; "identity_claim_misses"; "execution_owner"; "pending_ack";
   "pending_clarification"; "clarification_liveness"; "product_offer"; "product_reference";
   "assistant_prompt"; "conversation"; "confirmation_detour_turn"; "farewell_turn"].

Definition validate_reasoning_state_keys (keys : list string) (allowed_keys : option (list string))
    : res unit :=
  let allowed := default reasoning_state_fields allowed_keys in
  let unexpected := base.filter (λ k, k ∉ allowed) keys in
  requires (bool_decide (unexpected = [])) StateSchemaError "contains unknown fields".

(** [ReasoningState.from_checkpoint] over the keys of a persisted mapping; [model_validate] is
    pydantic's validation of its values. *)
Definition from_checkpoint {V} (model_validate : list (string * V) → res ReasoningState)
    (values : list (string * V)) : res ReasoningState :=
  requires (bool_decide (values = []) || dmem "checkpoint_schema_version" values)
    CheckpointSchemaError "checkpoint_schema_version is missing from persisted state" ;;
  match (validate_reasoning_state_keys (dkeys values) None ;; model_validate values) with
  | inl (Exc (StateSchemaError | ValidationError) _) =>
      raises CheckpointSchemaError "persisted state violates the checkpoint schema"
  | r => r
  end.

Definition open_active_invocation (fresh : string) (r : IntentRequest) (consumed : list string)
    : res ActiveInvocation :=
  match last consumed with
  | None => raises ValueError "cannot open an invocation without an admitted turn"
  | Some turn => make_ActiveInvocation fresh r turn
  end.

(** ** Readers *)
Definition is_previous_turn (s : ReasoningState) (recorded_turn_id : string) (turn_id : option string)
    : bool :=
  let current := match turn_id with Some t => Some t | None => last (consumed_turn_ids s) end in
  let prior := base.filter (λ item, Some item ≠ current) (consumed_turn_ids s) in
  bool_decide (last prior = Some recorded_turn_id).

Definition live {A} (turn_of : A → string) (s : ReasoningState) (field : option A)
    (turn_id : option string) : option A :=
  match field with
  | Some offer => if is_previous_turn s (turn_of offer) turn_id then Some offer else None
  | None => None
  end.
Definition live_product_offer (s : ReasoningState) (turn_id : option string) : option ProductTurn :=
  live po_turn_id s (product_offer s) turn_id.
Definition live_product_reference (s : ReasoningState) (turn_id : option string) : option ProductTurn :=
  live po_turn_id s (product_reference s) turn_id.
Definition live_assistant_prompt (s : ReasoningState) (turn_id : option string) : option AssistantPrompt :=
  live ap_turn_id s (assistant_prompt s) turn_id.
Definition follows_farewell (s : ReasoningState) : bool :=
  match farewell_turn s with Some t => is_previous_turn s t None | None => false end.

Definition conversation_before (s : ReasoningState) (turn_id : option string) (limit : Z)
    : list ConversationEntry :=
  let earlier := base.filter (λ e, ¬ (ce_speaker e = caller ∧ Some (ce_turn_id e) = turn_id))
                   (conversation s) in
  if 0 <? limit then last_n (Z.to_nat limit) earlier else [].

Definition pending_confirmation_capability (s : ReasoningState) : option CapabilityId :=
  if isSome (pending_cart_mutation s) then Some MODIFY_CART
  else if isSome (pending_placement s) then Some PLACE_ORDER
  else if isSome (pending_refund s) then Some REFUND_ORDER
  else if isSome (pending_cancel s) then Some CANCEL_ORDERS
  else if isSome (pending_return s) then Some RETURN_ORDER
  else if isSome (pending_profile_change s) then Some CHANGE_PROFILE
  else capability <$> active_invocation s.

Definition pending_readback_reference (s : ReasoningState) : res (option ProductTurn) :=
  let skus :=
    match pending_cart_mutation s, pending_placement s with
    | Some m, _ => Some [pc_sku m]
    | None, Some p => Some (fromkeys (cl_sku <$> pp_lines p))
    | None, None => None
    end in
  match skus, last (consumed_turn_ids s) with
  | Some skus, Some turn => t ← make_ProductTurn skus turn; inr (Some t)
  | _, _ => inr None
  end.

Definition answers_before_readback (s : ReasoningState) : bool :=
  match confirmation_detour_turn s with
  | Some t => bool_decide (last (consumed_turn_ids s) = Some t)
  | None => false
  end.

Definition human_content (m : Message) : option string :=
  match m with HumanMessage _ content => Some content | _ => None end.
Definition last_user_text (s : ReasoningState) : string :=
  default "" (last (omap human_content (messages s))).
Definition committed_user_message (s : ReasoningState) (turn_id : string) : option Message :=
  if bool_decide (turn_id ∈ consumed_turn_ids s) then
    List.find (λ m, match m with HumanMessage id _ => String.eqb id turn_id | _ => false end)
      (reverse (messages s))
  else None.
Definition current_committed_user_message (s : ReasoningState) : option Message :=
  match last (consumed_turn_ids s) with
  | Some turn => committed_user_message s turn
  | None => None
  end.

(** [current_turn_called] (agents/_toolcalls.py) *)
Fixpoint called_go (newest_first : list Message) (tool_name : string) : bool :=
  match newest_first with
  | [] => false
  | HumanMessage _ _ :: _ => false
  | AIMessage _ calls :: _ => existsb (λ c, String.eqb (tc_name c) tool_name) calls
  | ToolMessage _ _ :: ms => called_go ms tool_name
  end.
Definition current_turn_called (ms : list Message) (tool_name : string) : bool :=
  called_go (reverse ms) tool_name.

(** [ack_extra_tool_calls] (agents/_toolcalls.py): what it appends. *)
Definition ack_extra_tool_calls (calls : list ToolCall) : list Message :=
  (λ extra, ToolMessage "ignored - one action per turn; only the first call was used" (tc_id extra))
    <$> tail calls.
Definition unknown_tool_result (call_id leave_tool : string) : Message :=
  ToolMessage ("Unavailable action. Use one of the provided tools, or call " +:+ leave_tool +:+
    " if the request belongs elsewhere.") call_id.

(** ** Reducers *)
Lemma merge_go_fromkeys update : ∀ merged seen, (∀ x, x ∈ seen ↔ x ∈ merged) →
  merge_go merged update = merged ++ fromkeys_go seen update.
Proof.
  induction update as [|x update IH]; intros merged seen Hs; simpl; [by rewrite app_nil_r|].
  destruct (decide (x ∈ merged)), (decide (x ∈ seen)); try (by apply IH); try set_solver.
  rewrite (IH _ (x :: seen)) by set_solver. by rewrite <-app_assoc.
Qed.

Lemma merge_fromkeys existing update :
  merge_consumed_turn_ids existing update = existing ++ fromkeys_go existing update.
Proof. by apply merge_go_fromkeys. Qed.

Lemma elem_merge existing update x :
  x ∈ merge_consumed_turn_ids existing update ↔ x ∈ existing ∨ x ∈ update.
Proof.
  rewrite merge_fromkeys, elem_of_app, elem_of_fromkeys_go. destruct (decide (x ∈ existing)); tauto.
Qed.

Lemma merge_NoDup existing update :
  NoDup existing → NoDup (merge_consumed_turn_ids existing update).
Proof.
  intros. rewrite merge_fromkeys. apply NoDup_app. split_and!; [done| |apply fromkeys_go_NoDup].
  intros x Hx Hu%elem_of_fromkeys_go. tauto.
Qed.

Lemma fromkeys_go_seen {A} `{!EqDecision A} (update seen : list A) : update ⊆ seen → fromkeys_go seen update = [].
Proof.
  induction update as [|x update IH]; intros Hs; simpl; [done|].
  rewrite decide_True by set_solver. apply IH. set_solver.
Qed.

Lemma merge_absorbed existing update : update ⊆ existing → merge_consumed_turn_ids existing update = existing.
Proof. intros. rewrite merge_fromkeys, fromkeys_go_seen by done. apply app_nil_r. Qed.

(** Turn admission is an ordered-set union: the admitted turns stay unique, every turn
    admitted before keeps its position, exactly the new turns are added, and admitting the same
    turns again, as an interrupt that resumes repeatedly does, changes nothing. *)
Theorem turn_admission_idempotent existing update : NoDup existing →
  let merged := merge_consumed_turn_ids existing update in
  NoDup merged ∧ (∃ new, merged = existing ++ new) ∧
  (∀ x, x ∈ merged ↔ x ∈ existing ∨ x ∈ update) ∧
  merge_consumed_turn_ids merged update = merged.
Proof.
  intros Hn merged. split_and!.
  - by apply merge_NoDup.
  - eexists. apply merge_fromkeys.
  - intros x. apply elem_merge.
  - apply merge_absorbed. intros x Hx. apply elem_merge. by right.
Qed.

Lemma append_go_app update : ∀ merged, ∃ new, append_go merged update = merged ++ new ∧ new ⊆ update.
Proof.
  induction update as [|e update IH]; intros merged; simpl; [exists []; by rewrite app_nil_r|].
  case_decide.
  - destruct (IH merged) as (new & -> & ?). exists new. split; [done|set_solver].
  - destruct (IH (merged ++ [e])) as (new & -> & ?). exists (e :: new). rewrite <-app_assoc.
    split; [done|set_solver].
Qed.

Lemma append_go_NoDup update : ∀ merged,
  NoDup (entry_key <$> merged) → NoDup (entry_key <$> append_go merged update).
Proof.
  induction update as [|e update IH]; intros merged Hn; simpl; [done|].
  case_decide; apply IH; [done|]. rewrite fmap_app. apply NoDup_app.
  split_and!; [done| |apply NoDup_singleton]. by intros x Hx ->%list_elem_of_singleton.
Qed.

Lemma last_n_fmap {A B} (f : A → B) n l : f <$> last_n n l = last_n n (f <$> l).
Proof. unfold last_n. by rewrite length_fmap, fmap_drop. Qed.

(** The recorded conversation is bounded and has each speaker once per turn: appending keeps
    the newest twelve of the old lines followed by the new ones. *)
Theorem conversation_bounded existing update : NoDup (entry_key <$> existing) →
  let merged := append_conversation existing update in
  NoDup (entry_key <$> merged) ∧ (length merged ≤ CONVERSATION_ENTRY_LIMIT)%nat ∧
  ∃ new, new ⊆ update ∧ merged = last_n CONVERSATION_ENTRY_LIMIT (existing ++ new) ∧
    ∀ e, e ∈ update → entry_key e ∈ (entry_key <$> (existing ++ new)).
Proof.
  intros Hn. cbn. unfold append_conversation. split_and!.
  - rewrite last_n_fmap. apply last_n_NoDup. by apply append_go_NoDup.
  - apply last_n_length.
  - destruct (append_go_app update existing) as (new & Hnew & Hsub). exists new.
    split_and!; [done|by rewrite Hnew|]. rewrite <-Hnew. clear.
    assert (∀ us ms, (∀ e, e ∈ us → entry_key e ∈ (entry_key <$> append_go ms us)) ∧
      (entry_key <$> ms) ⊆ (entry_key <$> append_go ms us)) as H; [|apply H].
    induction us as [|u us IH]; intros ms; simpl; [split; [set_solver|done]|].
    case_decide as Hu.
    + destruct (IH ms) as [H1 H2]. split; [|done]. intros e [->|?]%elem_of_cons; auto.
    + destruct (IH (ms ++ [u])) as [H1 H2]. rewrite fmap_app in H2. split; [|set_solver].
      intros e [->|?]%elem_of_cons; [|auto]. apply H2. set_solver.
Qed.

(** ** Turn adjacency *)
Lemma filter_ne_last (l : list string) c : NoDup (l ++ [c]) →
  base.filter (λ item, Some item ≠ Some c) (l ++ [c]) = l.
Proof.
  intros (Hl & Hc & _)%NoDup_app. rewrite filter_app. cbn. rewrite decide_False by naive_solver.
  rewrite app_nil_r. apply filter_all_true. intros x Hx [= ->]. apply (Hc c Hx). by left.
Qed.

(** What was offered on a turn is live on the next turn and on no later one: with the current
    turn admitted the offer's turn is the one before it, and for a turn not yet admitted it is
    the last admitted one. *)
Theorem offer_lives_one_turn s r : NoDup (consumed_turn_ids s) →
  (is_previous_turn s r None = true ↔ ∃ l c, consumed_turn_ids s = l ++ [r; c]) ∧
  (∀ t, t ∉ consumed_turn_ids s →
    is_previous_turn s r (Some t) = true ↔ last (consumed_turn_ids s) = Some r).
Proof.
  intros Hn. unfold is_previous_turn. split.
  - rewrite bool_decide_eq_true. destruct (consumed_turn_ids s) as [|c l _] eqn:E using rev_ind.
    { cbn. split; [done|]. by intros ([|??] & ? & ?). }
    rewrite last_snoc, filter_ne_last by done. split.
    + intros (l' & ->)%last_Some. exists l', c. by rewrite <-app_assoc.
    + intros (l' & c' & Heq). change (l' ++ [r; c']) with (l' ++ [r] ++ [c']) in Heq.
      rewrite app_assoc in Heq. apply app_inj_tail in Heq as [-> _]. by rewrite last_snoc.
  - intros t Ht. rewrite bool_decide_eq_true, filter_all_true; [done|naive_solver].
Qed.

(** ** Updates *)
(** The writes a node may make without leaving the state's schema. *)
Definition invocation_ok (admitted : list string) (i : ActiveInvocation) : Prop :=
  opened_turn_id i ∈ admitted ∧
  match evidence_turn (request i) with Some t => t ∈ admitted | None => True end.
Definition write_ok (s : ReasoningState) (w : Write) : Prop :=
  match w with
  | W_session_revision n => 0 ≤ n
  | W_consumed_turn_ids ids => Forall (λ t, blank t = false) ids
  | W_active_invocation (Some i) => invocation_ok (consumed_turn_ids s) i
  | _ => True
  end.

Lemma written_in {A} (f : Write → option A) ws a : written f ws = Some a → ∃ w, w ∈ ws ∧ f w = Some a.
Proof.
  unfold written. induction ws as [|w ws IH] using rev_ind; [done|].
  rewrite foldl_app. cbn. destruct (f w) eqn:E; intros; simplify_eq.
  - exists w. set_solver.
  - destruct (IH H) as (w' & ? & ?). exists w'. set_solver.
Qed.

Lemma validate_state_spec s : validate_state s = inr s ↔
  0 ≤ session_revision s ∧ Forall (λ t, blank t = false) (consumed_turn_ids s) ∧
  NoDup (consumed_turn_ids s) ∧
  match active_invocation s with Some i => invocation_ok (consumed_turn_ids s) i | None => True end.
Proof.
  unfold validate_state, consumed_turn_ids_are_unique_and_nonblank, invocation_turns_were_admitted,
    invocation_ok.
  assert (negb (existsb blank (consumed_turn_ids s)) = true ↔
    Forall (λ t, blank t = false) (consumed_turn_ids s)) as Hb.
  { rewrite negb_true_iff, <-not_true_iff_false, existsb_exists, Forall_forall.
    setoid_rewrite <-list_elem_of_In.
    split; [intros Hno x Hx; destruct (blank x) eqn:E; [destruct Hno; eauto|done]|].
    intros Hall (x & Hx & E). by rewrite Hall in E. }
  rewrite <-Hb. munfold. destruct (0 <=? session_revision s) eqn:Er; bools; [|split; [done|lia]].
  destruct (negb (existsb _ _)) eqn:Ee; [|naive_solver]. repeat case_bool_decide; try naive_solver.
  - destruct (active_invocation s) as [i|]; [|naive_solver].
    destruct (evidence_turn (request i)); repeat case_bool_decide; naive_solver.
Qed.

Lemma invocation_ok_mono l l' i : l ⊆ l' → invocation_ok l i → invocation_ok l' i.
Proof. intros Hs [? He]. split; [auto|]. destruct (evidence_turn _); auto. Qed.

Lemma apply_update_valid am s ws : validate_state s = inr s → Forall (write_ok s) ws →
  validate_state (apply_update am ws s) = inr (apply_update am ws s).
Proof.
  rewrite !validate_state_spec. intros (Hr & Hb & Hn & Hi) Hws. rewrite Forall_forall in Hws.
  cbn -[written]. unfold last_value, reduced. split_and!.
  - destruct (written _ ws) eqn:E; [|done]. apply written_in in E as (w & Hw & Hf).
    destruct w; simplify_eq. by apply (Hws _ Hw).
  - destruct (written _ ws) eqn:E; [|done]. apply written_in in E as (w & Hw & Hf).
    destruct w; simplify_eq. specialize (Hws _ Hw). cbn in Hws. rewrite Forall_forall in *.
    intros x [?|?]%elem_merge; auto.
  - destruct (written _ ws) eqn:E; [|done]. by apply merge_NoDup.
  - assert (consumed_turn_ids s ⊆ match written (λ w, match w with W_consumed_turn_ids v => Some v | _ => None end) ws
        with Some a => merge_consumed_turn_ids (consumed_turn_ids s) a | None => consumed_turn_ids s end) as Hsub.
    { destruct (written _ ws); [|done]. intros x Hx. apply elem_merge. by left. }
    destruct (written (λ w, match w with W_active_invocation v => Some v | _ => None end) ws) as [[i|]|] eqn:E;
      [|done|]; simpl.
    + apply (invocation_ok_mono _ _ _ Hsub). apply written_in in E as (w & Hw & Hf). destruct w; simplify_eq. by apply (Hws _ Hw).
    + destruct (active_invocation s); [by apply (invocation_ok_mono _ _ _ Hsub)|done].
Qed.

(** ** Examples *)
Lemma turn_admission_idempotent_witness :
  merge_consumed_turn_ids (merge_consumed_turn_ids ["t1"; "t2"] ["t2"; "t3"]) ["t2"; "t3"] = ["t1"; "t2"; "t3"].
Proof.
  destruct (turn_admission_idempotent ["t1"; "t2"] ["t2"; "t3"]) as (_ & _ & _ & Hm);
    [apply (bool_decide_unpack _); by vm_compute|]. rewrite Hm. by vm_compute.
Defined.

Lemma conversation_bounded_witness :
  let merged := append_conversation [mkEntry caller "hi" "t1" None] [mkEntry caller "again" "t1" None] in
  NoDup (entry_key <$> merged) ∧ merged = [mkEntry caller "hi" "t1" None].
Proof.
  intros merged. split; [|by vm_compute].
  destruct (conversation_bounded [mkEntry caller "hi" "t1" None] [mkEntry caller "again" "t1" None]) as [Hn _];
    [|exact Hn]. repeat constructor. set_solver.
Defined.

Lemma offer_lives_one_turn_witness :
  let s := apply_update app [W_consumed_turn_ids ["t1"; "t2"; "t3"]] initial_state in
  is_previous_turn s "t2" None = true ∧ is_previous_turn s "t1" None = false.
Proof.
  intros s. assert (NoDup (consumed_turn_ids s)) as Hn by (apply (bool_decide_unpack _); by vm_compute).
  split; [|by vm_compute]. destruct (offer_lives_one_turn s "t2" Hn) as [H2 _]. apply H2. by exists ["t1"], "t3".
Defined.
