(* ===== verification/Clarification.v ===== *)
(** * Clarification budgets and the capability registry (agents/clarification.py, agents/capabilities.py)

    How many questions in a row one owner may ask, the wrapper that clears the
    progress when a node does something else, and the registry that maps a
    typed request to the node that owns it. *)

From S2P Require Import Prelude PyText Confirmation Requests Reasoning.
Local Open Scope Z_scope.
Local Open Scope list_scope.

(** ** Budgets *)
Record ClarificationStep := mkStep { st_exhausted : bool; st_liveness : option ClarificationLiveness }.

Definition invocation_clarification_owner (s : ReasoningState) : res ClarificationOwner :=
  match active_invocation s with
  | None => raises ValueError "capability clarification requires an active invocation"
  | Some i => id ← Verification.non_empty_text (invocation_id i); inr (InvocationClarificationOwner id)
  end.

Definition advance_clarification (s : ReasoningState) (owner : ClarificationOwner) (max_reasks : Z)
    : ClarificationStep :=
  match clarification_liveness s with
  | Some current =>
      if bool_decide (cl_owner current = owner) then
        if max_reasks <=? cl_reasks current then mkStep true None
        else mkStep false (Some (mkLiveness (cl_owner current) (cl_reasks current + 1)))
      else mkStep false (Some (mkLiveness owner 0))
  | None => mkStep false (Some (mkLiveness owner 0))
  end.

Definition written_clarification (ws : list Write) : option (option PendingClarification) :=
  written (λ w, match w with W_pending_clarification c => Some c | _ => None end) ws.

(** [with_clarification_lifecycle], on the update of the wrapped node. *)
Definition with_clarification_lifecycle (update : list Write) : list Write :=
  match written_clarification update with
  | Some (Some _) => update
  | _ => update ++ [W_clarification_liveness None]
  end.

(** Consecutive questions of one owner: the liveness left by [n] of them, if they were all asked. *)
Definition set_liveness (l : option ClarificationLiveness) (s : ReasoningState) : ReasoningState :=
  apply_update app [W_clarification_liveness l] s.
Fixpoint ask_run (owner : ClarificationOwner) (max_reasks : Z) (n : nat) (s : ReasoningState)
    : option ReasoningState :=
  match n with
  | O => Some s
  | S n =>
      let step := advance_clarification s owner max_reasks in
      if st_exhausted step then None else ask_run owner max_reasks n (set_liveness (st_liveness step) s)
  end.

(** The questions an owner may still ask. *)
Definition remaining_questions (owner : ClarificationOwner) (max_reasks : Z) (s : ReasoningState) : nat :=
  match clarification_liveness s with
  | Some l =>
      if bool_decide (cl_owner l = owner) then Z.to_nat (max_reasks - cl_reasks l)
      else S (Z.to_nat max_reasks)
  | None => S (Z.to_nat max_reasks)
  end.

Lemma remaining_step owner max_reasks s : 0 ≤ max_reasks →
  let step := advance_clarification s owner max_reasks in
  (st_exhausted step = true ↔ remaining_questions owner max_reasks s = 0%nat) ∧
  (st_exhausted step = false →
   remaining_questions owner max_reasks s =
   S (remaining_questions owner max_reasks (set_liveness (st_liveness step) s))).
Proof.
  intros Hm. unfold advance_clarification, remaining_questions, set_liveness.
  destruct (clarification_liveness s) as [[o n]|]; cbn; [case_bool_decide; subst|];
    repeat (case_match; bools; simplify_eq/=; rewrite ?bool_decide_eq_true_2 by done);
    split_and?; try split; intros; try done; lia.
Qed.

(** A clarification dialogue ends: whatever was asked before, an owner asks exactly its
    remaining budget of consecutive questions, at most one more than the policy's re-asks, and
    the next one is refused as exhausted. *)
Theorem clarification_terminates owner max_reasks : 0 ≤ max_reasks → ∀ n s,
  (isSome (ask_run owner max_reasks n s) = true ↔ (n ≤ remaining_questions owner max_reasks s)%nat) ∧
  (match clarification_liveness s with Some l => 0 ≤ cl_reasks l | None => True end →
   (remaining_questions owner max_reasks s ≤ S (Z.to_nat max_reasks))%nat).
Proof.
  intros Hm n s. split.
  - revert s. induction n as [|n IH]; intros s; cbn [ask_run]; [split; [lia|done]|].
    destruct (remaining_step owner max_reasks s Hm) as [Hex Hs].
    destruct (st_exhausted _) eqn:E; cbn; [split; [done|]|]; [|rewrite IH, Hs by done; lia].
    rewrite (proj1 Hex eq_refl). lia.
  - unfold remaining_questions. destruct (clarification_liveness s); [case_bool_decide|]; lia.
Qed.

(** ** The registry *)
(** A request class is the default of its [kind]; the base class has none. *)
Definition request_class : Type := option CapabilityId.
Record CapabilitySpec := mkSpec {
  capability_id : CapabilityId; request_type : request_class; entry_node : string }.

(** [CapabilityEntry.__post_init__] and [CapabilitySpec.__post_init__] *)
Definition make_CapabilityEntry (node_name : string) : res string :=
  requires (negb (blank node_name) && String.eqb node_name (strip node_name)) CapabilityRegistryError
    "capability entry requires a normalized node name" ;;
  inr node_name.
Definition make_CapabilitySpec (id : CapabilityId) (ty : request_class) (node : string) : res CapabilitySpec :=
  entry ← make_CapabilityEntry node;
  requires (bool_decide (ty = Some id)) CapabilityRegistryError
    "request_type kind must equal the registered capability_id" ;;
  inr (mkSpec id ty entry).

Record CapabilityRegistry := mkRegistry {
  specs : list (CapabilityId * CapabilitySpec);
  capability_ids : list CapabilityId;
  entry_nodes : list string }.

(** The loop of [CapabilityRegistry.__init__]. *)
Fixpoint register (by_id : list (CapabilityId * CapabilitySpec)) (ss : list CapabilitySpec)
    : res (list (CapabilityId * CapabilitySpec)) :=
  match ss with
  | [] => inr by_id
  | spec :: ss =>
      requires (negb (dmem (capability_id spec) by_id)) CapabilityRegistryError "already registered" ;;
      register (dset (capability_id spec) spec by_id) ss
  end.
Definition new_registry (ss : list CapabilitySpec) : res CapabilityRegistry :=
  by_id ← register [] ss;
  inr (mkRegistry by_id (dkeys by_id) (fromkeys (entry_node <$> dvalues by_id))).

Definition resolve (r : CapabilityRegistry) (q : IntentRequest) : res string :=
  match dget (kind q) (specs r) with
  | None => raises CapabilityRegistryError "is not registered"
  | Some spec =>
      requires (bool_decide (request_type spec = Some (kind q))) CapabilityRegistryError
        "received an incompatible request type" ;;
      inr (entry_node spec)
  end.

Definition spec_ok (s : CapabilitySpec) : Prop := request_type s = Some (capability_id s).

Lemma register_spec ss : ∀ by_id l, NoDup (dkeys by_id) →
  register by_id ss = inr l ↔
  NoDup (dkeys by_id ++ (capability_id <$> ss)) ∧ l = by_id ++ ((λ s, (capability_id s, s)) <$> ss).
Proof.
  induction ss as [|s ss IH]; intros by_id l Hn; cbn; [rewrite !app_nil_r; naive_solver|].
  unfold dmem. destruct (dget (capability_id s) by_id) as [v|] eqn:E; cbn.
  - split; [done|]. intros [Hnd _]. exfalso. apply NoDup_app in Hnd as (_ & Hd & _).
    apply (Hd (capability_id s)); [|left]. apply dget_Some_elem in E.
    apply list_elem_of_fmap. by exists (capability_id s, v).
  - rewrite IH by auto with pydict. rewrite dkeys_dset_fresh, dset_fresh by done.
    by rewrite <-!app_assoc.
Qed.

(** The capability registry accepts exactly the capability lists without duplicates, and
    resolves a typed request exactly when its capability is registered, to the node its own
    specification names: there is no fallback owner and no type mismatch left to raise. *)
Theorem registry_resolves_registered ss : Forall spec_ok ss →
  match new_registry ss with
  | inr r => NoDup (capability_id <$> ss) ∧ capability_ids r = capability_id <$> ss ∧
      (∀ q node, resolve r q = inr node ↔ ∃ s, s ∈ ss ∧ capability_id s = kind q ∧ entry_node s = node) ∧
      (∀ q node, resolve r q = inr node → node ∈ entry_nodes r)
  | inl _ => ¬ NoDup (capability_id <$> ss)
  end.
Proof.
  intros Hok. unfold new_registry. cbv [mbind res_bind].
  destruct (register [] ss) as [e|l] eqn:E.
  - intros Hn. assert (register [] ss = inr ((λ s, (capability_id s, s)) <$> ss)) as Hr.
    { apply register_spec; [constructor|]. by split. }
    by rewrite Hr in E.
  - apply register_spec in E as [Hn ->]; [|constructor]. cbn in *.
    set (l := (λ s, (capability_id s, s)) <$> ss) in *.
    assert (dkeys l = capability_id <$> ss) as Hk.
    { unfold dkeys, l. rewrite <-list_fmap_compose. by apply list_fmap_ext. }
    assert (∀ q node, resolve (mkRegistry l (dkeys l) (fromkeys (entry_node <$> dvalues l))) q = inr node ↔
      ∃ s, s ∈ ss ∧ capability_id s = kind q ∧ entry_node s = node) as Hres.
    { intros q node. unfold resolve. cbn. split.
      - destruct (dget (kind q) l) as [s|] eqn:Eg; [|done]. apply dget_Some_elem in Eg.
        apply list_elem_of_fmap in Eg as (s' & [= Hq ->] & Hs). munfold. case_bool_decide; [|done].
        intros; simplify_eq. by exists s'.
      - intros (s & Hs & Hq & <-). rewrite (elem_dget (kind q) s).
        + rewrite Forall_forall in Hok. specialize (Hok _ Hs). unfold spec_ok in Hok.
          munfold. by rewrite Hok, Hq, bool_decide_eq_true_2.
        + by rewrite Hk.
        + apply list_elem_of_fmap. exists s. by rewrite <-Hq. }
    split_and!; [done|done|exact Hres|].
    intros q node (s & Hs & _ & <-)%Hres. apply elem_of_fromkeys.
    apply list_elem_of_fmap. exists s. split; [done|]. unfold dvalues, l.
    rewrite <-list_fmap_compose. apply list_elem_of_fmap. by exists s.
Qed.

(** ** Examples *)
Lemma clarification_terminates_witness :
  let owner := RouterClarificationOwner "r-1" in
  isSome (ask_run owner 1 2 initial_state) = true ∧ isSome (ask_run owner 1 3 initial_state) = false.
Proof.
  intros owner. destruct (clarification_terminates owner 1 ltac:(lia) 2 initial_state) as [H2 _].
  split; [apply H2; cbn; lia|].
  destruct (clarification_terminates owner 1 ltac:(lia) 3 initial_state) as [H3 _].
  apply not_true_is_false. intros Hr. apply H3 in Hr. cbn in Hr. lia.
Defined.

Lemma registry_resolves_registered_witness :
  match new_registry [mkSpec (kind ViewCart) (Some (kind ViewCart)) "cart_view"] with
  | inr r => resolve r ViewCart = inr "cart_view" ∧ is_ok (resolve r PlaceOrder) = false
  | inl _ => False
  end.
Proof.
  pose proof (registry_resolves_registered [mkSpec (kind ViewCart) (Some (kind ViewCart)) "cart_view"]
    ltac:(by repeat constructor)) as H.
  destruct (new_registry _) as [e|r] eqn:E; [by vm_compute in E|]. destruct H as (_ & _ & Hres & _).
  split; [apply Hres; eexists; split; [left|done]|]. destruct (resolve r PlaceOrder) as [|node] eqn:Er; [done|].
  apply Hres in Er as (s & ->%list_elem_of_singleton & Hk & _). done.
Defined.
