(* ===== verification/Routing.v ===== *)
(** * Semantic routing (agents/routing.py, the proposals and contexts of dtos/orchestration.py)

    What the router is told about the session, how a model's coarse proposal
    becomes a typed request, and what the resolver lets through.  The model's
    answer is an input of [semantic_route]; prompts, fingerprints, timings and
    telemetry are not modelled. *)

From S2P Require Import Prelude PyText Cart Orders OrderScope Identity Profile Verification Confirmation.
From S2P Require Import Requests Reasoning Clarification.
Local Open Scope Z_scope.
Local Open Scope list_scope.

(** ** The context *)
Inductive routing_scope := ordinary | confirmation_escape.
#[export] Instance routing_scope_eq_dec : EqDecision routing_scope.
Proof. solve_decision. Defined.

Record RoutingContext := mkRoutingContext {
  rc_scope : routing_scope;
  utterance : string;
  recent_turns : list (speaker * string);
  bound_customer : bool;
  active_capability : option CapabilityId;
  recent_order_operation : option OrderContextOperation;
  recent_order_count : Z;
  has_focused_order : bool;
  has_offered_product : bool;
  has_product_reference : bool;
  awaiting_open_help : bool;
  cart_empty : bool;
  available_capabilities : list CapabilityId }.

(** [RoutingContext.context_is_coherent], and the bounds of its fields. *)
Definition context_is_coherent (c : RoutingContext) : res unit :=
  requires ((0 <=? recent_order_count c) && (1 <=? length (available_capabilities c))%nat)
    ValidationError "" ;;
  requires (bool_decide (NoDup (available_capabilities c))) ValidationError
    "available_capabilities must not contain duplicates" ;;
  requires (match active_capability c with
            | Some a => bool_decide (a ∈ available_capabilities c)
            | None => true
            end) ValidationError "active_capability must be available" ;;
  requires (Bool.eqb (negb (isSome (recent_order_operation c))) (recent_order_count c =? 0))
    ValidationError "recent order operation and count must be present together".

(** Construction: the texts are stripped and must not be empty. *)
Definition make_RoutingContext (c : RoutingContext) : res RoutingContext :=
  text ← non_empty_text (utterance c);
  turns ← mapM (λ t, s ← non_empty_text t.2; inr (t.1, s)) (recent_turns c);
  let c := mkRoutingContext (rc_scope c) text turns (bound_customer c) (active_capability c)
    (recent_order_operation c) (recent_order_count c) (has_focused_order c) (has_offered_product c)
    (has_product_reference c) (awaiting_open_help c) (cart_empty c) (available_capabilities c) in
  context_is_coherent c ;;
  inr c.

(** [RouteDecision | RoutingFailure] *)
Notation Resolution := (RouteDecision + RoutingFailureReason)%type.
Definition ROUTER_RECENT_TURNS : Z := 2.

(** The stores a session's router reads. *)
Record RouterSession := mkRouterSession {
  rt_identity : CallerIdentityStore;
  rt_cart : CartStore;
  rt_recent : Recent.RecentOrderContext;
  rt_registry : CapabilityRegistry }.

(** [CommittedTurn] *)
Record CommittedTurn := mkTurn { turn_text : string; turn_message_id : option string }.

Definition project_routing_context (s : RouterSession) (scope : routing_scope) (prompt_completed : bool)
    (turn : CommittedTurn) (st : ReasoningState) : RoutingContext + RoutingFailureReason :=
  match turn_message_id turn with
  | None => inr context_invalid
  | Some id =>
      if automation_terminal st then inr context_invalid
      else
        let recent := Recent.snapshot_ (rt_recent s) in
        let offered := isSome (live_product_offer st (Some id)) in
        match make_RoutingContext (mkRoutingContext scope (turn_text turn)
                ((λ e, (ce_speaker e, ce_text e)) <$> conversation_before st (Some id) ROUTER_RECENT_TURNS)
                (isSome (current (rt_identity s))) (capability <$> active_invocation st)
                (Recent.operation recent) (Z.of_nat (length (Recent.order_refs recent)))
                (isSome (Recent.focused_order_ref recent)) offered
                (negb offered && isSome (live_product_reference st (Some id)))
                (prompt_completed && isSome (live_assistant_prompt st (Some id)))
                (is_empty (rt_cart s)) (capability_ids (rt_registry s))) with
        | inr c => inl c
        | inl _ => inr context_invalid
        end
  end.

(** ** Capability definitions *)
Inductive selector := sel_explicit | sel_focused | sel_recent.
#[export] Instance selector_eq_dec : EqDecision selector.
Proof. solve_decision. Defined.

Record RouteProposal := mkProposal {
  pp_decision : route;
  pp_capability : option CapabilityId;
  pp_reason : option ClarificationReason;
  answer_topic : option AnswerTopic;
  conversation_act : option ConversationAct;
  cancel_selector : option selector;
  pp_list_scope : option Orders.list_scope;
  cart_operation : option CartOperation;
  profile_field : option ProfileField;
  order_status_selector : option selector;
  order_total_selector : option selector }.

(** The coarse fields of a proposal, as [_PROPOSAL_DISCRIMINATORS]. *)
Inductive discriminator :=
  | d_answer_topic | d_conversation_act | d_cancel_selector | d_list_scope | d_cart_operation
  | d_profile_field | d_order_status_selector | d_order_total_selector.
#[export] Instance discriminator_eq_dec : EqDecision discriminator.
Proof. solve_decision. Defined.
Definition PROPOSAL_DISCRIMINATORS : list discriminator :=
  [d_answer_topic; d_conversation_act; d_cancel_selector; d_list_scope; d_cart_operation;
   d_profile_field; d_order_status_selector; d_order_total_selector].
Definition provided (p : RouteProposal) (d : discriminator) : bool :=
  match d with
  | d_answer_topic => isSome (answer_topic p) | d_conversation_act => isSome (conversation_act p)
  | d_cancel_selector => isSome (cancel_selector p) | d_list_scope => isSome (pp_list_scope p)
  | d_cart_operation => isSome (cart_operation p) | d_profile_field => isSome (profile_field p)
  | d_order_status_selector => isSome (order_status_selector p)
  | d_order_total_selector => isSome (order_total_selector p)
  end.
(** The discriminators a proposal supplies, in the order above. *)
Definition supplied (p : RouteProposal) : list discriminator :=
  base.filter (λ d, provided p d = true) PROPOSAL_DISCRIMINATORS.

Definition no_target : OrderReadRequest := mkOrderRead None None false.
Definition targeted (t : OrderStatusSelector) : OrderReadRequest := mkOrderRead (Some t) None false.

Record CapabilityDefinition := mkDefinition {
  df_discriminators : list discriminator;
  commerce_effect : bool;
  unsafe_misroute : bool;
  materialize : RouteProposal → res IntentRequest }.

Definition materialize_cancel_orders (p : RouteProposal) : res IntentRequest :=
  match cancel_selector p with
  | Some sel_focused => inr (CancelOrders (Some CancelFocused))
  | Some sel_explicit => inr (CancelOrders None)
  | _ => raises ValueError "cancel_orders requires cancel_selector"
  end.
Definition materialize_order_status (p : RouteProposal) : res IntentRequest :=
  match order_status_selector p with
  | Some sel_explicit => inr (VerifyOrderStatus no_target)
  | Some sel_focused => inr (VerifyOrderStatus (targeted StatusFocused))
  | Some sel_recent => inr (VerifyOrderStatus (targeted StatusRecent))
  | None => raises ValueError "verify_order_status requires order_status_selector"
  end.
Definition materialize_order_total (p : RouteProposal) : res IntentRequest :=
  match order_total_selector p with
  | Some sel_explicit => inr (ReadOrderTotal no_target)
  | Some sel_focused => inr (ReadOrderTotal (targeted StatusFocused))
  | _ => raises ValueError "read_order_total requires order_total_selector"
  end.
(** The materializers that wrap one field. *)
Definition materialize_field {A} (f : option A) (wrap : A → IntentRequest) (message : string) : res IntentRequest :=
  match f with Some a => inr (wrap a) | None => raises ValueError message end.

Definition CAPABILITY_DEFINITIONS (c : CapabilityId) : CapabilityDefinition :=
  match c with
  | ANSWER_QUESTION => mkDefinition [d_answer_topic] false false
      (λ p, materialize_field (answer_topic p) AnswerQuestion "answer_question requires answer_topic")
  | CONVERSE => mkDefinition [d_conversation_act] false false
      (λ p, materialize_field (conversation_act p) Converse "converse requires conversation_act")
  | SEARCH_CATALOG => mkDefinition [] false false (λ _, inr (SearchCatalog None))
  | VERIFY_ORDER_STATUS => mkDefinition [d_order_status_selector] false false materialize_order_status
  | READ_ORDER_TOTAL => mkDefinition [d_order_total_selector] false true materialize_order_total
  | LIST_ORDERS => mkDefinition [d_list_scope] false false
      (λ p, materialize_field (pp_list_scope p) ListOrders "list_orders requires list_scope")
  | VIEW_CART => mkDefinition [] false false (λ _, inr ViewCart)
  | MODIFY_CART => mkDefinition [d_cart_operation] true true
      (λ p, materialize_field (cart_operation p) (λ o, ModifyCart o None None) "modify_cart requires cart_operation")
  | PLACE_ORDER => mkDefinition [] true true (λ _, inr PlaceOrder)
  | CANCEL_ORDERS => mkDefinition [d_cancel_selector] true true materialize_cancel_orders
  | REFUND_ORDER => mkDefinition [] true true (λ _, inr (RefundOrder None None None))
  | RETURN_ORDER => mkDefinition [] true true (λ _, inr (ReturnOrder None))
  | CHANGE_PROFILE => mkDefinition [d_profile_field] true true
      (λ p, materialize_field (profile_field p) (λ f, ChangeProfile f None) "change_profile requires profile_field")
  | VERIFY_IDENTITY => mkDefinition [] false true (λ _, inr VerifyIdentity)
  | SWITCH_ACCOUNT => mkDefinition [] false true (λ _, inr SwitchAccount)
  | VIEW_IDENTITY_STATUS => mkDefinition [] false false (λ _, inr ViewIdentityStatus)
  | ABORT_CURRENT => mkDefinition [] false true (λ _, inr AbortCurrent)
  | DISCLOSE_AI_IDENTITY => mkDefinition [] false false (λ _, inr DiscloseAiIdentity)
  | REQUEST_PERSON => mkDefinition [] false true (λ _, inr RequestPerson)
  end.
(** [COMMERCE_EFFECT_CAPABILITIES], [UNSAFE_MISROUTE_CAPABILITIES] *)
Definition commerce_effect_capability (c : CapabilityId) : bool := commerce_effect (CAPABILITY_DEFINITIONS c).
Definition unsafe_misroute_capability (c : CapabilityId) : bool := unsafe_misroute (CAPABILITY_DEFINITIONS c).

(** ** From a proposal to a route *)
Definition rejected : res Resolution := inr (inr decision_rejected).
Definition as_route (r : res RouteDecision) : res Resolution := d ← r; inr (inl d).

Definition proposed_route_decision (ctx : RoutingContext) (p : RouteProposal) : res Resolution :=
  match pp_decision p with
  | clarify_route =>
      match pp_reason p with
      | Some reason =>
          if isSome (pp_capability p) || negb (bool_decide (supplied p = [])) then rejected
          else as_route $ clarify reason
      | None => rejected
      end
  | continue_route =>
      if isSome (pp_capability p) || isSome (pp_reason p) || negb (bool_decide (supplied p = []))
         || negb (isSome (active_capability ctx)) then rejected
      else as_route $ continue_current
  | direct_route =>
      match pp_capability p with
      | None => rejected
      | Some c =>
          if isSome (pp_reason p) then rejected
          else
            let definition := CAPABILITY_DEFINITIONS c in
            if negb (bool_decide (supplied p = df_discriminators definition)) then rejected
            else match (r ← materialize definition p; direct r) with
                 | inr d => inr (inl d)
                 | inl _ => rejected
                 end
      end
  end.

(** The request a focused or recent order reference falls back to when the context has none. *)
Definition without_target (ctx : RoutingContext) (r : IntentRequest) : option IntentRequest :=
  let unfocused := negb (has_focused_order ctx) in
  match r with
  | VerifyOrderStatus q | ReadOrderTotal q =>
      let none :=
        match read_target q with
        | Some StatusFocused => (recent_order_count ctx =? 0) || unfocused
        | Some StatusRecent => recent_order_count ctx =? 0
        | _ => false
        end in
      if none then Some (match r with ReadOrderTotal _ => ReadOrderTotal no_target | _ => VerifyOrderStatus no_target end)
      else None
  | CancelOrders (Some CancelFocused) => if unfocused then Some (CancelOrders None) else None
  | _ => None
  end.

Definition resolve_route (ctx : RoutingContext) (d : RouteDecision) : res Resolution :=
  match rc_scope ctx with
  | confirmation_escape =>
      match rd_decision d, rd_request d with
      | direct_route, Some RequestPerson =>
          if bool_decide (REQUEST_PERSON ∈ available_capabilities ctx) then inr (inl d)
          else as_route (clarify ambiguous_intent)
      | _, _ => as_route (clarify ambiguous_intent)
      end
  | ordinary =>
      match rd_decision d with
      | continue_route => if isSome (active_capability ctx) then inr (inl d) else rejected
      | direct_route =>
          match rd_request d with
          | None => rejected
          | Some r =>
              if negb (bool_decide (kind r ∈ available_capabilities ctx)) then as_route $ clarify unsupported_capability
              else match without_target ctx r with
                   | Some r' => as_route $ direct r'
                   | None => inr (inl d)
                   end
          end
      | clarify_route => inr (inl d)
      end
  end.

Definition materialize_route (ctx : RoutingContext) (p : RouteProposal) : res Resolution :=
  decision ← proposed_route_decision ctx p;
  match decision with
  | inr failure => inr (inr failure)
  | inl d => resolve_route ctx d
  end.

(** ** The provider call *)
(** What the structured call answers: it raises, or returns something, which
    is a mapping with a parsed proposal or is not. *)
Inductive ProviderReply :=
  | provider_cancelled | provider_failed | not_a_mapping
  | parsed (p : option RouteProposal) (parsing_error : bool).

(** [SemanticRouter.route] *)
Definition semantic_route (input_max_chars : nat) (reply : ProviderReply) (ctx : RoutingContext) : res Resolution :=
  if (input_max_chars <? String.length (utterance ctx))%nat then inr (inr context_invalid)
  else
    match reply with
    | provider_cancelled => raises CancelledError ""
    | provider_failed => inr (inr routing_unavailable)
    | not_a_mapping => inr (inr invalid_output)
    | parsed (Some p) false => materialize_route ctx p
    | parsed _ _ => inr (inr invalid_output)
    end.

(** [RoutingSession._resolve], for any recognizer. *)
Definition session_resolve (s : RouterSession) (recognize : RoutingContext → res Resolution)
    (scope : routing_scope) (prompt_completed : bool) (turn : CommittedTurn) (st : ReasoningState) : res Resolution :=
  match turn_message_id turn with
  | None => raises ValueError "ordinary routed turn requires a committed id"
  | Some _ =>
      match project_routing_context s scope prompt_completed turn st with
      | inr failure => inr (inr failure)
      | inl ctx =>
          attempt ← recognize ctx;
          match attempt with
          | inl d => resolve_route ctx d
          | inr failure => inr (inr failure)
          end
      end
  end.
Definition resolve_ordinary s recognize := session_resolve s recognize ordinary.
Definition resolve_confirmation_escape s recognize := session_resolve s recognize confirmation_escape false.
Definition capability_available (s : RouterSession) (c : CapabilityId) : bool :=
  bool_decide (c ∈ capability_ids (rt_registry s)).

(** ** Laws *)
(** A decision as its class lets it be built. *)
Definition decision_ok (d : RouteDecision) : Prop :=
  make_RouteDecision (rd_decision d) (rd_request d) (rd_reason d) = inr d.

Lemma clarify_ok reason : clarify reason = inr (mkRoute clarify_route None (Some reason)).
Proof. done. Qed.
Lemma direct_ok r d : direct r = inr d → decision_ok d ∧ rd_decision d = direct_route ∧
  ∃ t, rd_request d = Some t ∧ validate_request r = inr t ∧ intent_only t = true.
Proof.
  intros (t & Hv & Hi & ->)%direct_spec. assert (direct t = inr (mkRoute direct_route (Some t) None)) as Hd.
  { apply direct_spec. exists t. rewrite (intent_only_validated _ _ Hv). split_and!; [|done..].
    by eapply stable_request. }
  split_and!; [exact Hd|done|]. exists t. by rewrite (intent_only_validated _ _ Hv).
Qed.

(** The resolver's branches, on the decisions a class lets be built. *)
Definition resolved (ctx : RoutingContext) (d : RouteDecision) : Prop :=
  decision_ok d ∧
  match rd_decision d with
  | direct_route => ∃ r, rd_request d = Some r ∧ kind r ∈ available_capabilities ctx ∧ intent_only r = true ∧
      (rc_scope ctx = confirmation_escape → r = RequestPerson) ∧
      (rc_scope ctx = ordinary → without_target ctx r = None)
  | continue_route => rc_scope ctx = ordinary ∧ active_capability ctx ≠ None
  | clarify_route => rc_scope ctx = confirmation_escape → rd_reason d = Some ambiguous_intent
  end.

Lemma decision_ok_direct d : decision_ok d → rd_decision d = direct_route →
  ∃ r, rd_request d = Some r ∧ intent_only r = true.
Proof.
  destruct d as [dd [r|] [reason|]]; cbn; intros Hok ->; unfold decision_ok in Hok; cbn in Hok.
  - unfold make_RouteDecision, payload_matches_decision in Hok. cbn in Hok. by destruct (validate_request r).
  - apply direct_spec in Hok as (t & Hv & Hi & Ht). simplify_eq. by exists t.
  - done.
  - done.
Qed.

Lemma without_target_kind ctx r r' : without_target ctx r = Some r' → kind r' = kind r ∧ intent_only r' = true ∧
  validate_request r' = inr r' ∧ without_target ctx r' = None.
Proof. unfold without_target. destruct r; try done; repeat case_match; intros; simplify_eq; done. Qed.

Lemma resolve_spec ctx d : decision_ok d → ∃ res, resolve_route ctx d = inr res ∧
  match res with
  | inl d' => resolved ctx d' ∧ (rd_decision d' = direct_route → rd_decision d = direct_route ∧
                kind <$> rd_request d' = kind <$> rd_request d)
  | inr failure => failure = decision_rejected ∧ rc_scope ctx = ordinary ∧ rd_decision d = continue_route ∧
                active_capability ctx = None
  end.
Proof.
  intros Hok. unfold resolve_route. destruct (rc_scope ctx) eqn:Hs.
  - destruct (rd_decision d) eqn:Hd.
    + exists (inl d). split; [done|]. split; [|by rewrite Hd]. unfold resolved. by rewrite Hd, Hs.
    + destruct (decision_ok_direct d Hok Hd) as (r & Hr & Hi). rewrite Hr.
      case_bool_decide as Ha; cbn [negb].
      2: { eexists. split; [reflexivity|]. split; [|done]. split; [done|]. cbn. congruence. }
      destruct (without_target ctx r) as [r'|] eqn:Hw.
      * destruct (without_target_kind _ _ _ Hw) as (Hk & Hi' & Hv & Hw').
        assert (direct r' = inr (mkRoute direct_route (Some r') None)) as Hdir by (apply direct_spec; eauto).
        rewrite Hdir. eexists. split; [reflexivity|]. cbn. split; [|intros _; split; [done|by rewrite Hk]].
        split; [apply (direct_ok _ _ Hdir)|]. cbn. exists r'. rewrite Hk. split_and!; congruence.
      * exists (inl d). split; [done|]. split; [|by rewrite Hr]. split; [done|]. rewrite Hd. exists r. split_and!; congruence.
    + destruct (active_capability ctx) eqn:Hac; cbn [isSome].
      * exists (inl d). split; [done|]. split; [|by rewrite Hd]. split; [done|]. rewrite Hd, Hac. done.
      * by exists (inr decision_rejected).
  - assert (∀ P, (∃ res, as_route (clarify ambiguous_intent) = inr res ∧ match res with
      | inl d' => resolved ctx d' ∧ (rd_decision d' = direct_route → rd_decision d = direct_route ∧
                kind <$> rd_request d' = kind <$> rd_request d) | inr f => P f end)) as Hcl
      by (intros P; eexists; split; [reflexivity|]; cbn; split; [by split|done]).
    destruct (rd_decision d) eqn:Hd; try apply Hcl.
    destruct (decision_ok_direct d Hok Hd) as (r & Hr & Hi). rewrite Hr.
    destruct r; try (rewrite <-Hr; apply Hcl). case_bool_decide; [|rewrite <-Hr; apply Hcl].
    exists (inl d). split; [done|]. split; [|by rewrite Hr]. split; [done|]. rewrite Hd. exists RequestPerson. split_and!; try done; congruence.
Qed.

Lemma clarify_decision d : decision_ok d → rd_decision d = clarify_route →
  ∃ reason, d = mkRoute clarify_route None (Some reason).
Proof.
  destruct d as [dd [r|] [reason|]]; cbn; intros Hok ->; unfold decision_ok in Hok; cbn in Hok; try done.
  - unfold make_RouteDecision, payload_matches_decision in Hok. cbn in Hok. by destruct (validate_request r).
  - unfold make_RouteDecision, payload_matches_decision in Hok. cbn in Hok. by destruct (validate_request r).
  - by exists reason.
Qed.

Lemma resolve_fixed ctx d : resolved ctx d → resolve_route ctx d = inr (inl d).
Proof.
  intros [Hok Hd]. unfold resolve_route. destruct (rd_decision d) eqn:Hk.
  - destruct (rc_scope ctx); [done|]. destruct (clarify_decision d Hok Hk) as [reason ->].
    cbn in *. by injection (Hd eq_refl) as ->.
  - destruct Hd as (r & Hr & Ha & _ & He & Ho). rewrite Hr. destruct (rc_scope ctx).
    + rewrite bool_decide_eq_true_2 by done. cbn. by rewrite Ho.
    + rewrite He in Ha |- * by done. by rewrite bool_decide_eq_true_2.
  - destruct Hd as [-> Ha]. by destruct (active_capability ctx).
Qed.
Lemma resolve_idempotent ctx d res : decision_ok d → resolve_route ctx d = inr (inl res) →
  resolve_route ctx res = inr (inl res).
Proof.
  intros Hok Hr. destruct (resolve_spec ctx d Hok) as (x & Hx & Hs). rewrite Hr in Hx. injection Hx as <-.
  apply resolve_fixed, Hs.
Qed.

(** *** What the projection says about the session *)
Lemma make_context_spec c c' : make_RoutingContext c = inr c' →
  (rc_scope c', available_capabilities c', active_capability c', has_focused_order c', recent_order_count c') =
  (rc_scope c, available_capabilities c, active_capability c, has_focused_order c, recent_order_count c) ∧
  (∀ a, active_capability c' = Some a → a ∈ available_capabilities c').
Proof.
  unfold make_RoutingContext. cbv [mbind res_bind]. destruct (non_empty_text _) as [|text]; [done|].
  destruct (mapM _ _) as [|turns]; [done|]. destruct (context_is_coherent _) as [|[]] eqn:Hc; [done|].
  intros [= <-]. split; [done|]. intros a Ha. cbn in Ha |- *. unfold context_is_coherent in Hc. cbn in Hc.
  rewrite Ha in Hc. rewrite !requires_then in Hc. destruct Hc as (_ & _ & Hc & _). by apply bool_decide_eq_true in Hc.
Qed.

Lemma project_spec s scope completed turn st ctx :
  project_routing_context s scope completed turn st = inl ctx →
  rc_scope ctx = scope ∧ available_capabilities ctx = capability_ids (rt_registry s) ∧
  active_capability ctx = capability <$> active_invocation st ∧
  (∀ a, active_capability ctx = Some a → a ∈ capability_ids (rt_registry s)) ∧
  has_focused_order ctx = isSome (Recent.focused_order_ref (Recent.snapshot_ (rt_recent s))) ∧
  recent_order_count ctx = Z.of_nat (length (Recent.order_refs (Recent.snapshot_ (rt_recent s)))) ∧
  automation_terminal st = false.
Proof.
  unfold project_routing_context. destruct (turn_message_id turn); [|done].
  destruct (automation_terminal st); [done|].
  destruct (make_RoutingContext _) as [|c] eqn:Hc; [done|]. intros [= <-].
  apply make_context_spec in Hc as [Hf Ha]. cbn in Hf. injection Hf as H1 H2 H3 H4 H5. rewrite H2 in Ha. by split_and!.
Qed.

(** A decision that refers to an order of the session refers to one it has. *)
Definition refers_back (s : RouterSession) (r : IntentRequest) : Prop :=
  let recent := Recent.snapshot_ (rt_recent s) in
  match r with
  | VerifyOrderStatus q | ReadOrderTotal q =>
      match read_target q with
      | Some StatusFocused => Recent.focused_order_ref recent ≠ None
      | Some StatusRecent => Recent.order_refs recent ≠ []
      | _ => True
      end
  | CancelOrders (Some CancelFocused) => Recent.focused_order_ref recent ≠ None
  | _ => True
  end.

(** A decision a session reaches is one the resolver passed, in the context it projected. *)
Lemma session_decides s recognize scope completed turn st d :
  (∀ ctx d, recognize ctx = inr (inl d) → decision_ok d) →
  session_resolve s recognize scope completed turn st = inr (inl d) →
  ∃ ctx, project_routing_context s scope completed turn st = inl ctx ∧ resolved ctx d.
Proof.
  intros Hrec. unfold session_resolve. destruct (turn_message_id turn); [|done].
  destruct (project_routing_context s scope completed turn st) as [ctx|] eqn:Hp; [|done]. cbv [mbind res_bind].
  destruct (recognize ctx) as [|[d0|]] eqn:Hd0; [done| |done]. intros Hr. exists ctx. split; [done|].
  destruct (resolve_spec ctx d0 (Hrec _ _ Hd0)) as (x & Hx & Hspec). rewrite Hr in Hx. injection Hx as <-. apply Hspec.
Qed.

(** C9 The router has no authority.  Whatever a recognizer answers, as long as its decisions are
    well-formed, the session routes a turn directly only to a capability it has registered, with
    nothing in the request that code alone may fill in, refers to a focused or recent order only
    when there is one, continues only an open request, and in answer to a confirmation can do
    nothing but ask for a person. *)
Theorem router_cannot_overstep s recognize scope completed turn st d :
  (∀ ctx d, recognize ctx = inr (inl d) → decision_ok d) →
  session_resolve s recognize scope completed turn st = inr (inl d) →
  automation_terminal st = false ∧
  match rd_decision d with
  | direct_route => ∃ r, rd_request d = Some r ∧ kind r ∈ capability_ids (rt_registry s) ∧ intent_only r = true ∧
      (scope = confirmation_escape → r = RequestPerson) ∧ refers_back s r
  | continue_route => scope = ordinary ∧ ∃ i, active_invocation st = Some i ∧ capability_available s (capability i) = true
  | clarify_route => rd_request d = None
  end.
Proof.
  intros Hrec Hd0. destruct (session_decides _ _ _ _ _ _ _ Hrec Hd0) as (ctx & Hp & Hok & Hres).
  destruct (project_spec _ _ _ _ _ _ Hp) as (Hs & Ha & Hact & Hin & Hf & Hn & Ht). split; [done|].
  destruct (rd_decision d) eqn:Hd.
  - by destruct (clarify_decision d Hok Hd) as [reason ->].
  - destruct Hres as (r & Hrq & Hk & Hi & He & Ho). rewrite Ha in Hk. rewrite Hs in He, Ho. exists r. split_and!; try done.
    destruct scope; [|by rewrite He]. specialize (Ho eq_refl). unfold without_target in Ho. rewrite Hf, Hn in Ho.
    unfold refers_back. destruct r as [| | |q|q| | | | |[[]|]| | | | | | | | |]; try done;
      [destruct (read_target q) as [[]|]; try done..|].
    all: intros Hnone; rewrite Hnone in Ho; cbn in Ho; by rewrite ?orb_true_r in Ho.
  - destruct Hres as [Hord Hac]. split; [congruence|]. rewrite Hact in Hac, Hin. destruct (active_invocation st) as [i|]; [|done].
    exists i. split; [done|]. unfold capability_available. apply bool_decide_eq_true_2. by apply Hin.
Qed.

(** *** What a proposal can say *)
Lemma decided_valid ctx p d : proposed_route_decision ctx p = inr (inl d) → decision_ok d.
Proof.
  unfold proposed_route_decision. destruct (pp_decision p).
  - destruct (pp_reason p); [|done]. case_match; [done|]. by intros [= <-].
  - destruct (pp_capability p) as [c|]; [|done]. case_match; [done|]. case_match; [done|].
    cbv [mbind res_bind]. destruct (materialize _ p) as [|r]; [done|]. destruct (direct r) as [|d'] eqn:Hd; [done|].
    intros [= <-]. apply (direct_ok _ _ Hd).
  - case_match; [done|]. by intros [= <-].
Qed.
Lemma proposed_total ctx p : ∃ r, proposed_route_decision ctx p = inr r.
Proof.
  unfold proposed_route_decision, rejected, as_route.
  destruct (pp_decision p); repeat case_match; eauto.
Qed.
Lemma materialize_total ctx p : ∃ r, materialize_route ctx p = inr r.
Proof.
  unfold materialize_route. destruct (proposed_total ctx p) as [[d|f] Hd]; rewrite Hd; cbv [mbind res_bind]; [|eauto].
  destruct (resolve_spec ctx d) as (r & -> & _); [by eapply decided_valid|eauto].
Qed.
(** The request materialized for a capability is one of it, and nothing in it is code's. *)
Lemma materialize_kind c p r : materialize (CAPABILITY_DEFINITIONS c) p = inr r →
  kind r = c ∧ intent_only r = true ∧ validate_request r = inr r.
Proof.
  destruct c; cbn; unfold materialize_field, materialize_cancel_orders, materialize_order_status, materialize_order_total;
    repeat case_match; intros; simplify_eq; try done. by destruct c.
Qed.
Lemma decided_kind ctx p d : proposed_route_decision ctx p = inr (inl d) → rd_decision d = direct_route →
  pp_decision p = direct_route ∧ kind <$> rd_request d = pp_capability p.
Proof.
  unfold proposed_route_decision. destruct (pp_decision p).
  - destruct (pp_reason p); [|done]. case_match; [done|]. by intros [= <-].
  - destruct (pp_capability p) as [c|]; [|done]. case_match; [done|]. case_match; [done|].
    cbv [mbind res_bind]. destruct (materialize _ p) as [|r] eqn:Hm; [done|].
    destruct (materialize_kind _ _ _ Hm) as (Hk & Hi & Hv).
    assert (direct r = inr (mkRoute direct_route (Some r) None)) as -> by (apply direct_spec; eauto).
    intros [= <-] _. cbn. by rewrite Hk.
  - case_match; [done|]. by intros [= <-].
Qed.
Lemma materialized_kind ctx p d : materialize_route ctx p = inr (inl d) → rd_decision d = direct_route →
  pp_decision p = direct_route ∧ kind <$> rd_request d = pp_capability p.
Proof.
  unfold materialize_route. destruct (proposed_total ctx p) as [[d0|f] Hd]; rewrite Hd; cbv [mbind res_bind]; [|done].
  intros Hr Hdir. destruct (resolve_spec ctx d0) as (r & Hx & Hs); [by eapply decided_valid|].
  rewrite Hr in Hx. injection Hx as <-. destruct Hs as [_ Hs]. destruct (Hs Hdir) as [Hd0 ->]. by eapply decided_kind.
Qed.

Lemma materialized_fixed ctx p d : materialize_route ctx p = inr (inl d) → resolve_route ctx d = inr (inl d).
Proof.
  unfold materialize_route. destruct (proposed_total ctx p) as [[d0|f] Hd]; rewrite Hd; cbv [mbind res_bind]; [|done].
  apply resolve_idempotent. by eapply decided_valid.
Qed.

(** The model's answer is taken once, and means what it says.  Unless the call itself is
    cancelled, routing a turn answers, whatever the provider did; a completed proposal is routed
    as [materialize_route] routes it, the session's second look changing nothing; and a direct
    decision only comes from a proposal that named the capability it is handed to. *)
Theorem router_answers_proposal s n reply scope completed turn st id :
  turn_message_id turn = Some id → reply ≠ provider_cancelled →
  let answer := session_resolve s (semantic_route n reply) scope completed turn st in
  (∃ res, answer = inr res) ∧
  (∀ p ctx, reply = parsed (Some p) false → project_routing_context s scope completed turn st = inl ctx →
     (String.length (utterance ctx) ≤ n)%nat → answer = materialize_route ctx p) ∧
  (∀ d, answer = inr (inl d) → rd_decision d = direct_route →
     ∃ p, reply = parsed (Some p) false ∧ pp_decision p = direct_route ∧ kind <$> rd_request d = pp_capability p).
Proof.
  intros Hid Hrep answer. subst answer. unfold session_resolve. rewrite Hid.
  destruct (project_routing_context s scope completed turn st) as [ctx|f]; [|naive_solver].
  assert (∀ p, (attempt ← materialize_route ctx p;
                match attempt with inl d => resolve_route ctx d | inr failure => inr (inr failure) end)
               = materialize_route ctx p) as Hfix.
  { intros p. destruct (materialize_total ctx p) as [[d|f] Hm]; rewrite Hm; cbv [mbind res_bind]; [|done].
    by eapply materialized_fixed. }
  cbv [mbind res_bind] in Hfix |- *. unfold semantic_route. destruct (_ <? _)%nat eqn:Hlen.
  { split_and!; [eauto| |done]. intros p c _ [= <-] Hle. apply Nat.ltb_lt in Hlen. lia. }
  destruct reply as [| | |[p|] []]; try done; try (split_and!; [eauto|done|done]).
  rewrite Hfix. split_and!; [apply materialize_total|by intros ?? [= <-] [= <-]|].
  intros d Hd Hdir. exists p. split; [done|]. by eapply materialized_kind.
Qed.

(** Every capability can be asked for: in any ordinary context, each available capability has a
    proposal that is routed directly to it. *)
Theorem every_capability_routable ctx c : rc_scope ctx = ordinary → c ∈ available_capabilities ctx →
  ∃ p d r, materialize_route ctx p = inr (inl d) ∧ rd_decision d = direct_route ∧ rd_request d = Some r ∧ kind r = c.
Proof.
  intros Hs Ha.
  set (p := mkProposal direct_route (Some c) None
    (if decide (c = ANSWER_QUESTION) then Some general_topic else None)
    (if decide (c = CONVERSE) then Some greeting else None)
    (if decide (c = CANCEL_ORDERS) then Some sel_explicit else None)
    (if decide (c = LIST_ORDERS) then Some Orders.scope_session else None)
    (if decide (c = MODIFY_CART) then Some add else None)
    (if decide (c = CHANGE_PROFILE) then Some address else None)
    (if decide (c = VERIFY_ORDER_STATUS) then Some sel_explicit else None)
    (if decide (c = READ_ORDER_TOTAL) then Some sel_explicit else None)).
  assert (∃ r, proposed_route_decision ctx p = inr (inl (mkRoute direct_route (Some r) None)) ∧ kind r = c ∧
    without_target ctx r = None) as (r & Hp & Hk & Hw) by (destruct c; eexists; split_and!; reflexivity).
  exists p, (mkRoute direct_route (Some r) None), r. split_and!; try done.
  unfold materialize_route. rewrite Hp. cbv [mbind res_bind]. unfold resolve_route. rewrite Hs. cbn.
  rewrite Hk, bool_decide_eq_true_2 by done. cbn. by rewrite Hw.
Qed.

(** ** An example session *)
(** One order was read, so a proposal may mean it; "recent" is downgraded when nothing was. *)
Definition two_owners : CapabilityRegistry :=
  mkRegistry [(CANCEL_ORDERS, mkSpec CANCEL_ORDERS (Some CANCEL_ORDERS) "support_capability_entry");
              (VERIFY_ORDER_STATUS, mkSpec VERIFY_ORDER_STATUS (Some VERIFY_ORDER_STATUS) "order_status")]
    [CANCEL_ORDERS; VERIFY_ORDER_STATUS] ["support_capability_entry"; "order_status"].
Definition fresh_router : RouterSession :=
  mkRouterSession new_identity empty_cart (Recent.mkContext 5 Recent.empty_snapshot) two_owners.
Definition about_recent : RouteProposal :=
  mkProposal direct_route (Some VERIFY_ORDER_STATUS) None None None None None None None (Some sel_recent) None.
Definition asks_status : CommittedTurn := mkTurn "any news on my orders" (Some "t-1").

Lemma router_cannot_overstep_witness :
  session_resolve fresh_router (semantic_route 100 (parsed (Some about_recent) false)) ordinary false asks_status initial_state
    = inr (inl (mkRoute direct_route (Some (VerifyOrderStatus no_target)) None)) ∧
  VERIFY_ORDER_STATUS ∈ [CANCEL_ORDERS; VERIFY_ORDER_STATUS].
Proof.
  assert (∀ ctx d, semantic_route 100 (parsed (Some about_recent) false) ctx = inr (inl d) → decision_ok d) as Hok.
  { intros ctx d. unfold semantic_route. destruct (_ <? _)%nat; [done|]. intros Hm.
    unfold materialize_route in Hm. destruct (proposed_total ctx about_recent) as [[d0|f] Hd]; rewrite Hd in Hm; [|done].
    cbv [mbind res_bind] in Hm. destruct (resolve_spec ctx d0 (decided_valid _ _ _ Hd)) as (x & Hx & Hs).
    rewrite Hm in Hx. injection Hx as <-. apply Hs. }
  split; [by vm_compute|].
  destruct (router_cannot_overstep fresh_router _ ordinary false asks_status initial_state
    (mkRoute direct_route (Some (VerifyOrderStatus no_target)) None) Hok) as [_ Hd]; [by vm_compute|].
  cbn in Hd. destruct Hd as (r & [= <-] & Hk & _). exact Hk.
Defined.

Lemma router_answers_proposal_witness :
  is_ok (session_resolve fresh_router (semantic_route 100 provider_failed) ordinary false asks_status initial_state) = true.
Proof.
  destruct (router_answers_proposal fresh_router 100 provider_failed ordinary false asks_status initial_state "t-1")
    as ([res Hres] & _); [done|done|].
  by rewrite Hres.
Defined.

Lemma every_capability_routable_witness :
  ∃ p d r, materialize_route (mkRoutingContext ordinary "hello" [] false None None 0 false false false false true
      [CANCEL_ORDERS]) p = inr (inl d) ∧ rd_decision d = direct_route ∧ rd_request d = Some r ∧ kind r = CANCEL_ORDERS.
Proof. apply every_capability_routable; [done|by left]. Defined.
