(* ===== verification/Nodes.v ===== *)
(** * Graph nodes and their questions (agents/_person_question.py)

    A node of the graph runs from its first line each time it is resumed: an
    interrupt returns the next recorded reply when there is one and suspends
    the node otherwise.  [N W] is a node's computation over the objects [W] it
    is closed over: it consumes replies and ends with a value, an exception or
    a suspension at a prompt, and what it did before stays done. *)

From S2P Require Import Prelude Consent.
Local Open Scope list_scope.

Inductive outcome (A : Type) := Done (a : A) | Raised (e : exc) | Suspended (prompt : string).
Arguments Done {A}. Arguments Raised {A}. Arguments Suspended {A}.

Definition N (W A : Type) : Type := list answer * W → (list answer * W) * outcome A.

#[export] Instance N_ret {W} : MRet (N W) := λ A a s, (s, Done a).
#[export] Instance N_bind {W} : MBind (N W) := λ A B f n s,
  match n s with
  | (s', Done a) => f a s'
  | (s', Raised e) => (s', Raised e)
  | (s', Suspended p) => (s', Suspended p)
  end.

(** A method call, a pure computation that may raise, an attribute. *)
Definition act {W A} (m : M W A) : N W A := λ '(ans, w),
  match m w with
  | (w', inr a) => ((ans, w'), Done a)
  | (w', inl e) => ((ans, w'), Raised e)
  end.
Definition val {W A} (r : res A) : N W A := act (lift r).
Definition here {W} : N W W := act get.
Definition fail {W A} (c : exc_class) (m : string) : N W A := act (raise c m).
Definition need {W} (b : bool) (c : exc_class) (m : string) : N W unit := act (require b c m).
(** [assert x is not None] *)
Definition the {W A} (o : option A) : N W A :=
  match o with Some a => mret a | None => fail AssertionError "" end.

(** [interrupt(prompt)] *)
Definition ask {W} (prompt : string) : N W answer := λ '(ans, w),
  match ans with
  | a :: ans => ((ans, w), Done a)
  | [] => ((ans, w), Suspended prompt)
  end.

(** [try: n except c: handler] *)
Definition except {W A} (n : N W A) (c : exc_class) (handler : N W A) : N W A := λ s,
  match n s with
  | (s', Raised e) => if decide (exc_cls e = c) then handler s' else (s', Raised e)
  | r => r
  end.

(** A node over a part of [W]. *)
Definition zoom {W V A} (view : W → V) (update : V → W → W) (n : N V A) : N W A := λ '(ans, w),
  match n (ans, view w) with ((ans', v'), o) => ((ans', update v' w), o) end.

Ltac nunfold := cbv [mbind N_bind mret N_ret act val here fail need the ask get lift raise require] in *.

(** ** The person question *)
Definition PERSON_QUESTION : string :=
  "Do you want me to stop the automated help so you can reach someone at the store?".
Definition PERSON_QUESTION_RETRY : string :=
  "To stop the automated help and reach someone at the store, say yes or no.".

Definition ask_person_question {W} : N W ConfirmationDecision :=
  reply ← ask PERSON_QUESTION;
  decision ← val (classify_person_confirmation reply);
  if bool_decide (verdict decision = decided unclear) then
    retry ← ask PERSON_QUESTION_RETRY;
    val (classify_person_confirmation retry)
  else mret decision.

Definition settle_person_request {W} (decision : ConfirmationDecision) : N W ConfirmationDecision :=
  if bool_decide (verdict decision = human ∧ handoff_source decision = Some SEMANTIC_ROUTER) then
    confirmed ← ask_person_question;
    if bool_decide (verdict confirmed = decided yes ∨ verdict confirmed = human) then mret decision
    else mret (mkDecision (decided unclear) None)
  else mret decision.

(** The readback of a confirm node: ask, settle, and ask once more when unclear. *)
Definition readback_decision {W} (question retry_question : string) (cancel_action : bool)
    : N W ConfirmationDecision :=
  reply ← ask question;
  decision ← val (classify_confirmation reply cancel_action);
  decision ← settle_person_request decision;
  if bool_decide (verdict decision = decided unclear) then
    retry ← ask retry_question;
    decision ← val (classify_confirmation retry cancel_action);
    settle_person_request decision
  else mret decision.

(** ** Lemmas *)
Lemma bind_done {W A B} (n : N W A) (k : A → N W B) s s' b :
  (n ≫= k) s = (s', Done b) ↔ ∃ a s1, n s = (s1, Done a) ∧ k a s1 = (s', Done b).
Proof.
  cbv [mbind N_bind]. destruct (n s) as [s1 [a|e|p]]; [|naive_solver..].
  split; [eauto|]. by intros (? & ? & [= <- <-] & ?).
Qed.

Lemma act_done {W A} (m : M W A) ans w s' a :
  act m (ans, w) = (s', Done a) ↔ ∃ w', m w = (w', inr a) ∧ s' = (ans, w').
Proof. unfold act. destruct (m w) as [w' [e|b]]; naive_solver. Qed.

Lemma val_done {W A} (r : res A) (s s' : list answer * W) a :
  val r s = (s', Done a) ↔ r = inr a ∧ s' = s.
Proof. destruct s. unfold val. rewrite act_done. unfold lift. naive_solver. Qed.

Lemma ask_done {W} p ans (w : W) s' a : ask p (ans, w) = (s', Done a) ↔ ∃ rest, ans = a :: rest ∧ s' = (rest, w).
Proof. destruct ans; cbn; naive_solver. Qed.

Lemma ret_done {W A} (a b : A) (s s' : list answer * W) : mret (M:=N W) a s = (s', Done b) ↔ s' = s ∧ b = a.
Proof. unfold mret, N_ret. naive_solver. Qed.

Lemma bind_the {W A B} (o : option A) (k : A → N W B) s s' b :
  (the o ≫= k) s = (s', Done b) ↔ ∃ a, o = Some a ∧ k a s = (s', Done b).
Proof.
  destruct o as [a|]; [|destruct s; by split; [|intros (? & ? & ?)]].
  change ((the (Some a) ≫= k) s) with (k a s). naive_solver.
Qed.

Lemma bind_val {W A B} (r : res A) (k : A → N W B) s s' b :
  (val r ≫= k) s = (s', Done b) ↔ ∃ a, r = inr a ∧ k a s = (s', Done b).
Proof.
  rewrite bind_done. split.
  - intros (a & s1 & [-> ->]%val_done & Hk). by exists a.
  - intros (a & -> & Hk). exists a, s. by rewrite val_done.
Qed.

Lemma bind_here {W B} (k : W → N W B) ans w r : (here ≫= k) (ans, w) = r ↔ k w (ans, w) = r.
Proof. done. Qed.

(** Steps through a run that ended with a value. *)
Ltac nstep := match goal with
  | H : (the _ ≫= _) _ = (_, Done _) |- _ =>
      let a := fresh "a" in let Ha := fresh "Ha" in apply bind_the in H as (a & Ha & H); cbv beta in H
  | H : (val _ ≫= _) _ = (_, Done _) |- _ =>
      let a := fresh "a" in let Ha := fresh "Ha" in apply bind_val in H as (a & Ha & H); cbv beta in H
  | H : (here ≫= _) _ = _ |- _ => apply bind_here in H; cbv beta zeta in H
  | H : mret _ _ = (_, Done _) |- _ =>
      let Hs := fresh "Hs" in apply ret_done in H as [Hs H]
  end; simplify_eq.
Ltac nsteps := repeat nstep.

(** A node that leaves its objects as they are, whatever it ends with. *)
Definition pure_node {W A} (n : N W A) : Prop := ∀ ans w, (n (ans, w)).1.2 = w.

Lemma pure_ret {W A} (a : A) : pure_node (mret (M:=N W) a).
Proof. done. Qed.
Lemma pure_bind {W A B} (n : N W A) (k : A → N W B) :
  pure_node n → (∀ a, pure_node (k a)) → pure_node (n ≫= k).
Proof.
  intros Hn Hk ans w. cbv [mbind N_bind]. specialize (Hn ans w).
  destruct (n (ans, w)) as [[ans' w'] [a|e|p]]; cbn in *; subst; [apply Hk|done|done].
Qed.
Lemma pure_val {W A} (r : res A) : pure_node (W:=W) (val r).
Proof. intros ans w. by destruct r. Qed.
Lemma pure_here {W} : pure_node (W:=W) here.
Proof. done. Qed.
Lemma pure_ask {W} p : pure_node (W:=W) (ask p).
Proof. by intros [|a ans] w. Qed.
Lemma pure_fail {W A} c m : pure_node (W:=W) (fail (A:=A) c m).
Proof. done. Qed.
Lemma pure_need {W} b c m : pure_node (W:=W) (need b c m).
Proof. intros ans w. by destruct b. Qed.
Lemma pure_the {W A} (o : option A) : pure_node (W:=W) (the o).
Proof. by destruct o. Qed.
Create HintDb pure.
#[export] Hint Resolve pure_ret pure_bind pure_val pure_here pure_ask pure_fail pure_need pure_the : pure.
(** Decides purity along the branches of a node. *)
Ltac pure_steps :=
  repeat first
    [ progress intros | apply pure_bind | solve [auto 3 with pure] | case_match | case_bool_decide ].

(** A node that leaves one part of its objects as it is. *)
Definition keeps {W V A} (view : W → V) (n : N W A) : Prop := ∀ ans w, view (n (ans, w)).1.2 = view w.

Lemma pure_keeps {W V A} (view : W → V) (n : N W A) : pure_node n → keeps view n.
Proof. intros Hn ans w. by rewrite Hn. Qed.
Lemma keeps_bind {W V A B} (view : W → V) (n : N W A) (k : A → N W B) :
  keeps view n → (∀ a, keeps view (k a)) → keeps view (n ≫= k).
Proof.
  intros Hn Hk ans w. cbv [mbind N_bind]. specialize (Hn ans w).
  destruct (n (ans, w)) as [[ans' w'] [a|e|p]]; cbn in *; [rewrite <-Hn; apply Hk|done|done].
Qed.
Lemma keeps_except {W V A} (view : W → V) (n h : N W A) c :
  keeps view n → keeps view h → keeps view (except n c h).
Proof.
  intros Hn Hh ans w. unfold except. specialize (Hn ans w).
  destruct (n (ans, w)) as [[ans' w'] [a|e|p]]; cbn in *; [done| |done].
  case_decide; [|done]. rewrite <-Hn. apply Hh.
Qed.
(** A part the update of another part leaves alone. *)
Lemma keeps_zoom {W V U A} (view : W → V) (update : V → W → W) (other : W → U) (n : N V A) :
  (∀ v w, other (update v w) = other w) → keeps other (zoom view update n).
Proof. intros Hu ans w. unfold zoom. by destruct (n (ans, view w)) as [[ans' v'] o]; cbn. Qed.
Create HintDb keeps.
#[export] Hint Resolve keeps_bind keeps_except : keeps.
#[export] Hint Extern 2 (keeps _ (zoom _ _ _)) => apply keeps_zoom; intros; reflexivity : keeps.
Ltac keeps_steps :=
  repeat first
    [ progress intros | solve [apply pure_keeps; auto 3 with pure] | apply keeps_bind | apply keeps_except
    | solve [apply keeps_zoom; intros; reflexivity] | solve [auto 3 with keeps] | case_match | case_bool_decide ].

Lemma ask_person_pure {W} : pure_node (W:=W) ask_person_question.
Proof. unfold ask_person_question. pure_steps. Qed.
#[export] Hint Resolve ask_person_pure : pure.
Lemma settle_pure {W} d : pure_node (W:=W) (settle_person_request d).
Proof. unfold settle_person_request. pure_steps. Qed.
#[export] Hint Resolve settle_pure : pure.
Lemma readback_pure {W} q r c : pure_node (W:=W) (readback_decision q r c).
Proof. unfold readback_decision. pure_steps. Qed.
#[export] Hint Resolve readback_pure : pure.

(** ** What a yes needs *)
Definition says_yes (cancel_action : bool) (a : answer) : Prop :=
  classify_confirmation a cancel_action = inr (mkDecision (decided yes) None).

Lemma settle_done {W} d ans (w : W) s' d' : settle_person_request d (ans, w) = (s', Done d') →
  verdict d' = decided yes → s' = (ans, w) ∧ d' = d.
Proof.
  unfold settle_person_request. case_bool_decide as Hh; [|by intros [= <- <-]].
  intros (c & s1 & _ & Hr)%bind_done Hy. case_bool_decide; injection Hr as <- <-; [|done].
  destruct Hh as [Hh _]. by rewrite Hh in Hy.
Qed.

Lemma classify_confirmation_yes a c d : classify_confirmation a c = inr d →
  verdict d = decided yes → d = mkDecision (decided yes) None.
Proof.
  unfold classify_confirmation, handoff_decision. munfold.
  destruct (answer_source a) as [v|]; [destruct (HandoffSource_of v); intros; by simplify_eq/=|].
  destruct (readback_interrupted a); intros [= <-]; cbn; [done|]. by intros ->.
Qed.

(** The replies consumed end with a yes. *)
Definition heard_yes (cancel_action : bool) (ans rest : list answer) : Prop :=
  ∃ before reply, ans = before ++ reply :: rest ∧ says_yes cancel_action reply.

(** A readback only ends in a yes on the last reply it heard. *)
Lemma readback_yes {W} q r c ans (w : W) s' d :
  readback_decision q r c (ans, w) = (s', Done d) → verdict d = decided yes → heard_yes c ans s'.1.
Proof.
  unfold heard_yes, readback_decision. intros (a & s1 & Ha & H)%bind_done Hy.
  apply ask_done in Ha as (rest & -> & ->).
  apply bind_done in H as (d1 & s1 & Hd1 & H). apply val_done in Hd1 as [Hd1 ->].
  apply bind_done in H as (d2 & s2 & Hd2 & H). case_bool_decide as Hu.
  - apply bind_done in H as (a' & s3 & Ha' & H). destruct s2 as [ans2 w2].
    apply ask_done in Ha' as (rest2 & -> & ->).
    apply bind_done in H as (d3 & s3 & Hd3 & H). apply val_done in Hd3 as [Hd3 ->].
    apply settle_done in H as [-> ->]; [|done].
    assert (∃ mid, rest = mid ++ a' :: rest2) as [mid ->].
    { clear -Hd2. revert Hd2. unfold settle_person_request. case_bool_decide.
      - intros (c1 & s1 & Hc & Hr)%bind_done. assert (s1 = (a' :: rest2, w2)) as ->.
        { case_bool_decide; by injection Hr as <- _. }
        revert Hc. unfold ask_person_question. intros (b & s2 & Hb & Hk)%bind_done.
        apply ask_done in Hb as (rest' & -> & ->).
        apply bind_done in Hk as (d4 & s4 & Hd4 & Hk). apply val_done in Hd4 as [_ ->].
        case_bool_decide; [|injection Hk as <- <- _; by exists [b]].
        apply bind_done in Hk as (b' & s5 & Hb' & Hk). apply ask_done in Hb' as (r2 & -> & ->).
        apply val_done in Hk as [_ [= <- <-]]. by exists [b; b'].
      - intros [= -> -> _]. by exists []. }
    exists (a :: mid), a'. split; [done|]. unfold says_yes. rewrite Hd3. f_equal.
    by eapply classify_confirmation_yes.
  - injection H as <- <-. apply settle_done in Hd2 as [-> ->]; [|done].
    exists [], a. split; [done|]. unfold says_yes. rewrite Hd1. f_equal. by eapply classify_confirmation_yes.
Qed.
