(* ===== verification/Stepup.v ===== *)
(** * The step-up chain (agents/support/_stepup.py)

    The shared risk, dispatch and collect nodes of a subject-bound step-up and
    their routers, one family of a pending type at a time, over the
    verification store and a risk port; and the collect loop they form.

    [_pending]'s check of the channel's type is the type of [fam_pending].
    Telemetry is not modelled. *)

From S2P Require Import Prelude PyText Spoken Profile Verification OtpProvider ProofStore Consent Confirmation.
From S2P Require Import Requests Reasoning Nodes.
Local Open Scope Z_scope.
Local Open Scope list_scope.

(** The risk port as the graph sees it; the fixture provider implements it. *)
Class RiskPort (R : Type) := {
  risk_tenant_id : R → string;
  risk_assess : R → RiskSubject → res RiskDecision }.
#[export] Instance RiskProvider_port : RiskPort RiskProvider :=
  {| risk_tenant_id := rk_tenant_id; risk_assess := assess |}.

(** [_SteppablePending]: the challenge state shared by each family. *)
Class Steppable (T : Type) := {
  attempt_key : T → string;
  pending_challenge_id : T → option string;
  with_challenge_id : string → T → T }.

#[export] Instance PendingRefund_steppable : Steppable PendingRefund :=
  {| attempt_key := pr_attempt_key; pending_challenge_id := pr_challenge_id;
     with_challenge_id c p := mkPendingRefund (pr_order_id p) (pr_summary p) (pr_amount_usd p)
       (pr_destination p) (pr_instrument_ref p) (pr_customer_ref p) (pr_factor_ref p)
       (pr_idempotency_key p) (pr_attempt_key p) (Some c) (pr_created_at p) |}.
#[export] Instance PendingProfileChange_steppable : Steppable PendingProfileChange :=
  {| attempt_key := pf_attempt_key; pending_challenge_id := pf_challenge_id;
     with_challenge_id c p := mkPendingProfile (pf_customer_ref p) (pf_field p) (pf_new_value p)
       (pf_factor_ref p) (pf_idempotency_key p) (pf_attempt_key p) (Some c) (pf_created_at p) |}.
#[export] Instance PendingIdentity_steppable : Steppable PendingIdentity :=
  {| attempt_key := pi_attempt_key; pending_challenge_id := pi_challenge_id;
     with_challenge_id c p := mkPendingIdentity (pi_customer_ref p) (pi_masked_contact p)
       (pi_factor_ref p) (pi_attempt_key p) (Some c) |}.

Inductive StepupRoute := to_handover | to_confirm | to_dispatch | to_collect.
#[export] Instance StepupRoute_eq_dec : EqDecision StepupRoute.
Proof. solve_decision. Defined.

Definition verification_handover : HandoffRequest :=
  mkHandoff hr_verification_required DETERMINISTIC_POLICY.

Section stepup.
Context {P R T : Type} `{OtpPort P} `{RiskPort R} `{Steppable T}.

(** The arguments of [build_stepup_nodes]. *)
Record Family := mkFamily {
  fam_pending : ReasoningState → option T;
  fam_write : option T → Write;
  fam_required_level : T → Z;
  fam_subject : VerificationStore P → T → res VerificationSubject;
  fam_reuse_existing_proof : bool;
  fam_max_otp_attempts : Z }.
Context (fam : Family).

Notation node := (N (VerificationStore P) (list Write)).

Definition stepup_handover : list Write :=
  [fam_write fam None; W_execution_owner None; W_handover (Some verification_handover)].

Definition risk_check_node (risk : R) (st : ReasoningState) : node :=
  pending ← the (fam_pending fam st);
  store ← here;
  subject ← val (fam_subject fam store pending);
  decision ← val (risk_assess risk (inl subject));
  match decision with
  | BLOCKED => mret stepup_handover
  | CLEAR => mret []
  end.

Definition route_after_risk (now : Z) (store : VerificationStore P) (st : ReasoningState)
    : res StepupRoute :=
  if isSome (handover st) then inr to_handover
  else
    match fam_pending fam st with
    | None => raises AssertionError ""
    | Some pending =>
        if fam_reuse_existing_proof fam then
          subject ← fam_subject fam store pending;
          inr (if authorization_satisfies now store subject (fam_required_level fam pending)
               then to_confirm else to_dispatch)
        else inr to_dispatch
    end.

Definition dispatch_node (env : store_env) (st : ReasoningState) : node :=
  pending ← the (fam_pending fam st);
  store ← here;
  subject ← val (fam_subject fam store pending);
  challenge ← act (dispatch_otp env subject (attempt_key pending) (fam_max_otp_attempts fam));
  match pending_challenge_id pending with
  | Some id =>
      if String.eqb id (challenge_id challenge) then mret []
      else fail RuntimeError "OTP dispatch replay returned a different challenge"
  | None => mret [fam_write fam (Some (with_challenge_id (challenge_id challenge) pending))]
  end.

Definition COLLECT_PROMPT : string :=
  "For security, please read me the 6-digit code we just sent you.".

Definition collect_node (env : store_env) (st : ReasoningState) : node :=
  pending ← the (fam_pending fam st);
  match pending_challenge_id pending with
  | None => fail RuntimeError "OTP collect requires a dispatched challenge"
  | Some id =>
      reply ← ask COLLECT_PROMPT;
      outcome ← act (verify_otp env id (answer_text reply));
      match outcome with
      | VERIFIED | MISMATCHED => mret []
      | _ => mret stepup_handover
      end
  end.

Definition route_after_collect (now : Z) (store : VerificationStore P) (st : ReasoningState)
    : res StepupRoute :=
  if isSome (handover st) then inr to_handover
  else
    match fam_pending fam st with
    | None => raises AssertionError ""
    | Some pending =>
        match pending_challenge_id pending with
        | None => raises RuntimeError "OTP collect completed without a dispatched challenge"
        | Some id =>
            subject ← fam_subject fam store pending;
            inr (if challenge_satisfies now store id subject (fam_required_level fam pending)
                 then to_confirm else to_collect)
        end
    end.

(** ** The collect loop

    A visit is one resumed run of the collect node with a caller's reply and
    the routing after it; it either leaves the loop or comes back. *)
Record visit := mkVisit { vi_env : store_env; vi_reply : answer; vi_route_now : Z }.
Context (add_messages : list Message → list Message → list Message).

Definition collect_visit (v : visit) (st : ReasoningState) (store : VerificationStore P)
    : ReasoningState * VerificationStore P * res StepupRoute :=
  match collect_node (vi_env v) st ([vi_reply v], store) with
  | ((_, store'), Done ws) =>
      let st' := apply_update add_messages ws st in
      (st', store', route_after_collect (vi_route_now v) store' st')
  | ((_, store'), Raised e) => (st, store', inl e)
  | ((_, store'), Suspended _) => (st, store', inr to_collect)
  end.

(** The run over a list of visits: the state, the store, and the route it left by, if it did. *)
Fixpoint collect_loop (vs : list visit) (st : ReasoningState) (store : VerificationStore P)
    : ReasoningState * VerificationStore P * option (res StepupRoute) :=
  match vs with
  | [] => (st, store, None)
  | v :: vs =>
      match collect_visit v st store with
      | (st', store', inr to_collect) => collect_loop vs st' store'
      | (st', store', r) => (st', store', Some r)
      end
  end.
End stepup.
Arguments Family : clear implicits.

(** ** What a family owes the chain *)
Record family_ok {P T} `{OtpPort P} `{Steppable T} (fam : Family P T) : Prop := {
  fam_cleared am st : fam_pending fam (apply_update am (stepup_handover fam) st) = None;
  fam_kept am st : fam_pending fam (apply_update am [] st) = fam_pending fam st;
  fam_stable s s' p : tenant_id s' = tenant_id s → session_id s' = session_id s →
    fam_subject fam s' p = fam_subject fam s p }.

Section laws.
Context {T : Type} `{Steppable T}.
Context (fam : Family OtpProvider T) (am : list Message → list Message → list Message).
Context (Hfam : family_ok fam).
Implicit Types (s : VerificationStore OtpProvider) (st : ReasoningState) (v : visit).

(** A collect visit is due: the pending action's challenge was dispatched for its own subject. *)
Record awaiting st s (pending : T) (id : string) (subj : VerificationSubject)
    (said : list (string * VerificationSubject)) : Prop := {
  aw_handover : handover st = None;
  aw_pending : fam_pending fam st = Some pending;
  aw_challenge : pending_challenge_id pending = Some id;
  aw_subject : fam_subject fam s pending = inr subj;
  aw_level : fam_required_level fam pending ≤ 2;
  aw_dispatched : dget id (subjects_by_challenge s) = Some subj;
  aw_agree : agree s;
  aw_store : store_ok s said }.

(** The clock readings of a visit are sane, and visits follow one another. *)
Definition visit_ok v : Prop :=
  0 ≤ env_now (se_otp (vi_env v)) ∧ nonempty (strip (se_proof_id (vi_env v))) = true.
Fixpoint chronological (last : Z) (vs : list visit) : Prop :=
  match vs with
  | [] => True
  | v :: vs => last ≤ se_now (vi_env v) ∧ chronological (vi_route_now v) vs
  end.

(** How many more visits a challenge can take: its attempts and the last answer. *)
Definition visits_left (last : Z) s (id : string) : nat :=
  match dget id (challenges (vs_otp s)) with
  | Some c =>
      match cst_verified_at_epoch c, dget id (proofs_by_challenge s) with
      | None, _ => S (Z.to_nat (cst_remaining_attempts c))
      | Some _, Some proof => if vp_expires_at_epoch proof <=? last then 1 else 2
      | Some _, None => 2
      end
  | None => 1
  end.

Definition spoken_code (a : answer) : string :=
  strip (if nonempty (spoken_digits (answer_text a)) then spoken_digits (answer_text a)
         else strip (answer_text a)).

Lemma proof_satisfies_own s said now id subj level proof :
  store_ok s said → level ≤ 2 → dget id (subjects_by_challenge s) = Some subj →
  dget id (proofs_by_challenge s) = Some proof →
  challenge_satisfies now s id subj level = (now <? vp_expires_at_epoch proof).
Proof.
  intros Hok Hl Hg Hp. destruct (so_proofs _ _ Hok _ _ Hp) as (subj' & Hg' & _ & H1 & H2 & H3 & H4 & H5).
  rewrite Hg in Hg'. injection Hg' as <-. unfold challenge_satisfies, proof_satisfies, raised_to, proof_is_fresh.
  rewrite Hp, bool_decide_eq_true_2, H1, H2, H3, H4, H5, !String.eqb_refl by done.
  rewrite (bool_decide_eq_true_2 (vs_purpose subj = _)), (proj2 (Z.leb_le _ _)) by done.
  cbn. by rewrite !andb_true_r.
Qed.

Lemma visits_decrease env id code subj s s' said' o p' status last route_now level :
  provider_ok (vs_otp s) → 0 ≤ env_now (se_otp env) → is_Some (dget id (challenges (vs_otp s))) →
  verify (se_otp env) id code (vs_otp s) = (p', inr o) → vs_otp s' = p' →
  store_ok s' said' → level ≤ 2 → dget id (subjects_by_challenge s') = Some subj →
  status = VERIFIED ∨ status = MISMATCHED →
  (ov_status o ≠ VERIFIED → status = ov_status o ∧ proofs_by_challenge s' = proofs_by_challenge s) →
  (ov_status o = VERIFIED → ∃ proof, dget id (proofs_by_challenge s') = Some proof ∧
    (dget id (proofs_by_challenge s) = Some proof ∨ dget id (proofs_by_challenge s) = None) ∧
    status = if proof_is_fresh (se_now env) proof then VERIFIED else EXPIRED) →
  challenge_satisfies route_now s' id subj level = false → last ≤ se_now env →
  (visits_left route_now s' id < visits_left last s id)%nat.
Proof.
  intros Hok Hnow [c Hc] Hver Hotp Hs' Hl Hd Hgo Hn Hv Hcs Hlast.
  pose proof (verify_life (se_otp env) id code (vs_otp s) Hnow Hok) as Hlife. rewrite Hver, Hc in Hlife.
  cbn in Hlife. unfold visits_left. rewrite Hotp, Hc.
  destruct (decide (ov_status o = VERIFIED)) as [E|E].
  - destruct (Hv E) as (proof & Hp & Hold & Hst).
    rewrite (proof_satisfies_own _ _ _ _ _ _ _ Hs' Hl Hd Hp) in Hcs. bools.
    unfold proof_is_fresh in Hst. destruct (Z.ltb_spec (se_now env) (vp_expires_at_epoch proof));
      [|by destruct Hgo; congruence].
    rewrite E, Hp in *. inversion Hlife as [q|q| |x v status' Hx Hs|x Hx|x Hx Hr|x x' Hx Hr Hx' Hr'|x x' v Hx Hr Hx'];
      simplify_eq.
    + rewrite Hx, (proj2 (Z.leb_le _ _)) by lia.
      destruct Hold as [-> | ->]; [|lia]. rewrite (proj2 (Z.leb_gt _ _)) by lia. lia.
    + destruct (_ =? 0); done.
    + rewrite Hx, Hx', (proj2 (Z.leb_le _ _)) by lia. lia.
  - destruct (Hn E) as [Hst Hp]. destruct Hgo as [-> | Hm]; [congruence|]. rewrite Hm in Hst. symmetry in Hst.
    rewrite Hst, Hp in *. inversion Hlife as [q|q| |x v status' Hx Hs|x Hx|x Hx Hr|x x' Hx Hr Hx' Hr'|x x' v Hx Hr Hx'];
      simplify_eq.
    + by destruct Hs.
    + destruct (_ =? 0) eqn:Hz; [done|]. bools. rewrite Hx, Hx', Hr'. lia.
Qed.

(** What a visit computes from the store's verdict. *)
Definition verdict_update (status : OtpVerificationStatus) : list Write :=
  match status with VERIFIED | MISMATCHED => [] | _ => stepup_handover fam end.
Lemma visit_eq v st s pending id status :
  fam_pending fam st = Some pending → pending_challenge_id pending = Some id →
  let r := verify_otp (vi_env v) id (answer_text (vi_reply v)) s in
  r.2 = inr status →
  collect_visit fam am v st s =
    let st' := apply_update am (verdict_update status) st in
    (st', r.1, route_after_collect fam (vi_route_now v) r.1 st').
Proof.
  intros Hp Hc r Hr. unfold collect_visit, collect_node. rewrite Hp. nunfold. rewrite Hc. cbn. fold r.
  rewrite (surjective_pairing r), Hr. by destruct status.
Qed.

(** Every visit returns: it leaves with the pending action dropped and a handover, leaves to the
    readback with the challenge satisfied, or comes back with fewer visits left. *)
Lemma visit_step v st s pending id subj said last :
  awaiting st s pending id subj said → visit_ok v →
  ∃ st' s' route, collect_visit fam am v st s = (st', s', inr route) ∧
    match route with
    | to_handover => fam_pending fam st' = None ∧ handover st' = Some verification_handover ∧
        execution_owner st' = None
    | to_confirm | to_collect =>
        st' = apply_update am [] st ∧
        (∃ said', awaiting st' s' pending id subj said' ∧ said ⊆ said' ∧
           (route = to_confirm → (id, subj) ∈ said')) ∧
        (route = to_confirm ↔ challenge_satisfies (vi_route_now v) s' id subj
                               (fam_required_level fam pending) = true) ∧
        (route = to_collect → last ≤ se_now (vi_env v) →
           (visits_left (vi_route_now v) s' id < visits_left last s id)%nat)
    | to_dispatch => False
    end.
Proof.
  intros [Hh Hp Hc Hsub Hl Hd Ha Hs] [Hnow Hpid].
  pose proof (run_store_call_ok (VVerify (vi_env v) id (answer_text (vi_reply v))) s said I Hs) as Hs'.
  cbn [run_store_call] in Hs'.
  destruct (verify_otp_returns s _ id (answer_text (vi_reply v)) subj Ha Hnow Hpid Hd)
    as (status & o & p' & Hr & Ha' & Ho & Hotp & Hsubs & Hsid & Hn & Hv).
  set (r := verify_otp (vi_env v) id (answer_text (vi_reply v)) s) in *.
  assert (tenant_id r.1 = tenant_id s) as Hten.
  { unfold tenant_id. rewrite Hotp. pose proof (verify_tenant (se_otp (vi_env v)) id
      (if nonempty (spoken_digits (answer_text (vi_reply v))) then spoken_digits (answer_text (vi_reply v))
       else strip (answer_text (vi_reply v))) (vs_otp s)) as Ht. by rewrite Ho in Ht. }
  rewrite (visit_eq v st s pending id status Hp Hc Hr). fold r.
  assert ((status = VERIFIED ∨ status = MISMATCHED) ∨ verdict_update status = stepup_handover fam)
    as [Hgo| ->] by (destruct status; auto).
  - assert (verdict_update status = []) as -> by (destruct Hgo as [-> | ->]; done).
    unfold route_after_collect at 1. cbn zeta.
    change (handover (apply_update am [] st)) with (handover st).
    rewrite Hh, (fam_kept _ Hfam), Hp, Hc, (fam_stable _ Hfam _ _ _ Hten Hsid), Hsub. cbn.
    eexists _, _, _. split; [done|].
    assert (awaiting (apply_update am [] st) r.1 pending id subj
      (provider_said (VVerify (vi_env v) id (answer_text (vi_reply v))) s ++ said)) as Haw.
    { split; try done; [by rewrite (fam_kept _ Hfam)| |by rewrite Hsubs].
      by rewrite (fam_stable _ Hfam _ _ _ Hten Hsid). }
    destruct (challenge_satisfies (vi_route_now v) r.1 id subj (fam_required_level fam pending)) eqn:Hcs.
    + split; [done|]. split; [|by split].
      eexists. split; [exact Haw|]. split; [set_solver|]. intros _.
      unfold challenge_satisfies in Hcs. bools.
      destruct (dget id (proofs_by_challenge r.1)) as [proof|] eqn:Hproof; [|done].
      destruct (so_proofs _ _ Hs' _ _ Hproof) as (subj' & Hg' & Hsaid & _).
      rewrite Hsubs, Hd in Hg'. by injection Hg' as <-.
    + split; [done|]. split; [eexists; split; [exact Haw|]; split; [set_solver|done]|]. split; [done|].
      intros _ Hlast. eapply visits_decrease; try done; [apply Ha| |by rewrite Hsubs|naive_solver].
      destruct Ha as [_ Hsc]. destruct (Hsc _ _ Hd) as [Hx _]. cbn in Hx. unfold provider_scope in Hx.
      by destruct (dget id (challenges (vs_otp s))).
  - cbn zeta. eexists _, _, _. split; [unfold route_after_collect; done|].
    split_and!; [apply (fam_cleared _ Hfam)|done|done].
Qed.

(** The whole loop, visit by visit. *)
Lemma loop_run vs : ∀ st s said pending id subj st' s' r,
  awaiting st s pending id subj said → Forall visit_ok vs →
  collect_loop fam am vs st s = (st', s', r) →
  match r with
  | None => ∃ said', awaiting st' s' pending id subj said'
  | Some (inr to_confirm) => ∃ said' now, awaiting st' s' pending id subj said' ∧ (id, subj) ∈ said' ∧
      challenge_satisfies now s' id subj (fam_required_level fam pending) = true
  | Some (inr to_handover) => fam_pending fam st' = None ∧ handover st' = Some verification_handover ∧
      execution_owner st' = None
  | _ => False
  end.
Proof.
  induction vs as [|v vs IH]; intros st s said pending id subj st' s' r Haw Hok; cbn.
  { intros [= <- <- <-]. by exists said. }
  apply Forall_cons in Hok as [Hv Hvs].
  destruct (visit_step v st s pending id subj said 0 Haw Hv) as (st1 & s1 & route & -> & Hr).
  destruct route; cbn in Hr.
  - intros [= <- <- <-]. exact Hr.
  - intros [= <- <- <-]. destruct Hr as (-> & (said' & Haw' & _ & Hin) & Hcs & _).
    exists said', (vi_route_now v). split; [exact Haw'|]. split; [by apply Hin|]. by apply Hcs.
  - done.
  - destruct Hr as (-> & (said' & Haw' & _) & _). by eapply IH.
Qed.

Lemma loop_ends vs : ∀ st s said pending id subj last,
  awaiting st s pending id subj said → Forall visit_ok vs → chronological last vs →
  (visits_left last s id ≤ length vs)%nat → is_Some (collect_loop fam am vs st s).2.
Proof.
  induction vs as [|v vs IH]; intros st s said pending id subj last Haw Hok Hch Hlen; cbn in *.
  - exfalso. unfold visits_left in Hlen. repeat case_match; lia.
  - apply Forall_cons in Hok as [Hv Hvs]. destruct Hch as [Hl Hch].
    destruct (visit_step v st s pending id subj said last Haw Hv) as (st1 & s1 & route & -> & Hr).
    destruct route; [done..|]. destruct Hr as (-> & (said' & Haw' & _) & _ & Hdec).
    eapply IH; [done..|]. specialize (Hdec eq_refl Hl). lia.
Qed.
End laws.

(** C32 The step-up dialogue ends, and only two ways: over the fixture provider, once a challenge
    is dispatched, whatever the caller replies and however long the visits are apart, at most
    one visit more than the challenge's remaining attempts leaves the collect loop, never with
    an exception: to the readback, with the pending action kept, the provider having verified
    this very subject for this challenge, and the challenge satisfying the required level; or
    to a human, with the pending action dropped and no flow owning the turn. *)
Theorem stepup_collect_terminates {T} `{Steppable T} (fam : Family OtpProvider T) am st s pending id subj
    said vs last c :
  family_ok fam → awaiting fam st s pending id subj said →
  Forall visit_ok vs → chronological last vs →
  dget id (challenges (vs_otp s)) = Some c → cst_verified_at_epoch c = None →
  (S (Z.to_nat (cst_remaining_attempts c)) ≤ length vs)%nat →
  ∃ st' s' route, collect_loop fam am vs st s = (st', s', Some (inr route)) ∧
    ((route = to_confirm ∧ fam_pending fam st' = Some pending ∧ handover st' = None ∧
      ∃ said' now, store_ok s' said' ∧ (id, subj) ∈ said' ∧
        challenge_satisfies now s' id subj (fam_required_level fam pending) = true) ∨
     (route = to_handover ∧ fam_pending fam st' = None ∧ execution_owner st' = None ∧
      handover st' = Some verification_handover)).
Proof.
  intros Hfam Haw Hok Hch Hc Hv Hlen.
  destruct (loop_ends fam am Hfam vs st s said pending id subj last Haw Hok Hch) as [r Hr].
  { unfold visits_left. by rewrite Hc, Hv. }
  destruct (collect_loop fam am vs st s) as [[st' s'] r'] eqn:E. cbn in Hr. subst r'.
  pose proof (loop_run fam am Hfam vs _ _ _ _ _ _ _ _ _ Haw Hok E) as Hrun.
  destruct r as [e|[]]; try done.
  - exists st', s', to_handover. split; [done|]. right. naive_solver.
  - destruct Hrun as (said' & now & [] & ? & ?). exists st', s', to_confirm. split; [done|]. left.
    split_and!; eauto.
Qed.

(** The right code, in time, is confirmed: while a challenge has attempts left and has not
    expired, a reply that speaks its code leaves the collect loop to the readback at that
    visit, provided the routing reads the clock before the proof expires. *)
Theorem stepup_right_code_confirms {T} `{Steppable T} (fam : Family OtpProvider T) am st s pending id subj
    said v vs c code :
  family_ok fam → awaiting fam st s pending id subj said → visit_ok v →
  dget id (challenges (vs_otp s)) = Some c → cst_verified_at_epoch c = None →
  dget id (proofs_by_challenge s) = None →
  0 < cst_remaining_attempts c → env_now (se_otp (vi_env v)) < expires_at_epoch (cst_challenge c) →
  expected (vs_otp s) c = Some code → spoken_code (vi_reply v) = code →
  se_now (vi_env v) < env_now (se_otp (vi_env v)) + proof_ttl_seconds (vs_otp s) →
  vi_route_now v < env_now (se_otp (vi_env v)) + proof_ttl_seconds (vs_otp s) →
  ∃ s', collect_loop fam am (v :: vs) st s = (apply_update am [] st, s', Some (inr to_confirm)).
Proof.
  intros Hfam Haw [Hnow Hpid] Hc Hcv Hnone Hrem Hexp Hcode Hreply Hst Hroute.
  pose proof Haw as [Hh Hp Hch Hsub Hl Hd Ha Hs].
  pose proof (run_store_call_ok (VVerify (vi_env v) id (answer_text (vi_reply v))) s said I Hs) as Hs'.
  destruct (verify_otp_returns s _ id (answer_text (vi_reply v)) subj Ha Hnow Hpid Hd)
    as (status & o & p' & Hr & Ha' & Ho & Hotp & Hsubs & Hsid & Hn & Hv).
  assert (o = mkVerification id VERIFIED (Some (rq_subject (cst_request c))) (Some (env_now (se_otp (vi_env v))))
    (Some (env_now (se_otp (vi_env v)) + proof_ttl_seconds (vs_otp s)))) as ->.
  { cbn [otp_verify OtpProvider_port] in Ho. revert Ho. unfold spoken_code in Hreply. unfold verify. munfold_goal.
    unfold expected in Hcode. rewrite Hc, Hcode, Hcv, Hreply, String.eqb_refl.
    rewrite (proj2 (Z.leb_gt _ _)), (proj2 (Z.leb_gt _ _)) by lia. cbn. intros [= _ Ho].
    by apply make_verification_ok in Ho. }
  destruct (Hv eq_refl) as (proof & Hproof & [Hold|(_ & v' & e & [= <-] & Hmk)] & ->); [congruence|].
  destruct Ha as [Hok Hsc]. destruct (Hsc _ _ Hd) as [_ Hvalid].
  apply make_proof_fields in Hmk as (_ & _ & _ & _ & _ & Hexpires); [|done].
  unfold proof_is_fresh in Hr. rewrite Hexpires, (proj2 (Z.ltb_lt _ _)) in Hr by lia.
  assert (tenant_id (verify_otp (vi_env v) id (answer_text (vi_reply v)) s).1 = tenant_id s) as Hten.
  { unfold tenant_id. rewrite Hotp. pose proof (verify_tenant (se_otp (vi_env v)) id
      (if nonempty (spoken_digits (answer_text (vi_reply v))) then spoken_digits (answer_text (vi_reply v))
       else strip (answer_text (vi_reply v))) (vs_otp s)) as Ht. by rewrite Ho in Ht. }
  eexists. cbn [collect_loop]. rewrite (visit_eq fam am v st s pending id VERIFIED Hp Hch Hr). cbn zeta.
  unfold route_after_collect. cbn [verdict_update].
  change (handover (apply_update am [] st)) with (handover st).
  rewrite Hh, (fam_kept _ Hfam), Hp, Hch, (fam_stable _ Hfam _ _ _ Hten Hsid), Hsub. cbn -[challenge_satisfies verify_otp].
  cbn [run_store_call] in Hs'.
  rewrite (proof_satisfies_own _ _ (vi_route_now v) id subj _ proof Hs' Hl) by (by rewrite ?Hsubs).
  rewrite Hexpires, (proj2 (Z.ltb_lt _ _)) by lia. done.
Qed.

(** ** Dispatch leads to collection *)
Record family_stores {P T} `{OtpPort P} `{Steppable T} (fam : Family P T) : Prop := {
  fam_stored am st p : fam_pending fam (apply_update am [fam_write fam (Some p)] st) = Some p;
  fam_quiet am st p : handover (apply_update am [fam_write fam (Some p)] st) = handover st;
  fam_challenge c p : pending_challenge_id (T:=T) (with_challenge_id c p) = Some c;
  fam_same_subject c s p : fam_subject fam s (with_challenge_id c p) = fam_subject fam s p;
  fam_same_level c p : fam_required_level fam (with_challenge_id c p) = fam_required_level fam p }.

(** A dispatch that returns leaves a collect visit due, for the pending action's own subject. *)
Lemma dispatch_awaits {T} `{Steppable T} (fam : Family OtpProvider T) am env st s s' ws pending subj said ans ans' :
  family_ok fam → family_stores fam →
  handover st = None → fam_pending fam st = Some pending → pending_challenge_id pending = None →
  fam_subject fam s pending = inr subj → VerificationSubject_valid subj = true →
  fam_required_level fam pending ≤ 2 → agree s → store_ok s said → env_ok (vs_otp s) (se_otp env) →
  dispatch_node fam env st (ans, s) = ((ans', s'), Done ws) →
  ∃ c, awaiting fam (apply_update am ws st) s' (with_challenge_id c pending) c subj said.
Proof.
  intros Hfam Hst Hh Hp Hc Hsub Hvalid Hl [Hok Hsc] Hs Henv.
  unfold dispatch_node. rewrite Hp. nunfold. rewrite Hsub.
  pose proof (run_store_call_ok (VDispatch env subj (attempt_key pending) (fam_max_otp_attempts fam)) s said
    Hvalid Hs) as Hs'. cbn [run_store_call provider_said app] in Hs'.
  destruct (dispatch_otp env subj (attempt_key pending) (fam_max_otp_attempts fam) s) as [s1 [e|c]] eqn:E;
    [done|]. rewrite Hc. cbn in Hs'. intros [= <- <- <-]. exists (challenge_id c).
  assert (tenant_id s1 = tenant_id s ∧ session_id s1 = session_id s ∧ agree s1 ∧
    dget (challenge_id c) (subjects_by_challenge s1) = Some subj) as (Ht & Hsid & Ha & Hg).
  { revert E. unfold dispatch_otp, with_otp. munfold_goal.
    destruct (_ && _); [|done]. destruct (make_OtpChallengeRequest _ _ _) as [|rq] eqn:Erq; [done|].
    assert (rq_subject rq = subj) as Hrq.
    { revert Erq. unfold make_OtpChallengeRequest, non_empty_text. munfold.
      intros. mcases. done. }
    destruct (otp_dispatch _ _ _) as [p' [err|c']] eqn:Ep; [done|].
    destruct (dispatch_lawful _ _ _ _ _ Hok Henv Ep) as (Hok' & Hmono & Hnew).
    pose proof (dispatch_tenant (se_otp env) rq (vs_otp s)) as Ht. rewrite Ep in Ht. cbn in Ht. cbn [subjects_by_challenge].
    specialize (Hnew _ eq_refl). rewrite Hrq in Hnew.
    assert (∀ b : bool, (let (s', s0) := (if b then λ s0 : VerificationStore OtpProvider, (s0, inr tt)
        else λ s0, (s0, inl (Exc VerificationContractError "OTP challenge changed authority scope")))
          (mkVStore p' (session_id s) (subjects_by_challenge s) (proofs_by_challenge s)) in
      match s0 with inl e => (s', inl e) | inr _ => (set_subjects (dset (challenge_id c') subj) s', inr c') end)
      = (s1, inr c) → s1 = set_subjects (dset (challenge_id c') subj)
        (mkVStore p' (session_id s) (subjects_by_challenge s) (proofs_by_challenge s)) ∧ c = c') as Hb.
    { intros []; naive_solver. }
    intros [-> ->]%Hb. split_and!; [done|done| |cbn; by rewrite dget_dset_eq].
    split; [done|]. intros id subj'. cbn. rewrite dget_dset. case_decide; subst.
    - by intros [= <-].
    - intros Hg. destruct (Hsc _ _ Hg) as [? ?]. split; [by apply Hmono|done]. }
  split.
  - by rewrite (fam_quiet _ Hst).
  - apply (fam_stored _ Hst).
  - apply (fam_challenge _ Hst).
  - by rewrite (fam_same_subject _ Hst), (fam_stable _ Hfam _ _ _ Ht Hsid).
  - by rewrite (fam_same_level _ Hst).
  - done.
  - done.
  - done.
Qed.

(** ** Examples *)
Definition demo_family : Family OtpProvider PendingRefund :=
  mkFamily pending_refund W_pending_refund (λ p, refund_required_level (pr_amount_usd p) (pr_destination p))
    (λ s p, subject s (default "" (pr_customer_ref p)) (default "" (pr_factor_ref p)) purpose_refund)
    true 3.
Definition demo_pending : PendingRefund :=
  mkPendingRefund "ORD-1" "a jacket" 2500 new_instrument "card ending 42" (Some "cust-1") (Some "f-1")
    "k-1" "d-1" (Some "ch-1") 90.
Definition demo_state : ReasoningState := apply_update app [W_pending_refund (Some demo_pending)] initial_state.
Definition demo_visit (now : Z) (text : string) : visit :=
  mkVisit (demo_env now "") (mkAnswer None text false) (now + 1).

Lemma demo_family_ok : family_ok demo_family.
Proof. split; try done. intros s s' p Ht Hs. cbn [fam_subject demo_family]. unfold subject. by rewrite Ht, Hs. Qed.

Lemma demo_awaiting : awaiting demo_family demo_state demo_vdispatched demo_pending "ch-1" demo_subject [].
Proof.
  assert (store_run demo_vstore []) as H0 by (by apply (run_new demo_provider "s-1")).
  apply (run_call (VDispatch (demo_env 100 "ch-1") demo_subject "d-1" 3)) in H0; [|by vm_compute].
  split; try done.
  - split; [apply demo_dispatched_ok|]. intros id subj Hg%dget_Some_elem.
    change (subjects_by_challenge demo_vdispatched) with [("ch-1", demo_subject)] in Hg.
    apply list_elem_of_singleton in Hg. injection Hg as -> ->. split; by vm_compute.
  - by apply store_run_ok in H0.
Qed.

Lemma stepup_collect_terminates_witness :
  ∃ st' s' route, collect_loop demo_family app [demo_visit 110 "1 2 3"; demo_visit 112 "no idea";
      demo_visit 114 "one"; demo_visit 116 "four eight two nine one three"] demo_state demo_vdispatched =
    (st', s', Some (inr route)) ∧ (route = to_confirm ∨ route = to_handover).
Proof.
  destruct (stepup_collect_terminates demo_family app demo_state demo_vdispatched demo_pending "ch-1"
    demo_subject [] [demo_visit 110 "1 2 3"; demo_visit 112 "no idea"; demo_visit 114 "one";
      demo_visit 116 "four eight two nine one three"] 100
    (mkState demo_request (mkChallenge "ch-1" 400) 3 None None)) as (st' & s' & route & Hrun & Hr).
  - apply demo_family_ok.
  - apply demo_awaiting.
  - repeat constructor; by vm_compute.
  - cbn. lia.
  - by vm_compute.
  - done.
  - cbn. lia.
  - exists st', s', route. split; [exact Hrun|]. destruct Hr as [[-> _]|[-> _]]; [by left|by right].
Defined.

Lemma stepup_right_code_confirms_witness :
  ∃ s', collect_loop demo_family app [demo_visit 120 "four eight two nine one three"] demo_state
    demo_vdispatched = (apply_update app [] demo_state, s', Some (inr to_confirm)).
Proof.
  refine (stepup_right_code_confirms demo_family app demo_state demo_vdispatched demo_pending "ch-1"
    demo_subject [] (demo_visit 120 "four eight two nine one three") []
    (mkState demo_request (mkChallenge "ch-1" 400) 3 None None) "482913" _ _ _ _ _ _ _ _ _ _ _ _);
    first [exact demo_family_ok | exact demo_awaiting | by vm_compute | idtac].
Defined.
