(* ===== verification/SupportBase.v ===== *)
(** * The support flow: session, clock and proposals (agents/support/flow.py)

    The objects the support nodes are closed over, what a node reads of the
    world in one run, the phrases of the readbacks, the eligibility checks the
    sub-paths share, and the proposals they mint.

    Telemetry and logging are not modelled.  A run of a node reads the clock
    once: [time.time()] is [ne_now] and the [i]-th [uuid.uuid4().hex] of the
    run is [ne_fresh env i]. *)

From S2P Require Import Prelude PyText Money Cart Orders OrderScope OrderStore Identity Profile.
From S2P Require Import Verification Consent Confirmation SessionState Requests Reasoning Nodes Stepup.
Local Open Scope Z_scope.
Local Open Scope list_scope.

(** ** The delivery instant (commerce/orders.py [OrderStore.delivered_at_epoch]) *)
Definition two_digit_field (a b : ascii) (bound : Z) : option Z :=
  if is_digit a && is_digit b then
    let n := 10 * digit_val a + digit_val b in if n <? bound then Some n else None
  else None.

(** The zone of an instant, in seconds east of UTC. *)
Definition zone_offset (s : string) : option Z :=
  match s with
  | "Z" => Some 0
  | String sign (String h1 (String h2 (String ":" (String m1 (String m2 ""))))) =>
      match two_digit_field h1 h2 24, two_digit_field m1 m2 60 with
      | Some h, Some m =>
          if Ascii.eqb sign "+" then Some (3600 * h + 60 * m)
          else if Ascii.eqb sign "-" then Some (- (3600 * h + 60 * m))
          else None
      | _, _ => None
      end
  | _ => None
  end.

(** [datetime.fromisoformat(s).timestamp()] of an aware instant with whole seconds,
    "YYYY-MM-DDTHH:MM:SSZ" or with an offset; other forms are outside the model and raise. *)
Definition timestamp (s : string) : res Z :=
  match strptime (String.substring 0 10 s), String.substring 10 (String.length s - 10) s with
  | Some d, String "T" (String h1 (String h2 (String ":" (String m1 (String m2 (String ":"
        (String s1 (String s2 zone)))))))) =>
      match two_digit_field h1 h2 24, two_digit_field m1 m2 60, two_digit_field s1 s2 60,
            zone_offset zone with
      | Some h, Some m, Some sec, Some off =>
          inr ((toordinal d - 719163) * 86400 + 3600 * h + 60 * m + sec - off)
      | _, _, _, _ => raises ValueError "Invalid isoformat string"
      end
  | _, _ => raises ValueError "Invalid isoformat string"
  end.

Definition delivered_at_epoch (s : OrderStore) (order_id : string) : res (option Z) :=
  match dget (canon order_id) (orders s) with
  | Some entry =>
      match oe_delivered_at entry with
      | Some text => t ← timestamp text; inr (Some t)
      | None => inr None
      end
  | None => inr None
  end.

(** ** The session a node runs in *)
Record World (P PS R : Type) := mkWorld {
  w_orders : OrderStore;
  w_session : Session (P:=PS);
  w_verification : VerificationStore P;
  w_risk : R;
  w_profiles : ProfileStore;
  w_instruments : PaymentInstrumentDirectory;
  w_customers : CustomerDirectory;
  w_identity : CallerIdentityStore;
  w_auth_denials : list (string * Z) }.
Arguments mkWorld {P PS R}. Arguments w_orders {P PS R}. Arguments w_session {P PS R}.
Arguments w_verification {P PS R}. Arguments w_risk {P PS R}. Arguments w_profiles {P PS R}.
Arguments w_instruments {P PS R}. Arguments w_customers {P PS R}. Arguments w_identity {P PS R}.
Arguments w_auth_denials {P PS R}.

(** What one run of a node observes. *)
Record node_env (E : Type) := mkNodeEnv {
  ne_now : Z; ne_fresh : nat → string; ne_store : store_env; ne_publish : E }.
Arguments mkNodeEnv {E}. Arguments ne_now {E}. Arguments ne_fresh {E}. Arguments ne_store {E}.
Arguments ne_publish {E}.

Section views.
Context {P PS R : Type}.
Notation W := (World P PS R).
Implicit Types w : W.

Definition set_orders (o : OrderStore) w : W :=
  mkWorld o (w_session w) (w_verification w) (w_risk w) (w_profiles w) (w_instruments w)
    (w_customers w) (w_identity w) (w_auth_denials w).
Definition set_session (s : Session (P:=PS)) w : W :=
  mkWorld (w_orders w) s (w_verification w) (w_risk w) (w_profiles w) (w_instruments w)
    (w_customers w) (w_identity w) (w_auth_denials w).
Definition set_verification (v : VerificationStore P) w : W :=
  mkWorld (w_orders w) (w_session w) v (w_risk w) (w_profiles w) (w_instruments w)
    (w_customers w) (w_identity w) (w_auth_denials w).
Definition set_profiles (p : ProfileStore) w : W :=
  mkWorld (w_orders w) (w_session w) (w_verification w) (w_risk w) p (w_instruments w)
    (w_customers w) (w_identity w) (w_auth_denials w).
Definition set_identity (i : CallerIdentityStore) w : W :=
  mkWorld (w_orders w) (w_session w) (w_verification w) (w_risk w) (w_profiles w) (w_instruments w)
    (w_customers w) i (w_auth_denials w).
Definition set_denials (d : list (string * Z)) w : W :=
  mkWorld (w_orders w) (w_session w) (w_verification w) (w_risk w) (w_profiles w) (w_instruments w)
    (w_customers w) (w_identity w) d.

Definition on_orders {A} (m : M OrderStore A) : N W A := zoom w_orders set_orders (act m).
Definition on_session {A} (m : SM (P:=PS) A) : N W A := zoom w_session set_session (act m).
Definition on_verification {A} (m : M (VerificationStore P) A) : N W A :=
  zoom w_verification set_verification (act m).
Definition on_profiles {A} (m : M ProfileStore A) : N W A := zoom w_profiles set_profiles (act m).
Definition on_identity {A} (m : M CallerIdentityStore A) : N W A :=
  zoom w_identity set_identity (act m).
Definition in_verification {A} (n : N (VerificationStore P) A) : N W A :=
  zoom w_verification set_verification n.

(** The live objects of the session's projection. *)
Definition w_guest w : Guest.GuestOrderScope := pj_guest (projection (coordinator (w_session w))).
Definition w_recent w : Recent.RecentOrderContext := pj_recent (projection (coordinator (w_session w))).
Definition w_cart w : CartStore := pj_cart (projection (coordinator (w_session w))).

(** Runs over one part of the world. *)
Lemma on_session_done {A} (m : SM (P:=PS) A) ans w s' a : on_session m (ans, w) = (s', Done a) →
  ∃ s1, m (w_session w) = (s1, inr a) ∧ s' = (ans, set_session s1 w).
Proof.
  unfold on_session, zoom, act. destruct (m (w_session w)) as [s1 [e|b]]; [done|]. intros [= <- <-]. by exists s1.
Qed.
Lemma on_orders_done {A} (m : M OrderStore A) ans w s' a : on_orders m (ans, w) = (s', Done a) →
  ∃ o1, m (w_orders w) = (o1, inr a) ∧ s' = (ans, set_orders o1 w).
Proof.
  unfold on_orders, zoom, act. destruct (m (w_orders w)) as [s1 [e|b]]; [done|]. intros [= <- <-]. by exists s1.
Qed.

Lemma on_session_ran {A} (m : SM (P:=PS) A) ans w s1 a : m (w_session w) = (s1, inr a) →
  on_session m (ans, w) = ((ans, set_session s1 w), Done a).
Proof. unfold on_session, zoom, act. by intros ->. Qed.
Lemma on_orders_ran {A} (m : M OrderStore A) ans w o1 a : m (w_orders w) = (o1, inr a) →
  on_orders m (ans, w) = ((ans, set_orders o1 w), Done a).
Proof. unfold on_orders, zoom, act. by intros ->. Qed.
End views.

(** ** Lines and handovers *)
Definition say (line : string) : Write := W_messages [AIMessage line []].
Definition hand_to (reason : HandoffReasonCode) (source : HandoffSource) : Write :=
  W_handover (Some (mkHandoff reason source)).
Definition usd (cents : Z) : string := "$" +:+ str_usd cents.

Definition destination_text (d : RefundDestination) : string :=
  match d with
  | original => "original" | new_instrument => "new_instrument" | new_address => "new_address"
  end.

(** ** Readback phrases *)
Definition refund_confirmation_phrase (pending : PendingRefund) (policy : ToolConfirmationPolicy)
    : res string :=
  let rendered := [("order_id", pr_order_id pending); ("total_amount", usd (pr_amount_usd pending));
                   ("new_payment_instrument_ref", pr_instrument_ref pending)] in
  let phrase := "a " +:+ usd (pr_amount_usd pending) +:+ " refund on your order for " +:+
    pr_summary pending +:+ " (" +:+ pr_order_id pending +:+ ") to your " +:+
    pr_instrument_ref pending in
  validate_confirmation_rendering policy rendered phrase.

Definition return_confirmation_phrase (pending : PendingReturn) (policy : ToolConfirmationPolicy)
    : res string :=
  let rendered := [("order_id", pn_order_id pending); ("total_amount", usd (pn_refund_due_usd pending))] in
  let phrase := "set up a return for your " +:+ pn_summary pending +:+ " (" +:+ pn_order_id pending +:+
    ")? You'll send the items back, and once we receive them the " +:+ usd (pn_refund_due_usd pending) +:+
    " refund goes to your original payment method" in
  validate_confirmation_rendering policy rendered phrase.

Definition profile_noun (f : ProfileField) : string :=
  match f with address => "delivery address" | contact => "contact number" end.

Definition profile_confirmation_phrase (pending : PendingProfileChange) : res string :=
  policy ← PROFILE_CHANGE_POLICIES (pf_field pending);
  let key := match pf_field pending with address => "new_address" | contact => "new_contact" end in
  let phrase := "update the " +:+ profile_noun (pf_field pending) +:+ " on your account to " +:+
    pf_new_value pending in
  validate_confirmation_rendering policy [(key, pf_new_value pending)] phrase.

Definition cancel_target_phrase (t : CancelTarget) : string :=
  "your order for " +:+ ct_summary t +:+ " (" +:+ ct_order_id t +:+ ")".

Definition ineligible_clause (o : BatchCancelOutcome) : string :=
  let named := "your order for " +:+ bo_summary o +:+ " (" +:+ bo_order_id o +:+ ")" in
  match bo_outcome o with
  | oc_already_cancelled => named +:+ " is already cancelled"
  | oc_has_refunds => named +:+ " already has a refund, so that one needs our support team"
  | _ => named +:+ " has already shipped, so that one needs a return instead"
  end.

(** ["; ".join(xs[:-1]) + f"; and {xs[-1]}"] *)
Definition join_and (phrases : list string) : string :=
  join "; " (removelast phrases) +:+ "; and " +:+ List.last phrases "".

Definition cancel_readback_line (pending : PendingCancelBatch) : string :=
  let eligible :=
    match cb_targets pending with
    | [t] => "cancel " +:+ cancel_target_phrase t
    | targets => "cancel " +:+ join_and (cancel_target_phrase <$> targets)
    end in
  let prefix :=
    match ineligible_clause <$> cb_ineligible pending with
    | [] => ""
    | [note] => capitalize_head note +:+ ". "
    | notes => capitalize_head (join_and notes) +:+ ". "
    end in
  prefix +:+ "Just to confirm - " +:+ eligible +:+ "? This can't be undone.".

(** A run of a confirm node: what was not expired and got a yes goes on, all else drops the action. *)
Ltac confirm_run Hrun :=
  nsteps;
  match type of Hrun with (if ?b then _ else _) _ = _ => destruct b eqn:? end;
  [nsteps; by right|];
  nsteps; apply bind_done in Hrun as (d & s1 & Hd & Hrun);
  destruct (verdict d) as [|c] eqn:Hv; [|destruct c]; nsteps;
  first [by right | left; bools; split_and!; [done|by eapply readback_yes|lia]].

(** ** Shared checks and proposals *)
Inductive ReturnReason := re_order_cancelled | re_not_shipped | re_already_open | re_out_of_window.
#[export] Instance ReturnReason_eq_dec : EqDecision ReturnReason.
Proof. solve_decision. Defined.

Section proposals.
Context {P PS R E : Type} `{OtpPort P}.
Context (policy : PolicyContext).
Notation W := (World P PS R).
Implicit Types (w : W) (env : node_env E).

Definition is_fulfilled (s : OrderStore) (order_id : string) : bool :=
  match order_status s order_id with Some st => bool_decide (st ∈ FULFILLED_STATUSES) | None => false end.

(** [_return_eligibility]: the reason a return is declined, [None] when it is eligible. *)
Definition return_eligibility (now : Z) (s : OrderStore) (order_id : string) : res (option ReturnReason) :=
  if bool_decide (order_status s order_id = Some CANCELLED_STATUS) then inr (Some re_order_cancelled)
  else if negb (is_fulfilled s order_id) then inr (Some re_not_shipped)
  else if isSome (return_for_order s order_id) then inr (Some re_already_open)
  else
    delivered ← delivered_at_epoch s order_id;
    inr (match delivered with
         | Some t => if return_window_days policy * 86400 <? now - t then Some re_out_of_window else None
         | None => None
         end).

Definition mint_cancel_batch env (targets : list (string * string)) : res PendingCancelBatch :=
  ts ← mapR (λ '(i, (oid, summary)), make_CancelTarget oid summary (ne_fresh env i))
         (imap pair targets);
  make_PendingCancelBatch ts (ne_now env).

Definition mint_refund env w (chosen : OrderCandidate) (amount_usd : Z)
    (destination : RefundDestination) : res (option PendingRefund) :=
  let pend instrument customer factor :=
    p ← make_PendingRefund (oc_order_id chosen) (oc_summary chosen) amount_usd destination instrument
          customer factor (ne_fresh env 0) (ne_fresh env 1) None (ne_now env);
    inr (Some p) in
  match destination with
  | original => pend "original payment method" None None
  | new_instrument =>
      let customer_ref :=
        match order_owner (w_orders w) (oc_order_id chosen) with
        | Some owner => Some owner
        | None => customer_ref <$> current (w_identity w)
        end in
      match customer_ref with
      | None => inr None
      | Some customer =>
          match new_instrument_ref (w_instruments w) customer with
          | None => inr None
          | Some instrument =>
              match verification_factor_ref (w_customers w) customer with
              | None => inr None
              | Some factor => pend instrument (Some customer) (Some factor)
              end
          end
      end
  | new_address => inr None
  end.

Definition mint_return env w (chosen : OrderCandidate) : res PendingReturn :=
  let refund_due := Z.max 0 (oc_total_usd chosen - refunded_so_far (w_orders w) (oc_order_id chosen)
                               - return_refund_due (w_orders w) (oc_order_id chosen)) in
  make_PendingReturn (oc_order_id chosen) (oc_summary chosen) refund_due (ne_fresh env 0) (ne_now env).

Definition mint_profile_change env w (field : ProfileField) (new_value : string)
    : res (option PendingProfileChange) :=
  match current (w_identity w) with
  | None => inr None
  | Some bound =>
      if negb (has_profile (w_profiles w) (customer_ref bound)) then inr None
      else
        match verification_factor_ref (w_customers w) (customer_ref bound) with
        | None => inr None
        | Some factor =>
            p ← make_PendingProfileChange (customer_ref bound) field new_value factor (ne_fresh env 0)
                  (ne_fresh env 1) None (ne_now env);
            inr (Some p)
        end
  end.

(** ** The families of the step-up chain *)
Definition refund_subject (s : VerificationStore P) (p : PendingRefund) : res VerificationSubject :=
  match pr_customer_ref p, pr_factor_ref p with
  | Some customer, Some factor => subject s customer factor purpose_refund
  | _, _ => raises ValueError "pending refund requires a complete verification subject"
  end.
Definition refund_level (p : PendingRefund) : Z :=
  refund_required_level (pr_amount_usd p) (pr_destination p).
Definition refund_stepup : Family P PendingRefund :=
  mkFamily pending_refund W_pending_refund refund_level refund_subject true (otp_max_attempts policy).

Definition profile_subject (s : VerificationStore P) (p : PendingProfileChange) : res VerificationSubject :=
  subject s (pf_customer_ref p) (pf_factor_ref p) purpose_profile.
Definition profile_stepup : Family P PendingProfileChange :=
  mkFamily pending_profile_change W_pending_profile_change
    (λ p, profile_change_required_level (pf_field p)) profile_subject true (otp_max_attempts policy).

(** [required > 1 and not authorization_satisfies(subject, required)] *)
Definition refund_unauthorized (now : Z) (s : VerificationStore P) (p : PendingRefund) : res bool :=
  let required := refund_level p in
  if 1 <? required then
    subj ← refund_subject s p;
    inr (negb (authorization_satisfies now s subj required))
  else inr false.

Lemma subject_stable (s s' : VerificationStore P) c f u :
  Verification.tenant_id s' = Verification.tenant_id s →
  Verification.session_id s' = Verification.session_id s → subject s' c f u = subject s c f u.
Proof. intros Ht Hs. unfold subject. by rewrite Ht, Hs. Qed.

Lemma refund_family_ok : family_ok refund_stepup.
Proof.
  split; try done. intros s s' p Ht Hs. cbn [fam_subject refund_stepup]. unfold refund_subject.
  repeat case_match; try done. by apply subject_stable.
Qed.
Lemma refund_family_stores : family_stores refund_stepup.
Proof. by split. Qed.
Lemma profile_family_ok : family_ok profile_stepup.
Proof.
  split; try done. intros s s' p Ht Hs. cbn [fam_subject profile_stepup]. by apply subject_stable.
Qed.
Lemma profile_family_stores : family_stores profile_stepup.
Proof. by split. Qed.
End proposals.
