(* ===== verification/Graph.v ===== *)
(** * Runs of a graph (langgraph's StateGraph, as agents/frontline/graph.py wires it)

    A graph is given by what its nodes run and by where its edges and routers
    send the turn; [E] is what a node's run observes of its surroundings.  A
    step is a node's last, completed run: the replies it heard are those it
    consumed from its first line on, and its update is applied before the
    router looks at the state.  A final node has no step. *)

From S2P Require Import Prelude Consent Requests Reasoning Nodes.
Local Open Scope list_scope.

Record config (node W : Type) := mkConfig { cf_node : node; cf_state : ReasoningState; cf_world : W }.
Arguments mkConfig {node W}. Arguments cf_node {node W}. Arguments cf_state {node W}. Arguments cf_world {node W}.
(** A completed run of a node: where it was, what it observed, the replies it heard. *)
Record event (node W E : Type) := mkEvent { ev_at : config node W; ev_env : E; ev_heard : list answer }.
Arguments mkEvent {node W E}. Arguments ev_at {node W E}. Arguments ev_env {node W E}. Arguments ev_heard {node W E}.

Section graph.
Context {node W E : Type} (run_node : node → E → ReasoningState → N W (list Write)).
Context (next_node : node → Z → W → ReasoningState → res node) (final : node → bool).
Context (am : list Message → list Message → list Message).
Implicit Types (c : config node W) (e : event node W E).

Inductive gstep c : event node W E → config node W → Prop :=
  | gstep_intro env heard w' ws now n' :
      final (cf_node c) = false →
      run_node (cf_node c) env (cf_state c) (heard, cf_world c) = (([], w'), Done ws) →
      next_node (cf_node c) now w' (apply_update am ws (cf_state c)) = inr n' →
      gstep c (mkEvent c env heard) (mkConfig n' (apply_update am ws (cf_state c)) w').

(** The run so far, newest event first. *)
Inductive runs (c0 : config node W) : list (event node W E) → config node W → Prop :=
  | runs_start : runs c0 [] c0
  | runs_step tr c e c' : runs c0 tr c → gstep c e c' → runs c0 (e :: tr) c'.

(** What a node keeps, its step keeps. *)
Lemma gstep_keeps {V} (view : W → V) c e c' : gstep c e c' →
  (∀ env, keeps view (run_node (cf_node c) env (cf_state c))) → view (cf_world c') = view (cf_world c).
Proof.
  intros [env heard w' ws now n' _ Hrun _] Hk. specialize (Hk env heard (cf_world c)). by rewrite Hrun in Hk.
Qed.
End graph.
Arguments gstep_intro {node W E run_node next_node final am}.
