(* ===== verification/SupportRefund.v ===== *)
(** * Refunds and returns (agents/support/flow.py)

    The refund and return sub-paths of the support flow: the guardrails that
    decide on live store state, the readbacks, the effect nodes and their
    finishers, and the routers between them. *)

From S2P Require Import Prelude PyText Money Cart Orders OrderScope OrderStore OrderLedger Identity Profile.
From S2P Require Import Verification OtpProvider ProofStore Consent Confirmation SessionState Requests.
From S2P Require Import Reasoning Nodes Stepup SupportBase.
Local Open Scope Z_scope.
Local Open Scope list_scope.

Inductive RefundRoute := rf_cancel | rf_return | rf_declined | rf_confirm | rf_stepup.
#[export] Instance RefundRoute_eq_dec : EqDecision RefundRoute.
Proof. solve_decision. Defined.

Section refund.
Context {P PS R E : Type} `{OtpPort P} `{SessionPersistence PS E}.
Context (policy : PolicyContext) (fingerprint : SessionRequest → string).
Notation W := (World P PS R).
Notation node := (N W (list Write)).
Implicit Types (w : W) (env : node_env E) (st : ReasoningState).

(** ** The refund guardrail *)
Definition refund_ends (line : string) : list Write :=
  [W_pending_refund None; W_execution_owner None; say line].

Definition guardrail_node env st : node :=
  pending ← the (pending_refund st);
  w ← here;
  let orders := w_orders w in
  let oid := pr_order_id pending in
  let amount := pr_amount_usd pending in
  if bool_decide (order_status orders oid = Some CANCELLED_STATUS) then
    mret (refund_ends
      "That order was already cancelled, so the charge is reversed - there's nothing left to refund on it.")
  else
    match return_for_order orders oid with
    | Some open_return =>
        mret (refund_ends ("A return is already set up for that order (" +:+ rr_rma_id open_return +:+
          ") - the " +:+ usd (rr_refund_due_usd open_return) +:+ " refund is issued once it's processed."))
    | None =>
        let captured := captured_total orders oid in
        if bool_decide (pr_destination pending = original)
           && (match captured with Some c => c <=? amount | None => false end)
           && (refunded_so_far orders oid =? 0) && is_cancellable orders oid
        then
          summary ← val (order_item_summary orders oid);
          batch ← val (mint_cancel_batch env [(oid, summary)]);
          mret [W_pending_refund None; W_pending_cancel (Some (pending_batch batch));
                say ("That order hasn't shipped yet, so I can cancel it instead - the full " +:+
                     usd (default 0 captured) +:+ " goes back to your original payment method.")]
        else if refund_require_human_above_usd policy <? amount then
          mret (refund_ends ("A " +:+ usd amount +:+ " refund is above what I can process on " +:+
            "this call - our support team can handle a refund that size for you."))
        else if is_fulfilled orders oid && (refund_returnless_under_usd policy <? amount) then
          reason ← val (return_eligibility policy (ne_now env) orders oid);
          if bool_decide (reason = Some re_out_of_window) then
            mret (refund_ends ("Since that order has already shipped, the " +:+ usd amount +:+
              " refund is issued once the return is set up - but that delivery is outside the " +:+
              str_int (return_window_days policy) +:+
              "-day return window, so our support team will need to review it."))
          else
            summary ← val (order_item_summary orders oid);
            pn ← val (make_PendingReturn oid (if nonempty summary then summary else oid) amount
                        (ne_fresh env 0) (ne_now env));
            mret [W_pending_refund None; W_pending_return (Some pn);
                  say ("Since that order has already shipped, the " +:+ usd amount +:+
                       " refund is issued once the return is set up - I can arrange that return for you now.")]
        else
          (** the level that is still missing is only recorded *)
          val (refund_unauthorized (se_now (ne_store env)) (w_verification w) pending) ;;
          mret []
    end.

Definition route_after_guardrail st : RefundRoute :=
  if isSome (pending_cancel st) then rf_cancel
  else if isSome (pending_return st) then rf_return
  else
    match pending_refund st with
    | None => rf_declined
    | Some pending => if refund_level pending =? 1 then rf_confirm else rf_stepup
    end.

(** ** The refund readback *)
Definition refund_confirm_node env st : node :=
  pending ← the (pending_refund st);
  if pending_ttl_seconds policy <? ne_now env - pr_created_at pending then
    mret (refund_ends ("That refund confirmation sat for a while, so I haven't processed anything. " +:+
      "If you'd still like it, just tell me again."))
  else
    contract ← val ISSUE_REFUND_POLICY;
    phrase ← val (refund_confirmation_phrase pending contract);
    decision ← readback_decision ("Just to confirm: " +:+ phrase +:+ ". Shall I go ahead?")
                 ("Sorry - just to be clear: " +:+ phrase +:+ ". Yes or no?") false;
    match verdict decision with
    | human =>
        source ← the (handoff_source decision);
        mret [W_pending_refund None; W_execution_owner None; hand_to hr_refund source]
    | decided no => mret (refund_ends "Okay, I won't refund anything - nothing has changed.")
    | decided unclear => mret (refund_ends "I didn't get a clear yes, so I haven't refunded anything.")
    | decided yes => mret []
    end.

(** ** The refund effect *)
Definition finish_refund env (idempotency_key : string) (record : RefundRecord) : node :=
  op ← val (recent_orders_operation_id op_refund idempotency_key);
  committed ← on_session (record_recent_orders fingerprint (ne_publish env) op [rf_order_id record]
                            op_refund None []);
  mret (refund_ends ("Done - your " +:+ usd (rf_amount_usd record) +:+ " refund is on its way to your " +:+
          rf_instrument_ref record +:+ ". Your reference is " +:+ rf_refund_id record +:+ ".")
        ++ [W_session_revision committed.2]).

Definition place_node env st : node :=
  pending ← the (pending_refund st);
  w ← here;
  lapsed ← val (refund_unauthorized (se_now (ne_store env)) (w_verification w) pending);
  if (lapsed : bool) then
    mret [W_pending_refund None; W_execution_owner None;
          hand_to hr_verification_required DETERMINISTIC_POLICY]
  else
    except
      (record ← on_orders (issue_refund (pr_idempotency_key pending) (pr_order_id pending)
                 (dec_of_cents (pr_amount_usd pending)) (destination_text (pr_destination pending))
                 (pr_instrument_ref pending));
       mret (inr record)) RefundError
      (mret (inl tt)) ≫= λ result,
    match result with
    | inl _ =>
        mret [W_pending_refund None; W_execution_owner None;
              say "I wasn't able to process that refund against the order - nothing has changed.";
              hand_to hr_refund DETERMINISTIC_POLICY]
    | inr record => finish_refund env (pr_idempotency_key pending) record
    end.

(** ** The return guardrail *)
Definition return_ends (line : string) : list Write :=
  [W_pending_return None; W_execution_owner None; say line].

Definition return_guardrail_node env st : node :=
  pending ← the (pending_return st);
  w ← here;
  let orders := w_orders w in
  let oid := pn_order_id pending in
  reason ← val (return_eligibility policy (ne_now env) orders oid);
  match reason with
  | Some re_order_cancelled =>
      mret (return_ends ("That order for " +:+ pn_summary pending +:+
        " was already cancelled and the charge reversed - there's nothing to return."))
  | Some re_not_shipped =>
      batch ← val (mint_cancel_batch env [(oid, pn_summary pending)]);
      captured ← val (match captured_total orders oid with
                      | Some c => inr c
                      | None => raises TypeError ""
                      end);
      mret [W_pending_return None; W_pending_cancel (Some (pending_batch batch));
            say ("That order hasn't shipped yet, so there's nothing to send back - " +:+
                 "I can cancel it instead; the full " +:+ usd captured +:+
                 " goes back to your original payment method.")]
  | Some re_already_open =>
      existing ← the (return_for_order orders oid);
      mret (return_ends ("A return for that order is already set up - your reference is " +:+
        rr_rma_id existing +:+ ". The " +:+ usd (rr_refund_due_usd existing) +:+
        " refund is issued once it's processed."))
  | Some re_out_of_window =>
      mret (return_ends ("That order was delivered more than " +:+ str_int (return_window_days policy) +:+
        " days ago, which is outside the return window - our support team can review an exception for you."))
  | None =>
      if refund_require_human_above_usd policy <? pn_refund_due_usd pending then
        mret (return_ends ("A " +:+ usd (pn_refund_due_usd pending) +:+ " refund is above what I can set up " +:+
          "on this call - our support team can arrange that return and refund for you."))
      else mret []
  end.

Inductive ReturnRoute := rn_cancel | rn_declined | rn_confirm.
Definition route_after_return_guardrail st : ReturnRoute :=
  if isSome (pending_cancel st) then rn_cancel
  else if negb (isSome (pending_return st)) then rn_declined
  else rn_confirm.

(** ** The return readback and effect *)
Definition return_confirm_node env st : node :=
  pending ← the (pending_return st);
  if pending_ttl_seconds policy <? ne_now env - pn_created_at pending then
    mret (return_ends ("That return confirmation sat for a while, so I haven't set anything up. " +:+
      "If you'd still like it, just tell me again."))
  else
    contract ← val CREATE_RETURN_POLICY;
    phrase ← val (return_confirmation_phrase pending contract);
    decision ← readback_decision ("Just to confirm - " +:+ phrase +:+ ". Shall I go ahead?")
                 ("Sorry - just to be clear: " +:+ phrase +:+ ". Yes or no?") false;
    match verdict decision with
    | human =>
        source ← the (handoff_source decision);
        mret [W_pending_return None; W_execution_owner None; hand_to hr_refund source]
    | decided no => mret (return_ends "Okay, I won't set up a return - nothing has changed.")
    | decided unclear => mret (return_ends "I didn't get a clear yes, so I haven't set up a return.")
    | decided yes => mret []
    end.

Definition finish_return env (idempotency_key : string) (record : ReturnRecord) : node :=
  op ← val (recent_orders_operation_id op_return idempotency_key);
  committed ← on_session (record_recent_orders fingerprint (ne_publish env) op [rr_order_id record]
                            op_return None []);
  mret (return_ends ("Done - your return for " +:+ rr_summary record +:+ " is set up; your reference is " +:+
          rr_rma_id record +:+ ". Send the items back, and once we receive them the " +:+
          usd (rr_refund_due_usd record) +:+ " refund goes to your original payment method.")
        ++ [W_session_revision committed.2]).

Definition return_place_node env st : node :=
  pending ← the (pending_return st);
  except
    (record ← on_orders (create_return (pn_idempotency_key pending) (pn_order_id pending)
               (dec_of_cents (pn_refund_due_usd pending)) "original");
     mret (inr record)) ReturnError
    (mret (inl tt)) ≫= λ result,
  match result with
  | inl _ =>
      mret [W_pending_return None; W_execution_owner None;
            say "I wasn't able to set up that return - nothing has changed.";
            hand_to hr_refund DETERMINISTIC_POLICY]
  | inr record => finish_return env (pn_idempotency_key pending) record
  end.
End refund.

Section tiers.
Context {P PS R E : Type} `{OtpPort P} (policy : PolicyContext) (am : list Message → list Message → list Message).
Notation W := (World P PS R).
Implicit Types (w : W) (env : node_env E) (st : ReasoningState).

Lemma mint_cancel_one env oid summary batch : mint_cancel_batch env [(oid, summary)] = inr batch →
  cb_targets batch = [mkCancelTarget oid summary (ne_fresh env 0)] ∧ cb_ineligible batch = [] ∧
  cb_outcomes batch = [] ∧ cb_created_at batch = ne_now env ∧
  nonempty oid = true ∧ nonempty summary = true.
Proof.
  unfold mint_cancel_batch, make_CancelTarget, make_PendingCancelBatch. cbn. munfold.
  destruct (_ && _) eqn:Hv; cbn; [|done]. intros [= <-]. by bools.
Qed.

Lemma refund_unauthorized_l1 now (s : VerificationStore P) p b :
  refund_unauthorized now s p = inr b → refund_level p ≤ 1 → b = false.
Proof. unfold refund_unauthorized. intros Hr Hl. rewrite (proj2 (Z.ltb_ge _ _)) in Hr by lia. by injection Hr. Qed.

Lemma eligible_but_window env w oid r :
  return_eligibility policy (ne_now env) (w_orders w) oid = inr r →
  order_status (w_orders w) oid ≠ Some CANCELLED_STATUS → is_fulfilled (w_orders w) oid = true →
  return_for_order (w_orders w) oid = None → r = None ∨ r = Some re_out_of_window.
Proof.
  unfold return_eligibility. intros Hr Hs Hf Ho. rewrite bool_decide_eq_false_2, Hf, Ho in Hr by done. cbn in Hr.
  munfold. destruct (delivered_at_epoch _ _) as [|[t|]]; [done|destruct (_ <? _)|]; simplify_eq; auto.
Qed.

(** The remedy the refund guardrail offers for an order nothing went back on: a full void. *)
Definition steers_to_cancel (o : OrderStore) (p : PendingRefund) : Prop :=
  pr_destination p = original ∧ (∃ c, captured_total o (pr_order_id p) = Some c ∧ c ≤ pr_amount_usd p) ∧
  refunded_so_far o (pr_order_id p) = 0 ∧ is_cancellable o (pr_order_id p) = true.

(** What each route after the guardrail means for the pending refund [p]. *)
Definition refund_tiers env w (p : PendingRefund) (st' : ReasoningState) (ws : list Write) : Prop :=
  let o := w_orders w in
  let oid := pr_order_id p in
  match route_after_guardrail st' with
  | rf_confirm | rf_stepup =>
      ws = [] ∧ order_status o oid ≠ Some CANCELLED_STATUS ∧ return_for_order o oid = None ∧
      ¬ steers_to_cancel o p ∧ pr_amount_usd p ≤ refund_require_human_above_usd policy ∧
      (is_fulfilled o oid = true → pr_amount_usd p ≤ refund_returnless_under_usd policy) ∧
      (route_after_guardrail st' = rf_confirm ↔ refund_level p = 1)
  | rf_cancel => ∃ batch summary, pending_cancel st' = Some (pending_batch batch) ∧
      mint_cancel_batch env [(oid, summary)] = inr batch ∧
      pending_refund st' = None ∧ steers_to_cancel o p
  | rf_return => ∃ pn, pending_return st' = Some pn ∧ pn_order_id pn = oid ∧
      pn_refund_due_usd pn = pr_amount_usd p ∧ pending_refund st' = None ∧
      is_fulfilled o oid = true ∧ refund_returnless_under_usd policy < pr_amount_usd p ∧
      pr_amount_usd p ≤ refund_require_human_above_usd policy ∧
      return_eligibility policy (ne_now env) o oid = inr None
  | rf_declined => ∃ line, ws = refund_ends line
  end.

Lemma guardrail_run env st ans w s' ws p :
  guardrail_node policy env st (ans, w) = (s', Done ws) →
  pending_refund st = Some p → pending_cancel st = None → pending_return st = None →
  s' = (ans, w) ∧ handover (apply_update am ws st) = handover st ∧
  refund_tiers env w p (apply_update am ws st) ws.
Proof.
  intros Hrun Hp Hc Hr. unfold refund_tiers. unfold guardrail_node in Hrun. rewrite Hp in Hrun. nsteps.
  case_bool_decide as Hcancel.
  { nsteps. split; [done|split; [done|]]. unfold route_after_guardrail. cbn. rewrite Hc, Hr. cbn. eauto. }
  destruct (return_for_order _ _) as [rr|] eqn:Hopen.
  { nsteps. split; [done|split; [done|]]. unfold route_after_guardrail. cbn. rewrite Hc, Hr. cbn. eauto. }
  destruct (_ && is_cancellable _ _) eqn:Hsteer in Hrun.
  { nsteps. split; [done|split; [done|]]. bools.
    destruct (captured_total _ _) as [c|] eqn:Hcap; [|done]. bools.
    eexists _, _. split_and!; [done|eassumption|done|]. unfold steers_to_cancel. eauto 10. }
  match goal with |- context [steers_to_cancel ?o ?p] => assert (¬ steers_to_cancel o p) as Hns end.
  { intros (Hd & (c & Hcap & Hle) & Hz & Hic). rewrite bool_decide_eq_true_2, Hcap, Hz, Hic in Hsteer by done.
    rewrite (proj2 (Z.leb_le _ _)) in Hsteer by done. done. }
  destruct (_ <? _) eqn:Hhuman in Hrun.
  { nsteps. split; [done|split; [done|]]. unfold route_after_guardrail. cbn. rewrite Hc, Hr. cbn. eauto. }
  destruct (is_fulfilled _ _ && _) eqn:Hfull in Hrun.
  - bools. nsteps. case_bool_decide.
    + nsteps. split; [done|split; [done|]]. unfold route_after_guardrail. cbn. rewrite Hc, Hr. cbn. eauto.
    + nsteps. split; [done|split; [done|]]. unfold route_after_guardrail. cbn. rewrite Hc. cbn.
      match goal with Hm : make_PendingReturn _ _ _ _ _ = _ |- _ =>
        unfold make_PendingReturn, validated in Hm; destruct (_ && _) in Hm; [|done]; simplify_eq end.
      eexists. split_and!; try done.
      match goal with He : return_eligibility _ _ _ _ = _ |- _ =>
        destruct (eligible_but_window _ _ _ _ He) as [-> | ->]; done end.
  - nsteps. split; [done|split; [done|]].
    match goal with Hp : pending_refund st = Some ?a |- _ =>
      assert (route_after_guardrail (apply_update am [] st) =
              if refund_level a =? 1 then rf_confirm else rf_stepup) as ->
        by (unfold route_after_guardrail; cbn; by rewrite Hc, Hr, Hp) end.
    apply andb_false_iff in Hfull. bools.
    destruct (Z.eqb_spec (refund_level a) 1); split_and!; try done;
      intros; destruct Hfull; bools; congruence || lia.
Qed.

(** The refund guardrail's tiers, exactly: it only reads, never hands over, and by the route after it: the refund
    goes on (to its readback, or to step-up when its level asks for more) with nothing said, only
    for an order that is not cancelled and has no open return, when a full void is not the
    remedy, up to the amount a human must decide, and past the returnless amount only before
    fulfilment; it becomes a one-target cancel batch of this order exactly when a full void is
    the remedy; it becomes a return of this order at this amount only for a fulfilled order
    between the two amounts and inside the return window; otherwise it is dropped, with the
    turn's ownership, and one line is said. *)
Theorem refund_guardrail_tiers env st ans w s' ws p :
  guardrail_node policy env st (ans, w) = (s', Done ws) →
  pending_refund st = Some p → pending_cancel st = None → pending_return st = None →
  s' = (ans, w) ∧ handover (apply_update am ws st) = handover st ∧
  refund_tiers env w p (apply_update am ws st) ws.
Proof. apply guardrail_run. Qed.

(** ** The readbacks *)
Lemma refund_confirm_pure env st : pure_node (refund_confirm_node (P:=P) (PS:=PS) (R:=R) policy env st).
Proof. unfold refund_confirm_node. pure_steps. Qed.
Lemma refund_confirm_spec env st ans w s' ws p :
  refund_confirm_node (P:=P) (PS:=PS) (R:=R) policy env st (ans, w) = (s', Done ws) → pending_refund st = Some p →
  s'.2 = w ∧
  ((ws = [] ∧ heard_yes false ans s'.1 ∧ ne_now env - pr_created_at p ≤ pending_ttl_seconds policy) ∨
   pending_refund (apply_update am ws st) = None).
Proof.
  intros Hrun Hp. pose proof (refund_confirm_pure env st ans w) as Hpure. rewrite Hrun in Hpure. cbn in Hpure. split; [done|]. clear Hpure.
  unfold refund_confirm_node in Hrun. rewrite Hp in Hrun. confirm_run Hrun.
Qed.

Lemma return_confirm_pure env st : pure_node (return_confirm_node (P:=P) (PS:=PS) (R:=R) policy env st).
Proof. unfold return_confirm_node. pure_steps. Qed.
Lemma return_confirm_spec env st ans w s' ws p :
  return_confirm_node (P:=P) (PS:=PS) (R:=R) policy env st (ans, w) = (s', Done ws) → pending_return st = Some p →
  s'.2 = w ∧
  ((ws = [] ∧ heard_yes false ans s'.1 ∧ ne_now env - pn_created_at p ≤ pending_ttl_seconds policy) ∨
   pending_return (apply_update am ws st) = None).
Proof.
  intros Hrun Hp. pose proof (return_confirm_pure env st ans w) as Hpure. rewrite Hrun in Hpure.
  cbn in Hpure. split; [done|]. clear Hpure. unfold return_confirm_node in Hrun. rewrite Hp in Hrun. confirm_run Hrun.
Qed.
End tiers.

(** ** The effects *)
Section effects.
Context {P PS R E : Type} `{OtpPort P} `{SessionPersistence PS E}.
Context (policy : PolicyContext) (fingerprint : SessionRequest → string).
Notation W := (World P PS R).
Implicit Types (w : W) (env : node_env E) (st : ReasoningState).

Lemma finish_refund_orders env key record :
  keeps w_orders (finish_refund (P:=P) (PS:=PS) (R:=R) fingerprint env key record).
Proof. unfold finish_refund. keeps_steps. Qed.
Lemma finish_return_orders env key record :
  keeps w_orders (finish_return (P:=P) (PS:=PS) (R:=R) fingerprint env key record).
Proof. unfold finish_return. keeps_steps. Qed.

(** The live authority of a refund: level one, or a verification of its own subject. *)
Definition refund_authorized env w (p : PendingRefund) : Prop :=
  refund_level p ≤ 1 ∨
  ∃ subj, refund_subject (w_verification w) p = inr subj ∧
    authorization_satisfies (se_now (ne_store env)) (w_verification w) subj (refund_level p) = true.

Definition refund_call (p : PendingRefund) : M OrderStore RefundRecord :=
  issue_refund (pr_idempotency_key p) (pr_order_id p) (dec_of_cents (pr_amount_usd p))
    (destination_text (pr_destination p)) (pr_instrument_ref p).

Lemma refund_authorized_iff env w p :
  refund_unauthorized (se_now (ne_store env)) (w_verification w) p = inr false → refund_authorized env w p.
Proof.
  unfold refund_unauthorized, refund_authorized. destruct (Z.ltb_spec 1 (refund_level p)); [|by left].
  munfold. destruct (refund_subject _ _) as [|subj]; [done|]. intros [= Hn]. right. exists subj.
  by apply negb_false_iff in Hn.
Qed.

(** All a run of the refund effect does to the orders. *)
Lemma place_orders env st ans w :
  w_orders (place_node fingerprint env st (ans, w)).1.2 = w_orders w ∨
  ∃ p, pending_refund st = Some p ∧ refund_authorized env w p ∧
    w_orders (place_node fingerprint env st (ans, w)).1.2 = (refund_call p (w_orders w)).1.
Proof.
  unfold place_node. destruct (pending_refund st) as [p|]; [|by left]. 
  cbv [mbind N_bind the mret N_ret here act get val lift].
  destruct (refund_unauthorized _ _ p) as [e|[]] eqn:Hau; [by left..|].
  apply refund_authorized_iff in Hau. right. exists p. split_and!; [done..|].
  unfold except, on_orders, zoom, act. fold (refund_call p). 
  destruct (refund_call p (w_orders w)) as [o [e|record]]; cbn.
  - case_decide; done.
  - apply finish_refund_orders.
Qed.

Lemma refund_replay k o a d i s s' f : issue_refund k o a d i s = (s', inr f) → (issue_refund k o a d i s').1 = s'.
Proof.
  intros Hc. pose proof (stored_replay (CallRefund k o a d i) s' (RRefund f)) as Hr.
  assert (perform (CallRefund k o a d i) s = (s', inr (RRefund f))) as Hp by (cbn; munfold_goal; by rewrite Hc).
  specialize (Hr (perform_stored _ _ _ _ Hp)). cbn in Hr. munfold.
  by destruct (issue_refund k o a d i s') as [? []]; simplify_eq.
Qed.

Lemma validate_cents c x : validate_usd (dec_of_cents c) = inr x → x = c.
Proof.
  intros Hv. destruct (Z.leb_spec 0 c) as [Hc|Hc]; [rewrite validate_usd_cents in Hv by done; congruence|].
  unfold validate_usd, UsdAmount, dec_of_cents in Hv. by rewrite (proj2 (Z.leb_gt _ _)) in Hv by lia.
Qed.

(** C16 Money moves only on live authority, and once: when a run of the refund effect (whatever it
    ends with) changes the order store, the pending refund is at level one or its own subject is
    verified to its level at that moment; the change is one new refund record, under the pending
    refund's key, for its order and its amount, within what the order captured less what went
    back or was promised, on an order that is not cancelled; and any later run of the effect for
    the same pending refund on the store it left changes nothing. *)
Theorem refund_effect_authorized env st ans w :
  let w' := (place_node fingerprint env st (ans, w)).1.2 in
  w_orders w' ≠ w_orders w →
  ∃ p record cap, pending_refund st = Some p ∧ refund_authorized env w p ∧
    refunds_by_key (w_orders w') = refunds_by_key (w_orders w) ++ [(pr_idempotency_key p, record)] ∧
    rf_order_id record = canon (pr_order_id p) ∧ rf_amount_usd record = pr_amount_usd p ∧
    order_status (w_orders w) (pr_order_id p) ≠ Some CANCELLED_STATUS ∧
    captured_total (w_orders w) (pr_order_id p) = Some cap ∧
    refunded_so_far (w_orders w) (pr_order_id p) + return_refund_due (w_orders w) (pr_order_id p) +
      pr_amount_usd p ≤ cap ∧
    ∀ env2 ans2 w2, w_orders w2 = w_orders w' →
      w_orders (place_node fingerprint env2 st (ans2, w2)).1.2 = w_orders w2.
Proof.
  cbv zeta. destruct (place_orders env st ans w) as [?|(p & Hp & Hau & Ho)]; [done|]. intros Hne.
  rewrite Ho in *. destruct (refund_call p (w_orders w)) as [o' r] eqn:Hcall. cbn [fst] in *.
  destruct (refund_cases _ _ _ _ _ _ _ _ Hcall) as
    [(e & _ & ->)|[(x & c & _ & -> & _)|(c & cap & -> & -> & Hv & Hk & Hcap & Hst & Hle)]]; [done..|].
  apply validate_cents in Hv as Hc. subst c.
  exists p, (fresh_refund (w_orders w) (pr_order_id p) (pr_amount_usd p)
               (destination_text (pr_destination p)) (pr_instrument_ref p)), cap.
  split_and!; try done.
  - cbn [set_refunds refunds_by_key]. by rewrite dset_fresh.
  - intros env2 ans2 w2 Hw2. destruct (place_orders env2 st ans2 w2) as [->|(p2 & Hp2 & _ & ->)]; [done|].
    rewrite Hp in Hp2. injection Hp2 as <-. rewrite Hw2. eapply (refund_replay (pr_idempotency_key p)).
    exact Hcall.
Qed.

Definition return_call (p : PendingReturn) : M OrderStore ReturnRecord :=
  create_return (pn_idempotency_key p) (pn_order_id p) (dec_of_cents (pn_refund_due_usd p)) "original".

Lemma return_place_orders env st ans w :
  w_orders (return_place_node fingerprint env st (ans, w)).1.2 = w_orders w ∨
  ∃ p, pending_return st = Some p ∧
    w_orders (return_place_node fingerprint env st (ans, w)).1.2 = (return_call p (w_orders w)).1.
Proof.
  unfold return_place_node. destruct (pending_return st) as [p|]; [|by left].
  right. exists p. split; [done|]. cbv [mbind N_bind the mret N_ret].
  unfold except, on_orders, zoom, act. fold (return_call p).
  destruct (return_call p (w_orders w)) as [o [e|record]]; cbn; [case_decide; done|].
  apply finish_return_orders.
Qed.
End effects.
