(* ===== verification/SupportCancel.v ===== *)
(** * Cancellation batches (agents/support/flow.py)

    The cancel sub-path of the support flow: the batch guardrail, its
    readback, the effect node that voids one target per run, and the
    resolution of a scope ("cancel all my orders") after the account is
    bound. *)

From S2P Require Import Prelude PyText Regex Money Cart Orders OrderScope OrderStore OrderLedger Identity Profile.
From S2P Require Import Verification OtpProvider ProofStore Consent Confirmation SessionState Requests.
From S2P Require Import Reasoning Nodes Stepup SupportBase SupportRefund.
Local Open Scope Z_scope.
Local Open Scope list_scope.

Definition outcome_text (o : CancelOutcomeCode) : string :=
  match o with
  | oc_cancelled => "cancelled" | oc_already_cancelled => "already_cancelled"
  | oc_not_cancellable => "not_cancellable" | oc_has_refunds => "has_refunds"
  | oc_store_refused => "store_refused" | oc_not_completed => "not_completed"
  end.

(** [pending.model_copy(update={...})] *)
Definition with_targets (targets : list CancelTarget) (ineligible : list BatchCancelOutcome)
    (b : PendingCancelBatch) : PendingCancelBatch :=
  mkCancelBatch targets ineligible (cb_outcomes b) (cb_created_at b).
Definition with_outcomes (outcomes : list BatchCancelOutcome) (b : PendingCancelBatch)
    : PendingCancelBatch :=
  mkCancelBatch (cb_targets b) (cb_ineligible b) outcomes (cb_created_at b).

(** [isinstance(state.pending_cancel, PendingCancelBatch)] *)
Definition pending_cancel_batch (st : ReasoningState) : option PendingCancelBatch :=
  match pending_cancel st with Some (pending_batch b) => Some b | _ => None end.
Definition pending_cancel_scope (st : ReasoningState) : option CancelScope :=
  match pending_cancel st with Some (pending_scope s) => Some s | _ => None end.

Definition make_OrderRiskSubject tenant session (order_refs : list string) : res OrderRiskSubject :=
  tenant ← non_empty_text tenant; session ← non_empty_text session;
  refs ← mapR non_empty_text order_refs;
  validated (negb (bool_decide (refs = []))) (mkOrderRisk tenant session refs).

Definition target_outcome (t : CancelTarget) (o : CancelOutcomeCode) : res BatchCancelOutcome :=
  make_BatchCancelOutcome (ct_order_id t) (ct_summary t) o None.

Definition preflight_target (orders : OrderStore) (t : CancelTarget) : res (option BatchCancelOutcome) :=
  let oid := ct_order_id t in
  if bool_decide (order_status orders oid = Some CANCELLED_STATUS) then
    o ← target_outcome t oc_already_cancelled; inr (Some o)
  else if negb (is_cancellable orders oid) then
    o ← target_outcome t oc_not_cancellable; inr (Some o)
  else if 0 <? refunded_so_far orders oid then
    o ← target_outcome t oc_has_refunds; inr (Some o)
  else inr None.

(** The loop of the guardrail over the targets. *)
Fixpoint partition_targets (orders : OrderStore) (targets : list CancelTarget)
    : res (list CancelTarget * list BatchCancelOutcome) :=
  match targets with
  | [] => inr ([], [])
  | t :: targets =>
      verdict ← preflight_target orders t;
      rest ← partition_targets orders targets;
      inr (match verdict with
           | None => (t :: rest.1, rest.2)
           | Some o => (rest.1, o :: rest.2)
           end)
  end.

Definition cancel_ends (line : string) : list Write :=
  [W_pending_cancel None; W_execution_owner None; say line].

Section cancel.
Context {P PS R E : Type} `{OtpPort P} `{RiskPort R} `{SessionPersistence PS E}.
Context (policy : PolicyContext) (fingerprint : SessionRequest → string).
Notation W := (World P PS R).
Notation node := (N W (list Write)).
Implicit Types (w : W) (env : node_env E) (st : ReasoningState).

(** ** The guardrail *)
Definition cancel_guardrail_node env st : node :=
  pending ← the (pending_cancel_batch st);
  w ← here;
  risk_subject ← val (make_OrderRiskSubject (risk_tenant_id (w_risk w))
    (Guest.session_id (w_guest w)) (ct_order_id <$> cb_targets pending));
  decision ← val (risk_assess (w_risk w) (inr risk_subject));
  match decision with
  | BLOCKED =>
      mret [W_pending_cancel None; W_execution_owner None; hand_to hr_verification_required DETERMINISTIC_POLICY]
  | CLEAR =>
      if cancel_batch_max policy <? Z.of_nat (length (cb_targets pending)) then
        mret (cancel_ends ("That's more orders than I can cancel in one go - I can do up to " +:+
          str_int (cancel_batch_max policy) +:+ " at a time. Which ones would you like me to start with?"))
      else
        parts ← val (partition_targets (w_orders w) (cb_targets pending));
        match parts.1 with
        | [] =>
            line ← val (render_batch_cancel_outcome parts.2);
            mret (cancel_ends line)
        | eligible => mret [W_pending_cancel (Some (pending_batch (with_targets eligible parts.2 pending)))]
        end
  end.

Inductive CancelRoute := cx_handover | cx_declined | cx_confirm.
Definition route_after_cancel_guardrail st : CancelRoute :=
  if isSome (handover st) then cx_handover
  else if negb (isSome (pending_cancel st)) then cx_declined
  else cx_confirm.

(** ** The readback *)
Definition cancel_confirm_node env st : node :=
  pending ← the (pending_cancel_batch st);
  if pending_ttl_seconds policy <? ne_now env - cb_created_at pending then
    mret (cancel_ends ("That sat for a while, so I haven't changed anything. If you still " +:+
      "want to cancel it, just tell me again."))
  else
    decision ← readback_decision (cancel_readback_line pending)
                 ("Sorry - just to be clear: cancel " +:+
                  join "; " (cancel_target_phrase <$> cb_targets pending) +:+ "? Yes or no?") true;
    match verdict decision with
    | human =>
        source ← the (handoff_source decision);
        mret [W_pending_cancel None; W_execution_owner None; hand_to hr_cancel_order source]
    | decided unclear => mret (cancel_ends "I didn't get a clear yes, so I haven't cancelled anything.")
    | decided no =>
        mret (cancel_ends
          (if (length (cb_targets pending) =? 1)%nat
           then "Okay, I'll leave that order as it is - nothing changed."
           else "Okay, I'll leave those orders as they are - nothing changed."))
    | decided yes => mret []
    end.

(** ** The effect *)
Definition finish_cancel env (pending : PendingCancelBatch) (outcome : BatchCancelOutcome)
    (abort_remainder : bool) : node :=
  let done := length (cb_outcomes pending) in
  target ← match cb_targets pending !! done with
           | Some t => if String.eqb (bo_order_id outcome) (ct_order_id t) then mret t
                       else fail ValueError "cancel finisher received an outcome for the wrong target"
           | None => fail ValueError "cancel finisher received an outcome for the wrong target"
           end;
  let outcomes := cb_outcomes pending ++ [outcome] in
  aborted ← val (if abort_remainder
                 then mapR (λ t, target_outcome t oc_not_completed) (drop (S done) (cb_targets pending))
                 else inr []);
  let outcomes := outcomes ++ aborted in
  if negb abort_remainder && (S done <? length (cb_targets pending))%nat then
    mret [W_pending_cancel (Some (pending_batch (with_outcomes outcomes pending)))]
  else
    let all_outcomes := cb_ineligible pending ++ outcomes in
    line ← val (render_batch_cancel_outcome all_outcomes);
    op ← val (recent_orders_operation_id op_cancel (ct_idempotency_key target));
    committed ← on_session (record_recent_orders fingerprint (ne_publish env) op
      (bo_order_id <$> all_outcomes) op_cancel (bo_order_id <$> last all_outcomes)
      ((λ o, (bo_order_id o, outcome_text (bo_outcome o))) <$> all_outcomes));
    mret (cancel_ends line ++ [W_session_revision committed.2]).

Definition cancel_void_node env st : node :=
  pending ← the (pending_cancel_batch st);
  target ← match cb_targets pending !! length (cb_outcomes pending) with
           | Some t => mret t
           | None => fail IndexError "tuple index out of range"
           end;
  outcome ← except
    (record ← on_orders (cancel_order (ct_idempotency_key target) (ct_order_id target));
     val (cancelled_batch_outcome record)) CancelError
    (val (target_outcome target oc_store_refused));
  finish_cancel env pending outcome false.

(** The graph's router after the effect node: back to it while targets remain. *)
Definition route_after_support_cancel_void st : bool := isSome (pending_cancel st).

(** ** Resolving a scope after the account is bound *)
Fixpoint unauthorized_among w (cs : list OrderCandidate) : res (list string) :=
  match cs with
  | [] => inr []
  | c :: cs =>
      allowed ← order_read_allowed (oc_order_id c) (w_orders w) (w_guest w) (w_identity w);
      rest ← unauthorized_among w cs;
      inr (if (allowed : bool) then rest else oc_order_id c :: rest)
  end.

Definition resolve_node env st : node :=
  selection ← the (pending_cancel_scope st);
  w ← here;
  match current (w_identity w) with
  | None => mret (cancel_ends "I couldn't confirm your account, so I haven't changed anything.")
  | Some bound =>
      found ← val (owned_cancellable_orders (w_orders w) (customer_ref bound) (w_guest w)
                     (cancel_batch_max policy + 1));
      let '(candidates, has_more) := found in
      unauthorized ← val (unauthorized_among w candidates);
      if negb (bool_decide (unauthorized = [])) then
        mret (cancel_ends ("I couldn't safely match those orders to your account, so I haven't " +:+
          "changed anything."))
      else if bool_decide (candidates = []) then
        mret (cancel_ends "None of your orders can be cancelled right now - nothing to do.")
      else if bool_decide (selection = both_cancellable) && negb (length candidates =? 2)%nat then
        mret (cancel_ends
          (if (length candidates =? 1)%nat
           then "I found only one order that can be cancelled, so I need you to tell " +:+
                "me which orders you meant."
           else "You've got more than two orders that can be cancelled - which " +:+
                "ones would you like me to cancel?"))
      else if (cancel_batch_max policy <? Z.of_nat (length candidates)) || has_more then
        mret (cancel_ends ("You've got more orders than I can cancel in one go - I can do up to " +:+
          str_int (cancel_batch_max policy) +:+ " at a time. Which would you like to start with?"))
      else
        batch ← val (mint_cancel_batch env ((λ c, (oc_order_id c, oc_summary c)) <$> candidates));
        mret [W_pending_cancel (Some (pending_batch batch)); W_execution_owner (Some owner_support)]
  end.

(** [true] is the route "confirm", to the cancel guardrail. *)
Definition route_after_resolve st : bool := isSome (pending_cancel_batch st).

(** ** The effect loop: one run of the effect node per target *)
Context (am : list Message → list Message → list Message).
Fixpoint void_loop (envs : list (node_env E)) st w : ReasoningState * W * option (outcome unit) :=
  match envs with
  | [] => (st, w, None)
  | env :: envs =>
      match cancel_void_node env st ([], w) with
      | ((_, w'), Done ws) =>
          let st' := apply_update am ws st in
          if route_after_support_cancel_void st' then void_loop envs st' w'
          else (st', w', Some (Done tt))
      | ((_, w'), Raised e) => (st, w', Some (Raised e))
      | ((_, w'), Suspended p) => (st, w', Some (Suspended p))
      end
  end.
End cancel.

(** ** The batch as a function of the order store *)
Definition voided_outcome (r : CancelRecord) : BatchCancelOutcome :=
  mkBatchCancelOutcome (cr_order_id r) (cr_summary r) oc_cancelled (Some (cr_total_usd r)).
Definition refused_outcome (t : CancelTarget) : BatchCancelOutcome :=
  mkBatchCancelOutcome (ct_order_id t) (ct_summary t) oc_store_refused None.
Definition void_target (o : OrderStore) (t : CancelTarget) : OrderStore * BatchCancelOutcome :=
  match cancel_order (ct_idempotency_key t) (ct_order_id t) o with
  | (o', inr r) => (o', voided_outcome r)
  | (o', inl _) => (o', refused_outcome t)
  end.
Fixpoint void_all (o : OrderStore) (ts : list CancelTarget) : OrderStore * list BatchCancelOutcome :=
  match ts with
  | [] => (o, [])
  | t :: ts => let '(o1, out) := void_target o t in let '(o2, outs) := void_all o1 ts in (o2, out :: outs)
  end.

(** A store the effect node finds: invariant, no blank reference, records as constructed. *)
Record orders_ok (o : OrderStore) : Prop := {
  ok_inv : store_inv o;
  ok_blank : dget "" (orders o) = None;
  ok_records : Forall (λ kr, CancelRecord_valid kr.2 = true) (cancels_by_key o) }.
(** A target as the flow mints it: from a candidate in normal form. *)
Definition target_ok (t : CancelTarget) : Prop :=
  canon (ct_order_id t) = ct_order_id t ∧ nonempty (ct_order_id t) = true ∧ nonempty (ct_summary t) = true.

Lemma speak_lines_total {A} `{LineLike A} (l : list A) e : speak_lines l = inl e → l = [].
Proof. unfold speak_lines. destruct l as [|? [|? [|? ?]]]; by intros [=]. Qed.

Lemma placed_status_inv o n : store_inv o → order_status o n = Some PLACED_STATUS →
  (∃ e, dget (canon n) (orders o) = Some e) ∨
  (∃ p, placed_by_id o (canon n) = Some p ∧ po_lines p ≠ []).
Proof.
  intros Hi. unfold order_status. case_decide; [done|].
  destruct (dget (canon n) (orders o)) as [e|]; [by eauto|].
  destruct (placed_by_id o (canon n)) as [p|] eqn:Hp; [|done]. intros _. right. exists p. split; [done|].
  apply List.find_some in Hp as [Hin _]. apply list_elem_of_In, list_elem_of_fmap in Hin as ([k p'] & -> & Hin).
  apply (inv_placed o Hi) in Hin as [_ Hv]. unfold PlacedOrder_valid in Hv. by bools.
Qed.

Lemma placed_total o n : store_inv o → order_status o n = Some PLACED_STATUS →
  ∃ cap su, captured_total o n = Some cap ∧ order_item_summary o n = inr su.
Proof.
  intros Hi Hst. unfold captured_total, order_item_summary.
  destruct (placed_status_inv _ _ Hi Hst) as [[e ->]|(p & Hp & Hl)]; [by eexists _, _|].
  destruct (dget (canon n) (orders o)); [by eexists _, _|]. rewrite Hp.
  destruct (speak_lines (po_lines p)) eqn:Hs; [by apply speak_lines_total in Hs|]. by eexists _, _.
Qed.

Lemma cancel_refusal o k oid o' e : orders_ok o → cancel_order k oid o = (o', inl e) →
  o' = o ∧ exc_cls e = CancelError.
Proof.
  intros [Hi Hb _] Hrun. assert (o' = o) as Ho.
  { apply (perform_error (CallCancel k oid) _ _ e Hi Hb). cbn. munfold_goal. by rewrite Hrun. }
  split; [done|]. revert Hrun. unfold cancel_order. munfold_goal.
  destruct (dget k (cancels_by_key o)) as [x|] eqn:Hk; [destruct (cancel_matches x oid); intros; by simplify_eq|].
  destruct (order_status o (canon oid)) as [status|] eqn:Hst; [|intros; by simplify_eq].
  case_bool_decide as Hf; [|intros; by simplify_eq]. apply list_elem_of_singleton in Hf as ->.
  destruct (0 <? refunded_so_far o (canon oid)) eqn:Hr; cbn; [intros; by simplify_eq|]. bools.
  destruct (placed_total o (canon oid) Hi Hst) as (cap & su & Hcap & Hsu). rewrite Hcap, Hsu.
  assert (cancel_guards o k oid cap) as Hg by (by split_and!).
  by rewrite (cancel_record_valid _ _ _ _ _ Hi Hb Hg Hsu).
Qed.

Lemma cancel_fresh_valid o k oid o' x : cancel_order k oid o = (o', inr x) →
  dget k (cancels_by_key o) = None → CancelRecord_valid x = true.
Proof.
  unfold cancel_order. munfold_goal. intros Hrun Hk. rewrite Hk in Hrun.
  destruct (order_status _ _); [|done]. destruct (bool_decide _); [|done]. destruct (negb _); [|done].
  destruct (captured_total _ _); [|done]. destruct (order_item_summary _ _); [done|].
  destruct (CancelRecord_valid _) eqn:Hv in Hrun; by simplify_eq.
Qed.

Lemma cancel_order_run o k oid o' r : orders_ok o → cancel_order k oid o = (o', r) →
  orders_ok o' ∧
  match r with
  | inr x => cr_order_id x = canon oid ∧ CancelRecord_valid x = true
  | inl e => o' = o ∧ exc_cls e = CancelError
  end.
Proof.
  intros Hok Hrun. destruct r as [e|x]; [by destruct (cancel_refusal _ _ _ _ _ Hok Hrun) as [-> ?]|].
  destruct Hok as [Hi Hb Hr].
  pose proof (run_call_inv (CallCancel k oid) o Hi) as Hi'. cbn in Hi'. rewrite Hrun in Hi'.
  cbn in Hi'. destruct (cancel_cases _ _ _ _ _ Hrun) as
    [(e & [=] & _)|[(x' & [= <-] & -> & Hg & Hm)|[(cap & e & _ & [=] & _)|(cap & su & Hg & [= ->] & ->)]]].
  - split; [done|]. unfold cancel_matches in Hm. bools. split; [done|].
    apply dget_Some_elem in Hg. rewrite Forall_forall in Hr. by apply (Hr _ Hg).
  - pose proof (cancel_fresh_valid _ _ _ _ _ Hrun (proj1 Hg)) as Hv.
    split; [|done]. split; [done..|]. cbn [set_cancels cancels_by_key]. by apply dset_Forall.
Qed.

Lemma void_target_run o t o' out : orders_ok o → target_ok t → void_target o t = (o', out) →
  orders_ok o' ∧ bo_order_id out = ct_order_id t ∧ BatchCancelOutcome_valid out = true.
Proof.
  intros Hok (Hc & Hn & Hs). unfold void_target.
  destruct (cancel_order _ _ o) as [o1 r] eqn:Hrun. destruct (cancel_order_run _ _ _ _ _ Hok Hrun) as [Hok' Hr].
  destruct r as [e|x]; intros [= <- <-]; (split; [done|]).
  - split; [done|]. unfold BatchCancelOutcome_valid. cbn. by rewrite Hn, Hs.
  - destruct Hr as [Hid Hv]. cbn. split; [congruence|]. unfold CancelRecord_valid in Hv. bools.
    unfold BatchCancelOutcome_valid. cbn. rewrite (proj2 (Z.leb_le _ _)) by done.
    by repeat match goal with H : nonempty _ = true |- _ => rewrite H; clear H end.
Qed.

Lemma cancelled_amount o : BatchCancelOutcome_valid o = true → bo_outcome o = oc_cancelled →
  is_Some (bo_amount_usd o).
Proof.
  unfold BatchCancelOutcome_valid. intros Hv Ho. bools.
  match goal with Hb : Bool.eqb _ _ = true |- _ => apply eqb_prop in Hb; rewrite bool_decide_eq_true_2 in Hb by done end.
  by destruct (bo_amount_usd o).
Qed.

Lemma render_total outs : Forall (λ o, BatchCancelOutcome_valid o = true) outs →
  ∃ line, render_batch_cancel_outcome outs = inr line.
Proof.
  assert (∀ o, BatchCancelOutcome_valid o = true → ∃ c, cancel_outcome_clause o = inr c) as Hclause.
  { intros o Hv. unfold cancel_outcome_clause. destruct (bo_outcome o) eqn:Ho; eauto.
    destruct (cancelled_amount o Hv Ho) as [a ->]. eauto. }
  assert (∀ l, Forall (λ o, BatchCancelOutcome_valid o = true) l → ∃ cs, mapR cancel_outcome_clause l = inr cs)
    as Hmap.
  { induction 1 as [|o l Ho _ [cs IH]]; [by eexists|]. destruct (Hclause o Ho) as [c Hc].
    cbn. munfold_goal. rewrite Hc, IH. by eexists. }
  intros Hv. destruct outs as [|a [|b l]]; [by eexists| |].
  - apply Forall_inv in Hv as Ha. destruct (Hclause a Ha) as [c Hc]. cbn. munfold_goal.
    destruct (bo_outcome a) eqn:Ho; rewrite ?Hc; eauto.
    destruct (cancelled_amount a Ha Ho) as [x ->]. eauto.
  - destruct (Hmap _ Hv) as [cs Hcs]. unfold render_batch_cancel_outcome. munfold_goal. rewrite Hcs. by eexists.
Qed.

(** ** The sentence of a batch *)
(** What the caller must hear of an order, by how its cancellation ended. *)
Definition outcome_sentence (o : BatchCancelOutcome) : string :=
  let order := "your order for " +:+ bo_summary o +:+ " (" +:+ bo_order_id o +:+ ")" in
  match bo_outcome o with
  | oc_cancelled => order +:+ " is cancelled and $" +:+ str_usd (default 0 (bo_amount_usd o)) +:+ " goes back to your original payment method"
  | oc_already_cancelled => order +:+ " was already cancelled"
  | oc_not_cancellable => order +:+ " has already shipped, so that one needs a return instead"
  | oc_has_refunds => order +:+ " already has a refund, so our support team needs to sort out the rest"
  | oc_store_refused => "I couldn't cancel " +:+ order +:+ " - nothing changed on it"
  | oc_not_completed => "the cancellation request for " +:+ order +:+ " did not complete"
  end.
Definition batch_sentence (outs : list BatchCancelOutcome) : string :=
  match outs with
  | [o] =>
      match bo_outcome o with
      | oc_cancelled => "Done - I've cancelled your order for " +:+ bo_summary o +:+ ". The $" +:+ str_usd (default 0 (bo_amount_usd o)) +:+
          " charge goes back to your original payment method."
      | _ => capitalize_head (outcome_sentence o) +:+ "."
      end
  | _ => capitalize_head (join "; " (removelast (outcome_sentence <$> outs)) +:+ "; and " +:+ List.last (outcome_sentence <$> outs) "") +:+ "."
  end.
(** The sentence of a batch is the one its node renders. *)
Lemma outcome_clause o : BatchCancelOutcome_valid o = true → cancel_outcome_clause o = inr (outcome_sentence o).
Proof.
  intros Hv. unfold cancel_outcome_clause, outcome_sentence, order_named. rewrite <-!app_assoc_s.
  destruct (bo_outcome o) eqn:Ho; try done. destruct (cancelled_amount o Hv Ho) as [a ->]. cbn. by rewrite !app_assoc_s.
Qed.
Lemma outcome_clauses outs : Forall (λ o, BatchCancelOutcome_valid o = true) outs → mapR cancel_outcome_clause outs = inr (outcome_sentence <$> outs).
Proof. induction 1 as [|o outs Ho _ IH]; [done|]. cbn. rewrite (outcome_clause _ Ho), IH. done. Qed.
Lemma batch_rendered outs : outs ≠ [] → Forall (λ o, BatchCancelOutcome_valid o = true) outs →
  render_batch_cancel_outcome outs = inr (batch_sentence outs).
Proof.
  intros Hne Hv. destruct outs as [|o [|o2 outs]]; [done| |].
  - apply Forall_inv in Hv. cbn. rewrite (outcome_clause _ Hv). destruct (bo_outcome o) eqn:Ho; try done.
    by destruct (cancelled_amount o Hv Ho) as [a ->].
  - unfold render_batch_cancel_outcome. by rewrite (outcome_clauses _ Hv).
Qed.

(** The session's note of a finished batch: every order it named, in the order said, under the key
    of the target voided last, the last order in focus, each with how it ended. *)
Definition batch_note {P PS R E} `{OtpPort P} `{SessionPersistence PS E} (fingerprint : SessionRequest → string)
    (env : node_env E) (t : CancelTarget) (outs : list BatchCancelOutcome) (w : World P PS R) :=
  (op ← lift (recent_orders_operation_id op_cancel (ct_idempotency_key t));
   record_recent_orders fingerprint (ne_publish env) op (bo_order_id <$> outs) op_cancel (bo_order_id <$> last outs)
     ((λ o, (bo_order_id o, outcome_text (bo_outcome o))) <$> outs)) (w_session w).

(** ** The loop *)
Section void_laws.
Context {P PS R E : Type} `{OtpPort P} `{SessionPersistence PS E}.
Context (fingerprint : SessionRequest → string) (am : list Message → list Message → list Message).
Notation W := (World P PS R).
Implicit Types (w : W) (env : node_env E) (st : ReasoningState) (b : PendingCancelBatch).

Lemma void_visit env st w b t o' out :
  pending_cancel_batch st = Some b → cb_targets b !! length (cb_outcomes b) = Some t →
  orders_ok (w_orders w) → target_ok t → void_target (w_orders w) t = (o', out) →
  cancel_void_node fingerprint env st ([], w) = finish_cancel fingerprint env b out false ([], set_orders o' w).
Proof.
  intros Hp Ht Hok Htok Hv. unfold cancel_void_node. rewrite Hp. cbv [mbind N_bind the mret N_ret].
  rewrite Ht. destruct (void_target_run _ _ _ _ Hok Htok Hv) as (_ & _ & Hvalid).
  unfold void_target in Hv. destruct (cancel_order _ _ (w_orders w)) as [o1 r] eqn:Hrun.
  destruct (cancel_order_run _ _ _ _ _ Hok Hrun) as [_ Hr].
  unfold except, on_orders, zoom, act. rewrite Hrun. destruct r as [e|x]; injection Hv as <- <-.
  - rewrite decide_True by apply Hr. unfold val, act, lift, target_outcome, make_BatchCancelOutcome.
    fold (refused_outcome t). munfold_goal. by rewrite Hvalid.
  - unfold val, act, lift, cancelled_batch_outcome, make_BatchCancelOutcome. fold (voided_outcome x).
    munfold_goal. by rewrite Hvalid.
Qed.

Lemma finish_cancel_more env b t out ans w :
  cb_targets b !! length (cb_outcomes b) = Some t → bo_order_id out = ct_order_id t →
  (S (length (cb_outcomes b)) < length (cb_targets b))%nat →
  finish_cancel fingerprint env b out false (ans, w) =
    ((ans, w), Done [W_pending_cancel (Some (pending_batch (with_outcomes (cb_outcomes b ++ [out]) b)))]).
Proof.
  intros Ht Hid Hlt. unfold finish_cancel. rewrite Ht, Hid, String.eqb_refl. cbv [mbind N_bind mret N_ret].
  cbn [val act lift negb andb]. rewrite (proj2 (Nat.ltb_lt _ _) Hlt). cbn. by rewrite app_nil_r.
Qed.

Lemma app_tail_nonempty {A} (a b : list A) x : a ++ b ++ [x] ≠ [].
Proof. by destruct a, b. Qed.

Lemma finish_cancel_last env b t out ans w s' r :
  cb_targets b !! length (cb_outcomes b) = Some t → bo_order_id out = ct_order_id t →
  S (length (cb_outcomes b)) = length (cb_targets b) →
  Forall (λ o, BatchCancelOutcome_valid o = true) (cb_ineligible b ++ cb_outcomes b ++ [out]) →
  finish_cancel fingerprint env b out false (ans, w) = (s', r) →
  s' = (ans, set_session (w_session s'.2) w) ∧
  let all := cb_ineligible b ++ cb_outcomes b ++ [out] in
  match r with
  | Done ws => ∃ v revision, ws = cancel_ends (batch_sentence all) ++ [W_session_revision revision] ∧
      batch_note fingerprint env t all w = (w_session s'.2, inr (v, revision))
  | Raised e => batch_note fingerprint env t all w = (w_session s'.2, inl e)
  | Suspended _ => False
  end.
Proof.
  intros Ht Hid Hlen Hv. unfold finish_cancel. rewrite Ht, Hid, String.eqb_refl. cbv [mbind N_bind mret N_ret].
  cbn [val act lift negb andb]. rewrite (proj2 (Nat.ltb_ge _ _)) by lia. cbn. rewrite app_nil_r.
  rewrite (batch_rendered _ (app_tail_nonempty _ _ _) Hv). unfold batch_note. munfold_goal.
  assert (set_session (w_session w) w = w) as Hw by (by destruct w).
  destruct (recent_orders_operation_id _ _) as [e|op]; [intros [= <- <-]; cbn; by rewrite Hw|].
  unfold val, lift, on_session, zoom, act. cbv beta iota. destruct (record_recent_orders fingerprint (ne_publish env) _ _ _ _ _ _) as [ss [e|[v revision]]];
    intros [= <- <-]; [by split|]. split; [done|]. by exists v, revision.
Qed.

(** The batch's run, from any point of it: the remaining targets are [void_all]'s. *)
Lemma void_loop_run ts : ∀ envs st w b,
  pending_cancel_batch st = Some b → drop (length (cb_outcomes b)) (cb_targets b) = ts → ts ≠ [] →
  orders_ok (w_orders w) → Forall target_ok ts → (length ts ≤ length envs)%nat →
  Forall (λ o, BatchCancelOutcome_valid o = true) (cb_ineligible b ++ cb_outcomes b) →
  let '(o', outs) := void_all (w_orders w) ts in
  ∃ st' w' r env t, void_loop fingerprint am envs st w = (st', w', Some r) ∧
    envs !! pred (length ts) = Some env ∧ last ts = Some t ∧ w' = set_session (w_session w') (set_orders o' w) ∧
    let all := cb_ineligible b ++ cb_outcomes b ++ outs in
    match r with
    | Done _ => pending_cancel st' = None ∧ execution_owner st' = None ∧
        messages st' = am (messages st) [AIMessage (batch_sentence all) []] ∧
        ∃ v, batch_note fingerprint env t all w = (w_session w', inr (v, session_revision st'))
    | Raised e => pending_cancel_batch st' = Some (with_outcomes (cb_outcomes b ++ removelast outs) b) ∧
        batch_note fingerprint env t all w = (w_session w', inl e)
    | Suspended _ => False
    end.
Proof.
  induction ts as [|t ts IH]; intros envs st w b Hp Hts Hne Hok Htok Hlen Hv; [done|].
  apply Forall_cons in Htok as [Ht Htok]. cbn [void_all].
  assert (cb_targets b !! length (cb_outcomes b) = Some t) as Hlk.
  { rewrite <-(Nat.add_0_r (length _)), <-lookup_drop, Hts. done. }
  destruct (void_target (w_orders w) t) as [o1 out] eqn:Hvt.
  destruct (void_target_run _ _ _ _ Hok Ht Hvt) as (Hok1 & Hid & Hvalid).
  destruct envs as [|env envs]; [cbn in Hlen; lia|]. cbn [void_loop].
  rewrite (void_visit _ _ _ _ _ _ _ Hp Hlk Hok Ht Hvt).
  assert (length (cb_targets b) = length (cb_outcomes b) + S (length ts))%nat as Hcount.
  { apply (f_equal length) in Hts. rewrite length_drop in Hts. cbn in Hts. lia. }
  destruct ts as [|t2 ts].
  - destruct (finish_cancel _ _ _ _ _ _) as [s' r] eqn:Hf. cbn in Hcount.
    assert (Forall (λ o, BatchCancelOutcome_valid o = true) (cb_ineligible b ++ cb_outcomes b ++ [out])) as Hv'.
    { rewrite app_assoc. apply Forall_app. split; [done|by constructor]. }
    destruct (finish_cancel_last _ _ _ _ _ _ _ _ Hlk Hid ltac:(lia) Hv' Hf) as (Hs & Hr).
    destruct s' as [ans' w']. cbn in Hs. injection Hs as -> Hw. cbn [void_all]. destruct r as [ws|e|]; [| |done].
    + destruct Hr as (v & rev & -> & Hn). eexists _, _, _, env, t. split_and!; [done..|]. cbv zeta. split_and!; [done..|]. by exists v.
    + eexists _, _, _, env, t. split_and!; [done..|]. split; [|done]. cbn. rewrite app_nil_r. by destruct b.
  - rewrite (finish_cancel_more _ _ _ _ _ _ Hlk Hid) by (cbn in Hcount; lia). cbn [route_after_support_cancel_void].
    set (b' := with_outcomes (cb_outcomes b ++ [out]) b).
    set (st1 := apply_update am _ st).
    assert (length (cb_outcomes b') = S (length (cb_outcomes b))) as Hl' by
      (subst b'; cbn; rewrite length_app; cbn; lia).
    specialize (IH envs st1 (set_orders o1 w) b' eq_refl).
    change (route_after_support_cancel_void st1) with true. cbv iota.
    change (w_orders (set_orders o1 w)) with o1 in IH.
    destruct (void_all o1 (t2 :: ts)) as [o2 outs] eqn:Hall.
    assert (outs ≠ []) as Houts.
    { intros ->. cbn in Hall. by destruct (void_target o1 t2), (void_all _ ts). }
    destruct IH as (st' & w' & r & env' & t' & Hloop & He & Ht' & Ho & Hr); [|done..| | |].
    { rewrite Hl'. cbn. change (S (length (cb_outcomes b))) with (1 + length (cb_outcomes b))%nat.
      by rewrite Nat.add_comm, <-drop_drop, Hts. }
    { cbn in Hlen |- *. lia. }
    { cbn. rewrite app_assoc. apply Forall_app. split; [done|by constructor]. }
    exists st', w', r, env', t'. split_and!; [done..|].
    destruct r as [u|e|]; [| |done]; cbn in Hr; rewrite <-!app_assoc in Hr; [done|].
    by destruct outs.
Qed.
End void_laws.

(** ** Eligible targets *)
Definition eligible (o : OrderStore) (t : CancelTarget) : Prop :=
  is_cancellable o (ct_order_id t) = true ∧ refunded_so_far o (ct_order_id t) ≤ 0.

Lemma cancellable_placed o oid : is_cancellable o oid = true ↔ order_status o oid = Some PLACED_STATUS.
Proof.
  unfold is_cancellable. unfold CANCELLABLE_STATUSES.
  destruct (order_status o oid); [|done]. rewrite bool_decide_eq_true, list_elem_of_singleton. naive_solver.
Qed.

Lemma preflight_spec o t : target_ok t →
  (eligible o t ∧ preflight_target o t = inr None) ∨
  (¬ eligible o t ∧ ∃ out, preflight_target o t = inr (Some out) ∧ bo_order_id out = ct_order_id t ∧
     BatchCancelOutcome_valid out = true ∧ bo_outcome out ≠ oc_cancelled).
Proof.
  intros (_ & Hn & Hs). unfold eligible, preflight_target, target_outcome, make_BatchCancelOutcome.
  assert (∀ c, c ≠ oc_cancelled →
    BatchCancelOutcome_valid (mkBatchCancelOutcome (ct_order_id t) (ct_summary t) c None) = true) as Hv.
  { intros c Hc. unfold BatchCancelOutcome_valid. cbn. rewrite Hn, Hs, bool_decide_eq_false_2 by done. done. }
  munfold_goal. case_bool_decide as Hst.
  { right. rewrite Hv by done. split; [|eauto 10]. intros [Hc%cancellable_placed _]. by rewrite Hst in Hc. }
  destruct (is_cancellable o (ct_order_id t)); cbn; [|right; rewrite Hv by done; split; [naive_solver|eauto 10]].
  destruct (Z.ltb_spec 0 (refunded_so_far o (ct_order_id t))).
  - right. rewrite Hv by done. split; [lia|eauto 10].
  - left. naive_solver.
Qed.

Lemma void_eligible o t : orders_ok o → target_ok t → eligible o t →
  dget (ct_idempotency_key t) (cancels_by_key o) = None →
  ∃ x, void_target o t = (set_cancels (dset (ct_idempotency_key t) x) (add_cancelled (ct_order_id t) o),
                          voided_outcome x) ∧ captured_total o (ct_order_id t) = Some (cr_total_usd x).
Proof.
  intros Hok (Hc & _) [Hst%cancellable_placed Hr] Hk. unfold void_target.
  destruct (cancel_order _ _ o) as [o' r] eqn:Hrun.
  assert (∃ x, r = inr x) as [x ->].
  { destruct r as [e|x]; [|by eexists]. exfalso. destruct Hok as [Hi Hb _]. revert Hrun.
    unfold cancel_order. munfold_goal. rewrite Hk, Hc, Hst. cbn. rewrite (proj2 (Z.ltb_ge _ _)) by done. cbn.
    destruct (placed_total _ _ Hi Hst) as (cap & su & Hcap & Hsu). rewrite Hcap, Hsu.
    assert (cancel_guards o (ct_idempotency_key t) (ct_order_id t) cap) as Hg by (split_and!; by rewrite ?Hc).
    pose proof (cancel_record_valid _ _ _ _ su Hi Hb Hg) as Hv. rewrite Hc in Hv. by rewrite (Hv Hsu). }
  exists x. destruct (cancel_cases _ _ _ _ _ Hrun) as
    [(e & [=] & _)|[(x' & _ & _ & Hg & _)|[(cap & e & _ & [=] & _)|(cap & su & Hg & [= ->] & ->)]]]; [congruence|].
  rewrite Hc in *. split; [done|]. destruct Hg as (_ & _ & _ & Hcap). by rewrite Hc in Hcap.
Qed.

(** Voiding one order leaves the others as they are. *)
Lemma void_other o k x oid t : ct_order_id t ≠ oid → canon (ct_order_id t) = ct_order_id t →
  eligible o t → eligible (set_cancels (dset k x) (add_cancelled oid o)) t ∧
  captured_total (set_cancels (dset k x) (add_cancelled oid o)) (ct_order_id t) = captured_total o (ct_order_id t).
Proof.
  intros Hne Hc [Hst%cancellable_placed Hr]. split; [|done]. split; [|done]. apply cancellable_placed.
  revert Hst. unfold order_status. rewrite Hc. cbn [set_cancels add_cancelled cancelled_ids orders].
  case_decide; [done|]. by rewrite decide_False by set_solver.
Qed.

Lemma void_all_ids ts : ∀ o, orders_ok o → Forall target_ok ts →
  bo_order_id <$> (void_all o ts).2 = ct_order_id <$> ts ∧ orders_ok (void_all o ts).1.
Proof.
  induction ts as [|t ts IH]; intros o Hok Hts; [done|]. apply Forall_cons in Hts as [Ht Hts]. cbn [void_all].
  destruct (void_target o t) as [o1 out] eqn:Hv. destruct (void_target_run _ _ _ _ Hok Ht Hv) as (Hok1 & Hid & _).
  destruct (IH o1 Hok1 Hts) as [Hids Hok2]. destruct (void_all o1 ts) as [o2 outs]. cbn in *. split; [|done]. congruence.
Qed.

Lemma void_all_status ts : ∀ o n, orders_ok o → order_status o n = Some CANCELLED_STATUS →
  order_status (void_all o ts).1 n = Some CANCELLED_STATUS.
Proof.
  induction ts as [|t ts IH]; intros o n Hok Hst; [done|]. cbn [void_all].
  destruct (void_target o t) as [o1 out] eqn:Hv. destruct (void_all o1 ts) as [o2 outs] eqn:Ha.
  unfold void_target in Hv. destruct (cancel_order _ _ o) as [o1' r] eqn:Hrun.
  assert (o1' = o1) as -> by (by destruct r; simplify_eq).
  destruct (cancel_order_run _ _ _ _ _ Hok Hrun) as [Hok1 _]. cbn.
  replace o2 with (void_all o1 ts).1 by (by rewrite Ha). apply IH; [done|].
  pose proof (run_call_status (CallCancel (ct_idempotency_key t) (ct_order_id t)) o n (ok_inv _ Hok)) as Hm.
  cbn in Hm. rewrite Hrun, Hst in Hm. cbn in Hm. by inversion Hm.
Qed.

Lemma void_all_eligible ts : ∀ o, orders_ok o → Forall target_ok ts → Forall (eligible o) ts →
  NoDup (ct_order_id <$> ts) → NoDup (ct_idempotency_key <$> ts) →
  Forall (λ t, dget (ct_idempotency_key t) (cancels_by_key o) = None) ts →
  Forall2 (λ t out, bo_outcome out = oc_cancelled ∧ bo_amount_usd out = captured_total o (ct_order_id t) ∧
    order_status (void_all o ts).1 (ct_order_id t) = Some CANCELLED_STATUS) ts (void_all o ts).2.
Proof.
  induction ts as [|t ts IH]; intros o Hok Hts Hel Hnd Hndk Hk; [constructor|].
  apply Forall_cons in Hts as [Ht Hts]. apply Forall_cons in Hel as [He Hel]. apply Forall_cons in Hk as [Hkt Hk].
  cbn in Hnd, Hndk. apply NoDup_cons in Hnd as [Hn Hnd]. apply NoDup_cons in Hndk as [Hnk Hndk]. cbn [void_all].
  destruct (void_eligible o t Hok Ht He Hkt) as (x & Hv & Hcap). rewrite Hv.
  set (o1 := set_cancels _ _) in *.
  assert (orders_ok o1) as Hok1 by (by apply (void_target_run _ _ _ _ Hok Ht Hv)).
  assert (order_status o1 (ct_order_id t) = Some CANCELLED_STATUS) as Hst1.
  { unfold order_status. rewrite (proj1 Ht), decide_True; [done|]. cbn. set_solver. }
  assert (∀ t', t' ∈ ts → eligible o1 t' ∧ captured_total o1 (ct_order_id t') = captured_total o (ct_order_id t') ∧
    dget (ct_idempotency_key t') (cancels_by_key o1) = None) as Hrest.
  { intros t' Hin. rewrite Forall_forall in Hts, Hel, Hk.
    destruct (void_other o (ct_idempotency_key t) x (ct_order_id t) t') as [? ?];
      [intros Heq; apply Hn; rewrite <-Heq; by apply list_elem_of_fmap_2|by apply Hts|by apply Hel|].
    split_and!; [done..|]. cbn. rewrite dget_dset_ne; [by apply Hk|].
    intros Heq. apply Hnk. rewrite Heq. by apply list_elem_of_fmap_2. }
  pose proof (void_all_status ts o1 (ct_order_id t) Hok1 Hst1) as Hkeep.
  assert (Forall (eligible o1) ts ∧ Forall (λ t, dget (ct_idempotency_key t) (cancels_by_key o1) = None) ts) as [He1 Hk1].
  { split; apply Forall_forall; intros t' Hin; by apply Hrest. }
  pose proof (IH o1 Hok1 Hts He1 Hnd Hndk Hk1) as HF.
  destruct (void_all o1 ts) as [o2 outs]. by constructor.
Qed.

Lemma finish_cancel_orders {P PS R E} `{OtpPort P} `{SessionPersistence PS E} fingerprint (env : node_env E) b out abort :
  keeps w_orders (finish_cancel (P:=P) (R:=R) fingerprint env b out abort).
Proof. unfold finish_cancel. keeps_steps. Qed.

Definition cancel_call (t : CancelTarget) : M OrderStore CancelRecord :=
  cancel_order (ct_idempotency_key t) (ct_order_id t).

Definition due_target st : option CancelTarget :=
  b ← pending_cancel_batch st; cb_targets b !! length (cb_outcomes b).

(** All a run of the effect does to the orders. *)
Lemma cancel_void_orders {P PS R E} `{OtpPort P} `{SessionPersistence PS E} fingerprint (env : node_env E) st
    ans (w : World P PS R) :
  w_orders (cancel_void_node fingerprint env st (ans, w)).1.2 =
    match due_target st with Some t => (cancel_call t (w_orders w)).1 | None => w_orders w end.
Proof.
  unfold cancel_void_node, due_target. destruct (pending_cancel_batch st) as [b|]; [|done].
  cbv [mbind N_bind the mret N_ret option_bind]. destruct (cb_targets b !! _) as [t|] eqn:Hl; [|done].
  unfold except, on_orders, zoom, act. fold (cancel_call t).
  destruct (cancel_call t (w_orders w)) as [o [e|record]]; cbn.
  - case_decide; [|done]. destruct (target_outcome t oc_store_refused); [done|]. apply finish_cancel_orders.
  - destruct (cancelled_batch_outcome record) as [e|out]; cbn; [case_decide; [|done]|apply finish_cancel_orders].
    destruct (target_outcome t oc_store_refused); [done|]. apply finish_cancel_orders.
Qed.

Lemma cancel_replay t o : orders_ok o → (cancel_call t (cancel_call t o).1).1 = (cancel_call t o).1.
Proof.
  intros Hok. destruct (cancel_call t o) as [o' r] eqn:Hrun. cbn.
  destruct (cancel_order_run _ _ _ _ _ Hok Hrun) as [_ Hr]. destruct r as [e|x].
  - destruct Hr as [-> _]. by rewrite Hrun.
  - pose proof (stored_replay (CallCancel (ct_idempotency_key t) (ct_order_id t)) o' (RCancel x)) as Hrep.
    assert (perform (CallCancel (ct_idempotency_key t) (ct_order_id t)) o = (o', inr (RCancel x))) as Hp.
    { cbn. munfold_goal. unfold cancel_call in Hrun. by rewrite Hrun. }
    specialize (Hrep (perform_stored _ _ _ _ Hp)). cbn in Hrep. munfold. unfold cancel_call.
    by destruct (cancel_order _ _ o') as [? []]; simplify_eq.
Qed.

(** C33 A confirmed batch runs to its end, one target at a time, each exactly once: over a reachable
    kind of store and targets in normal form, as many runs of the effect node as there are
    targets leave the loop (whatever their clocks); the orders are then what voiding the targets
    one after another gives, with one outcome per target in the order of the targets; when every
    target is eligible and the orders and keys are distinct and the keys fresh, every outcome is
    a cancellation of the captured total and every order is cancelled.  Nothing else of the world
    changes but the session, which is asked once, by the last run, to record the orders named,
    the ineligible ones first, each with how it ended, as a cancellation under the key of the last
    target.  Either it does, and then the batch is closed with the turn's ownership, its outcomes
    are said in one sentence and the revision of that record is kept; or the node fails with the
    error of that record, and the batch is kept with all outcomes but the last, for recovery. *)
Theorem cancel_batch_completes {P PS R E} `{OtpPort P} `{SessionPersistence PS E} fingerprint am
    (envs : list (node_env E)) st (w : World P PS R) b :
  pending_cancel st = Some (pending_batch b) → cb_outcomes b = [] → cb_targets b ≠ [] →
  orders_ok (w_orders w) → Forall target_ok (cb_targets b) →
  Forall (λ o, BatchCancelOutcome_valid o = true) (cb_ineligible b) →
  (length (cb_targets b) ≤ length envs)%nat →
  let ts := cb_targets b in
  let '(o', outs) := void_all (w_orders w) ts in
  let all := cb_ineligible b ++ outs in
  bo_order_id <$> outs = ct_order_id <$> ts ∧
  (Forall (eligible (w_orders w)) ts → NoDup (ct_order_id <$> ts) → NoDup (ct_idempotency_key <$> ts) →
   Forall (λ t, dget (ct_idempotency_key t) (cancels_by_key (w_orders w)) = None) ts →
   Forall2 (λ t out, bo_outcome out = oc_cancelled ∧
     bo_amount_usd out = captured_total (w_orders w) (ct_order_id t) ∧
     order_status o' (ct_order_id t) = Some CANCELLED_STATUS) ts outs) ∧
  ∃ st' w' r env t, void_loop fingerprint am envs st w = (st', w', Some r) ∧
    envs !! pred (length ts) = Some env ∧ last ts = Some t ∧
    w' = set_session (w_session w') (set_orders o' w) ∧
    let recorded :=
      (op ← lift (recent_orders_operation_id op_cancel (ct_idempotency_key t));
       record_recent_orders fingerprint (ne_publish env) op (bo_order_id <$> all) op_cancel (bo_order_id <$> last all)
         ((λ o, (bo_order_id o, outcome_text (bo_outcome o))) <$> all)) (w_session w) in
    match r with
    | Done _ => pending_cancel st' = None ∧ execution_owner st' = None ∧
        messages st' = am (messages st) [AIMessage (batch_sentence all) []] ∧
        ∃ v, recorded = (w_session w', inr (v, session_revision st'))
    | Raised e => pending_cancel_batch st' = Some (with_outcomes (removelast outs) b) ∧ recorded = (w_session w', inl e)
    | Suspended _ => False
    end.
Proof.
  intros Hp Hno Hne Hok Hts Hv Hlen ts.
  assert (pending_cancel_batch st = Some b) as Hb by (unfold pending_cancel_batch; by rewrite Hp).
  pose proof (void_loop_run fingerprint am ts envs st w b Hb) as Hrun. rewrite Hno, app_nil_r in Hrun.
  specialize (Hrun eq_refl Hne Hok Hts Hlen Hv).
  pose proof (void_all_ids ts (w_orders w) Hok Hts) as [Hids _].
  pose proof (void_all_eligible ts (w_orders w) Hok Hts) as Hel.
  destruct (void_all (w_orders w) ts) as [o' outs].
  split; [done|]. split; [done|]. exact Hrun.
Qed.

(** Replaying the effect node, for a crash between its write and the checkpoint, voids nothing
    more: after any run of it, any later run from the same state on the orders it left leaves
    them as they are. *)
Theorem cancel_void_replay {P PS R E} `{OtpPort P} `{SessionPersistence PS E} fingerprint
    (env env2 : node_env E) st ans ans2 (w w2 : World P PS R) :
  orders_ok (w_orders w) →
  let w' := (cancel_void_node fingerprint env st (ans, w)).1.2 in
  w_orders w2 = w_orders w' →
  w_orders (cancel_void_node fingerprint env2 st (ans2, w2)).1.2 = w_orders w2.
Proof.
  intros Hok w' Hw2. subst w'. rewrite cancel_void_orders in *. rewrite Hw2.
  destruct (due_target st); [|done]. by apply cancel_replay.
Qed.

(** ** The guardrail and the readback *)
#[export] Instance eligible_dec o t : Decision (eligible o t).
Proof. unfold eligible. apply _. Defined.

Lemma partition_spec o ts : Forall target_ok ts → ∃ bad, partition_targets o ts = inr (filter (eligible o) ts, bad) ∧
  bo_order_id <$> bad = ct_order_id <$> filter (λ t, ¬ eligible o t) ts ∧
  Forall (λ out, BatchCancelOutcome_valid out = true ∧ bo_outcome out ≠ oc_cancelled) bad.
Proof.
  induction 1 as [|t ts Ht _ (bad & IH & Hids & Hbad)]; [by exists []|].
  cbn [partition_targets]. munfold_goal. rewrite IH, !filter_cons.
  destruct (preflight_spec o t Ht) as [[He ->]|[Hne (out & -> & Hid & Hv & Hc)]].
  - rewrite decide_True, decide_False by tauto. eauto.
  - rewrite decide_False, decide_True by tauto. exists (out :: bad). cbn. rewrite Hid, Hids. auto.
Qed.

Section guard.
Context {P PS R E : Type} `{OtpPort P} `{RiskPort R} (policy : PolicyContext).
Context (am : list Message → list Message → list Message).
Notation W := (World P PS R).
Implicit Types (w : W) (env : node_env E) (st : ReasoningState) (b : PendingCancelBatch).

(** The risk engine's verdict on cancelling these orders in this session. *)
Definition cancel_risk w (ts : list CancelTarget) : res RiskDecision :=
  subject ← make_OrderRiskSubject (risk_tenant_id (w_risk w)) (Guest.session_id (w_guest w)) (ct_order_id <$> ts);
  risk_assess (w_risk w) (inr subject).

(** The batch guardrail: it only reads; a blocked session is handed to a person with nothing
    said and the batch dropped; otherwise the batch goes to its readback exactly when it is
    within the cap and some target is eligible (processing, nothing refunded), carrying exactly
    the eligible targets in their order, and one stated reason for each of the others; in all
    other cases it is dropped, with the turn's ownership, and one line is said. *)
Theorem cancel_guardrail_partition env st ans w s' ws b :
  cancel_guardrail_node policy env st (ans, w) = (s', Done ws) →
  pending_cancel st = Some (pending_batch b) → handover st = None → Forall target_ok (cb_targets b) →
  let st' := apply_update am ws st in
  let ts := cb_targets b in
  s' = (ans, w) ∧
  match route_after_cancel_guardrail st' with
  | cx_handover => cancel_risk w ts = inr BLOCKED ∧ pending_cancel st' = None ∧ execution_owner st' = None ∧
      messages st' = messages st
  | cx_confirm => cancel_risk w ts = inr CLEAR ∧ Z.of_nat (length ts) ≤ cancel_batch_max policy ∧
      ∃ b', pending_cancel st' = Some (pending_batch b') ∧ cb_targets b' = filter (eligible (w_orders w)) ts ∧
        cb_targets b' ≠ [] ∧ cb_outcomes b' = cb_outcomes b ∧ cb_created_at b' = cb_created_at b ∧
        bo_order_id <$> cb_ineligible b' = ct_order_id <$> filter (λ t, ¬ eligible (w_orders w) t) ts ∧
        Forall (λ out, BatchCancelOutcome_valid out = true) (cb_ineligible b')
  | cx_declined => cancel_risk w ts = inr CLEAR ∧ (∃ line, ws = cancel_ends line) ∧
      (cancel_batch_max policy < Z.of_nat (length ts) ∨ filter (eligible (w_orders w)) ts = [])
  end.
Proof.
  intros Hrun Hp Hh Hts. cbv zeta. unfold cancel_guardrail_node, pending_cancel_batch in Hrun. rewrite Hp in Hrun.
  nsteps. assert (cancel_risk w (cb_targets a) = inr a1) as Hrisk.
  { unfold cancel_risk. rewrite Ha. exact Ha0. }
  destruct a1.
  2: { nsteps. by split. }
  destruct (_ <? _) eqn:Hcap in Hrun.
  { nsteps. split; [done|]. unfold route_after_cancel_guardrail. cbn. rewrite Hh. bools. split_and!; eauto. }
  destruct (partition_spec (w_orders w) _ Hts) as (bad & Hpart & Hids & Hbad). rewrite Hpart in Hrun. nsteps.
  cbn [fst snd] in Hrun. destruct (filter (eligible (w_orders w)) (cb_targets a)) as [|t ts] eqn:Hel.
  - nsteps. split; [done|]. unfold route_after_cancel_guardrail. cbn. rewrite Hh. split_and!; eauto.
  - nsteps. split; [done|]. unfold route_after_cancel_guardrail. cbn. rewrite Hh. cbn. bools.
    split_and!; [done|lia|]. eexists. split_and!; try done.
    eapply Forall_impl; [exact Hbad|]. by intros ? [? _].
Qed.

Lemma cancel_confirm_pure env st : pure_node (cancel_confirm_node (P:=P) (PS:=PS) (R:=R) policy env st).
Proof. unfold cancel_confirm_node. pure_steps. Qed.
Lemma cancel_confirm_spec env st ans w s' ws b :
  cancel_confirm_node (P:=P) (PS:=PS) (R:=R) policy env st (ans, w) = (s', Done ws) → pending_cancel_batch st = Some b →
  s'.2 = w ∧
  ((ws = [] ∧ heard_yes true ans s'.1 ∧ ne_now env - cb_created_at b ≤ pending_ttl_seconds policy) ∨
   pending_cancel (apply_update am ws st) = None).
Proof.
  intros Hrun Hp. pose proof (cancel_confirm_pure env st ans w) as Hpure. rewrite Hrun in Hpure.
  cbn in Hpure. split; [done|]. clear Hpure. unfold cancel_confirm_node in Hrun. rewrite Hp in Hrun. confirm_run Hrun.
Qed.
End guard.

(** ** Scopes and steers *)
Lemma take_cancellable_all s n g : ∀ acc l, take_cancellable s n acc g = inr (l, false) →
  ∃ xs, g = inr <$> xs ∧ l = acc ++ filter (λ c, is_cancellable s (oc_order_id c) = true) xs.
Proof.
  induction g as [|[e|c] g IH]; intros acc l; cbn; [|done|].
  - intros [= <-]. exists []. by rewrite app_nil_r.
  - destruct (is_cancellable s (oc_order_id c)) eqn:Hc; cbn.
    + destruct (length acc =? n)%nat; [done|]. intros (xs & -> & ->)%IH. exists (c :: xs).
      rewrite filter_cons, decide_True by done. by rewrite <-app_assoc.
    + intros (xs & -> & ->)%IH. exists (c :: xs). rewrite filter_cons, decide_False by congruence. done.
Qed.

Lemma unauthorized_none {P PS R} (w : World P PS R) cs : unauthorized_among w cs = inr [] →
  Forall (λ c, order_read_allowed (oc_order_id c) (w_orders w) (w_guest w) (w_identity w) = inr true) cs.
Proof.
  induction cs as [|c cs IH]; [constructor|]. cbn [unauthorized_among]. munfold.
  destruct (order_read_allowed (oc_order_id c) (w_orders w) (w_guest w) (w_identity w)) as [|[]] eqn:Ha;
    [done| |]; destruct (unauthorized_among w cs);
    intros; simplify_eq; constructor; auto.
Qed.

Lemma mint_targets {E} (env : node_env E) (nl : list (nat * (string * string))) : ∀ ts,
  mapR (λ '(i, (oid, summary)), make_CancelTarget oid summary (ne_fresh env i)) nl = inr ts →
  (λ t, (ct_order_id t, ct_summary t)) <$> ts = nl.*2.
Proof.
  induction nl as [|[i [oid su]] nl IH]; intros ts; cbn; [by intros [= <-]|].
  munfold. unfold make_CancelTarget at 1. munfold. destruct (_ && _); [|done].
  destruct (mapR _ nl) as [|ts'] eqn:Ht; [done|]. intros [= <-]. cbn. by rewrite (IH _ eq_refl).
Qed.

Lemma mint_cancel_targets {E} (env : node_env E) l batch : mint_cancel_batch env l = inr batch →
  (λ t, (ct_order_id t, ct_summary t)) <$> cb_targets batch = l ∧ cb_outcomes batch = [].
Proof.
  unfold mint_cancel_batch, make_PendingCancelBatch. munfold. intros Hm.
  destruct (mapR _ _) as [|ts] eqn:Ht; [done|]. destruct (_ <=? _)%nat; [|done]. injection Hm as <-. cbn.
  split; [|done]. rewrite (mint_targets _ _ _ Ht). clear. rewrite fmap_imap.
  rewrite (imap_ext _ (const id)) by done. by rewrite imap_const, list_fmap_id.
Qed.

(** A resolved scope is exactly the caller's own: when the resolve node freezes a batch, a
    customer is bound, and the batch's targets are all of the orders of the owned and this
    session's listing that can be cancelled, in that order, each one the binding may read, at
    most the cap, and two of them for "both"; in all other cases nothing is frozen and one line
    is said. *)
Theorem resolve_own_orders {P PS R E} policy am (env : node_env E) st ans (w : World P PS R) s' ws :
  resolve_node policy env st (ans, w) = (s', Done ws) →
  let st' := apply_update am ws st in
  s' = (ans, w) ∧
  ((route_after_resolve st' = false ∧ ∃ line, ws = cancel_ends line) ∨
   (route_after_resolve st' = true ∧ execution_owner st' = Some owner_support ∧
    ∃ bound owned batch, current (w_identity w) = Some bound ∧
      iter_owned_orders (w_orders w) (customer_ref bound) (w_guest w) = inr <$> owned ∧
      let mine := filter (λ c, is_cancellable (w_orders w) (oc_order_id c) = true) owned in
      pending_cancel st' = Some (pending_batch batch) ∧ cb_outcomes batch = [] ∧
      (λ t, (ct_order_id t, ct_summary t)) <$> cb_targets batch = (λ c, (oc_order_id c, oc_summary c)) <$> mine ∧
      Forall (λ c, order_read_allowed (oc_order_id c) (w_orders w) (w_guest w) (w_identity w) = inr true) mine ∧
      (1 ≤ length mine)%nat ∧ Z.of_nat (length mine) ≤ cancel_batch_max policy ∧
      (pending_cancel_scope st = Some both_cancellable → length mine = 2%nat))).
Proof.
  intros Hrun. cbv zeta. unfold resolve_node in Hrun. nsteps.
  destruct (current (w_identity w)) as [bound|] eqn:Hb; [|nsteps; split; [done|left; split; [done|eauto]]].
  nsteps. destruct a0 as [cs more]. nsteps.
  destruct (negb _) eqn:Hau in Hrun; [nsteps; split; [done|left; split; [done|eauto]]|].
  case_bool_decide as Hne; [nsteps; split; [done|left; split; [done|eauto]]|].
  destruct (_ && _) eqn:Hboth in Hrun; [nsteps; split; [done|left; split; [done|eauto]]|].
  destruct (_ || _) eqn:Hcap in Hrun; nsteps; (split; [done|]); [left; split; [done|eauto]|right].
  bools. split_and!; [done..|]. subst.
  match goal with H : owned_cancellable_orders _ _ _ _ = _ |- _ =>
    unfold owned_cancellable_orders in H; apply requires_then in H as [_ H];
    apply take_cancellable_all in H as (owned & Hown & Hl) end. cbn in Hl. subst cs.
  match goal with H : unauthorized_among _ _ = _ |- _ => apply unauthorized_none in H end.
  match goal with H : mint_cancel_batch _ _ = _ |- _ => apply mint_cancel_targets in H as [Hts Hno] end.
  eexists bound, owned, _. split_and!; try done.
  - destruct (filter _ owned); [done|]. cbn. lia.
  - intros Hs. rewrite Hs in *. simplify_eq. rewrite bool_decide_eq_true_2 in Hboth by done. cbn in Hboth.
    by apply negb_false_iff, Nat.eqb_eq in Hboth.
Qed.

(** No remedy is offered and then refused: when the refund guardrail turns a refund into a
    return, the return guardrail accepts that return as it is (on the same orders and clock); and
    when it turns it into a cancellation, the cancel guardrail takes the batch on to its
    readback with this order as its target, unless the session is blocked. *)
Theorem refund_remedy_accepted {P PS R E} `{OtpPort P} `{RiskPort R} policy am (env : node_env E) st ans
    (w : World P PS R) s' ws p :
  guardrail_node policy env st (ans, w) = (s', Done ws) → 1 ≤ cancel_batch_max policy →
  pending_refund st = Some p → pending_cancel st = None → pending_return st = None → handover st = None →
  let st' := apply_update am ws st in
  (route_after_guardrail st' = rf_return →
   return_guardrail_node policy env st' (ans, w) = ((ans, w), Done []) ∧
   route_after_return_guardrail (apply_update am [] st') = rn_confirm) ∧
  (∀ s2 ws2, route_after_guardrail st' = rf_cancel → canon (pr_order_id p) = pr_order_id p →
   cancel_guardrail_node policy env st' (ans, w) = (s2, Done ws2) →
   let st2 := apply_update am ws2 st' in
   handover st2 ≠ None ∨
   (route_after_cancel_guardrail st2 = cx_confirm ∧
    ∃ b, pending_cancel_batch st2 = Some b ∧ ct_order_id <$> cb_targets b = [pr_order_id p])).
Proof.
  intros Hrun Hmax Hp Hc Hr Hh. cbv zeta.
  destruct (guardrail_run policy am env st ans w s' ws p Hrun Hp Hc Hr) as (-> & Hh' & Ht). rewrite Hh in Hh'.
  unfold refund_tiers in Ht.
  split.
  - intros Hroute. rewrite Hroute in Ht. destruct Ht as (pn & Hpn & Hid & Hdue & Href & _ & _ & Hle & Hel).
    assert (pending_cancel (apply_update am ws st) = None) as Hpc.
    { revert Hroute. unfold route_after_guardrail. by destruct (pending_cancel (apply_update am ws st)). }
    split.
    + unfold return_guardrail_node. rewrite Hpn. cbv [mbind N_bind the mret N_ret here act get val lift].
      rewrite Hid, Hel, Hdue. by rewrite (proj2 (Z.ltb_ge _ _)).
    + unfold route_after_return_guardrail.
      change (pending_cancel (apply_update am [] (apply_update am ws st))) with (pending_cancel (apply_update am ws st)).
      change (pending_return (apply_update am [] (apply_update am ws st))) with (pending_return (apply_update am ws st)).
      by rewrite Hpc, Hpn.
  - intros s2 ws2 Hroute Hcan Hg. rewrite Hroute in Ht.
    destruct Ht as (b & su & Hb & Hm & _ & Hst).
    destruct (mint_cancel_one _ _ _ _ Hm) as (Hts & _ & _ & _ & Hn & Hs).
    set (t := mkCancelTarget (pr_order_id p) su (ne_fresh env 0)) in *.
    unfold cancel_guardrail_node, pending_cancel_batch in Hg. rewrite Hb in Hg.
    nsteps. match type of Hg with (match ?d with _ => _ end) _ = _ => destruct d end; [|by nsteps; left].
    rewrite Hts in Hg. cbn [length Z.of_nat] in Hg. rewrite (proj2 (Z.ltb_ge _ _)) in Hg by lia.
    assert (eligible (w_orders w) t) as Hel by (destruct Hst as (_ & _ & Hz & Hcn); split; cbn; [done|lia]).
    assert (target_ok t) as Ht by done.
    destruct (preflight_spec (w_orders w) t Ht) as [[_ Hpf]|[Hne _]]; [|done].
    assert (partition_targets (w_orders w) [t] = inr ([t], [])) as Hpart.
    { cbn [partition_targets]. by rewrite Hpf. }
    rewrite Hpart in Hg. right. nsteps. cbn [fst snd] in Hg. nsteps. split.
    + unfold route_after_cancel_guardrail.
      change (handover (apply_update am _ ?s)) with (handover s). by rewrite Hh'.
    + by eexists.
Qed.
