(* ===== verification/SupportProfile.v ===== *)
(** * Profile changes (agents/support/flow.py)

    The profile sub-path of the support flow: the guardrail before the
    mandatory step-up, the readback, and the effect node with its finisher. *)

From S2P Require Import Prelude PyText Orders OrderScope OrderStore Identity Profile.
From S2P Require Import Verification OtpProvider ProofStore Consent Confirmation SessionState Requests.
From S2P Require Import Reasoning Nodes Stepup SupportBase.
Local Open Scope Z_scope.
Local Open Scope list_scope.

Definition profile_ends (line : string) : list Write :=
  [W_pending_profile_change None; W_execution_owner None; say line].

Definition profile_reason (f : ProfileField) : HandoffReasonCode :=
  match f with address => hr_address_change | contact => hr_contact_change end.

Section profile.
Context {P PS R E : Type} `{OtpPort P} (policy : PolicyContext).
Notation W := (World P PS R).
Notation node := (N W (list Write)).
Implicit Types (w : W) (env : node_env E) (st : ReasoningState).

Definition profile_authorized (now : Z) (s : VerificationStore P) (p : PendingProfileChange) : res bool :=
  subj ← profile_subject s p;
  inr (authorization_satisfies now s subj (profile_change_required_level (pf_field p))).

(** The missing level is only recorded. *)
Definition profile_guardrail_node env st : node :=
  pending ← the (pending_profile_change st);
  w ← here;
  val (profile_authorized (se_now (ne_store env)) (w_verification w) pending) ;;
  mret [].

Inductive ProfileRoute := pc_stepup.
Definition route_after_profile_guardrail st : res ProfileRoute :=
  match pending_profile_change st with Some _ => inr pc_stepup | None => raises AssertionError "" end.

(** ** The readback *)
Definition profile_confirm_node env st : node :=
  pending ← the (pending_profile_change st);
  if pending_ttl_seconds policy <? ne_now env - pf_created_at pending then
    mret (profile_ends ("That change sat for a while, so I haven't updated anything. If " +:+
      "you'd still like it, just tell me again."))
  else
    phrase ← val (profile_confirmation_phrase pending);
    decision ← readback_decision ("Just to confirm - " +:+ phrase +:+ ". Shall I go ahead?")
                 ("Sorry - just to be clear: " +:+ phrase +:+ "? Yes or no?") false;
    match verdict decision with
    | human =>
        source ← the (handoff_source decision);
        mret [W_pending_profile_change None; W_execution_owner None;
              hand_to (profile_reason (pf_field pending)) source]
    | decided no =>
        mret (profile_ends "Okay, I'll leave your details as they are - nothing has changed.")
    | decided unclear => mret (profile_ends "I didn't get a clear yes, so your details are unchanged.")
    | decided yes => mret []
    end.

(** ** The effect *)
Definition finish_profile_change (record : ProfileChangeRecord) : node :=
  (if bool_decide (ch_field record = contact) then on_verification Verification.clear else mret tt) ;;
  mret (profile_ends ("Done - the " +:+ profile_noun (ch_field record) +:+
          " on your account is updated to " +:+ ch_new_value record +:+ ".")).

(** [bound is not None and bound.customer_ref == pending.customer_ref] *)
Definition binding_holds (i : CallerIdentityStore) (p : PendingProfileChange) : bool :=
  match current i with Some b => String.eqb (customer_ref b) (pf_customer_ref p) | None => false end.

Definition profile_place_node env st : node :=
  pending ← the (pending_profile_change st);
  w ← here;
  authorized ← val (profile_authorized (se_now (ne_store env)) (w_verification w) pending);
  if negb authorized || negb (binding_holds (w_identity w) pending) then
    mret [W_pending_profile_change None; W_execution_owner None;
          hand_to hr_verification_required DETERMINISTIC_POLICY]
  else
    except
      (record ← on_profiles (update_profile (pf_idempotency_key pending) (pf_customer_ref pending)
                               (pf_field pending) (pf_new_value pending));
       mret (inr record)) ProfileError
      (mret (inl tt)) ≫= λ result,
    match result with
    | inl _ =>
        mret [W_pending_profile_change None; W_execution_owner None;
              say "I wasn't able to update that - nothing has changed.";
              hand_to (profile_reason (pf_field pending)) DETERMINISTIC_POLICY]
    | inr record => finish_profile_change record
    end.

(** ** Lemmas *)
Lemma profile_confirm_pure env st : pure_node (profile_confirm_node env st).
Proof. unfold profile_confirm_node. pure_steps. Qed.
Lemma profile_confirm_spec am env st ans w s' ws p :
  profile_confirm_node env st (ans, w) = (s', Done ws) → pending_profile_change st = Some p →
  s'.2 = w ∧
  ((ws = [] ∧ heard_yes false ans s'.1 ∧ ne_now env - pf_created_at p ≤ pending_ttl_seconds policy) ∨
   pending_profile_change (apply_update am ws st) = None).
Proof.
  intros Hrun Hp. pose proof (profile_confirm_pure env st ans w) as Hpure. rewrite Hrun in Hpure.
  cbn in Hpure. split; [done|]. clear Hpure. unfold profile_confirm_node in Hrun. rewrite Hp in Hrun. confirm_run Hrun.
Qed.

Lemma finish_profile_keeps record : keeps w_profiles (finish_profile_change record : node).
Proof. unfold finish_profile_change. keeps_steps. Qed.
Lemma finish_profile_clears record ans w s' ws :
  ch_field record = contact → (finish_profile_change record : node) (ans, w) = (s', Done ws) →
  proofs_by_challenge (w_verification s'.2) = [].
Proof.
  intros Hf. unfold finish_profile_change. rewrite bool_decide_eq_true_2 by done.
  intros ([] & s1 & Hc & Hrun)%bind_done. apply ret_done in Hrun as [-> _].
  unfold on_verification, zoom, act, Verification.clear, with_otp in Hc. revert Hc. munfold_goal.
  destruct (otp_retain_only _ _ _) as [o [e|u]]; [done|]. by intros [= <-].
Qed.

Definition profile_call (p : PendingProfileChange) : M ProfileStore ProfileChangeRecord :=
  update_profile (pf_idempotency_key p) (pf_customer_ref p) (pf_field p) (pf_new_value p).

(** All a run of the effect does to the profiles. *)
Lemma profile_place_profiles env st ans w :
  w_profiles (profile_place_node env st (ans, w)).1.2 = w_profiles w ∨
  ∃ p, pending_profile_change st = Some p ∧
    profile_authorized (se_now (ne_store env)) (w_verification w) p = inr true ∧
    binding_holds (w_identity w) p = true ∧
    w_profiles (profile_place_node env st (ans, w)).1.2 = (profile_call p (w_profiles w)).1 ∧
    ∀ o record, profile_call p (w_profiles w) = (o, inr record) →
      profile_place_node env st (ans, w) = finish_profile_change record (ans, set_profiles o w).
Proof.
  unfold profile_place_node. destruct (pending_profile_change st) as [p|]; [|by left].
  cbv [mbind N_bind the mret N_ret here act get val lift].
  destruct (profile_authorized _ _ p) as [e|[]] eqn:Hau; [by left| |by left].
  destruct (binding_holds _ p) eqn:Hb; [|by left]. cbn [negb orb]. right. exists p. split_and!; [done..| |].
  - unfold except, on_profiles, zoom, act. fold (profile_call p).
    destruct (profile_call p (w_profiles w)) as [o [e|record]]; cbn; [case_decide; done|].
    apply finish_profile_keeps.
  - intros o record Hc. unfold except, on_profiles, zoom, act. fold (profile_call p). by rewrite Hc.
Qed.

(** C34 A profile changes only for the verified and bound customer: when a run of the effect (whatever
    it ends with) changes the profile store, the session is bound, at that moment, to the
    customer the change was proposed for, and this change's own subject is verified to its level;
    what is on file for that customer and field is the proposed value, every other customer and
    field reads as before; and when the contact itself changed and the run returned, no proof is
    left in the session. *)
Theorem profile_effect_authorized env st ans w :
  let run := profile_place_node env st (ans, w) in
  let w' := run.1.2 in
  w_profiles w' ≠ w_profiles w →
  ∃ p b, pending_profile_change st = Some p ∧
    profile_authorized (se_now (ne_store env)) (w_verification w) p = inr true ∧
    current (w_identity w) = Some b ∧ customer_ref b = pf_customer_ref p ∧
    current_value (w_profiles w') (pf_customer_ref p) (pf_field p) = inr (strip (pf_new_value p)) ∧
    (∀ c' f', (c', f') ≠ (pf_customer_ref p, pf_field p) →
       current_value (w_profiles w') c' f' = current_value (w_profiles w) c' f') ∧
    (pf_field p = contact → ∀ ws, run.2 = Done ws → proofs_by_challenge (w_verification w') = []).
Proof.
  cbv zeta. destruct (profile_place_profiles env st ans w) as [?|(p & Hp & Hau & Hb & Ho & Hrun)]; [done|].
  intros Hne. unfold binding_holds in Hb. destruct (current (w_identity w)) as [b|]; [|done].
  apply String.eqb_eq in Hb. rewrite Ho in *.
  destruct (profile_call p (w_profiles w)) as [o r] eqn:Hcall. cbn [fst] in *.
  destruct (update_profile_cases _ _ _ _ _ _ _ Hcall) as [[-> _]|(-> & -> & Hh & Hg & Hv & Hc)]; [done|].
  exists p, b. split_and!; try done.
  - unfold current_value. cbn [fixture changes_by_key set_changes].
    rewrite dset_fresh, latest_change_snoc by done. cbn [fst ch_field ch_new_value].
    rewrite String.eqb_refl, bool_decide_eq_true_2 by done. cbn.
    unfold has_profile, dmem in Hh. by destruct (dget _ (fixture _)).
  - intros c' f' Hcf. unfold current_value. cbn [fixture changes_by_key set_changes].
    rewrite dset_fresh, latest_change_snoc by done. cbn [fst ch_field].
    destruct (String.eqb_spec (pf_customer_ref p) c') as [Heq|]; [|done].
    by rewrite bool_decide_eq_false_2 by (intros <-; apply Hcf; by rewrite Heq).
  - intros Hf ws. rewrite (Hrun _ _ eq_refl). intros Hws.
    set (run := (finish_profile_change _ : node) _) in *.
    eapply (finish_profile_clears _ ans _ run.1 ws); [|subst run; rewrite <-Hws; apply surjective_pairing]. done.
Qed.
End profile.
