(* ===== verification/SupportGraph.v ===== *)
(** * The support part of the graph (agents/frontline/graph.py)

    The nodes of the support flow as the frontline graph wires them: which
    function a node runs, where its router sends the turn, and the runs these
    steps make.  Turns that end ([END]) and the human sink ([handover]) are
    final here. *)

From S2P Require Import Prelude PyText Orders OrderScope OrderStore Identity Profile.
From S2P Require Import Verification OtpProvider ProofStore Consent Confirmation SessionState Requests.
From S2P Require Import Reasoning Nodes Stepup SupportBase Graph SupportRefund SupportCancel SupportProfile.
Local Open Scope Z_scope.
Local Open Scope list_scope.

Inductive gnode :=
  | support_guardrail | support_risk_check | support_dispatch | support_collect | support_confirm
  | support_place | support_cancel_guardrail | support_cancel_confirm | support_cancel_void
  | support_resolve | support_return_guardrail | support_return_confirm | support_return_place
  | support_profile_guardrail | support_profile_risk_check | support_profile_dispatch
  | support_profile_collect | support_profile_confirm | support_profile_place
  | handover_node | END.
#[export] Instance gnode_eq_dec : EqDecision gnode.
Proof. solve_decision. Defined.

Section graph.
Context {P PS R E : Type} `{OtpPort P} `{RiskPort R} `{SessionPersistence PS E}.
Context (policy : PolicyContext) (fingerprint : SessionRequest → string).
Context (am : list Message → list Message → list Message).
Notation W := (World P PS R).
Notation node := (N W (list Write)).
Implicit Types (w : W) (env : node_env E) (st : ReasoningState) (n : gnode).

(** [node_registry.register(name, function, ...)] *)
Definition run_node n env st : node :=
  match n with
  | support_guardrail => guardrail_node policy env st
  | support_risk_check => w ← here; in_verification (risk_check_node (refund_stepup policy) (w_risk w) st)
  | support_dispatch => in_verification (dispatch_node (refund_stepup policy) (ne_store env) st)
  | support_collect => in_verification (collect_node (refund_stepup policy) (ne_store env) st)
  | support_confirm => refund_confirm_node policy env st
  | support_place => place_node fingerprint env st
  | support_cancel_guardrail => cancel_guardrail_node policy env st
  | support_cancel_confirm => cancel_confirm_node policy env st
  | support_cancel_void => cancel_void_node fingerprint env st
  | support_resolve => resolve_node policy env st
  | support_return_guardrail => return_guardrail_node policy env st
  | support_return_confirm => return_confirm_node policy env st
  | support_return_place => return_place_node fingerprint env st
  | support_profile_guardrail => profile_guardrail_node env st
  | support_profile_risk_check => w ← here; in_verification (risk_check_node (profile_stepup policy) (w_risk w) st)
  | support_profile_dispatch => in_verification (dispatch_node (profile_stepup policy) (ne_store env) st)
  | support_profile_collect => in_verification (collect_node (profile_stepup policy) (ne_store env) st)
  | support_profile_confirm => profile_confirm_node policy env st
  | support_profile_place => profile_place_node env st
  | handover_node | END => mret []
  end.

(** ** The routers *)
Definition route_support_guardrail st : gnode :=
  match route_after_guardrail st with
  | rf_confirm => support_confirm | rf_stepup => support_risk_check | rf_declined => END
  | rf_cancel => support_cancel_guardrail | rf_return => support_return_guardrail
  end.
(** The routers' dictionaries; a decision they do not list is a [KeyError]. *)
Definition risk_target (confirm dispatch : gnode) (r : StepupRoute) : res gnode :=
  match r with
  | to_confirm => inr confirm | to_dispatch => inr dispatch | to_handover => inr handover_node
  | to_collect => raises KeyError "collect"
  end.
Definition collect_target (confirm collect : gnode) (r : StepupRoute) : res gnode :=
  match r with
  | to_confirm => inr confirm | to_collect => inr collect | to_handover => inr handover_node
  | to_dispatch => raises KeyError "dispatch"
  end.
Definition route_after_support_risk (now : Z) w st : res gnode :=
  r ← route_after_risk (refund_stepup policy) now (w_verification w) st;
  risk_target support_confirm support_dispatch r.
Definition route_after_support_collect (now : Z) w st : res gnode :=
  r ← route_after_collect (refund_stepup policy) now (w_verification w) st;
  collect_target support_confirm support_collect r.
Definition route_after_support_confirm st : gnode :=
  if isSome (handover st) then handover_node
  else if isSome (pending_refund st) then support_place else END.
Definition route_after_support_place st : gnode := if isSome (handover st) then handover_node else END.
Definition route_after_support_cancel_guardrail st : gnode :=
  match route_after_cancel_guardrail st with
  | cx_confirm => support_cancel_confirm | cx_handover => handover_node | cx_declined => END
  end.
Definition route_after_support_cancel_confirm st : gnode :=
  if isSome (handover st) then handover_node
  else if isSome (pending_cancel st) then support_cancel_void else END.
Definition route_after_support_resolve st : gnode :=
  if route_after_resolve st then support_cancel_guardrail else END.
Definition route_after_support_return_guardrail st : gnode :=
  match route_after_return_guardrail st with
  | rn_confirm => support_return_confirm | rn_cancel => support_cancel_guardrail | rn_declined => END
  end.
Definition route_after_support_return_confirm st : gnode :=
  if isSome (handover st) then handover_node
  else if isSome (pending_return st) then support_return_place else END.
Definition route_after_support_return_place st : gnode := if isSome (handover st) then handover_node else END.
Definition route_after_support_profile_guardrail st : res gnode :=
  r ← route_after_profile_guardrail st; inr (match r with pc_stepup => support_profile_risk_check end).
Definition route_after_support_profile_risk (now : Z) w st : res gnode :=
  r ← route_after_risk (profile_stepup policy) now (w_verification w) st;
  risk_target support_profile_confirm support_profile_dispatch r.
Definition route_after_support_profile_collect (now : Z) w st : res gnode :=
  r ← route_after_collect (profile_stepup policy) now (w_verification w) st;
  collect_target support_profile_confirm support_profile_collect r.
Definition route_after_support_profile_confirm st : gnode :=
  if isSome (handover st) then handover_node
  else if isSome (pending_profile_change st) then support_profile_place else END.
Definition route_after_support_profile_place st : gnode := if isSome (handover st) then handover_node else END.

(** [graph.add_edge] and [graph.add_conditional_edges] *)
Definition next_node n (now : Z) w st : res gnode :=
  match n with
  | support_guardrail => inr (route_support_guardrail st)
  | support_risk_check => route_after_support_risk now w st
  | support_dispatch => inr support_collect
  | support_collect => route_after_support_collect now w st
  | support_confirm => inr (route_after_support_confirm st)
  | support_place => inr (route_after_support_place st)
  | support_cancel_guardrail => inr (route_after_support_cancel_guardrail st)
  | support_cancel_confirm => inr (route_after_support_cancel_confirm st)
  | support_cancel_void => inr (if route_after_support_cancel_void st then support_cancel_void else END)
  | support_resolve => inr (route_after_support_resolve st)
  | support_return_guardrail => inr (route_after_support_return_guardrail st)
  | support_return_confirm => inr (route_after_support_return_confirm st)
  | support_return_place => inr (route_after_support_return_place st)
  | support_profile_guardrail => route_after_support_profile_guardrail st
  | support_profile_risk_check => route_after_support_profile_risk now w st
  | support_profile_dispatch => inr support_profile_collect
  | support_profile_collect => route_after_support_profile_collect now w st
  | support_profile_confirm => inr (route_after_support_profile_confirm st)
  | support_profile_place => inr (route_after_support_profile_place st)
  | handover_node | END => inr END
  end.

Definition final n : bool := bool_decide (n = END ∨ n = handover_node).
Notation config := (config gnode W).
Notation event := (event gnode W (node_env E)).

(** Where the support capability's entry node and an identity continuation enter this part. *)
Definition entry (n : gnode) : bool :=
  bool_decide (n ∈ [support_guardrail; support_cancel_guardrail; support_return_guardrail;
                    support_profile_guardrail; support_resolve]).

(** The event is a readback of [n] whose last reply was a yes, in time. *)
Definition readback n (cancel_action : bool) (created : ReasoningState → option Z) (e : event) : Prop :=
  cf_node (ev_at e) = n ∧ heard_yes cancel_action (ev_heard e) [] ∧
  ∃ t, created (cf_state (ev_at e)) = Some t ∧ ne_now (ev_env e) - t ≤ pending_ttl_seconds policy.

(** The consent an effect node acts on: the readback of the very action it carries out. *)
Definition consent (c : config) (tr : list event) : Prop :=
  let st := cf_state c in
  match cf_node c with
  | support_place => ∃ e tr', tr = e :: tr' ∧
      readback support_confirm false (λ s, pr_created_at <$> pending_refund s) e ∧
      pending_refund (cf_state (ev_at e)) = pending_refund st
  | support_return_place => ∃ e tr', tr = e :: tr' ∧
      readback support_return_confirm false (λ s, pn_created_at <$> pending_return s) e ∧
      pending_return (cf_state (ev_at e)) = pending_return st
  | support_profile_place => ∃ e tr', tr = e :: tr' ∧
      readback support_profile_confirm false (λ s, pf_created_at <$> pending_profile_change s) e ∧
      pending_profile_change (cf_state (ev_at e)) = pending_profile_change st
  | support_cancel_void => ∃ voids e tr', tr = voids ++ e :: tr' ∧
      Forall (λ v, cf_node (ev_at v) = support_cancel_void) voids ∧
      readback support_cancel_confirm true (λ s, cb_created_at <$> pending_cancel_batch s) e ∧
      cb_targets <$> pending_cancel_batch (cf_state (ev_at e)) = cb_targets <$> pending_cancel_batch st
  | _ => False
  end.

Definition effect_node (n : gnode) : bool :=
  bool_decide (n ∈ [support_place; support_return_place; support_cancel_void; support_profile_place]).

(** ** Which nodes have effects *)
Lemma risk_orders (T : Type) `{Steppable T} (fam : Family P T) st V (view : W → V) :
  (∀ v w, view (set_verification v w) = view w) →
  keeps view (w ← here; in_verification (risk_check_node fam (w_risk w) st)).
Proof. intros Hv. apply keeps_bind; [by apply pure_keeps|]. intros w. by apply keeps_zoom. Qed.

Lemma step_keeps V (view : W → V) n env st :
  (∀ v w, view (set_verification v w) = view w) → effect_node n = false → keeps view (run_node n env st).
Proof.
  intros Hv Hn. destruct n; try done; cbn [run_node].
  all: try (apply (risk_orders PendingRefund); exact Hv).
  all: try (apply (risk_orders PendingProfileChange); exact Hv).
  all: try (apply keeps_zoom; exact Hv).
  all: apply pure_keeps.
  - unfold guardrail_node. pure_steps.
  - apply refund_confirm_pure.
  - unfold cancel_guardrail_node. pure_steps.
  - apply cancel_confirm_pure.
  - unfold resolve_node. pure_steps.
  - unfold return_guardrail_node. pure_steps.
  - apply return_confirm_pure.
  - unfold profile_guardrail_node. pure_steps.
  - apply profile_confirm_pure.
Qed.

Lemma next_effect n now w st n' : next_node n now w st = inr n' → effect_node n' = true →
  (n = support_confirm ∧ n' = support_place ∧ pending_refund st ≠ None) ∨
  (n = support_return_confirm ∧ n' = support_return_place ∧ pending_return st ≠ None) ∨
  (n = support_profile_confirm ∧ n' = support_profile_place ∧ pending_profile_change st ≠ None) ∨
  ((n = support_cancel_confirm ∨ n = support_cancel_void) ∧ n' = support_cancel_void ∧ pending_cancel st ≠ None).
Proof.
  intros Hn He.
  assert (∀ r c d, risk_target c d r = inr n' → n' = handover_node ∨ n' = c ∨ n' = d) as Hrisk by
    (intros [] c d [= <-]; auto).
  assert (∀ r c d, collect_target c d r = inr n' → n' = handover_node ∨ n' = c ∨ n' = d) as Hcollect by
    (intros [] c d [= <-]; auto).
  destruct n; cbn [next_node] in Hn.
  all: try (unfold route_after_support_risk, route_after_support_collect, route_after_support_profile_risk,
    route_after_support_profile_collect, route_after_support_profile_guardrail in Hn; cbv [mbind res_bind] in Hn;
    repeat case_match; simplify_eq;
    (apply Hrisk in Hn as [-> |[-> | ->]] || apply Hcollect in Hn as [-> |[-> | ->]] || idtac); done).
  all: injection Hn as <-.
  all: repeat match goal with H : effect_node ?f = true |- _ => progress unfold f in H end.
  all: unfold route_support_guardrail, route_after_support_confirm, route_after_support_place,
    route_after_support_cancel_guardrail, route_after_support_cancel_confirm, route_after_support_cancel_void,
    route_after_support_resolve, route_after_support_return_guardrail, route_after_support_return_confirm,
    route_after_support_return_place, route_after_support_profile_confirm, route_after_support_profile_place in *;
    repeat case_match; try done; unfold isSome in *; repeat case_match; try done; naive_solver.
Qed.

Lemma refund_readback env st heard w w' ws :
  refund_confirm_node policy env st (heard, w) = (([], w'), Done ws) →
  pending_refund (apply_update am ws st) ≠ None →
  apply_update am ws st = apply_update am [] st ∧ heard_yes false heard [] ∧
  ∃ t, pr_created_at <$> pending_refund st = Some t ∧ ne_now env - t ≤ pending_ttl_seconds policy.
Proof.
  intros Hrun Hne. assert (∃ p, pending_refund st = Some p) as [p Hp].
  { unfold refund_confirm_node in Hrun. apply bind_the in Hrun as (p & ? & _). eauto. }
  destruct (refund_confirm_spec policy am env st heard w _ ws p Hrun Hp) as [_ [(-> & Hy & Ht)|?]]; [|done].
  rewrite Hp. eauto.
Qed.
Lemma return_readback env st heard w w' ws :
  return_confirm_node policy env st (heard, w) = (([], w'), Done ws) →
  pending_return (apply_update am ws st) ≠ None →
  apply_update am ws st = apply_update am [] st ∧ heard_yes false heard [] ∧
  ∃ t, pn_created_at <$> pending_return st = Some t ∧ ne_now env - t ≤ pending_ttl_seconds policy.
Proof.
  intros Hrun Hne. assert (∃ p, pending_return st = Some p) as [p Hp].
  { unfold return_confirm_node in Hrun. apply bind_the in Hrun as (p & ? & _). eauto. }
  destruct (return_confirm_spec policy am env st heard w _ ws p Hrun Hp) as [_ [(-> & Hy & Ht)|?]]; [|done].
  rewrite Hp. eauto.
Qed.
Lemma profile_readback env st heard w w' ws :
  profile_confirm_node policy env st (heard, w) = (([], w'), Done ws) →
  pending_profile_change (apply_update am ws st) ≠ None →
  apply_update am ws st = apply_update am [] st ∧ heard_yes false heard [] ∧
  ∃ t, pf_created_at <$> pending_profile_change st = Some t ∧ ne_now env - t ≤ pending_ttl_seconds policy.
Proof.
  intros Hrun Hne. assert (∃ p, pending_profile_change st = Some p) as [p Hp].
  { unfold profile_confirm_node in Hrun. apply bind_the in Hrun as (p & ? & _). eauto. }
  destruct (profile_confirm_spec policy am env st heard w _ ws p Hrun Hp) as [_ [(-> & Hy & Ht)|?]]; [|done].
  rewrite Hp. eauto.
Qed.
Lemma cancel_readback env st heard w w' ws :
  cancel_confirm_node policy env st (heard, w) = (([], w'), Done ws) →
  pending_cancel (apply_update am ws st) ≠ None →
  apply_update am ws st = apply_update am [] st ∧ heard_yes true heard [] ∧
  ∃ t, cb_created_at <$> pending_cancel_batch st = Some t ∧ ne_now env - t ≤ pending_ttl_seconds policy.
Proof.
  intros Hrun Hne. assert (∃ b, pending_cancel_batch st = Some b) as [b Hp].
  { unfold cancel_confirm_node in Hrun. apply bind_the in Hrun as (b & ? & _). eauto. }
  destruct (cancel_confirm_spec policy am env st heard w _ ws b Hrun Hp) as [_ [(-> & Hy & Ht)|?]]; [|done].
  rewrite Hp. eauto.
Qed.

(** A run of the void node keeps the batch's targets while it keeps the batch. *)
Lemma void_keeps_targets env st heard w s' ws :
  cancel_void_node fingerprint env st (heard, w) = (s', Done ws) →
  pending_cancel (apply_update am ws st) ≠ None →
  cb_targets <$> pending_cancel_batch (apply_update am ws st) = cb_targets <$> pending_cancel_batch st.
Proof.
  intros Hrun Hne. unfold cancel_void_node in Hrun. apply bind_the in Hrun as (b & Hb & Hrun).
  apply bind_done in Hrun as (t & s1 & _ & Hrun). apply bind_done in Hrun as (out & s2 & _ & Hrun).
  unfold finish_cancel in Hrun. apply bind_done in Hrun as (t2 & s3 & _ & Hrun). cbv zeta in Hrun. nsteps.
  destruct (_ && _) in Hrun.
  - nsteps. rewrite Hb. done.
  - nsteps. apply bind_done in Hrun as (c & s4 & _ & Hrun). nsteps.
Qed.

Lemma runs_consent c0 tr c : entry (cf_node c0) = true → runs run_node next_node final am c0 tr c → effect_node (cf_node c) = true → consent c tr.
Proof.
  intros He Hr. induction Hr as [|tr c e c' _ IH Hstep]; intros Heff.
  { by destruct (cf_node c0). }
  destruct Hstep as [env heard w' ws now n' _ Hrun Hnext]. destruct c as [n st w].
  cbn [cf_node cf_state cf_world] in *.
  destruct (next_effect _ _ _ _ _ Hnext Heff) as
    [(-> & -> & Hp)|[(-> & -> & Hp)|[(-> & -> & Hp)|([-> | ->] & -> & Hp)]]]; unfold consent;
    cbn [cf_node cf_state run_node] in *.
  - destruct (refund_readback _ _ _ _ _ _ Hrun Hp) as (-> & Hy & Ht). by eexists _, _.
  - destruct (return_readback _ _ _ _ _ _ Hrun Hp) as (-> & Hy & Ht). by eexists _, _.
  - destruct (profile_readback _ _ _ _ _ _ Hrun Hp) as (-> & Hy & Ht). by eexists _, _.
  - destruct (cancel_readback _ _ _ _ _ _ Hrun Hp) as (-> & Hy & Ht). by eexists [], _, _.
  - specialize (IH eq_refl). unfold consent in IH. cbn [cf_node cf_state] in IH.
    destruct IH as (voids & e & tr' & -> & Hv & Hrb & Ht).
    eexists (_ :: voids), e, tr'. split_and!; [done|by constructor|done|].
    rewrite Ht. symmetry. by eapply void_keeps_targets.
Qed.

(** C1 Nothing moves without a yes: along any run of the support graph from one of its entries (the
    guardrails and the scope resolution), with any clocks, replies and provider answers, a step
    that changes the orders or the profiles is an effect node's, and the run reached it from the
    readback of the very action it carries out (the same pending refund, return, profile change
    or list of cancellation targets), heard in time and answered, last of all, with a yes; only
    earlier voids of the same batch lie between. *)
Theorem no_effect_without_consent c0 tr c e c' :
  entry (cf_node c0) = true → runs run_node next_node final am c0 tr c → gstep run_node next_node final am c e c' →
  w_orders (cf_world c') ≠ w_orders (cf_world c) ∨ w_profiles (cf_world c') ≠ w_profiles (cf_world c) →
  effect_node (cf_node c) = true ∧ consent c tr.
Proof.
  intros He Hr Hstep Hne. assert (effect_node (cf_node c) = true) as Heff.
  { destruct (effect_node (cf_node c)) eqn:Hn; [done|]. destruct Hstep as [env heard w' ws now n' _ Hrun _].
    pose proof (step_keeps _ w_orders (cf_node c) env (cf_state c) ltac:(done) Hn heard (cf_world c)) as H1'.
    pose proof (step_keeps _ w_profiles (cf_node c) env (cf_state c) ltac:(done) Hn heard (cf_world c)) as H2'.
    rewrite Hrun in H1', H2'. cbn in *. tauto. }
  split; [done|]. by eapply runs_consent.
Qed.
End graph.
