(* ===== verification/SupportTypes.v ===== *)
(** * The support graph keeps the conversation state valid

    Every update a node of the support graph returns writes values the state's
    validators accept, so that a step leads from a valid state to a valid one;
    the session revision it reports comes from a well-formed session. *)

From S2P Require Import Prelude PyText Orders OrderScope OrderStore Identity Profile.
From S2P Require Import Verification OtpProvider ProofStore Consent Confirmation SessionState SessionCommit.
From S2P Require Import SessionRefine Requests Reasoning Nodes Stepup SupportBase Graph SupportRefund.
From S2P Require Import SupportCancel SupportProfile SupportGraph.
Local Open Scope Z_scope.
Local Open Scope list_scope.

(** What the revisions of a persistence owe ([session_revision: int = Field(ge=0)]). *)
Class RevisionLaws (P E : Type) `{SessionPersistence P E} := {
  store_sane : P → Prop;
  publish_sane env n op fp pl v st st' r : 0 ≤ n → store_sane st →
    publish env n op fp pl v st = (st', inr r) → 0 ≤ rs_session_revision r ∧ store_sane st' }.

#[export] Program Instance registry_revisions : RevisionLaws SessionRow publish_env :=
  {| store_sane row := 0 ≤ row_revision row |}.
Next Obligation.
  intros env n op fp pl v st st' r Hn Hst. cbn. unfold registry_publish. munfold_goal.
  intros. repeat (case_match; simplify_eq/=); bools; lia.
Qed.

Section typed.
Context {P PS R E : Type} `{OtpPort P} `{RiskPort R} `{SessionPersistenceLaws PS E} `{!RevisionLaws PS E}.
Context (policy : PolicyContext) (fingerprint : SessionRequest → string).
Context (am : list Message → list Message → list Message).
Notation W := (World P PS R).
Implicit Types (w : W) (env : node_env E) (st : ReasoningState).

Definition session_sane (s : Session (P:=PS)) : Prop :=
  session_ok s ∧ 0 ≤ revision (coordinator s) ∧
  match persistence s with Some p => store_sane p | None => True end.
Definition world_ok w : Prop := session_sane (w_session w).

Lemma commit_sane (env : E) op request (s : Session (P:=PS)) : session_sane s →
  match commit_request fingerprint env op request s with
  | (s', inl _) => s' = s
  | (s', inr (_, n)) => 0 ≤ n ∧ session_sane s'
  end.
Proof.
  intros (Hok & Hr & Hp). pose proof (commit_request_outcome fingerprint env op request s Hok) as Ho.
  destruct (commit_request fingerprint env op request s) as [s' [e|[v n]]] eqn:Hc; [done|].
  destruct Ho as (Hok' & Hn & _). enough (0 ≤ n ∧ match persistence s' with Some p => store_sane p | None => True end)
    as [? ?] by (split; [done|split_and!; [done|lia|done]]).
  destruct (blank op) eqn:Hb; [destruct (commit_blank fingerprint env op request s Hb); congruence|].
  destruct (dget op (local_operations (coordinator s))) as [[fp v']|] eqn:Hk.
  { rewrite (commit_known fingerprint env op request s fp v' Hb Hk) in Hc.
    destruct (String.eqb _ _); [|done]. by injection Hc as <- _ <-. }
  pose proof (commit_new fingerprint env op request s (proj1 Hok) Hb Hk) as Hnew. cbv zeta in Hnew.
  destruct (mutation op request (projection (coordinator s))) as [p [e|v']]; [congruence|].
  destruct Hnew as (Hp' & Hs' & Hnew). destruct (persistence s) as [store|] eqn:Est.
  2: { rewrite Hnew in Hc. injection Hc as <- _ <-. cbn. split; [lia|done]. }
  destruct (publish _ _ _ _ _ _ store) as [store' [e|r]] eqn:Epub; [congruence|].
  destruct (publish_sane _ _ _ _ _ _ _ _ _ Hr Hp Epub) as [Hr' Hst'].
  destruct (replayed_value r v') as [e|w]; [congruence|].
  assert (payload_fits (projection (coordinator s))
    (payload_of p (new_marker (coordinator s) request))) as Hfit by (by eexists _, _).
  destruct Hok as [_ Hfits]. rewrite Est in Hfits.
  destruct (publish_fits _ _ _ _ _ _ _ _ _ _ Hfits Hfit Epub) as [_ (q & m & Hq & Hqok & Hqs)].
  rewrite (Hnew q m Hq Hqok Hqs) in Hc. by injection Hc as <- _ <-.
Qed.

(** ** Typed computations *)
Definition typed {A} (Q : A → Prop) (n : N W A) : Prop := ∀ ans w, world_ok w →
  world_ok (n (ans, w)).1.2 ∧ match (n (ans, w)).2 with Done a => Q a | _ => True end.
Definition yields {V A} (Q : A → Prop) (n : N V A) : Prop :=
  ∀ s, match (n s).2 with Done a => Q a | _ => True end.

Lemma typed_ret {A} (Q : A → Prop) a : Q a → typed Q (mret a).
Proof. intros HQ ans w Hw. by split. Qed.
Lemma typed_bind {A B} (T : A → Prop) (Q : B → Prop) (n : N W A) (k : A → N W B) :
  typed T n → (∀ a, T a → typed Q (k a)) → typed Q (n ≫= k).
Proof.
  intros Hn Hk ans w Hw. cbv [mbind N_bind]. destruct (Hn ans w Hw) as [Hw' Ha].
  destruct (n (ans, w)) as [[ans' w'] [a|e|p]]; cbn in *; [by apply Hk|done|done].
Qed.
Lemma typed_pure {A} (n : N W A) : pure_node n → typed (λ _, True) n.
Proof. intros Hn ans w Hw. rewrite Hn. split; [done|]. by case_match. Qed.
Lemma typed_except {A} (Q : A → Prop) (n h : N W A) c : typed Q n → typed Q h → typed Q (except n c h).
Proof.
  intros Hn Hh ans w Hw. unfold except. destruct (Hn ans w Hw) as [Hw' Ha].
  destruct (n (ans, w)) as [[ans' w'] [a|e|p]]; cbn in *; [done| |done]. case_decide; [|done]. by apply Hh.
Qed.
Lemma typed_zoom {V A} (Q : A → Prop) (view : W → V) update (n : N V A) :
  (∀ v w, w_session (update v w) = w_session w) → yields Q n → typed Q (zoom view update n).
Proof.
  intros Hu Hn ans w Hw. unfold zoom. specialize (Hn (ans, view w)).
  destruct (n (ans, view w)) as [[ans' v'] o]; cbn in *. split; [|done]. unfold world_ok. by rewrite Hu.
Qed.
Lemma typed_recent env op refs o f outs :
  typed (λ c, 0 ≤ c.2) (on_session (record_recent_orders fingerprint (ne_publish env) op refs o f outs) : N W _).
Proof.
  intros ans w Hw. unfold on_session, zoom, act.
  pose proof (commit_sane (ne_publish env) op (recent_orders refs o f outs) _ Hw) as Hc.
  unfold record_recent_orders. destruct (commit_request _ _ _ _ _) as [s' [e|[v n]]]; cbn.
  - split; [|done]. unfold world_ok. cbn. by subst.
  - by destruct Hc.
Qed.

Lemma yields_any {V A} (n : N V A) : yields (λ _, True) n.
Proof. intros s. by case_match. Qed.
Lemma yields_ret {V A} (Q : A → Prop) a : Q a → yields Q (mret a : N V A).
Proof. intros HQ s. exact HQ. Qed.
Lemma yields_bind {V A B} (Q : B → Prop) (n : N V A) (k : A → N V B) : (∀ a, yields Q (k a)) → yields Q (n ≫= k).
Proof. intros Hk s. cbv [mbind N_bind]. destruct (n s) as [s' [a|e|p]]; [apply Hk|done|done]. Qed.
Lemma yields_fail {V A} (Q : A → Prop) c m : yields Q (fail c m : N V A).
Proof. by intros []. Qed.

(** Steps through a node down to its updates. *)
Ltac yield_step := first
  [ progress intros | apply yields_bind | apply yields_ret; solve [repeat constructor] | apply yields_fail
  | case_match | case_bool_decide ].
Ltac typed_step := first
  [ progress intros
  | apply (typed_bind (λ c, 0 ≤ c.2)); [apply typed_recent|]
  | apply (typed_bind (λ _, True)); [apply typed_pure; solve [auto 3 with pure]|]
  | apply (typed_bind (λ _, True)); [apply typed_zoom; [done|apply yields_any]|]
  | apply (typed_bind (λ _, True));
    [apply typed_except; [apply (typed_bind (λ _, True)); [apply typed_zoom; [done|apply yields_any]|]|]|]
  | apply typed_ret; solve [repeat constructor; cbn; lia]
  | apply typed_zoom; [done|]
  | case_match | case_bool_decide ].

Lemma node_typed n env st : typed (Forall (write_ok st)) (run_node policy fingerprint n env st : N W _).
Proof.
  destruct n; cbn [run_node].
  all: unfold guardrail_node, refund_confirm_node, place_node, finish_refund, return_guardrail_node,
    return_confirm_node, return_place_node, finish_return, cancel_guardrail_node, cancel_confirm_node,
    cancel_void_node, finish_cancel, resolve_node, profile_guardrail_node, profile_confirm_node,
    profile_place_node, finish_profile_change, in_verification, risk_check_node, dispatch_node, collect_node.
  all: repeat typed_step.
  all: repeat yield_step.
  all: apply typed_pure; auto with pure.
Qed.

(** C37 The conversation state stays well-typed: along any run of the support graph that starts from a
    state its validators accept and a well-formed session, every state is one the validators
    accept (unique, admitted, non-blank turns; an invocation opened and evidenced on admitted
    turns; a revision that is not negative) and every session is well-formed, over any
    persistence that reports non-negative revisions. *)
Theorem support_run_typed c0 tr (c : config gnode (World P PS R)) :
  runs (E:=node_env E) (run_node policy fingerprint) (next_node policy) final am c0 tr c →
  validate_state (cf_state c0) = inr (cf_state c0) → world_ok (cf_world c0) →
  validate_state (cf_state c) = inr (cf_state c) ∧ world_ok (cf_world c).
Proof.
  intros Hr Hst Hw. induction Hr as [|tr c e c' _ [IHs IHw] Hstep]; [done|].
  destruct Hstep as [env heard w' ws now n' _ Hrun _].
  destruct (node_typed (cf_node c) env (cf_state c) heard _ IHw) as [Hw' Hws]. rewrite Hrun in Hw', Hws.
  split; [|done]. by apply apply_update_valid.
Qed.
End typed.
