(* ===== verification/SupportExamples.v ===== *)
(** * A support conversation

    A small shop, session and conversation, on which the theorems of the
    support flow are applied. *)

From S2P Require Import Prelude PyText Orders OrderScope OrderStore OrderLedger Identity Authorization Profile.
From S2P Require Import Verification OtpProvider ProofStore Consent Confirmation SessionState SessionCommit.
From S2P Require Import SessionRefine Requests Reasoning Nodes Stepup SupportBase Graph SupportRefund.
From S2P Require Import SupportCancel SupportProfile SupportGraph SupportTypes.
Local Open Scope Z_scope.
Local Open Scope list_scope.

Definition shop_orders : list (string * OrderEntry) :=
  [("ORD-1", mkOrderEntry "processing" "1 jacket" "tomorrow" "cust-1" 12000 None);
   ("ORD-2", mkOrderEntry "delivered" "2 socks" "today" "cust-1" 9000 (Some "2024-01-01T10:00:00Z"));
   ("ORD-3", mkOrderEntry "processing" "1 hat" "tomorrow" "cust-1" 2500 None)].
Definition shop_store : OrderStore := mkOrderStore "acme" shop_orders [] 9001 [] 7001 [] ∅ [] 3001.
Definition shop_now : Z := 1704200000.

Notation ShopWorld := (World OtpProvider SessionRow RiskProvider).
Definition shop_world : ShopWorld :=
  mkWorld shop_store demo_session demo_vstore (mkRisk "acme" false)
    (mkProfileStore "acme" [("cust-1", mkProfile "1 Road" "number ending 0119")] [])
    (mkInstruments "acme" [("cust-1", "card ending 42")]) demo_directory
    (mkIdentity (Some (mkBound "cust-1" "k***@example.com")) ∅) [].
Definition shop_env : node_env publish_env :=
  mkNodeEnv shop_now (λ i, "fresh-" +:+ str_int (Z.of_nat i)) (ProofStore.demo_env shop_now "ch-9") SessionCommit.demo_env.
Definition shop_policy : PolicyContext := demo_policy 5000 20000 30.
Definition told (w : Write) : ReasoningState := apply_update app [w] initial_state.

Definition writes_of {W} (r : (list answer * W) * outcome (list Write)) : list Write :=
  match r.2 with Done ws => ws | _ => [] end.

Lemma shop_initial : initial shop_store.
Proof.
  exists "acme", shop_orders. split; [|done]. split; [apply (bool_decide_unpack _); by vm_compute|].
  by repeat constructor.
Qed.
Lemma shop_ok : orders_ok shop_store.
Proof. split; [apply reachable_inv; exists shop_store; split; [apply shop_initial|done]|done|constructor]. Qed.

(** A full refund of an order that has not shipped, and of one that has. *)
Definition shop_refund (oid : string) (cents : Z) : PendingRefund :=
  mkPendingRefund oid "1 jacket" cents original "original payment method" None None "k-1" "d-1" None shop_now.
Definition refund_run (oid : string) (cents : Z) :=
  guardrail_node shop_policy shop_env (told (W_pending_refund (Some (shop_refund oid cents)))) ([], shop_world).

Lemma refund_guardrail_tiers_witness :
  refund_tiers shop_policy shop_env shop_world (shop_refund "ORD-1" 12000)
    (apply_update app (writes_of (refund_run "ORD-1" 12000))
       (told (W_pending_refund (Some (shop_refund "ORD-1" 12000))))) (writes_of (refund_run "ORD-1" 12000)) ∧
  route_after_guardrail (apply_update app (writes_of (refund_run "ORD-1" 12000))
    (told (W_pending_refund (Some (shop_refund "ORD-1" 12000))))) = rf_cancel ∧
  route_after_guardrail (apply_update app (writes_of (refund_run "ORD-2" 9000))
    (told (W_pending_refund (Some (shop_refund "ORD-2" 9000))))) = rf_return.
Proof.
  split_and!; [|by vm_compute..].
  apply (refund_guardrail_tiers shop_policy app shop_env _ [] shop_world ([], shop_world)); by vm_compute.
Defined.

Lemma refund_remedy_accepted_witness :
  let st := told (W_pending_refund (Some (shop_refund "ORD-2" 9000))) in
  let st' := apply_update app (writes_of (refund_run "ORD-2" 9000)) st in
  return_guardrail_node shop_policy shop_env st' ([], shop_world) = (([], shop_world), Done []).
Proof.
  intros st st'.
  apply (refund_remedy_accepted shop_policy app shop_env st [] shop_world ([], shop_world)
    (writes_of (refund_run "ORD-2" 9000)) (shop_refund "ORD-2" 9000)); by vm_compute.
Defined.

Lemma refund_effect_authorized_witness :
  let st := told (W_pending_refund (Some (shop_refund "ORD-3" 1000))) in
  ∃ record, refunds_by_key (w_orders (place_node demo_fingerprint shop_env st ([], shop_world)).1.2) =
    [("k-1", record)] ∧ rf_amount_usd record = 1000.
Proof.
  intros st.
  destruct (refund_effect_authorized demo_fingerprint shop_env st [] shop_world) as (p & record & cap & Hp & Hr).
  - intros Heq. apply (f_equal next_refund_seq) in Heq. by vm_compute in Heq.
  - injection Hp as <-. exists record. split; apply Hr.
Defined.

(** Cancelling two orders that have not shipped. *)
Definition shop_batch : PendingCancelBatch :=
  mkCancelBatch [mkCancelTarget "ORD-1" "1 jacket" "c-1"; mkCancelTarget "ORD-3" "1 hat" "c-2"] [] [] shop_now.
Definition shop_cancelling : ReasoningState := told (W_pending_cancel (Some (pending_batch shop_batch))).
Lemma shop_targets : Forall target_ok (cb_targets shop_batch).
Proof. by repeat constructor. Qed.

Lemma cancel_batch_completes_witness :
  ∃ st' w', void_loop demo_fingerprint app [shop_env; shop_env] shop_cancelling shop_world =
      (st', w', Some (Done tt)) ∧ pending_cancel st' = None ∧
    order_status (w_orders w') "ORD-1" = Some CANCELLED_STATUS ∧
    order_status (w_orders w') "ORD-3" = Some CANCELLED_STATUS ∧
    order_status (w_orders w') "ORD-2" = Some "delivered".
Proof.
  pose proof (cancel_batch_completes demo_fingerprint app [shop_env; shop_env] shop_cancelling shop_world shop_batch
    eq_refl eq_refl ltac:(done) shop_ok shop_targets ltac:(constructor) ltac:(cbn; lia)) as H.
  cbv zeta in H. destruct (void_all (w_orders shop_world) (cb_targets shop_batch)) as [o' outs] eqn:Hall.
  destruct H as (_ & _ & st' & w' & r & env & t & Hrun & _ & _ & Ho & Hr).
  assert (r = Done tt) as -> by
    (apply (f_equal snd) in Hrun; vm_compute in Hrun; congruence).
  exists st', w'. split_and!; [done|by apply Hr|..]; rewrite Ho; cbn [w_orders set_session set_orders];
    replace o' with (void_all (w_orders shop_world) (cb_targets shop_batch)).1 by (by rewrite Hall); by vm_compute.
Defined.

Lemma cancel_void_replay_witness :
  let w' := (cancel_void_node demo_fingerprint shop_env shop_cancelling ([], shop_world)).1.2 in
  w_orders w' ≠ w_orders shop_world ∧
  w_orders (cancel_void_node demo_fingerprint shop_env shop_cancelling ([], w')).1.2 = w_orders w'.
Proof.
  intros w'. split.
  - intros Heq. apply (f_equal (λ o, length (cancels_by_key o))) in Heq. by vm_compute in Heq.
  - by apply (cancel_void_replay demo_fingerprint shop_env shop_env shop_cancelling [] [] shop_world w' shop_ok).
Defined.

(** One of three targets has shipped. *)
Definition mixed_batch : PendingCancelBatch :=
  mkCancelBatch [mkCancelTarget "ORD-1" "1 jacket" "c-1"; mkCancelTarget "ORD-2" "2 socks" "c-2";
                 mkCancelTarget "ORD-3" "1 hat" "c-3"] [] [] shop_now.
Definition mixed_run :=
  cancel_guardrail_node shop_policy shop_env (told (W_pending_cancel (Some (pending_batch mixed_batch)))) ([], shop_world).

Lemma cancel_guardrail_partition_witness :
  let st' := apply_update app (writes_of mixed_run) (told (W_pending_cancel (Some (pending_batch mixed_batch)))) in
  route_after_cancel_guardrail st' = cx_confirm ∧
  ∃ b', pending_cancel st' = Some (pending_batch b') ∧ ct_order_id <$> cb_targets b' = ["ORD-1"; "ORD-3"] ∧
    bo_order_id <$> cb_ineligible b' = ["ORD-2"].
Proof.
  intros st'. assert (route_after_cancel_guardrail st' = cx_confirm) as Hroute by (by vm_compute).
  split; [done|].
  destruct (cancel_guardrail_partition shop_policy app shop_env (told (W_pending_cancel (Some (pending_batch mixed_batch))))
    [] shop_world ([], shop_world) (writes_of mixed_run) mixed_batch) as [_ Hr];
    [by vm_compute|done|done|by repeat constructor|].
  change (apply_update app (writes_of mixed_run) _) with st' in Hr. rewrite Hroute in Hr.
  destruct Hr as (_ & _ & b' & Hb & Hts & _ & _ & _ & Hbad & _). exists b'. split; [done|].
  rewrite Hts, Hbad. split; by vm_compute.
Defined.

Definition resolving : ReasoningState := told (W_pending_cancel (Some (pending_scope both_cancellable))).
Definition resolve_run := resolve_node shop_policy shop_env resolving ([], shop_world).

Lemma resolve_own_orders_witness :
  let st' := apply_update app (writes_of resolve_run) resolving in
  route_after_resolve st' = true ∧
  ∃ b, pending_cancel st' = Some (pending_batch b) ∧ length (cb_targets b) = 2%nat.
Proof.
  intros st'. assert (route_after_resolve st' = true) as Hroute by (by vm_compute). split; [done|].
  destruct (resolve_own_orders shop_policy app shop_env resolving [] shop_world ([], shop_world) (writes_of resolve_run))
    as [_ [[Hf _]|(_ & _ & bound & owned & b & _ & _ & Hb & _ & Hts & _ & _ & _ & Htwo)]]; [by vm_compute| |].
  - change (apply_update app (writes_of resolve_run) resolving) with st' in Hf. congruence.
  - exists b. split; [done|]. apply (f_equal length) in Hts. rewrite !length_fmap in Hts. rewrite Hts. by apply Htwo.
Defined.

(** A verified and bound customer changes the contact. *)
Definition profile_vstore : VerificationStore OtpProvider :=
  mkVStore demo_provider "s-1" [("ch-1", mkSubject "acme" "s-1" "cust-1" "f-1" purpose_profile)]
    [("ch-1", mkProof "proof-1" "acme" "s-1" "cust-1" "f-1" purpose_profile "ch-1" (shop_now - 10) (shop_now + 500))].
Definition profile_world : ShopWorld := set_verification profile_vstore shop_world.
Definition changing : ReasoningState :=
  told (W_pending_profile_change (Some (mkPendingProfile "cust-1" contact "number ending 0777" "f-1" "p-1" "d-1"
    (Some "ch-1") shop_now))).

Lemma profile_effect_authorized_witness :
  let run := profile_place_node shop_env changing ([], profile_world) in
  current_value (w_profiles run.1.2) "cust-1" contact = inr "number ending 0777" ∧
  proofs_by_challenge (w_verification run.1.2) = [].
Proof.
  intros run. destruct (profile_effect_authorized shop_env changing [] profile_world)
    as (p & b & Hp & _ & _ & _ & Hv & _ & Hclear).
  - intros Heq. apply (f_equal changes_by_key) in Heq. by vm_compute in Heq.
  - injection Hp as <-. split; [apply Hv|]. apply (Hclear eq_refl (writes_of run)). by vm_compute.
Defined.

(** The return of a delivered order, from its guardrail to the effect. *)
Definition shop_return : PendingReturn := mkPendingReturn "ORD-2" "2 socks" 9000 "r-1" shop_now.
Definition returning : ReasoningState := told (W_pending_return (Some shop_return)).
Definition at_guardrail : config gnode ShopWorld :=
  mkConfig support_return_guardrail returning shop_world.
Definition at_confirm : config gnode ShopWorld := mkConfig
  support_return_confirm (apply_update app [] returning) shop_world.
Definition at_place : config gnode ShopWorld := mkConfig
  support_return_place (apply_update app [] (apply_update app [] returning)) shop_world.
Definition a_yes : answer := mkAnswer None "yes please" false.
Definition place_run := run_node shop_policy demo_fingerprint support_return_place shop_env (cf_state at_place) ([], shop_world).
Definition at_end : config gnode ShopWorld := mkConfig END
  (apply_update app (writes_of place_run) (cf_state at_place)) place_run.1.2.

Lemma return_runs : runs (run_node shop_policy demo_fingerprint) (next_node shop_policy) final app at_guardrail
  [mkEvent at_confirm shop_env [a_yes]; mkEvent at_guardrail shop_env []] at_place.
Proof.
  eapply runs_step; [eapply runs_step; [apply runs_start|]|].
  - by apply (gstep_intro at_guardrail shop_env [] shop_world [] shop_now).
  - apply (gstep_intro at_confirm shop_env [a_yes] shop_world [] shop_now);
      [done|by vm_compute|done].
Qed.

Lemma no_effect_without_consent_witness :
  effect_node support_return_place = true ∧
  consent shop_policy at_place [mkEvent at_confirm shop_env [a_yes]; mkEvent at_guardrail shop_env []].
Proof.
  apply (no_effect_without_consent shop_policy demo_fingerprint app at_guardrail _ at_place
    (mkEvent at_place shop_env []) at_end eq_refl return_runs).
  - by apply (gstep_intro at_place shop_env [] place_run.1.2 (writes_of place_run) shop_now);
      [..|vm_compute].
  - left. intros Heq. apply (f_equal next_return_seq) in Heq. by vm_compute in Heq.
Defined.

Lemma support_run_typed_witness :
  validate_state (cf_state at_place) = inr (cf_state at_place) ∧ world_ok (cf_world at_place).
Proof.
  apply (support_run_typed shop_policy demo_fingerprint app at_guardrail
    [mkEvent at_confirm shop_env [a_yes]; mkEvent at_guardrail shop_env []] at_place return_runs).
  - by vm_compute.
  - split; [apply demo_session_ok|]. by cbn.
Defined.
