(* ===== verification/Caller.v ===== *)
(** * The caller's session (session.py)

    [CallerContext]: the objects one caller owns, the replacement of one
    principal by another, and how a session is closed or abandoned.

    The stores are those of [World]; the durable closer, the reasoning engine,
    the execution tracker and the wait for quiescence are outside, so what
    they answer is an argument and each call of them is recorded in order.  A
    method that runs under a lock, or that no other task of the session runs
    beside (a close under its lock, a transition inside its graph step), is one
    atomic step.  Telemetry is not modelled. *)

From S2P Require Import Prelude PyText Cart OrderScope Identity Authorization Profile Verification OtpProvider ProofStore.
From S2P Require Import SessionState SessionCommit SessionRefine Requests Reasoning Nodes SupportBase SupportExamples.
Local Open Scope Z_scope.
Local Open Scope list_scope.

(** ** Exceptions on the way out *)
(** [try: m finally: f] *)
Definition finally {S A} (m : M S A) (f : M S unit) : M S A := λ s,
  match m s with
  | (s1, r) => match f s1 with (s2, inl e) => (s2, inl e) | (s2, inr _) => (s2, r) end
  end.
(** [try: m except BaseException as e: h e] *)
Definition catch {S A} (m : M S A) (h : exc → M S A) : M S A := λ s,
  match m s with (s1, inl e) => h e s1 | r => r end.
(** A computation and how it ended. *)
Definition attempt {S A} (m : M S A) : M S (res A) := λ s, match m s with (s1, r) => (s1, inr r) end.

(** [_raise_lifecycle_failures]: a cancellation first, a lone failure as it is. *)
Definition raise_lifecycle_failures (message : string) (failures : list exc) : res unit :=
  match failures with
  | [] => inr tt
  | first :: rest =>
      match List.find (λ e, bool_decide (exc_cls e = CancelledError)) failures with
      | Some cancellation => inl cancellation
      | None => match rest with [] => inl first | _ => raises BaseExceptionGroup message end
      end
  end.
Definition failures_of {A} (rs : list (res A)) : list exc :=
  omap (λ r, match r with inl e => Some e | inr _ => None end) rs.

(** ** The context *)
(** The calls of what the session does not own. *)
Inductive LifecycleCall :=
  | call_stop_turn_admission | call_begin_close | call_await_quiescence | call_checkpoint_interrupt
  | call_finalize_close | call_delete_thread.

Record CallerContext (P PS R : Type) := mkCaller {
  cc_world : World P PS R;
  pending_transition : option PrincipalTransition;
  durable_closer : bool;
  engine : option nat;
  execution_tracker : option nat;
  close_quiescence_timeout : option Z;
  close_had_pending : option bool;
  close_started : bool;
  durable_authority_lost : bool;
  active_cancellation_takeovers : nat;
  takeover_idle_callbacks : list nat;
  closed : bool;
  lifecycle_calls : list LifecycleCall }.
Arguments mkCaller {P PS R}. Arguments cc_world {P PS R}. Arguments pending_transition {P PS R}.
Arguments durable_closer {P PS R}. Arguments engine {P PS R}. Arguments execution_tracker {P PS R}.
Arguments close_quiescence_timeout {P PS R}. Arguments close_had_pending {P PS R}.
Arguments close_started {P PS R}. Arguments durable_authority_lost {P PS R}.
Arguments active_cancellation_takeovers {P PS R}. Arguments takeover_idle_callbacks {P PS R}.
Arguments closed {P PS R}. Arguments lifecycle_calls {P PS R}.

(** What the calls of one close answer. *)
Record close_env (E : Type) := mkCloseEnv {
  cl_begin : res unit; cl_quiescence : res unit; cl_checkpoint : res bool;
  cl_finalize : res unit; cl_delete : res unit; cl_publish : E }.
Arguments mkCloseEnv {E}. Arguments cl_begin {E}. Arguments cl_quiescence {E}.
Arguments cl_checkpoint {E}. Arguments cl_finalize {E}. Arguments cl_delete {E}. Arguments cl_publish {E}.

Section caller.
Context {P PS R E : Type} `{OtpPort P} `{SessionPersistence PS E}.
Context (fingerprint : SessionRequest → string).
Notation CC := (CallerContext P PS R).
Notation CM := (M CC).
Implicit Types (c : CC) (env : node_env E).

Definition set_world (w : World P PS R) c : CC :=
  mkCaller w (pending_transition c) (durable_closer c) (engine c) (execution_tracker c)
    (close_quiescence_timeout c) (close_had_pending c) (close_started c) (durable_authority_lost c)
    (active_cancellation_takeovers c) (takeover_idle_callbacks c) (closed c) (lifecycle_calls c).
Definition set_transition (t : option PrincipalTransition) c : CC :=
  mkCaller (cc_world c) t (durable_closer c) (engine c) (execution_tracker c)
    (close_quiescence_timeout c) (close_had_pending c) (close_started c) (durable_authority_lost c)
    (active_cancellation_takeovers c) (takeover_idle_callbacks c) (closed c) (lifecycle_calls c).
Definition set_attached (e t : option nat) (timeout : option Z) c : CC :=
  mkCaller (cc_world c) (pending_transition c) (durable_closer c) e t timeout (close_had_pending c)
    (close_started c) (durable_authority_lost c) (active_cancellation_takeovers c)
    (takeover_idle_callbacks c) (closed c) (lifecycle_calls c).
Definition set_closing (had : option bool) (started lost cl : bool) c : CC :=
  mkCaller (cc_world c) (pending_transition c) (durable_closer c) (engine c) (execution_tracker c)
    (close_quiescence_timeout c) had started lost (active_cancellation_takeovers c)
    (takeover_idle_callbacks c) cl (lifecycle_calls c).
Definition set_takeovers (n : nat) (callbacks : list nat) c : CC :=
  mkCaller (cc_world c) (pending_transition c) (durable_closer c) (engine c) (execution_tracker c)
    (close_quiescence_timeout c) (close_had_pending c) (close_started c) (durable_authority_lost c)
    n callbacks (closed c) (lifecycle_calls c).
Definition record_call (call : LifecycleCall) c : CC :=
  mkCaller (cc_world c) (pending_transition c) (durable_closer c) (engine c) (execution_tracker c)
    (close_quiescence_timeout c) (close_had_pending c) (close_started c) (durable_authority_lost c)
    (active_cancellation_takeovers c) (takeover_idle_callbacks c) (closed c)
    (lifecycle_calls c ++ [call]).

Definition on_world {V A} (view : World P PS R → V) (update : V → World P PS R → World P PS R)
    (m : M V A) : CM A := λ c,
  match m (view (cc_world c)) with (v, r) => (set_world (update v (cc_world c)) c, r) end.
Definition cc_session {A} : SM (P:=PS) A → CM A := on_world w_session set_session.
Definition cc_verification {A} : M (VerificationStore P) A → CM A := on_world w_verification set_verification.
Definition cc_identity {A} : M CallerIdentityStore A → CM A := on_world w_identity set_identity.

Definition coordinator_of c : Coordinator := SessionState.coordinator (w_session (cc_world c)).
Definition session_revision c : Z := revision (coordinator_of c).

(** A call of the outside world, and its answer. *)
Definition call_out {A} (call : LifecycleCall) (answer : res A) : CM A :=
  modify (record_call call) ;; lift answer.

Definition attach_execution_quiescence (tracker : nat) (timeout_seconds : Z) : CM unit :=
  require (0 <? timeout_seconds) ValueError "close quiescence timeout must be positive" ;;
  c ← get;
  require (negb (close_started c)) RuntimeError
    "cannot attach graph execution tracking after close starts" ;;
  require (match execution_tracker c with Some t => (t =? tracker)%nat | None => true end) RuntimeError
    "caller context already has a different execution tracker" ;;
  modify (set_attached (engine c) (Some tracker) (Some timeout_seconds)).

Definition attach_engine (e : nat) : CM unit :=
  c ← get;
  require (match engine c with Some e' => (e' =? e)%nat | None => true end) RuntimeError
    "caller context already has a different reasoning engine" ;;
  modify (set_attached (Some e) (execution_tracker c) (close_quiescence_timeout c)).

(** [cancellation_takeover_lease]: what its entry yields, and its exit, which runs the callbacks
    that waited for the last takeover. *)
Definition takeover_enter : CM bool :=
  c ← get;
  if close_started c then mret false
  else modify (set_takeovers (S (active_cancellation_takeovers c)) (takeover_idle_callbacks c)) ;;
       mret true.
Definition takeover_exit (acquired : bool) : CM (list nat) :=
  if acquired then
    c ← get;
    let n := pred (active_cancellation_takeovers c) in
    if (n =? 0)%nat then modify (set_takeovers n []) ;; mret (takeover_idle_callbacks c)
    else modify (set_takeovers n (takeover_idle_callbacks c)) ;; mret []
  else mret [].
(** [_defer_until_takeovers_idle]: whether the callback runs at once. *)
Definition defer_until_takeovers_idle (callback : nat) : CM bool :=
  c ← get;
  if (active_cancellation_takeovers c =? 0)%nat then mret true
  else modify (set_takeovers (active_cancellation_takeovers c) (takeover_idle_callbacks c ++ [callback])) ;;
       mret false.

Definition clear_ephemeral_state (publish_env : E) (operation_id : string) : CM Z :=
  result ← cc_session (clear_ephemeral fingerprint publish_env operation_id);
  mret result.2.

Definition has_discardable_state c : bool :=
  let p := projection (coordinator_of c) in
  negb (is_empty (pj_cart p)) || negb (bool_decide (Guest.order_refs (pj_guest p) = []))
  || negb (bool_decide (Recent.order_refs (Recent.snapshot_ (pj_recent p)) = [])).

(** ** Principal transitions *)
Definition transition_principal env (new_identity : BoundIdentity) (proof : VerificationProof)
    (request : IntentRequest) : CM PrincipalTransition :=
  c ← get;
  require (match current (w_identity (cc_world c)) with
           | Some b => negb (String.eqb (customer_ref b) (customer_ref new_identity))
           | None => true
           end) ValueError "same-customer authentication is not a principal transition" ;;
  transition ← lift (make_PrincipalTransition (ne_fresh env 0) (customer_ref new_identity)
                       (masked_contact new_identity) proof request);
  require (negb (isSome (pending_transition c))) RuntimeError
    "a principal transition is already pending context rotation" ;;
  modify (set_transition (Some transition)) ;;
  cc_session (begin_principal_retirement fingerprint (ne_publish env) (transition_id transition)) ;;
  cc_identity Identity.clear ;;
  cc_verification (store_retain_only (ne_store env) proof) ;;
  cc_identity (bind new_identity) ;;
  mret transition.

Definition inspect_principal_transition (now : Z) c : res (inspection * option PrincipalTransition) :=
  match pending_transition c with
  | None => make_PrincipalTransitionInspection insp_none None
  | Some t =>
      let w := cc_world c in
      let p := projection (coordinator_of c) in
      expected ← make_BoundIdentity (tr_customer_ref t) (tr_masked_contact t);
      let coherent :=
        bool_decide (current (w_identity w) = Some expected)
        && negb (has_residual_order_authority (w_identity w))
        && (current_level now (w_verification w) =? raised_to (fresh_proof t))
        && bool_decide (grants now (w_verification w) = [fresh_proof t])
        && is_empty (pj_cart p)
        && bool_decide (Recent.order_refs (Recent.snapshot_ (pj_recent p)) = [])
        && bool_decide (Guest.order_refs (pj_guest p) = []) in
      make_PrincipalTransitionInspection (if coherent then insp_coherent else insp_inconsistent) (Some t)
  end.

(** The retirement of [invalidate_principal_transition] and the disposal that always follows it;
    the two publications observe [publish1] and [publish2]. *)
Definition retire_pending (publish1 publish2 : E) : CM unit :=
  c ← get;
  match pending_transition c with
  | None =>
      clear_ephemeral_state publish1
        ("principal-authority-invalidation:" +:+ str_int (session_revision c)) ;;
      mret tt
  | Some t =>
      (if isSome (principal_retirement (coordinator_of c)) then mret tt
       else cc_session (begin_principal_retirement fingerprint publish1 (transition_id t)) ;; mret tt) ;;
      cc_session (finish_principal_retirement fingerprint publish2 (transition_id t)) ;;
      mret tt
  end.
Definition drop_everything : CM unit :=
  finally (cc_session discard_local_projection)
    (finally (cc_identity Identity.clear ;; cc_verification Verification.clear)
       (modify (set_transition None))).

Definition invalidate_principal_transition (publish1 publish2 : E) (expected_transition_id : option string)
    : CM bool :=
  c ← get;
  let matched :=
    match expected_transition_id, pending_transition c with
    | None, _ => true
    | Some id, Some t => String.eqb (transition_id t) id
    | Some _, None => false
    end in
  finally (retire_pending publish1 publish2) drop_everything ;;
  mret matched.

Definition complete_transition (publish_env : E) (id : string) : CM Z :=
  c ← get;
  require (match pending_transition c with Some t => String.eqb (transition_id t) id | None => false end)
    RuntimeError "principal transition completion does not match pending marker" ;;
  committed ← cc_session (finish_principal_retirement fingerprint publish_env id);
  modify (set_transition None) ;;
  mret committed.2.

(** ** Closing *)
Definition stop_turn_admission : CM unit :=
  c ← get;
  if close_started c then mret tt
  else
    modify (set_closing (close_had_pending c) true (durable_authority_lost c) (closed c)) ;;
    if isSome (execution_tracker c) then modify (record_call call_stop_turn_admission) else mret tt.

Definition stop_for_authority_loss : CM unit :=
  c ← get;
  modify (set_closing (close_had_pending c) (close_started c) true (closed c)) ;;
  stop_turn_admission.

Definition clear_local_authority : CM unit :=
  finally (cc_verification Verification.clear)
    (cc_identity Identity.clear ;; modify (set_transition None)).

Definition discard_local_authority : CM unit :=
  finally (cc_session discard_local_projection) clear_local_authority.

Definition mark_closed : CM unit :=
  modify (λ c, set_closing (close_had_pending c) (close_started c) (durable_authority_lost c) true c).

Definition complete_close (cl : close_env E) : CM unit :=
  c ← get;
  if durable_closer c then
    local ← attempt discard_local_authority;
    durable ← attempt (call_out call_finalize_close (cl_finalize cl));
    lift (raise_lifecycle_failures "durable and local session close failed" (failures_of [local; durable])) ;;
    mark_closed
  else
    finally
      (catch (clear_ephemeral_state (cl_publish cl) "session-close")
         (λ e, cc_session discard_local_projection ;; lift (inl e)))
      clear_local_authority ;;
    (if isSome (engine c) then call_out call_delete_thread (cl_delete cl) else mret tt) ;;
    mark_closed.

(** [isinstance(exc, Exception)] *)
Definition is_Exception (e : exc) : bool := negb (bool_decide (exc_cls e = CancelledError)).

(** The close up to the point where its completion starts. *)
Definition prepare_close (cl : close_env E) : CM unit :=
  c ← get;
  (if durable_closer c then call_out call_begin_close (cl_begin cl) else mret tt) ;;
  call_out call_await_quiescence (cl_quiescence cl) ;;
  c ← get;
  if isSome (close_had_pending c) then mret tt
  else
    had ← catch
      (if durable_closer c || isSome (engine c) then call_out call_checkpoint_interrupt (cl_checkpoint cl)
       else mret false)
      (λ e, if is_Exception e then mret false else lift (inl e));
    modify (λ c, set_closing (Some had) (close_started c) (durable_authority_lost c) (closed c) c).

(** [aabandon_session] *)
Definition abandon_session (cl : close_env E) : CM unit :=
  stop_for_authority_loss ;;
  c ← get;
  if closed c then mret tt
  else
    call_out call_await_quiescence (cl_quiescence cl) ;;
    discard_local_authority ;;
    mark_closed.

(** [aclose_session] *)
Definition close_session (cl : close_env E) : CM unit :=
  stop_turn_admission ;;
  c ← get;
  if durable_authority_lost c then abandon_session cl
  else if closed c then mret tt
  else
    catch (prepare_close cl)
      (λ close_error,
         (if durable_closer c then
            local ← attempt discard_local_authority;
            match local with
            | inl local_error =>
                lift (raise_lifecycle_failures "durable session close and local disposal failed"
                        [close_error; local_error])
            | inr _ => mret tt
            end
          else mret tt) ;;
         lift (inl close_error)) ;;
    complete_close cl.
End caller.

(** ** The session parts *)
Definition emptied (p : Projection) : Projection :=
  mkProjection empty_cart (Recent.mkContext (Recent.max_refs (pj_recent p)) Recent.empty_snapshot)
    (Guest.mkScope (Guest.tenant_id (pj_guest p)) (Guest.session_id (pj_guest p)) []).

Lemma emptied_ok p : projection_ok p → projection_ok (emptied p) ∧ same_scope (emptied p) p.
Proof.
  intros [Hc (Hm & _) [Ht Htt Hs Hst _ _]]. split; [|done].
  split; cbn; [apply empty_cart_ok| |].
  - split_and!; [done|apply Recent.empty_snapshot_ok|cbn; lia].
  - split; cbn; try done; [constructor|set_solver].
Qed.

Lemma emptied_scope p q : same_scope p q → emptied p = emptied q.
Proof. intros (Hm & Ht & Hs). unfold emptied. congruence. Qed.

(** A projection of a session is what its payload restores. *)
Lemma payload_of_inj p q m m' : projection_ok p → projection_ok q → same_scope p q →
  payload_of p m = payload_of q m' → p = q ∧ m = m'.
Proof.
  intros Hp Hq (Hm & Ht & Hs) Heq. pose proof (f_equal dp_cart Heq) as Hc.
  pose proof (f_equal dp_recent_orders Heq) as Hr. pose proof (f_equal dp_guest_order_refs Heq) as Hg.
  pose proof (f_equal dp_principal_retirement Heq) as Hd. cbn in *. split; [|done].
  destruct Hp as [Hpc _ _], Hq as [Hqc _ _]. destruct p as [c1 [n1 s1] [t1 i1 r1]], q as [c2 [n2 s2] [t2 i2 r2]].
  cbn in *. subst. f_equal; [|f_equal].
  - by rewrite <-(from_state_exported c1), <-(from_state_exported c2), Hc.
  - apply (f_equal (fmap (λ r : string, (r, tt)))) in Hg.
    change (r1.*1) with (dkeys r1) in Hg. change (r2.*1) with (dkeys r2) in Hg.
    by rewrite !unit_dict_keys in Hg.
Qed.

Lemma clear_projection_eq p : (clear_projection p).1 = emptied p ∧ is_ok (clear_projection p).2 = true.
Proof. by destruct p as [c [n s] [t i r]]. Qed.

Section parts.
Context {PS E : Type} `{SessionPersistenceLaws PS E}.
Context (fingerprint : SessionRequest → string).
Implicit Types (s : Session (P:=PS)).

Lemma discard_projection s : projection_ok (projection (coordinator s)) →
  discard_local_projection s =
  (mkSession (mkCoordinator (emptied (projection (coordinator s))) (revision (coordinator s)) None [])
     (persistence s), inr tt).
Proof.
  intros Hp. destruct (emptied_ok _ Hp) as [He Hs]. unfold discard_local_projection, set_coordinator.
  change empty_payload with (payload_of (emptied (projection (coordinator s))) None).
  cbv [mbind M_bind get modify]. by rewrite install_ok.
Qed.

(** The operation was never published: a publication of it is the first. *)
Definition unpublished s (op : string) : Prop :=
  dget op (local_operations (coordinator s)) = None ∧
  match persistence s with
  | Some st => ∀ env n fp pl v st' r, publish env n op fp pl v st = (st', inr r) → rs_replayed r = false
  | None => True
  end.

Lemma first_commit (env : E) op request s s' v n : session_ok s → unpublished s op →
  commit_request fingerprint env op request s = (s', inr (v, n)) →
  ∃ value, mutation op request (projection (coordinator s)) = (projection (coordinator s'), inr value) ∧
    principal_retirement (coordinator s') = new_marker (coordinator s) request.
Proof.
  intros [Hp Hfits] [Hnew Hun] Hc. destruct (blank op) eqn:Hb.
  { destruct (commit_blank fingerprint env op request s Hb). congruence. }
  pose proof (commit_new fingerprint env op request s Hp Hb Hnew) as Hcase. cbv zeta in Hcase.
  destruct (mutation op request (projection (coordinator s))) as [p [e|w]]; [congruence|].
  destruct Hcase as (Hok & Hsc & Hcase). exists w. destruct (persistence s) as [st|] eqn:Est.
  - destruct (publish _ _ _ _ _ _ st) as [st' [e|r]] eqn:Epub; [congruence|].
    pose proof (Hun _ _ _ _ _ _ _ Epub) as Hfirst. unfold replayed_value in Hcase. rewrite Hfirst in Hcase.
    destruct (publish_first _ _ _ _ _ _ _ _ _ Epub Hfirst) as [Hpl _].
    rewrite (Hcase p _ Hpl Hok Hsc) in Hc. by injection Hc as <- _ _.
  - rewrite Hcase in Hc. by injection Hc as <- _ _.
Qed.

Lemma call_session_ok (env : E) call s s' r : session_ok s → run_call fingerprint env call s = (s', r) →
  session_ok s' ∧ same_scope (projection (coordinator s)) (projection (coordinator s')).
Proof.
  intros Hok Hr. pose proof (run_call_outcome fingerprint env call s Hok) as Ho. rewrite Hr in Ho.
  destruct r as [e|[v n]]; [cbn in Ho; subst; by split|]. by destruct Ho as (? & _ & ?).
Qed.
End parts.

(** ** Leaving no authority behind *)
Section authority.
Context {P PS R E : Type} `{OtpPort P} `{SessionPersistenceLaws PS E}.
Context (fingerprint : SessionRequest → string).
Notation CC := (CallerContext P PS R).
Implicit Types (c : CC) (env : node_env E).

Definition cc_ok c : Prop := session_ok (w_session (cc_world c)).
Definition projection_of c : Projection := projection (coordinator_of c).

(** Nobody is bound, no order is granted and no transition is pending; unless the provider
    refused its cleanup, no challenge and no proof is left. *)
Definition no_authority (v : VerificationStore P) c : Prop :=
  w_identity (cc_world c) = new_identity ∧ pending_transition c = None ∧
  (is_ok (otp_retain_only (session_id v) [] (vs_otp v)).2 = true →
   subjects_by_challenge (w_verification (cc_world c)) = [] ∧
   proofs_by_challenge (w_verification (cc_world c)) = []).
(** Nothing of the caller's session is left. *)
Definition no_projection (p : Projection) c : Prop :=
  projection_of c = emptied p ∧ principal_retirement (coordinator_of c) = None ∧
  local_operations (coordinator_of c) = [].

Lemma clear_verification c : cc_verification Verification.clear c =
  (let v := w_verification (cc_world c) in
   match otp_retain_only (session_id v) [] (vs_otp v) with
   | (p, inl e) => (set_world (set_verification (mkVStore p (session_id v) (subjects_by_challenge v)
       (proofs_by_challenge v)) (cc_world c)) c, inl e)
   | (p, inr _) => (set_world (set_verification (mkVStore p (session_id v) [] []) (cc_world c)) c, inr tt)
   end).
Proof.
  unfold cc_verification, on_world, Verification.clear, with_otp. munfold_goal.
  by destruct (otp_retain_only _ _ _) as [p [e|[]]].
Qed.

(** The stores after the session's own authority is dropped, whatever came of it. *)
Lemma clear_local c : no_authority (w_verification (cc_world c)) (clear_local_authority c).1 ∧
  w_session (cc_world (clear_local_authority c).1) = w_session (cc_world c) ∧
  lifecycle_calls (clear_local_authority c).1 = lifecycle_calls c ∧
  closed (clear_local_authority c).1 = closed c.
Proof.
  unfold clear_local_authority, finally. rewrite clear_verification. cbv zeta. unfold no_authority.
  destruct (otp_retain_only _ _ _) as [p [e|[]]]; cbn; split_and!; done.
Qed.

Lemma discard_local c : cc_ok c →
  let c' := (discard_local_authority c).1 in
  no_authority (w_verification (cc_world c)) c' ∧ no_projection (projection_of c) c' ∧
  persistence (w_session (cc_world c')) = persistence (w_session (cc_world c)) ∧
  lifecycle_calls c' = lifecycle_calls c ∧ closed c' = closed c.
Proof.
  intros [Hp _] c'. unfold c', discard_local_authority, finally, cc_session, on_world.
  rewrite discard_projection by done. match goal with |- context [clear_local_authority ?x] =>
    destruct (clear_local x) as (Hn & Hs & Hl & Hc); destruct (clear_local_authority x) as [c1 [e|[]]] end;
    cbn in *; (split; [done|]); unfold no_projection, projection_of, coordinator_of; rewrite Hs, Hl, Hc; done.
Qed.
End authority.

Section rotation.
Context {P PS R E : Type} `{OtpPort P} `{SessionPersistenceLaws PS E}.
Context (fingerprint : SessionRequest → string).
Notation CC := (CallerContext P PS R).
Implicit Types (c : CC) (env : node_env E).

(** Only the session state moved, within the session. *)
Definition session_moved c c' : Prop := ∃ s',
  c' = set_world (set_session s' (cc_world c)) c ∧ session_ok s' ∧
  same_scope (projection_of c) (projection (SessionState.coordinator s')).

Lemma session_moved_refl c : cc_ok c → session_moved c c.
Proof. intros Hc. exists (w_session (cc_world c)). split_and!; [by destruct c as [[]]|done|done]. Qed.

Lemma session_moved_trans c1 c2 c3 : session_moved c1 c2 → session_moved c2 c3 → session_moved c1 c3.
Proof.
  intros (s2 & -> & Hok2 & Hs2) (s3 & -> & Hok3 & Hs3). exists s3. split_and!; [done|done|].
  by etransitivity.
Qed.

Lemma session_moved_ok c c' : session_moved c c' → cc_ok c'.
Proof. by intros (s' & -> & Hok & _). Qed.

Lemma cc_call_moved c (env : E) call c' r : cc_ok c →
  cc_session (run_call fingerprint env call) c = (c', r) →
  session_moved c c' ∧ run_call fingerprint env call (w_session (cc_world c)) = (w_session (cc_world c'), r).
Proof.
  intros Hc. unfold cc_session, on_world.
  destruct (run_call fingerprint env call (w_session (cc_world c))) as [s' r'] eqn:Hr. intros [= <- <-].
  destruct (call_session_ok fingerprint env call _ _ _ Hc Hr) as [Hok Hs]. split; [|done].
  by exists s'.
Qed.

Lemma clear_call_moved c (env : E) op c' r : cc_ok c →
  clear_ephemeral_state fingerprint env op c = (c', r) → session_moved c c'.
Proof.
  intros Hc. unfold clear_ephemeral_state. cbv [mbind M_bind mret M_ret].
  destruct (cc_session (clear_ephemeral fingerprint env op) c) as [c1 r1] eqn:Hr.
  destruct (cc_call_moved c env (CallClearEphemeral op) c1 r1 Hc Hr) as [Hm _]. destruct r1; by intros [= <- _].
Qed.

Lemma retire_pending_moved c (p1 p2 : E) c' r : cc_ok c →
  retire_pending fingerprint p1 p2 c = (c', r) → session_moved c c'.
Proof.
  intros Hc. unfold retire_pending. cbv [mbind M_bind get mret M_ret].
  destruct (pending_transition c) as [t|].
  2: { destruct (clear_ephemeral_state _ _ _ c) as [c1 r1] eqn:Hr. apply clear_call_moved in Hr; [|done].
       destruct r1; by intros [= <- _]. }
  destruct (isSome _).
  - destruct (cc_session (finish_principal_retirement fingerprint p2 _) c) as [c1 r1] eqn:Hr.
    destruct (cc_call_moved c p2 (CallFinishRetirement _) c1 r1 Hc Hr) as [Hm _]. destruct r1; by intros [= <- _].
  - destruct (cc_session (begin_principal_retirement fingerprint p1 _) c) as [c1 r1] eqn:Hr.
    destruct (cc_call_moved c p1 (CallBeginRetirement _) c1 r1 Hc Hr) as [Hm _].
    destruct r1; [by intros [= <- _]|].
    destruct (cc_session (finish_principal_retirement fingerprint p2 _) c1) as [c2 r2] eqn:Hr2.
    destruct (cc_call_moved c1 p2 (CallFinishRetirement _) c2 r2 (session_moved_ok _ _ Hm) Hr2) as [Hm2 _].
    assert (session_moved c c2) by (by eapply session_moved_trans). destruct r2; by intros [= <- _].
Qed.

Lemma drop_everything_run c : cc_ok c → ∃ v' r,
  drop_everything c =
  (set_transition None (set_world (set_verification v' (set_identity new_identity (set_session
     (mkSession (mkCoordinator (emptied (projection_of c)) (session_revision c) None [])
        (persistence (w_session (cc_world c)))) (cc_world c)))) c), r) ∧
  let v := w_verification (cc_world c) in
  (is_ok (otp_retain_only (session_id v) [] (vs_otp v)).2 = true →
   subjects_by_challenge v' = [] ∧ proofs_by_challenge v' = []) ∧
  (∀ e, r = inl e → (otp_retain_only (session_id v) [] (vs_otp v)).2 = inl e).
Proof.
  intros [Hp _]. unfold drop_everything, finally, cc_session, cc_identity, cc_verification, on_world.
  rewrite discard_projection by done. unfold Identity.clear, Verification.clear, with_otp. munfold_goal.
  cbn -[otp_retain_only emptied].
  destruct (otp_retain_only _ _ _) as [p [e|[]]]; cbn -[emptied]; eexists _, _; (split; [done|]); naive_solver.
Qed.

Lemma drop_everything_spec c : cc_ok c →
  no_authority (w_verification (cc_world c)) (drop_everything c).1 ∧
  no_projection (projection_of c) (drop_everything c).1.
Proof. intros Hc. destruct (drop_everything_run c Hc) as (v' & r & -> & Hv & _). by split_and!. Qed.
End rotation.

(** After an invalidated transition nobody has authority: whatever the persistence answers,
    and whether invalidation returns or raises, no customer is bound, no order granted, no
    transition pending and nothing of the caller's cart, recent orders or guest scope is left,
    nor any challenge or proof unless the provider itself refuses the cleanup; the result says
    whether the expected transition was the pending one. *)
Theorem principal_invalidation_total {P PS R E} `{OtpPort P} `{SessionPersistenceLaws PS E}
    (fingerprint : SessionRequest → string) (publish1 publish2 : E) expected (c c' : CallerContext P PS R) r :
  cc_ok c → invalidate_principal_transition fingerprint publish1 publish2 expected c = (c', r) →
  no_authority (w_verification (cc_world c)) c' ∧ no_projection (projection_of c) c' ∧
  (∀ now, inspect_principal_transition now c' = inr (insp_none, None)) ∧
  (∀ matched id, r = inr matched → expected = Some id →
   matched = true ↔ ∃ t, pending_transition c = Some t ∧ transition_id t = id).
Proof.
  intros Hc Hrun. unfold invalidate_principal_transition in Hrun. cbv [mbind M_bind get mret M_ret] in Hrun.
  unfold finally in Hrun. destruct (retire_pending fingerprint publish1 publish2 c) as [c1 r1] eqn:Hret.
  destruct (retire_pending_moved fingerprint c _ _ _ _ Hc Hret) as (s' & Hc1 & Hs' & Hsc).
  destruct (drop_everything_spec c1) as [Ha Hp]; [by subst|].
  assert (c' = (drop_everything c1).1) as ->.
  { destruct (drop_everything c1) as [c2 [e|[]]], r1 as [e1|[]]; by injection Hrun as <- _. }
  assert (w_verification (cc_world c1) = w_verification (cc_world c)) as Hv by (by rewrite Hc1).
  assert (emptied (projection_of c1) = emptied (projection_of c)) as He.
  { rewrite Hc1. symmetry. by apply emptied_scope. }
  unfold no_projection in *. rewrite Hv in Ha. rewrite He in Hp. split_and!; try apply Hp; [done| |].
  - intros now. unfold inspect_principal_transition. destruct Ha as (_ & -> & _). done.
  - intros matched id -> ->. destruct (drop_everything c1) as [c2 [e|[]]], r1 as [e1|[]]; try done.
    injection Hrun as <-. destruct (pending_transition c) as [t|]; [|naive_solver].
    rewrite String.eqb_eq. naive_solver.
Qed.

Lemma make_transition_fields id ref masked proof r t : make_PrincipalTransition id ref masked proof r = inr t →
  transition_id t = strip id ∧ nonempty (strip id) = true ∧
  tr_customer_ref t = strip ref ∧ nonempty (strip ref) = true ∧
  tr_masked_contact t = strip masked ∧ nonempty (strip masked) = true ∧
  fresh_proof t = proof ∧ initiating_request t = r ∧
  vp_customer_ref proof = strip ref ∧ vp_purpose proof = purpose_identity.
Proof.
  unfold make_PrincipalTransition, non_empty_text. generalize (in_validator (project_principal_transition (Some r))).
  intros [?|?] Ht; munfold; mcases; bools.
  match goal with H : String.eqb _ _ = true |- _ => apply String.eqb_eq in H end. done.
Qed.

Lemma retained_only {P} `{OtpPort P} (env : store_env) proof (v v' : VerificationStore P) :
  store_retain_only env proof v = (v', inr tt) →
  proofs_by_challenge v' = [(vp_challenge_id proof, proof)] ∧
  dkeys (subjects_by_challenge v') = [vp_challenge_id proof] ∧
  dget (vp_challenge_id proof) (proofs_by_challenge v) = Some proof ∧
  proof_is_fresh (se_now env) proof = true.
Proof.
  unfold store_retain_only, with_otp. munfold. intros Hr.
  destruct (bool_decide _ && _) eqn:Hb; cbn in Hr; [|done]. bools.
  destruct (dget _ (subjects_by_challenge v)) as [subj|]; [|done].
  destruct (otp_retain_only _ _ _) as [p [e|[]]]; [done|]. by injection Hr as <-.
Qed.

(** A session in which exactly this proof of the pending transition is left. *)
Lemma inspect_coherent {P PS R} `{OtpPort P} (now : Z) (c : CallerContext P PS R) t new p :
  pending_transition c = Some t → tr_customer_ref t = customer_ref new → tr_masked_contact t = masked_contact new →
  nonempty (customer_ref new) = true → nonempty (masked_contact new) = true →
  w_identity (cc_world c) = mkIdentity (Some new) ∅ →
  proofs_by_challenge (w_verification (cc_world c)) = [(vp_challenge_id (fresh_proof t), fresh_proof t)] →
  projection_of c = emptied p → now < vp_expires_at_epoch (fresh_proof t) →
  inspect_principal_transition now c = inr (insp_coherent, Some t).
Proof.
  intros Ht Hr Hm Hne Hnm Hid Hpr Hp Hnow. unfold inspect_principal_transition. rewrite Ht, Hr, Hm.
  unfold make_BoundIdentity. munfold_goal. rewrite Hne, Hnm. cbn [andb].
  rewrite Hid. fold (projection_of c). rewrite Hp.
  assert (grants now (w_verification (cc_world c)) = [fresh_proof t]) as Hg.
  { unfold grants. rewrite Hpr. cbn. unfold base.filter, proof_is_fresh. cbn.
    rewrite (proj2 (Z.ltb_lt _ _)) by done. by rewrite decide_True. }
  unfold current_level. rewrite Hg. unfold has_residual_order_authority. cbn.
  rewrite !bool_decide_eq_true_2 by (by destruct new). done.
Qed.

(** Another customer, or nobody, is bound. *)
Lemma inspect_inconsistent {P PS R} `{OtpPort P} (now : Z) (c : CallerContext P PS R) t :
  pending_transition c = Some t → nonempty (tr_customer_ref t) = true → nonempty (tr_masked_contact t) = true →
  (∀ b, current (w_identity (cc_world c)) = Some b → customer_ref b ≠ tr_customer_ref t) →
  inspect_principal_transition now c = inr (insp_inconsistent, Some t).
Proof.
  intros Ht Hr Hm Hb. unfold inspect_principal_transition, make_BoundIdentity. rewrite Ht. munfold_goal.
  rewrite Hr, Hm. cbn [andb].
  rewrite (bool_decide_eq_false_2 (_ = Some (mkBound (tr_customer_ref t) (tr_masked_contact t)))); [done|].
  intros Heq. by apply (Hb _ Heq).
Qed.

(** Who the caller is after a transition. *)
Lemma transition_identity {P PS R E} `{OtpPort P} `{SessionPersistenceLaws PS E}
    (fingerprint : SessionRequest → string) (env : node_env E) new proof request (c c' : CallerContext P PS R) r :
  cc_ok c → transition_principal fingerprint env new proof request c = (c', r) →
  match r with
  | inr t => w_identity (cc_world c') = mkIdentity (Some new) ∅ ∧
      proofs_by_challenge (w_verification (cc_world c')) = [(vp_challenge_id proof, proof)] ∧
      vp_customer_ref proof = strip (customer_ref new) ∧ vp_purpose proof = purpose_identity ∧
      initiating_request t = request ∧ cc_ok c'
  | inl _ => w_identity (cc_world c') = w_identity (cc_world c) ∨ w_identity (cc_world c') = new_identity
  end.
Proof.
  intros Hc Hrun. unfold transition_principal in Hrun. cbv [mbind M_bind get mret M_ret require lift raise modify] in Hrun.
  destruct (match current _ with Some b => _ | None => true end); [|injection Hrun as <- <-; by left].
  destruct (make_PrincipalTransition _ _ _ _ _) as [e|t] eqn:Ht; [injection Hrun as <- <-; by left|].
  apply make_transition_fields in Ht as (_ & _ & _ & _ & _ & _ & _ & Hreq & Hown & Hpurp).
  destruct (pending_transition c) eqn:Hpend; cbn [isSome negb] in Hrun; [injection Hrun as <- <-; by left|].
  destruct (cc_session _ _) as [c1 r1] eqn:Hbegin.
  destruct (cc_call_moved fingerprint (set_transition (Some t) c) (ne_publish env) (CallBeginRetirement (transition_id t)) c1 r1
    Hc Hbegin) as [(s' & -> & Hok' & _) _].
  destruct r1 as [e|[v n]]; [injection Hrun as <- <-; by left|].
  unfold cc_identity at 1, on_world at 1, Identity.clear, put in Hrun. cbv iota in Hrun.
  unfold cc_verification, on_world in Hrun. cbn [cc_world set_world w_verification set_identity set_session] in Hrun.
  destruct (store_retain_only _ _ _) as [v' [e|[]]] eqn:Hret; [injection Hrun as <- <-; by right|].
  injection Hrun as <- <-. apply retained_only in Hret as (Hpr & _). done.
Qed.

(** C8 A principal transition is all or nothing.  When it returns, the new customer is bound with
    no inherited order grant, holding exactly the proof of this very challenge, not expired at
    that moment and kept from this session's own proofs; and when its retirement was first published here, nothing of
    the old caller's cart, recent orders and guest scope is left and the inspection before the
    context rotates reports it coherent for as long as the proof lasts.  When it raises, either
    nothing at all changed or the transition is marked as pending and inspects as inconsistent
    from then on, the new customer unbound. *)
Theorem principal_transition_all_or_nothing {P PS R E} `{OtpPort P} `{SessionPersistenceLaws PS E}
    (fingerprint : SessionRequest → string) (env : node_env E) new proof request
    (c c' : CallerContext P PS R) r :
  cc_ok c → strip (customer_ref new) = customer_ref new → strip (masked_contact new) = masked_contact new →
  transition_principal fingerprint env new proof request c = (c', r) →
  match r with
  | inr t =>
      pending_transition c' = Some t ∧ w_identity (cc_world c') = mkIdentity (Some new) ∅ ∧
      proofs_by_challenge (w_verification (cc_world c')) = [(vp_challenge_id proof, proof)] ∧
      dget (vp_challenge_id proof) (proofs_by_challenge (w_verification (cc_world c))) = Some proof ∧
      se_now (ne_store env) < vp_expires_at_epoch proof ∧
      vp_customer_ref proof = customer_ref new ∧ vp_purpose proof = purpose_identity ∧
      (unpublished (w_session (cc_world c)) ("principal-retirement:" +:+ transition_id t) →
       projection_of c' = emptied (projection_of c) ∧
       principal_retirement (coordinator_of c') = Some (transition_id t) ∧
       ∀ now, now < vp_expires_at_epoch proof → inspect_principal_transition now c' = inr (insp_coherent, Some t))
  | inl _ =>
      c' = c ∨ ∃ t, pending_transition c' = Some t ∧ current (w_identity (cc_world c')) ≠ Some new ∧
        ∀ now, inspect_principal_transition now c' = inr (insp_inconsistent, Some t)
  end.
Proof.
  intros Hc Hr Hm Hrun. unfold transition_principal in Hrun. cbv [mbind M_bind get mret M_ret require lift raise modify] in Hrun.
  destruct (match current _ with Some b => _ | None => true end) eqn:Hother; [|injection Hrun as <- <-; by left].
  destruct (make_PrincipalTransition _ _ _ _ _) as [e|t] eqn:Ht; [injection Hrun as <- <-; by left|].
  apply make_transition_fields in Ht as (Hid & Hidn & Href & Hrefn & Hmask & Hmaskn & Hfp & Hreq & Hown & Hpurp).
  rewrite Hr in *. rewrite Hm in *.
  destruct (pending_transition c) eqn:Hpend; cbn [isSome negb] in Hrun; [injection Hrun as <- <-; by left|].
  assert (∀ b, current (w_identity (cc_world c)) = Some b → customer_ref b ≠ tr_customer_ref t) as Hdiff.
  { intros b Hb. rewrite Hb in Hother. bools. apply String.eqb_neq in Hother. congruence. }
  destruct (cc_session _ _) as [c1 r1] eqn:Hbegin.
  destruct (cc_call_moved fingerprint (set_transition (Some t) c) (ne_publish env) (CallBeginRetirement (transition_id t)) c1 r1
    Hc Hbegin) as [(s' & -> & Hok' & Hsc) Hcall].
  destruct r1 as [e|[v n]].
  { injection Hrun as <- <-. right. exists t. split_and!; [done| |].
    - intros Heq. by apply (Hdiff new Heq).
    - intros now. apply inspect_inconsistent; cbn; congruence || done. }
  unfold cc_identity at 1, on_world at 1, Identity.clear, put in Hrun. cbv iota in Hrun.
  unfold cc_verification, on_world in Hrun. cbn [cc_world set_world w_verification set_identity set_session] in Hrun.
  destruct (store_retain_only _ _ _) as [v' [e|[]]] eqn:Hret.
  { injection Hrun as <- <-. right. exists t. split_and!; [done|done|].
    intros now. apply inspect_inconsistent; cbn; congruence || done. }
  injection Hrun as <- <-. apply retained_only in Hret as (Hpr & _ & Hg & Hfresh).
  split_and!; [done|done|done|done|by apply Z.ltb_lt|congruence|done|]. intros Hun.
  assert (projection (SessionState.coordinator s') = emptied (projection_of c) ∧
    principal_retirement (SessionState.coordinator s') = Some (transition_id t)) as [Hp Hmk].
  { cbn [cc_world set_world set_transition w_session set_session] in Hcall.
    cbn [run_call] in Hcall. unfold begin_principal_retirement, make_PrincipalRetirementMarker in Hcall.
    assert (blank (transition_id t) = false) as Hbl.
    { unfold blank. rewrite Hid, strip_idem. by apply negb_true_iff. }
    munfold. rewrite Hbl in Hcall. cbn in Hcall.
    destruct (first_commit fingerprint _ _ _ _ _ _ _ Hc Hun Hcall) as (value & Hmut & Hmk). split; [|done].
    cbn [mutation] in Hmut. pose proof (clear_projection_eq (projection (SessionState.coordinator (w_session (cc_world c))))) as [He _].
    rewrite Hmut in He. done. }
  split_and!; [done|done|]. intros now Hnow. eapply inspect_coherent; try done; try congruence. by rewrite Hfp.
Qed.

Section closing.
Context {P PS R E : Type} `{OtpPort P} `{SessionPersistenceLaws PS E}.
Context (fingerprint : SessionRequest → string).
Notation CC := (CallerContext P PS R).
Implicit Types (c : CC) (cl : close_env E).

(** What the preparation of a close leaves alone. *)
Record same_owner c c' : Prop := {
  sm_world : cc_world c' = cc_world c;
  sm_transition : pending_transition c' = pending_transition c;
  sm_durable : durable_closer c' = durable_closer c;
  sm_engine : engine c' = engine c;
  sm_lost : durable_authority_lost c' = durable_authority_lost c;
  sm_closed : closed c' = closed c }.

#[local] Instance same_owner_refl : Reflexive same_owner.
Proof. by intros c. Qed.
#[local] Instance same_owner_trans : Transitive same_owner.
Proof. intros c1 c2 c3 [] []. split; congruence. Qed.

Definition stop_calls c : list LifecycleCall :=
  if close_started c then [] else if isSome (execution_tracker c) then [call_stop_turn_admission] else [].

Lemma stop_run c : ∃ c1, stop_turn_admission c = (c1, inr tt) ∧ same_owner c c1 ∧ close_started c1 = true ∧
  close_had_pending c1 = close_had_pending c ∧ lifecycle_calls c1 = lifecycle_calls c ++ stop_calls c.
Proof.
  unfold stop_turn_admission, stop_calls. munfold_goal.
  destruct (close_started c) eqn:Hs; [exists c; rewrite app_nil_r; by split_and!|].
  cbn. destruct (execution_tracker c); cbn; eexists; rewrite ?app_nil_r; by split_and!.
Qed.

(** The calls of a preparation that went through. *)
Definition prepare_calls c : list LifecycleCall :=
  (if durable_closer c then [call_begin_close] else []) ++ [call_await_quiescence] ++
  (if isSome (close_had_pending c) then []
   else if durable_closer c || isSome (engine c) then [call_checkpoint_interrupt] else []).

Lemma prepare_run c cl c1 r : prepare_close cl c = (c1, r) →
  same_owner c c1 ∧ close_started c1 = close_started c ∧
  ∃ calls, lifecycle_calls c1 = lifecycle_calls c ++ calls ∧ calls `prefix_of` prepare_calls c ∧
    (r = inr tt → calls = prepare_calls c).
Proof.
  intros Hrun. pose (k := drop (length (lifecycle_calls c)) (lifecycle_calls c1)).
  cut (same_owner c c1 ∧ close_started c1 = close_started c ∧ lifecycle_calls c1 = lifecycle_calls c ++ k ∧
    k `prefix_of` prepare_calls c ∧ (r = inr tt → k = prepare_calls c)); [naive_solver|].
  unfold prepare_close, call_out, catch in Hrun. unfold prepare_calls. munfold.
  destruct (durable_closer c) eqn:Hd, (cl_begin cl) as [e1|[]], (cl_quiescence cl) as [e2|[]],
    (close_had_pending c) eqn:Hh, (engine c) eqn:He, (cl_checkpoint cl) as [e3|had];
    do 4 (cbn in Hrun; rewrite ?Hd, ?Hh, ?He in Hrun); try (destruct (is_Exception e3); cbn in Hrun);
    injection Hrun as <- <-; unfold k; cbn; rewrite <-?app_assoc, drop_app_length; cbn;
    (split_and!; [by split|done|done|by eexists|done]).
Qed.

Definition ending_calls c : list LifecycleCall :=
  if durable_closer c then [call_finalize_close] else if isSome (engine c) then [call_delete_thread] else [].

(** Once its completion starts a close leaves no authority, however it ends. *)
Lemma complete_run c cl c' r : cc_ok c → complete_close fingerprint cl c = (c', r) →
  no_authority (w_verification (cc_world c)) c' ∧
  (durable_closer c = true ∨ unpublished (w_session (cc_world c)) "session-close" →
   projection_of c' = emptied (projection_of c)) ∧
  close_started c' = close_started c ∧
  (r = inr tt → closed c' = true ∧ lifecycle_calls c' = lifecycle_calls c ++ ending_calls c).
Proof.
  intros Hc Hrun. unfold complete_close, ending_calls in *. cbv [mbind M_bind get] in Hrun.
  destruct (durable_closer c) eqn:Hd.
  - destruct (discard_local c Hc) as (Hna & (Hp & _ & _) & _ & Hl & Hcl). unfold attempt in Hrun.
    destruct (discard_local_authority c) as [c1 r1] eqn:Hdis. cbn in Hna, Hp, Hl, Hcl.
    assert (close_started c1 = close_started c) as Hst.
    { revert Hdis. unfold discard_local_authority, clear_local_authority, finally, cc_session, cc_identity, on_world.
      destruct Hc as [Hpok _]. rewrite discard_projection by done. rewrite clear_verification. cbv zeta.
      unfold Identity.clear. munfold_goal. destruct (otp_retain_only _ _ _) as [p [e|[]]]; by intros [= <- _]. }
    unfold call_out in Hrun. munfold.
    destruct (raise_lifecycle_failures _ _) as [e|[]]; injection Hrun as <- <-; cbn; by rewrite ?Hl.
  - unfold finally, catch in Hrun.
    assert (∀ c1, w_verification (cc_world c1) = w_verification (cc_world c) →
      close_started c1 = close_started c → lifecycle_calls c1 = lifecycle_calls c → engine c1 = engine c →
      let c2 := (clear_local_authority c1).1 in
      no_authority (w_verification (cc_world c)) c2 ∧ projection_of c2 = projection_of c1 ∧
      close_started c2 = close_started c ∧ lifecycle_calls c2 = lifecycle_calls c ∧ engine c2 = engine c) as Hlocal.
    { intros c1 Hv Hs Hl He c2. destruct (clear_local c1) as (Hna & Hws & Hl2 & _). rewrite Hv in Hna.
      split_and!; [done|by unfold c2, projection_of, coordinator_of; rewrite Hws| |by unfold c2; rewrite Hl2|];
        unfold c2, clear_local_authority, finally; rewrite clear_verification; cbv zeta;
        unfold cc_identity, on_world, Identity.clear; munfold_goal; destruct (otp_retain_only _ _ _) as [? [?|[]]]; done. }
    destruct (clear_ephemeral_state fingerprint (cl_publish cl) "session-close" c) as [c1 r1] eqn:Hclr.
    destruct (clear_call_moved fingerprint c _ _ _ _ Hc Hclr) as (s' & Hc1 & Hs' & Hsc).
    destruct r1 as [e1|n1].
    + unfold cc_session at 1, on_world at 1 in Hrun. destruct Hs' as [Hp' _].
      replace (w_session (cc_world c1)) with s' in Hrun by (by rewrite Hc1).
      rewrite discard_projection in Hrun by done. cbn [lift] in Hrun. unfold lift in Hrun.
      match type of Hrun with context [clear_local_authority ?x] =>
        destruct (Hlocal x) as (Hna & Hp & Hst & Hl & He); [by rewrite Hc1..|];
        destruct (clear_local_authority x) as [c2 [e|[]]] end; injection Hrun as <- <-; cbn in *;
        (split; [done|split; [|by split]]); intros _; rewrite Hp; unfold projection_of, coordinator_of; cbn;
        symmetry; by apply emptied_scope.
    + destruct (Hlocal c1) as (Hna & Hp & Hst & Hl & He); [by rewrite Hc1..|].
      assert (unpublished (w_session (cc_world c)) "session-close" → projection_of c1 = emptied (projection_of c)) as Hem.
      { intros Hun. revert Hclr. unfold clear_ephemeral_state, cc_session, on_world, clear_ephemeral. munfold_goal.
        destruct (commit_request _ _ _ _ _) as [s2 [e|[v n]]] eqn:Hcall; [done|]. intros [= <- _].
        destruct (first_commit fingerprint _ _ _ _ _ _ _ Hc Hun Hcall) as (value & Hmut & _). cbn [mutation] in Hmut.
        pose proof (clear_projection_eq (projection_of c)) as [Hee _]. unfold projection_of, coordinator_of in *.
        rewrite Hmut in Hee. exact Hee. }
      destruct (clear_local_authority c1) as [c2 [e|[]]]; cbn in Hna, Hp, Hst, Hl, He; cbn in Hrun.
      { injection Hrun as <- <-. (split; [done|split; [|by split]]). intros [?|Hun]; [done|]. rewrite Hp. auto. }
      rewrite <-He. unfold mark_closed, call_out in Hrun. munfold.
      assert (projection_of c2 = projection_of c1) as Hp2 by done.
      destruct (engine c) eqn:Heng; cbn in Hrun; [destruct (cl_delete cl) as [e2|[]]; cbn in Hrun|];
        injection Hrun as <- <-; cbn; rewrite ?Hl, ?He, ?app_nil_r; cbn;
        (split; [done|split; [|by split]]); (intros [?|Hun]; [done|]; rewrite <-(Hem Hun); exact Hp).
Qed.
End closing.

Section closing_runs.
Context {P PS R E : Type} `{OtpPort P} `{SessionPersistenceLaws PS E}.
Context (fingerprint : SessionRequest → string).
Notation CC := (CallerContext P PS R).
Implicit Types (c : CC) (cl : close_env E).

Lemma stopped_again c : close_started c = true → stop_turn_admission c = (c, inr tt).
Proof. intros Hs. unfold stop_turn_admission. munfold_goal. by rewrite Hs. Qed.

Lemma stopped_lost c : close_started c = true → durable_authority_lost c = true →
  stop_for_authority_loss c = (c, inr tt).
Proof.
  intros Hs Hl. unfold stop_for_authority_loss, stop_turn_admission. munfold_goal. destruct c; cbn in *.
  by rewrite Hs, Hl.
Qed.

Lemma discard_flags c : cc_ok c →
  close_started (discard_local_authority c).1 = close_started c ∧
  durable_authority_lost (discard_local_authority c).1 = durable_authority_lost c.
Proof.
  intros [Hpok _]. unfold discard_local_authority, clear_local_authority, finally, cc_session, cc_identity, on_world.
  rewrite discard_projection by done. rewrite clear_verification. cbv zeta.
  unfold Identity.clear. munfold_goal. destruct (otp_retain_only _ _ _) as [p [e|[]]]; done.
Qed.

Lemma abandon_run c cl c' r : cc_ok c → close_started c = true → durable_authority_lost c = true →
  closed c = false → abandon_session cl c = (c', r) →
  close_started c' = true ∧ durable_authority_lost c' = true ∧ (r = inr tt → closed c' = true) ∧
  persistence (w_session (cc_world c')) = persistence (w_session (cc_world c)) ∧
  lifecycle_calls c' = lifecycle_calls c ++ [call_await_quiescence] ∧
  (cl_quiescence cl = inr tt ∨ r = inr tt → no_authority (w_verification (cc_world c)) c' ∧
   projection_of c' = emptied (projection_of c)).
Proof.
  intros Hc Hs Hl Hcl Hrun. unfold abandon_session in Hrun. cbv [mbind M_bind] in Hrun.
  rewrite stopped_lost in Hrun by done. cbv [get call_out mbind M_bind modify lift mret M_ret] in Hrun. rewrite Hcl in Hrun.
  destruct (cl_quiescence cl) as [e|[]]; [injection Hrun as <- <-; naive_solver|].
  destruct (discard_local (record_call call_await_quiescence c) Hc) as (Hna & (Hp & _ & _) & Hper & Hlc & _).
  destruct (discard_flags (record_call call_await_quiescence c) Hc) as [Hs' Hl'].
  destruct (discard_local_authority _) as [c1 [e|[]]]; cbn in *; unfold mark_closed in Hrun; cbv [modify] in Hrun;
    injection Hrun as <- <-; cbn; rewrite Hs', Hl', Hlc, Hper; done.
Qed.

Lemma closed_again c cl : closed c = true → close_started c = true → close_session fingerprint cl c = (c, inr tt).
Proof.
  intros Hcl Hs. unfold close_session. cbv [mbind M_bind]. rewrite stopped_again by done. cbv [get mret M_ret].
  destruct (durable_authority_lost c) eqn:Hl; [|by rewrite Hcl].
  unfold abandon_session. cbv [mbind M_bind]. rewrite stopped_lost by done. cbv [get mret M_ret]. by rewrite Hcl.
Qed.
End closing_runs.

(** Closing a session takes its authority away, in order.  A close, however it ends, stops turn
    admission.  When a durable closer owns the session, and whenever the close returns, nobody
    stays bound or granted and the caller's projection is emptied (when no closer owns it, by the
    first publication of its clearing), even though announcing the close, waiting for the turns
    in flight or finalising it failed.  A close that returns has announced itself, waited for
    quiescence, looked for an interrupted turn and only then finalised, and is not run again.
    After the durable authority was lost nothing is published and no closer is called. *)
Theorem close_takes_authority_away {P PS R E} `{OtpPort P} `{SessionPersistenceLaws PS E}
    (fingerprint : SessionRequest → string) (cl : close_env E) (c c' : CallerContext P PS R) r :
  cc_ok c → closed c = false → close_session fingerprint cl c = (c', r) →
  close_started c' = true ∧
  (durable_authority_lost c = false → durable_closer c = true ∨ r = inr tt →
   no_authority (w_verification (cc_world c)) c' ∧
   (durable_closer c = true ∨ unpublished (w_session (cc_world c)) "session-close" →
    projection_of c' = emptied (projection_of c))) ∧
  (r = inr tt → closed c' = true ∧ ∀ cl2, close_session fingerprint cl2 c' = (c', inr tt)) ∧
  (durable_authority_lost c = false → r = inr tt →
   lifecycle_calls c' = lifecycle_calls c ++ stop_calls c ++ prepare_calls c ++ ending_calls c) ∧
  (durable_authority_lost c = true →
   persistence (w_session (cc_world c')) = persistence (w_session (cc_world c)) ∧
   lifecycle_calls c' = lifecycle_calls c ++ stop_calls c ++ [call_await_quiescence] ∧
   (cl_quiescence cl = inr tt → no_authority (w_verification (cc_world c)) c' ∧
    projection_of c' = emptied (projection_of c))).
Proof.
  intros Hc Hcl Hrun. unfold close_session in Hrun. cbv [mbind M_bind] in Hrun.
  destruct (stop_run c) as (c1 & Hstop & [Hw Ht Hd He Hl Hcl1] & Hs & Hh & Hlc). rewrite Hstop in Hrun.
  cbv [get mret M_ret] in Hrun. rewrite Hl, Hcl1, Hcl in Hrun.
  assert (cc_ok c1) as Hc1 by (by unfold cc_ok; rewrite Hw).
  assert (projection_of c1 = projection_of c) as Hp1 by (by unfold projection_of, coordinator_of; rewrite Hw).
  destruct (durable_authority_lost c) eqn:Hlost.
  - apply abandon_run in Hrun as (Hs' & _ & Hcl' & Hper & Hlc' & Hna); [|done..|congruence].
    rewrite Hw in Hper, Hna. rewrite Hp1 in Hna. rewrite Hlc' , Hlc, <-app_assoc.
    split_and!; try done; [|by auto].
    intros Hr. split; [auto|]. intros cl2. apply closed_again; auto.
  - unfold catch in Hrun. destruct (prepare_close cl c1) as [c2 r2] eqn:Hprep.
    destruct (prepare_run c1 cl c2 r2 Hprep) as ([Hw2 Ht2 Hd2 He2 Hl2 Hcl2] & Hs2 & calls & Hlc2 & _ & Hcalls).
    assert (cc_ok c2) as Hc2 by (by unfold cc_ok; rewrite Hw2).
    assert (projection_of c2 = projection_of c) as Hp2 by (unfold projection_of, coordinator_of; by rewrite Hw2, Hw).
    rewrite Hs in Hs2. destruct r2 as [e|[]].
    + rewrite Hd in Hrun. destruct (durable_closer c) eqn:Hdur.
      * destruct (discard_local c2 Hc2) as (Hna & (Hp & _ & _) & _ & _ & _).
        destruct (discard_flags c2 Hc2) as [Hs3 _]. unfold attempt in Hrun.
        rewrite Hw2, Hw in Hna. rewrite Hp2 in Hp.
        destruct (discard_local_authority c2) as [c3 r3]. cbn in Hna, Hp, Hs3. rewrite Hs2 in Hs3.
        assert (c' = c3 ∧ ∃ e', r = inl e') as [-> [e' ->]].
        { unfold lift in Hrun. destruct r3 as [e3|[]]; [|injection Hrun as <- <-; eauto].
          destruct (raise_lifecycle_failures _ _) as [e4|[]] eqn:Hraise; injection Hrun as <- <-; eauto. }
        split_and!; done.
      * cbv [lift] in Hrun. injection Hrun as <- <-. split_and!; try done. naive_solver.
    + rewrite (Hcalls eq_refl) in Hlc2. apply complete_run in Hrun as (Hna & Hp & Hs3 & Hend); [|done].
      rewrite Hw2, Hw in Hna, Hp. rewrite Hp2, Hd2, Hd in Hp. rewrite Hs2 in Hs3. split_and!; try done.
      * intros Hr. split; [by apply Hend|]. intros cl2. apply closed_again; [by apply Hend|done].
      * intros _ Hr. destruct (Hend Hr) as [_ ->]. rewrite Hlc2, Hlc.
        unfold prepare_calls, ending_calls. rewrite Hd2, He2, Hd, He, Hh. by rewrite <-!app_assoc.
Qed.

(** ** Examples *)
Definition identity_subject : VerificationSubject := mkSubject "acme" "s-1" "cust-1" "f-1" purpose_identity.
Definition identity_dispatched : VerificationStore OtpProvider :=
  (dispatch_otp (ProofStore.demo_env shop_now "ch-1") identity_subject "d-1" 3 demo_vstore).1.
Definition identity_verified : VerificationStore OtpProvider :=
  (verify_otp (ProofStore.demo_env (shop_now + 20) "") "ch-1" "four eight two nine one three" identity_dispatched).1.
Definition identity_proof : VerificationProof :=
  mkProof "proof-1" "acme" "s-1" "cust-1" "f-1" purpose_identity "ch-1" (shop_now + 20) (shop_now + 620).
Definition customer_1 : BoundIdentity := mkBound "cust-1" "k***@example.com".

Notation ShopCaller := (CallerContext OtpProvider SessionRow RiskProvider).
(** A caller whose session may be owned by a durable closer, under an unbound identity. *)
Definition shop_caller (durable : bool) : ShopCaller :=
  mkCaller (set_identity (mkIdentity None {["ORD-9"]}) (set_verification identity_verified shop_world))
    None durable (Some 1%nat) (Some 1%nat) (Some 30) None false false 0 [] false [].
Lemma shop_caller_ok durable : cc_ok (shop_caller durable).
Proof. apply demo_session_ok. Qed.

Definition rotation_run := transition_principal demo_fingerprint shop_env customer_1 identity_proof
  VerifyIdentity (shop_caller false).

Lemma principal_transition_all_or_nothing_witness :
  ∃ t, rotation_run.2 = inr t ∧ pending_transition rotation_run.1 = Some t ∧
    w_identity (cc_world rotation_run.1) = mkIdentity (Some customer_1) ∅ ∧
    inspect_principal_transition (shop_now + 100) rotation_run.1 = inr (insp_coherent, Some t).
Proof.
  assert (∃ t, rotation_run.2 = inr t) as [t Ht] by (eexists; by vm_compute).
  assert (transition_id t = "fresh-0") as Hid.
  { apply (f_equal (λ r, match r with inr x => transition_id x | inl _ => "" end)) in Ht. by vm_compute in Ht. }
  exists t. split; [done|].
  pose proof (principal_transition_all_or_nothing demo_fingerprint shop_env customer_1 identity_proof VerifyIdentity
    (shop_caller false) rotation_run.1 rotation_run.2 (shop_caller_ok false) eq_refl eq_refl (surjective_pairing _)) as Hr.
  rewrite Ht in Hr. destruct Hr as (Hp & Hi & _ & _ & _ & _ & _ & Hc). split_and!; [done|done|].
  apply Hc; [|by vm_compute]. rewrite Hid. by split.
Defined.

(** A transition that was marked and not finished. *)
Definition half_done : ShopCaller :=
  set_transition (Some (mkTransition "t-1" "cust-1" "k***@example.com" identity_proof VerifyIdentity)) (shop_caller false).

Lemma principal_invalidation_total_witness :
  let r := invalidate_principal_transition demo_fingerprint SessionCommit.demo_env SessionCommit.demo_env (Some "t-1") half_done in
  w_identity (cc_world r.1) = new_identity ∧ pending_transition r.1 = None ∧
  proofs_by_challenge (w_verification (cc_world r.1)) = [] ∧ r.2 = inr true.
Proof.
  intros r.
  destruct (principal_invalidation_total demo_fingerprint SessionCommit.demo_env SessionCommit.demo_env (Some "t-1")
    half_done r.1 r.2 (shop_caller_ok false) (surjective_pairing _)) as ((Hi & Hp & Hv) & _).
  split_and!; [done|done| |by vm_compute]. apply Hv. by vm_compute.
Defined.

Definition good_close : close_env publish_env :=
  mkCloseEnv (inr tt) (inr tt) (inr false) (inr tt) (inr tt) SessionCommit.demo_env.
Definition late_close : close_env publish_env :=
  mkCloseEnv (inr tt) (raises TimeoutError "") (inr false) (inr tt) (inr tt) SessionCommit.demo_env.

Lemma close_takes_authority_away_witness :
  let c := shop_caller true in
  lifecycle_calls (close_session demo_fingerprint good_close c).1 =
    [call_stop_turn_admission; call_begin_close; call_await_quiescence; call_checkpoint_interrupt;
     call_finalize_close] ∧
  w_identity (cc_world (close_session demo_fingerprint late_close c).1) = new_identity.
Proof.
  intros c.
  destruct (close_takes_authority_away demo_fingerprint good_close c (close_session demo_fingerprint good_close c).1
    (inr tt) (shop_caller_ok true) eq_refl) as (_ & _ & _ & Hl & _).
  { by vm_compute. }
  destruct (close_takes_authority_away demo_fingerprint late_close c (close_session demo_fingerprint late_close c).1
    (close_session demo_fingerprint late_close c).2 (shop_caller_ok true) eq_refl (surjective_pairing _)) as (_ & Hn & _).
  split; [by rewrite Hl|]. apply Hn; [done|by left].
Defined.
