(* ===== verification/IdentityFlow.v ===== *)
(** * The identity flow (agents/identity/flow.py)

    The nodes that ask for a contact, match it against the directory, step the
    caller up and bind the customer, and their routers, over the caller's
    context.  What the reasoning model replies to each prompt of the assemble
    node is an argument; which messages it was shown is not modelled, nor is
    telemetry. *)

From S2P Require Import Prelude PyText Identity Profile Verification OtpProvider ProofStore Consent Confirmation.
From S2P Require Import SessionState SessionCommit SessionRefine Requests Reasoning Nodes Stepup Clarification SupportBase SupportExamples Caller.
Local Open Scope Z_scope.
Local Open Scope list_scope.

(** ** Copy (agents/_copy.py) *)
Definition ACCOUNT_CONTACT_QUESTION : string := "What email address or phone number is on the account?".
Definition REASK_LINE : string :=
  "Could you double-check the email or phone number on the account for me?".
Definition identity_status_line (verified : bool) : string :=
  if verified then "You're verified on this call." else "You're not verified on this call.".
Definition principal_completion_line (k : PrincipalCompletionKind) : option string :=
  match k with
  | continue_request => None
  | completes_switch => Some "You're now verified on the new account."
  | completes_verify => Some "You're now verified."
  end.

(** A response of a model with tools: its text and its calls. *)
Definition ModelReply : Type := string * list ToolCall.

(** [_ProposeIdentity.model_validate] and [_RequestIdentityContact.model_validate] *)
Definition validate_propose (args : list (string * json)) : option string :=
  match args with
  | [(k, JStr claim)] => if String.eqb k "contact_claim" then Some claim else None
  | _ => None
  end.
Definition validate_contact_request (args : list (string * json)) : bool :=
  match args with [] => true | _ => false end.

Definition tool_propose : string := "propose_identity".
Definition tool_leave : string := "leave_identity".
Definition tool_contact : string := "request_identity_contact".

Section identity_flow.
Context {P PS R E : Type} `{OtpPort P} `{RiskPort R} `{SessionPersistence PS E}.
Context (policy : PolicyContext) (fingerprint : SessionRequest → string).
Notation CC := (CallerContext P PS R).
Notation node := (N CC (list Write)).
Implicit Types (c : CC) (env : node_env E) (st : ReasoningState).

Definition is_identity_request (r : IntentRequest) : bool :=
  match r with VerifyIdentity | SwitchAccount => true | _ => false end.
Definition is_switch (i : option ActiveInvocation) : bool :=
  match i with Some i => bool_decide (request i = SwitchAccount) | None => false end.

Definition capability_entry_node st : node :=
  match active_invocation st with
  | Some i =>
      if is_identity_request (request i) then mret [W_execution_owner (Some owner_identity)]
      else fail TypeError "identity capability entry requires an identity invocation"
  | None => fail TypeError "identity capability entry requires an identity invocation"
  end.

(** [_flow_exit] *)
Definition flow_exit (update : list Write) : list Write :=
  [W_pending_identity None; W_identity_claim_misses 0; W_pending_cancel None; W_active_invocation None;
   W_pending_clarification None; W_clarification_liveness None] ++ update.

Definition identity_leave (new_messages : list Message) (call_id : string) : list Write :=
  flow_exit [W_messages (new_messages ++ [ToolMessage "left identity" call_id]); W_execution_owner None].

Definition human_handover (update : list Write) : list Write :=
  flow_exit ([W_execution_owner None; hand_to hr_verification_required DETERMINISTIC_POLICY] ++ update).

Definition clarification_result st (new_messages : list Message) : node :=
  owner ← val (invocation_clarification_owner st);
  let step := advance_clarification st owner (identity_clarification_reask_max policy) in
  if st_exhausted step then mret (human_handover [W_messages new_messages])
  else mret [W_messages new_messages; W_pending_clarification (Some IdentityClarification);
             W_clarification_liveness (st_liveness step)].

Definition pending_for env c (identity : BoundIdentity) : res (option PendingIdentity) :=
  match verification_factor_ref (w_customers (cc_world c)) (customer_ref identity) with
  | None => inr None
  | Some factor =>
      p ← make_PendingIdentity (customer_ref identity) (masked_contact identity) factor (ne_fresh env 0) None;
      inr (Some p)
  end.

Definition identity_subject (s : VerificationStore P) (p : PendingIdentity) : res VerificationSubject :=
  subject s (pi_customer_ref p) (pi_factor_ref p) purpose_identity.

(** A claim of the caller: matched, asked again within the budget, or handed to a person. *)
Definition claim_result env st c (claim : string) (new_messages : list Message) : node :=
  matched ← val (match_contact (w_customers (cc_world c)) claim);
  match matched with
  | Some m =>
      pending ← val (pending_for env c m);
      match pending with
      | None => mret (human_handover [W_messages new_messages])
      | Some p => mret [W_messages new_messages; W_pending_identity (Some p)]
      end
  | None =>
      if identity_claim_misses st <? contact_reask_max policy then
        mret [W_messages new_messages; W_identity_claim_misses (identity_claim_misses st + 1)]
      else mret (human_handover [W_messages new_messages])
  end.

(** The loop over the two attempts. *)
Fixpoint assemble_go env st c (replies : nat → res ModelReply) (attempts : list nat)
    (new_messages : list Message) : node :=
  match attempts with
  | [] => clarification_result st new_messages
  | attempt :: attempts =>
      response ← val (replies attempt);
      match response.2 with
      | [] => clarification_result st new_messages
      | call :: _ =>
          let new_messages := new_messages ++ [AIMessage response.1 response.2]
                                ++ ack_extra_tool_calls response.2 in
          let retry feedback := assemble_go env st c replies attempts
                                  (new_messages ++ [ToolMessage feedback (tc_id call)]) in
          if String.eqb (tc_name call) tool_leave then mret (identity_leave new_messages (tc_id call))
          else if String.eqb (tc_name call) tool_contact then
            if validate_contact_request (tc_args call) then
              clarification_result st
                (new_messages ++ [ToolMessage "contact clarification requested" (tc_id call)])
            else retry "Invalid request. request_identity_contact takes no arguments."
          else if String.eqb (tc_name call) tool_propose then
            match validate_propose (tc_args call) with
            | Some claim =>
                if blank claim then
                  retry "Invalid proposal. contact_claim must be the email or phone number the caller stated, exactly as they said it."
                else claim_result env st c claim
                       (new_messages ++ [ToolMessage "identity claim received" (tc_id call)])
            | None =>
                retry "Invalid proposal. contact_claim must be the email or phone number the caller stated, exactly as they said it."
            end
          else assemble_go env st c replies attempts
                 (new_messages ++ [unknown_tool_result (tc_id call) tool_leave])
      end
  end.

Definition assemble_node env (replies : nat → res ModelReply) st : node :=
  c ← here;
  match current (w_identity (cc_world c)) with
  | Some bound =>
      if is_switch (active_invocation st) then assemble_go env st c replies [0%nat; 1%nat] []
      else
        pending ← val (pending_for env c bound);
        match pending with
        | None => mret (human_handover [])
        | Some p => mret [W_pending_identity (Some p)]
        end
  | None => assemble_go env st c replies [0%nat; 1%nat] []
  end.

Definition ask_contact_node st : node :=
  match pending_clarification st with
  | Some IdentityClarification => mret [W_pending_clarification None; say ACCOUNT_CONTACT_QUESTION]
  | _ => fail TypeError "identity ask-contact node requires IdentityClarification"
  end.

Definition reask_node : node := mret [say REASK_LINE].

(** Only telemetry depends on whether the caller is already proven. *)
Definition identity_guardrail_node st : node :=
  pending ← the (pending_identity st);
  c ← here;
  match current (w_identity (cc_world c)) with
  | Some bound =>
      if String.eqb (customer_ref bound) (pi_customer_ref pending) then
        val (identity_subject (w_verification (cc_world c)) pending) ;; mret []
      else mret []
  | None => mret []
  end.

Definition identity_family : Family P PendingIdentity :=
  mkFamily pending_identity W_pending_identity (λ _, identity_required_level) identity_subject true
    (otp_max_attempts policy).

(** ** Routers *)
Definition bound_to c (p : PendingIdentity) : bool :=
  match current (w_identity (cc_world c)) with
  | Some b => String.eqb (customer_ref b) (pi_customer_ref p)
  | None => false
  end.

Definition route_after_identity_risk (now : Z) c st : res StepupRoute :=
  decision ← route_after_risk identity_family now (w_verification (cc_world c)) st;
  match decision with
  | to_confirm =>
      match pending_identity st with
      | None => raises AssertionError ""
      | Some pending => inr (if bound_to c pending then to_confirm else to_dispatch)
      end
  | d => inr d
  end.

Definition route_after_identity_collect (now : Z) c st : res StepupRoute :=
  route_after_collect identity_family now (w_verification (cc_world c)) st.

Inductive AssembleRoute := ia_leave | ia_handover | ia_guardrail | ia_clarify | ia_reask.
#[export] Instance AssembleRoute_eq_dec : EqDecision AssembleRoute.
Proof. solve_decision. Defined.

(** The loop over the reversed messages: the newest response of the model. *)
Fixpoint newest_response (newest_first : list Message) : option (list ToolCall) :=
  match newest_first with
  | [] => None
  | AIMessage _ calls :: _ => Some calls
  | _ :: ms => newest_response ms
  end.

Definition route_after_assemble st : res AssembleRoute :=
  if current_turn_called (messages st) tool_leave then inr ia_leave
  else if isSome (handover st) then inr ia_handover
  else if isSome (pending_identity st) then inr ia_guardrail
  else
    match pending_clarification st with
    | Some IdentityClarification => inr ia_clarify
    | Some _ => raises TypeError "identity assemble produced a non-identity clarification"
    | None =>
        inr (match newest_response (reverse (messages st)) with
             | Some calls => if existsb (λ t, String.eqb (tc_name t) tool_propose) calls then ia_reask else ia_clarify
             | None => ia_clarify
             end)
    end.

(** ** The step-up nodes of the flow *)
Definition written_handover (ws : list Write) : option (option HandoffRequest) :=
  written (λ w, match w with W_handover h => Some h | _ => None end) ws.

(** [_clear_selection_on_handover], on the update of the wrapped node. *)
Definition clear_selection_on_handover (update : list Write) : list Write :=
  match written_handover update with
  | Some (Some _) =>
      update ++ [W_pending_cancel None; W_active_invocation None; W_pending_clarification None]
  | _ => update
  end.

Definition in_caller {A} (n : N (VerificationStore P) A) : N CC A :=
  zoom cc_world set_world (in_verification n).

Definition identity_risk_node st : node :=
  c ← here;
  update ← in_caller (risk_check_node identity_family (w_risk (cc_world c)) st);
  mret (clear_selection_on_handover update).
Definition identity_dispatch_node env st : node :=
  in_caller (dispatch_node identity_family (ne_store env) st).
Definition identity_collect_node env st : node :=
  update ← in_caller (collect_node identity_family (ne_store env) st);
  mret (clear_selection_on_handover update).

(** ** Binding *)
(** The proof minted by this pending identity's own challenge, when it is good enough. *)
Definition own_challenge_proof (now : Z) (s : VerificationStore P) (p : PendingIdentity)
    : res (option VerificationProof) :=
  match pi_challenge_id p with
  | None => inr None
  | Some id =>
      subj ← identity_subject s p;
      inr (if challenge_satisfies now s id subj identity_required_level
           then proof_for_challenge now s id else None)
  end.

Definition apply_node env st : node :=
  pending ← the (pending_identity st);
  match active_invocation st with
  | None => fail RuntimeError "identity apply requires an active invocation"
  | Some invocation =>
      let r := request invocation in
      c ← here;
      if bound_to c pending then
        if bool_decide (r = SwitchAccount) then
          mret (flow_exit [W_execution_owner None; say "You're already verified on that account."])
        else if bool_decide (r = VerifyIdentity) then
          let newly_verified :=
            match pi_challenge_id pending with
            | Some id => isSome (proof_for_challenge (se_now (ne_store env)) (w_verification (cc_world c)) id)
            | None => false
            end in
          line ← (if (newly_verified : bool) then the (principal_completion_line completes_verify)
                  else mret (identity_status_line true));
          mret (flow_exit [W_execution_owner None; say line])
        else mret [W_pending_identity None; W_identity_claim_misses 0; W_execution_owner (Some owner_support)]
      else
        fresh_proof ← val (own_challenge_proof (se_now (ne_store env)) (w_verification (cc_world c)) pending);
        match fresh_proof with
        | None => mret (human_handover [])
        | Some proof =>
            new_identity ← val (make_BoundIdentity (pi_customer_ref pending) (pi_masked_contact pending));
            transition ← act (transition_principal fingerprint env new_identity proof r);
            projection ← val (project_principal_transition (Some (initiating_request transition)));
            c ← here;
            mret [W_pending_identity None; W_identity_claim_misses 0; W_active_invocation None;
                  W_execution_owner None; W_session_revision (session_revision c);
                  W_messages (match principal_completion_line (pt_completion_kind projection) with
                              | Some line => [AIMessage line []]
                              | None => []
                              end)]
        end
  end.
End identity_flow.

(** ** Properties *)
Section identity_laws.
Context {P PS R E : Type} `{OtpPort P} `{RiskPort R} `{SessionPersistenceLaws PS E}.
Context (policy : PolicyContext) (fingerprint : SessionRequest → string).
Context (am : list Message → list Message → list Message).
Notation CC := (CallerContext P PS R).
Notation node := (N CC (list Write)).
Implicit Types (c : CC) (env : node_env E) (st : ReasoningState).

(** No request and no proposal of the flow is left for a later turn. *)
Definition no_intent st : Prop :=
  pending_identity st = None ∧ active_invocation st = None ∧ pending_cancel st = None ∧
  pending_clarification st = None ∧ execution_owner st = None ∧ identity_claim_misses st = 0.

Lemma human_handover_clears st ms :
  no_intent (apply_update am (human_handover [W_messages ms]) st) ∧
  no_intent (apply_update am (human_handover []) st) ∧
  handover (apply_update am (human_handover []) st) = Some verification_handover ∧
  handover (apply_update am (human_handover [W_messages ms]) st) = Some verification_handover.
Proof. done. Qed.

(** A node whose every update either hands over with no intent left, or does not hand over. *)
Definition closes_on_handover (n : node) st : Prop := ∀ s s' ws, n s = (s', Done ws) →
  handover st = None → handover (apply_update am ws st) ≠ None →
  pending_identity (apply_update am ws st) = None ∧ active_invocation (apply_update am ws st) = None ∧
  pending_cancel (apply_update am ws st) = None ∧ pending_clarification (apply_update am ws st) = None ∧
  execution_owner (apply_update am ws st) = None.

Lemma closes_ret st ws : handover (apply_update am ws st) = handover st ∨
    (∃ extra, ws = human_handover extra ∧ (extra = [] ∨ ∃ ms, extra = [W_messages ms])) →
  closes_on_handover (mret ws) st.
Proof.
  intros Hws s s' ws' [= <- <-] Hh Hne. destruct Hws as [Heq|(extra & -> & [->|[ms ->]])]; [congruence|done|done].
Qed.
Lemma closes_bind {A} (n : N CC A) (k : A → node) st :
  (∀ a, closes_on_handover (k a) st) → closes_on_handover (n ≫= k) st.
Proof. intros Hk s s' ws (a & s1 & _ & Hr)%bind_done. by apply (Hk a s1 s'). Qed.
Lemma closes_fail st e m : closes_on_handover (fail e m) st.
Proof. intros [? ?] s' ws Hr. done. Qed.

Ltac closes_with lemma := repeat first
  [ lemma tt | progress cbv zeta | apply closes_bind; intros ? | apply closes_fail
  | apply closes_ret; first [by left | by right; eexists; split; [reflexivity|eauto]] | case_match ].

Lemma clarification_closes st ms : closes_on_handover (clarification_result policy st ms) st.
Proof. unfold clarification_result. closes_with ltac:(fun _ => fail). Qed.

Lemma claim_closes env st c claim ms : closes_on_handover (claim_result policy env st c claim ms) st.
Proof. unfold claim_result. closes_with ltac:(fun _ => fail). Qed.

Lemma assemble_go_closes env st c replies attempts : ∀ ms,
  closes_on_handover (assemble_go policy env st c replies attempts ms) st.
Proof.
  induction attempts as [|n attempts IH]; intros ms; cbn [assemble_go]; [apply clarification_closes|].
  apply closes_bind. intros [text calls]. cbn.
  closes_with ltac:(fun _ => first [apply IH | apply clarification_closes | apply claim_closes]).
Qed.

Lemma assemble_closes env replies st : closes_on_handover (assemble_node policy env replies st) st.
Proof. unfold assemble_node. closes_with ltac:(fun _ => apply assemble_go_closes). Qed.
Lemma apply_closes env st : closes_on_handover (apply_node fingerprint env st) st.
Proof. unfold apply_node. closes_with ltac:(fun _ => fail). Qed.

Lemma clear_selection_closes (n : node) st :
  (∀ s s' ws, n s = (s', Done ws) → handover (apply_update am ws st) = handover st ∨
     (pending_identity (apply_update am ws st) = None ∧ execution_owner (apply_update am ws st) = None ∧
      isSome (default None (written_handover ws)) = true)) →
  closes_on_handover (update ← n; mret (clear_selection_on_handover update)) st.
Proof.
  intros Hn s s' ws (u & s1 & Hu & Hr)%bind_done Hh Hne. injection Hr as <- <-.
  destruct (Hn _ _ _ Hu) as [Heq|(Hp & Ho & Hw)].
  - unfold clear_selection_on_handover in Hne |- *. destruct (written_handover u) as [[h|]|] eqn:Eh; [|congruence|congruence].
    exfalso. revert Heq. unfold apply_update; cbn [handover]. unfold last_value. fold (written_handover u). rewrite Eh, Hh. done.
  - unfold clear_selection_on_handover in *. destruct (written_handover u) as [[h|]|]; try done.
    unfold apply_update in *. cbn [pending_identity execution_owner active_invocation pending_cancel pending_clarification] in *.
    unfold last_value, written in *. rewrite !foldl_app. cbn [foldl]. done.
Qed.

Lemma in_caller_done {A} (n : N (VerificationStore P) A) ans c s' a :
  in_caller n (ans, c) = (s', Done a) → ∃ v', n (ans, w_verification (cc_world c)) = ((s'.1, v'), Done a) ∧
    s'.2 = set_world (set_verification v' (cc_world c)) c.
Proof.
  unfold in_caller, in_verification, zoom. destruct (n _) as [[ans' v'] [x|e|p]]; [|done|done].
  intros [= <- <-]. by exists v'.
Qed.

Definition quiet_or_handover (ws : list Write) : Prop := ws = [] ∨ ws = stepup_handover (identity_family policy).

Lemma quiet_closes ws st : quiet_or_handover ws →
  handover (apply_update am ws st) = handover st ∨
  (pending_identity (apply_update am ws st) = None ∧ execution_owner (apply_update am ws st) = None ∧
   isSome (default None (written_handover ws)) = true).
Proof. intros [->| ->]; [by left|by right]. Qed.

Lemma risk_quiet risk st s s' ws : risk_check_node (identity_family policy) risk st s = (s', Done ws) →
  quiet_or_handover ws.
Proof.
  unfold risk_check_node. intros Hrun. destruct s as [ans v]. nsteps. unfold quiet_or_handover.
  destruct a1; apply ret_done in Hrun as [_ ->]; auto.
Qed.

Lemma collect_quiet (env : store_env) st s s' ws : collect_node (identity_family policy) env st s = (s', Done ws) →
  quiet_or_handover ws.
Proof.
  unfold collect_node, quiet_or_handover. intros Hrun. nsteps. destruct (pending_challenge_id _) as [id|].
  - apply bind_done in Hrun as (reply & s1 & _ & Hrun). apply bind_done in Hrun as (o & s2 & _ & Hrun).
    destruct o; apply ret_done in Hrun as [_ ->]; auto.
  - by destruct s.
Qed.

(** ** Guessing contacts *)
(** A turn in which the model proposes a contact that matches no customer. *)
Definition misses_contact c (replies : nat → res ModelReply) : Prop := ∃ text call calls claim,
  replies 0%nat = inr (text, call :: calls) ∧ tc_name call = tool_propose ∧
  validate_propose (tc_args call) = Some claim ∧ blank claim = false ∧
  match_contact (w_customers (cc_world c)) claim = inr None.

(** The turns of a caller until one hands over. *)
Fixpoint probe (turns : list (node_env E * (nat → res ModelReply))) st c : ReasoningState :=
  match turns with
  | [] => st
  | (env, replies) :: turns =>
      match assemble_node policy env replies st ([], c) with
      | (_, Done ws) =>
          let st' := apply_update am (with_clarification_lifecycle ws) st in
          if isSome (handover st') then st' else probe turns st' c
      | _ => st
      end
  end.

Lemma assemble_miss env replies st c : current (w_identity (cc_world c)) = None → misses_contact c replies →
  ∃ ms, assemble_node policy env replies st ([], c) =
    (([], c), Done (if identity_claim_misses st <? contact_reask_max policy
                    then [W_messages ms; W_identity_claim_misses (identity_claim_misses st + 1)]
                    else human_handover [W_messages ms])).
Proof.
  intros Hcur (text & call & calls & claim & Hr & Hname & Hval & Hb & Hm). eexists.
  unfold assemble_node. cbv [mbind N_bind here act get]. rewrite Hcur. cbn [assemble_go].
  cbv [mbind N_bind val act lift]. rewrite Hr. cbn [snd fst]. rewrite Hname, Hval, Hb.
  change (String.eqb tool_propose tool_leave) with false. change (String.eqb tool_propose tool_contact) with false.
  change (String.eqb tool_propose tool_propose) with true. cbv iota.
  unfold claim_result. cbv [mbind N_bind val act lift]. rewrite Hm. by destruct (_ <? _).
Qed.
End identity_laws.

(** A failed identification leaves no intent behind: whenever a node of the identity flow hands
    over to a person, whatever the caller said, the model replied or the provider answered, the
    pending identity, the request the flow was opened for, a pending cancellation and a pending
    question are all dropped and no flow owns the next turn. *)
Theorem identity_handover_leaves_no_intent {P PS R E} `{OtpPort P} `{RiskPort R} `{SessionPersistenceLaws PS E}
    policy fingerprint am (env : node_env E) replies st (n : N (CallerContext P PS R) (list Write)) :
  n ∈ [assemble_node policy env replies st; identity_risk_node policy st; identity_collect_node policy env st;
       apply_node fingerprint env st] →
  closes_on_handover am n st.
Proof.
  rewrite !elem_of_cons. intros [->|[->|[->|[->|[]%elem_of_nil]]]].
  - apply assemble_closes.
  - unfold identity_risk_node. apply closes_bind. intros c. apply clear_selection_closes.
    intros [ans c1] s' ws (v' & Hr & _)%in_caller_done. eapply quiet_closes, risk_quiet; done.
  - unfold identity_collect_node. apply clear_selection_closes.
    intros [ans c1] s' ws (v' & Hr & _)%in_caller_done. eapply quiet_closes, collect_quiet; done.
  - apply apply_closes.
Qed.

(** Contacts cannot be tried out: an unbound caller whose claims match no customer is asked again
    exactly as often as the re-ask budget still allows; the next miss hands over to a person with
    no intent left.  Nothing is ever pending after a miss, and no claim changes who the caller is. *)
Theorem identity_probe_bounded {P PS R E} `{OtpPort P} `{SessionPersistenceLaws PS E}
    policy am (turns : list (node_env E * (nat → res ModelReply))) (c : CallerContext P PS R) : ∀ st,
  current (w_identity (cc_world c)) = None → Forall (λ t, misses_contact c t.2) turns →
  handover st = None → pending_identity st = None → identity_claim_misses st ≤ contact_reask_max policy →
  let st' := probe policy am turns st c in
  let left := Z.to_nat (contact_reask_max policy - identity_claim_misses st) in
  pending_identity st' = None ∧
  (handover st' = None ↔ (length turns ≤ left)%nat) ∧
  (handover st' = None → identity_claim_misses st' = identity_claim_misses st + Z.of_nat (length turns)) ∧
  ((left < length turns)%nat → handover st' = Some verification_handover ∧ no_intent st').
Proof.
  induction turns as [|[env replies] turns IH]; intros st Hcur Hmiss Hh Hp Hle; cbn [probe length]; cbv zeta.
  { split_and!; [done|split; [lia|done]|lia|lia]. }
  apply Forall_cons in Hmiss as [Hm Hms]. cbn in Hm.
  destruct (assemble_miss policy env replies st c Hcur Hm) as [ms ->].
  destruct (Z.ltb_spec (identity_claim_misses st) (contact_reask_max policy)) as [Hlt|Hge].
  - set (st1 := apply_update am _ st).
    assert (handover st1 = None ∧ pending_identity st1 = None ∧ identity_claim_misses st1 = identity_claim_misses st + 1)
      as (Hh1 & Hp1 & Hn1) by done.
    rewrite Hh1. cbn [isSome]. destruct (IH st1 Hcur Hms Hh1 Hp1 ltac:(lia)) as (Hi1 & Hi2 & Hi3 & Hi4).
    rewrite Hn1 in Hi2, Hi3, Hi4. split_and!; [done| | |].
    + rewrite Hi2. lia.
    + intros Hn. rewrite (Hi3 Hn). lia.
    + intros Hlt'. apply Hi4. lia.
  - cbn. split_and!; [done|split; [done|lia]|done|]. intros _. done.
Qed.

(** C7 A customer is bound only by the proof of its own challenge.  When the apply node changes who
    the caller is, there is a pending identity whose own dispatched challenge was verified for
    exactly this customer, factor and purpose at the required level, its proof still fresh; the
    caller then is that customer, with no order grant carried over and that proof alone left, or,
    when the rotation failed half way, nobody. *)
Theorem identity_bind_needs_own_challenge {P PS R E} `{OtpPort P} `{SessionPersistenceLaws PS E}
    fingerprint (env : node_env E) st ans (c c' : CallerContext P PS R) ans' o :
  apply_node fingerprint env st (ans, c) = ((ans', c'), o) → cc_ok c →
  w_identity (cc_world c') ≠ w_identity (cc_world c) →
  ∃ p id subj proof, pending_identity st = Some p ∧ pi_challenge_id p = Some id ∧
    bound_to c p = false ∧
    identity_subject (w_verification (cc_world c)) p = inr subj ∧
    challenge_satisfies (se_now (ne_store env)) (w_verification (cc_world c)) id subj identity_required_level = true ∧
    proof_for_challenge (se_now (ne_store env)) (w_verification (cc_world c)) id = Some proof ∧
    match o with
    | Done ws => w_identity (cc_world c') = mkIdentity (Some (mkBound (pi_customer_ref p) (pi_masked_contact p))) ∅ ∧
        proofs_by_challenge (w_verification (cc_world c')) = [(vp_challenge_id proof, proof)] ∧
        vp_customer_ref proof = strip (pi_customer_ref p) ∧ vp_purpose proof = purpose_identity
    | _ => w_identity (cc_world c') = new_identity ∨
        w_identity (cc_world c') = mkIdentity (Some (mkBound (pi_customer_ref p) (pi_masked_contact p))) ∅
    end.
Proof.
  intros Hrun Hc Hne. unfold apply_node in Hrun.
  destruct (pending_identity st) as [p|] eqn:Hp; [|injection Hrun as <- <- <-; done].
  destruct (active_invocation st) as [i|] eqn:Hi; [|injection Hrun as <- <- <-; done].
  cbv [the mbind N_bind mret N_ret here act get] in Hrun.
  destruct (bound_to c p) eqn:Hb.
  { repeat case_bool_decide; cbv [flow_exit fail act raise the mret N_ret] in Hrun; repeat case_match; simplify_eq. }
  destruct (val (own_challenge_proof _ _ _) _) as [s1 [proof|e|pr]] eqn:Hown;
    [|unfold val, act, lift in Hown; destruct (own_challenge_proof _ _ _); by simplify_eq..].
  apply val_done in Hown as [Hown ->]. destruct proof as [proof|]; [|by injection Hrun as <- <- <-].
  unfold own_challenge_proof in Hown. destruct (pi_challenge_id p) as [id|] eqn:Hid; [|done].
  munfold. destruct (identity_subject _ p) as [e|subj] eqn:Hsub; [done|].
  destruct (challenge_satisfies _ _ id subj _) eqn:Hcs; [|done]. injection Hown as Hown.
  exists p, id, subj, proof. split_and!; try done.
  unfold val, act, lift in Hrun.
  destruct (make_BoundIdentity _ _) as [e|new] eqn:Hnew; [by injection Hrun as <- <- <-|].
  unfold make_BoundIdentity, validated in Hnew. destruct (_ && _); [|done]. injection Hnew as <-.
  destruct (transition_principal _ _ _ _ _ c) as [c1 r] eqn:Htr.
  apply transition_identity in Htr; [|done]. destruct r as [e|t].
  { injection Hrun as <- <- <-. left. by destruct Htr as [Heq|?]. }
  destruct Htr as (Hw & Hpr & Hcu & Hpu & _ & _).
  destruct (project_principal_transition _) as [e|proj]; injection Hrun as <- <- <-; [by right|done].
Qed.


(** ** Examples *)
Definition verifying : ReasoningState :=
  apply_update app
    [W_pending_identity (Some (mkPendingIdentity "cust-1" "k***@example.com" "f-1" "d-1" (Some "ch-1")));
     W_active_invocation (Some (mkInvocation "i-1" VerifyIdentity "t-1")); W_execution_owner (Some owner_identity)]
    initial_state.
Definition late_env : node_env publish_env :=
  mkNodeEnv (shop_now + 30) (ne_fresh shop_env) (ProofStore.demo_env (shop_now + 30) "ch-9") SessionCommit.demo_env.
(** A run of a node is its replies, its objects and its outcome. *)
Lemma run_eta {A B C} (r : (A * B) * C) : r = ((r.1.1, r.1.2), r.2).
Proof. by destruct r as [[??] ?]. Qed.
Definition bind_run := apply_node demo_fingerprint late_env verifying ([], shop_caller false).

Lemma identity_bind_needs_own_challenge_witness :
  w_identity (cc_world bind_run.1.2) = mkIdentity (Some customer_1) ∅ ∧
  ∃ p proof, pending_identity verifying = Some p ∧
    proof_for_challenge (shop_now + 30) identity_verified "ch-1" = Some proof ∧ vp_customer_ref proof = "cust-1".
Proof.
  assert (∃ ws, bind_run.2 = Done ws) as [ws Hws] by (eexists; by vm_compute).
  destruct (identity_bind_needs_own_challenge demo_fingerprint late_env verifying [] (shop_caller false) bind_run.1.2
    bind_run.1.1 bind_run.2) as (p & id & subj & proof & Hp & Hid & _ & _ & _ & Hpr & Ho).
  - rewrite <-(run_eta bind_run). unfold bind_run. reflexivity.
  - apply shop_caller_ok.
  - intros Heq. apply (f_equal (λ i, isSome (current i))) in Heq. by vm_compute in Heq.
  - rewrite Hws in Ho. injection Hp as <-. injection Hid as <-. destruct Ho as (Hi & _ & Hc & _).
    split; [exact Hi|]. eexists _, proof. split; [reflexivity|]. split; [exact Hpr|].
    rewrite Hc. by vm_compute.
Defined.

(** A contact nobody has, and a directory it is looked up in. *)
Definition says_contact (claim : string) (attempt : nat) : res ModelReply :=
  inr ("", [mkToolCall tool_propose [("contact_claim", JStr claim)] "call-1"]).
Definition guesses : list (node_env publish_env * (nat → res ModelReply)) :=
  replicate (S (Z.to_nat (contact_reask_max shop_policy))) (shop_env, says_contact "nobody@example.com").

Lemma identity_probe_bounded_witness :
  handover (probe shop_policy app guesses initial_state (shop_caller false)) = Some verification_handover ∧
  handover (probe shop_policy app (tail guesses) initial_state (shop_caller false)) = None.
Proof.
  assert (Forall (λ t, misses_contact (shop_caller false) t.2) guesses) as Hmiss.
  { apply Forall_replicate. eexists "", _, [], "nobody@example.com". split_and!; by vm_compute. }
  split.
  - apply (identity_probe_bounded shop_policy app guesses (shop_caller false) initial_state eq_refl Hmiss eq_refl eq_refl
      ltac:(by vm_compute)). vm_compute. lia.
  - apply (identity_probe_bounded shop_policy app (tail guesses) (shop_caller false) initial_state eq_refl
      ltac:(by apply Forall_tail) eq_refl eq_refl ltac:(by vm_compute)). vm_compute. lia.
Defined.

Lemma identity_handover_leaves_no_intent_witness :
  let run := assemble_node shop_policy shop_env (says_contact "nobody@example.com")
    (apply_update app [W_identity_claim_misses 9] verifying) ([], shop_caller false) in
  match run.2 with
  | Done ws => active_invocation (apply_update app ws (apply_update app [W_identity_claim_misses 9] verifying)) = None
  | _ => False
  end.
Proof.
  intros run. assert (∃ ws, run.2 = Done ws) as [ws Hws] by (eexists; by vm_compute). rewrite Hws.
  eapply (identity_handover_leaves_no_intent shop_policy demo_fingerprint app shop_env (says_contact "nobody@example.com")
    (apply_update app [W_identity_claim_misses 9] verifying) _ ltac:(left) ([], shop_caller false) run.1 ws).
  - rewrite <-Hws. apply surjective_pairing.
  - done.
  - assert (ws = match run.2 with Done ws => ws | _ => [] end) as -> by (by rewrite Hws). by vm_compute.
Defined.
