(* ===== verification/SupportEntry.v ===== *)
(** * The support flow: the typed entry (agents/support/flow.py, agents/frontline/graph.py)

    The node that prepares one typed support request: it normalizes a focused
    reference, fills the one missing slot with a tool-only model, decides
    whether the caller may act on the orders, and mints the pending action of
    the owning path, asks a question, or sends an unbound caller through
    identity with the request retained.  Then the node that renders an order
    list, the node that asks, and the router of the entry.

    The model's replies are an input, one per attempt; the prompt they answer
    and telemetry are not modelled. *)

From S2P Require Import Prelude PyText Regex WordRegex Money Cart Orders OrderScope OrderStore Spoken Redaction Identity Profile.
From S2P Require Import Verification OtpProvider Consent Confirmation SessionState SessionCommit SessionRefine Requests Reasoning Clarification Nodes Stepup SupportBase SupportCancel SupportExamples Caller IdentityFlow.
Local Open Scope Z_scope.
Local Open Scope list_scope.

(** ** Lines *)
Definition SUPPORT_COMBINED_NOT_FOUND : string :=
  "I couldn't find an order matching those details. Please double-check the order number and the email or phone on the account. I haven't changed anything.".
Definition SUPPORT_NOT_FOUND_OFFER_HUMAN : string :=
  "I couldn't find an order matching those details. Please contact the store directly for help verifying the order. I haven't changed anything.".
Definition ORDER_NUMBER_QUESTION : string := "What is the order number, for example ORD-1234?".
Definition SUPPORT_CLARIFICATION_LINES (d : SupportDetail) : string :=
  match d with
  | sd_action => "What would you like help with: a cancellation, return, refund, or profile update?"
  | sd_order => ORDER_NUMBER_QUESTION
  | sd_amount => "What amount would you like refunded?"
  | sd_refund_destination => "Should the refund go back to the original payment method?"
  | sd_profile_field => "Would you like to update your delivery address or contact number?"
  | sd_profile_value => "What new delivery address or contact number would you like to use?"
  | sd_order_match => SUPPORT_COMBINED_NOT_FOUND
  | sd_order_match_human_help => SUPPORT_NOT_FOUND_OFFER_HUMAN
  end.
Definition GUEST_LIST_CLOSE : string :=
  "To pull up any other orders on an account, I can verify you - just let me know.".
(** The bucket of the denials whose reference resolved to no order. *)
Definition UNRESOLVED_ORDER : string := "<unresolved>".

(** ** What the caller stated *)
Definition caller_stated_profile_value (utterance : string) (field : ProfileField) (value : string) : bool :=
  let stated := join " " (split (lower utterance)) in
  let proposed := join " " (split (lower value)) in
  match field with
  | contact => caller_stated_phone utterance value
  | _ => nonempty proposed && py_in proposed stated
  end.

(** [format(amount.normalize(), "f")]: no zero is left after the point. *)
Definition str_normalized (cents : Z) : string :=
  if cents mod 100 =? 0 then str_int (cents / 100)
  else if cents mod 10 =? 0 then
    str_int (cents / 100) +:+ "." +:+ String (char_of_digit ((cents mod 100) / 10)) ""
  else str_usd cents.
Definition amount_variants (cents : Z) : list string := fromkeys [str_usd cents; str_normalized cents].

(** [(?:\$\s*(?:A)\b|\b(?:A)\s*(?:dollars?|usd)\b)], letter case ignored, for the variants [A]. *)
Definition refund_amount_re (cents : Z) : wre :=
  let amount := match amount_variants cents with [] => WEps | v :: vs => WAlts (WLit v) (WLit <$> vs) end in
  let spaces := WStar (WChar is_space) in
  WAlt (WCats [WLit "$"; spaces; amount; WBound])
       (WCats [WBound; amount; spaces; WAlt (WCats [WLit "dollar"; WOpt (WLit "s")]) (WLit "usd"); WBound]).
Definition caller_stated_refund_amount (utterance : string) (cents : Z) : option Z :=
  if wsearch (refund_amount_re cents) utterance then Some cents else None.

(** [\b(?:new|different|another)\b[^.?!]*\b(?:N)\b] for the nouns [N]. *)
Definition new_thing_re (noun : string) (others : list string) : wre :=
  WCats [WBound; WAlts (WText "new") [WText "different"; WText "another"]; WBound;
         WStar (WChar (λ c, negb (Ascii.eqb c "." || Ascii.eqb c "?" || Ascii.eqb c "!")));
         WBound; WAlts (WText noun) (WText <$> others); WBound].
Definition caller_stated_refund_destination (utterance : string) (destination : RefundDestination)
    : option RefundDestination :=
  let lowered := lower utterance in
  match destination with
  | original => Some destination
  | new_instrument => if wsearch (new_thing_re "card" ["instrument"]) lowered then Some destination else None
  | new_address => if wsearch (new_thing_re "address" []) lowered then Some destination else None
  end.

(** ** The arguments of the tools *)
Definition invalid {A} : res A := raises ValidationError "".
(** The one text argument of a tool that takes it and no other. *)
Definition one_text (name : string) (args : list (string * json)) : res string :=
  match args with
  | [(k, JStr v)] => if String.eqb k name then inr v else invalid
  | _ => invalid
  end.

(** [Decimal(text)] of a finite number: blanks around it and underscores ignored, a sign, digits
    with at most one point, an exponent.  The special values are no amount either way. *)
Definition signed_int (s : string) : option Z :=
  let '(sign, ds) := match s with String "-" ds => (-1, ds) | String "+" ds => (1, ds) | ds => (1, ds) end in
  if isdecimal ds then Some (sign * int_of ds) else None.
Definition decimal_text (s : string) : option Decimal :=
  let s := sfilter (λ c, negb (Ascii.eqb c "_")) (strip s) in
  let '(sign, s) := match s with String "-" s => (-1, s) | String "+" s => (1, s) | s => (1, s) end in
  let is_e c := Ascii.eqb (lower_char c) "e" in
  let mantissa := take_while (λ c, negb (is_e c)) s in
  let whole := take_while is_digit mantissa in
  match drop_while is_digit mantissa with
  | "" => Some "" | String "." f => if sforall is_digit f then Some f else None | _ => None
  end ≫= λ fraction,
  (if nonempty (whole +:+ fraction) then Some tt else None) ≫= λ _,
  match drop_while (λ c, negb (is_e c)) s with "" => Some 0 | String _ e => signed_int e end ≫= λ exponent,
  Some (DFinite (sign * int_of (whole +:+ fraction)) (exponent - Z.of_nat (String.length fraction))).

(** [_ProvideRefundAmount.model_validate] *)
Definition validate_refund_amount (args : list (string * json)) : res Z :=
  match args with
  | [(k, v)] =>
      if String.eqb k "amount_usd" then
        match v with
        | JNum d => validate_usd d
        | JStr t => match decimal_text t with Some d => validate_usd d | None => invalid end
        | _ => invalid
        end
      else invalid
  | _ => invalid
  end.
(** [_ProvideRefundDestination.model_validate] *)
Definition validate_refund_destination (args : list (string * json)) : res RefundDestination :=
  t ← one_text "destination" args;
  if String.eqb t "original" then inr original
  else if String.eqb t "new_instrument" then inr new_instrument
  else if String.eqb t "new_address" then inr new_address
  else invalid.

(** [_ProposeCancel.model_validate]: the references, blanks around them dropped, or the scope. *)
Definition text_of (v : json) : res string := match v with JStr t => inr t | _ => invalid end.
Definition validate_propose_cancel (args : list (string * json)) : res (list string + CancelScope) :=
  requires (forallb (λ kv, bool_decide (kv.1 = "order_keys" ∨ kv.1 = "scope")) args) ValidationError "" ;;
  order_keys ← match dget "order_keys" args with
               | None | Some JNull => inr []
               | Some (JList l) => mapR text_of l
               | Some _ => invalid
               end;
  scope ← match dget "scope" args with
          | None | Some JNull => inr None
          | Some (JStr t) =>
              if String.eqb t "all_cancellable" then inr (Some all_cancellable)
              else if String.eqb t "both_cancellable" then inr (Some both_cancellable)
              else invalid
          | Some _ => invalid
          end;
  let normalized := strip <$> order_keys in
  requires (forallb nonempty normalized) ValidationError "order_keys must contain only non-empty references" ;;
  match normalized, scope with
  | _ :: _, None => inr (inl normalized)
  | [], Some s => inr (inr s)
  | _, _ => raises ValidationError "provide exactly one of order_keys or scope"
  end.

(** [_ProposeProfileChange.model_validate] *)
Definition validate_propose_profile (args : list (string * json)) : res (ProfileField * string) :=
  requires (forallb (λ kv, bool_decide (kv.1 = "field" ∨ kv.1 = "new_value")) args) ValidationError "" ;;
  match dget "field" args, dget "new_value" args with
  | Some (JStr f), Some (JStr v) =>
      if String.eqb f "address" then inr (address, v)
      else if String.eqb f "contact" then inr (contact, v)
      else invalid
  | _, _ => invalid
  end.

Definition tool_propose_cancel : string := "propose_cancel".
Definition tool_propose_return : string := "propose_return".
Definition tool_propose_profile : string := "propose_profile_change".
Definition tool_refund_order : string := "provide_refund_order".
Definition tool_refund_amount : string := "provide_refund_amount".
Definition tool_refund_destination : string := "provide_refund_destination".
Definition tool_support_clarification : string := "request_support_clarification".
Definition tool_leave_support : string := "leave_support".

(** [proposal_tool_for]: the tool of the slot a request is missing. *)
Definition proposal_tool_for (r : IntentRequest) : string :=
  match r with
  | CancelOrders _ => tool_propose_cancel
  | ReturnOrder _ => tool_propose_return
  | ChangeProfile _ _ => tool_propose_profile
  | RefundOrder None _ _ => tool_refund_order
  | RefundOrder _ None _ => tool_refund_amount
  | _ => tool_refund_destination
  end.
Definition missing_detail (r : IntentRequest) : SupportDetail :=
  match r with
  | CancelOrders None | ReturnOrder None => sd_order
  | RefundOrder target amount _ => if isSome target then if isSome amount then sd_refund_destination else sd_amount else sd_order
  | _ => sd_profile_value
  end.
Definition is_support_action (r : IntentRequest) : bool :=
  match r with CancelOrders _ | RefundOrder _ _ _ | ReturnOrder _ | ChangeProfile _ _ => true | _ => false end.

(** ** The orders in view *)
Record OrderViews := mkViews {
  authorized : list OrderCandidate; by_id : list (string * OrderCandidate); by_key : list (string * OrderCandidate) }.
Definition no_views : OrderViews := mkViews [] [] [].
Definition view_resolve (v : OrderViews) (ref : string) : option OrderCandidate :=
  match dget ref (by_key v) with Some c => Some c | None => dget (canon ref) (by_id v) end.
Definition canonical_ref (v : OrderViews) (ref : string) : string :=
  match view_resolve v ref with Some chosen => oc_order_id chosen | None => canon ref end.
(** The references of the turn, when they are the proposed ones. *)
Definition same_set (a b : list string) : bool :=
  forallb (λ x, bool_decide (x ∈ b)) a && forallb (λ x, bool_decide (x ∈ a)) b.
Definition stated_reference_set (v : OrderViews) (utterance : string) (proposed_refs : list string)
    : option (list string) :=
  let stated := caller_stated_order_ids utterance in
  let proposed := fromkeys (canonical_ref v <$> proposed_refs) in
  if bool_decide (stated = []) || negb (same_set stated proposed) then None else Some stated.
Definition stated_scalar_reference (v : OrderViews) (utterance proposed_ref : string) : option string :=
  match stated_reference_set v utterance [proposed_ref] with Some [ref] => Some ref | _ => None end.

(** What a proposal of the model adds to the request: [None] when it is refused. *)
Definition merged_request (v : OrderViews) (utterance : string) (current : IntentRequest)
    (args : list (string * json)) : res (option IntentRequest) :=
  let built r := r ← validate_request r; inr (Some r) in
  match current with
  | CancelOrders target =>
      proposal ← validate_propose_cancel args;
      match target, proposal with
      | None, inl keys =>
          match stated_reference_set v utterance keys with
          | Some stated => built (CancelOrders (Some (CancelExplicit stated)))
          | None => inr None
          end
      | _, _ => inr None
      end
  | ReturnOrder target =>
      key ← one_text "order_key" args;
      match stated_scalar_reference v utterance key with
      | None => inr None
      | Some stated =>
          match target with
          | None => built (ReturnOrder (Some (ExplicitOrderTarget stated)))
          | Some (ExplicitOrderTarget ref) =>
              if String.eqb (canonical_ref v ref) (canonical_ref v stated) then built (ReturnOrder target) else inr None
          | Some FocusedOrderTarget => inr None
          end
      end
  | RefundOrder None amount destination =>
      key ← one_text "order_key" args;
      match stated_scalar_reference v utterance key with
      | Some stated => built (RefundOrder (Some (ExplicitOrderTarget stated)) amount destination)
      | None => inr None
      end
  | RefundOrder target None destination =>
      cents ← validate_refund_amount args;
      match caller_stated_refund_amount utterance cents with
      | Some cents => built (RefundOrder target (Some cents) destination)
      | None => inr None
      end
  | RefundOrder target amount _ =>
      proposed ← validate_refund_destination args;
      match caller_stated_refund_destination utterance proposed with
      | Some destination => built (RefundOrder target amount (Some destination))
      | None => inr None
      end
  | ChangeProfile field new_value =>
      '(proposed_field, proposed_value) ← validate_propose_profile args;
      if negb (bool_decide (proposed_field = field))
         || negb (caller_stated_profile_value utterance proposed_field proposed_value) then inr None
      else
        built (ChangeProfile field
                 (Some (match new_value with
                        | Some value => if nonempty value then value else strip proposed_value
                        | None => strip proposed_value
                        end)))
  | _ => inr None
  end.
Definition merge_proposal v utterance current args : res (option IntentRequest) :=
  match merged_request v utterance current args with
  | inl e => if bool_decide (exc_cls e = TypeError ∨ exc_cls e = ValueError ∨ exc_cls e = ValidationError) then inr None else inl e
  | inr r => inr r
  end.

(** ** The entry *)
Inductive Verdict := authorized_target | needs_identity | denied (detail : SupportDetail).

Section entry.
Context {P PS R E : Type} `{OtpPort P}.
Context (policy : PolicyContext).
Notation W := (World P PS R).
Notation node := (N W (list Write)).
Implicit Types (w : W) (env : node_env E) (st : ReasoningState) (inv : ActiveInvocation).

(** The comprehension over the candidates; a read that raises ends it. *)
Fixpoint readable w (candidates : list OrderCandidate) : res (list OrderCandidate) :=
  match candidates with
  | [] => inr []
  | c :: cs =>
      allowed ← order_read_allowed (oc_order_id c) (w_orders w) (w_guest w) (w_identity w);
      rest ← readable w cs;
      inr (if (allowed : bool) then c :: rest else rest)
  end.
Definition order_views w : res OrderViews :=
  full ← actionable_orders (w_orders w) (w_guest w);
  authorized ← readable w full;
  inr (mkViews authorized (dict_of ((λ c, (oc_order_id c, c)) <$> full))
         (dict_of ((λ c, (oc_key c, c)) <$> authorized))).

Definition support_leave (new_messages : list Message) (call_id : string) : list Write :=
  [W_messages (new_messages ++ [ToolMessage "left support" call_id]); W_execution_owner None;
   W_pending_refund None; W_pending_cancel None; W_pending_return None; W_pending_profile_change None;
   W_active_invocation None; W_pending_clarification None].

Definition profile_unavailable (field : ProfileField) : list Write :=
  [W_active_invocation None; W_execution_owner None; W_pending_profile_change None;
   hand_to (match field with address => hr_address_change | contact => hr_contact_change end) DETERMINISTIC_POLICY].

Definition enter_identity_for_action (new_messages : list Message) (r : IntentRequest) inv : node :=
  val (project_principal_transition (Some r)) ;;
  next ← val (with_request r inv);
  mret [W_messages new_messages; W_execution_owner (Some owner_identity); W_active_invocation (Some next);
        W_pending_clarification None; W_identity_claim_misses 0].

(** [_authorize_target]: the denials of a bound caller are counted per resolved order, and
    together for the references that resolve to none. *)
Definition authorize_target (order_ref : string) (order_known : bool) : N W Verdict :=
  w ← here;
  allowed ← val (if order_known then order_mutation_allowed order_ref (w_orders w) (w_guest w) (w_identity w)
                 else inr false);
  if (allowed : bool) then mret authorized_target
  else if negb (isSome (current (w_identity w))) then mret needs_identity
  else
    let counter_key := if order_known then canon order_ref else UNRESOLVED_ORDER in
    let attempt := default 0 (dget counter_key (w_auth_denials w)) + 1 in
    act (modify (set_denials (dset counter_key attempt (w_auth_denials w)))) ;;
    mret (denied (if auth_denials_before_human_offer policy <=? attempt
                  then sd_order_match_human_help else sd_order_match)).

Definition resolve_and_authorize (v : OrderViews) (ref : string) : N W (option OrderCandidate * Verdict) :=
  let chosen := view_resolve v ref in
  verdict ← authorize_target (match chosen with Some c => oc_order_id c | None => ref end) (isSome chosen);
  mret (chosen, verdict).

Definition support_clarification_result st (new_messages : list Message) (detail : SupportDetail) : node :=
  owner ← val (invocation_clarification_owner st);
  let step := advance_clarification st owner (support_clarification_reask_max policy) in
  if st_exhausted step then
    mret [W_messages new_messages; W_execution_owner None; W_pending_refund None; W_pending_cancel None;
          W_pending_return None; W_pending_profile_change None; W_active_invocation None;
          W_pending_clarification None; hand_to hr_other DETERMINISTIC_POLICY]
  else
    mret [W_messages new_messages; W_execution_owner (Some owner_support);
          W_pending_clarification (Some (SupportClarification detail));
          W_clarification_liveness (st_liveness step)].
(** [clarify]: a question keeps the invocation as it stands. *)
Definition support_clarify st (detail : SupportDetail) (new_messages : list Message) inv : node :=
  result ← support_clarification_result st new_messages detail;
  mret (match written_handover result with
        | Some (Some _) => result
        | _ => result ++ [W_active_invocation (Some inv)]
        end).

(** [normalize_focused]: the question when nothing is in focus, or the request with the reference
    in its place and whether it was a focused one. *)
Definition focused_request (r : IntentRequest) (focused : option string) : option (IntentRequest * bool) :=
  match r with
  | CancelOrders (Some CancelFocused) =>
      Some (match focused with
            | Some ref => (CancelOrders (Some (CancelExplicit [ref])), true) | None => (CancelOrders None, false)
            end)
  | RefundOrder (Some FocusedOrderTarget) amount destination =>
      Some (match focused with
            | Some ref => (RefundOrder (Some (ExplicitOrderTarget ref)) amount destination, true)
            | None => (RefundOrder None amount destination, false)
            end)
  | ReturnOrder (Some FocusedOrderTarget) =>
      Some (match focused with
            | Some ref => (ReturnOrder (Some (ExplicitOrderTarget ref)), true) | None => (ReturnOrder None, false)
            end)
  | _ => None
  end.
Definition normalize_focused st w inv : N W (list Write + IntentRequest * bool * ActiveInvocation) :=
  match focused_request (request inv) (Recent.focused_order_ref (Recent.snapshot_ (w_recent w))) with
  | None => mret (inr (request inv, false, inv))
  | Some (r, was_focused) =>
      r ← val (validate_request r);
      inv ← val (with_request r inv);
      if (was_focused : bool) then mret (inr (r, true, inv))
      else u ← support_clarify st sd_order [] inv; mret (inl u)
  end.

(** An unbound caller goes through identity with the references it stated in this turn. *)
Definition to_identity st (v : OrderViews) (was_focused : bool) (refs : list string)
    (rebuilt : list string → IntentRequest) (new_messages : list Message) inv : node :=
  if was_focused then support_clarify st sd_order new_messages inv
  else
    match stated_reference_set v (last_user_text st) refs with
    | None => support_clarify st sd_order new_messages inv
    | Some stated =>
        r ← val (validate_request (rebuilt stated));
        enter_identity_for_action new_messages r inv
    end.
Definition to_identity_for_one st (v : OrderViews) (was_focused : bool) (ref : string)
    (rebuilt : string → IntentRequest) (new_messages : list Message) inv : node :=
  if was_focused then support_clarify st sd_order new_messages inv
  else
    match stated_scalar_reference v (last_user_text st) ref with
    | None => support_clarify st sd_order new_messages inv
    | Some stated =>
        r ← val (validate_request (rebuilt stated));
        enter_identity_for_action new_messages r inv
    end.

(** [prepare_incomplete], with the messages its result carries: an explicit refund target is
    authorized before its other slots are asked for. *)
Definition prepare_incomplete st (v : OrderViews) (was_focused : bool) (r : IntentRequest)
    (new_messages : list Message) inv : N W (option (list Write)) :=
  match r with
  | RefundOrder (Some (ExplicitOrderTarget ref)) amount destination =>
      '(_, verdict) ← resolve_and_authorize v ref;
      match verdict with
      | needs_identity =>
          u ← to_identity_for_one st v was_focused ref
                (λ stated, RefundOrder (Some (ExplicitOrderTarget stated)) amount destination) new_messages inv;
          mret (Some u)
      | denied detail => u ← support_clarify st detail new_messages inv; mret (Some u)
      | authorized_target => mret None
      end
  | _ => mret None
  end.

(** The two attempts to fill the slot: what the node returns, or the completed request. *)
Fixpoint fill_go st (v : OrderViews) (was_focused : bool) (replies : nat → res ModelReply)
    (attempts : list nat) (r : IntentRequest) inv (new_messages : list Message)
    : N W (list Write + IntentRequest * ActiveInvocation) :=
  let clarify ms := u ← support_clarify st (missing_detail r) ms inv; mret (inl u) in
  match attempts with
  | [] => clarify new_messages
  | attempt :: attempts =>
      response ← val (replies attempt);
      match response.2 with
      | [] => clarify new_messages
      | call :: _ =>
          let new_messages := new_messages ++ [AIMessage response.1 response.2]
                                ++ ack_extra_tool_calls response.2 in
          let answer text := new_messages ++ [ToolMessage text (tc_id call)] in
          if String.eqb (tc_name call) tool_leave_support then mret (inl (support_leave new_messages (tc_id call)))
          else if String.eqb (tc_name call) tool_support_clarification then
            clarify (answer "support clarification requested")
          else if String.eqb (tc_name call) (proposal_tool_for r) then
            merged ← val (merge_proposal v (last_user_text st) r (tc_args call));
            match merged with
            | Some merged =>
                let new_messages := answer "support request completed" in
                inv ← val (with_request merged inv);
                if is_slot_complete merged then mret (inr (merged, inv))
                else
                  prepared ← prepare_incomplete st v was_focused merged new_messages inv;
                  match prepared with
                  | Some u => mret (inl u)
                  | None => u ← support_clarify st (missing_detail merged) new_messages inv; mret (inl u)
                  end
            | None =>
                fill_go st v was_focused replies attempts r inv
                  (answer "The proposal changed a fixed field or was invalid. Fill only the missing field.")
            end
          else
            fill_go st v was_focused replies attempts r inv
              (new_messages ++ [unknown_tool_result (tc_id call) tool_leave_support])
      end
  end.

(** The targets of a cancellation, authorized in order: each order once. *)
Fixpoint authorize_all st (v : OrderViews) (was_focused : bool) (all refs : list string)
    (resolved : list OrderCandidate) inv : N W (list Write + list OrderCandidate) :=
  match refs with
  | [] => mret (inr resolved)
  | ref :: refs =>
      '(chosen, verdict) ← resolve_and_authorize v ref;
      match verdict with
      | needs_identity =>
          u ← to_identity st v was_focused all (λ stated, CancelOrders (Some (CancelExplicit stated))) [] inv;
          mret (inl u)
      | denied detail => u ← support_clarify st detail [] inv; mret (inl u)
      | authorized_target =>
          chosen ← the chosen;
          authorize_all st v was_focused all refs
            (if bool_decide (oc_order_id chosen ∈ oc_order_id <$> resolved) then resolved else resolved ++ [chosen]) inv
      end
  end.

(** One explicit target of a refund or a return. *)
Definition authorize_one st (v : OrderViews) (was_focused : bool) (ref : string)
    (rebuilt : string → IntentRequest) inv (granted : OrderCandidate → node) : node :=
  '(chosen, verdict) ← resolve_and_authorize v ref;
  match verdict with
  | needs_identity => to_identity_for_one st v was_focused ref rebuilt [] inv
  | denied detail => support_clarify st detail [] inv
  | authorized_target => chosen ← the chosen; granted chosen
  end.

Definition minted (w : Write) : list Write := [W_active_invocation None; W_execution_owner (Some owner_support); w].

(** A complete request: the pending action of the path that owns it. *)
Definition prepare_complete env st (v : OrderViews) (was_focused : bool) (r : IntentRequest) inv : node :=
  match r with
  | CancelOrders (Some (CancelScoped scope)) =>
      w ← here;
      if isSome (current (w_identity w)) then mret (minted (W_pending_cancel (Some (pending_scope scope))))
      else enter_identity_for_action [] r inv
  | CancelOrders (Some (CancelExplicit refs)) =>
      outcome ← authorize_all st v was_focused refs refs [] inv;
      match outcome with
      | inl u => mret u
      | inr resolved =>
          batch ← val (mint_cancel_batch env ((λ c, (oc_order_id c, oc_summary c)) <$> resolved));
          mret (minted (W_pending_cancel (Some (pending_batch batch))))
      end
  | RefundOrder (Some (ExplicitOrderTarget ref)) amount destination =>
      authorize_one st v was_focused ref
        (λ stated, RefundOrder (Some (ExplicitOrderTarget stated)) amount destination) inv (λ chosen,
        w ← here;
        cents ← the amount;
        target ← the destination;
        pending ← val (mint_refund env w chosen cents target);
        match pending with
        | None => mret [W_active_invocation None; W_execution_owner None; hand_to hr_refund DETERMINISTIC_POLICY]
        | Some p => mret (minted (W_pending_refund (Some p)))
        end)
  | ReturnOrder (Some (ExplicitOrderTarget ref)) =>
      authorize_one st v was_focused ref (λ stated, ReturnOrder (Some (ExplicitOrderTarget stated))) inv (λ chosen,
        w ← here;
        pending ← val (mint_return env w chosen);
        mret (minted (W_pending_return (Some pending))))
  | ChangeProfile field (Some new_value) =>
      w ← here;
      pending ← val (mint_profile_change env w field new_value);
      match pending with
      | Some p => mret (minted (W_pending_profile_change (Some p)))
      | None =>
          if isSome (current (w_identity w)) then mret (profile_unavailable field)
          else enter_identity_for_action [] r inv
      end
  | _ => fail TypeError "unsupported Support capability request"
  end.

(** The request with its reference resolved and its slot filled, prepared. *)
Definition prepare_request env (replies : nat → res ModelReply) st (v : OrderViews) w inv : node :=
  normalized ← normalize_focused st w inv;
  match normalized with
  | inl u => mret u
  | inr (r, was_focused, inv) =>
      if is_support_action r && negb (is_slot_complete r) then
        prepared ← prepare_incomplete st v was_focused r [] inv;
        match prepared with
        | Some u => mret u
        | None =>
            filled ← fill_go st v was_focused replies [0%nat; 1%nat] r inv [];
            match filled with
            | inl u => mret u
            | inr (r, inv) => prepare_complete env st v was_focused r inv
            end
        end
      else prepare_complete env st v was_focused r inv
  end.

Definition support_capability_entry_node env (replies : nat → res ModelReply) st : node :=
  match active_invocation st with
  | None => fail TypeError "support capability entry requires an active invocation"
  | Some inv =>
      w ← here;
      let bound := current (w_identity w) in
      let go v := prepare_request env replies st v w inv in
      match request inv with
      | ListOrders scope_account =>
          if isSome bound then mret [] else enter_identity_for_action [] (request inv) inv
      | ListOrders scope_session => mret []
      | ChangeProfile field _ =>
          match bound with
          | Some b => if has_profile (w_profiles w) (customer_ref b) then go no_views else mret (profile_unavailable field)
          | None => go no_views
          end
      | _ => v ← val (order_views w); go v
      end
  end.

Definition support_clarify_node st : node :=
  match pending_clarification st with
  | Some (SupportClarification detail) =>
      mret [W_pending_clarification None; W_execution_owner (Some owner_support);
            say (SUPPORT_CLARIFICATION_LINES detail)]
  | _ => fail TypeError "support clarify node requires SupportClarification"
  end.

(** The entry as the graph runs it. *)
Definition support_capability_entry env replies st : node :=
  ws ← support_capability_entry_node env replies st;
  mret (with_clarification_lifecycle ws).

(** ** The router of the entry *)
Inductive SupportRoute :=
  | sr_handover | sr_leave | sr_needs_identity | sr_resolve | sr_cancel | sr_return | sr_profile
  | sr_refund | sr_clarify | sr_done.

Definition support_route_after_capability_entry st : res SupportRoute :=
  if isSome (handover st) then inr sr_handover
  else if current_turn_called (messages st) tool_leave_support then inr sr_leave
  else if bool_decide (execution_owner st = Some owner_identity) then inr sr_needs_identity
  else
    match pending_cancel st with
    | Some (pending_scope _) => inr sr_resolve
    | Some (pending_batch _) => inr sr_cancel
    | None =>
        if isSome (pending_return st) then inr sr_return
        else if isSome (pending_profile_change st) then inr sr_profile
        else if isSome (pending_refund st) then inr sr_refund
        else
          match pending_clarification st with
          | Some (SupportClarification _) => inr sr_clarify
          | Some _ => raises TypeError "support assemble produced a non-support clarification"
          | None => inr sr_done
          end
    end.
End entry.
#[export] Instance SupportRoute_eq_dec : EqDecision SupportRoute.
Proof. solve_decision. Defined.

(** [_route_support_outcome] and [route_after_support_capability_entry] (frontline/graph.py). *)
Definition support_target (discardable : bool) (r : SupportRoute) : string :=
  match r with
  | sr_refund => "support_guardrail" | sr_cancel => "support_cancel_guardrail"
  | sr_return => "support_return_guardrail" | sr_profile => "support_profile_guardrail"
  | sr_resolve => "support_resolve" | sr_handover => "handover" | sr_leave => "owner_declined"
  | sr_clarify => "support_clarify" | sr_done => "__end__"
  | sr_needs_identity => if discardable then "principal_warning" else "identity_assemble"
  end.
Definition route_after_support_capability_entry (discardable : bool) st : res string :=
  let lists := match active_invocation st with
    | Some i => match request i with ListOrders _ => true | _ => false end | None => false end in
  if negb (bool_decide (execution_owner st = Some owner_identity)) && lists then inr "support_capability_render"
  else r ← support_route_after_capability_entry st; inr (support_target discardable r).

(** ** A list of orders *)
Section render.
Context {P PS R E : Type} `{OtpPort P} `{SessionPersistence PS E}.
Context (fingerprint : SessionRequest → string).
Notation W := (World P PS R).
Notation node := (N W (list Write)).

Definition support_capability_render_node (env : node_env E) (warm_close : string) st : node :=
  match active_invocation st with
  | Some inv =>
      match request inv with
      | ListOrders scope =>
          w ← here;
          '(orders, close) ←
            (match scope with
             | scope_session =>
                 orders ← val (guest_orders (w_orders w) (w_guest w)); mret (orders, GUEST_LIST_CLOSE)
             | scope_account =>
                 match current (w_identity w) with
                 | None => fail TypeError "account order rendering requires a bound identity"
                 | Some bound =>
                     orders ← val (owned_orders (w_orders w) (customer_ref bound) (w_guest w));
                     mret (orders, warm_close)
                 end
             end);
          operation_id ← val (recent_orders_operation_id op_list (invocation_id inv));
          committed ← on_session
            (match orders with
             | [] => clear_recent_orders fingerprint (ne_publish env) operation_id
             | _ => record_recent_orders fingerprint (ne_publish env) operation_id (oc_order_id <$> orders)
                      op_list None []
             end);
          let closes := negb (answers_before_readback st) in
          let line := render_order_list_line orders scope in
          let update :=
            [W_active_invocation None; W_execution_owner None; W_session_revision committed.2;
             say (if closes then line +:+ " " +:+ close else line)] in
          match scope with
          | scope_account =>
              if (closes : bool) then
                match last (consumed_turn_ids st) with
                | Some turn => mret (update ++ [W_assistant_prompt (Some (mkPrompt turn))])
                | None => fail IndexError "tuple index out of range"
                end
              else mret update
          | scope_session => mret update
          end
      | _ => fail TypeError "support capability render requires a list-orders invocation"
      end
  | None => fail TypeError "support capability render requires a list-orders invocation"
  end.
End render.

(** ** Properties *)
(** Runs that change no more of the world than the denial counts, and what they end with. *)
Section ends.
Context {P PS R : Type}.
Notation W := (World P PS R).
Implicit Types (w : W).

Definition ends {A} w (n : N W A) (Q : A → Prop) : Prop := ∀ d ans s' a,
  n (ans, set_denials d w) = (s', Done a) → (∃ d', s' = (ans, set_denials d' w)) ∧ Q a.

Lemma ends_run {A} w (n : N W A) (Q : A → Prop) ans s' a :
  ends w n Q → n (ans, w) = (s', Done a) → (∃ d', s' = (ans, set_denials d' w)) ∧ Q a.
Proof. intros Hn Hr. apply (Hn (w_auth_denials w)). by destruct w. Qed.
Lemma ends_ret {A} w (a : A) (Q : A → Prop) : Q a → ends w (mret a) Q.
Proof. intros HQ d ans s' a' [-> ->]%ret_done. eauto. Qed.
Lemma ends_bind {A B} w (n : N W A) (k : A → N W B) (Q1 : A → Prop) (Q : B → Prop) :
  ends w n Q1 → (∀ a, Q1 a → ends w (k a) Q) → ends w (n ≫= k) Q.
Proof.
  intros Hn Hk d ans s' b (a & s1 & H1 & H2)%bind_done. destruct (Hn _ _ _ _ H1) as [[d1 ->] Ha].
  by apply (Hk a Ha d1).
Qed.
Lemma ends_val {A} w (r : res A) (Q : A → Prop) : (∀ a, r = inr a → Q a) → ends w (val r) Q.
Proof. intros HQ d ans s' a [Hr ->]%val_done. eauto. Qed.
Lemma ends_the {A B} w (o : option A) (k : A → N W B) (Q : B → Prop) :
  (∀ a, o = Some a → ends w (k a) Q) → ends w (the o ≫= k) Q.
Proof. intros HQ d ans s' b (a & Ha & Hk)%bind_the. by eapply HQ. Qed.
Lemma ends_fail {A} w c m (Q : A → Prop) : ends w (fail c m) Q.
Proof. by intros d ans s' a Hr. Qed.
Lemma ends_here {B} w (k : W → N W B) (Q : B → Prop) :
  (∀ d, ends w (k (set_denials d w)) Q) → ends w (here ≫= k) Q.
Proof. intros HQ d ans s' b Hr%bind_here. by apply (HQ d d ans). Qed.
Lemma ends_denials {B} w (d : list (string * Z)) (k : unit → N W B) (Q : B → Prop) :
  ends w (k tt) Q → ends w (act (modify (set_denials d)) ≫= k) Q.
Proof. intros HQ d0 ans s' b Hr. by apply (HQ d). Qed.
Lemma ends_mono {A} w (n : N W A) (Q1 Q : A → Prop) : (∀ a, Q1 a → Q a) → ends w n Q1 → ends w n Q.
Proof. intros HQ Hn d ans s' a Hr. destruct (Hn _ _ _ _ Hr). eauto. Qed.
End ends.

Section entry_laws.
Context {P PS R E : Type} `{OtpPort P} (policy : PolicyContext).
Notation W := (World P PS R).
Implicit Types (w : W) (env : node_env E) (st : ReasoningState) (inv : ActiveInvocation) (v : OrderViews).

(** The caller may change the order: it was placed on this call, or the bound customer owns it. *)
Definition may_change w (order_id : string) : Prop :=
  order_mutation_allowed order_id (w_orders w) (w_guest w) (w_identity w) = inr true.
Definition is_bound w : Prop := current (w_identity w) ≠ None.

Definition verdict_ok w v (ref : string) (cv : option OrderCandidate * Verdict) : Prop :=
  cv.1 = view_resolve v ref ∧
  match cv.2 with
  | authorized_target => ∃ c, cv.1 = Some c ∧ may_change w (oc_order_id c)
  | needs_identity => ¬ is_bound w
  | denied detail => is_bound w ∧ detail ∈ [sd_order_match; sd_order_match_human_help]
  end.

Lemma resolve_and_authorize_ends w v ref :
  ends w (resolve_and_authorize policy v ref) (verdict_ok w v ref).
Proof.
  unfold resolve_and_authorize, authorize_target. intros d ans s' cv (verdict & s1 & Hv & Hr)%bind_done.
  apply ret_done in Hr as [-> ->]. apply bind_here in Hv. apply bind_val in Hv as (allowed & Ha & Hv).
  unfold verdict_ok. cbn [fst snd].
  destruct allowed.
  - apply ret_done in Hv as [-> ->]. split; [eauto|]. split; [done|].
    destruct (view_resolve v ref) as [c|]; [|done]. by exists c.
  - destruct (negb _) eqn:Hb in Hv.
    + apply ret_done in Hv as [-> ->]. split; [eauto|]. split; [done|].
      unfold is_bound. destruct (current (w_identity w)) eqn:Hc; [by unfold set_denials in Hb; cbn in Hb; rewrite Hc in Hb|by intros []].
    + apply bind_done in Hv as ([] & s2 & Hm & Hv). apply ret_done in Hv as [-> ->].
      apply act_done in Hm as (w' & Hm & ->). unfold modify in Hm. injection Hm as <-.
      split; [by eexists|]. split; [done|]. split.
      { unfold is_bound. intros Hc. cbn in Hb. by rewrite Hc in Hb. }
      destruct (_ <=? _); set_solver.
Qed.

(** What a slot may be filled with: what the caller stated in the turn, blanks around it dropped. *)
Definition stated_fill (utterance : string) (r r' : IntentRequest) : Prop :=
  ∃ x, validate_request x = inr r' ∧
  match r with
  | CancelOrders None => x = CancelOrders (Some (CancelExplicit (caller_stated_order_ids utterance)))
  | ReturnOrder None =>
      ∃ ref, caller_stated_order_ids utterance = [ref] ∧ x = ReturnOrder (Some (ExplicitOrderTarget ref))
  | RefundOrder None amount destination =>
      ∃ ref, caller_stated_order_ids utterance = [ref] ∧
        x = RefundOrder (Some (ExplicitOrderTarget ref)) amount destination
  | RefundOrder (Some target) None destination =>
      ∃ cents, caller_stated_refund_amount utterance cents = Some cents ∧
        x = RefundOrder (Some target) (Some cents) destination
  | RefundOrder (Some target) (Some cents) None =>
      ∃ destination, caller_stated_refund_destination utterance destination = Some destination ∧
        x = RefundOrder (Some target) (Some cents) (Some destination)
  | ChangeProfile field None =>
      ∃ value, caller_stated_profile_value utterance field value = true ∧
        x = ChangeProfile field (Some (strip value))
  | _ => False
  end.








Lemma stated_set_spec v u refs l : stated_reference_set v u refs = Some l →
  l = caller_stated_order_ids u ∧ l ≠ [].
Proof.
  unfold stated_reference_set. destruct (_ || _) eqn:Hb; [done|]. intros [= <-]. split; [done|].
  intros Hn. by rewrite Hn in Hb.
Qed.
Lemma stated_scalar_spec v u ref r : stated_scalar_reference v u ref = Some r → caller_stated_order_ids u = [r].
Proof.
  unfold stated_scalar_reference. destruct (stated_reference_set v u [ref]) as [l|] eqn:Hl; [|done].
  apply stated_set_spec in Hl as [-> _]. destruct (caller_stated_order_ids u) as [|? []]; naive_solver.
Qed.

Lemma amount_self u c c' : caller_stated_refund_amount u c = Some c' → caller_stated_refund_amount u c' = Some c'.
Proof. unfold caller_stated_refund_amount at 1. destruct (wsearch _ _) eqn:Hs; [|done]. intros [= <-].
  unfold caller_stated_refund_amount. by rewrite Hs. Qed.
Lemma destination_self u d d' :
  caller_stated_refund_destination u d = Some d' → caller_stated_refund_destination u d' = Some d'.
Proof.
  destruct d; unfold caller_stated_refund_destination; [by intros [= <-]|..];
    (destruct (wsearch _ _) eqn:Hs; [|done]); intros [= <-]; cbv beta iota zeta; by rewrite ?Hs.
Qed.

Lemma merge_spec v u r args r' :
  merge_proposal v u r args = inr (Some r') → is_slot_complete r = false → stated_fill u r r'.
Proof.
  unfold merge_proposal. intros Hm Hc. destruct (merged_request v u r args) as [e|o] eqn:Hr; [by case_bool_decide|].
  injection Hm as ->. unfold merged_request in Hr. cbv [mbind res_bind] in Hr. unfold stated_fill.
  destruct r as [| | | | | | | | |[]|[] [] []|[]|? []| | | | | |]; try done;
    repeat (case_match; try done); simplify_eq;
    repeat match goal with
    | H : stated_reference_set _ _ _ = Some _ |- _ => apply stated_set_spec in H as [-> ?]
    | H : stated_scalar_reference _ _ _ = Some _ |- _ => apply stated_scalar_spec in H
    | H : caller_stated_refund_amount _ _ = Some _ |- _ => apply amount_self in H
    | H : caller_stated_refund_destination _ _ = Some _ |- _ => apply destination_self in H
    | H : _ || _ = false |- _ => bools
    end; subst; eexists; (split; [eassumption|]); eauto.
Qed.


Lemma with_request_spec r i j : with_request r i = inr j →
  validate_request r = inr (request j) ∧ capability j = capability i.
Proof.
  unfold with_request, make_ActiveInvocation. cbv [mbind res_bind].
  destruct (non_empty_text _) as [|id]; [done|]. destruct (validate_request r) as [|t]; [done|].
  destruct (non_empty_text (opened_turn_id i)) as [|turn]; [done|].
  destruct (requires _ _ _) as [|[]] eqn:Hq; [done|]. intros [= <-]. apply requires_inv in Hq. by bools.
Qed.

(** The request an unbound caller takes through identity: of its own, and with no reference but
    those it stated in the turn. *)
Definition carried (utterance : string) (r : IntentRequest) : Prop :=
  is_principal_transition_continuation r = true ∧ ∃ x, validate_request x = inr r ∧
  match x with
  | CancelOrders (Some (CancelExplicit refs)) => refs = caller_stated_order_ids utterance
  | RefundOrder (Some (ExplicitOrderTarget ref)) _ _ | ReturnOrder (Some (ExplicitOrderTarget ref)) =>
      caller_stated_order_ids utterance = [ref]
  | _ => True
  end.

(** The updates that prepare no action. *)
Inductive quiet w st (capability_ : CapabilityId) : list Write → Prop :=
  | quiet_ask detail ms l inv' : capability inv' = capability_ →
      quiet w st capability_
        [W_messages ms; W_execution_owner (Some owner_support);
         W_pending_clarification (Some (SupportClarification detail)); W_clarification_liveness l;
         W_active_invocation (Some inv')]
  | quiet_exhausted ms : quiet w st capability_
      [W_messages ms; W_execution_owner None; W_pending_refund None; W_pending_cancel None;
       W_pending_return None; W_pending_profile_change None; W_active_invocation None;
       W_pending_clarification None; hand_to hr_other DETERMINISTIC_POLICY]
  | quiet_leave ms id : current_turn_called (ms ++ [ToolMessage "left support" id]) tool_leave_support = true →
      quiet w st capability_ (support_leave ms id)
  | quiet_identity ms inv' : ¬ is_bound w → capability inv' = capability_ →
      carried (last_user_text st) (request inv') →
      quiet w st capability_
        [W_messages ms; W_execution_owner (Some owner_identity); W_active_invocation (Some inv');
         W_pending_clarification None; W_identity_claim_misses 0].

Lemma clarify_ends w st detail ms inv :
  ends w (support_clarify (P:=P) (PS:=PS) (R:=R) policy st detail ms inv) (quiet w st (capability inv)).
Proof.
  unfold support_clarify, support_clarification_result. intros d ans s' ws (u & s1 & Hu & Hr)%bind_done.
  apply ret_done in Hr as [-> ->]. apply bind_val in Hu as (owner & _ & Hu).
  destruct (st_exhausted _); apply ret_done in Hu as [-> ->]; (split; [by eexists|]); cbn; constructor; done.
Qed.

(** The update that leads through identity. *)
Definition leads_to_identity (ws : list Write) : Prop := ∃ ms inv', ws =
  [W_messages ms; W_execution_owner (Some owner_identity); W_active_invocation (Some inv');
   W_pending_clarification None; W_identity_claim_misses 0].
Lemma identity_led w st ms r inv : ¬ is_bound w → carried (last_user_text st) r →
  ends w (enter_identity_for_action (P:=P) (PS:=PS) (R:=R) ms r inv)
    (λ ws, quiet w st (capability inv) ws ∧ leads_to_identity ws).
Proof.
  unfold enter_identity_for_action. intros Hb (Hp & x & Hx & Hc) d ans s' ws Hr.
  apply bind_val in Hr as (? & _ & Hr). apply bind_val in Hr as (next & Hn & Hr).
  apply ret_done in Hr as [-> ->]. split; [by eexists|].
  destruct (with_request_spec _ _ _ Hn) as [Hv Hcap]. rewrite (stable_request _ _ Hx) in Hv.
  injection Hv as Hv. split; [|by eexists _, _]. constructor; [done..|]. rewrite <-Hv. split; [done|]. by exists x.
Qed.
Lemma identity_ends w st ms r inv : ¬ is_bound w → carried (last_user_text st) r →
  ends w (enter_identity_for_action (P:=P) (PS:=PS) (R:=R) ms r inv) (quiet w st (capability inv)).
Proof. intros Hb Hc. eapply ends_mono; [|by apply (identity_led w st)]. by intros ws [? _]. Qed.

Lemma continuation_validated x r : validate_request x = inr r →
  is_principal_transition_continuation r = is_principal_transition_continuation x.
Proof.
  destruct x as [| | | | | | | | |[[]|]|[[]|] ? ?|[[]|]|? ?| | | | | |]; cbn; cbv [mbind res_bind];
    repeat case_match; intros; simplify_eq; try done.
Qed.

Lemma to_identity_ends w st v focused refs ms inv : ¬ is_bound w →
  ends w (to_identity (P:=P) (PS:=PS) (R:=R) policy st v focused refs
            (λ stated, CancelOrders (Some (CancelExplicit stated))) ms inv) (quiet w st (capability inv)).
Proof.
  intros Hb. unfold to_identity. destruct focused; [apply clarify_ends|].
  destruct (stated_reference_set _ _ _) as [stated|] eqn:Hs; [|apply clarify_ends].
  apply stated_set_spec in Hs as [-> _]. eapply ends_bind; [apply ends_val; intros r Hr; exact Hr|].
  intros r Hr. apply identity_ends; [done|]. split; [by rewrite (continuation_validated _ _ Hr)|].
  eexists. split; [exact Hr|done].
Qed.
Lemma to_identity_one_ends w st v focused ref rebuilt ms inv : ¬ is_bound w →
  (∀ r, (∃ a d, rebuilt r = RefundOrder (Some (ExplicitOrderTarget r)) a d) ∨
        rebuilt r = ReturnOrder (Some (ExplicitOrderTarget r))) →
  ends w (to_identity_for_one (P:=P) (PS:=PS) (R:=R) policy st v focused ref rebuilt ms inv) (quiet w st (capability inv)).
Proof.
  intros Hb Hf. unfold to_identity_for_one. destruct focused; [apply clarify_ends|].
  destruct (stated_scalar_reference _ _ _) as [stated|] eqn:Hs; [|apply clarify_ends].
  apply stated_scalar_spec in Hs. eapply ends_bind; [apply ends_val; intros r Hr; exact Hr|].
  intros r Hr. apply identity_ends; [done|]. split.
  - rewrite (continuation_validated _ _ Hr). by destruct (Hf stated) as [(? & ? & ->)| ->].
  - eexists. split; [exact Hr|]. by destruct (Hf stated) as [(? & ? & ->)| ->].
Qed.

(** What a part of the entry ends with: a quiet update, or a value. *)
Definition quiet_or {A} w st cap (Q : A → Prop) (o : list Write + A) : Prop :=
  match o with inl u => quiet w st cap u | inr a => Q a end.
Lemma quiet_bind {A} w st cap (n : N W (list Write)) (Q : A → Prop) :
  ends w n (quiet w st cap) → ends w (u ← n; mret (M:=N W) (inl u : list Write + A)) (quiet_or w st cap Q).
Proof. intros Hn. eapply ends_bind; [exact Hn|]. intros u Hu. by apply ends_ret. Qed.
Lemma quiet_some w st cap (n : N W (list Write)) :
  ends w n (quiet w st cap) →
  ends w (u ← n; mret (M:=N W) (Some u)) (λ o, ∀ u, o = Some u → quiet w st cap u).
Proof. intros Hn. eapply ends_bind; [exact Hn|]. intros u Hu. apply ends_ret. by intros ? [= <-]. Qed.

Lemma prepare_incomplete_ends w st v focused r ms inv :
  ends w (prepare_incomplete (P:=P) (PS:=PS) (R:=R) policy st v focused r ms inv)
    (λ o, ∀ u, o = Some u → quiet w st (capability inv) u).
Proof.
  unfold prepare_incomplete.
  destruct r as [| | | | | | | | | |[[]|]| | | | | | | |]; try (apply ends_ret; done).
  eapply ends_bind; [apply resolve_and_authorize_ends|]. intros [chosen []] [_ Hv]; cbn in Hv.
  - by apply ends_ret.
  - apply quiet_some, to_identity_one_ends; [done|]. left; eauto.
  - apply quiet_some, clarify_ends.
Qed.

(** The request a run of the attempts ends with, and the invocation that carries it. *)
Definition completed (utterance : string) (r : IntentRequest) cap (o : IntentRequest * ActiveInvocation) : Prop :=
  stated_fill utterance r o.1 ∧ is_slot_complete o.1 = true ∧ capability o.2 = cap.

Lemma leave_called ms text call calls id : String.eqb (tc_name call) tool_leave_support = true →
  current_turn_called ((ms ++ [AIMessage text (call :: calls)] ++ ack_extra_tool_calls (call :: calls))
    ++ [ToolMessage "left support" id]) tool_leave_support = true.
Proof.
  intros Hl. unfold current_turn_called, ack_extra_tool_calls. rewrite !reverse_app, <-fmap_reverse. cbn [tail].
  rewrite !reverse_singleton. cbn [app called_go]. generalize (reverse calls) as l.
  induction l as [|x l IH]; [cbn; by rewrite Hl|done].
Qed.
Lemma fill_go_ends w st v focused replies r inv : is_slot_complete r = false → ∀ attempts ms,
  ends w (fill_go (P:=P) (PS:=PS) (R:=R) policy st v focused replies attempts r inv ms)
    (quiet_or w st (capability inv) (completed (last_user_text st) r (capability inv))).
Proof.
  intros Hr. induction attempts as [|n attempts IH]; intros ms; cbn [fill_go].
  { apply quiet_bind, clarify_ends. }
  eapply ends_bind; [apply ends_val; intros a Ha; exact Ha|]. intros response _.
  destruct (response.2) as [|call calls]; [apply quiet_bind, clarify_ends|].
  destruct (String.eqb (tc_name call) tool_leave_support) eqn:Hl; [apply ends_ret, quiet_leave, leave_called, Hl|].
  destruct (String.eqb (tc_name call) tool_support_clarification); [apply quiet_bind, clarify_ends|].
  destruct (String.eqb (tc_name call) (proposal_tool_for r)); [|apply IH].
  eapply ends_bind; [apply ends_val; intros a Ha; exact Ha|]. intros [merged|] Hm; [|apply IH].
  eapply ends_bind; [apply ends_val; intros a Ha; exact Ha|]. intros inv' Hinv.
  destruct (with_request_spec _ _ _ Hinv) as [_ Hcap].
  destruct (is_slot_complete merged) eqn:Hc.
  - apply ends_ret. split_and!; [by eapply merge_spec|done|done].
  - rewrite <-Hcap. eapply ends_bind; [apply prepare_incomplete_ends|]. intros [u|] Hu.
    + apply ends_ret. by apply Hu.
    + apply quiet_bind, clarify_ends.
Qed.

(** The orders of the targets: each resolved, each the caller's to change, none twice. *)
Definition targets_ok w v (refs : list string) (cs : list OrderCandidate) : Prop :=
  Forall (λ c, may_change w (oc_order_id c) ∧ ∃ ref, ref ∈ refs ∧ view_resolve v ref = Some c) cs ∧
  NoDup (oc_order_id <$> cs).

Lemma authorize_all_ends w st v focused all inv : ∀ refs resolved,
  (∀ ref, ref ∈ refs → ref ∈ all) → targets_ok w v all resolved →
  ends w (authorize_all (P:=P) (PS:=PS) (R:=R) policy st v focused all refs resolved inv)
    (quiet_or w st (capability inv) (targets_ok w v all)).
Proof.
  induction refs as [|ref refs IH]; intros resolved Hin [Hok Hnd]; cbn [authorize_all].
  { by apply ends_ret. }
  eapply ends_bind; [apply resolve_and_authorize_ends|]. intros [chosen verdict] [Hc Hv]; cbn in Hc, Hv |- *.
  destruct verdict as [| |detail].
  - destruct Hv as (c & -> & Hm). apply ends_the. intros ? [= <-]. apply IH; [set_solver|].
    case_bool_decide as Hdup; [done|]. split.
    + apply Forall_app. split; [done|]. constructor; [|done]. split; [done|]. exists ref. split; [set_solver|done].
    + rewrite fmap_app. apply NoDup_app. split_and!; [done| |apply NoDup_singleton]. set_solver.
  - apply quiet_bind, to_identity_ends. done.
  - apply quiet_bind, clarify_ends.
Qed.

Lemma authorize_one_ends w st v focused ref rebuilt inv granted (Q : list Write → Prop) :
  (∀ r, (∃ a d, rebuilt r = RefundOrder (Some (ExplicitOrderTarget r)) a d) ∨
        rebuilt r = ReturnOrder (Some (ExplicitOrderTarget r))) →
  (∀ u, quiet w st (capability inv) u → Q u) →
  (∀ c, view_resolve v ref = Some c → may_change w (oc_order_id c) → ends w (granted c) Q) →
  ends w (authorize_one (P:=P) (PS:=PS) (R:=R) policy st v focused ref rebuilt inv granted) Q.
Proof.
  intros Hf Hq Hg. unfold authorize_one.
  eapply ends_bind; [apply resolve_and_authorize_ends|]. intros [chosen verdict] [Hc Hv]; cbn in Hc, Hv |- *.
  destruct verdict as [| |detail].
  - destruct Hv as (c & -> & Hm). apply ends_the. intros ? [= <-]. by apply Hg.
  - eapply ends_mono; [exact Hq|]. by apply to_identity_one_ends.
  - eapply ends_mono; [exact Hq|]. apply clarify_ends.
Qed.

(** What the entry prepares for a complete request [r]. *)
Inductive prepared env w v : IntentRequest → list Write → Prop :=
  | prepared_scope s : is_bound w →
      prepared env w v (CancelOrders (Some (CancelScoped s))) (minted (W_pending_cancel (Some (pending_scope s))))
  | prepared_cancel refs cs batch : targets_ok w v refs cs →
      mint_cancel_batch env ((λ c, (oc_order_id c, oc_summary c)) <$> cs) = inr batch →
      prepared env w v (CancelOrders (Some (CancelExplicit refs))) (minted (W_pending_cancel (Some (pending_batch batch))))
  | prepared_refund ref cents destination c p : view_resolve v ref = Some c → may_change w (oc_order_id c) →
      mint_refund env w c cents destination = inr (Some p) →
      prepared env w v (RefundOrder (Some (ExplicitOrderTarget ref)) (Some cents) (Some destination))
        (minted (W_pending_refund (Some p)))
  | prepared_no_destination ref cents destination c : view_resolve v ref = Some c → may_change w (oc_order_id c) →
      mint_refund env w c cents destination = inr None →
      prepared env w v (RefundOrder (Some (ExplicitOrderTarget ref)) (Some cents) (Some destination))
        [W_active_invocation None; W_execution_owner None; hand_to hr_refund DETERMINISTIC_POLICY]
  | prepared_return ref c p : view_resolve v ref = Some c → may_change w (oc_order_id c) →
      mint_return env w c = inr p →
      prepared env w v (ReturnOrder (Some (ExplicitOrderTarget ref))) (minted (W_pending_return (Some p)))
  | prepared_profile field value p : mint_profile_change env w field value = inr (Some p) →
      prepared env w v (ChangeProfile field (Some value)) (minted (W_pending_profile_change (Some p)))
  | prepared_no_profile field value : is_bound w → mint_profile_change env w field value = inr None →
      prepared env w v (ChangeProfile field (Some value)) (profile_unavailable field).

Lemma prepare_complete_ends env w st v focused r inv : (∃ x, validate_request x = inr r) →
  ends w (prepare_complete (P:=P) (PS:=PS) (R:=R) policy env st v focused r inv)
    (λ ws, quiet w st (capability inv) ws ∨ prepared env w v r ws).
Proof.
  intros [x Hx]. unfold prepare_complete.
  destruct r as [| | | | | | | | |[[refs| |scope]|]|[[ref|]|] amount destination|[[ref|]|]|field [value|]| | | | | |];
    try apply ends_fail.
  - eapply ends_bind; [apply authorize_all_ends; [done|split; [done|constructor]]|]. intros [u|cs] Ho.
    + apply ends_ret. by left.
    + eapply ends_bind; [apply ends_val; intros a Ha; exact Ha|]. intros batch Hb.
      apply ends_ret. right. by econstructor.
  - apply ends_here. intros d. cbn. destruct (current (w_identity w)) as [b|] eqn:Hb; cbn.
    + apply ends_ret. right. constructor. unfold is_bound. by rewrite Hb.
    + eapply ends_mono; [by left|]. apply identity_ends; [unfold is_bound; by rewrite Hb; intros []|].
      split; [done|]. exists x. split; [done|]. destruct (validate_keeps _ _ Hx) as [Hk _].
      destruct x as [| | | | | | | | |[[]|]| | | | | | | | |]; try done. exfalso. cbn in Hx. by destruct (text_tuple _ _).
  - apply authorize_one_ends; [left; eauto|by left|]. intros c Hc Hm. apply ends_here. intros d.
    apply ends_the. intros cents ->. apply ends_the. intros target ->.
    eapply ends_bind; [apply ends_val; intros a Ha; exact Ha|]. intros [p|] Hp; apply ends_ret; right; by econstructor.
  - apply authorize_one_ends; [by right|by left|]. intros c Hc Hm. apply ends_here. intros d.
    eapply ends_bind; [apply ends_val; intros a Ha; exact Ha|]. intros p Hp; apply ends_ret; right; by econstructor.
  - apply ends_here. intros d. eapply ends_bind; [apply ends_val; intros a Ha; exact Ha|]. intros [p|] Hp.
    + apply ends_ret. right. by constructor.
    + cbn. destruct (current (w_identity w)) as [b|] eqn:Hb; cbn.
      * apply ends_ret. right. constructor; [unfold is_bound; by rewrite Hb|done].
      * eapply ends_mono; [by left|]. apply identity_ends; [unfold is_bound; by rewrite Hb; intros []|].
        split; [done|]. exists x. split; [done|]. destruct (validate_keeps _ _ Hx) as [Hk _]. by destruct x.
Qed.

(** The request of the invocation, with the order in focus in place of a reference to it. *)
Definition in_focus w (r r0 : IntentRequest) : Prop :=
  match focused_request r (Recent.focused_order_ref (Recent.snapshot_ (w_recent w))) with
  | None => r0 = r
  | Some (x, found) => found = true ∧ validate_request x = inr r0
  end.
Lemma normalize_ends w st inv :
  ends w (normalize_focused (P:=P) (PS:=PS) (R:=R) policy st w inv)
    (quiet_or w st (capability inv) (λ o, in_focus w (request inv) o.1.1 ∧ capability o.2 = capability inv)).
Proof.
  unfold normalize_focused, in_focus. destruct (focused_request _ _) as [[x found]|].
  2: { by apply ends_ret. }
  eapply ends_bind; [apply ends_val; intros a Ha; exact Ha|]. intros r0 Hr.
  eapply ends_bind; [apply ends_val; intros a Ha; exact Ha|]. intros inv' Hinv.
  destruct (with_request_spec _ _ _ Hinv) as [_ Hcap]. destruct found; [by apply ends_ret|].
  rewrite <-Hcap. apply quiet_bind, clarify_ends.
Qed.

(** What the entry ends with. *)
Inductive entered env w st inv : list Write → Prop :=
  | entered_quiet ws : quiet w st (capability inv) ws →
      (kind (request inv) = LIST_ORDERS → leads_to_identity ws) → entered env w st inv ws
  | entered_list scope : request inv = ListOrders scope → (scope = scope_account → is_bound w) →
      entered env w st inv []
  | entered_no_profile field value : request inv = ChangeProfile field value → is_bound w →
      entered env w st inv (profile_unavailable field)
  | entered_prepared v r0 r ws :
      (order_views w = inr v ∨ v = no_views ∧ kind (request inv) = CHANGE_PROFILE) →
      in_focus w (request inv) r0 →
      (r = r0 ∨ is_slot_complete r0 = false ∧ stated_fill (last_user_text st) r0 r) →
      prepared env w v r ws → entered env w st inv ws.

(** A request that a validation has stored. *)
Definition was_validated (r : IntentRequest) : Prop := ∃ x, validate_request x = inr r.
Lemma in_focus_validated w r r0 : was_validated r → in_focus w r r0 → was_validated r0.
Proof. unfold in_focus. destruct (focused_request _ _) as [[x found]|]; [intros _ [_ ?]; by exists x|by intros ? ->]. Qed.
Lemma fill_validated u r r' : stated_fill u r r' → was_validated r'.
Proof. intros (x & Hx & _). by exists x. Qed.

Lemma entry_go_ends env w st inv v replies : was_validated (request inv) → kind (request inv) ≠ LIST_ORDERS →
  (order_views w = inr v ∨ v = no_views ∧ kind (request inv) = CHANGE_PROFILE) →
  ends w (prepare_request (P:=P) (PS:=PS) (R:=R) policy env replies st v w inv) (entered env w st inv).
Proof.
  intros Hval Hlist Hv. unfold prepare_request. eapply ends_bind; [apply normalize_ends|]. intros [u|[[r0 focused] inv0]] Hn.
  { apply ends_ret. by apply entered_quiet. }
  cbn in Hn. destruct Hn as [Hf Hcap0].
  assert (∀ r inv1, capability inv1 = capability inv → was_validated r →
    (r = r0 ∨ is_slot_complete r0 = false ∧ stated_fill (last_user_text st) r0 r) →
    ends w (prepare_complete policy env st v focused r inv1) (entered env w st inv)) as Hend.
  { intros r inv1 Hcap Hr Hor. eapply ends_mono; [|by apply prepare_complete_ends].
    intros ws [Hq|Hp]; [apply entered_quiet; [by rewrite <-Hcap|done]|by eapply entered_prepared]. }
  destruct (_ && _) eqn:Hc.
  2: { apply Hend; [done|by eapply in_focus_validated|by left]. }
  bools. eapply ends_bind; [apply prepare_incomplete_ends|]. rewrite Hcap0. intros [u|] Hu.
  { apply ends_ret. apply entered_quiet; [by apply Hu|done]. }
  eapply ends_bind; [by apply fill_go_ends|]. rewrite Hcap0. intros [u|[r inv1]] Ho.
  { apply ends_ret. by apply entered_quiet. }
  destruct Ho as (Hfill & Hcomp & Hcap). apply Hend; [done|by eapply fill_validated|by right].
Qed.

Lemma order_views_denials d w : order_views (set_denials d w) = order_views w.
Proof.
  assert (∀ cs, readable (set_denials d w) cs = readable w cs) as Hr.
  { induction cs as [|c cs IH]; [done|]. cbn [readable]. by rewrite IH. }
  unfold order_views. cbn. by destruct (actionable_orders _ _) as [|full]; cbn; rewrite ?Hr.
Qed.
Lemma entry_ends env w st inv replies : active_invocation st = Some inv → was_validated (request inv) →
  ends w (support_capability_entry_node (P:=P) (PS:=PS) (R:=R) policy env replies st) (entered env w st inv).
Proof.
  intros Hinv Hval. unfold support_capability_entry_node. rewrite Hinv. apply ends_here. intros d.
  assert (∀ v, prepare_request policy env replies st v (set_denials d w) inv = prepare_request policy env replies st v w inv)
    as Hgo by done.
  rewrite order_views_denials.
  destruct (request inv) as [| | | | |[]| | | | | | |field value| | | | | |] eqn:Hreq; cbn zeta;
    try (eapply ends_bind; [apply ends_val; intros a Ha; exact Ha|]; intros v Hv;
         rewrite Hgo; apply entry_go_ends; [by rewrite Hreq|by rewrite Hreq|by left]).
  - cbn. destruct (current (w_identity w)) as [b|] eqn:Hb; cbn.
    + apply ends_ret. eapply entered_list; [done|]. intros _. unfold is_bound. by rewrite Hb.
    + eapply ends_mono; [|apply (identity_led w st)]; [by intros ws [? ?]; apply entered_quiet|unfold is_bound; rewrite Hb; by intros []|].
      split; [done|]. destruct Hval as [x Hx]. exists x. split; [done|]. destruct (validate_keeps _ _ Hx) as [Hk _]. by destruct x.
  - apply ends_ret. by eapply entered_list.
  - cbn. destruct (current (w_identity w)) as [b|] eqn:Hb; cbn.
    + destruct (has_profile _ _).
      * rewrite Hgo. apply entry_go_ends; [by rewrite Hreq|by rewrite Hreq|right; by rewrite Hreq].
      * apply ends_ret. eapply entered_no_profile; [done|]. unfold is_bound. by rewrite Hb.
    + rewrite Hgo. apply entry_go_ends; [by rewrite Hreq|by rewrite Hreq|right; by rewrite Hreq].
Qed.
End entry_laws.

(** ** The properties of the entry *)
Section prepared_laws.
Context {P PS R E : Type} `{OtpPort P} (policy : PolicyContext).
Context (am : list Message → list Message → list Message).
Notation W := (World P PS R).
Implicit Types (w : W) (env : node_env E) (st : ReasoningState) (inv : ActiveInvocation) (v : OrderViews).

(** A conversation in which no action of the flow is open. *)
Definition nothing_prepared st : Prop :=
  handover st = None ∧ pending_refund st = None ∧ pending_cancel st = None ∧ pending_return st = None ∧
  pending_profile_change st = None ∧ pending_clarification st = None ∧ execution_owner st ≠ Some owner_identity.

Lemma entry_run env replies st inv ans w s' ws :
  active_invocation st = Some inv → was_validated (request inv) →
  support_capability_entry (P:=P) (PS:=PS) (R:=R) policy env replies st (ans, w) = (s', Done ws) →
  (∃ d, s' = (ans, set_denials d w)) ∧ ∃ ws0, ws = with_clarification_lifecycle ws0 ∧ entered env w st inv ws0.
Proof.
  intros Hinv Hval (ws0 & s1 & Hr & Hm)%bind_done. apply ret_done in Hm as [-> ->].
  destruct (ends_run _ _ _ _ _ _ (entry_ends policy env w st inv replies Hinv Hval) Hr) as [Hs He]. eauto.
Qed.

Lemma refund_minted env w c cents destination p : mint_refund env w c cents destination = inr (Some p) →
  pr_order_id p = oc_order_id c ∧ pr_amount_usd p = cents ∧ pr_destination p = destination.
Proof.
  unfold mint_refund, make_PendingRefund. munfold. intros Hm.
  repeat (case_match; try done); simplify_eq; cbn; by split_and!.
Qed.
Lemma return_minted env w c p : mint_return env w c = inr p → pn_order_id p = oc_order_id c.
Proof.
  unfold mint_return, make_PendingReturn. munfold. intros Hm. repeat (case_match; try done); by simplify_eq.
Qed.
Lemma profile_minted env w field value p : mint_profile_change env w field value = inr (Some p) →
  pf_field p = field ∧ ∃ b, current (w_identity w) = Some b ∧ has_profile (w_profiles w) (customer_ref b) = true.
Proof.
  unfold mint_profile_change, make_PendingProfileChange. munfold. intros Hm.
  destruct (current (w_identity w)) as [b|]; [|done]. destruct (has_profile _ _) eqn:Hp; [|done]. cbn in Hm.
  split; [|by exists b]. repeat (case_match; try done); by simplify_eq.
Qed.

(** What is prepared, by the channel it is prepared in. *)
Lemma prepared_channels env w v r ws st : nothing_prepared st → prepared env w v r ws →
  let st' := apply_update am (with_clarification_lifecycle ws) st in
  (∀ p, pending_refund st' = Some p → ∃ ref cents destination c,
     r = RefundOrder (Some (ExplicitOrderTarget ref)) (Some cents) (Some destination) ∧
     view_resolve v ref = Some c ∧ may_change w (oc_order_id c) ∧ mint_refund env w c cents destination = inr (Some p)) ∧
  (∀ p, pending_return st' = Some p → ∃ ref c, r = ReturnOrder (Some (ExplicitOrderTarget ref)) ∧
     view_resolve v ref = Some c ∧ may_change w (oc_order_id c) ∧ mint_return env w c = inr p) ∧
  (∀ b, pending_cancel st' = Some (pending_batch b) → ∃ refs cs, r = CancelOrders (Some (CancelExplicit refs)) ∧
     targets_ok w v refs cs ∧ mint_cancel_batch env ((λ c, (oc_order_id c, oc_summary c)) <$> cs) = inr b) ∧
  (∀ s, pending_cancel st' = Some (pending_scope s) → r = CancelOrders (Some (CancelScoped s)) ∧ is_bound w) ∧
  (∀ p, pending_profile_change st' = Some p → ∃ field value, r = ChangeProfile field (Some value) ∧
     mint_profile_change env w field value = inr (Some p)) ∧
  messages st' = messages st ∧ execution_owner st' ≠ Some owner_identity ∧ active_invocation st' = None ∧
  pending_clarification st' = None ∧
  (handover st' = None → isSome (pending_refund st') || isSome (pending_return st') || isSome (pending_cancel st')
                         || isSome (pending_profile_change st') = true).
Proof.
  intros (H1 & H2 & H3 & H4 & H5 & H6 & H7) Hp. destruct st; cbn in *; subst.
  destruct Hp; cbn; split_and!; intros; simplify_eq; eauto 10.
Qed.

Lemma quiet_channels w st cap ws : nothing_prepared st → quiet w st cap ws →
  let st' := apply_update am (with_clarification_lifecycle ws) st in
  pending_refund st' = None ∧ pending_return st' = None ∧ pending_cancel st' = None ∧ pending_profile_change st' = None ∧
  ((∃ detail inv', handover st' = None ∧ execution_owner st' = Some owner_support ∧ active_invocation st' = Some inv' ∧
      capability inv' = cap ∧ pending_clarification st' = Some (SupportClarification detail)) ∨
   (handover st' = Some (mkHandoff hr_other DETERMINISTIC_POLICY) ∧ active_invocation st' = None ∧ execution_owner st' = None) ∨
   (∃ ms id, ws = support_leave ms id ∧ current_turn_called (ms ++ [ToolMessage "left support" id]) tool_leave_support = true) ∨
   (handover st' = None ∧ execution_owner st' = Some owner_identity ∧ ¬ is_bound w ∧ ∃ inv', active_invocation st' = Some inv' ∧
      capability inv' = cap ∧ carried (last_user_text st) (request inv'))).
Proof.
  intros (H1 & H2 & H3 & H4 & H5 & H6 & H7) Hq. destruct st; cbn in *; subst.
  destruct Hq; cbn; split_and!; try done.
  - left. eauto 10.
  - right; left. done.
  - right; right; left. eauto.
  - right; right; right. eauto 10.
Qed.
End prepared_laws.

(** C17 No action is prepared without authority.  Whatever the model replies, a run of the entry
    changes nothing but the counts of denials, and the action it leaves for the guardrails is one
    the caller may take: every order of a refund, a return or a cancellation was placed on this
    call or is owned by the bound customer, an order is cancelled once, an account-wide scope and
    a profile change belong to a bound customer, and an unbound caller is sent through identity
    with no order reference but the ones it stated in this very turn. *)
Theorem support_entry_authorized {P PS R E} `{OtpPort P} policy am (env : node_env E) replies st inv ans
    (w : World P PS R) s' ws :
  nothing_prepared st → active_invocation st = Some inv → was_validated (request inv) →
  support_capability_entry policy env replies st (ans, w) = (s', Done ws) →
  let st' := apply_update am ws st in
  (∃ d, s' = (ans, set_denials d w)) ∧
  (∀ p, pending_refund st' = Some p → may_change w (pr_order_id p)) ∧
  (∀ p, pending_return st' = Some p → may_change w (pn_order_id p)) ∧
  (∀ b, pending_cancel st' = Some (pending_batch b) →
     Forall (may_change w) (ct_order_id <$> cb_targets b) ∧ NoDup (ct_order_id <$> cb_targets b) ∧ cb_outcomes b = []) ∧
  (∀ s, pending_cancel st' = Some (pending_scope s) → is_bound w) ∧
  (∀ p, pending_profile_change st' = Some p →
     ∃ b, current (w_identity w) = Some b ∧ has_profile (w_profiles w) (customer_ref b) = true) ∧
  (execution_owner st' = Some owner_identity → ¬ is_bound w ∧
     ∃ inv', active_invocation st' = Some inv' ∧ capability inv' = capability inv ∧
       carried (last_user_text st) (request inv')).
Proof.
  intros Hn Hinv Hval Hrun st'. destruct (entry_run _ _ _ _ _ _ _ _ _ Hinv Hval Hrun) as [Hs (ws0 & -> & He)].
  split; [exact Hs|]. subst st'.
  destruct He as [ws0 Hq Hlist|scope Hr Hb|field value Hr Hb|v r0 r ws0 _ _ _ Hp].
  - destruct (quiet_channels am _ _ _ _ Hn Hq) as (-> & -> & -> & -> & [(? & ? & _ & -> & _)|[(_ & _ & ->)|[(ms & id & -> & _)|(_ & _ & Hb & Hi)]]]);
      (split_and!; [done..|]); by destruct st.
  - destruct Hn as (_ & H2 & H3 & H4 & H5 & _ & H7). destruct st; cbn in *; subst. split_and!; done.
  - destruct Hn as (_ & H2 & H3 & H4 & H5 & _ & H7). destruct st; cbn in *; subst. split_and!; done.
  - destruct (prepared_channels am _ _ _ _ _ _ Hn Hp) as (C1 & C2 & C3 & C4 & C5 & _ & C6 & _).
    split_and!; [| | | | |by intros ?].
    + intros p Hpp. destruct (C1 _ Hpp) as (? & ? & ? & c & _ & _ & Hm & Hmint).
      by destruct (refund_minted _ _ _ _ _ _ Hmint) as (-> & _).
    + intros p Hpp. destruct (C2 _ Hpp) as (? & c & _ & _ & Hm & Hmint). by rewrite (return_minted _ _ _ _ Hmint).
    + intros b Hb. destruct (C3 _ Hb) as (refs & cs & _ & [Hok Hnd] & Hmint).
      destruct (mint_cancel_targets _ _ _ Hmint) as [Ht Ho].
      assert (ct_order_id <$> cb_targets b = oc_order_id <$> cs) as ->.
      { apply (f_equal (fmap fst)) in Ht. by rewrite <-!list_fmap_compose in Ht. }
      split_and!; [|done|done]. apply Forall_fmap. by eapply Forall_impl; [exact Hok|intros c [? _]].
    + intros sc Hsc. by destruct (C4 _ Hsc).
    + intros p Hpp. destruct (C5 _ Hpp) as (? & ? & _ & Hmint). by destruct (profile_minted _ _ _ _ _ Hmint).
Qed.

