(* ===== verification/SupportEntryLaws.v ===== *)
(** * The support flow: where the entry leads, and what it shows

    The theorems on the entry's router, on the order lists it renders and on
    what its answers reveal about other people's orders, with the concrete
    runs of the entry. *)

From S2P Require Import Prelude PyText Regex WordRegex Money Cart Orders OrderScope OrderStore Spoken Redaction Identity Profile.
From S2P Require Import Verification OtpProvider Consent Confirmation SessionState SessionCommit SessionRefine Requests Reasoning Clarification Nodes Stepup SupportBase SupportCancel SupportExamples Caller IdentityFlow SupportEntry.
Local Open Scope Z_scope.
Local Open Scope list_scope.

(** The router, by what it looks at first. *)
Lemma route_silent st r : support_route_after_capability_entry st = inr r →
  r = sr_leave → current_turn_called (messages st) tool_leave_support = true.
Proof. unfold support_route_after_capability_entry. intros H ->. by repeat (case_match; try done). Qed.
Definition is_list (i : option ActiveInvocation) : bool :=
  match i with Some i => match request i with ListOrders _ => true | _ => false end | None => false end.
Lemma route_kept discardable st : is_list (active_invocation st) = false →
  route_after_support_capability_entry discardable st =
  (r ← support_route_after_capability_entry st; inr (support_target discardable r)).
Proof.
  unfold route_after_support_capability_entry, is_list. intros Hl. destruct (active_invocation st) as [i|]; [|by destruct (negb _)].
  rewrite Hl. by destruct (negb _).
Qed.

(** The nodes the router of the entry leads to. *)
Definition support_entry_targets : list string :=
  ["support_capability_render"; "support_guardrail"; "support_cancel_guardrail"; "support_return_guardrail";
   "support_profile_guardrail"; "support_resolve"; "handover"; "owner_declined"; "support_clarify";
   "principal_warning"; "identity_assemble"].

Lemma target_listed t : existsb (String.eqb t) support_entry_targets = true → t ∈ support_entry_targets.
Proof. intros (x & Hx & ->%String.eqb_eq)%existsb_exists. by apply list_elem_of_In. Qed.
Ltac listed := apply target_listed; vm_compute; reflexivity.
(** One conjunct of what the entry's next node agrees with, on a state whose fields are known. *)
Ltac agrees :=
  lazymatch goal with
  | |- None ≠ None → _ => intros []; reflexivity
  | |- Some _ ≠ None → _ => intros _; reflexivity
  | |- ∀ _, None = Some _ → _ => intros ?; discriminate
  | |- ∀ _, Some _ = Some _ → _ => intros ?; first [intros _; reflexivity | discriminate]
  | |- None ≠ None ↔ _ => split; [intros []; reflexivity | discriminate]
  | |- Some _ ≠ None ↔ _ => split; [reflexivity | discriminate]
  | |- _ = _ → _ => discriminate
  end.
Ltac led_to := eexists; split; [reflexivity|]; split; [listed|]; split_and!; agrees.

(** C20 Every outcome of the entry has somewhere to go.  After any run of the entry, the router
    raises nothing and no turn ends in silence: the next node is one of the registered ones, it
    is the guardrail of the action that was prepared whenever one was, the list's render node for
    a list the caller may hear, and the handover exactly when the conversation was handed over. *)
Theorem support_entry_routed {P PS R E} `{OtpPort P} policy am (env : node_env E) replies st inv ans
    (w : World P PS R) s' ws discardable :
  (∀ old new, current_turn_called new tool_leave_support = true → current_turn_called (am old new) tool_leave_support = true) →
  nothing_prepared st → active_invocation st = Some inv → was_validated (request inv) →
  current_turn_called (messages st) tool_leave_support = false →
  support_capability_entry policy env replies st (ans, w) = (s', Done ws) →
  let st' := apply_update am ws st in
  ∃ target, route_after_support_capability_entry discardable st' = inr target ∧ target ∈ support_entry_targets ∧
    (pending_refund st' ≠ None → target = "support_guardrail") ∧
    (pending_return st' ≠ None → target = "support_return_guardrail") ∧
    (pending_profile_change st' ≠ None → target = "support_profile_guardrail") ∧
    (∀ b, pending_cancel st' = Some (pending_batch b) → target = "support_cancel_guardrail") ∧
    (∀ s, pending_cancel st' = Some (pending_scope s) → target = "support_resolve") ∧
    (handover st' ≠ None ↔ target = "handover") ∧
    (target = "support_capability_render" → ∃ scope, request inv = ListOrders scope ∧
       (scope = scope_account → is_bound w)).
Proof.
  intros Ham Hn Hinv Hval Hleave Hrun st'. destruct (entry_run _ _ _ _ _ _ _ _ _ Hinv Hval Hrun) as [_ (ws0 & -> & He)].
  subst st'.
  destruct He as [ws0 Hq Hlist|scope Hr Hb|field value Hr Hb|v r0 r ws0 _ _ _ Hp].
  - destruct (quiet_channels am _ _ _ _ Hn Hq) as (H1 & H2 & H3 & H4 & Hcase).
    set (st' := apply_update am _ st) in *. rewrite H1, H2, H3, H4.
    destruct Hcase as [(detail & inv' & Hh & Ho & Hi & Hcap & Hc)|[(Hh & Hi & Ho)|[(ms & id & -> & Hcall)|(Hh & Ho & Hb & inv' & Hi & Hcap & Hcar)]]].
    + assert (is_list (active_invocation st') = false) as Hl.
      { rewrite Hi. cbn. destruct (request inv') eqn:Hr'; try done. exfalso.
        unfold capability in Hcap. rewrite Hr' in Hcap. destruct (Hlist (eq_sym Hcap)) as (ms & inv'' & ->).
        subst st'. by destruct st. }
      clearbody st'. rewrite (route_kept _ _ Hl). unfold support_route_after_capability_entry. rewrite Hh, Ho, H1, H2, H3, H4, Hc. cbn.
      destruct (current_turn_called (messages st') tool_leave_support); led_to.
    + clearbody st'. rewrite route_kept by (by rewrite Hi). unfold support_route_after_capability_entry. rewrite Hh. cbn.
      led_to.
    + assert (active_invocation st' = None ∧ handover st' = None ∧ execution_owner st' = None ∧ pending_clarification st' = None)
        as (Hi & Hh & Ho & Hc) by (destruct Hn as (Hh & _); subst st'; by destruct st).
      assert (current_turn_called (messages st') tool_leave_support = true) as Hm
        by (specialize (Ham (messages st) _ Hcall); subst st'; by destruct st).
      clearbody st'. rewrite route_kept by (by rewrite Hi). unfold support_route_after_capability_entry. rewrite Hh, Hm. cbn.
      led_to.
    + clearbody st'. destruct (current_turn_called (messages st') tool_leave_support) eqn:Hm.
      all: unfold route_after_support_capability_entry, support_route_after_capability_entry; rewrite Hh, Ho, Hm; cbn.
      all: destruct discardable; led_to.
  - destruct Hn as (H1 & H2 & H3 & H4 & H5 & _ & H7). destruct st; cbn in *; subst.
    exists "support_capability_render".
    split.
    { unfold route_after_support_capability_entry. cbn. rewrite Hr, bool_decide_eq_false_2 by done. done. }
    split; [listed|]. split_and!; try agrees. by eauto.
  - destruct Hn as (H1 & H2 & H3 & H4 & H5 & _ & H7). destruct st; cbn in *; subst.
    led_to.
  - destruct Hn as (H1 & H2 & H3 & H4 & H5 & H6 & H7). destruct st; cbn in *; subst.
    destruct Hp; unfold route_after_support_capability_entry, support_route_after_capability_entry; cbn; rewrite ?Hleave; cbn; led_to.
Qed.

(** ** Lists of orders *)
(** The references of the store are in normal form, each fixture order once. *)
Record ids_normal (o : OrderStore) : Prop := {
  normal_fixture : ∀ k e, (k, e) ∈ orders o → canon k = k;
  normal_once : NoDup (dkeys (orders o));
  normal_placed : ∀ r, r ∈ dvalues (placed_by_key o) → canon (po_order_id r) = po_order_id r }.

Lemma gen_list_all {A} (g : gen A) l : gen_list g = inr l → g = inr <$> l.
Proof.
  revert l. induction g as [|[e|a] g IH]; intros l; cbn; [by intros [= <-]|done|].
  cbv [mbind res_bind mret res_ret]. destruct (gen_list g) as [|l']; [done|]. intros [= <-]. by rewrite (IH _ eq_refl).
Qed.
Lemma gen_until_all {A} (g : gen A) l : gen_until_error g = inr <$> l → g = inr <$> l.
Proof.
  revert l. induction g as [|[e|a] g IH]; intros l; cbn; [done|by destruct l|].
  destruct l as [|b l]; [done|]. cbn. intros [= -> H]. by rewrite (IH _ H).
Qed.
Lemma number_from_in {A} (l : list A) : ∀ n k x, (k, x) ∈ number_from n l → x ∈ l.
Proof. induction l as [|y l IH]; intros n k x; cbn; [set_solver|]. rewrite !elem_of_cons. intros [[= _ ->]|H]; eauto. Qed.
Lemma dict_of_in {V} (k : string) (v : V) l : dget k (dict_of l) = Some v → (k, v) ∈ l.
Proof.
  unfold dict_of. assert (∀ d, dget k (foldl (λ d '(k, v), dset k v d) d l) = Some v → (k, v) ∈ l ∨ dget k d = Some v) as H.
  { induction l as [|[k' v'] l IH]; intros d; cbn; [by right|]. intros [?|Hd]%IH; [left; by right|].
    destruct (decide (k = k')) as [->|Hne].
    - rewrite dget_dset_eq in Hd. injection Hd as ->. left. left.
    - rewrite dget_dset_ne in Hd by done. by right. }
  intros [?|?]%H; done.
Qed.

Lemma guest_listed s scope l : ids_normal s → iter_guest_orders s scope = inr <$> l →
  Forall (λ r, is_guest_order s (po_order_id r) scope = inr true) l ∧ require_guest_scope s scope = inr tt.
Proof.
  intros Hn. unfold iter_guest_orders. destruct (require_guest_scope s scope) as [e|[]] eqn:Hq; [by destruct l|].
  intros Hl%gen_until_all. split; [|done]. apply Forall_forall. intros r Hr.
  assert (inr r ∈ inr (A:=exc) <$> l) as Hin by (by apply list_elem_of_fmap_2). rewrite <-Hl in Hin.
  apply list_elem_of_fmap in Hin as (id & Heq & Hid). destruct (dget id _) as [r'|] eqn:Hg; [|done]. injection Heq as <-.
  apply dict_of_in, list_elem_of_fmap in Hg as (r' & [= -> ->] & Hr').
  unfold is_guest_order. rewrite Hq. cbv [mbind res_bind mret res_ret]. f_equal.
  rewrite (normal_placed s Hn r' Hr'). apply andb_true_iff. split.
  - unfold Guest.contains. rewrite (normal_placed s Hn r' Hr'). unfold dmem. unfold Guest.order_refs in Hid.
    destruct (dget _ _) eqn:E; [done|]. by apply dget_None in E.
  - apply existsb_exists. exists r'. split; [by apply list_elem_of_In|apply String.eqb_refl].
Qed.
Lemma placed_candidate_id s r k c : placed_candidate s r k = inr c → oc_order_id c = po_order_id r.
Proof. unfold placed_candidate, make_OrderCandidate. munfold. by repeat (case_match; try done); intros; simplify_eq. Qed.
Lemma fixture_candidate_id s k id e c : fixture_candidate s k id e = inr c → oc_order_id c = id.
Proof. unfold fixture_candidate, make_OrderCandidate. munfold. by repeat (case_match; try done); intros; simplify_eq. Qed.

Lemma guest_candidate s scope (l : list (res PlacedOrder)) rs : l = inr <$> rs → ∀ n cs,
  candidate_of s <$> number_from n l = inr <$> cs →
  Forall (λ r, is_guest_order s (po_order_id r) scope = inr true) rs →
  Forall (λ c, is_guest_order s (oc_order_id c) scope = inr true) cs.
Proof.
  intros ->. induction rs as [|r rs IH]; intros n cs; cbn; [by destruct cs|].
  destruct cs as [|c cs]; [done|]. cbn. intros [= Hc Hcs] [Hr Hrs]%Forall_cons. constructor; [|by eapply IH].
  by rewrite (placed_candidate_id _ _ _ _ Hc).
Qed.
(** A generator that ends with no exception: what it yields are values. *)
Lemma yields_values {A B} (f : string * res A → res B) (l : list (res A)) n cs :
  (∀ k e, f (k, inl e) = inl e) → f <$> number_from n l = inr <$> cs → ∃ rs, l = inr <$> rs.
Proof.
  intros Hf. revert n cs. induction l as [|[e|a] l IH]; intros n cs; cbn; [by exists []|..].
  - rewrite Hf. by destruct cs.
  - destruct cs as [|c cs]; [done|]. cbn. intros [= _ (rs & ->)%IH]. by exists (a :: rs).
Qed.
Lemma guest_orders_own s scope cs : ids_normal s → guest_orders s scope = inr cs →
  Forall (λ c, is_guest_order s (oc_order_id c) scope = inr true) cs.
Proof.
  unfold guest_orders. intros Hn Hg%gen_list_all. destruct (yields_values _ _ _ _ (λ _ _, eq_refl) Hg) as [rs Hrs].
  destruct (guest_listed _ _ _ Hn Hrs) as [Hok _]. by eapply guest_candidate.
Qed.
Lemma owned_orders_own s b scope cs : ids_normal s → owned_orders s (customer_ref b) scope = inr cs →
  require_guest_scope s scope = inr tt ∧
  Forall (λ c, is_guest_order s (oc_order_id c) scope = inr true ∨ owned_by s (oc_order_id c) b = true) cs.
Proof.
  unfold owned_orders, iter_owned_orders. intros Hn Hg%gen_list_all%gen_until_all.
  destruct (fmap_app_inv _ _ _ _ (eq_sym Hg)) as (c1 & c2 & H1 & H2 & ->).
  destruct (yields_values _ _ _ _ (λ _ _, eq_refl) H2) as [rs Hrs].
  destruct (guest_listed _ _ _ Hn Hrs) as [Hok Hreq]. split; [done|]. apply Forall_app. split.
  - apply Forall_forall. intros c Hc. right.
    assert (inr c ∈ inr (A:=exc) <$> c1) as Hin by (by apply list_elem_of_fmap_2). rewrite <-H1 in Hin.
    apply list_elem_of_fmap in Hin as ([k [id e]] & Heq & Hin). apply number_from_in, list_elem_of_filter in Hin as [Hb Hin].
    unfold owned_by. cbn [port_order_owner OrderStore_reads]. unfold order_owner.
    rewrite (fixture_candidate_id _ _ _ _ _ (eq_sym Heq)), (normal_fixture s Hn _ _ Hin),
      (elem_dget _ _ _ (normal_once s Hn) Hin). cbn in Hb |- *. rewrite Hb. apply String.eqb_refl.
  - eapply Forall_impl; [by eapply guest_candidate|]. by left.
Qed.

(** What a list of orders says: each order's reference, summary and status, in the order listed,
    and what may follow; nothing is offered while the turn answers before a readback. *)
Definition listed_order (c : OrderCandidate) : string :=
  oc_order_id c +:+ ", " +:+ oc_summary c +:+ ", " +:+ default (oc_status c) (dget (oc_status c) STATUS_PHRASE).
Definition list_sentence (scope : list_scope) (orders : list OrderCandidate) : string :=
  let lead := match scope with scope_account => "You've got " | scope_session => "You've placed " end in
  let where_ := match scope with scope_account => "" | scope_session => " on this call" end in
  match orders with
  | [] => "I don't see any orders on your account."
  | [c] => lead +:+ "1 order" +:+ where_ +:+ ": " +:+ listed_order c +:+ "."
  | _ => lead +:+ str_int (Z.of_nat (length orders)) +:+ " orders" +:+ where_ +:+ ": " +:+
      join "; " (removelast (listed_order <$> orders)) +:+ "; and " +:+ List.last (listed_order <$> orders) "" +:+ "."
  end.
Definition list_offer (scope : list_scope) (warm_close : string) : string :=
  match scope with
  | scope_account => warm_close
  | scope_session => "To pull up any other orders on an account, I can verify you - just let me know."
  end.
Lemma list_rendered scope orders : render_order_list_line orders scope = list_sentence scope orders.
Proof.
  unfold render_order_list_line, list_sentence. rewrite length_fmap. change (λ c, _ +:+ _) with listed_order.
  destruct orders as [|c [|c2 orders]]; [done|..]; rewrite !fmap_cons; cbv zeta; destruct scope; cbv beta iota; rewrite ?app_assoc_s; done.
Qed.

(** C38 A list of orders shows the caller's own.  Over a store whose references are in normal form,
    the render node says one line and nothing else: the orders placed on this call or, for an
    account, those and the ones the bound customer owns, each with its summary and status, then
    the offer that fits the scope unless a readback waits.  Every order it names, and every order
    it records as shown, is one the caller may act on.  It renders an account only for a bound
    caller, changes no store but the session, which records just these orders under the request
    (or forgets the recent ones, when there is none), closes the request with the turn's ownership,
    and writes nothing further but, after the offer of an account, that the turn has been offered it. *)
Theorem order_list_own {P PS R E} `{OtpPort P} `{SessionPersistence PS E} fingerprint (env : node_env E) close st ans
    (w : World P PS R) s' ws :
  ids_normal (w_orders w) →
  support_capability_render_node fingerprint env close st (ans, w) = (s', Done ws) →
  ∃ inv scope orders rev, active_invocation st = Some inv ∧ request inv = ListOrders scope ∧
    match scope with
    | scope_session => guest_orders (w_orders w) (w_guest w) = inr orders
    | scope_account => ∃ b, current (w_identity w) = Some b ∧
        owned_orders (w_orders w) (customer_ref b) (w_guest w) = inr orders
    end ∧
    Forall (λ c, may_change w (oc_order_id c)) orders ∧
    (if answers_before_readback st then
       ws = [W_active_invocation None; W_execution_owner None; W_session_revision rev; say (list_sentence scope orders)]
     else
       let update := [W_active_invocation None; W_execution_owner None; W_session_revision rev;
                      say (list_sentence scope orders +:+ " " +:+ list_offer scope close)] in
       match scope with
       | scope_session => ws = update
       | scope_account => ∃ turn, last (consumed_turn_ids st) = Some turn ∧
           ws = update ++ [W_assistant_prompt (Some (mkPrompt turn))]
       end) ∧
    (∃ id s1 r, recent_orders_operation_id op_list (invocation_id inv) = inr id ∧ s' = (ans, set_session s1 w) ∧
       match orders with
       | [] => clear_recent_orders fingerprint (ne_publish env) id (w_session w)
       | _ => record_recent_orders fingerprint (ne_publish env) id (oc_order_id <$> orders) op_list None [] (w_session w)
       end = (s1, inr (r, rev))).
Proof.
  intros Hn Hrun. unfold support_capability_render_node in Hrun.
  destruct (active_invocation st) as [inv|]; [|done].
  destruct (request inv) as [| | | | |scope| | | | | | | | | | | | |] eqn:Hreq; try done.
  apply bind_here in Hrun. apply bind_done in Hrun as ([orders c] & s1 & Ho & Hrun).
  assert (s1 = (ans, w) ∧ c = list_offer scope close ∧ Forall (λ c, may_change w (oc_order_id c)) orders ∧
    match scope with
    | scope_session => guest_orders (w_orders w) (w_guest w) = inr orders
    | scope_account => ∃ b, current (w_identity w) = Some b ∧
        owned_orders (w_orders w) (customer_ref b) (w_guest w) = inr orders
    end) as (-> & -> & Hown & Hlist).
  { destruct scope.
    - destruct (current (w_identity w)) as [b|] eqn:Hb; [|done].
      apply bind_val in Ho as (cs & Hcs & [Hs1 [= -> ->]]%ret_done). split_and!; [done..| |by exists b].
      destruct (owned_orders_own _ _ _ _ Hn Hcs) as [Hq Hall]. eapply Forall_impl; [exact Hall|].
      intros c' Hc'. unfold may_change, order_mutation_allowed, order_session_or_bound_owner_allowed. rewrite Hb.
      cbn [port_is_guest_order OrderStore_reads]. unfold is_guest_order in *. rewrite Hq in *.
      cbv [mbind res_bind mret res_ret] in *. destruct (_ && _); [done|]. destruct Hc' as [?|Hc']; [done|]. by rewrite Hc'.
    - apply bind_val in Ho as (cs & Hcs & [Hs1 [= -> ->]]%ret_done). split_and!; [done..| |done].
      eapply Forall_impl; [by eapply guest_orders_own|]. intros c' Hc'.
      unfold may_change, order_mutation_allowed, order_session_or_bound_owner_allowed.
      cbn [port_is_guest_order OrderStore_reads]. by rewrite Hc'. }
  cbv beta iota in Hrun. apply bind_val in Hrun as (id & Hid & Hrun).
  apply bind_done in Hrun as ([r rev] & s2 & Hco & Hrun). apply on_session_done in Hco as (ss & Hco & ->).
  rewrite list_rendered in Hrun. exists inv, scope, orders, rev. split_and!; [done..| |].
  { destruct (answers_before_readback st), scope; cbn [negb] in Hrun; try by apply ret_done in Hrun as [_ ->].
    destruct (last _) as [turn|]; [|done]. apply ret_done in Hrun as [_ ->]. by exists turn. }
  exists id, ss, r. split_and!; [done| |by destruct orders].
  destruct (answers_before_readback st), scope; cbn [negb] in Hrun; try by apply ret_done in Hrun as [-> _].
  destruct (last _) as [turn|]; [|done]. by apply ret_done in Hrun as [-> _].
Qed.

(** ** What a denial tells *)
Section oracle.
Context {P PS R E : Type} `{OtpPort P} (policy : PolicyContext).
Notation W := (World P PS R).
Implicit Types (w : W) (env : node_env E) (st : ReasoningState) (inv : ActiveInvocation) (v : OrderViews).

(** The caller may not act on what the reference resolves to, if it resolves to anything. *)
Definition out_of_reach w v (ref : string) : Prop :=
  ∀ c, view_resolve v ref = Some c → oc_order_id c = canon ref ∧
    order_mutation_allowed (oc_order_id c) (w_orders w) (w_guest w) (w_identity w) = inr false.

Lemma out_of_reach_canonical w v ref : out_of_reach w v ref → canonical_ref v ref = canon ref.
Proof. unfold out_of_reach, canonical_ref. destruct (view_resolve v ref) as [c|]; [|done]. intros Hc. by apply Hc. Qed.
Lemma unbound_verdict w v ref ans : ¬ is_bound w → out_of_reach w v ref →
  resolve_and_authorize policy v ref (ans, w) = ((ans, w), Done (view_resolve v ref, needs_identity)).
Proof.
  intros Hb Ho. unfold resolve_and_authorize, authorize_target.
  assert (current (w_identity w) = None) as Hc by (unfold is_bound in Hb; destruct (current _); [by destruct Hb|done]).
  destruct (view_resolve v ref) as [c|] eqn:Hv; cbn [isSome];
    cbv [mbind N_bind here act val lift get]; [destruct (Ho c Hv) as [_ ->]|]; by rewrite Hc.
Qed.
Lemma bound_verdict w v ref ans : is_bound w → out_of_reach w v ref →
  (resolve_and_authorize policy v ref (ans, w)).2 =
  Done (view_resolve v ref,
    let key := if isSome (view_resolve v ref) then canon ref else UNRESOLVED_ORDER in
    denied (if auth_denials_before_human_offer policy <=? default 0 (dget key (w_auth_denials w)) + 1
            then sd_order_match_human_help else sd_order_match)).
Proof.
  intros Hb Ho. unfold resolve_and_authorize, authorize_target, is_bound in *.
  destruct (current (w_identity w)) as [b|] eqn:Hc; [|done].
  destruct (view_resolve v ref) as [c|] eqn:Hv; cbn [isSome];
    cbv [mbind N_bind here act val lift get]; [destruct (Ho c Hv) as [Hid ->]|]; rewrite Hc; cbn; [|done].
  by rewrite Hid, canon_idem.
Qed.
(** Nodes that do not look at the world. *)
Definition blind {A} (n : N W A) : Prop := ∀ ans, ∃ o, ∀ w, n (ans, w) = ((ans, w), o).
Lemma blind_ret {A} (a : A) : blind (mret a).
Proof. intros ans. by exists (Done a). Qed.
Lemma blind_val {A} (r : res A) : blind (val r).
Proof. intros ans. destruct r as [e|a]; [by exists (Raised e)|by exists (Done a)]. Qed.
Lemma blind_bind {A B} (n : N W A) (k : A → N W B) : blind n → (∀ a, blind (k a)) → blind (n ≫= k).
Proof.
  intros Hn Hk ans. destruct (Hn ans) as [o Ho]. destruct o as [a|e|p].
  - destruct (Hk a ans) as [o' Ho']. exists o'. intros w. cbv [mbind N_bind]. by rewrite Ho, Ho'.
  - exists (Raised e). intros w. cbv [mbind N_bind]. by rewrite Ho.
  - exists (Suspended p). intros w. cbv [mbind N_bind]. by rewrite Ho.
Qed.
Lemma clarify_blind st detail ms inv : blind (support_clarify policy st detail ms inv).
Proof.
  unfold support_clarify, support_clarification_result. apply blind_bind; [|intros; apply blind_ret].
  apply blind_bind; [apply blind_val|]. intros owner. destruct (st_exhausted _); apply blind_ret.
Qed.
Lemma to_identity_blind st v focused ref rebuilt ms inv : blind (to_identity_for_one policy st v focused ref rebuilt ms inv).
Proof.
  unfold to_identity_for_one, enter_identity_for_action. destruct focused; [apply clarify_blind|].
  destruct (stated_scalar_reference _ _ _); [|apply clarify_blind].
  repeat (apply blind_bind; [apply blind_val|intros ?]). apply blind_ret.
Qed.
Lemma to_identity_all_blind st v focused refs rebuilt ms inv : blind (to_identity policy st v focused refs rebuilt ms inv).
Proof.
  unfold to_identity, enter_identity_for_action. destruct focused; [apply clarify_blind|].
  destruct (stated_reference_set _ _ _); [|apply clarify_blind].
  repeat (apply blind_bind; [apply blind_val|intros ?]). apply blind_ret.
Qed.

(** The orders a cancellation, a refund or a return names. *)
Definition names (r : IntentRequest) (refs : list string) : Prop :=
  match r with
  | CancelOrders (Some (CancelExplicit l)) => refs = l ∧ l ≠ []
  | RefundOrder (Some (ExplicitOrderTarget ref)) _ _ | ReturnOrder (Some (ExplicitOrderTarget ref)) => refs = [ref]
  | _ => False
  end.
(** Views that agree on the normal form of the references. *)
Definition alike v1 v2 (refs : list string) : Prop := ∀ ref, ref ∈ refs → canonical_ref v1 ref = canonical_ref v2 ref.
Lemma alike_set v1 v2 u refs : alike v1 v2 refs → stated_reference_set v1 u refs = stated_reference_set v2 u refs.
Proof.
  intros Ha. unfold stated_reference_set. assert (canonical_ref v1 <$> refs = canonical_ref v2 <$> refs) as ->; [|done].
  apply list_fmap_ext. intros i ref Hr. apply Ha. by eapply list_elem_of_lookup_2.
Qed.

(** An unbound caller is asked to identify, or asked again, by what the turn says alone. *)
Definition unbound_answer st v (r : IntentRequest) inv : N W (list Write) :=
  match r with
  | CancelOrders (Some (CancelExplicit l)) => to_identity policy st v false l (λ stated, CancelOrders (Some (CancelExplicit stated))) [] inv
  | RefundOrder (Some (ExplicitOrderTarget ref)) amount destination =>
      to_identity_for_one policy st v false ref (λ stated, RefundOrder (Some (ExplicitOrderTarget stated)) amount destination) [] inv
  | ReturnOrder (Some (ExplicitOrderTarget ref)) =>
      to_identity_for_one policy st v false ref (λ stated, ReturnOrder (Some (ExplicitOrderTarget stated))) [] inv
  | _ => mret []
  end.
Lemma unbound_answer_alike st v1 v2 r inv refs : names r refs → alike v1 v2 refs → unbound_answer st v1 r inv = unbound_answer st v2 r inv.
Proof.
  unfold unbound_answer, to_identity, to_identity_for_one, stated_scalar_reference. intros Hn Ha.
  destruct r as [| | | | | | | | |o|o amount destination|o|? ?| | | | | |]; try done; destruct o as [[]|]; try done; cbn in Hn;
    [destruct Hn as [-> _]|subst refs|subst refs]; by rewrite (alike_set _ _ _ _ Ha).
Qed.
Lemma unbound_answer_blind st v r inv : blind (unbound_answer st v r inv).
Proof.
  unfold unbound_answer. repeat case_match; first [apply to_identity_all_blind|apply to_identity_blind|apply blind_ret].
Qed.

Lemma unbound_prepare env replies st inv w v refs ans : ¬ is_bound w →
  names (request inv) refs → (∀ ref, ref ∈ refs → out_of_reach w v ref) →
  prepare_request policy env replies st v w inv (ans, w) = unbound_answer st v (request inv) inv (ans, w).
Proof.
  intros Hb Hn Ho. unfold prepare_request, normalize_focused.
  destruct (request inv) as [| | | | | | | | |o|o amount destination|o|? ?| | | | | |]; try done;
    destruct o as [[]|]; try done; cbn in Hn; unfold unbound_answer; cbn [focused_request].
  - destruct Hn as [-> Hne]. destruct order_refs as [|ref l]; [done|]. cbv [mbind N_bind mret N_ret].
    cbn [is_support_action is_slot_complete isSome negb andb prepare_complete authorize_all]. cbv [mbind N_bind mret N_ret].
    rewrite unbound_verdict by (done || apply Ho; by left). by destruct (to_identity _ _ _ _ _ _ _ _ _) as [s' []].
  - subst refs. assert (out_of_reach w v order_ref) as Ho' by (apply Ho; by left). cbv [mbind N_bind mret N_ret].
    cbn [is_support_action is_slot_complete isSome andb].
    destruct (isSome amount && isSome destination); cbn [negb prepare_incomplete prepare_complete]; unfold authorize_one; cbv [mbind N_bind mret N_ret];
      rewrite unbound_verdict by done; by destruct (to_identity_for_one _ _ _ _ _ _ _ _ _) as [s' []].
  - subst refs. assert (out_of_reach w v order_ref) as Ho' by (apply Ho; by left). cbv [mbind N_bind mret N_ret].
    cbn [is_support_action is_slot_complete isSome negb andb prepare_complete]. unfold authorize_one. cbv [mbind N_bind mret N_ret].
    by rewrite unbound_verdict.
Qed.
Lemma unbound_entry env replies st inv w v refs ans : ¬ is_bound w → order_views w = inr v → active_invocation st = Some inv →
  names (request inv) refs → (∀ ref, ref ∈ refs → out_of_reach w v ref) →
  support_capability_entry policy env replies st (ans, w) =
    (ws ← unbound_answer st v (request inv) inv; mret (with_clarification_lifecycle ws)) (ans, w).
Proof.
  intros Hb Hv Hinv Hn Ho. unfold support_capability_entry, support_capability_entry_node. rewrite Hinv.
  assert ((go ← val (order_views w); prepare_request policy env replies st go w inv) (ans, w) = unbound_answer st v (request inv) inv (ans, w)) as Hgo.
  { rewrite Hv. by apply (unbound_prepare _ _ _ _ _ _ refs). }
  revert Hgo. cbv [mbind N_bind here act get]. intros Hgo.
  destruct (request inv) as [| | | | | | | | |o|o ? ?|o|? ?| | | | | |]; try done; by rewrite Hgo.
Qed.
End oracle.

(** C18 An unbound caller learns nothing about an order.  Two shops in which the named references are
    out of the caller's reach, whether no such order exists or it is someone else's, give the
    same outcome to a cancellation, a refund or a return of them, complete or with slots still
    missing, and the entry changes nothing in either: the same question, or the same way through
    identity with what the caller said, the model not even being asked. *)
Theorem unbound_reference_reveals_nothing {P PS R E} `{OtpPort P} policy (env1 env2 : node_env E) replies1 replies2 st inv refs
    (w1 w2 : World P PS R) v1 v2 ans :
  ¬ is_bound w1 → ¬ is_bound w2 → order_views w1 = inr v1 → order_views w2 = inr v2 →
  active_invocation st = Some inv → names (request inv) refs →
  (∀ ref, ref ∈ refs → out_of_reach w1 v1 ref ∧ out_of_reach w2 v2 ref) →
  ∃ o, support_capability_entry policy env1 replies1 st (ans, w1) = ((ans, w1), o) ∧
       support_capability_entry policy env2 replies2 st (ans, w2) = ((ans, w2), o).
Proof.
  intros Hb1 Hb2 Hv1 Hv2 Hinv Hn Ho.
  rewrite (unbound_entry policy env1 replies1 st inv w1 v1 refs ans Hb1 Hv1 Hinv Hn) by (intros; by apply Ho).
  rewrite (unbound_entry policy env2 replies2 st inv w2 v2 refs ans Hb2 Hv2 Hinv Hn) by (intros; by apply Ho).
  rewrite (unbound_answer_alike policy st v1 v2 (request inv) inv refs Hn).
  - destruct (blind_bind _ (λ ws, mret (with_clarification_lifecycle ws)) (unbound_answer_blind (P:=P) (PS:=PS) (R:=R) policy st v2 (request inv) inv)
      (λ _, blind_ret _) ans) as [o Hall]. by exists o.
  - intros ref Hin. destruct (Ho ref Hin) as [H1 H2]. by rewrite (out_of_reach_canonical _ _ _ H1), (out_of_reach_canonical _ _ _ H2).
Qed.

(** C39 A bound caller can tell whether someone else's order exists.  Denials are counted per order
    for the references that resolve and together for those that do not, and the count chooses
    the line.  So with a threshold above one, a bound caller whose last unresolved references
    brought the shared count to one below it hears the plain line for an order of someone else it
    has not asked about before, and the line that points to the store for a reference that
    resolves to nothing. *)
Theorem denial_line_reveals_existence {P PS R} `{OtpPort P} policy (w1 w2 : World P PS R) v1 v2 ref c ans :
  is_bound w1 → is_bound w2 → out_of_reach w1 v1 ref → out_of_reach w2 v2 ref →
  view_resolve v1 ref = Some c → view_resolve v2 ref = None →
  1 < auth_denials_before_human_offer policy →
  dget (canon ref) (w_auth_denials w1) = None →
  dget UNRESOLVED_ORDER (w_auth_denials w2) = Some (auth_denials_before_human_offer policy - 1) →
  (resolve_and_authorize policy v1 ref (ans, w1)).2 = Done (Some c, denied sd_order_match) ∧
  (resolve_and_authorize policy v2 ref (ans, w2)).2 = Done (None, denied sd_order_match_human_help) ∧
  SUPPORT_CLARIFICATION_LINES sd_order_match ≠ SUPPORT_CLARIFICATION_LINES sd_order_match_human_help.
Proof.
  intros Hb1 Hb2 Ho1 Ho2 Hv1 Hv2 Ht Hd1 Hd2. rewrite !bound_verdict by done. rewrite Hv1, Hv2. cbn [isSome]. cbv zeta.
  rewrite Hd1, Hd2. cbn [default from_option id].
  destruct (Z.leb_spec (auth_denials_before_human_offer policy) (0 + 1)); [lia|].
  destruct (Z.leb_spec (auth_denials_before_human_offer policy) (auth_denials_before_human_offer policy - 1 + 1)); [|lia].
  split_and!; [done|done|discriminate].
Qed.

(** ** Examples *)
(** A refund of ORD-2 whose amount the model fills in, from what the caller says. *)
Definition asking (text : string) (r : IntentRequest) : ReasoningState :=
  apply_update app [W_messages [HumanMessage "t-1" text]; W_consumed_turn_ids ["t-1"];
                    W_active_invocation (Some (mkInvocation "i-1" r "t-1"))] initial_state.
Definition refund_of (amount : option Z) : IntentRequest :=
  RefundOrder (Some (ExplicitOrderTarget "ORD-2")) amount (Some original).
Definition fills (cents : Z) (_ : nat) : res ModelReply :=
  inr ("", [mkToolCall tool_refund_amount [("amount_usd", JNum (DFinite cents (-2)))] "c-1"]).
Definition refund_entry (text : string) (cents : Z) :=
  support_capability_entry shop_policy shop_env (fills cents) (asking text (refund_of None)) ([], shop_world).

Definition refund_told (text : string) : ReasoningState :=
  apply_update app (writes_of (refund_entry text 9000)) (asking text (refund_of None)).

(** An amount is taken as stated wherever its digits end in a currency word or follow its sign:
    the cents of a larger amount, and a whole amount its cents follow, pass too. *)
Example stated_amount_fragments :
  caller_stated_refund_amount "please refund 12.90 dollars" 9000 = Some 9000 ∧
  caller_stated_refund_amount "please refund $90.50" 9000 = Some 9000 ∧
  caller_stated_refund_amount "please refund 90" 9000 = None.
Proof. by vm_compute. Qed.
(** A call the acknowledgement ignores still decides the route: the first call asks for a
    clarification, the ignored second one leaves the flow. *)
Example ignored_leave_decides :
  let st := asking "please refund it" (refund_of None) in
  let replies (_ : nat) : res ModelReply :=
    inr ("", [mkToolCall tool_support_clarification [] "c-1"; mkToolCall tool_leave_support [] "c-2"]) in
  let st' := apply_update app (writes_of (support_capability_entry shop_policy shop_env replies st ([], shop_world))) st in
  pending_clarification st' = Some (SupportClarification sd_amount) ∧
  route_after_support_capability_entry false st' = inr "owner_declined".
Proof. by vm_compute. Qed.

Lemma asking_nothing text r : nothing_prepared (asking text r).
Proof. by repeat split. Qed.
Lemma refund_of_validated a : at_least 1 a = true → was_validated (refund_of a).
Proof. intros Ha. exists (refund_of a). unfold refund_of. cbn. by rewrite Ha. Qed.
Lemma support_entry_authorized_witness :
  ∃ p, pending_refund (refund_told "please refund 90 dollars") = Some p ∧ pr_amount_usd p = 9000 ∧
    may_change shop_world (pr_order_id p).
Proof.
  assert (∃ s' ws, refund_entry "please refund 90 dollars" 9000 = (s', Done ws)) as (s' & ws & Hr)
    by (do 2 eexists; vm_compute; reflexivity).
  assert (∃ p, pending_refund (refund_told "please refund 90 dollars") = Some p ∧ pr_amount_usd p = 9000) as (p & Hp & Ha)
    by (eexists; split; vm_compute; reflexivity).
  exists p. split_and!; [exact Hp|exact Ha|].
  destruct (support_entry_authorized shop_policy app shop_env (fills 9000) (asking "please refund 90 dollars" (refund_of None))
    (mkInvocation "i-1" (refund_of None) "t-1") [] shop_world s' ws (asking_nothing _ _) eq_refl (refund_of_validated None eq_refl) Hr)
    as (_ & Hauth & _).
  apply Hauth. unfold refund_told in Hp. by rewrite Hr in Hp.
Defined.


Lemma support_entry_routed_witness :
  route_after_support_capability_entry false (refund_told "please refund 90 dollars") = inr "support_guardrail" ∧
  route_after_support_capability_entry false (refund_told "please refund it") = inr "support_clarify".
Proof.
  split; [|by vm_compute].
  assert (∃ s' ws, refund_entry "please refund 90 dollars" 9000 = (s', Done ws)) as (s' & ws & Hr)
    by (do 2 eexists; vm_compute; reflexivity).
  assert (pending_refund (refund_told "please refund 90 dollars") ≠ None) as Hp by (by vm_compute).
  assert (∀ old new, current_turn_called new tool_leave_support = true → current_turn_called (old ++ new) tool_leave_support = true)
    as Happ.
  { intros old new. unfold current_turn_called. rewrite reverse_app. generalize (reverse new) as l.
    induction l as [|[] l IH]; cbn; done. }
  destruct (support_entry_routed shop_policy app shop_env (fills 9000) (asking "please refund 90 dollars" (refund_of None))
    (mkInvocation "i-1" (refund_of None) "t-1") [] shop_world s' ws false Happ (asking_nothing _ _) eq_refl
    (refund_of_validated None eq_refl) eq_refl Hr) as (target & Ht & _ & Hrefund & _).
  unfold refund_told in Hp |- *. rewrite Hr in Hp |- *. cbn [writes_of snd] in Hp |- *. rewrite Ht. f_equal. by apply Hrefund.
Defined.

(** The shop seen by an unbound caller, by a caller bound to someone else, and without its orders. *)
Definition views_of (w : ShopWorld) : OrderViews := match order_views w with inr v => v | inl _ => no_views end.
Definition unbound_world : ShopWorld := set_identity new_identity shop_world.
Definition other_world (denials : list (string * Z)) : ShopWorld :=
  set_denials denials (set_identity (mkIdentity (Some (mkBound "cust-2" "m***@example.com")) ∅) shop_world).
Definition emptied (w : ShopWorld) : ShopWorld := set_orders (mkOrderStore "acme" [] [] 9001 [] 7001 [] ∅ [] 3001) w.
Definition socks : OrderCandidate := mkOrderCandidate "2" "ORD-2" "2 socks" 9000 "delivered".

Lemma not_there w : view_resolve (views_of w) "ORD-2" = None → out_of_reach w (views_of w) "ORD-2".
Proof. intros Hv c Hc. congruence. Qed.
Lemma someone_elses w : view_resolve (views_of w) "ORD-2" = Some socks →
  order_mutation_allowed "ORD-2" (w_orders w) (w_guest w) (w_identity w) = inr false →
  out_of_reach w (views_of w) "ORD-2".
Proof. intros Hv Hm c Hc. rewrite Hv in Hc. injection Hc as <-. by split. Qed.

Lemma unbound_reference_reveals_nothing_witness :
  let st := asking "refund ord 2" (refund_of None) in
  let run replies (w : ShopWorld) := support_capability_entry shop_policy shop_env replies st ([], w) in
  (run (fills 100) unbound_world).2 = (run (fills 9000) (emptied unbound_world)).2 ∧
  (run (fills 100) unbound_world).1.2 = unbound_world.
Proof.
  intros st run.
  assert (out_of_reach unbound_world (views_of unbound_world) "ORD-2") as Ho1 by (apply someone_elses; by vm_compute).
  assert (out_of_reach (emptied unbound_world) (views_of (emptied unbound_world)) "ORD-2") as Ho2 by (apply not_there; by vm_compute).
  destruct (unbound_reference_reveals_nothing shop_policy shop_env shop_env (fills 100) (fills 9000) st (mkInvocation "i-1" (refund_of None) "t-1")
    ["ORD-2"] unbound_world (emptied unbound_world) (views_of unbound_world) (views_of (emptied unbound_world)) []) as (o & H1 & H2).
  - intros H; apply H; by vm_compute.
  - intros H; apply H; by vm_compute.
  - by vm_compute.
  - by vm_compute.
  - reflexivity.
  - reflexivity.
  - intros ref Hin. apply elem_of_cons in Hin as [Hin|Hin]; [|by apply not_elem_of_nil in Hin]. rewrite Hin. by split.
  - split; [exact (eq_trans (f_equal snd H1) (eq_sym (f_equal snd H2)))|exact (f_equal (λ x, x.1.2) H1)].
Defined.

(** With the default threshold of two, after one reference that resolved to nothing. *)
Lemma denial_line_reveals_existence_witness :
  let policy := shop_policy in
  auth_denials_before_human_offer policy = 2 ∧
  (resolve_and_authorize policy (views_of (other_world [(UNRESOLVED_ORDER, 1)])) "ORD-2"
     ([], other_world [(UNRESOLVED_ORDER, 1)])).2 = Done (Some socks, denied sd_order_match) ∧
  (resolve_and_authorize policy (views_of (emptied (other_world [(UNRESOLVED_ORDER, 1)]))) "ORD-2"
     ([], emptied (other_world [(UNRESOLVED_ORDER, 1)]))).2 = Done (None, denied sd_order_match_human_help).
Proof.
  intros policy. split; [by vm_compute|].
  destruct (denial_line_reveals_existence policy (other_world [(UNRESOLVED_ORDER, 1)])
    (emptied (other_world [(UNRESOLVED_ORDER, 1)])) (views_of (other_world [(UNRESOLVED_ORDER, 1)]))
    (views_of (emptied (other_world [(UNRESOLVED_ORDER, 1)]))) "ORD-2" socks [])
    as (H1 & H2 & _);
    [done|done|apply someone_elses; by vm_compute|apply not_there; by vm_compute|by vm_compute|by vm_compute|by vm_compute|
     by vm_compute|by vm_compute|].
  by split.
Defined.

Lemma shop_ids_normal : ids_normal (w_orders shop_world).
Proof.
  split.
  - intros k e Hin. repeat (apply elem_of_cons in Hin as [[= -> ->]|Hin]; [by vm_compute|]). by destruct (not_elem_of_nil _ Hin).
  - apply (bool_decide_unpack _). by vm_compute.
  - intros r Hin. by destruct (not_elem_of_nil _ Hin).
Qed.
Lemma order_list_own_witness :
  let st := asking "what have I ordered" (ListOrders scope_account) in
  ∃ orders rev, Forall (λ c, may_change shop_world (oc_order_id c)) orders ∧ (0 < length orders)%nat ∧
    writes_of (support_capability_render_node demo_fingerprint shop_env "Anything else?" st ([], shop_world)) =
      [W_active_invocation None; W_execution_owner None; W_session_revision rev;
       say (list_sentence scope_account orders +:+ " Anything else?"); W_assistant_prompt (Some (mkPrompt "t-1"))].
Proof.
  intros st.
  assert (∃ s' ws, support_capability_render_node demo_fingerprint shop_env "Anything else?" st ([], shop_world) = (s', Done ws))
    as (s' & ws & Hr) by (do 2 eexists; vm_compute; reflexivity).
  destruct (order_list_own demo_fingerprint shop_env "Anything else?" st [] shop_world s' ws shop_ids_normal Hr)
    as (inv & scope & orders & rev & Hi & Hreq & Hlist & Hown & Hws & _).
  injection Hi as <-. injection Hreq as <-. exists orders, rev. split; [exact Hown|]. split.
  { destruct Hlist as (b & Hb & Hl). vm_compute in Hb. injection Hb as <-. vm_compute in Hl. injection Hl as <-. cbn. lia. }
  rewrite Hr. destruct Hws as (turn & Hturn & ->). vm_compute in Hturn. by injection Hturn as <-.
Defined.
