(* ===== verification/CartFlow.v ===== *)
(** * The cart and checkout flow (agents/cart/flow.py)

    The entry that resolves a typed cart request against the live catalog and
    cart, the readback and the effect of a confirmed mutation, and the
    guardrail, readback and effect of a whole-cart placement.

    The catalog is an argument.  Inputs of a run of the entry: what the
    selector model replies to each prompt, what the amount reader finds in the
    caller's own lines ([None] when it is unavailable), and the closing line
    the shared rotation is at.  Prompts and telemetry are not modelled. *)

From S2P Require Import Prelude PyText Money Cart Orders OrderScope OrderStore OrderLedger Spoken Catalog Consent Confirmation.
From S2P Require Import SessionState SessionCommit SessionRefine Requests Reasoning Nodes Clarification SupportBase Caller IdentityFlow.
Local Open Scope Z_scope.
Local Open Scope list_scope.

(** ** Contracts and copy *)
Definition PLACE_ORDER_POLICY : res ToolConfirmationPolicy :=
  make_ToolConfirmationPolicy "place_order" ["line_items"; "total_amount"] explicit_yes.

Definition CART_CLARIFICATION_LINES (d : CartClarificationDetail) : string :=
  match d with
  | cd_action => "What would you like to do with your cart?"
  | cd_item => "Which item would you like?"
  | cd_quantity => "How many would you like?"
  end.
Definition EMPTY_CART_CHECKOUT_LINE : string := "Your cart's empty - what would you like to add?".
Definition EMPTY_CART_REVIEW_LINE : string := "Your cart's empty right now - what would you like to add?".

Definition placement_confirmation_phrase (pending : PendingPlacement) (policy : ToolConfirmationPolicy)
    : res string :=
  lines ← speak_lines (pp_lines pending);
  let total := usd (pp_total_usd pending) in
  let rendered := [("line_items", lines); ("total_amount", total)] in
  let phrase :=
    match pp_duplicate_of pending with
    | Some earlier => "a SECOND order of " +:+ lines +:+ " for another " +:+ total +:+
        "; your earlier order (" +:+ earlier +:+ ") is already placed"
    | None => "an order for " +:+ lines +:+ ", " +:+ total +:+ " total"
    end in
  validate_confirmation_rendering policy rendered phrase.

(** [_ProposeSlots.model_validate]: no other key, a text or null, a strict non-negative integer
    or null. *)
Record ProposeSlots := mkSlots { ps_candidate_key : option string; ps_quantity : option Z }.
Definition validate_slots (args : list (string * json)) : res ProposeSlots :=
  requires (forallb (λ kv, bool_decide (kv.1 = "candidate_key" ∨ kv.1 = "quantity")) args)
    ValidationError "" ;;
  key ← match dget "candidate_key" args with
        | None | Some JNull => inr None
        | Some (JStr k) => inr (Some k)
        | _ => raises ValidationError ""
        end;
  quantity ← match dget "quantity" args with
             | None | Some JNull => inr None
             | Some (JNum (Money.DFinite n e)) =>
                 if (e =? 0) && (0 <=? n) then inr (Some n) else raises ValidationError ""
             | _ => raises ValidationError ""
             end;
  inr (mkSlots key quantity).

(** [turns.index(opened_turn_id)] raises when the turn is missing; the caller's lines of the
    turns since then, without the last, and the current one. *)
Definition request_caller_lines (st : ReasoningState) (opened_turn_id current : string) : res (list string) :=
  match list_find (λ t, t = opened_turn_id) (consumed_turn_ids st) with
  | None => raises ValueError "is not in list"
  | Some (i, _) =>
      let earlier := drop i (removelast (consumed_turn_ids st)) in
      inr ((ce_text <$> base.filter (λ e, ce_speaker e = caller ∧ ce_turn_id e ∈ earlier) (conversation st))
           ++ [current])
  end.

#[export] Instance CartQuantitySource_eq_dec : EqDecision CartQuantitySource.
Proof. solve_decision. Defined.

(** The text of the committed message of this turn. *)
Definition current_text (st : ReasoningState) : option string :=
  match current_committed_user_message st with Some m => human_content m | None => None end.

(** A cart line or a catalog product, as an item to choose. *)
Definition line_item (l : CartLine) : CatalogProduct := mkProduct (cl_sku l) (cl_name l) (cl_price_usd l).

(** What the exceptions [(TypeError, ValueError)] catch; pydantic's error is a [ValueError]. *)
Definition proposal_error (e : exc) : bool :=
  bool_decide (exc_cls e = TypeError ∨ exc_cls e = ValueError ∨ exc_cls e = ValidationError).

Section cart_flow.
Context {P PS R E : Type} `{SessionPersistence PS E}.
Context (policy : PolicyContext) (fingerprint : SessionRequest → string) (catalog : FixtureCatalog).
Notation W := (World P PS R).
Notation node := (N W (list Write)).
Implicit Types (w : W) (env : node_env E) (st : ReasoningState).

Definition cart_items w : list CatalogProduct := line_item <$> view (w_cart w).

Definition mutation_ack (added : list CartLine) (fragments : list string) (close : string) : res string :=
  parts ← (match added with
           | [] => inr []
           | _ => l ← speak_lines added; inr ["added " +:+ l +:+ " to your cart"]
           end);
  let ack := capitalize_head (join ", " (parts ++ fragments)) in
  inr (ack +:+ ". " +:+ close).

(** [_mint_placement], with the two dictionaries it is merged into. *)
Definition mint_placement env w : res PendingPlacement :=
  make_PendingPlacement (Cart.snapshot (w_cart w)) (cart_total (w_cart w)) (ne_fresh env 0) (ne_now env) None.

Definition mint_mutation env w (operation : CartOperation) (item : CatalogProduct) (quantity : option Z)
    : res PendingCartMutation :=
  let current := List.find (λ l, String.eqb (cl_sku l) (sku item)) (view (w_cart w)) in
  make_PendingCartMutation operation (sku item) (name item) (price_usd item) quantity
    (match current with Some l => cl_quantity l | None => 0 end) (ne_fresh env 0) (ne_now env).

Definition cart_clarification_result st (new_messages : list Message) (detail : CartClarificationDetail)
    (invocation : ActiveInvocation) : node :=
  owner ← val (invocation_clarification_owner st);
  let step := advance_clarification st owner (cart_clarification_reask_max policy) in
  if st_exhausted step then
    mret [W_messages new_messages; W_execution_owner None; W_active_invocation None;
          W_pending_clarification None]
  else
    mret [W_messages new_messages; W_execution_owner (Some owner_cart);
          W_pending_clarification (Some (CartClarification detail));
          W_clarification_liveness (st_liveness step); W_active_invocation (Some invocation)].

Definition leave_result (new_messages : list Message) (call_id : string) : list Write :=
  [W_messages (new_messages ++ [ToolMessage "left cart" call_id]); W_execution_owner None;
   W_active_invocation None; W_pending_cart_mutation None; W_pending_placement None;
   W_pending_clarification None].

Definition empty_cart_result (new_messages : list Message) : list Write :=
  [W_messages new_messages; W_active_invocation None; W_execution_owner None;
   W_pending_ack (Some (mkAck EMPTY_CART_REVIEW_LINE false))].

(** ** The entry *)
Definition domain w (operation : CartOperation) (item : option CartItemSelector) : res (list CatalogProduct) :=
  if bool_decide (operation = add) then
    match item with
    | Some (CartItemQuery query) => search catalog query
    | Some (CartItemChoices skus) => inr (omap id (resolve_products catalog skus))
    | Some (ResolvedCartItemRef s) => inr (omap id (resolve_products catalog [s]))
    | None => browse catalog
    end
  else inr (cart_items w).

Definition item_by_sku (items : list CatalogProduct) : list (string * CatalogProduct) :=
  dict_of ((λ i, (sku i, i)) <$> items).
Definition find_item (items : list CatalogProduct) (s : string) : option CatalogProduct :=
  List.find (λ i, String.eqb (sku i) s) items.
Definition by_key (items : list CatalogProduct) : list (string * CatalogProduct) :=
  dict_of (zip (cand_key <$> number_candidates items) items).

(** The slots of a [ModifyCart] request. *)
Definition slots (r : IntentRequest) : option (CartOperation * option CartItemSelector * option Z) :=
  match r with ModifyCart operation item quantity => Some (operation, item, quantity) | _ => None end.

(** [retain]: the invocation with its request replaced. *)
Definition retain (invocation : ActiveInvocation) (operation : CartOperation) (item : option CartItemSelector)
    (quantity : option Z) : res ActiveInvocation :=
  updated ← validate_request (ModifyCart operation item quantity);
  with_request updated invocation.

(** The proposal of one response: an error to correct, or the request it leads to. *)
Definition slot_proposal (operation : CartOperation) (item : option CartItemSelector) (quantity : option Z)
    (selecting_item : bool) (choices : list (string * CatalogProduct)) (guarded : bool)
    (amounts : option (list Z)) (args : list (string * json)) : res IntentRequest :=
  proposal ← validate_slots args;
  requires (isSome (ps_candidate_key proposal) || isSome (ps_quantity proposal)) ValueError
    "proposal supplied no missing field" ;;
  requires (negb (isSome (ps_candidate_key proposal)) || selecting_item) ValueError "item is already fixed" ;;
  requires (negb (isSome (ps_quantity proposal) && isSome quantity)) ValueError "quantity is already fixed" ;;
  new_item ← match ps_candidate_key proposal with
             | None => inr item
             | Some key =>
                 match dget key choices with
                 | None => raises ValueError "unknown candidate key"
                 | Some chosen => inr (Some (ResolvedCartItemRef (sku chosen)))
                 end
             end;
  let stated :=
    match ps_quantity proposal with
    | Some q =>
        if guarded then
          match amounts with
          | Some found => if bool_decide (q ∈ found) then Some q else None
          | None => None
          end
        else Some q
    | None => None
    end in
  let new_quantity := match stated with Some q => Some q | None => quantity end in
  requires (negb (bool_decide (operation = add)
                  && match new_quantity with Some q => q <? 1 | None => false end)) ValueError
    "add quantity must be positive" ;;
  validate_request (ModifyCart operation new_item new_quantity).

Definition tool_slots : string := "provide_cart_slots".
Definition tool_cart_clarification : string := "request_cart_clarification".
Definition tool_leave_cart : string := "leave_cart".

(** The two attempts of the selector: what the node returns, or the invocation it goes on with. *)
Fixpoint select_go st (replies : nat → res ModelReply) (selecting_item guarded : bool)
    (choices : list (string * CatalogProduct)) (amounts : option (list Z)) (attempts : list nat)
    (invocation : ActiveInvocation) (operation : CartOperation) (item : option CartItemSelector)
    (quantity : option Z) (new_messages : list Message) : N W (list Write + ActiveInvocation * list Message) :=
  let clarify detail ms inv := u ← cart_clarification_result st ms detail inv; mret (inl u) in
  let missing := if selecting_item then cd_item else cd_quantity in
  match attempts with
  | [] => clarify missing new_messages invocation
  | attempt :: attempts =>
      response ← val (replies attempt);
      match response.2 with
      | [] => clarify missing new_messages invocation
      | call :: _ =>
          let new_messages := new_messages ++ [AIMessage response.1 response.2]
                                ++ ack_extra_tool_calls response.2 in
          if String.eqb (tc_name call) tool_leave_cart then
            mret (inl (leave_result new_messages (tc_id call)))
          else if String.eqb (tc_name call) tool_cart_clarification then
            clarify missing (new_messages ++ [ToolMessage "cart clarification requested" (tc_id call)]) invocation
          else if String.eqb (tc_name call) tool_slots then
            match slot_proposal operation item quantity selecting_item choices guarded amounts (tc_args call) with
            | inl e =>
                if proposal_error e then
                  select_go st replies selecting_item guarded choices amounts attempts invocation operation item
                    quantity (new_messages ++ [ToolMessage ("The proposal was invalid. Send only fields the caller " +:+
                      "supplied that are still missing.") (tc_id call)])
                else val (inl e)
            | inr updated =>
                let new_messages := new_messages ++ [ToolMessage "cart request updated" (tc_id call)] in
                invocation ← val (with_request updated invocation);
                if is_slot_complete updated then mret (inr (invocation, new_messages))
                else
                  clarify (match slots updated with
                           | Some (_, (None | Some (CartItemChoices _)), _) => cd_item
                           | _ => cd_quantity
                           end) new_messages invocation
            end
          else
            select_go st replies selecting_item guarded choices amounts attempts invocation operation item quantity
              (new_messages ++ [unknown_tool_result (tc_id call) tool_leave_cart])
      end
  end.

(** The last step: the resolved item is looked up again in the live domain and the mutation minted. *)
Definition mint_live env st w (invocation : ActiveInvocation) (new_messages : list Message) : node :=
  match slots (request invocation) with
  | Some (operation, Some (ResolvedCartItemRef s) as item, quantity) =>
      items ← val (domain w operation item);
      match find_item items s with
      | None =>
          if negb (bool_decide (operation = add)) && bool_decide (items = []) then
            mret (empty_cart_result new_messages)
          else
            invocation ← val (retain invocation operation None quantity);
            cart_clarification_result st new_messages cd_item invocation
      | Some live =>
          mutation ← val (mint_mutation env w operation live quantity);
          mret [W_messages new_messages; W_active_invocation None; W_execution_owner (Some owner_cart);
                W_pending_cart_mutation (Some mutation)]
      end
  | _ => fail TypeError "complete cart mutation requires a resolved item"
  end.

(** Once the item is a choice or resolved: the bare number, the selector, the mint. *)
Definition fill_slots env st w (replies : nat → res ModelReply) (reader : list string → option (list Z))
    (invocation : ActiveInvocation) (operation : CartOperation) (item : option CartItemSelector)
    (quantity : option Z) (choices : list (string * CatalogProduct)) : node :=
  let current := current_text st in
  let selecting_item := match item with None | Some (CartItemChoices _) => true | _ => false end in
  let spoken :=
    match item, quantity, current with
    | Some (ResolvedCartItemRef _), None, Some text =>
        if bool_decide (operation = remove) then None
        else
          match standalone_quantity text with
          | Some q => if negb (bool_decide (operation = add)) || (0 <? q) then Some q else None
          | None => None
          end
    | _, _, _ => None
    end in
  let parsed : N W (ActiveInvocation * option Z) :=
    match spoken with
    | Some q => i ← val (retain invocation operation item (Some q)); mret (i, Some q)
    | None => mret (invocation, quantity)
    end in
  '(invocation, quantity) ← parsed;
  if selecting_item || negb (is_slot_complete (ModifyCart operation item quantity)) then
    need (negb (bool_decide (consumed_turn_ids st = []))) IndexError "tuple index out of range" ;;
    match current with
    | None => cart_clarification_result st [] (if selecting_item then cd_item else cd_quantity) invocation
    | Some text =>
        let guarded := bool_decide (cart_quantity_source policy = this_request ∧ operation ≠ remove) in
        let reading : N W (option (list Z)) :=
          if guarded then
            lines ← val (request_caller_lines st (opened_turn_id invocation) text);
            mret (reader lines)
          else mret None in
        amounts ← reading;
        selected ← select_go st replies selecting_item guarded choices amounts [0%nat; 1%nat] invocation
                     operation item quantity [];
        match selected with
        | inl update => mret update
        | inr (invocation, new_messages) => mint_live env st w invocation new_messages
        end
    end
  else mint_live env st w invocation [].

(** A bare assent to something that was not offered. *)
Definition bare_assent st (invocation : ActiveInvocation) (operation : CartOperation)
    (item : option CartItemSelector) : bool :=
  let offered :=
    match live_product_offer st (Some (opened_turn_id invocation)) with
    | Some offer => if bool_decide (operation = add) then po_skus offer else []
    | None => []
    end in
  bool_decide (operation = add) && negb (isSome item) && bool_decide (offered = [])
  && match current_text st with
     | Some text => bool_decide (classify_consent text = yes)
     | None => false
     end.

Definition modify_cart env (replies : nat → res ModelReply) (reader : list string → option (list Z))
    st w (invocation : ActiveInvocation) (operation : CartOperation) (item : option CartItemSelector)
    (quantity : option Z) : node :=
  let clarify detail inv := cart_clarification_result st [] detail inv in
  if bare_assent st invocation operation item then clarify cd_item invocation
  else
    items ← val (domain w operation item);
    if negb (bool_decide (operation = add)) && bool_decide (items = []) then mret (empty_cart_result [])
    else
      match item with
      | Some (CartItemQuery query) =>
          let matches := if bool_decide (operation = add) then items
                         else match_named_items name items query in
          match matches with
          | [] => invocation ← val (retain invocation operation None quantity); clarify cd_item invocation
          | [one] =>
              let item := Some (ResolvedCartItemRef (sku one)) in
              invocation ← val (retain invocation operation item quantity);
              match find_item items (sku one) with
              | None => invocation ← val (retain invocation operation None quantity); clarify cd_item invocation
              | Some _ => fill_slots env st w replies reader invocation operation item quantity []
              end
          | _ =>
              invocation ← val (retain invocation operation (Some (CartItemChoices (sku <$> matches))) quantity);
              clarify cd_item invocation
          end
      | Some (CartItemChoices skus) =>
          let choices := (λ s, dget s (item_by_sku items)) <$> skus in
          if existsb (λ c, negb (isSome c)) choices then
            invocation ← val (retain invocation operation None quantity); clarify cd_item invocation
          else fill_slots env st w replies reader invocation operation item quantity (by_key (omap id choices))
      | Some (ResolvedCartItemRef s) =>
          match find_item items s with
          | None => invocation ← val (retain invocation operation None quantity); clarify cd_item invocation
          | Some _ => fill_slots env st w replies reader invocation operation item quantity []
          end
      | None => fill_slots env st w replies reader invocation operation item quantity (by_key items)
      end.

Definition cart_capability_entry_node env (replies : nat → res ModelReply)
    (reader : list string → option (list Z)) st : node :=
  match active_invocation st with
  | Some invocation =>
      w ← here;
      match request invocation with
      | PlaceOrder =>
          if is_empty (w_cart w) then
            mret [W_active_invocation None; W_execution_owner None;
                  W_pending_ack (Some (mkAck EMPTY_CART_CHECKOUT_LINE false))]
          else
            pending ← val (mint_placement env w);
            mret [W_active_invocation None; W_execution_owner (Some owner_cart); W_pending_placement (Some pending)]
      | ModifyCart operation item quantity => modify_cart env replies reader st w invocation operation item quantity
      | _ => fail TypeError "cart capability entry requires a typed Cart invocation"
      end
  | None => fail TypeError "cart capability entry requires a typed Cart invocation"
  end.

(** ** Mutations *)
Definition last_turn st : N W string :=
  match last (consumed_turn_ids st) with
  | Some t => mret t
  | None => fail IndexError "list index out of range"
  end.

(** [ack_node]; [close] is the rotation's next line. *)
Definition cart_ack_node (close : string) st : node :=
  let ack := default (mkAck close true) (pending_ack st) in
  if ack_open_help ack then
    turn ← last_turn st;
    mret [W_pending_ack None; say (ack_text ack); W_assistant_prompt (Some (mkPrompt turn))]
  else mret [W_pending_ack None; say (ack_text ack)].

(** [f"{quantity}"] *)
Definition str_quantity (q : option Z) : string := match q with Some n => str_int n | None => "None" end.

Definition mutation_action (p : PendingCartMutation) : string :=
  match pc_operation p with
  | add => "add " +:+ str_quantity (pc_quantity p) +:+ " of " +:+ pc_name p +:+ " to your cart"
  | remove => "remove " +:+ pc_name p +:+ " from your cart"
  | set_quantity_op => "set " +:+ pc_name p +:+ " to " +:+ str_quantity (pc_quantity p) +:+ " in your cart"
  end.

Definition cart_mutation_ends (line : string) : list Write :=
  [W_pending_cart_mutation None; W_execution_owner None; say line].

Definition mutation_confirm_node env st : node :=
  match pending_cart_mutation st with
  | None => fail TypeError "cart mutation confirmation requires a pending mutation"
  | Some pending =>
      if pending_ttl_seconds policy <? ne_now env - pc_created_at pending then
        mret (cart_mutation_ends "That confirmation expired, so I haven't changed your cart.")
      else
        decision ← readback_decision ("Just to confirm: " +:+ mutation_action pending +:+ "?")
                     ("Sorry - just to be clear: " +:+ mutation_action pending +:+ ". Please say yes or no.") false;
        let declined line :=
          turn ← last_turn st;
          reference ← val (make_ProductTurn [pc_sku pending] turn);
          mret [W_pending_cart_mutation None; W_execution_owner None;
                W_product_reference (Some reference); say line] in
        match verdict decision with
        | human =>
            source ← the (handoff_source decision);
            mret [W_pending_cart_mutation None; W_execution_owner None; hand_to hr_other source]
        | decided no => declined "Okay, I won't change your cart."
        | decided unclear => declined "I didn't get a clear yes, so I haven't changed your cart."
        | decided yes => mret []
        end
  end.

Definition removed_fragment (record : CartMutationRecord) : string :=
  if bool_decide (cm_outcome record = applied) then "removed the " +:+ cm_name record +:+ " from your cart"
  else "the " +:+ cm_name record +:+ " wasn't in your cart".

Definition mutation_result_ack (record : CartMutationRecord) (close : string) : res string :=
  match cm_operation record with
  | add =>
      match cm_quantity record with
      | None => raises ValueError "authoritative add result is missing its applied delta"
      | Some q =>
          line ← make_CartLine (cm_sku record) (cm_name record) (cm_price_usd record) q;
          mutation_ack [line] [] close
      end
  | remove => mutation_ack [] [removed_fragment record] close
  | set_quantity_op =>
      if cm_final_quantity record =? 0 then mutation_ack [] [removed_fragment record] close
      else
        line ← make_CartLine (cm_sku record) (cm_name record) (cm_price_usd record) (cm_final_quantity record);
        l ← speak_lines [line];
        mutation_ack [] ["updated to " +:+ l] close
  end.

(** [finish_mutation]; its revision is the given one or the session's. *)
Definition finish_mutation (close : string) (record : CartMutationRecord) (turn_id : string)
    (revision : option Z) (speak_now : bool) : node :=
  text ← val (mutation_result_ack record close);
  w ← here;
  let rev := default (SessionState.revision (coordinator (w_session w))) revision in
  mret ([W_pending_cart_mutation None; W_execution_owner None; W_session_revision rev] ++
        (if speak_now then [say text; W_assistant_prompt (Some (mkPrompt turn_id))]
         else [W_pending_ack (Some (mkAck text true))])).

(** The committed value of a cart mutation is its record. *)
Definition committed_record (r : SessionOperationResult) : N W CartMutationRecord :=
  match r with
  | CartMutationSessionOperationResult record => mret record
  | EmptySessionOperationResult => fail TypeError ""
  end.

Definition mutation_apply_node env (close : string) st : node :=
  match pending_cart_mutation st with
  | None => fail TypeError "cart mutation apply requires a pending mutation"
  | Some pending =>
      committed ← on_session (apply_cart_mutation fingerprint (ne_publish env) (pc_idempotency_key pending)
                    (pc_operation pending) (pc_sku pending) (pc_name pending)
                    (Money.dec_of_cents (pc_price_usd pending)) (pc_quantity pending)
                    (pc_pre_confirm_quantity pending));
      record ← committed_record committed.1;
      turn ← last_turn st;
      finish_mutation close record turn (Some committed.2) false
  end.

Definition reconcile_mutation (close : string) (record : CartMutationRecord) (turn_id : string) : node :=
  finish_mutation close record turn_id None true.

Definition cart_clarify_node st : node :=
  match pending_clarification st with
  | Some (CartClarification detail) =>
      w ← here;
      let line :=
        match detail, request <$> active_invocation st with
        | cd_item, Some (ModifyCart operation (Some (CartItemChoices skus)) _) =>
            let items := if bool_decide (operation = add) then omap id (resolve_products catalog skus)
                         else cart_items w in
            let choices := (λ s, dget s (item_by_sku items)) <$> skus in
            if forallb isSome choices then
              "I found multiple matches: " +:+
              join "; " (imap (λ i c, "option " +:+ str_int (Z.of_nat i + 1) +:+ ", " +:+ name c +:+ " at " +:+
                                      usd (price_usd c)) (omap id choices)) +:+
              ". Which item would you like?"
            else CART_CLARIFICATION_LINES detail
        | _, _ => CART_CLARIFICATION_LINES detail
        end in
      mret [W_pending_clarification None; W_execution_owner (Some owner_cart); say line]
  | _ => fail TypeError "cart clarify node requires CartClarification"
  end.

(** ** Placement *)
Definition with_duplicate (order_id : string) (p : PendingPlacement) : PendingPlacement :=
  mkPlacement (pp_lines p) (pp_total_usd p) (pp_idempotency_key p) (pp_created_at p) (Some order_id).

Definition placement_ends (line : string) : list Write :=
  [W_pending_placement None; W_execution_owner None; say line].

Definition cart_guardrail_node st : node :=
  pending ← the (pending_placement st);
  if max_order_value_usd policy <? pp_total_usd pending then
    mret (placement_ends ("I'm sorry - that order comes to " +:+ usd (pp_total_usd pending) +:+
      ", which is more than I'm able to place on this call. Your cart's still saved if you'd like to change it."))
  else
    w ← here;
    dup ← val (identical_cart_order (w_orders w) (pp_lines pending) (w_guest w));
    match dup with
    | Some order => mret [W_pending_placement (Some (with_duplicate (po_order_id order) pending))]
    | None => mret []
    end.

Definition cart_confirm_node env st : node :=
  pending ← the (pending_placement st);
  if pending_ttl_seconds policy <? ne_now env - pp_created_at pending then
    mret (placement_ends ("That confirmation sat for a while, so I haven't placed anything. Your " +:+
      "cart's still saved - just tell me when you're ready."))
  else
    contract ← val PLACE_ORDER_POLICY;
    phrase ← val (placement_confirmation_phrase pending contract);
    decision ← readback_decision ("Just to confirm: shall I place " +:+ phrase +:+ "?")
                 ("Sorry - just to be clear: shall I place " +:+ phrase +:+ "? Yes or no?") false;
    match verdict decision with
    | human =>
        source ← the (handoff_source decision);
        mret [W_pending_placement None; W_execution_owner None; hand_to hr_other source]
    | decided no => mret (placement_ends
        "Okay, I won't place it - your cart's still saved if you want to change anything.")
    | decided unclear => mret (placement_ends
        "I didn't get a clear yes, so I haven't placed the order - your cart's still saved.")
    | decided yes => mret []
    end.

Definition finish_placement env (idempotency_key : string) (placed : PlacedOrder) : node :=
  committed ← on_session (complete_placement fingerprint (ne_publish env) idempotency_key (po_order_id placed));
  l ← val (speak_lines (po_lines placed));
  mret [W_pending_placement None; W_execution_owner None; W_session_revision committed.2;
        say ("Done - your order for " +:+ l +:+ " is placed. Your order number is " +:+ po_order_id placed +:+ ".")].

Definition cart_place_node env st : node :=
  pending ← the (pending_placement st);
  placed ← on_orders (place_cart (pp_idempotency_key pending) (pp_lines pending)
                        (Money.dec_of_cents (pp_total_usd pending)));
  finish_placement env (pp_idempotency_key pending) placed.

(** ** The router of the entry *)
Inductive CartRoute := cr_leave | cr_mutation_confirm | cr_place | cr_ack | cr_clarify.
#[export] Instance CartRoute_eq_dec : EqDecision CartRoute.
Proof. solve_decision. Defined.

Definition route_after_cart_entry st : res CartRoute :=
  if current_turn_called (messages st) tool_leave_cart then inr cr_leave
  else if isSome (pending_cart_mutation st) then inr cr_mutation_confirm
  else if isSome (pending_placement st) then inr cr_place
  else if isSome (pending_ack st) then inr cr_ack
  else
    match pending_clarification st with
    | Some (CartClarification _) => inr cr_clarify
    | Some _ => raises TypeError "cart assemble produced a non-cart clarification"
    | None => raises RuntimeError "cart assemble produced no outcome"
    end.
End cart_flow.

(** ** Lemmas of the entry *)
Definition written_mutation (ws : list Write) : option (option PendingCartMutation) :=
  written (λ w, match w with W_pending_cart_mutation p => Some p | _ => None end) ws.

Lemma requires_bind {A} b c m (k : res A) v : (requires b c m ≫= λ _, k) = inr v → b = true ∧ k = inr v.
Proof. apply requires_then. Qed.

Lemma validate_slots_kept operation item quantity r :
  validate_request (ModifyCart operation item quantity) = inr r →
  ∃ item', slots r = Some (operation, item', quantity).
Proof.
  cbn [validate_request]. destruct (mapO validate_item item) as [e|item']; [done|]. cbn.
  intros (_ & H)%requires_bind. destruct (quantity_matches_operation operation quantity); [done|].
  cbn in H. injection H as <-. by exists item'.
Qed.

Lemma with_request_slots r i j operation item quantity :
  with_request r i = inr j → slots r = Some (operation, item, quantity) →
  ∃ item', slots (request j) = Some (operation, item', quantity).
Proof.
  unfold with_request, make_ActiveInvocation. intros Hw Hs.
  destruct r; try done. injection Hs as -> -> ->.
  destruct (Verification.non_empty_text (invocation_id i)) as [e|id]; [done|]. cbn [mbind res_bind] in Hw.
  destruct (validate_request (ModifyCart operation item quantity)) as [e|r] eqn:Hv; [done|]. cbn [mbind res_bind] in Hw.
  destruct (Verification.non_empty_text (opened_turn_id i)) as [e|t]; [done|]. cbn [mbind res_bind] in Hw.
  apply requires_bind in Hw as [_ Hw]. injection Hw as <-. by eapply validate_slots_kept.
Qed.

Lemma retain_slots i operation item quantity j : retain i operation item quantity = inr j →
  ∃ item', slots (request j) = Some (operation, item', quantity).
Proof.
  unfold retain. destruct (validate_request _) as [e|r] eqn:Hv; [done|]. cbn [mbind res_bind]. intros Hw.
  destruct (validate_slots_kept _ _ _ _ Hv) as [item' Hs]. by eapply with_request_slots.
Qed.

Lemma mint_fields operation s n price quantity pre key created m :
  make_PendingCartMutation operation s n price quantity pre key created = inr m →
  m = mkPendingCart operation s n price quantity pre key created.
Proof.
  unfold make_PendingCartMutation. intros (_ & H)%requires_bind. apply requires_bind in H as (_ & H).
  apply requires_bind in H as (_ & H). apply requires_bind in H as (_ & H).
  apply requires_bind in H as (_ & H). by injection H as <-.
Qed.

Lemma find_item_spec items s i : find_item items s = Some i → i ∈ items ∧ sku i = s.
Proof. intros [Hin Heq]%List.find_some. split; [by apply list_elem_of_In|by apply String.eqb_eq]. Qed.

Section entry_laws.
Context {P PS R E : Type} `{SessionPersistence PS E}.
Context (policy : PolicyContext) (catalog : FixtureCatalog).
Notation W := (World P PS R).
Notation node := (N W (list Write)).
Implicit Types (w : W) (env : node_env E) (st : ReasoningState).

(** The caller's own lines since the turn [opened], oldest first, and [text], its line of this
    turn: the assistant's lines and the turns before [opened] are left out. *)
Definition heard_since st (opened text : string) (lines : list string) : Prop :=
  ∃ older newer, consumed_turn_ids st = older ++ opened :: newer ∧ opened ∉ older ∧
    lines = (ce_text <$> base.filter (λ e, ce_speaker e = caller ∧ ce_turn_id e ∈ removelast (opened :: newer))
                           (conversation st)) ++ [text].

Lemma request_lines_heard st opened text lines :
  request_caller_lines st opened text = inr lines → heard_since st opened text lines.
Proof.
  unfold request_caller_lines. destruct (list_find _ _) as [[i t]|] eqn:Hf; [|done]. intros [= <-].
  apply list_find_Some in Hf as (Hi & -> & Hfirst).
  exists (take i (consumed_turn_ids st)), (drop (S i) (consumed_turn_ids st)).
  assert (consumed_turn_ids st = take i (consumed_turn_ids st) ++ opened :: drop (S i) (consumed_turn_ids st)) as Heq
    by (by rewrite (take_drop_middle _ _ _ Hi)).
  split; [done|]. split.
  { intros (j & Hj)%list_elem_of_lookup. apply lookup_take_Some in Hj as [Hj ?]. by apply (Hfirst _ _ Hj). }
  do 2 f_equal. assert (drop i (removelast (consumed_turn_ids st)) = removelast (opened :: drop (S i) (consumed_turn_ids st))) as ->; [|done].
  rewrite Heq at 1. rewrite removelast_app by done. rewrite drop_app_length'; [done|].
  rewrite length_take. apply lookup_lt_Some in Hi. lia.
Qed.

(** Where the quantity of a minted mutation comes from: the typed request, a bare number in the
    caller's message, or an amount the reader found in the caller's own lines of this request. *)
Definition quantity_grounded st (opened : string) (reader : list string → option (list Z)) (requested : option Z)
    (q : option Z) : Prop :=
  q = requested ∨
  (∃ text n, current_text st = Some text ∧ standalone_quantity text = Some n ∧ q = Some n) ∨
  (∃ text lines found n, current_text st = Some text ∧
     heard_since st opened text lines ∧ reader lines = Some found ∧ n ∈ found ∧ q = Some n).

(** The item of a minted mutation is the live one: the catalog's for an addition, the cart's
    otherwise, at its own name and price. *)
Definition item_live w (m : PendingCartMutation) : Prop :=
  if bool_decide (pc_operation m = add) then
    ∃ p, dget (pc_sku m) (by_sku catalog) = Some p ∧ sku p = pc_sku m ∧ name p = pc_name m ∧ price_usd p = pc_price_usd m
  else ∃ l, l ∈ view (w_cart w) ∧ cl_sku l = pc_sku m ∧ cl_name l = pc_name m ∧ cl_price_usd l = pc_price_usd m.

Definition minted_from env w (operation : CartOperation) (Q : option Z → Prop) (m : PendingCartMutation) : Prop :=
  pc_operation m = operation ∧ Q (pc_quantity m) ∧ item_live w m ∧
  pc_pre_confirm_quantity m = match List.find (λ l, String.eqb (cl_sku l) (pc_sku m)) (view (w_cart w)) with
                              | Some l => cl_quantity l | None => 0 end ∧
  pc_idempotency_key m = ne_fresh env 0 ∧ pc_created_at m = ne_now env.

(** Every mutation a node mints is one of [Q]. *)
Definition mints (Q : PendingCartMutation → Prop) (n : node) : Prop := ∀ s s' ws m,
  n s = (s', Done ws) → written_mutation ws = Some (Some m) → Q m.

Lemma mints_bind {A} Q (n : N W A) (k : A → node) : (∀ a, mints Q (k a)) → mints Q (n ≫= k).
Proof. intros Hk s s' ws m (a & s1 & _ & Hr)%bind_done. by apply (Hk a s1 s'). Qed.
Lemma mints_val {A} Q (r : res A) (k : A → node) : (∀ a, r = inr a → mints Q (k a)) → mints Q (val r ≫= k).
Proof. intros Hk s s' ws m (a & Ha & Hr)%bind_val. by apply (Hk a Ha s s'). Qed.
Lemma mints_ret Q ws : written_mutation ws = None ∨ written_mutation ws = Some None → mints Q (mret ws).
Proof. intros Hn s s' ws' m [= <- <-]. destruct Hn; congruence. Qed.
Lemma mints_fail Q c m : mints Q (fail c m).
Proof. intros [? ?] s' ws p Hr. done. Qed.
Lemma mints_clarification Q st ms detail inv : mints Q (cart_clarification_result policy st ms detail inv).
Proof.
  apply mints_bind. intros owner. cbv zeta. destruct (st_exhausted _); apply mints_ret; by left.
Qed.

Lemma mint_live_minted env st w inv ms operation quantity (Q : option Z → Prop) :
  (∃ item, slots (request inv) = Some (operation, item, quantity)) → Q quantity →
  mints (minted_from env w operation Q) (mint_live policy catalog env st w inv ms).
Proof.
  intros [item Hs] HQ. unfold mint_live. rewrite Hs.
  destruct item as [[|l|x]|]; try apply mints_fail. apply mints_val. intros items Hdom.
  destruct (find_item items x) as [live|] eqn:Hf.
  2: { destruct (_ && _); [apply mints_ret; by left|]. apply mints_bind. intros i. apply mints_clarification. }
  apply find_item_spec in Hf as [Hin Hsku]. apply mints_val. intros m0 Hmint.
  intros s s' ws m [= <- <-] [= ->]. unfold mint_mutation in Hmint. apply mint_fields in Hmint as ->.
  split_and!; try done. unfold item_live. cbn [pc_operation pc_sku pc_name pc_price_usd]. unfold domain in Hdom.
  case_bool_decide; injection Hdom as <-.
  - unfold resolve_products in Hin. cbn in Hin. destruct (dget x (by_sku catalog)) as [p|] eqn:Hg; cbn in Hin;
      [|by apply elem_of_nil in Hin]. apply list_elem_of_singleton in Hin as ->. rewrite Hsku. eauto.
  - apply list_elem_of_fmap in Hin as (l & -> & Hl). exists l. done.
Qed.
End entry_laws.

Lemma modify_remove_quantity item quantity r :
  validate_request (ModifyCart remove item quantity) = inr r → quantity = None.
Proof.
  cbn [validate_request]. destruct (mapO validate_item item) as [e|item']; [done|]. cbn.
  intros (_ & Hv)%requires_bind. destruct (quantity_matches_operation remove quantity) as [e|] eqn:Hq; [done|].
  unfold quantity_matches_operation in Hq. destruct quantity; done.
Qed.

(** What a proposal leads to: the requested quantity, or a stated one. *)
Lemma slot_proposal_quantity operation item quantity selecting choices guarded amounts args r :
  slot_proposal operation item quantity selecting choices guarded amounts args = inr r →
  ∃ item' q, slots r = Some (operation, item', q) ∧
    (q = quantity ∨ (guarded = true ∧ ∃ found n, amounts = Some found ∧ n ∈ found ∧ q = Some n) ∨
     (guarded = false ∧ (operation = remove → q = None))).
Proof.
  unfold slot_proposal. intros Hr. destruct (validate_slots args) as [e|p]; [done|]. cbn [mbind res_bind] in Hr.
  apply requires_bind in Hr as [_ Hr]. apply requires_bind in Hr as [_ Hr]. apply requires_bind in Hr as [_ Hr].
  destruct (match ps_candidate_key p with Some _ => _ | None => _ end) as [e|item']; [done|]. cbn [mbind res_bind] in Hr.
  cbv zeta in Hr. apply requires_bind in Hr as [_ Hr].
  destruct (validate_slots_kept _ _ _ _ Hr) as [item'' Hs].
  eexists item'', _. split; [exact Hs|].
  destruct (ps_quantity p) as [q|]; [|by left]. destruct guarded.
  - destruct amounts as [found|]; [|by left]. case_bool_decide; [|by left]. right; left. split; [done|]. eauto.
  - right; right. split; [done|]. intros ->. by eapply modify_remove_quantity.
Qed.

Section select_laws.
Context {P PS R E : Type} `{SessionPersistence PS E}.
Context (policy : PolicyContext) (catalog : FixtureCatalog).
Notation W := (World P PS R).
Implicit Types (w : W) (env : node_env E) (st : ReasoningState).

Definition selected_ok (operation : CartOperation) (Q : option Z → Prop)
    (r : list Write + ActiveInvocation * list Message) : Prop :=
  match r with
  | inl ws => written_mutation ws = None ∨ written_mutation ws = Some None
  | inr (inv, _) => ∃ item q, slots (request inv) = Some (operation, item, q) ∧ Q q
  end.

Lemma clarification_written st ms detail inv s s' (ws : list Write) :
  cart_clarification_result (P:=P) (PS:=PS) (R:=R) policy st ms detail inv s = (s', Done ws) → written_mutation ws = None.
Proof.
  intros (owner & s1 & _ & Hr)%bind_done. cbv zeta in Hr. destruct (st_exhausted _); by injection Hr as _ <-.
Qed.

Lemma clarify_selected st ms detail inv operation Q s s' r :
  (u ← cart_clarification_result (P:=P) (PS:=PS) (R:=R) policy st ms detail inv; mret (inl u)) s = (s', Done r) →
  selected_ok operation Q r.
Proof.
  intros (u & s1 & Hu & Hr)%bind_done. apply clarification_written in Hu. injection Hr as _ <-. by left.
Qed.

Lemma select_go_ok st replies selecting guarded choices amounts operation item quantity (Q : option Z → Prop) :
  Q quantity →
  (guarded = true → ∀ found n, amounts = Some found → n ∈ found → Q (Some n)) →
  (guarded = false → ∀ q, (operation = remove → q = None) → Q q) →
  ∀ attempts inv ms s s' r,
  select_go (P:=P) (PS:=PS) (R:=R) policy st replies selecting guarded choices amounts attempts inv operation item
    quantity ms s = (s', Done r) → selected_ok operation Q r.
Proof.
  intros HQ Hg Hn. induction attempts as [|n attempts IH]; intros inv ms s s' r; cbn [select_go].
  { apply clarify_selected. }
  intros (response & _ & Hr)%bind_val. destruct (response.2) as [|call calls]; [by eapply clarify_selected|].
  destruct (String.eqb (tc_name call) tool_leave_cart); [injection Hr as _ <-; by right|].
  destruct (String.eqb (tc_name call) tool_cart_clarification); [by eapply clarify_selected|].
  destruct (String.eqb (tc_name call) tool_slots); [|by eapply IH].
  destruct (slot_proposal _ _ _ _ _ _ _ _) as [e|updated] eqn:Hp.
  { destruct (proposal_error e); [by eapply IH|]. apply val_done in Hr as [? _]. done. }
  destruct (slot_proposal_quantity _ _ _ _ _ _ _ _ _ Hp) as (item' & q & Hs & Hq).
  apply bind_val in Hr as (inv' & Hw & Hr). destruct (is_slot_complete updated); [|by eapply clarify_selected].
  injection Hr as _ <-. destruct (with_request_slots _ _ _ _ _ _ Hw Hs) as [item'' Hs']. exists item'', q.
  split; [done|]. destruct Hq as [->|[(Hgt & found & k & Hf & Hk & ->)|(Hgf & Hrem)]]; eauto.
Qed.
End select_laws.

Section grounding.
Context {P PS R E : Type} `{SessionPersistence PS E}.
Context (policy : PolicyContext) (catalog : FixtureCatalog).
Notation W := (World P PS R).
Implicit Types (w : W) (env : node_env E) (st : ReasoningState).

(** Where amounts are taken from this request only, the quantity is grounded. *)
Definition grounded st opened reader (operation : CartOperation) requested q : Prop :=
  cart_quantity_source policy = this_request →
  (operation = remove ∧ q = None) ∨ quantity_grounded st opened reader requested q.

Lemma with_request_opened r i j : with_request r i = inr j → opened_turn_id j = strip (opened_turn_id i).
Proof.
  unfold with_request, make_ActiveInvocation, Verification.non_empty_text. munfold_goal.
  intros Hw. repeat (case_match; try done). by simplify_eq.
Qed.
Lemma retain_opened i operation item quantity j : retain i operation item quantity = inr j →
  opened_turn_id j = strip (opened_turn_id i).
Proof. unfold retain. destruct (validate_request _) as [e|r]; [done|]. apply with_request_opened. Qed.

Lemma fill_slots_minted env st w replies reader inv operation item quantity choices :
  strip (opened_turn_id inv) = opened_turn_id inv →
  (∃ item', slots (request inv) = Some (operation, item', quantity)) →
  mints (minted_from catalog env w operation (grounded st (opened_turn_id inv) reader operation quantity))
    (fill_slots policy catalog env st w replies reader inv operation item quantity choices).
Proof.
  intros Hop Hinv. unfold fill_slots. cbv zeta.
  set (selecting := match item with None | Some (CartItemChoices _) => true | _ => false end).
  set (spoken := match item with Some (ResolvedCartItemRef _) => _ | _ => None end).
  set (Q := grounded st (opened_turn_id inv) reader operation quantity).
  assert (∀ n, spoken = Some n → Q (Some n)) as Hspoken.
  { intros n Hn _. right; right; left. unfold spoken in Hn. destruct item as [[]|]; try done.
    destruct quantity; [done|]. destruct (current_text st) as [text|]; [|done].
    case_bool_decide; [done|]. destruct (standalone_quantity text) as [k|] eqn:Hk; [|done].
    destruct (_ || _); [|done]. injection Hn as <-. by exists text, k. }
  intros s s' ws m Hrun Hw. apply bind_done in Hrun as ([inv' q] & s1 & Hparsed & Hrun). cbv beta iota in Hrun.
  assert ((∃ item', slots (request inv') = Some (operation, item', q)) ∧ Q q ∧ opened_turn_id inv' = opened_turn_id inv)
    as (Hinv' & Hq & Ho).
  { destruct spoken as [n|].
    - apply bind_val in Hparsed as (i & Hi & [_ [= -> ->]]%ret_done).
      split_and!; [by eapply retain_slots|by apply Hspoken|by rewrite (retain_opened _ _ _ _ _ Hi)].
    - apply ret_done in Hparsed as [_ [= -> ->]]. split_and!; [done| |done]. intros _. right. by left. }
  clear Hparsed. destruct (selecting || _).
  2: { by eapply mint_live_minted. }
  apply bind_done in Hrun as ([] & s2 & _ & Hrun).
  destruct (current_text st) as [text|] eqn:Htext; [|by eapply mints_clarification].
  apply bind_done in Hrun as (amounts & s3 & Ham & Hrun). apply bind_done in Hrun as (selected & s4 & Hsel & Hrun).
  set (guarded := bool_decide (cart_quantity_source policy = this_request ∧ operation ≠ remove)) in *.
  assert (selected_ok operation Q selected) as Hok.
  { eapply select_go_ok; [exact Hq| | |exact Hsel].
    - intros Hg found k Hf Hk _. rewrite Hg in Ham. apply bind_val in Ham as (lines & Hl & [_ Hr]%ret_done).
      rewrite Ho in Hl. apply request_lines_heard in Hl.
      right; right; right. exists text, lines, found, k. split_and!; [done|done|congruence|done|done].
    - intros Hg k Hrem Hsource. unfold guarded in Hg. apply bool_decide_eq_false in Hg.
      destruct (decide (operation = remove)) as [Hop'|]; [left; by split; [|apply Hrem]|]. by destruct Hg. }
  destruct selected as [update|[inv2 ms2]].
  - apply ret_done in Hrun as [_ ->]. destruct Hok; congruence.
  - destruct Hok as (item2 & q2 & Hs2 & Hq2). eapply (mint_live_minted policy catalog); [by eexists|exact Hq2|done|done].
Qed.

Ltac entry_leaf :=
  first
    [ apply mints_clarification | apply mints_ret; by left
    | apply mints_val; intros ? ?; apply mints_clarification ].

Lemma modify_cart_minted env replies reader st w inv operation item quantity :
  strip (opened_turn_id inv) = opened_turn_id inv →
  slots (request inv) = Some (operation, item, quantity) →
  mints (minted_from catalog env w operation (grounded st (opened_turn_id inv) reader operation quantity))
    (modify_cart policy catalog env replies reader st w inv operation item quantity).
Proof.
  intros Hop Hs. unfold modify_cart. cbv zeta. destruct (bare_assent _ _ _ _); [entry_leaf|].
  apply mints_val. intros items _. destruct (negb _ && _); [entry_leaf|].
  destruct item as [[query|choices|x]|].
  - generalize (if bool_decide (operation = add) then items else match_named_items name items query).
    intros [|one [|two rest]]; [entry_leaf| |entry_leaf].
    apply mints_val. intros inv' Hi. destruct (retain_slots _ _ _ _ _ Hi) as [item' Hs'].
    pose proof (retain_opened _ _ _ _ _ Hi) as Ho. rewrite Hop in Ho. rewrite <-Ho in Hop |- *.
    destruct (find_item _ _); [apply fill_slots_minted; [done|by eexists]|entry_leaf].
  - destruct (existsb _ _); [entry_leaf|]. apply fill_slots_minted; [done|by eexists].
  - destruct (find_item _ _); [apply fill_slots_minted; [done|by eexists]|entry_leaf].
  - apply fill_slots_minted; [done|by eexists].
Qed.
End grounding.

(** C26 No model authors a cart change.  Whatever the selector replies, a mutation the entry mints
    carries the operation of the typed request, a live item under its own name and price (the
    catalog's for an addition, the cart's otherwise), the quantity now in the cart as its
    baseline and a fresh key; and, where the policy takes amounts from this request only, its
    quantity is none for a removal, or the one the request already had, or a bare number the
    caller just said, or an amount the reader found in the caller's own lines from the turn that
    opened this request on: the lines of no earlier turn and none of the assistant's are read. *)
Theorem cart_mutation_grounded {P PS R E} `{SessionPersistence PS E} policy catalog (env : node_env E) replies reader st
    ans (w : World P PS R) s' ws m inv :
  active_invocation st = Some inv → strip (opened_turn_id inv) = opened_turn_id inv →
  cart_capability_entry_node policy catalog env replies reader st (ans, w) = (s', Done ws) →
  written_mutation ws = Some (Some m) →
  ∃ operation item quantity, request inv = ModifyCart operation item quantity ∧
    minted_from catalog env w operation (λ q, cart_quantity_source policy = this_request →
      (operation = remove ∧ q = None) ∨ q = quantity ∨
      (∃ text n, current_text st = Some text ∧ standalone_quantity text = Some n ∧ q = Some n) ∨
      (∃ text older newer found n, current_text st = Some text ∧
         consumed_turn_ids st = older ++ opened_turn_id inv :: newer ∧ opened_turn_id inv ∉ older ∧
         reader ((ce_text <$> base.filter (λ e, ce_speaker e = caller ∧
                    ce_turn_id e ∈ removelast (opened_turn_id inv :: newer)) (conversation st)) ++ [text]) = Some found ∧
         n ∈ found ∧ q = Some n)) m.
Proof.
  intros Hinv Hop Hrun Hw. unfold cart_capability_entry_node in Hrun. rewrite Hinv in Hrun. apply bind_here in Hrun.
  destruct (request inv) as [| | | | | | |operation item quantity| | | | | | | | | | |] eqn:Hr; try done.
  - exists operation, item, quantity. split; [done|].
    destruct (modify_cart_minted policy catalog env replies reader st w inv operation item quantity Hop ltac:(by rewrite Hr)
      _ _ _ _ Hrun Hw) as (H1 & H2 & H3). split; [exact H1|]. split; [|exact H3]. intros Hs.
    destruct (H2 Hs) as [Hq|[Hq|[Hq|(text & lines & found & n & Ht & (older & newer & Hc & Hn & ->) & Hf & Hin & Hq)]]]; eauto.
    do 3 right. by exists text, older, newer, found, n.
  - destruct (is_empty _); [by injection Hrun as _ <-|].
    apply bind_val in Hrun as (p & _ & Hrun). by injection Hrun as _ <-.
Qed.

(** A placement is minted from the whole cart and its total. *)
Lemma placement_minted {P PS R E} `{SessionPersistence PS E} policy catalog (env : node_env E) replies reader st
    ans (w : World P PS R) s' ws :
  (request <$> active_invocation st) = Some PlaceOrder →
  cart_capability_entry_node policy catalog env replies reader st (ans, w) = (s', Done ws) →
  (is_empty (w_cart w) = true ∧ ws = [W_active_invocation None; W_execution_owner None;
     W_pending_ack (Some (mkAck EMPTY_CART_CHECKOUT_LINE false))]) ∨
  (is_empty (w_cart w) = false ∧ ws = [W_active_invocation None; W_execution_owner (Some owner_cart);
     W_pending_placement (Some (mkPlacement (view (w_cart w)) (cart_total (w_cart w)) (ne_fresh env 0) (ne_now env) None))]).
Proof.
  intros Hreq Hrun. unfold cart_capability_entry_node in Hrun. destruct (active_invocation st) as [inv|]; [|done].
  injection Hreq as Hreq. apply bind_here in Hrun. rewrite Hreq in Hrun.
  destruct (is_empty _); [left; by injection Hrun as _ <-|right].
  apply bind_val in Hrun as (p & Hp & Hrun). injection Hrun as _ <-. split; [done|].
  unfold mint_placement, make_PendingPlacement, validated in Hp. destruct (_ && _); [|done]. by injection Hp as <-.
Qed.

(** ** Effects *)
Section effects.
Context {P PS R E : Type} `{SessionPersistenceLaws PS E}.
Context (fingerprint : SessionRequest → string).
Notation W := (World P PS R).
Implicit Types (w : W) (env : node_env E) (st : ReasoningState).

(** What the projection of a placement leaves: an empty cart, and the order in the guest scope. *)
Lemma placement_projected op order_id p p' v :
  mutation op (placement_projection (canon order_id)) p = (p', inr v) →
  pj_cart p' = empty_cart ∧ Guest.contains (pj_guest p') order_id = true.
Proof.
  cbn [mutation]. unfold on_guest, on_cart, on_recent, Guest.record, clear. munfold_goal.
  rewrite canon_idem. destruct (nonempty (canon order_id)); [|done]. cbn [pj_guest pj_cart pj_recent].
  destruct (Recent.record _ _ _ _ _) as [c [e|[]]]; [done|]. intros [= <- _]. split; [done|].
  unfold Guest.contains, Guest.set_refs, dmem. cbn. by rewrite dget_dset_eq.
Qed.

(** A commit that returned is repeated without effect, at the revision it left. *)
Lemma commit_repeats (env env' : E) op request s s' r : session_ok s →
  commit_request fingerprint env op request s = (s', inr r) →
  session_ok s' ∧ commit_request fingerprint env' op request s' = (s', inr r).
Proof.
  intros Hok Hc. destruct r as [v n].
  destruct (commit_success_remembered fingerprint env op request s s' v n Hok Hc) as [Hb Hk].
  pose proof (commit_request_outcome fingerprint env op request s Hok) as Ho. rewrite Hc in Ho.
  destruct Ho as (Hok' & Hn & _). split; [done|].
  rewrite (commit_known fingerprint env' op request s' _ _ Hb Hk), String.eqb_refl, Hn. done.
Qed.

(** A placement that returned is stored under its key and repeats without effect. *)
Lemma place_cart_repeats key lines total o o' placed :
  place_cart key lines (Money.dec_of_cents total) o = (o', inr placed) →
  place_cart key lines (Money.dec_of_cents total) o' = (o', inr placed) ∧
  dget key (placed_by_key o') = Some placed ∧ placement_matches placed lines total = true ∧
  (if dget key (placed_by_key o) then o' = o
   else po_order_id placed = "ORD-" +:+ str_int (next_seq o) ∧ next_seq o' = next_seq o + 1).
Proof.
  intros Hp. assert (∀ c, Money.validate_usd (Money.dec_of_cents total) = inr c → c = total) as Ht.
  { intros c Hc. destruct (Z.leb_spec 0 total).
    - rewrite Money.validate_usd_cents in Hc by done. by injection Hc.
    - unfold Money.validate_usd, Money.UsdAmount, Money.dec_of_cents in Hc.
      rewrite (proj2 (Z.leb_gt _ _)) in Hc by done. done. }
  destruct (place_cases _ _ _ _ _ _ Hp) as [(? & ? & ?)|[(p & c & [= ->] & -> & Hv & Hg & Hm)|(c & Hc & -> & Hv & Hg & _)]]; [done| |].
  - rewrite (Ht _ Hv) in Hm. by rewrite Hg.
  - injection Hc as ->. pose proof (Ht _ Hv). subst c.
    pose proof (fresh_placed_matches o lines total) as Hm.
    assert (dget key (placed_by_key (set_placed (dset key (fresh_placed o lines total)) (next_seq o + 1) o)) =
            Some (fresh_placed o lines total)) as Hget by (cbn; apply dget_dset_eq).
    rewrite Hg, Hget. split_and!; [|done..].
    unfold place_cart. munfold_goal. rewrite Hv, Hget, Hm. done.
Qed.
End effects.

(** C25 A confirmed checkout places what was read back, once.  When the effect node returns, the
    store holds under the pending placement's key an order with exactly its lines and total, and
    the placement is no longer pending; on the first publication of that key the cart is empty
    afterwards and the order belongs to this caller's session.  Running the node again on what
    it left, as a resumed graph does, changes nothing at all and says the same. *)
Theorem checkout_places_readback_once {P PS R E} `{SessionPersistenceLaws PS E} (fingerprint : SessionRequest → string)
    am (env env' : node_env E) st ans ans' (w w' : World P PS R) rest ws p :
  session_ok (w_session w) → pending_placement st = Some p →
  cart_place_node fingerprint env st (ans, w) = ((rest, w'), Done ws) →
  cart_place_node fingerprint env' st (ans', w') = ((ans', w'), Done ws) ∧
  pending_placement (apply_update am ws st) = None ∧ execution_owner (apply_update am ws st) = None ∧
  ∃ placed, dget (pp_idempotency_key p) (placed_by_key (w_orders w')) = Some placed ∧
    placement_matches placed (pp_lines p) (pp_total_usd p) = true ∧
    (if dget (pp_idempotency_key p) (placed_by_key (w_orders w)) then w_orders w' = w_orders w
     else po_order_id placed = "ORD-" +:+ str_int (next_seq (w_orders w)) ∧
          next_seq (w_orders w') = next_seq (w_orders w) + 1) ∧
    (unpublished (w_session w) (pp_idempotency_key p) →
     w_cart w' = empty_cart ∧ Guest.contains (w_guest w') (po_order_id placed) = true).
Proof.
  intros Hok Hp Hrun. unfold cart_place_node, finish_placement in Hrun. rewrite Hp in Hrun.
  apply bind_the in Hrun as (? & [= <-] & Hrun).
  apply bind_done in Hrun as (placed & s1 & Hpl & Hrun).
  apply on_orders_done in Hpl as (o1 & Hpl & ->).
  apply bind_done in Hrun as (committed & s2 & Hco & Hrun).
  apply on_session_done in Hco as (s1 & Hco & ->).
  apply bind_val in Hrun as (l & Hl & [[= -> ->] ->]%ret_done).
  destruct (place_cart_repeats _ _ _ _ _ _ Hpl) as (Hrep & Hg & Hm & Hn).
  destruct (commit_repeats fingerprint (ne_publish env) (ne_publish env') _ _ _ _ _ Hok Hco) as (_ & Hcrep).
  split_and!; [|done..|].
  - unfold cart_place_node, finish_placement. rewrite Hp.
    apply bind_the. exists p. split; [done|]. apply bind_done. exists placed. eexists. split; [by apply on_orders_ran|].
    apply bind_done. exists committed. eexists. split; [apply on_session_ran; exact Hcrep|].
    apply bind_val. exists l. split; [done|]. apply ret_done. done.
  - exists placed. split_and!; [done..|]. intros Hun. destruct committed as [v n].
    destruct (first_commit fingerprint _ _ _ _ _ _ _ Hok Hun Hco) as (value & Hmut & _).
    exact (placement_projected _ _ _ _ _ Hmut).
Qed.

(** ** The readbacks *)
Section readbacks.
Context {P PS R E : Type} (policy : PolicyContext).
Context (am : list Message → list Message → list Message).
Notation W := (World P PS R).
Implicit Types (w : W) (env : node_env E) (st : ReasoningState).

Lemma last_turn_pure st : pure_node (W:=W) (last_turn st).
Proof. unfold last_turn. pure_steps. Qed.
Lemma mutation_confirm_pure env st : pure_node (mutation_confirm_node (P:=P) (PS:=PS) (R:=R) policy env st).
Proof. unfold mutation_confirm_node. repeat first [apply last_turn_pure | progress pure_steps]. Qed.
Lemma cart_confirm_pure env st : pure_node (cart_confirm_node (P:=P) (PS:=PS) (R:=R) policy env st).
Proof. unfold cart_confirm_node. pure_steps. Qed.
Lemma cart_guardrail_pure st : pure_node (cart_guardrail_node (P:=P) (PS:=PS) (R:=R) policy st).
Proof. unfold cart_guardrail_node. pure_steps. Qed.
Lemma cart_clarify_pure catalog st : pure_node (cart_clarify_node (P:=P) (PS:=PS) (R:=R) catalog st).
Proof. unfold cart_clarify_node. pure_steps. Qed.
Lemma cart_ack_pure close st : pure_node (cart_ack_node (P:=P) (PS:=PS) (R:=R) close st).
Proof. unfold cart_ack_node. repeat first [apply last_turn_pure | progress pure_steps]. Qed.

Lemma mutation_confirm_spec env st ans w s' ws p :
  mutation_confirm_node (P:=P) (PS:=PS) (R:=R) policy env st (ans, w) = (s', Done ws) → pending_cart_mutation st = Some p →
  s'.2 = w ∧
  ((ws = [] ∧ heard_yes false ans s'.1 ∧ ne_now env - pc_created_at p ≤ pending_ttl_seconds policy) ∨
   pending_cart_mutation (apply_update am ws st) = None).
Proof.
  intros Hrun Hp. pose proof (mutation_confirm_pure env st ans w) as Hpure. rewrite Hrun in Hpure.
  cbn in Hpure. split; [done|]. clear Hpure. unfold mutation_confirm_node in Hrun. rewrite Hp in Hrun.
  destruct (_ <? _) eqn:Httl; [nsteps; by right|].
  apply bind_done in Hrun as (d & s1 & Hd & Hrun). cbv zeta in Hrun.
  destruct (verdict d) as [|c] eqn:Hv; [|destruct c].
  all: first [nsteps; by right | nsteps; left; bools; split_and!; [done|by eapply readback_yes|lia] | apply bind_done in Hrun as (t & s2 & _ & Hrun); nsteps; by right].
Qed.
Lemma cart_confirm_spec env st ans w s' ws p :
  cart_confirm_node (P:=P) (PS:=PS) (R:=R) policy env st (ans, w) = (s', Done ws) → pending_placement st = Some p →
  s'.2 = w ∧
  ((ws = [] ∧ heard_yes false ans s'.1 ∧ ne_now env - pp_created_at p ≤ pending_ttl_seconds policy) ∨
   pending_placement (apply_update am ws st) = None).
Proof.
  intros Hrun Hp. pose proof (cart_confirm_pure env st ans w) as Hpure. rewrite Hrun in Hpure.
  cbn in Hpure. split; [done|]. clear Hpure. unfold cart_confirm_node in Hrun. rewrite Hp in Hrun. confirm_run Hrun.
Qed.
End readbacks.

(** The exhausted question has no route.  When the clarification budget of the cart's request is
    spent, the entry's update clears the request, its owner and the question and leaves nothing
    for the router, which raises: no node speaks to the caller. *)
Theorem cart_exhaustion_unrouted {P PS R} policy am st messages' detail inv owner ans (w : World P PS R) :
  invocation_clarification_owner st = inr owner →
  st_exhausted (advance_clarification st owner (cart_clarification_reask_max policy)) = true →
  pending_cart_mutation st = None → pending_placement st = None → pending_ack st = None →
  current_turn_called (am (messages st) messages') tool_leave_cart = false →
  ∃ ws, cart_clarification_result policy st messages' detail inv (ans, w) = ((ans, w), Done ws) ∧
    route_after_cart_entry (apply_update am (with_clarification_lifecycle ws) st) =
      raises RuntimeError "cart assemble produced no outcome".
Proof.
  intros Ho Hex Hm Hp Ha Hl. eexists. unfold cart_clarification_result. split.
  { cbv [mbind N_bind val act lift]. rewrite Ho. cbn. rewrite Hex. reflexivity. }
  unfold route_after_cart_entry.
  set (s2 := apply_update _ _ _).
  assert (messages s2 = am (messages st) messages') as -> by reflexivity.
  assert (pending_cart_mutation s2 = None) as -> by exact Hm.
  assert (pending_placement s2 = None) as -> by exact Hp.
  assert (pending_ack s2 = None) as -> by exact Ha.
  by rewrite Hl.
Qed.
