(* ===== verification/CartGraph.v ===== *)
(** * The cart part of the graph (agents/frontline/graph.py)

    The nodes of the cart flow as the frontline graph wires them, and the runs
    they make.  What a run of a node observes adds to its clock and fresh keys
    the selector model's replies, the amount reader and the closing line. *)

From S2P Require Import Prelude PyText Money Cart Orders OrderScope OrderStore Identity Verification Catalog Consent Confirmation.
From S2P Require Import SessionState SessionCommit SessionRefine Requests Reasoning Nodes Clarification SupportBase Graph.
From S2P Require Import SupportExamples Caller IdentityFlow CartFlow.
Local Open Scope Z_scope.
Local Open Scope list_scope.

Inductive cnode :=
  | cart_entry | cart_ack | cart_clarify | cart_mutation_confirm | cart_mutation_apply | cart_guardrail
  | cart_confirm | cart_place | cart_owner_declined | cart_handover | cart_end.
#[export] Instance cnode_eq_dec : EqDecision cnode.
Proof. solve_decision. Defined.

Record cart_env (E : Type) := mkCartEnv {
  ce_node : node_env E; ce_replies : nat → res ModelReply; ce_reader : list string → option (list Z);
  ce_close : string }.
Arguments mkCartEnv {E}. Arguments ce_node {E}. Arguments ce_replies {E}. Arguments ce_reader {E}. Arguments ce_close {E}.

Section cart_graph.
Context {P PS R E : Type} `{SessionPersistence PS E}.
Context (policy : PolicyContext) (fingerprint : SessionRequest → string) (catalog : FixtureCatalog).
Context (am : list Message → list Message → list Message).
Notation W := (World P PS R).
Implicit Types (w : W) (env : cart_env E) (st : ReasoningState) (n : cnode).

(** [node_registry.register("cart_...", ...)]; the entry under its clarification lifecycle. *)
Definition run_cart_node n env st : N W (list Write) :=
  match n with
  | cart_entry =>
      ws ← cart_capability_entry_node policy catalog (ce_node env) (ce_replies env) (ce_reader env) st;
      mret (with_clarification_lifecycle ws)
  | cart_ack => cart_ack_node (ce_close env) st
  | cart_clarify => cart_clarify_node catalog st
  | cart_mutation_confirm => mutation_confirm_node policy (ce_node env) st
  | cart_mutation_apply => mutation_apply_node fingerprint (ce_node env) (ce_close env) st
  | cart_guardrail => cart_guardrail_node policy st
  | cart_confirm => cart_confirm_node policy (ce_node env) st
  | cart_place => cart_place_node fingerprint (ce_node env) st
  | cart_owner_declined | cart_handover | cart_end => mret []
  end.

(** ** The routers *)
Definition route_after_cart_capability_entry st : res cnode :=
  r ← route_after_cart_entry st;
  inr (match r with
       | cr_place => cart_guardrail | cr_mutation_confirm => cart_mutation_confirm | cr_ack => cart_ack
       | cr_leave => cart_owner_declined | cr_clarify => cart_clarify
       end).
Definition route_after_cart_mutation_confirm st : cnode :=
  if isSome (handover st) then cart_handover
  else if isSome (pending_cart_mutation st) then cart_mutation_apply else cart_end.
Definition route_after_cart_guardrail st : cnode :=
  if isSome (pending_placement st) then cart_confirm else cart_end.
Definition route_after_cart_confirm st : cnode :=
  if isSome (handover st) then cart_handover
  else if isSome (pending_placement st) then cart_place else cart_end.

Definition next_cart_node n (_ : Z) (_ : W) st : res cnode :=
  match n with
  | cart_entry => route_after_cart_capability_entry st
  | cart_mutation_confirm => inr (route_after_cart_mutation_confirm st)
  | cart_mutation_apply => inr cart_ack
  | cart_guardrail => inr (route_after_cart_guardrail st)
  | cart_confirm => inr (route_after_cart_confirm st)
  | cart_ack | cart_clarify | cart_place | cart_owner_declined | cart_handover | cart_end => inr cart_end
  end.
Definition cart_final n : bool := bool_decide (n ∈ [cart_owner_declined; cart_handover; cart_end]).
Definition cart_effect n : bool := bool_decide (n ∈ [cart_mutation_apply; cart_place]).

Notation cruns := (runs run_cart_node next_cart_node cart_final am).
Notation cstep := (gstep run_cart_node next_cart_node cart_final am).
Notation event := (event cnode W (cart_env E)).
Notation config := (config cnode W).

(** The event is a readback of [n], in time, whose last reply was a yes. *)
Definition cart_readback n (created : ReasoningState → option Z) (e : event) : Prop :=
  cf_node (ev_at e) = n ∧ heard_yes false (ev_heard e) [] ∧
  ∃ t, created (cf_state (ev_at e)) = Some t ∧ ne_now (ce_node (ev_env e)) - t ≤ pending_ttl_seconds policy.
Definition cart_consent (c : config) (tr : list event) : Prop :=
  match cf_node c with
  | cart_mutation_apply => ∃ e tr', tr = e :: tr' ∧
      cart_readback cart_mutation_confirm (λ s, pc_created_at <$> pending_cart_mutation s) e ∧
      pending_cart_mutation (cf_state (ev_at e)) = pending_cart_mutation (cf_state c)
  | cart_place => ∃ e tr', tr = e :: tr' ∧
      cart_readback cart_confirm (λ s, pp_created_at <$> pending_placement s) e ∧
      pending_placement (cf_state (ev_at e)) = pending_placement (cf_state c)
  | _ => False
  end.

Ltac pure_step := first [ progress intros | apply pure_bind | solve [auto 3 with pure] | case_match | case_bool_decide ].
(** ** Only the effect nodes touch the world *)
Lemma clarification_pure st ms detail inv : pure_node (W:=W) (cart_clarification_result policy st ms detail inv).
Proof. unfold cart_clarification_result. cbv zeta. pure_steps. Qed.
#[local] Hint Resolve clarification_pure : pure.
Lemma select_go_pure st replies sel guarded choices amounts attempts inv operation item quantity ms :
  pure_node (W:=W) (select_go policy st replies sel guarded choices amounts attempts inv operation item quantity ms).
Proof.
  revert inv quantity ms. induction attempts as [|a attempts IH]; intros inv quantity ms; cbn [select_go]; cbv zeta;
    repeat first [apply clarification_pure | apply IH | progress pure_step].
Qed.
#[local] Hint Resolve select_go_pure : pure.
Ltac node_steps := repeat first [apply clarification_pure | apply select_go_pure | solve [auto 2 with pure] | pure_step].
Lemma fill_slots_pure env st w replies reader inv operation item quantity choices :
  pure_node (fill_slots policy catalog (ce_node env) st w replies reader inv operation item quantity choices).
Proof.
  unfold fill_slots, mint_live. cbv zeta. node_steps.
Qed.
#[local] Hint Resolve fill_slots_pure : pure.
Lemma entry_pure env st : pure_node (run_cart_node cart_entry env st).
Proof.
  cbn [run_cart_node]. unfold cart_capability_entry_node, modify_cart. cbv zeta. node_steps.
Qed.
Lemma cart_step_pure n env st : cart_effect n = false → pure_node (run_cart_node n env st).
Proof.
  destruct n; try done; intros _; [apply entry_pure|..]; cbn [run_cart_node];
    eauto using cart_ack_pure, cart_clarify_pure, mutation_confirm_pure, cart_guardrail_pure, cart_confirm_pure.
Qed.

Lemma next_cart_effect n now w st n' : next_cart_node n now w st = inr n' → cart_effect n' = true →
  (n = cart_mutation_confirm ∧ n' = cart_mutation_apply ∧ pending_cart_mutation st ≠ None) ∨
  (n = cart_confirm ∧ n' = cart_place ∧ pending_placement st ≠ None).
Proof.
  intros Hn He. destruct n; cbn [next_cart_node] in Hn.
  { unfold route_after_cart_capability_entry in Hn. cbv [mbind res_bind] in Hn.
    destruct (route_after_cart_entry st) as [|[]]; by simplify_eq. }
  all: injection Hn as <-; try done.
  all: revert He; unfold route_after_cart_mutation_confirm, route_after_cart_guardrail, route_after_cart_confirm, isSome;
    repeat case_match; try done; naive_solver.
Qed.

Lemma cart_runs_consent c0 tr c :
  cart_effect (cf_node c0) = false → cruns c0 tr c → cart_effect (cf_node c) = true → cart_consent c tr.
Proof.
  intros H0 Hr. destruct Hr as [|tr c e c' _ Hstep]; intros Heff; [congruence|].
  destruct Hstep as [env heard w' ws now n' _ Hrun Hnext]. destruct c as [n st w]. cbn [cf_node cf_state cf_world] in *.
  destruct (next_cart_effect _ _ _ _ _ Hnext Heff) as [(-> & -> & Hp)|(-> & -> & Hp)]; unfold cart_consent;
    cbn [cf_node cf_state run_cart_node] in *.
  - destruct (pending_cart_mutation st) as [p|] eqn:Est.
    2: { unfold mutation_confirm_node in Hrun. by rewrite Est in Hrun. }
    destruct (mutation_confirm_spec policy am (ce_node env) st heard w _ ws p Hrun Est) as [_ [(-> & Hy & Ht)|?]]; [|done].
    eexists _, _. split_and!; [done| |done]. split_and!; [done..|]. exists (pc_created_at p). cbn. by rewrite Est.
  - destruct (pending_placement st) as [p|] eqn:Est.
    2: { unfold cart_confirm_node in Hrun. by rewrite Est in Hrun. }
    destruct (cart_confirm_spec policy am (ce_node env) st heard w _ ws p Hrun Est) as [_ [(-> & Hy & Ht)|?]]; [|done].
    eexists _, _. split_and!; [done| |done]. split_and!; [done..|]. exists (pp_created_at p). cbn. by rewrite Est.
Qed.

(** C2 No cart change and no order without a yes: along any run of the cart graph from a node that is
    not an effect, whatever the selector model and the amount reader answer, a step that changes
    anything of the caller's world is an effect node's, and the step before it was the readback of
    the very mutation or placement it carries out, heard in time and answered last with a yes. *)
Theorem no_cart_effect_without_consent c0 tr c e c' :
  cart_effect (cf_node c0) = false → cruns c0 tr c → cstep c e c' → cf_world c' ≠ cf_world c →
  cart_effect (cf_node c) = true ∧ cart_consent c tr.
Proof.
  intros H0 Hr Hstep Hne. assert (cart_effect (cf_node c) = true) as Heff.
  { destruct (cart_effect (cf_node c)) eqn:Hn; [done|]. destruct Hne.
    apply (gstep_keeps run_cart_node next_cart_node cart_final am (λ w, w) c e c' Hstep).
    intros env. apply pure_keeps. by apply cart_step_pure. }
  split; [done|]. by eapply cart_runs_consent.
Qed.
End cart_graph.
