(* ===== verification/CartExamples.v ===== *)
(** * A cart conversation

    One product, one caller, a selector model and an amount reader, on which
    the theorems of the cart flow are applied. *)

From S2P Require Import Prelude PyText Money Cart Orders OrderScope OrderStore Identity Catalog Consent Confirmation.
From S2P Require Import SessionState SessionCommit SessionRefine Requests Reasoning Nodes Clarification SupportBase Graph SupportExamples.
From S2P Require Import Caller IdentityFlow CartFlow CartGraph.
Local Open Scope Z_scope.
Local Open Scope list_scope.

Definition jacket : CatalogProduct := mkProduct "SKU-1" "Rain Jacket" 12000.
Definition cart_catalog : FixtureCatalog := mkCatalog "acme" [jacket] [("SKU-1", jacket)].
Definition cart_policy : PolicyContext :=
  mkPolicyContext 50000 true 5000 20000 5000 30 120 2 1 2 5 1 1 1 1 this_request 5 None.
Definition adding : ReasoningState :=
  apply_update app
    [W_messages [HumanMessage "t-1" "could you put a couple in there"]; W_consumed_turn_ids ["t-1"];
     W_active_invocation (Some (mkInvocation "i-1" (ModifyCart add (Some (ResolvedCartItemRef "SKU-1")) None) "t-1"));
     W_execution_owner (Some owner_cart)] initial_state.
(** The selector model asks for [n]; the amount reader hears a two. *)
Definition selects (n : Z) (_ : nat) : res ModelReply :=
  inr ("", [mkToolCall tool_slots [("quantity", JNum (Money.DFinite n 0))] "call-1"]).
Definition hears_two (_ : list string) : option (list Z) := Some [2].
Definition add_run (n : Z) :=
  cart_capability_entry_node cart_policy cart_catalog shop_env (selects n) hears_two adding ([], shop_world).

(** The request opened in the second turn; the five of the first is no amount of it. *)
Definition adding_later : ReasoningState :=
  apply_update app
    [W_messages [HumanMessage "t-2" "how about a couple"]; W_consumed_turn_ids ["t-0"; "t-1"; "t-2"];
     W_conversation [mkEntry caller "what do five jackets cost" "t-0" None; mkEntry assistant "Five would be $600." "t-0" None;
                     mkEntry caller "add the rain jacket" "t-1" None; mkEntry assistant "How many?" "t-1" None];
     W_active_invocation (Some (mkInvocation "i-1" (ModifyCart add (Some (ResolvedCartItemRef "SKU-1")) None) "t-1"));
     W_execution_owner (Some owner_cart)] initial_state.
Definition hears_these (lines : list string) : option (list Z) :=
  if bool_decide (lines = ["add the rain jacket"; "how about a couple"]) then Some [2] else Some [5].
Definition later_run (n : Z) :=
  cart_capability_entry_node cart_policy cart_catalog shop_env (selects n) hears_these adding_later ([], shop_world).

Lemma cart_mutation_grounded_witness :
  let m := mkPendingCart add "SKU-1" "Rain Jacket" 12000 (Some 2) 0 "fresh-0" shop_now in
  written_mutation (writes_of (later_run 2)) = Some (Some m) ∧
  (∃ text older newer found, current_text adding_later = Some text ∧ consumed_turn_ids adding_later = older ++ "t-1" :: newer ∧
     hears_these ((ce_text <$> base.filter (λ e, ce_speaker e = caller ∧ ce_turn_id e ∈ removelast ("t-1" :: newer))
       (conversation adding_later)) ++ [text]) = Some found ∧ 2 ∈ found) ∧
  written_mutation (writes_of (later_run 5)) = None.
Proof.
  intros m. assert (written_mutation (writes_of (later_run 2)) = Some (Some m)) as Hw by (by vm_compute).
  split; [exact Hw|split; [|by vm_compute]].
  destruct (cart_mutation_grounded cart_policy cart_catalog shop_env (selects 2) hears_these adding_later [] shop_world
    (later_run 2).1 (writes_of (later_run 2)) m _ eq_refl eq_refl) as (operation & item & q & Hr & Hm).
  - assert ((later_run 2).2 = Done (writes_of (later_run 2))) as Hd by (by vm_compute).
    rewrite <-Hd. apply surjective_pairing.
  - exact Hw.
  - injection Hr as <- <- <-. destruct Hm as (_ & Hq & _).
    destruct (Hq eq_refl) as [[? _]|[?|[(text & n & Ht & Hs & _)|(text & older & newer & found & n & Ht & Hc & _ & Hf & Hn & Hnq)]]];
      [done|done| |].
    + vm_compute in Ht. injection Ht as <-. by vm_compute in Hs.
    + injection Hnq as <-. by exists text, older, newer, found.
Defined.

(** The checkout of two jackets. *)
Definition two_jackets : PendingPlacement :=
  mkPlacement [mkCartLine "SKU-1" "Rain Jacket" 12000 2] 24000 "p-1" shop_now None.
Definition checking_out : ReasoningState :=
  apply_update app [W_pending_placement (Some two_jackets); W_execution_owner (Some owner_cart)] initial_state.
Definition checkout_run := cart_place_node demo_fingerprint shop_env checking_out ([], shop_world).

Lemma checkout_places_readback_once_witness :
  cart_place_node demo_fingerprint late_env checking_out ([a_yes], checkout_run.1.2) =
    (([a_yes], checkout_run.1.2), Done (writes_of checkout_run)) ∧
  ∃ placed, dget "p-1" (placed_by_key (w_orders checkout_run.1.2)) = Some placed ∧
    po_order_id placed = "ORD-9001" ∧ Guest.contains (w_guest checkout_run.1.2) "ORD-9001" = true.
Proof.
  destruct (checkout_places_readback_once demo_fingerprint app shop_env late_env checking_out [] [a_yes] shop_world
    checkout_run.1.2 checkout_run.1.1 (writes_of checkout_run) two_jackets) as (Hre & _ & _ & placed & Hg & _ & Hn & Hun).
  - apply demo_session_ok.
  - done.
  - assert (checkout_run.2 = Done (writes_of checkout_run)) as Hd by (by vm_compute).
    rewrite <-Hd, <-(run_eta checkout_run). unfold checkout_run. reflexivity.
  - split; [exact Hre|]. exists placed. split; [exact Hg|].
    assert (po_order_id placed = "ORD-9001") as Hid.
    { apply (f_equal (fmap po_order_id)) in Hg. vm_compute in Hg. by injection Hg. }
    split; [exact Hid|]. rewrite <-Hid. destruct Hun as [_ Hc]; [split; by vm_compute|exact Hc].
Defined.

(** From the guardrail to the effect, on a yes. *)
Definition cart_shop_env : cart_env publish_env := mkCartEnv shop_env (selects 2) hears_two "Anything else?".
Definition at_cart_guardrail : config cnode ShopWorld := mkConfig cart_guardrail checking_out shop_world.
Definition at_cart_confirm : config cnode ShopWorld := mkConfig cart_confirm (apply_update app [] checking_out) shop_world.
Definition at_cart_place : config cnode ShopWorld :=
  mkConfig cart_place (apply_update app [] (apply_update app [] checking_out)) shop_world.
Definition at_cart_end : config cnode ShopWorld :=
  mkConfig cart_end (apply_update app (writes_of checkout_run) (cf_state at_cart_place)) checkout_run.1.2.

Lemma checkout_runs :
  runs (run_cart_node cart_policy demo_fingerprint cart_catalog) next_cart_node cart_final app at_cart_guardrail
    [mkEvent at_cart_confirm cart_shop_env [a_yes]; mkEvent at_cart_guardrail cart_shop_env []] at_cart_place.
Proof.
  eapply runs_step; [eapply runs_step; [apply runs_start|]|].
  - apply (gstep_intro at_cart_guardrail cart_shop_env [] shop_world [] shop_now); by vm_compute.
  - apply (gstep_intro at_cart_confirm cart_shop_env [a_yes] shop_world [] shop_now); by vm_compute.
Qed.

Lemma no_cart_effect_without_consent_witness :
  cart_consent cart_policy at_cart_place
    [mkEvent at_cart_confirm cart_shop_env [a_yes]; mkEvent at_cart_guardrail cart_shop_env []].
Proof.
  apply (no_cart_effect_without_consent cart_policy demo_fingerprint cart_catalog app at_cart_guardrail _ at_cart_place
    (mkEvent at_cart_place cart_shop_env []) at_cart_end eq_refl checkout_runs).
  - apply (gstep_intro at_cart_place cart_shop_env [] checkout_run.1.2 (writes_of checkout_run) shop_now); by vm_compute.
  - intros Heq. apply (f_equal (λ w, next_seq (w_orders w))) in Heq. by vm_compute in Heq.
Defined.

(** A request whose only question has been asked. *)
Definition asked_once : ReasoningState :=
  apply_update app [W_clarification_liveness (Some (mkLiveness (InvocationClarificationOwner "i-1") 1))] adding.
Lemma cart_exhaustion_unrouted_witness :
  ∃ ws, cart_clarification_result cart_policy asked_once [] cd_quantity
      (mkInvocation "i-1" (ModifyCart add (Some (ResolvedCartItemRef "SKU-1")) None) "t-1") ([], shop_world)
    = (([], shop_world), Done ws) ∧
    route_after_cart_entry (apply_update app (with_clarification_lifecycle ws) asked_once) =
      raises RuntimeError "cart assemble produced no outcome".
Proof.
  apply (cart_exhaustion_unrouted cart_policy app asked_once [] cd_quantity _ (InvocationClarificationOwner "i-1") [] shop_world);
    by vm_compute.
Defined.
