(* ===== verification/Frontline.v ===== *)
(** * The control nodes of the graph (agents/frontline/graph.py)

    The nodes that admit a turn, dispatch it to its capability's owner, refuse
    it or end the automation, their routers, and [clear_automation_state]
    (agents/recovery.py), over the caller's context.  Nodes are named as the
    graph names them; [END] is the end of the turn.  Telemetry is not modelled;
    the closing line the shared rotation is at is an argument. *)

From S2P Require Import Prelude PyText Cart Orders OrderScope Identity Verification OtpProvider Consent Confirmation.
From S2P Require Import SessionState SessionCommit SessionRefine Requests Reasoning Nodes Clarification SupportBase SupportExamples Caller IdentityFlow.
Local Open Scope Z_scope.
Local Open Scope list_scope.

Definition END : string := "__end__".
Definition RECOVERY_NODE_NAME : string := "recover_node_exception".
Definition AUTOMATION_TERMINAL_LINE : string :=
  "I can't continue with automated assistance on this call. Please contact the store directly for further help.".

(** ** The reset of the automation's channels *)
Definition clear_automation_state : list Write :=
  [W_handover None; W_pending_capability_dispatch None; W_pending_router_no_action None;
   W_pending_cart_mutation None; W_pending_placement None; W_pending_refund None; W_pending_cancel None;
   W_pending_return None; W_pending_profile_change None; W_pending_identity None; W_pending_recovery None;
   W_active_invocation None; W_identity_claim_misses 0; W_execution_owner None; W_pending_ack None;
   W_pending_clarification None; W_clarification_liveness None].

(** The name of a channel. *)
Definition channel (w : Write) : string :=
  match w with
  | W_session_revision _ => "session_revision" | W_messages _ => "messages"
  | W_consumed_turn_ids _ => "consumed_turn_ids" | W_handover _ => "handover"
  | W_automation_terminal _ => "automation_terminal"
  | W_pending_capability_dispatch _ => "pending_capability_dispatch"
  | W_pending_router_no_action _ => "pending_router_no_action"
  | W_pending_cart_mutation _ => "pending_cart_mutation" | W_pending_placement _ => "pending_placement"
  | W_pending_refund _ => "pending_refund" | W_pending_cancel _ => "pending_cancel"
  | W_pending_return _ => "pending_return" | W_pending_profile_change _ => "pending_profile_change"
  | W_pending_identity _ => "pending_identity" | W_active_invocation _ => "active_invocation"
  | W_pending_recovery _ => "pending_recovery" | W_identity_claim_misses _ => "identity_claim_misses"
  | W_execution_owner _ => "execution_owner" | W_pending_ack _ => "pending_ack"
  | W_pending_clarification _ => "pending_clarification" | W_clarification_liveness _ => "clarification_liveness"
  | W_product_offer _ => "product_offer" | W_product_reference _ => "product_reference"
  | W_assistant_prompt _ => "assistant_prompt" | W_conversation _ => "conversation"
  | W_confirmation_detour_turn _ => "confirmation_detour_turn" | W_farewell_turn _ => "farewell_turn"
  end.
Definition NON_PREFIXED_AUTOMATION_FIELDS : list string :=
  ["active_invocation"; "handover"; "identity_claim_misses"; "execution_owner"; "clarification_liveness"].
Definition PROTECTED_STATE_FIELDS : list string := ["messages"; "conversation"; "automation_terminal"].

(** [validate_automation_state_clear] of a state type's field names. *)
Definition validate_automation_state_clear (model_fields : list string) : res unit :=
  let expected := base.filter (λ f, starts_with "pending_" f) model_fields ++ NON_PREFIXED_AUTOMATION_FIELDS in
  let reset := channel <$> clear_automation_state in
  requires (forallb (λ f, bool_decide (f ∈ expected)) reset && forallb (λ f, bool_decide (f ∈ reset)) expected
            && forallb (λ f, negb (bool_decide (f ∈ PROTECTED_STATE_FIELDS))) reset)
    RuntimeError "automation-state reset is incomplete or unsafe".

(** ** The registry *)
Definition frontline_specs : list (CapabilityId * string) :=
  [(LIST_ORDERS, "support_capability_entry"); (CANCEL_ORDERS, "support_capability_entry");
   (REFUND_ORDER, "support_capability_entry"); (RETURN_ORDER, "support_capability_entry");
   (CHANGE_PROFILE, "support_capability_entry"); (VIEW_CART, "cart_view_render");
   (VIEW_IDENTITY_STATUS, "identity_status_render"); (VERIFY_IDENTITY, "identity_capability_entry");
   (SWITCH_ACCOUNT, "identity_capability_entry"); (MODIFY_CART, "cart_capability_entry");
   (PLACE_ORDER, "cart_capability_entry"); (SEARCH_CATALOG, "catalog_entry");
   (ANSWER_QUESTION, "answer_response"); (CONVERSE, "converse");
   (DISCLOSE_AI_IDENTITY, "disclose_ai_identity"); (VERIFY_ORDER_STATUS, "order_status_entry");
   (READ_ORDER_TOTAL, "order_status_entry"); (ABORT_CURRENT, "abort_current");
   (REQUEST_PERSON, "request_person")].
Definition build_frontline_capability_registry : res CapabilityRegistry :=
  ss ← mapM (λ '(id, node), make_CapabilitySpec id (Some id) node) frontline_specs;
  new_registry ss.

(** ** Copy *)
#[export] Instance ConversationAct_eq_dec : EqDecision ConversationAct.
Proof. solve_decision. Defined.
Definition CAPABILITY_CALLER_PHRASES : list (CapabilityId * string) :=
  [(VERIFY_ORDER_STATUS, "check an order"); (READ_ORDER_TOTAL, "read an order total");
   (LIST_ORDERS, "go through your orders"); (CANCEL_ORDERS, "cancel an order");
   (REFUND_ORDER, "arrange a refund"); (RETURN_ORDER, "start a return"); (SEARCH_CATALOG, "find a product");
   (VIEW_CART, "read back your basket"); (MODIFY_CART, "change your basket");
   (PLACE_ORDER, "place your order"); (CHANGE_PROFILE, "update your details")].
Definition CONVERSE_LINES (act : ConversationAct) (display_name : string) : res string :=
  match act with
  | greeting => inr ("Hello, you're through to " +:+ display_name +:+ ". What can I help you with?")
  | acknowledgment => inr "You're welcome."
  | farewell => inr ("Thanks for calling " +:+ display_name +:+ ". Goodbye.")
  | invite_request => inr "Of course. What can I help you with?"
  | channel_check => inr "Yes, I can hear you clearly. Go ahead."
  | repair => inr "Sorry about that. Could you say that again?"
  | capability_summary => raises KeyError "capability_summary"
  end.
Definition CAPABILITY_DISPATCH_REJECTED_LINE : string := "I couldn't complete that request. Please try again.".
Definition ROUTER_NO_ACTION_LINES (reason : ClarificationReason + RoutingFailureReason) : string :=
  match reason with
  | inl ambiguous_intent => "I'm not sure what you'd like me to do. Could you say that another way?"
  | inl missing_target => "I'm not sure which item or order you mean. Could you be more specific?"
  | inl missing_value => "I'm missing a detail needed to route that request. What should it be?"
  | inl unsupported_workflow =>
      "I can handle one request at a time. Which part would you like help with first?"
  | inl unsupported_capability | inr _ => CAPABILITY_DISPATCH_REJECTED_LINE
  end.

(** [state.consumed_turn_ids[-1]] *)
Definition latest_turn {W} (st : ReasoningState) : N W string :=
  match last (consumed_turn_ids st) with
  | Some t => mret t
  | None => fail IndexError "tuple index out of range"
  end.
Definition requested (st : ReasoningState) : option IntentRequest := request <$> active_invocation st.

Section frontline.
Context {P PS R E : Type} `{OtpPort P}.
Context (policy : PolicyContext) (registry : CapabilityRegistry) (display_name : string).
Notation CC := (CallerContext P PS R).
Notation node := (N CC (list Write)).
(** [Command(update, goto)] *)
Notation command := (N CC (list Write * string)).
Implicit Types (c : CC) (env : node_env E) (st : ReasoningState).

(** ** Code-authored reads *)
Definition cart_view_line (cart : CartStore) (close : string) : res string :=
  if is_empty cart then inr "Your cart's empty at the moment."
  else line ← render_cart_line (view cart) (cart_total cart); inr (line +:+ close).

Definition with_close (closes : bool) (update : list Write) st : node :=
  if closes then
    turn ← latest_turn st;
    mret (update ++ [W_assistant_prompt (Some (mkPrompt turn))])
  else mret update.

Definition cart_view_render_node (close : string) st : node :=
  if bool_decide (requested st = Some ViewCart) then
    c ← here;
    let cart := w_cart (cc_world c) in
    let closes := negb (is_empty cart) && negb (answers_before_readback st) in
    line ← val (cart_view_line cart (if closes then " " +:+ close else ""));
    with_close closes [W_active_invocation None; say line] st
  else fail TypeError "cart view render requires a view-cart invocation".

Definition identity_status_render_node (close : string) st : node :=
  if bool_decide (requested st = Some ViewIdentityStatus) then
    c ← here;
    let verified := isSome (current (w_identity (cc_world c))) in
    let closes := verified && negb (answers_before_readback st) in
    let line := identity_status_line verified in
    with_close closes [W_active_invocation None; say (if closes then line +:+ " " +:+ close else line)] st
  else fail TypeError "identity status render requires a view-identity-status invocation".

(** ** The ends of automation *)
Definition frontline_handover_node st : node :=
  match handover st with
  | None => fail TypeError "handover requires a human destination"
  | Some _ => mret (clear_automation_state ++ [W_automation_terminal true])
  end.
Definition entry_update : list Write := [W_handover None; W_pending_ack None; W_pending_clarification None].
Definition entry_node st : node := mret entry_update.
Definition automation_terminal_response_node st : node :=
  mret (clear_automation_state ++ [say AUTOMATION_TERMINAL_LINE]).

Definition request_person_node st : node :=
  if bool_decide (requested st = Some RequestPerson) then
    decision ← ask_person_question;
    match verdict decision with
    | human | decided yes =>
        mret (clear_automation_state ++ [hand_to hr_other (default SEMANTIC_ROUTER (handoff_source decision))])
    | decided v =>
        turn ← latest_turn st;
        mret (clear_automation_state ++
              [say (if bool_decide (v = no) then "Okay, I'll keep helping. What can I do for you?"
                    else "I didn't get a clear yes, so I'll keep helping. What can I do for you?");
               W_assistant_prompt (Some (mkPrompt turn))])
    end
  else fail TypeError "request-person owner requires a request-person invocation".

Definition abort_current_node st : node :=
  if bool_decide (requested st = Some AbortCurrent) then
    mret (clear_automation_state ++ [say "Okay. I've stopped that request."])
  else fail TypeError "abort-current owner requires an abort-current invocation".

(** ** Conversation *)
Definition capability_summary_line : string :=
  let offered := snd <$> base.filter (λ p, p.1 ∈ capability_ids registry) CAPABILITY_CALLER_PHRASES in
  match offered with
  | [] => "I can put you through to someone who can help."
  | [one] => "I can " +:+ one +:+ ". What would you like to do?"
  | _ => "I can " +:+ join ", " (removelast offered) +:+ ", or " +:+ List.last offered "" +:+
         ". What would you like to do?"
  end.

Definition converse_line st c (act : ConversationAct) : res string :=
  let cart := w_cart (cc_world c) in
  if bool_decide (act = capability_summary) then inr capability_summary_line
  else if bool_decide (act = farewell) && negb (is_empty cart) && negb (follows_farewell st) then
    items ← speak_lines (view cart);
    inr ("Before you go, you still have " +:+ items +:+ " in your cart. Just say place my order " +:+
         "whenever you're ready. Thanks for calling " +:+ display_name +:+ ".")
  else CONVERSE_LINES act display_name.

Definition converse_node st : node :=
  match requested st with
  | Some (Converse act) =>
      c ← here;
      line ← val (converse_line st c act);
      fare ← (if bool_decide (act = farewell) then turn ← latest_turn st; mret [W_farewell_turn (Some turn)]
              else mret []);
      prompt ← (if bool_decide (act ∈ [greeting; capability_summary; invite_request])
                then turn ← latest_turn st; mret [W_assistant_prompt (Some (mkPrompt turn))] else mret []);
      mret (clear_automation_state ++ [say line] ++ fare ++ prompt)
  | _ => fail TypeError "converse owner requires a converse invocation"
  end.

Definition disclose_ai_identity_node st : node :=
  if bool_decide (requested st = Some DiscloseAiIdentity) then
    mret (clear_automation_state ++
      [say ("Yes, I am an AI assistant for " +:+ display_name +:+ ", not a person. " +:+
            "I can keep helping, or put you through to someone.")])
  else fail TypeError "ai-identity owner requires a disclosure invocation".

Definition owner_declined_node st : node :=
  mret (clear_automation_state ++ [say (ROUTER_NO_ACTION_LINES (inl ambiguous_intent))]).

(** ** Entry and dispatch *)
Definition route_after_entry st : res string :=
  if automation_terminal st then inr "automation_terminal_response"
  else if isSome (pending_recovery st) then inr RECOVERY_NODE_NAME
  else if isSome (pending_capability_dispatch st) then inr "capability_dispatch"
  else if isSome (pending_router_no_action st) then inr "router_no_action"
  else if isSome (active_invocation st) then inr "capability_dispatch"
  else raises RuntimeError "ordinary turn reached the graph without a routed instruction".

Definition reject : list Write * string :=
  (clear_automation_state ++ [say CAPABILITY_DISPATCH_REJECTED_LINE], END).

Definition continuation_destination st (invocation : ActiveInvocation) : res string :=
  if bool_decide (execution_owner st = Some owner_identity) then inr "identity_assemble"
  else resolve registry (request invocation).

Definition capability_dispatch env st : command :=
  match pending_capability_dispatch st with
  | None =>
      match active_invocation st with
      | None => mret reject
      | Some invocation =>
          match continuation_destination st invocation with
          | inl _ => mret reject
          | inr destination => mret ([], destination)
          end
      end
  | Some value =>
      match make_CapabilityDispatchEnvelope (de_turn_id value) (de_mode value) (de_request value)
              (observed_invocation_id value) with
      | inl _ => mret reject
      | inr envelope =>
          if negb (bool_decide (last (consumed_turn_ids st) = Some (de_turn_id envelope))) then mret reject
          else
            match de_mode envelope with
            | mode_continue =>
                match active_invocation st with
                | None => mret reject
                | Some invocation =>
                    if bool_decide (observed_invocation_id envelope = Some (invocation_id invocation)) then
                      match continuation_destination st invocation with
                      | inl _ => mret reject
                      | inr destination => mret ([W_pending_capability_dispatch None], destination)
                      end
                    else mret reject
                end
            | mode_direct =>
                match de_request envelope with
                | None => mret reject
                | Some r =>
                    match resolve registry r with
                    | inl _ => mret reject
                    | inr destination =>
                        replacement ← val (make_ActiveInvocation (ne_fresh env 0) r (de_turn_id envelope));
                        mret (clear_automation_state ++ [W_active_invocation (Some replacement)], destination)
                    end
                end
            end
      end
  end.

(** The caller's own envelope is taken as it is: its class does not revalidate instances. *)
Definition router_no_action st : command :=
  match pending_router_no_action st with
  | None => mret reject
  | Some envelope =>
      if negb (bool_decide (last (consumed_turn_ids st) = Some (na_turn_id envelope))) then mret reject
      else
        let owner := na_owner envelope in
        let owned := match owner with
          | InvocationClarificationOwner id =>
              match active_invocation st with Some i => String.eqb id (invocation_id i) | None => false end
          | _ => negb (isSome (active_invocation st))
          end in
        if negb owned then mret reject
        else
          let step := advance_clarification st owner (router_clarification_reask_max policy) in
          if st_exhausted step then
            mret (clear_automation_state ++ [hand_to hr_other ROUTING_FAILURE_POLICY], "handover")
          else
            mret ([W_pending_router_no_action None; W_clarification_liveness (st_liveness step);
                   say (ROUTER_NO_ACTION_LINES (na_reason envelope))], END)
  end.

(** ** The warning before the principal changes *)
Definition principal_warning_node st : node :=
  invocation ← the (active_invocation st);
  let switching := bool_decide (request invocation = SwitchAccount) in
  decision ← readback_decision
    (if switching then
       "If the new details belong to a different account, switching will clear this " +:+
       "call's cart and recent order context. Orders already placed will remain placed, " +:+
       "but they won't stay available in this conversation. Would you like to continue?"
     else "Verifying an account will clear this call's cart and recent order context. " +:+
       "Orders already placed will remain placed, but they won't stay available in this " +:+
       "conversation. Would you like to continue?")
    ("To " +:+ (if switching then "switch accounts" else "verify the account") +:+
     " and clear this call's context, say yes or no.") false;
  match verdict decision with
  | decided yes => mret [W_execution_owner (Some owner_identity)]
  | human =>
      source ← the (handoff_source decision);
      mret [W_active_invocation None; W_execution_owner None;
            hand_to (if switching then hr_switch_account else hr_verification_required) source]
  | _ =>
      mret [W_active_invocation None; W_execution_owner None;
            say (if switching then "Okay, I'll keep you on the current account."
                 else "Okay, I won't start account verification.")]
  end.
Definition route_after_principal_warning st : string :=
  if isSome (handover st) then "handover"
  else if isSome (active_invocation st) then "identity_assemble" else END.

(** ** The identity routers *)
Definition route_after_identity_capability_entry c st : res string :=
  match requested st with
  | None => raises TypeError "identity capability routing requires an active invocation"
  | Some r =>
      if is_identity_request r then
        let changes := bool_decide (r = SwitchAccount) || negb (isSome (current (w_identity (cc_world c)))) in
        inr (if changes && has_discardable_state c then "principal_warning" else "identity_assemble")
      else raises TypeError "identity capability routing requires an identity request"
  end.
Definition route_after_identity_apply st : string :=
  if isSome (handover st) then "handover"
  else if isSome (active_invocation st) then "capability_dispatch" else END.
End frontline.

(** ** Properties *)
(** The automation holds nothing: no pending action, no selection, no owner. *)
Definition cleared st : Prop :=
  handover st = None ∧ pending_capability_dispatch st = None ∧ pending_router_no_action st = None ∧
  pending_cart_mutation st = None ∧ pending_placement st = None ∧ pending_refund st = None ∧
  pending_cancel st = None ∧ pending_return st = None ∧ pending_profile_change st = None ∧
  pending_identity st = None ∧ pending_recovery st = None ∧ active_invocation st = None ∧
  identity_claim_misses st = 0 ∧ execution_owner st = None ∧ pending_ack st = None ∧
  pending_clarification st = None ∧ clarification_liveness st = None.

(** The reset is complete and safe for the state's own fields, and leaves nothing behind. *)
Definition state_fields : list string :=
  ["session_revision"; "messages"; "consumed_turn_ids"; "handover"; "automation_terminal";
   "pending_capability_dispatch"; "pending_router_no_action"; "pending_cart_mutation"; "pending_placement";
   "pending_refund"; "pending_cancel"; "pending_return"; "pending_profile_change"; "pending_identity";
   "active_invocation"; "pending_recovery"; "identity_claim_misses"; "execution_owner"; "pending_ack";
   "pending_clarification"; "clarification_liveness"; "product_offer"; "product_reference"; "assistant_prompt";
   "conversation"; "confirmation_detour_turn"; "farewell_turn"].
Lemma reset_valid : validate_automation_state_clear state_fields = inr tt.
Proof. by vm_compute. Qed.
Lemma clear_cleared am st : cleared (apply_update am clear_automation_state st).
Proof. by repeat split. Qed.

(** Every request the caller can make has an owner: the frontline's registry is accepted, and
    resolves each of the nineteen kinds of request to a node of its own entries, so a dispatch is
    never refused as unregistered. *)
Theorem every_request_has_owner : ∃ r, build_frontline_capability_registry = inr r ∧
  ∀ q, ∃ node, resolve r q = inr node ∧ node ∈ entry_nodes r ∧
    (kind q, node) ∈ frontline_specs.
Proof.
  eexists. split; [by vm_compute|]. intros q. destruct q; eexists; (split; [reflexivity|]);
    split; apply (bool_decide_unpack _); by vm_compute.
Qed.

Section control_laws.
Context {P PS R E : Type} `{OtpPort P}.
Context (policy : PolicyContext) (registry : CapabilityRegistry) (display_name : string).
Context (am : list Message → list Message → list Message).
Notation CC := (CallerContext P PS R).
Implicit Types (c : CC) (env : node_env E) (st : ReasoningState).

(** What a dispatch does: refuse, open the request of this turn's envelope, or go on with the
    open one. *)
Definition opened env st ws dest : Prop := ∃ e r inv,
  pending_capability_dispatch st = Some e ∧
  last (consumed_turn_ids st) = Some (opened_turn_id inv) ∧
  resolve registry r = inr dest ∧ make_ActiveInvocation (ne_fresh env 0) r (opened_turn_id inv) = inr inv ∧
  (de_mode e = mode_direct ∧ mapO validate_request (de_request e) = inr (Some r)) ∧
  active_invocation (apply_update am ws st) = Some inv ∧
  cleared (apply_update am [W_active_invocation None] (apply_update am ws st)).
Definition continued st ws dest : Prop := ∃ inv,
  active_invocation st = Some inv ∧ continuation_destination registry st inv = inr dest ∧
  active_invocation (apply_update am ws st) = Some inv ∧
  pending_capability_dispatch (apply_update am ws st) = None ∧
  (ws = [] ∨ ws = [W_pending_capability_dispatch None]) ∧
  (pending_capability_dispatch st = None ∨ ∃ e t, pending_capability_dispatch st = Some e ∧
     de_mode e = mode_continue ∧ non_empty_text (de_turn_id e) = inr t ∧ last (consumed_turn_ids st) = Some t ∧
     mapO non_empty_text (observed_invocation_id e) = inr (Some (invocation_id inv))).

Lemma envelope_fields turn mode r observed e : make_CapabilityDispatchEnvelope turn mode r observed = inr e →
  non_empty_text turn = inr (de_turn_id e) ∧ de_mode e = mode ∧ mapO validate_request r = inr (de_request e) ∧
  opt_text observed = inr (observed_invocation_id e).
Proof.
  unfold make_CapabilityDispatchEnvelope. rsplit. done.
Qed.
Lemma made_invocation id r t inv : make_ActiveInvocation id r t = inr inv →
  validate_request r = inr (request inv) ∧ non_empty_text t = inr (opened_turn_id inv).
Proof. unfold make_ActiveInvocation. rsplit. done. Qed.

Lemma reject_cleared st : cleared (apply_update am reject.1 st).
Proof. by repeat split. Qed.
Ltac refuse := intros [= <- <- <-]; split_and!; [done|done|left; split; [done|apply reject_cleared]].

(** A turn is dispatched only as it was admitted.  Whatever the envelope, the dispatch changes
    none of the caller's objects, and it refuses (then nothing is left open), or opens the direct
    request of an envelope admitted for the very last turn (then everything else is reset), or
    goes on with the open request, unchanged: with no envelope, or with a continuation admitted
    for the last turn that observed this very request.  The envelope is used up. *)
Theorem dispatch_admits_current_turn env st ans c s' ws dest :
  capability_dispatch registry env st (ans, c) = (s', Done (ws, dest)) →
  s' = (ans, c) ∧ pending_capability_dispatch (apply_update am ws st) = None ∧
  (((ws, dest) = reject ∧ cleared (apply_update am ws st)) ∨ opened env st ws dest ∨ continued st ws dest).
Proof.
  unfold capability_dispatch. destruct (pending_capability_dispatch st) as [v|] eqn:Hv.
  2: { destruct (active_invocation st) as [inv|] eqn:Hi; [|refuse].
    destruct (continuation_destination _ _ _) as [|d] eqn:Hd; [refuse|intros [= <- <- <-]].
    split_and!; [done|by cbn|]. right; right. exists inv. split_and!; try done; auto. }
  destruct (make_CapabilityDispatchEnvelope _ _ _ _) as [|e] eqn:He; [refuse|].
  destruct (envelope_fields _ _ _ _ _ He) as (Ht & Hm & Hr & Ho).
  case_bool_decide as Hl; cbn [negb]; [|refuse].
  destruct (de_mode e) eqn:Hmode.
  - destruct (de_request e) as [r|]; [|refuse].
    destruct (resolve registry r) as [|d] eqn:Hd; [refuse|].
    intros (inv & Hinv & Hrun)%bind_val. injection Hrun as <- <- <-. split_and!; [done|done|].
    right; left. destruct (made_invocation _ _ _ _ Hinv) as [_ Hturn].
    destruct (non_empty_text_idem _ _ Ht) as [Hidem _]. rewrite Hidem in Hturn. injection Hturn as Hturn.
    exists v, r, inv. rewrite <-Hturn. by split_and!.
  - destruct (active_invocation st) as [inv|] eqn:Hi; [|refuse].
    case_bool_decide as Hobs; [|refuse].
    destruct (continuation_destination _ _ _) as [|d] eqn:Hd; [refuse|intros [= <- <- <-]].
    split_and!; [done|done|]. right; right. exists inv. split_and!; try done; [auto|]. right. exists v, (de_turn_id e).
    split_and!; try done. by rewrite <-opt_text_mapO, Ho, Hobs.
Qed.

(** ** Turns that route nowhere *)
(** One turn the router could not place: it is admitted with its envelope, the entry node clears
    the last turn's signals, and the node runs. *)
Definition no_action_turn (owner : ClarificationOwner) (turn : string)
    (reason : ClarificationReason + RoutingFailureReason) st c : ReasoningState :=
  let st1 := apply_update am entry_update (apply_update am [W_consumed_turn_ids [turn];
    W_pending_router_no_action (Some (mkNoAction turn owner reason))] st) in
  match (router_no_action policy st1 ([], c)).2 with
  | Done (ws, _) => apply_update am ws st1
  | _ => st1
  end.
Fixpoint no_action_turns owner (turns : list (string * (ClarificationReason + RoutingFailureReason))) st c
    : ReasoningState :=
  match turns with
  | [] => st
  | (turn, reason) :: turns =>
      let st' := no_action_turn owner turn reason st c in
      if isSome (handover st') then st' else no_action_turns owner turns st' c
  end.
Definition owned_by (owner : ClarificationOwner) st : Prop :=
  match owner with
  | InvocationClarificationOwner id => invocation_id <$> active_invocation st = Some id
  | RouterClarificationOwner _ => active_invocation st = None
  end.
Definition routing_handover : HandoffRequest := mkHandoff hr_other ROUTING_FAILURE_POLICY.

Lemma no_action_step owner turn reason st c : 0 ≤ router_clarification_reask_max policy →
  turn ∉ consumed_turn_ids st → owned_by owner st →
  let left := remaining_questions owner (router_clarification_reask_max policy) st in
  let st' := no_action_turn owner turn reason st c in
  consumed_turn_ids st' = consumed_turn_ids st ++ [turn] ∧
  match left with
  | O => handover st' = Some routing_handover ∧
         cleared (apply_update am [W_handover None] st')
  | S n => handover st' = None ∧ active_invocation st' = active_invocation st ∧
           remaining_questions owner (router_clarification_reask_max policy) st' = n
  end.
Proof.
  intros Hmax Hfresh Hown left st'. unfold st', no_action_turn.
  set (st1 := apply_update am entry_update _).
  assert (consumed_turn_ids st1 = consumed_turn_ids st ++ [turn]) as Hc.
  { change (merge_consumed_turn_ids (consumed_turn_ids st) [turn] = consumed_turn_ids st ++ [turn]).
    cbn. by rewrite decide_False. }
  assert (clarification_liveness st1 = clarification_liveness st) as Hlive by reflexivity.
  assert (active_invocation st1 = active_invocation st) as Hi by reflexivity.
  assert (pending_router_no_action st1 = Some (mkNoAction turn owner reason)) as Hp by reflexivity.
  assert (handover st1 = None) as Hh by reflexivity. clearbody st1. clear st'.
  assert (remaining_questions owner (router_clarification_reask_max policy) st1 = left) as Hleft
    by (unfold left, remaining_questions; by rewrite Hlive).
  unfold router_no_action. rewrite Hp. cbn [na_turn_id na_owner]. rewrite bool_decide_eq_true_2 by (by rewrite Hc, last_snoc).
  cbn [negb]. rewrite Hi.
  assert (match owner with
    | InvocationClarificationOwner id =>
        match active_invocation st with Some i => String.eqb id (invocation_id i) | None => false end
    | RouterClarificationOwner _ => negb (isSome (active_invocation st))
    end = true) as ->.
  { destruct owner; unfold owned_by in Hown; destruct (active_invocation st); try done.
    injection Hown as ->. apply String.eqb_refl. }
  cbn [negb]. destruct (remaining_step owner _ st1 Hmax) as [Hex Hs]. rewrite Hleft in Hex, Hs.
  destruct (st_exhausted _) eqn:Est.
  - rewrite (proj1 Hex eq_refl). repeat split. exact Hc.
  - rewrite (Hs eq_refl). repeat split; [exact Hc|exact Hh|exact Hi].
Qed.

(** Unplaced turns reach a person.  A caller whose turns the router cannot place hears a
    question each time, the open request staying as it is, for exactly the questions its owner
    has left, never more than one over the policy's re-asks; the next such turn is handed to a
    person with nothing left open. *)
Theorem unplaced_turns_reach_person owner turns : 0 ≤ router_clarification_reask_max policy → ∀ st c,
  NoDup (consumed_turn_ids st ++ (fst <$> turns)) → owned_by owner st → handover st = None →
  (match clarification_liveness st with Some l => 0 ≤ cl_reasks l | None => True end) →
  let left := remaining_questions owner (router_clarification_reask_max policy) st in
  let st' := no_action_turns owner turns st c in
  (left ≤ S (Z.to_nat (router_clarification_reask_max policy)))%nat ∧
  if (left <? length turns)%nat
  then handover st' = Some routing_handover ∧ cleared (apply_update am [W_handover None] st')
  else handover st' = None ∧ active_invocation st' = active_invocation st.
Proof.
  intros Hmax st c Hnd Hown Hh Hl left st'. split.
  { unfold left, remaining_questions. destruct (clarification_liveness st); [case_bool_decide|]; lia. }
  clear Hl. unfold left, st'. clear left st'. revert st Hnd Hown Hh.
  induction turns as [|[turn reason] turns IH]; intros st Hnd Hown Hh; [done|].
  cbn [no_action_turns length fmap list_fmap fst] in *.
  destruct (no_action_step owner turn reason st c Hmax) as [Hc Hs]; [|done|].
  { apply NoDup_app in Hnd as (_ & Hd & _). intros Hin. apply (Hd turn Hin). left. }
  set (st' := no_action_turn owner turn reason st c) in *. clearbody st'.
  destruct (remaining_questions owner _ st) as [|n] eqn:Hr.
  - destruct Hs as [Hh' Hcl]. rewrite Hh'. by cbn.
  - destruct Hs as (Hh' & Hi' & Hr'). rewrite Hh'. cbn [isSome]. rewrite <-Hi'.
    specialize (IH st'). rewrite Hr' in IH. apply IH; [|unfold owned_by in *; by rewrite Hi'|done].
    by rewrite Hc, <-app_assoc.
Qed.

(** ** The end of the automation *)
(** A later turn of a call whose automation ended: what the engine admits, the entry and the
    node the entry's router names; no other node is run. *)
Definition terminal_turn (admitted : list Write) st c : res ReasoningState :=
  let st1 := apply_update am entry_update (apply_update am admitted st) in
  destination ← route_after_entry st1;
  if String.eqb destination "automation_terminal_response" then
    match (automation_terminal_response_node st1 ([], c)).2 with
    | Done ws => inr (apply_update am ws st1)
    | Raised e => inl e
    | Suspended _ => raises RuntimeError ""
    end
  else raises RuntimeError "".
Fixpoint terminal_turns (turns : list (list Write)) st c : res ReasoningState :=
  match turns with
  | [] => inr st
  | admitted :: turns => st' ← terminal_turn admitted st c; terminal_turns turns st' c
  end.

Lemma terminal_turn_spec admitted st c : automation_terminal (apply_update am admitted st) = true →
  ∃ st', terminal_turn admitted st c = inr st' ∧ automation_terminal st' = true ∧ cleared st' ∧
    messages st' = am (messages (apply_update am admitted st)) [AIMessage AUTOMATION_TERMINAL_LINE []].
Proof.
  intros Ht. unfold terminal_turn. cbv zeta. set (st1 := apply_update am entry_update _).
  assert (automation_terminal st1 = true) as Ht1 by exact Ht.
  unfold route_after_entry. rewrite Ht1. cbn [mbind res_bind String.eqb].
  eexists. split; [reflexivity|]. split; [exact Ht1|split; [by repeat split|reflexivity]].
Qed.

(** A handover ends the automation for good.  The handover node ends with everything reset and
    the call marked; from then on, whatever further turns are admitted, as long as none of them
    unmarks the call, each is answered by the closing line and nothing else: the entry routes to
    it past any instruction the turn carries, nothing is left open, and the mark stays. *)
Theorem handover_ends_automation st h c s' ws turns :
  handover st = Some h → frontline_handover_node st ([], c) = (s', Done ws) →
  Forall (λ admitted, written (λ w, match w with W_automation_terminal b => Some b | _ => None end) admitted = None) turns →
  let st0 := apply_update am ws st in
  s' = ([], c) ∧ cleared st0 ∧ automation_terminal st0 = true ∧
  ∃ st', terminal_turns turns st0 c = inr st' ∧ automation_terminal st' = true ∧ cleared st'.
Proof.
  intros Hh Hrun Hturns st0. unfold frontline_handover_node in Hrun. rewrite Hh in Hrun. injection Hrun as <- <-.
  assert (cleared st0) as Hc by (by repeat split). assert (automation_terminal st0 = true) as Ht by done.
  split_and!; [done..|]. clearbody st0. clear Hh. revert st0 Hc Ht.
  induction Hturns as [|admitted turns Hw _ IH]; intros st0 Hc Ht; cbn [terminal_turns]; [by exists st0|].
  assert (automation_terminal (apply_update am admitted st0) = true) as Ht1.
  { cbn [apply_update automation_terminal]. unfold last_value. by rewrite Hw. }
  destruct (terminal_turn_spec admitted st0 c Ht1) as (st1 & -> & Ht' & Hc' & _). by apply IH.
Qed.

(** The caller is warned before losing context.  An identity request that would change the
    caller, while the cart or an order context would be lost, is routed to the warning; the
    warning changes nothing itself, and the identity flow is entered from it only after its
    question was answered, last of all, with a yes; any other answer closes the request. *)
Theorem principal_change_warned st c ans s' ws r :
  (requested st = Some r → is_identity_request r = true →
   r = SwitchAccount ∨ current (w_identity (cc_world c)) = None →
   route_after_identity_capability_entry c st =
     inr (if has_discardable_state c then "principal_warning" else "identity_assemble")) ∧
  (handover st = None → principal_warning_node st (ans, c) = (s', Done ws) →
   s'.2 = c ∧
   let st' := apply_update am ws st in
   (route_after_principal_warning st' = "identity_assemble" ∧ heard_yes false ans s'.1 ∧
    active_invocation st' = active_invocation st ∧ execution_owner st' = Some owner_identity) ∨
   (route_after_principal_warning st' ≠ "identity_assemble" ∧
    active_invocation st' = None ∧ execution_owner st' = None)).
Proof.
  split.
  - intros Hr Hid Hch. unfold route_after_identity_capability_entry. rewrite Hr, Hid. f_equal.
    assert (bool_decide (r = SwitchAccount) || negb (isSome (current (w_identity (cc_world c)))) = true) as ->.
    { destruct Hch as [-> | ->]; [done|]. apply orb_true_r. }
    done.
  - intros Hh Hrun. assert (pure_node (principal_warning_node (P:=P) (PS:=PS) (R:=R) st)) as Hpure
      by (unfold principal_warning_node; pure_steps).
    specialize (Hpure ans c). rewrite Hrun in Hpure. cbn in Hpure. split; [done|]. clear Hpure.
    unfold principal_warning_node in Hrun. apply bind_the in Hrun as (inv & Hi & Hrun). cbv zeta in Hrun.
    apply bind_done in Hrun as (d & s1 & Hd & Hrun).
    destruct (verdict d) as [|v] eqn:Hv; [|destruct v]; nsteps.
    all: first [right; split_and!; [by unfold route_after_principal_warning; cbn; rewrite ?Hh|done|done] | left].
    split_and!; [unfold route_after_principal_warning; cbn; by rewrite Hh, Hi|by eapply readback_yes|done|done].
Qed.
End control_laws.

(** ** Examples *)
Definition shop_registry : CapabilityRegistry :=
  match build_frontline_capability_registry with inr r => r | inl _ => mkRegistry [] [] [] end.
(** The caller's second turn asks to see the cart, while an addition is being filled in. *)
Definition adding_hat : ActiveInvocation := mkInvocation "i-1" (ModifyCart add None None) "t-1".
Definition asked (mode : dispatch_mode) (turn : string) (r : option IntentRequest) (observed : option string)
    : ReasoningState :=
  apply_update app
    [W_consumed_turn_ids ["t-1"; "t-2"]; W_active_invocation (Some adding_hat); W_execution_owner (Some owner_cart);
     W_pending_capability_dispatch (Some (mkEnvelope turn mode r observed))] initial_state.
Definition dispatched st :=
  capability_dispatch shop_registry shop_env st ([], shop_caller false).
Definition dispatched_to st : list Write * string :=
  match (dispatched st).2 with Done r => r | _ => ([], "") end.

Lemma dispatch_admits_current_turn_witness :
  opened shop_registry app shop_env (asked mode_direct "t-2" (Some ViewCart) None)
    (dispatched_to (asked mode_direct "t-2" (Some ViewCart) None)).1 "cart_view_render" ∧
  (dispatched_to (asked mode_continue "t-2" None (Some "i-1"))).2 = "cart_capability_entry" ∧
  dispatched_to (asked mode_direct "t-1" (Some ViewCart) None) = reject.
Proof.
  split; [|split; by vm_compute]. set (st := asked mode_direct "t-2" (Some ViewCart) None).
  destruct (dispatch_admits_current_turn shop_registry app shop_env st [] (shop_caller false)
    (dispatched st).1 (dispatched_to st).1 "cart_view_render") as (_ & _ & [[Hr _]|[Ho|(inv & Hi & _ & Hc & _)]]).
  - assert (Done ((dispatched_to st).1, "cart_view_render") = (dispatched st).2) as -> by (by vm_compute).
    rewrite <-surjective_pairing. reflexivity.
  - apply (f_equal snd) in Hr. by vm_compute in Hr.
  - exact Ho.
  - injection Hi as <-. by vm_compute in Hc.
Defined.

(** Turns the router cannot place, asked about by the router itself. *)
Definition unplaced (turn : string) : string * (ClarificationReason + RoutingFailureReason) :=
  (turn, inl ambiguous_intent).
Definition router_owner : ClarificationOwner := RouterClarificationOwner "r-1".
Lemma unplaced_turns_reach_person_witness :
  handover (no_action_turns shop_policy app router_owner (unplaced <$> ["t-1"; "t-2"; "t-3"]) initial_state
    (shop_caller false)) = Some routing_handover ∧
  handover (no_action_turns shop_policy app router_owner (unplaced <$> ["t-1"; "t-2"]) initial_state
    (shop_caller false)) = None.
Proof.
  split.
  - apply (unplaced_turns_reach_person shop_policy app router_owner (unplaced <$> ["t-1"; "t-2"; "t-3"]) ltac:(by vm_compute)
      initial_state (shop_caller false) ltac:(apply (bool_decide_unpack _); by vm_compute) eq_refl eq_refl I).
  - apply (unplaced_turns_reach_person shop_policy app router_owner (unplaced <$> ["t-1"; "t-2"]) ltac:(by vm_compute)
      initial_state (shop_caller false) ltac:(apply (bool_decide_unpack _); by vm_compute) eq_refl eq_refl I).
Defined.

Definition handing_over : ReasoningState :=
  apply_update app [hand_to hr_other ROUTING_FAILURE_POLICY; W_active_invocation (Some adding_hat)] initial_state.
Lemma handover_ends_automation_witness :
  ∃ st', terminal_turns app [[W_consumed_turn_ids ["t-2"];
      W_pending_capability_dispatch (Some (mkEnvelope "t-2" mode_direct (Some PlaceOrder) None))]; []]
    (apply_update app (clear_automation_state ++ [W_automation_terminal true]) handing_over) (shop_caller false) = inr st' ∧
    automation_terminal st' = true ∧ cleared st'.
Proof.
  eapply (handover_ends_automation app handing_over _ (shop_caller false) ([], shop_caller false)
    (clear_automation_state ++ [W_automation_terminal true])); [reflexivity|reflexivity|].
  by repeat constructor.
Defined.

(** A guest with an order in hand asks to be verified. *)
Definition verify_asked : ReasoningState :=
  apply_update app [W_active_invocation (Some (mkInvocation "i-2" VerifyIdentity "t-1"))] initial_state.
Definition warning_run := principal_warning_node verify_asked ([a_yes], shop_caller false).
Lemma principal_change_warned_witness :
  route_after_identity_capability_entry (shop_caller false) verify_asked =
    inr (if has_discardable_state (shop_caller false) then "principal_warning" else "identity_assemble") ∧
  warning_run.1.2 = shop_caller false ∧
  route_after_principal_warning (apply_update app (writes_of warning_run) verify_asked) = "identity_assemble".
Proof.
  destruct (principal_change_warned app verify_asked (shop_caller false) [a_yes] warning_run.1 (writes_of warning_run)
    VerifyIdentity) as [Hroute Hwarn].
  split; [apply Hroute; [done|done|by right]|].
  destruct (Hwarn eq_refl) as [Hc _].
  - assert (Done (writes_of warning_run) = warning_run.2) as -> by (by vm_compute).
    rewrite <-surjective_pairing. reflexivity.
  - split; [exact Hc|by vm_compute].
Defined.
