(* ===== verification/Recovery.v ===== *)
(** * Failure recovery (agents/recovery.py, and its wiring in agents/frontline/graph.py)

    The registry every node of the graph is registered in with what a failure
    of it means, the handler that turns a node's exception into a recovery
    marker, and the recovery node, which reads the effect's receipt from the
    authoritative store instead of running the effect again.  Logging and
    telemetry are not modelled; that the graph runs the handler when a node
    raises is langgraph's. *)

From S2P Require Import Prelude PyText Regex Money Receipts Cart Orders OrderScope OrderStore OrderLedger Identity Profile.
From S2P Require Import Verification OtpProvider ProofStore Consent Confirmation SessionState SessionCommit SessionRefine.
From S2P Require Import Requests Reasoning Nodes Stepup SupportBase SupportRefund SupportCancel SupportProfile SupportExamples.
From S2P Require Import Clarification Caller IdentityFlow CartFlow CartExamples Frontline.
Local Open Scope Z_scope.
Local Open Scope list_scope.

#[export] Instance ExceptionAction_eq_dec : EqDecision ExceptionAction.
Proof. solve_decision. Defined.
Inductive AbandonmentKind :=
  | PURE_ABORT | ABANDON_CART_REVIEW | AUTHORITATIVE_RECONCILE | LIFECYCLE_SPECIAL | ABANDON_TERMINAL.
#[export] Instance AbandonmentKind_eq_dec : EqDecision AbandonmentKind.
Proof. solve_decision. Defined.
Inductive interrupt_kind := standard | cancel_kind.

(** ** The registry of nodes *)
Record NodeRecoveryPolicy := mkNodePolicy { on_exception : ExceptionAction; on_abandonment : AbandonmentKind }.
Definition on_cancellation (p : NodeRecoveryPolicy) : ExceptionAction :=
  if bool_decide (on_abandonment p = ABANDON_TERMINAL) then TERMINAL else on_exception p.

Definition ordinary_exception_handler_enabled (a : ExceptionAction) : bool :=
  negb (bool_decide (a = ENGINE_LAST_RESORT)).

Record Registration := mkRegistration {
  rg_name : string; rg_exception : ExceptionAction; rg_abandonment : AbandonmentKind;
  rg_consent : option interrupt_kind; rg_restore : bool }.
Record NodePolicyRegistry := mkNodes {
  policies : list (string * NodeRecoveryPolicy);
  infrastructure : list string;
  handled : list string;
  consent_interrupt_kinds : list (string * interrupt_kind);
  restore_reconfirmation : list string;
  tracked_node_names : list string }.

(** [register], under [build_node_error_handler]; a pure node is not tracked. *)
Definition register_node (r : NodePolicyRegistry) (g : Registration) : res NodePolicyRegistry :=
  let name := rg_name g in
  requires (negb (dmem name (policies r) || bool_decide (name ∈ infrastructure r))) RuntimeError
    "duplicate recovery policy registration" ;;
  requires (negb (isSome (rg_consent g)) || bool_decide (rg_abandonment g = LIFECYCLE_SPECIAL)) ValueError
    "a consent interrupt must use lifecycle-special abandonment" ;;
  requires (negb (rg_restore g) || isSome (rg_consent g)) ValueError
    "restore re-confirmation requires a consent interrupt" ;;
  tracked ← (if bool_decide (rg_abandonment g = PURE_ABORT) then inr (tracked_node_names r)
             else requires (negb (bool_decide (name ∈ tracked_node_names r))) RuntimeError "node is already tracked" ;;
                  inr (tracked_node_names r ++ [name]));
  inr (mkNodes (dset name (mkNodePolicy (rg_exception g) (rg_abandonment g)) (policies r)) (infrastructure r)
    (if ordinary_exception_handler_enabled (rg_exception g) then handled r ++ [name] else handled r)
    (match rg_consent g with Some k => dset name k (consent_interrupt_kinds r) | None => consent_interrupt_kinds r end)
    (if rg_restore g then restore_reconfirmation r ++ [name] else restore_reconfirmation r) tracked).
Definition register_infrastructure (r : NodePolicyRegistry) (name : string) : res NodePolicyRegistry :=
  requires (negb (dmem name (policies r) || bool_decide (name ∈ infrastructure r))) RuntimeError
    "duplicate recovery policy registration" ;;
  inr (mkNodes (policies r) (infrastructure r ++ [name]) (handled r) (consent_interrupt_kinds r)
    (restore_reconfirmation r) (tracked_node_names r)).
Fixpoint foldR {A B} (f : B → A → res B) (b : B) (l : list A) : res B :=
  match l with [] => inr b | a :: l => b ← f b a; foldR f b l end.

(** The registrations of [build_frontline_graph], in its order. *)
Definition frontline_registrations : list Registration :=
  [mkRegistration "entry" SAFE_ABORT PURE_ABORT None false;
   mkRegistration "handover" TERMINAL ABANDON_TERMINAL None false;
   mkRegistration "automation_terminal_response" ENGINE_LAST_RESORT ABANDON_TERMINAL None false;
   mkRegistration "request_person" SAFE_ABORT LIFECYCLE_SPECIAL (Some standard) true;
   mkRegistration "abort_current" SAFE_ABORT PURE_ABORT None false;
   mkRegistration "converse" SAFE_ABORT PURE_ABORT None false;
   mkRegistration "disclose_ai_identity" SAFE_ABORT PURE_ABORT None false;
   mkRegistration "owner_declined" SAFE_ABORT PURE_ABORT None false;
   mkRegistration "principal_warning" ABORT_PRINCIPAL_WARNING LIFECYCLE_SPECIAL (Some standard) false;
   mkRegistration "cart_capability_entry" CART_REVIEW ABANDON_CART_REVIEW None false;
   mkRegistration "cart_ack" CART_REVIEW ABANDON_CART_REVIEW None false;
   mkRegistration "cart_clarify" SAFE_ABORT PURE_ABORT None false;
   mkRegistration "cart_mutation_confirm" CART_REVIEW LIFECYCLE_SPECIAL (Some standard) true;
   mkRegistration "cart_mutation_apply" CART_REVIEW AUTHORITATIVE_RECONCILE None false;
   mkRegistration "cart_guardrail" SAFE_ABORT PURE_ABORT None false;
   mkRegistration "cart_confirm" ABORT_PLACEMENT_CONFIRMATION LIFECYCLE_SPECIAL (Some standard) true;
   mkRegistration "cart_place" RECONCILE_PLACEMENT AUTHORITATIVE_RECONCILE None false;
   mkRegistration "capability_dispatch" SAFE_ABORT PURE_ABORT None false;
   mkRegistration "router_no_action" SAFE_ABORT PURE_ABORT None false;
   mkRegistration "support_capability_entry" SAFE_ABORT PURE_ABORT None false;
   mkRegistration "identity_capability_entry" SAFE_ABORT PURE_ABORT None false;
   mkRegistration "support_capability_render" SAFE_ABORT PURE_ABORT None false;
   mkRegistration "cart_view_render" SAFE_ABORT PURE_ABORT None false;
   mkRegistration "identity_status_render" SAFE_ABORT PURE_ABORT None false;
   mkRegistration "catalog_entry" SAFE_ABORT PURE_ABORT None false;
   mkRegistration "catalog_query_reject" SAFE_ABORT PURE_ABORT None false;
   mkRegistration "catalog_response" SAFE_ABORT PURE_ABORT None false;
   mkRegistration "answer_response" SAFE_ABORT PURE_ABORT None false;
   mkRegistration "answer_clarify" SAFE_ABORT PURE_ABORT None false;
   mkRegistration "answer_unsupported" SAFE_ABORT PURE_ABORT None false;
   mkRegistration "order_status_entry" SAFE_ABORT PURE_ABORT None false;
   mkRegistration "order_status_target_ask" SAFE_ABORT PURE_ABORT None false;
   mkRegistration "order_status_target_propose" SAFE_ABORT PURE_ABORT None false;
   mkRegistration "order_status_no_visible_orders" SAFE_ABORT PURE_ABORT None false;
   mkRegistration "order_status_target_confirm" SAFE_ABORT LIFECYCLE_SPECIAL (Some standard) true;
   mkRegistration "order_status_target_reject" SAFE_ABORT PURE_ABORT None false;
   mkRegistration "order_status_fulfill" SAFE_ABORT PURE_ABORT None false;
   mkRegistration "support_clarify" SAFE_ABORT PURE_ABORT None false;
   mkRegistration "support_guardrail" SAFE_ABORT PURE_ABORT None false;
   mkRegistration "support_risk_check" SAFE_ABORT PURE_ABORT None false;
   mkRegistration "support_dispatch" ABORT_REFUND_VERIFICATION LIFECYCLE_SPECIAL None false;
   mkRegistration "support_collect" ABORT_REFUND_VERIFICATION LIFECYCLE_SPECIAL None false;
   mkRegistration "support_confirm" ABORT_REFUND_CONFIRMATION LIFECYCLE_SPECIAL (Some standard) true;
   mkRegistration "support_place" RECONCILE_REFUND AUTHORITATIVE_RECONCILE None false;
   mkRegistration "support_cancel_guardrail" SAFE_ABORT PURE_ABORT None false;
   mkRegistration "support_cancel_confirm" ABORT_CANCEL_CONFIRMATION LIFECYCLE_SPECIAL (Some cancel_kind) true;
   mkRegistration "support_cancel_void" RECONCILE_CANCEL AUTHORITATIVE_RECONCILE None false;
   mkRegistration "support_resolve" SAFE_ABORT PURE_ABORT None false;
   mkRegistration "support_return_guardrail" SAFE_ABORT PURE_ABORT None false;
   mkRegistration "support_return_confirm" ABORT_RETURN_CONFIRMATION LIFECYCLE_SPECIAL (Some standard) true;
   mkRegistration "support_return_place" RECONCILE_RETURN AUTHORITATIVE_RECONCILE None false;
   mkRegistration "support_profile_guardrail" SAFE_ABORT PURE_ABORT None false;
   mkRegistration "support_profile_risk_check" SAFE_ABORT PURE_ABORT None false;
   mkRegistration "support_profile_dispatch" ABORT_PROFILE_VERIFICATION LIFECYCLE_SPECIAL None false;
   mkRegistration "support_profile_collect" ABORT_PROFILE_VERIFICATION LIFECYCLE_SPECIAL None false;
   mkRegistration "support_profile_confirm" ABORT_PROFILE_CONFIRMATION LIFECYCLE_SPECIAL (Some standard) false;
   mkRegistration "support_profile_place" RECONCILE_PROFILE_CHANGE AUTHORITATIVE_RECONCILE None false;
   mkRegistration "identity_assemble" SAFE_ABORT PURE_ABORT None false;
   mkRegistration "identity_ask_contact" SAFE_ABORT PURE_ABORT None false;
   mkRegistration "identity_reask" SAFE_ABORT PURE_ABORT None false;
   mkRegistration "identity_guardrail" SAFE_ABORT PURE_ABORT None false;
   mkRegistration "identity_risk_check" SAFE_ABORT PURE_ABORT None false;
   mkRegistration "identity_dispatch" ABORT_IDENTITY_VERIFICATION LIFECYCLE_SPECIAL None false;
   mkRegistration "identity_collect" ABORT_IDENTITY_VERIFICATION LIFECYCLE_SPECIAL None false;
   mkRegistration "identity_apply" RECONCILE_PRINCIPAL_TRANSITION LIFECYCLE_SPECIAL None false].
Definition RECOVERY_TERMINALIZER_NODE_NAME : string := "terminalize_recovery_failure".
Definition frontline_nodes : res NodePolicyRegistry :=
  r ← foldR register_node (mkNodes [] [] [] [] [] []) frontline_registrations;
  foldR register_infrastructure r [RECOVERY_NODE_NAME; RECOVERY_TERMINALIZER_NODE_NAME; "principal_seed_complete"].

(** ** What a failure becomes *)
(** The handler of [origin]; [failed] is the node the error names. *)
Definition build_node_error_handler (origin : string) (policy : NodeRecoveryPolicy) (failed : string)
    : option (res (list Write * string)) :=
  if ordinary_exception_handler_enabled (on_exception policy) then
    let action :=
      if String.eqb failed origin then on_exception policy
      else if bool_decide (on_exception policy = TERMINAL) then SAFE_ABORT else TERMINAL in
    Some (m ← make_PendingRecovery origin action node_exception None;
          inr ([W_pending_recovery (Some m)], RECOVERY_NODE_NAME))
  else None.
Definition build_recovery_infrastructure_handler : string := RECOVERY_TERMINALIZER_NODE_NAME.
Definition build_recovery_terminalizer : list Write := clear_automation_state ++ [W_automation_terminal true].

Definition TURN_FALLBACK_LINE : string :=
  "Sorry - I hit a snag on my end just now. Could you say that again?".
Definition PRINCIPAL_TRANSITION_FAILURE_LINE : string :=
  "I couldn't finish that account request; please try it again.".
Definition PLACEMENT_INCOMPLETE : string :=
  "That order placement request did not complete. Your cart is still saved for review.".
Definition REFUND_INCOMPLETE : string := "That refund request did not complete. Please try it again.".
Definition PROFILE_INCOMPLETE : string := "That profile update did not complete. Your profile is unchanged.".
Definition ACTION_LINES (a : ExceptionAction) : option string :=
  match a with
  | ABORT_PRINCIPAL_WARNING =>
      Some "The account verification or switch confirmation did not complete. Please try that request again."
  | ABORT_PLACEMENT_CONFIRMATION => Some PLACEMENT_INCOMPLETE
  | ABORT_REFUND_VERIFICATION | ABORT_REFUND_CONFIRMATION => Some REFUND_INCOMPLETE
  | ABORT_CANCEL_CONFIRMATION => Some "That cancellation request did not complete. Your orders are unchanged."
  | ABORT_RETURN_CONFIRMATION => Some "That return request did not complete. No return was created."
  | ABORT_PROFILE_VERIFICATION | ABORT_PROFILE_CONFIRMATION => Some PROFILE_INCOMPLETE
  | ABORT_IDENTITY_VERIFICATION => Some "Account verification did not complete. Please try that request again."
  | RECONCILE_PRINCIPAL_TRANSITION => Some PRINCIPAL_TRANSITION_FAILURE_LINE
  | _ => None
  end.
Definition NOT_COMMITTED_LINES (a : ExceptionAction) : option string :=
  match a with
  | RECONCILE_PLACEMENT => Some PLACEMENT_INCOMPLETE
  | RECONCILE_REFUND => Some "That refund request did not complete."
  | RECONCILE_RETURN => Some "That return request did not complete."
  | RECONCILE_PROFILE_CHANGE => Some "That profile update request did not complete."
  | _ => None
  end.

Record recovery_env (E : Type) := mkRecoveryEnv { re_node : node_env E; re_publish2 : E; re_close : string }.
Arguments mkRecoveryEnv {E}. Arguments re_node {E}. Arguments re_publish2 {E}. Arguments re_close {E}.

Section recovery.
Context {P PS R E : Type} `{OtpPort P} `{SessionPersistence PS E}.
Context (fingerprint : SessionRequest → string) (nodes : NodePolicyRegistry).
Notation CC := (CallerContext P PS R).
Notation W := (World P PS R).
Notation command := (N CC (list Write * string)).
Implicit Types (c : CC) (env : recovery_env E) (st : ReasoningState) (m : PendingRecovery).

Definition in_world {A} (n : N W A) : N CC A := zoom cc_world set_world n.

Definition terminal_result : list Write :=
  clear_automation_state ++ [W_automation_terminal true; say AUTOMATION_TERMINAL_LINE].
(** A plain update ends the graph there. *)
Definition ends {V} (update : list Write) : N V (list Write * string) := mret (update, END).
Definition complete (finisher : N W (list Write)) : command :=
  update ← in_world finisher; ends (clear_automation_state ++ update).
Definition not_committed m : command :=
  match NOT_COMMITTED_LINES (rec_action m) with
  | None => ends terminal_result
  | Some line => ends (clear_automation_state ++ [say line])
  end.
Definition by_receipt {A} m (receipt : ReceiptLookup A) (finisher : A → N W (list Write)) : command :=
  match receipt with
  | CommittedReceipt record => complete (finisher record)
  | NotCommittedReceipt => not_committed m
  | IndeterminateReceipt _ => ends terminal_result
  end.

(** The outcomes so far are those of the first targets, in order. *)
Definition outcomes_aligned (b : PendingCancelBatch) : bool :=
  forallb (λ p, String.eqb (bo_order_id p.1) (ct_order_id p.2)) (zip (cb_outcomes b) (cb_targets b)).

Definition reconcile_effect env m st : command :=
  c ← here;
  let o := w_orders (cc_world c) in
  let node := re_node env in
  match rec_action m with
  | RECONCILE_PLACEMENT =>
      match pending_placement st with
      | None => ends terminal_result
      | Some p =>
          receipt ← val (placement_receipt o (pp_idempotency_key p) (pp_lines p) (Money.dec_of_cents (pp_total_usd p)));
          by_receipt m receipt (finish_placement fingerprint node (pp_idempotency_key p))
      end
  | RECONCILE_REFUND =>
      match pending_refund st with
      | None => ends terminal_result
      | Some p =>
          receipt ← val (refund_receipt o (pr_idempotency_key p) (pr_order_id p) (Money.dec_of_cents (pr_amount_usd p))
                           (destination_text (pr_destination p)) (pr_instrument_ref p));
          by_receipt m receipt (finish_refund fingerprint node (pr_idempotency_key p))
      end
  | RECONCILE_CANCEL =>
      match pending_cancel_batch st with
      | None => ends terminal_result
      | Some b =>
          match cb_targets b !! length (cb_outcomes b) with
          | Some target =>
              if outcomes_aligned b then
                match cancel_receipt o (ct_idempotency_key target) (ct_order_id target) with
                | CommittedReceipt record =>
                    outcome ← val (cancelled_batch_outcome record);
                    complete (finish_cancel fingerprint node b outcome true)
                | NotCommittedReceipt =>
                    outcome ← val (target_outcome target oc_not_completed);
                    complete (finish_cancel fingerprint node b outcome true)
                | IndeterminateReceipt _ => ends terminal_result
                end
              else ends terminal_result
          | None => ends terminal_result
          end
      end
  | RECONCILE_RETURN =>
      match pending_return st with
      | None => ends terminal_result
      | Some p =>
          receipt ← val (return_receipt o (pn_idempotency_key p) (pn_order_id p)
                           (Money.dec_of_cents (pn_refund_due_usd p)) "original");
          by_receipt m receipt (finish_return fingerprint node (pn_idempotency_key p))
      end
  | RECONCILE_PROFILE_CHANGE =>
      match pending_profile_change st with
      | None => ends terminal_result
      | Some p =>
          by_receipt m (profile_change_receipt (w_profiles (cc_world c)) (pf_idempotency_key p) (pf_customer_ref p)
                          (pf_field p) (pf_new_value p)) finish_profile_change
      end
  | _ => ends terminal_result
  end.

Definition reconcile_principal_transition env st : command :=
  c ← here;
  inspected ← val (inspect_principal_transition (se_now (ne_store (re_node env))) c);
  match inspected.1 with
  | insp_none => ends (clear_automation_state ++ [say PRINCIPAL_TRANSITION_FAILURE_LINE])
  | outcome =>
      transition ← the inspected.2;
      let identity_matches :=
        match pending_identity st with
        | Some p => String.eqb (pi_customer_ref p) (tr_customer_ref transition)
                    && String.eqb (pi_masked_contact p) (tr_masked_contact transition)
        | None => false
        end in
      let request_matches := bool_decide (requested st = Some (initiating_request transition)) in
      if bool_decide (outcome = insp_coherent) && identity_matches && request_matches then
        projection ← val (project_principal_transition (Some (initiating_request transition)));
        ends (clear_automation_state ++
              match principal_completion_line (pt_completion_kind projection) with
              | Some line => [say line] | None => [] end)
      else
        act (invalidate_principal_transition fingerprint (ne_publish (re_node env)) (re_publish2 env)
               (Some (transition_id transition))) ;;
        c ← here;
        ends (terminal_result ++ [W_session_revision (session_revision c)])
  end.

Definition cart_review env m st : command :=
  c ← here;
  let cart := w_cart (cc_world c) in
  let review : command :=
    cart_line ← val (if bool_decide (view cart = []) then inr "Your cart is empty."
                     else render_cart_line (view cart) (cart_total cart));
    ends (clear_automation_state ++ [say (cart_line +:+ " Please review your cart before trying again.")]) in
  match pending_cart_mutation st with
  | None => review
  | Some p =>
      receipt ← val (mutation_receipt (pc_idempotency_key p) (pc_operation p) (pc_sku p) (pc_name p)
                       (Money.dec_of_cents (pc_price_usd p)) (pc_quantity p) (pc_pre_confirm_quantity p) cart);
      match receipt with
      | CommittedReceipt record =>
          turn ← latest_turn st;
          complete (reconcile_mutation (re_close env) record turn)
      | NotCommittedReceipt => review
      | IndeterminateReceipt _ => ends terminal_result
      end
  end.

(** Which of the three kinds of marker this one is a valid instance of. *)
Definition node_exception_valid m : bool :=
  match dget (rec_origin_node m) (policies nodes) with
  | Some p => bool_decide (rec_trigger m = node_exception ∧ rec_origin_node m ∈ handled nodes ∧ rec_action m = on_exception p)
  | None => false
  end.
Definition stream_cancellation_valid m st : bool :=
  match dget (rec_origin_node m) (policies nodes), rec_abandoned_message_id m with
  | Some p, Some id => bool_decide (rec_trigger m = stream_cancelled ∧ rec_action m = on_cancellation p
                                    ∧ id ∈ consumed_turn_ids st)
  | _, _ => false
  end.
Definition restored_confirmation_valid m : bool :=
  match dget (rec_origin_node m) (policies nodes) with
  | Some p => bool_decide (rec_trigger m ∈ [session_restored; confirmation_detour] ∧
                           rec_origin_node m ∈ restore_reconfirmation nodes ∧ rec_action m = on_exception p)
  | None => false
  end.

(** A turn admitted after the abandoned one: the newest message is its own. *)
Definition distinct_turn_admitted m st : bool :=
  match last (consumed_turn_ids st), last (messages st) with
  | Some turn, Some (HumanMessage id _) =>
      negb (bool_decide (Some turn = rec_abandoned_message_id m)) && String.eqb id turn
  | _, _ => false
  end.

Definition recover env st : command :=
  match pending_recovery st with
  | None => ends terminal_result
  | Some m =>
      if negb (node_exception_valid m || stream_cancellation_valid m st || restored_confirmation_valid m) then
        ends terminal_result
      else if restored_confirmation_valid m then mret ([W_pending_recovery None], rec_origin_node m)
      else
        match rec_action m with
        | TERMINAL => ends terminal_result
        | RECONCILE_PLACEMENT | RECONCILE_REFUND | RECONCILE_CANCEL | RECONCILE_RETURN
        | RECONCILE_PROFILE_CHANGE => reconcile_effect env m st
        | RECONCILE_PRINCIPAL_TRANSITION => reconcile_principal_transition env st
        | SAFE_ABORT =>
            if bool_decide (rec_trigger m = stream_cancelled) && distinct_turn_admitted m st then
              mret (clear_automation_state, "entry")
            else ends (clear_automation_state ++ [say TURN_FALLBACK_LINE])
        | CART_REVIEW => cart_review env m st
        | action =>
            match ACTION_LINES action with
            | None => ends terminal_result
            | Some line => ends (clear_automation_state ++ [say line])
            end
        end
  end.
End recovery.

(** ** The registry's laws *)
Definition wired_nodes : NodePolicyRegistry :=
  match frontline_nodes with inr r => r | inl _ => mkNodes [] [] [] [] [] [] end.
Definition reconciles (a : ExceptionAction) : bool :=
  bool_decide (a ∈ [RECONCILE_PLACEMENT; RECONCILE_REFUND; RECONCILE_CANCEL; RECONCILE_RETURN;
                    RECONCILE_PROFILE_CHANGE; RECONCILE_PRINCIPAL_TRANSITION]).

(** The frontline's registrations are all accepted; every entry of its capabilities is a
    registered node; the nodes re-read after a restore ask for consent; and every node whose
    abandonment is reconciled against a ledger is tracked and handled. *)
Lemma frontline_nodes_accepted : frontline_nodes = inr wired_nodes ∧
  (∀ node, node ∈ entry_nodes shop_registry → dmem node (policies wired_nodes) = true) ∧
  restore_reconfirmation wired_nodes ⊆ dkeys (consent_interrupt_kinds wired_nodes) ∧
  (∀ name p, (name, p) ∈ policies wired_nodes → on_abandonment p = AUTHORITATIVE_RECONCILE →
     name ∈ tracked_node_names wired_nodes ∧ name ∈ handled wired_nodes ∧
     (reconciles (on_exception p) = true ∨ on_exception p = CART_REVIEW)).
Proof.
  split; [by vm_compute|]. split; [|split].
  - apply Forall_forall. apply (bool_decide_unpack _). by vm_compute.
  - apply (bool_decide_unpack _). by vm_compute.
  - intros name p Hin. revert Hin.
    assert (Forall (λ np, on_abandonment np.2 = AUTHORITATIVE_RECONCILE →
      np.1 ∈ tracked_node_names wired_nodes ∧ np.1 ∈ handled wired_nodes ∧
      (reconciles (on_exception np.2) = true ∨ on_exception np.2 = CART_REVIEW)) (policies wired_nodes)) as Hall
      by (apply (bool_decide_unpack _); by vm_compute).
    rewrite Forall_forall in Hall. intros Hin. apply (Hall (name, p) Hin).
Qed.

(** ** Updates that leave nothing open *)
(** The write leaves the automation's channels alone or resets them. *)
Definition harmless (w : Write) : bool :=
  match w with
  | W_handover None | W_pending_capability_dispatch None | W_pending_router_no_action None
  | W_pending_cart_mutation None | W_pending_placement None | W_pending_refund None | W_pending_cancel None
  | W_pending_return None | W_pending_profile_change None | W_pending_identity None | W_pending_recovery None
  | W_active_invocation None | W_execution_owner None | W_pending_ack None | W_pending_clarification None
  | W_clarification_liveness None => true
  | W_session_revision _ | W_messages _ | W_automation_terminal _ | W_assistant_prompt _ => true
  | _ => false
  end.

Lemma reset_kept {A} (f : Write → option A) (d old : A) ws :
  written f clear_automation_state = Some d → (∀ w x, harmless w = true → f w = Some x → x = d) →
  forallb harmless ws = true → last_value f (clear_automation_state ++ ws) old = d.
Proof.
  intros Hc Hf Hws. unfold last_value, written in *. rewrite foldl_app, Hc. clear Hc.
  assert (∀ cur, cur = Some d → foldl (λ cur w, match f w with Some a => Some a | None => cur end) cur ws = Some d) as Hgo.
  { induction ws as [|w ws IH]; intros cur Hcur; [done|]. cbn in *. apply andb_prop in Hws as [Hw Hws].
    apply IH; [done|]. destruct (f w) eqn:E; [|done]. f_equal. by eapply Hf. }
  by rewrite Hgo.
Qed.

Lemma harmless_cleared am ws st : forallb harmless ws = true →
  cleared (apply_update am (clear_automation_state ++ ws) st).
Proof.
  intros Hws. unfold cleared, apply_update.
  cbn [handover pending_capability_dispatch pending_router_no_action pending_cart_mutation pending_placement
    pending_refund pending_cancel pending_return pending_profile_change pending_identity pending_recovery
    active_invocation identity_claim_misses execution_owner pending_ack pending_clarification clarification_liveness].
  split_and!; (apply reset_kept; [reflexivity| |exact Hws]); intros w x Hw Hx; destruct w; try done;
    injection Hx as <-; try done; by match goal with |- ?o = None => destruct o end.
Qed.

(** ** No effect is run again *)
(** A method that leaves a part of its object as it is, whatever it ends with. *)
Definition mkeeps {S V A} (v : S → V) (m : M S A) : Prop := ∀ s, v (m s).1 = v s.
Lemma mkeeps_bind {S V A B} (v : S → V) (m : M S A) (k : A → M S B) :
  mkeeps v m → (∀ a, mkeeps v (k a)) → mkeeps v (m ≫= k).
Proof.
  intros Hm Hk s. cbv [mbind M_bind]. specialize (Hm s). destruct (m s) as [s1 [e|a]]; cbn in *; [done|].
  rewrite <-Hm. apply Hk.
Qed.
Lemma mkeeps_pure {S V A} (v : S → V) (m : M S A) : (∀ s, (m s).1 = s) → mkeeps v m.
Proof. intros Hm s. by rewrite Hm. Qed.
Lemma mkeeps_modify {S V} (v : S → V) (f : S → S) : (∀ s, v (f s) = v s) → mkeeps v (modify f).
Proof. intros Hf s. apply Hf. Qed.
Lemma mkeeps_finally {S V A} (v : S → V) (m : M S A) (f : M S unit) :
  mkeeps v m → mkeeps v f → mkeeps v (finally m f).
Proof.
  intros Hm Hf s. unfold finally. specialize (Hm s). destruct (m s) as [s1 r]. specialize (Hf s1).
  by destruct (f s1) as [s2 [e|u]]; cbn in *; congruence.
Qed.
Lemma keeps_act {W V A} (v : W → V) (m : M W A) : mkeeps v m → keeps v (act m).
Proof. intros Hm ans w. unfold act. specialize (Hm w). by destruct (m w) as [w' [e|a]]. Qed.

Section recovery_laws.
Context {P PS R E : Type} `{OtpPort P} `{SessionPersistence PS E}.
Context (fingerprint : SessionRequest → string) (nodes : NodePolicyRegistry).
Notation CC := (CallerContext P PS R).
Notation W := (World P PS R).
Implicit Types (c : CC) (env : recovery_env E) (st : ReasoningState).

Definition world_ledgers (w : W) : OrderStore * ProfileStore := (w_orders w, w_profiles w).
Definition ledgers c : OrderStore * ProfileStore := world_ledgers (cc_world c).

Lemma on_world_ledgers {V A} (view : W → V) update (m : M V A) :
  (∀ v w, world_ledgers (update v w) = world_ledgers w) → mkeeps ledgers (on_world view update m).
Proof. intros Hu c. unfold on_world. destruct (m _) as [v r]. apply Hu. Qed.
Lemma keeps_ledgers_zoom {V A} (view : W → V) update (n : N V A) :
  (∀ v w, world_ledgers (update v w) = world_ledgers w) → keeps world_ledgers (zoom view update n).
Proof. apply keeps_zoom. Qed.
Lemma in_world_ledgers {A} (n : N W A) : keeps world_ledgers n → keeps ledgers (in_world n).
Proof.
  intros Hn ans c. unfold in_world, zoom. specialize (Hn ans (cc_world c)).
  by destruct (n (ans, cc_world c)) as [[ans' w'] o].
Qed.

Lemma invalidate_ledgers p1 p2 expected : mkeeps ledgers (invalidate_principal_transition fingerprint p1 p2 expected).
Proof.
  unfold invalidate_principal_transition, retire_pending, drop_everything, clear_ephemeral_state,
    cc_session, cc_identity, cc_verification.
  repeat first
    [ progress intros | apply mkeeps_bind | apply mkeeps_finally | apply on_world_ledgers; done
    | apply mkeeps_modify; done | apply mkeeps_pure; done | case_match ].
Qed.

(** A finisher leaves both ledgers alone and resets what it finished. *)
Definition finishes (n : N W (list Write)) : Prop :=
  keeps world_ledgers n ∧ ∀ s s' ws, n s = (s', Done ws) → forallb harmless ws = true.

Ltac finisher_ledgers :=
  repeat first
    [ progress intros | apply keeps_bind | solve [apply pure_keeps; auto 3 with pure]
    | apply keeps_ledgers_zoom; done | case_match ].
Ltac finisher_writes Hrun :=
  repeat first
    [ nstep | let a := fresh "a" in let s := fresh "s" in apply bind_done in Hrun as (a & s & _ & Hrun); cbv beta zeta in Hrun ].

Lemma finish_placement_finishes (env : node_env E) key placed : finishes (finish_placement fingerprint env key placed).
Proof.
  unfold finish_placement, on_session. split; [finisher_ledgers|]. intros s s' ws Hrun.
  finisher_writes Hrun. done.
Qed.
Lemma finish_refund_finishes (env : node_env E) key record : finishes (finish_refund fingerprint env key record).
Proof.
  unfold finish_refund, on_session. split; [finisher_ledgers|]. intros s s' ws Hrun.
  finisher_writes Hrun. done.
Qed.
Lemma finish_return_finishes (env : node_env E) key record : finishes (finish_return fingerprint env key record).
Proof.
  unfold finish_return, on_session. split; [finisher_ledgers|]. intros s s' ws Hrun.
  finisher_writes Hrun. done.
Qed.
Lemma finish_cancel_finishes (env : node_env E) b outcome : finishes (finish_cancel fingerprint env b outcome true).
Proof.
  unfold finish_cancel, on_session. cbn [negb andb]. split; [finisher_ledgers|]. intros s s' ws Hrun.
  finisher_writes Hrun. done.
Qed.
Lemma finish_profile_finishes record : finishes (finish_profile_change record).
Proof.
  unfold finish_profile_change, on_verification. split; [finisher_ledgers|]. intros s s' ws Hrun.
  finisher_writes Hrun. done.
Qed.
Lemma reconcile_mutation_finishes close record turn : finishes (reconcile_mutation close record turn).
Proof.
  unfold reconcile_mutation, finish_mutation. split; [finisher_ledgers|]. intros s s' ws Hrun.
  finisher_writes Hrun. done.
Qed.

(** A recovery step that runs no effect and leaves nothing open. *)
Definition settles am st (n : N CC (list Write * string)) : Prop := keeps ledgers n ∧
  ∀ s s' ws dest, n s = (s', Done (ws, dest)) → dest = END ∧ cleared (apply_update am ws st).

Lemma settles_ends am st ws : forallb harmless ws = true → settles am st (ends (clear_automation_state ++ ws)).
Proof.
  intros Hw. split; [by apply pure_keeps|]. intros s s' ws' dest [= _ <- <-]. split; [done|].
  by apply harmless_cleared.
Qed.
Lemma settles_terminal am st : settles am st (ends terminal_result).
Proof. by apply settles_ends. Qed.
Lemma settles_complete am st n : finishes n → settles am st (complete n).
Proof.
  intros [Hk Hw]. unfold complete. split.
  - apply keeps_bind; [by apply in_world_ledgers|]. intros u. by apply pure_keeps.
  - intros s s' ws dest (u & s1 & Hu & Hr)%bind_done. injection Hr as <- <- <-. split; [done|].
    apply harmless_cleared. unfold in_world, zoom in Hu. destruct s as [ans c].
    destruct (n (ans, cc_world c)) as [[ans' w'] o] eqn:Hn. injection Hu as <- ->. by eapply Hw.
Qed.
Lemma settles_bind {A} am st (n : N CC A) k : keeps ledgers n → (∀ a, settles am st (k a)) → settles am st (n ≫= k).
Proof.
  intros Hn Hk. split.
  - apply keeps_bind; [done|]. intros a. apply (Hk a).
  - intros s s' ws dest (a & s1 & _ & Hr)%bind_done. by eapply (Hk a).
Qed.
Lemma settles_not_committed am st m : settles am st (not_committed m).
Proof. unfold not_committed. destruct (NOT_COMMITTED_LINES _); [by apply settles_ends|apply settles_terminal]. Qed.
Lemma settles_by_receipt {A} am st m (receipt : ReceiptLookup A) f :
  (∀ a, finishes (f a)) → settles am st (by_receipt m receipt f).
Proof.
  intros Hf. destruct receipt; cbn; [by apply settles_complete|apply settles_not_committed|apply settles_terminal].
Qed.

Lemma reconcile_effect_settles am env m st : settles am st (reconcile_effect fingerprint env m st).
Proof.
  unfold reconcile_effect. apply settles_bind; [by apply pure_keeps|]. intros c. cbv zeta.
  repeat first
    [ apply settles_terminal | apply settles_bind; [solve [apply pure_keeps; auto with pure]|intros ?]
    | apply settles_by_receipt; intros; first [apply finish_placement_finishes | apply finish_refund_finishes
        | apply finish_return_finishes | apply finish_profile_finishes]
    | apply settles_complete, finish_cancel_finishes | case_match ].
Qed.
Lemma reconcile_principal_settles am env st : settles am st (reconcile_principal_transition fingerprint env st).
Proof.
  unfold reconcile_principal_transition. apply settles_bind; [by apply pure_keeps|]. intros c.
  repeat first
    [ apply settles_terminal | apply settles_bind; [solve [apply pure_keeps; auto with pure]|intros ?]
    | apply settles_bind; [apply keeps_act, invalidate_ledgers|intros ?]
    | unfold terminal_result; rewrite <-?app_assoc; by apply settles_ends | case_match ].
Qed.
Lemma cart_review_settles am env m st : settles am st (cart_review env m st).
Proof.
  unfold cart_review. apply settles_bind; [by apply pure_keeps|]. intros c. cbv zeta.
  repeat first
    [ apply settles_terminal | apply settles_complete, reconcile_mutation_finishes
    | apply settles_bind; [solve [apply pure_keeps; unfold latest_turn; pure_steps]|intros ?]
    | by apply settles_ends | case_match ].
Qed.

(** What makes a cancelled turn an abandoned one that another followed. *)
Lemma abandoned_turn m st : pending_recovery st = Some m → rec_trigger m = stream_cancelled →
  node_exception_valid nodes m || stream_cancellation_valid nodes m st || false = true → distinct_turn_admitted m st = true →
  ∃ m abandoned turn text, pending_recovery st = Some m ∧ rec_trigger m = stream_cancelled ∧
    rec_abandoned_message_id m = Some abandoned ∧ abandoned ∈ consumed_turn_ids st ∧
    last (consumed_turn_ids st) = Some turn ∧ turn ≠ abandoned ∧ last (messages st) = Some (HumanMessage turn text).
Proof.
  intros Hm Ht Hv Hturn. rewrite orb_false_r in Hv. apply orb_true_iff in Hv as [Hv|Hv].
  { unfold node_exception_valid in Hv. destruct (dget _ _); [|done]. apply bool_decide_eq_true in Hv. by rewrite Ht in Hv; destruct Hv. }
  unfold stream_cancellation_valid in Hv. destruct (dget _ _); [|done]. destruct (rec_abandoned_message_id m) as [id|] eqn:Hid; [|done].
  apply bool_decide_eq_true in Hv as (_ & _ & Hin). unfold distinct_turn_admitted in Hturn. rewrite Hid in Hturn.
  destruct (last (consumed_turn_ids st)) as [turn|] eqn:Hl; [|done]. destruct (last (messages st)) as [[mid text| |]|] eqn:Hmsg; try done.
  apply andb_prop in Hturn as [Hne ->%String.eqb_eq]. apply negb_true_iff, bool_decide_eq_false in Hne.
  exists m, id, turn, text. split_and!; try done. congruence.
Qed.

(** C27 Recovery runs no effect and settles the turn.  Whatever the marker, the state and the
    stores, the recovery node leaves the order ledger and the profile ledger as they are, even
    when it raises itself.  When it returns, either nothing is left open and the turn ends; or
    nothing is left open and the entry runs again, which happens only for an abandoned turn that
    was consumed, is no longer the latest consumed turn, and was followed by the turn the newest
    message belongs to; or a restore or a detour interrupted one of the confirmations that may be
    read again, and it is re-opened with only the marker removed, so that its pending action is
    read back anew. *)
Theorem recovery_settles am env st ans c s' o :
  recover fingerprint nodes env st (ans, c) = (s', o) →
  ledgers s'.2 = ledgers c ∧
  ∀ ws dest, o = Done (ws, dest) →
    (cleared (apply_update am ws st) ∧
     (dest = END ∨
      dest = "entry" ∧ ∃ m abandoned turn text, pending_recovery st = Some m ∧ rec_trigger m = stream_cancelled ∧
        rec_abandoned_message_id m = Some abandoned ∧ abandoned ∈ consumed_turn_ids st ∧
        last (consumed_turn_ids st) = Some turn ∧ turn ≠ abandoned ∧ last (messages st) = Some (HumanMessage turn text))) ∨
    (∃ m, pending_recovery st = Some m ∧ rec_trigger m ∈ [session_restored; confirmation_detour] ∧
     dest = rec_origin_node m ∧ dest ∈ restore_reconfirmation nodes ∧ ws = [W_pending_recovery None]).
Proof.
  intros Hrun. match goal with |- ?G => assert (∀ n, settles am st n → n (ans, c) = (s', o) → G) as Hset end.
  { intros n [Hk Hd] Hn. specialize (Hk ans c). rewrite Hn in Hk. split; [done|]. intros ws dest ->.
    destruct (Hd _ _ _ _ Hn). left. split; [done|by left]. }
  unfold recover in Hrun. destruct (pending_recovery st) as [m|] eqn:Hm.
  2: { by apply (Hset _ (settles_terminal am st)). }
  destruct (negb _) eqn:Hvalid; [by apply (Hset _ (settles_terminal am st))|]. apply negb_false_iff in Hvalid.
  destruct (restored_confirmation_valid nodes m) eqn:Hr.
  { injection Hrun as <- <-. split; [done|]. intros ws dest [= <- <-]. right. exists m.
    unfold restored_confirmation_valid in Hr. destruct (dget _ _); [|done]. apply bool_decide_eq_true in Hr.
    by destruct Hr as (? & ? & _). }
  destruct (rec_action m).
  all: try (eapply Hset; [|exact Hrun]; first
    [ apply settles_terminal | apply reconcile_effect_settles | apply reconcile_principal_settles
    | apply cart_review_settles | by apply settles_ends ]).
  - destruct (bool_decide _) eqn:Ht; cbn [andb] in Hrun; [destruct (distinct_turn_admitted m st) eqn:Hturn|].
    + injection Hrun as <- <-. split; [done|]. intros ws dest [= <- <-]. left. split; [apply clear_cleared|].
      right. split; [done|]. apply bool_decide_eq_true in Ht. rewrite <-Hm. by apply (abandoned_turn m).
    + eapply Hset; [|exact Hrun]. by apply settles_ends.
    + eapply Hset; [|exact Hrun]. by apply settles_ends.
Qed.
End recovery_laws.

(** ** What recovery says about an effect *)
Section truthful.
Context {P PS R E : Type} `{OtpPort P} `{SessionPersistence PS E}.
Context (fingerprint : SessionRequest → string).
Notation CC := (CallerContext P PS R).
Notation command := (N CC (list Write * string)).
Implicit Types (c : CC) (env : recovery_env E) (st : ReasoningState).

(** An order effect that was under way: its pending action, the call of the store it makes. *)
Inductive effect :=
  | ef_placement (p : PendingPlacement) | ef_refund (p : PendingRefund) | ef_return (p : PendingReturn)
  | ef_cancel (b : PendingCancelBatch) (t : CancelTarget).
Definition effect_call (x : effect) : OrderStore.StoreCall :=
  match x with
  | ef_placement p => CallPlace (pp_idempotency_key p) (pp_lines p) (Money.dec_of_cents (pp_total_usd p))
  | ef_refund p => CallRefund (pr_idempotency_key p) (pr_order_id p) (Money.dec_of_cents (pr_amount_usd p))
                     (destination_text (pr_destination p)) (pr_instrument_ref p)
  | ef_return p => CallReturn (pn_idempotency_key p) (pn_order_id p) (Money.dec_of_cents (pn_refund_due_usd p)) "original"
  | ef_cancel _ t => CallCancel (ct_idempotency_key t) (ct_order_id t)
  end.
Definition effect_pending (x : effect) st : Prop :=
  match x with
  | ef_placement p => pending_placement st = Some p ∧ 0 ≤ pp_total_usd p
  | ef_refund p => pending_refund st = Some p ∧ 0 ≤ pr_amount_usd p
  | ef_return p => pending_return st = Some p ∧ 0 ≤ pn_refund_due_usd p
  | ef_cancel b t => pending_cancel_batch st = Some b ∧ cb_targets b !! length (cb_outcomes b) = Some t ∧
      outcomes_aligned b = true ∧ Forall (λ o, BatchCancelOutcome_valid o = true) (cb_ineligible b ++ cb_outcomes b)
  end.
Definition effect_origin (x : effect) : string :=
  match x with
  | ef_placement _ => "cart_place" | ef_refund _ => "support_place"
  | ef_return _ => "support_return_place" | ef_cancel _ _ => "support_cancel_void"
  end.
Definition effect_action (x : effect) : ExceptionAction :=
  match x with
  | ef_placement _ => RECONCILE_PLACEMENT | ef_refund _ => RECONCILE_REFUND
  | ef_return _ => RECONCILE_RETURN | ef_cancel _ _ => RECONCILE_CANCEL
  end.
(** The marker the registered handler of the effect's node makes of an exception in it. *)
Definition effect_marker (x : effect) : PendingRecovery :=
  mkRecovery (effect_origin x) (effect_action x) node_exception None.

(** The outcomes of a batch once its node has failed: the earlier ones, the one of the target at
    hand, and the targets after it, whose orders were never touched. *)
Definition untouched (t : CancelTarget) : BatchCancelOutcome := mkBatchCancelOutcome (ct_order_id t) (ct_summary t) oc_not_completed None.
Definition at_hand (t : CancelTarget) (r : option OrderStore.StoreRecord) : BatchCancelOutcome :=
  match r with Some (RCancel f) => voided_outcome f | _ => untouched t end.
Definition later_targets (b : PendingCancelBatch) : list BatchCancelOutcome := untouched <$> drop (S (length (cb_outcomes b))) (cb_targets b).
Definition after_failure (b : PendingCancelBatch) (t : CancelTarget) (r : option OrderStore.StoreRecord) : list BatchCancelOutcome :=
  cb_ineligible b ++ cb_outcomes b ++ [at_hand t r] ++ later_targets b.

(** What the caller hears: of a committed effect, in the amounts and lines of the request they
    confirmed and with the references of the record; of a call that never took effect, that it
    did not complete. *)
Definition told (x : effect) (r : option OrderStore.StoreRecord) : res string :=
  match x, r with
  | ef_placement p, Some (RPlaced o) =>
      l ← speak_lines (pp_lines p);
      inr ("Done - your order for " +:+ l +:+ " is placed. Your order number is " +:+ po_order_id o +:+ ".")
  | ef_refund p, Some (RRefund f) =>
      inr ("Done - your $" +:+ str_usd (pr_amount_usd p) +:+ " refund is on its way to your " +:+ strip (pr_instrument_ref p) +:+
           ". Your reference is " +:+ rf_refund_id f +:+ ".")
  | ef_return p, Some (RReturn f) =>
      inr ("Done - your return for " +:+ rr_summary f +:+ " is set up; your reference is " +:+ rr_rma_id f +:+
           ". Send the items back, and once we receive them the $" +:+ str_usd (pn_refund_due_usd p) +:+
           " refund goes to your original payment method.")
  | ef_cancel b t, _ =>
      requires (BatchCancelOutcome_valid (at_hand t r)) ValidationError "" ;;
      requires (String.eqb (bo_order_id (at_hand t r)) (ct_order_id t)) ValueError "cancel finisher received an outcome for the wrong target" ;;
      requires (forallb BatchCancelOutcome_valid (later_targets b)) ValidationError "" ;;
      inr (batch_sentence (after_failure b t r))
  | ef_placement _, _ => inr "That order placement request did not complete. Your cart is still saved for review."
  | ef_refund _, _ => inr "That refund request did not complete."
  | ef_return _, _ => inr "That return request did not complete."
  end.
(** What the session is told: the placement, or the orders the effect was about. *)
Definition noted (env : node_env E) (x : effect) (r : option OrderStore.StoreRecord) : option (SM (P:=PS) (SessionOperationResult * Z)) :=
  match x, r with
  | ef_placement p, Some (RPlaced o) => Some (complete_placement fingerprint (ne_publish env) (pp_idempotency_key p) (po_order_id o))
  | ef_refund p, Some _ => Some (
      op ← lift (recent_orders_operation_id op_refund (pr_idempotency_key p));
      record_recent_orders fingerprint (ne_publish env) op [canon (pr_order_id p)] op_refund None [])
  | ef_return p, Some _ => Some (
      op ← lift (recent_orders_operation_id op_return (pn_idempotency_key p));
      record_recent_orders fingerprint (ne_publish env) op [canon (pn_order_id p)] op_return None [])
  | ef_cancel b t, _ => Some (
      op ← lift (recent_orders_operation_id op_cancel (ct_idempotency_key t));
      record_recent_orders fingerprint (ne_publish env) op (bo_order_id <$> after_failure b t r) op_cancel
        (bo_order_id <$> last (after_failure b t r)) ((λ o, (bo_order_id o, outcome_text (bo_outcome o))) <$> after_failure b t r))
  | _, _ => None
  end.
Definition sentences (ws : list Write) : list Message := flat_map (λ w, match w with W_messages l => l | _ => [] end) ws.
(** How the recovery of an effect ends: no object but the session changes, and no reply is
    consumed; the turn ends with the one sentence that is due, the session having committed its
    note; or it fails, because that sentence cannot be made or the session refused the note. *)
Definition reports (env : node_env E) (x : effect) (r : option OrderStore.StoreRecord) (c : CC)
    (run : (list answer * CC) * outcome (list Write * string)) (ans : list answer) : Prop :=
  let '((ans', c'), o) := run in
  let session := w_session (cc_world c) in
  let session' := w_session (cc_world c') in
  ans' = ans ∧ c' = set_world (set_session session' (cc_world c)) c ∧
  match o with
  | Done (ws, dest) =>
      dest = END ∧ (∃ line, told x r = inr line ∧ sentences ws = [AIMessage line []]) ∧
      match noted env x r with
      | Some note => ∃ v revision, note session = (session', inr (v, revision)) ∧ W_session_revision revision ∈ ws
      | None => session' = session
      end
  | Raised e => told x r = inl e ∨ ∃ note, noted env x r = Some note ∧ note session = (session', inl e)
  | Suspended _ => False
  end.
(** The store has no entry under the key of a call. *)
Definition unused (call : OrderStore.StoreCall) (s : OrderStore) : Prop :=
  match call with
  | CallPlace k _ _ => dget k (placed_by_key s) = None
  | CallRefund k _ _ _ _ => dget k (refunds_by_key s) = None
  | CallReturn k _ _ _ => dget k (returns_by_key s) = None
  | CallCancel k _ => dget k (cancels_by_key s) = None
  end.

Lemma effect_marker_valid x : node_exception_valid wired_nodes (effect_marker x) = true ∧
  restored_confirmation_valid wired_nodes (effect_marker x) = false.
Proof. by destruct x; vm_compute. Qed.
Lemma effect_marker_minted x : ∃ p, dget (effect_origin x) (policies wired_nodes) = Some p ∧
  build_node_error_handler (effect_origin x) p (effect_origin x) =
    Some (inr ([W_pending_recovery (Some (effect_marker x))], RECOVERY_NODE_NAME)).
Proof. by destruct x; eexists; split; vm_compute. Qed.

Lemma recover_effect x env st (s : list answer * CC) : effect_pending x st → pending_recovery st = Some (effect_marker x) →
  recover fingerprint wired_nodes env st s = reconcile_effect fingerprint env (effect_marker x) st s.
Proof.
  intros _ Hm. destruct (effect_marker_valid x) as [Hv Hr]. unfold recover. rewrite Hm, Hv, Hr. by destruct x.
Qed.

Lemma receipt_step {A} (r : res A) (k : A → command) s a : r = inr a → (val r ≫= k) s = k a s.
Proof. intros ->. by destruct s. Qed.

Lemma here_step {A} (k : CC → N CC A) ans c : (here ≫= k) (ans, c) = k c (ans, c).
Proof. done. Qed.
Lemma committed_receipt {A} (o : option A) (r : A) m : o = Some r → m r = true → classify_receipt o m = CommittedReceipt r.
Proof. intros -> Hm. cbn. by rewrite Hm. Qed.
Lemma missing_receipt {A} (o : option A) m : o = None → classify_receipt o m = NotCommittedReceipt.
Proof. by intros ->. Qed.
Lemma speak_lines_fingerprint {A B} `{LineLike A, LineLike B} (l : list A) (l' : list B) :
  line_fingerprint l = line_fingerprint l' → speak_lines l = speak_lines l'.
Proof.
  intros Hl. assert ((λ x, speak_quantity (ln_quantity x) (ln_name x)) <$> l = (λ x, speak_quantity (ln_quantity x) (ln_name x)) <$> l') as Heq.
  { apply (f_equal (fmap (λ q : string * string * Z * Z, speak_quantity q.2 q.1.1.2))) in Hl.
    unfold line_fingerprint in Hl. by rewrite <-!list_fmap_compose in Hl. }
  unfold speak_lines. by rewrite Heq.
Qed.
(** A finisher that notes the effect in the session and then says a line. *)
Lemma reports_note (node : node_env E) x r c ans (note : SM (P:=PS) (SessionOperationResult * Z)) (finisher : N (World P PS R) (list Write)) (line : res string) ws :
  told x r = line → noted node x r = Some note →
  (∀ w, finisher (ans, w) = match note (w_session w) with
    | (s, inl e) => ((ans, set_session s w), Raised e)
    | (s, inr (v, n)) => ((ans, set_session s w), match line with inl e => Raised e | inr l => Done (ws l n) end)
    end) →
  (∀ l n, sentences (ws l n) = [AIMessage l []] ∧ W_session_revision n ∈ ws l n) →
  reports node x r c (complete finisher (ans, c)) ans.
Proof.
  intros Ht Hn Hf Hws. unfold complete, in_world, zoom. cbv [mbind N_bind]. rewrite Hf.
  unfold reports. destruct (note (w_session (cc_world c))) as [s [e|[v n]]] eqn:Hrun; [|destruct line as [e|l]]; cbn; split_and!; try done.
  - right. exists note. by rewrite Hrun.
  - by left.
  - exists l. by destruct (Hws l n) as [<- _].
  - rewrite Hn. exists v, n. split; [done|]. destruct (Hws l n) as [_ Hin]. apply (elem_of_app clear_automation_state). by right.
Qed.
Lemma recent_note op owner refs focus outs (pub : E) (k : SessionOperationResult * Z → N (World P PS R) (list Write)) ans w :
  (id ← val (recent_orders_operation_id op owner);
   committed ← on_session (record_recent_orders fingerprint pub id refs op focus outs); k committed) (ans, w) =
  match (id ← lift (recent_orders_operation_id op owner); record_recent_orders fingerprint pub id refs op focus outs) (w_session w) with
  | (s, inl e) => ((ans, set_session s w), Raised e)
  | (s, inr committed) => k committed (ans, set_session s w)
  end.
Proof.
  unfold val, lift. cbv [mbind N_bind M_bind act]. destruct (recent_orders_operation_id op owner) as [e|id].
  - by destruct w.
  - unfold on_session, zoom, act. by destruct (record_recent_orders _ _ _ _ _ _ _ _) as [s [e|v]].
Qed.
Lemma reports_placement (node : node_env E) p o c ans m : placement_matches o (pp_lines p) m = true →
  reports node (ef_placement p) (Some (RPlaced o)) c (complete (finish_placement fingerprint node (pp_idempotency_key p) o) (ans, c)) ans.
Proof.
  intros Hm. unfold placement_matches in Hm. apply andb_prop in Hm as [_ Hl]. apply bool_decide_eq_true, speak_lines_fingerprint in Hl.
  eapply (reports_note _ _ _ _ _ _ _ _ (λ l n, [W_pending_placement None; W_execution_owner None; W_session_revision n; say l]));
    [done|done| |by intros l n; split; [|by do 2 right; left]].
  intros w. unfold finish_placement. cbv [mbind N_bind]. unfold on_session at 1, zoom, act.
  destruct (complete_placement _ _ _ _ _) as [s [e|[v n]]]; [done|]. cbn. unfold val, lift, act. rewrite Hl.
  by destruct (speak_lines (pp_lines p)).
Qed.
Lemma reports_refund (node : node_env E) p f c ans : refund_matches f (pr_order_id p) (pr_amount_usd p) (destination_text (pr_destination p)) (pr_instrument_ref p) = true →
  reports node (ef_refund p) (Some (RRefund f)) c (complete (finish_refund fingerprint node (pr_idempotency_key p) f) (ans, c)) ans.
Proof.
  intros Hm. unfold refund_matches in Hm. bools. subst.
  eapply (reports_note _ _ _ _ _ _ _ _ (λ l n, refund_ends l ++ [W_session_revision n]));
    [done|done| |by intros l n; split; [|by do 3 right; left]].
  intros w. unfold finish_refund. rewrite recent_note.
  repeat match goal with Hx : _ f = _ |- _ => rewrite Hx end.
  match goal with |- context [?m (w_session w)] => by destruct (m (w_session w)) as [s [e|[v n]]] end.
Qed.
Lemma reports_return (node : node_env E) p f c ans : return_matches f (pn_order_id p) (pn_refund_due_usd p) "original" = true →
  reports node (ef_return p) (Some (RReturn f)) c (complete (finish_return fingerprint node (pn_idempotency_key p) f) (ans, c)) ans.
Proof.
  intros Hm. unfold return_matches in Hm. bools.
  eapply (reports_note _ _ _ _ _ _ _ _ (λ l n, return_ends l ++ [W_session_revision n]));
    [done|done| |by intros l n; split; [|by do 3 right; left]].
  intros w. unfold finish_return. rewrite recent_note.
  repeat match goal with Hx : _ f = _ |- _ => rewrite Hx end.
  match goal with |- context [?m (w_session w)] => by destruct (m (w_session w)) as [s [e|[v n]]] end.
Qed.
Lemma same_session c : set_world (set_session (w_session (cc_world c)) (cc_world c)) c = c.
Proof. by destruct c as [[]]. Qed.
Lemma reports_denied x (env : recovery_env E) st c ans : effect_pending x st → (∀ b t, x ≠ ef_cancel b t) →
  reports (re_node env) x None c (not_committed (effect_marker x) (ans, c)) ans.
Proof.
  intros _ Hx. destruct x as [p|p|p|b t]; [| | |by destruct (Hx b t)]; cbn; rewrite same_session; split_and!; try done; by eexists.
Qed.

Lemma untouched_all ts : mapR (λ t, target_outcome t oc_not_completed) ts =
  (requires (forallb BatchCancelOutcome_valid (untouched <$> ts)) ValidationError "" ;; inr (untouched <$> ts)).
Proof.
  induction ts as [|t ts IH]; [done|]. cbn. rewrite IH. unfold target_outcome, make_BatchCancelOutcome, validated. fold (untouched t).
  destruct (BatchCancelOutcome_valid (untouched t)); [|done]. cbn. by destruct (forallb _ _).
Qed.
Lemma finish_cancel_told (node : node_env E) b t r ans (w : World P PS R) note :
  cb_targets b !! length (cb_outcomes b) = Some t → Forall (λ o, BatchCancelOutcome_valid o = true) (cb_ineligible b ++ cb_outcomes b) →
  BatchCancelOutcome_valid (at_hand t r) = true → noted node (ef_cancel b t) r = Some note →
  finish_cancel fingerprint node b (at_hand t r) true (ans, w) =
  match told (ef_cancel b t) r with
  | inl e => ((ans, w), Raised e)
  | inr line => match note (w_session w) with
    | (s, inl e) => ((ans, set_session s w), Raised e)
    | (s, inr (v, n)) => ((ans, set_session s w), Done (cancel_ends line ++ [W_session_revision n]))
    end
  end.
Proof.
  intros Ht Hv Hcur [= <-]. unfold finish_cancel, told. rewrite Ht, Hcur. cbn [requires mbind res_bind].
  destruct (String.eqb _ _) eqn:Hid; [|done]. rewrite untouched_all. fold (later_targets b).
  destruct (forallb BatchCancelOutcome_valid (later_targets b)) eqn:Hlater; [|done].
  assert (Forall (λ o, BatchCancelOutcome_valid o = true) (after_failure b t r)) as Hall.
  { unfold after_failure. rewrite app_assoc. apply Forall_app. split; [done|]. constructor; [done|].
    apply Forall_forall. intros o Ho. by eapply (proj1 (forallb_forall _ _) Hlater), list_elem_of_In. }
  cbv [mbind N_bind mret N_ret]. cbn [requires val act lift negb andb res_bind]. rewrite <-app_assoc. fold (after_failure b t r).
  assert (after_failure b t r ≠ []) as Hne by (unfold after_failure; by destruct (cb_ineligible b), (cb_outcomes b)).
  rewrite (batch_rendered _ Hne Hall). 
  etransitivity; [exact (recent_note op_cancel (ct_idempotency_key t) (bo_order_id <$> after_failure b t r) (bo_order_id <$> last (after_failure b t r))
    ((λ o, (bo_order_id o, outcome_text (bo_outcome o))) <$> after_failure b t r) (ne_publish node)
    (λ committed, mret (cancel_ends (batch_sentence (after_failure b t r)) ++ [W_session_revision committed.2])) ans w)|].
  cbv [mbind]. match goal with |- context [?m (w_session w)] => by destruct (m (w_session w)) as [s [e|[v n]]] end.
Qed.
Lemma reports_raised (node : node_env E) x r c ans e : told x r = inl e →
  reports node x r c ((ans, c), Raised e) ans ∧ reports node x r c ((ans, set_world (cc_world c) c), Raised e) ans.
Proof. intros Ht. by split; (split_and!; [done|destruct c as [[]]|left]). Qed.
Lemma reports_cancel (node : node_env E) b t r c ans (current : res BatchCancelOutcome) :
  cb_targets b !! length (cb_outcomes b) = Some t → Forall (λ o, BatchCancelOutcome_valid o = true) (cb_ineligible b ++ cb_outcomes b) →
  current = validated (BatchCancelOutcome_valid (at_hand t r)) (at_hand t r) →
  reports node (ef_cancel b t) r c ((outcome ← val current; complete (finish_cancel fingerprint node b outcome true)) (ans, c)) ans.
Proof.
  intros Ht Hv ->. unfold validated. destruct (BatchCancelOutcome_valid (at_hand t r)) eqn:Hcur.
  2: { apply (reports_raised node _ r c ans). unfold told. by rewrite Hcur. }
  destruct (noted node (ef_cancel b t) r) as [note|] eqn:Hn; [|done].
  unfold val, lift, complete, in_world, zoom. cbv [mbind N_bind act].
  rewrite (finish_cancel_told node b t r ans (cc_world c) note Ht Hv Hcur Hn).
  destruct (told (ef_cancel b t) r) as [e|line] eqn:Hl; [by apply (reports_raised _ _ r)|].
  unfold reports. destruct (note (w_session (cc_world c))) as [s [e|[v n]]] eqn:Hrun; injection Hn as <-; cbn.
  - split_and!; [done..|]. right. eexists. by rewrite Hrun.
  - split_and!; [done..|by exists line|]. exists v, n. split; [done|].
    apply (elem_of_app clear_automation_state). by do 4 right; left.
Qed.

Lemma reports_stored x env st ans c r : effect_pending x st → stored (effect_call x) (w_orders (cc_world c)) r →
  reports (re_node env) x (Some r) c (reconcile_effect fingerprint env (effect_marker x) st (ans, c)) ans.
Proof.
  unfold reconcile_effect. rewrite here_step. cbv zeta. destruct x as [p|p|p|b t], r as [o|f|f|f]; try done;
    cbn [effect_pending effect_call stored rec_action effect_marker effect_action].
  1-3: intros [-> Hn] (t & Hv & Hg & Hm); rewrite Money.validate_usd_cents in Hv by done; injection Hv as <-.
  4: intros (-> & Ht & Ha & Hval) [Hg Hm].
  - rewrite (receipt_step _ _ _ (CommittedReceipt o)); [by eapply reports_placement|]. unfold placement_receipt.
    rewrite Money.validate_usd_cents by done. cbn [mbind res_bind mret res_ret]. f_equal. by apply committed_receipt.
  - rewrite (receipt_step _ _ _ (CommittedReceipt f)); [by apply reports_refund|]. unfold refund_receipt.
    rewrite Money.validate_usd_cents by done. cbn [mbind res_bind mret res_ret]. f_equal. by apply committed_receipt.
  - rewrite (receipt_step _ _ _ (CommittedReceipt f)); [by apply reports_return|]. unfold return_receipt.
    rewrite Money.validate_usd_cents by done. cbn [mbind res_bind mret res_ret]. f_equal. by apply committed_receipt.
  - rewrite Ht, Ha. unfold cancel_receipt. erewrite committed_receipt by done. by apply reports_cancel.
Qed.

Lemma reports_unused x env st ans c : effect_pending x st → unused (effect_call x) (w_orders (cc_world c)) →
  reports (re_node env) x None c (reconcile_effect fingerprint env (effect_marker x) st (ans, c)) ans.
Proof.
  intros Hx. pose proof Hx as Hx'. revert Hx'. unfold reconcile_effect. rewrite here_step. cbv zeta. destruct x as [p|p|p|b t];
    cbn [effect_pending effect_call unused rec_action effect_marker effect_action].
  1-3: intros [-> Hn] Hg.
  4: intros (-> & Ht & Ha & Hval) Hg.
  1-3: rewrite (receipt_step _ _ _ NotCommittedReceipt); [by eapply reports_denied|].
  - unfold placement_receipt. rewrite Money.validate_usd_cents by done.
    cbn [mbind res_bind mret res_ret]. f_equal. by apply missing_receipt.
  - unfold refund_receipt. rewrite Money.validate_usd_cents by done.
    cbn [mbind res_bind mret res_ret]. f_equal. by apply missing_receipt.
  - unfold return_receipt. rewrite Money.validate_usd_cents by done.
    cbn [mbind res_bind mret res_ret]. f_equal. by apply missing_receipt.
  - rewrite Ht, Ha. unfold cancel_receipt. rewrite missing_receipt by done. by apply reports_cancel.
Qed.

(** C5 Recovery tells what the ledger holds.  When the node of an order effect raises, its
    registered handler mints a marker the recovery node accepts, and recovery says what became of
    the effect without running it, changing nothing but the session.  If the node's store call
    took effect at any time before, even with other calls of the store in between, the caller
    hears the sentence of that success, in the amounts or lines of the request they confirmed
    and with the references of the very record that call made, and the session notes it.  If the
    call never took effect, the caller hears that the request did not complete, and the session
    is left alone.  For a batch of cancellations, the order at hand is reported cancelled or not
    completed accordingly, those before it as they had ended, those after it as not completed,
    and the session notes exactly these outcomes; no later target is called. *)
Theorem recovery_truthful x env st ans c :
  effect_pending x st → pending_recovery st = Some (effect_marker x) →
  (∃ p, dget (effect_origin x) (policies wired_nodes) = Some p ∧
    build_node_error_handler (effect_origin x) p (effect_origin x) =
      Some (inr ([W_pending_recovery (Some (effect_marker x))], RECOVERY_NODE_NAME))) ∧
  (∀ s0 s1 r, OrderStore.perform (effect_call x) s0 = (s1, inr r) → rtc store_step s1 (w_orders (cc_world c)) →
     reports (re_node env) x (Some r) c (recover fingerprint wired_nodes env st (ans, c)) ans) ∧
  (unused (effect_call x) (w_orders (cc_world c)) →
     reports (re_node env) x None c (recover fingerprint wired_nodes env st (ans, c)) ans).
Proof.
  intros Hx Hm. split; [apply effect_marker_minted|]. rewrite !(recover_effect x env st _ Hx Hm). split.
  - intros s0 s1 r Hp Hs. apply reports_stored; [done|]. eapply stored_steps; [|done]. by eapply perform_stored.
  - by apply reports_unused.
Qed.
End truthful.

(** ** Examples *)
(** A checkout whose node raised after its store call, before the session heard of it. *)
Definition crashed_checkout : ReasoningState :=
  apply_update app [W_pending_recovery (Some (effect_marker (ef_placement two_jackets)))] checking_out.
Definition half_placed : ShopCaller :=
  set_world (set_orders checkout_run.1.2.(w_orders) shop_world) (shop_caller false).
Definition shop_recovery : recovery_env publish_env := mkRecoveryEnv late_env SessionCommit.demo_env "Anything else?".
Definition recovered (c : ShopCaller) := recover demo_fingerprint wired_nodes shop_recovery crashed_checkout ([], c).
Definition recovered_update (c : ShopCaller) : list Write := match (recovered c).2 with Done (ws, _) => ws | _ => [] end.

Lemma recovery_settles_witness :
  ledgers (recovered half_placed).1.2 = ledgers half_placed ∧
  cleared (apply_update app (recovered_update half_placed) crashed_checkout).
Proof.
  destruct (recovery_settles demo_fingerprint wired_nodes app shop_recovery crashed_checkout [] half_placed
    (recovered half_placed).1 (recovered half_placed).2) as [Hl Hd].
  - unfold recovered. apply surjective_pairing.
  - split; [exact Hl|].
    assert ((recovered half_placed).2 = Done (recovered_update half_placed, END)) as Hdone by (by vm_compute).
    destruct (Hd _ _ Hdone) as [[Hc _]|(m & _ & _ & _ & Hr & _)]; [exact Hc|].
    exfalso. revert Hr. apply (bool_decide_unpack _). by vm_compute.
Defined.

Lemma recovery_truthful_witness :
  (∃ placed, reports demo_fingerprint late_env (ef_placement two_jackets) (Some (RPlaced placed)) half_placed (recovered half_placed) []) ∧
  sentences (recovered_update half_placed) =
    [AIMessage "Done - your order for 2 Rain Jackets is placed. Your order number is ORD-9001." []] ∧
  reports demo_fingerprint late_env (ef_placement two_jackets) None (shop_caller false) (recovered (shop_caller false)) [].
Proof.
  assert (effect_pending (ef_placement two_jackets) crashed_checkout) as Hx by (split; [done|by vm_compute]).
  split; [|split; [by vm_compute|]].
  - destruct (recovery_truthful demo_fingerprint (ef_placement two_jackets) shop_recovery crashed_checkout [] half_placed
      Hx eq_refl) as (_ & Hdone & _).
    eexists. eapply (Hdone shop_store (w_orders (cc_world half_placed))); [|apply rtc_refl].
    cbn [effect_call OrderStore.perform]. by vm_compute.
  - destruct (recovery_truthful demo_fingerprint (ef_placement two_jackets) shop_recovery crashed_checkout []
      (shop_caller false) Hx eq_refl) as (_ & _ & Hdeny).
    apply Hdeny. by vm_compute.
Defined.
