(* ===== verification/Checkpoint.v ===== *)
(** * Threads and their checkpoints (agents/engine.py)

    What a turn may find on the thread it arrives at: which task an interrupt
    belongs to, what a cancelled turn left behind, whether a recovery marker is
    a valid one, and the two ways a restored session is made ready.  The thread
    itself is LangGraph's: the engine reads and updates it through [ThreadPort],
    and [ThreadLaws] says what it relies on of an update. *)

From S2P Require Import Prelude PyText Money Cart Orders OrderScope Verification SessionState SessionCommit SessionRefine.
From S2P Require Import Consent Confirmation Requests Reasoning Nodes Clarification SupportBase SupportExamples Caller IdentityFlow CartExamples Frontline Recovery.
Local Open Scope Z_scope.
Local Open Scope list_scope.

#[export] Instance PendingRecovery_eq_dec : EqDecision PendingRecovery.
Proof. solve_decision. Defined.

(** ** Snapshots *)
Record Interrupt := mkInterrupt { int_id : string; int_value : string }.
#[export] Instance Interrupt_eq_dec : EqDecision Interrupt.
Proof. solve_decision. Defined.
Record Task := mkTask { task_name : string; task_failed : bool; task_interrupts : list Interrupt }.
(** [StateSnapshot]; [sn_blank] says that nothing was ever stored. *)
Record Snapshot := mkSnapshot {
  sn_blank : bool;
  sn_state : ReasoningState;
  sn_next : list string;
  sn_tasks : list Task;
  sn_interrupts : list Interrupt }.

Class ThreadPort (T : Type) := {
  aget_state : T → res Snapshot;
  aupdate_state : list Write → string → T → T * res unit }.

Definition START : string := "__start__".
Definition recovery_entry_node : string := "entry".
Definition terminal_takeover_node : string := "automation_terminal_response".
Definition principal_seed_complete_node : string := "principal_seed_complete".

(** An update as [__start__] leaves the entry about to run, and one as a node with no way on
    leaves the thread at rest; either clears what the thread was waiting for. *)
Class ThreadLaws (T : Type) `{ThreadPort T} (am : list Message → list Message → list Message) := {
  seeded_start ws t s : aget_state t = inr s → ∃ t', aupdate_state ws START t = (t', inr tt) ∧
    aget_state t' = inr (mkSnapshot false (apply_update am ws (sn_state s)) [recovery_entry_node]
                           [mkTask recovery_entry_node false []] []);
  seeded_end node ws t s : node ∈ [terminal_takeover_node; principal_seed_complete_node] → aget_state t = inr s →
    ∃ t', aupdate_state ws node t = (t', inr tt) ∧
    aget_state t' = inr (mkSnapshot false (apply_update am ws (sn_state s)) [] [] []) }.

Definition task_matches (sn : Snapshot) (node : string) (interrupted : bool) : bool :=
  match sn_tasks sn with
  | [task] =>
      if negb (String.eqb (task_name task) node) || task_failed task then false
      else if interrupted then bool_decide (task_interrupts task = sn_interrupts sn)
      else bool_decide (task_interrupts task = [])
  | _ => false
  end.

Definition interrupt_node {P} (sn : Snapshot) (policies : list (string * P)) : option string :=
  match sn_interrupts sn, sn_tasks sn with
  | [_], [task] =>
      if negb (dmem (task_name task) policies) || task_failed task
         || negb (bool_decide (task_interrupts task = sn_interrupts sn))
         || negb (bool_decide (sn_next sn ∈ [[]; [task_name task]])) then None
      else Some (task_name task)
  | _, _ => None
  end.

(** ** Evidence of an operation the checkpoint has not seen *)
Record SessionOperationEvidence := mkEvidence { ev_operation_id : string; ev_result : SessionOperationResult }.

Definition record_matches (r : CartMutationRecord) (p : PendingCartMutation) : bool :=
  bool_decide (cm_operation r = pc_operation p) && String.eqb (cm_sku r) (pc_sku p)
  && String.eqb (cm_name r) (pc_name p) && (cm_price_usd r =? pc_price_usd p)
  && bool_decide (cm_quantity r = pc_quantity p) && (cm_pre_confirm_quantity r =? pc_pre_confirm_quantity p).

Definition session_ahead_evidence_matches (st : ReasoningState) (action : ExceptionAction)
    (operations : list SessionOperationEvidence) : res bool :=
  match operations with
  | [operation] =>
      let id := ev_operation_id operation in
      let by_key (o : OrderContextOperation) (key : string) : res bool :=
        expected ← recent_orders_operation_id o key; inr (String.eqb id expected) in
      match action, ev_result operation with
      | CART_REVIEW, CartMutationSessionOperationResult r =>
          inr (match pending_cart_mutation st with
               | Some p => String.eqb id (pc_idempotency_key p) && record_matches r p
               | None => false
               end)
      | CART_REVIEW, EmptySessionOperationResult => inr false
      | _, CartMutationSessionOperationResult _ => inr false
      | RECONCILE_PLACEMENT, _ =>
          inr (match pending_placement st with Some p => String.eqb id (pp_idempotency_key p) | None => false end)
      | RECONCILE_REFUND, _ =>
          match pending_refund st with Some p => by_key op_refund (pr_idempotency_key p) | None => inr false end
      | RECONCILE_CANCEL, _ =>
          match pending_cancel st with
          | None => inr false
          | Some (pending_scope _) => raises AttributeError "outcomes"
          | Some (pending_batch b) =>
              match cb_targets b !! length (cb_outcomes b) with
              | Some target => by_key op_cancel (ct_idempotency_key target)
              | None => inr false
              end
          end
      | RECONCILE_RETURN, _ =>
          match pending_return st with Some p => by_key op_return (pn_idempotency_key p) | None => inr false end
      | SAFE_ABORT, _ =>
          match active_invocation st with
          | Some i =>
              read ← recent_orders_operation_id op_read (invocation_id i);
              listed ← recent_orders_operation_id op_list (invocation_id i);
              inr (bool_decide (id ∈ [read; listed]))
          | None => inr false
          end
      | _, _ => inr false
      end
  | _ => inr false
  end.

(** ** What a cancelled turn left *)
Inductive CancellationCheckpoint :=
  | cp_complete | cp_interrupt | cp_recover (marker : PendingRecovery) | cp_invalid.

Section thread.
Context (nodes : NodePolicyRegistry).

Definition classify_cancelled_checkpoint (sn : Snapshot) (active_node_names : list string)
    (abandoned_message_id : string) (resumed_interrupt_node : option string) : res CancellationCheckpoint :=
  let st := sn_state sn in
  let elsewhere (node : string) : bool :=
    negb (bool_decide (active_node_names = [])) && negb (bool_decide (active_node_names = [node])) in
  let last_turn : bool := bool_decide (last (consumed_turn_ids st) = Some abandoned_message_id) in
  match pending_recovery st with
  | Some m => inr (if bool_decide (rec_trigger m = confirmation_detour) then cp_complete else cp_invalid)
  | None =>
      if negb (bool_decide (sn_interrupts sn = [])) then
        match interrupt_node sn (policies nodes) with
        | None => inr cp_invalid
        | Some node =>
            if elsewhere node then inr cp_invalid
            else if negb (bool_decide (resumed_interrupt_node = Some node)) then inr cp_interrupt
            else if negb last_turn then inr cp_invalid
            else
              match dget node (policies nodes) with
              | None => raises KeyError node
              | Some p => m ← make_PendingRecovery node (on_cancellation p) stream_cancelled (Some abandoned_message_id);
                          inr (cp_recover m)
              end
        end
      else
        match sn_next sn with
        | [] => inr (if bool_decide (length (sn_tasks sn) = 0%nat) then cp_complete else cp_invalid)
        | [node] =>
            match dget node (policies nodes) with
            | None => inr cp_invalid
            | Some p =>
                if bool_decide (node ∈ infrastructure nodes) || negb (task_matches sn node false)
                   || elsewhere node || negb last_turn then inr cp_invalid
                else m ← make_PendingRecovery node (on_cancellation p) stream_cancelled (Some abandoned_message_id);
                     inr (cp_recover m)
            end
        | _ => inr cp_invalid
        end
  end.

(** ** Recovery markers *)
Definition marker_contract_valid (st : ReasoningState) (m : PendingRecovery) : bool :=
  match dget (rec_origin_node m) (policies nodes) with
  | None => false
  | Some p =>
      bool_decide (rec_trigger m = stream_cancelled ∧ rec_action m = on_cancellation p ∧
        rec_abandoned_message_id m ≠ None ∧ last (consumed_turn_ids st) = rec_abandoned_message_id m)
      || bool_decide (rec_trigger m = node_exception ∧ rec_origin_node m ∈ handled nodes ∧
                      rec_action m = on_exception p)
      || bool_decide (rec_trigger m ∈ [session_restored; confirmation_detour] ∧
                      rec_origin_node m ∈ restore_reconfirmation nodes ∧ rec_action m = on_exception p)
  end.
Definition entry_waits (sn : Snapshot) : bool :=
  bool_decide (sn_interrupts sn = []) && bool_decide (sn_next sn = [recovery_entry_node])
  && task_matches sn recovery_entry_node false.
Definition validated_pending_recovery (sn : Snapshot) (st : ReasoningState) : res (option PendingRecovery) :=
  match pending_recovery st with
  | None => inr None
  | Some m =>
      requires (marker_contract_valid st m && entry_waits sn) RuntimeError "pending recovery checkpoint is invalid" ;;
      inr (Some m)
  end.

(** Every channel a reset clears has the value the reset gives it. *)
Definition opt_none {A} (o : option A) : bool := negb (isSome o).
Definition automation_cleared (except_ : list string) (st : ReasoningState) : bool :=
  let at_rest (w : Write) : bool :=
    match w with
    | W_handover _ => opt_none (handover st)
    | W_pending_capability_dispatch _ => opt_none (pending_capability_dispatch st)
    | W_pending_router_no_action _ => opt_none (pending_router_no_action st)
    | W_pending_cart_mutation _ => opt_none (pending_cart_mutation st)
    | W_pending_placement _ => opt_none (pending_placement st) | W_pending_refund _ => opt_none (pending_refund st)
    | W_pending_cancel _ => opt_none (pending_cancel st) | W_pending_return _ => opt_none (pending_return st)
    | W_pending_profile_change _ => opt_none (pending_profile_change st)
    | W_pending_identity _ => opt_none (pending_identity st) | W_pending_recovery _ => opt_none (pending_recovery st)
    | W_active_invocation _ => opt_none (active_invocation st)
    | W_identity_claim_misses n => identity_claim_misses st =? n
    | W_execution_owner _ => opt_none (execution_owner st) | W_pending_ack _ => opt_none (pending_ack st)
    | W_pending_clarification _ => opt_none (pending_clarification st)
    | W_clarification_liveness _ => opt_none (clarification_liveness st)
    | _ => true
    end in
  forallb (λ w, bool_decide (channel w ∈ except_) || at_rest w) clear_automation_state.
Definition QUIESCENT_RESTORE_FIELDS : list string :=
  ["active_invocation"; "identity_claim_misses"; "execution_owner"; "pending_clarification"; "clarification_liveness"].

Definition is_pristine_principal_continuation (sn : Snapshot) (st : ReasoningState) : bool :=
  isSome (active_invocation st) && bool_decide (length (messages st) = 0%nat) && negb (automation_terminal st)
  && entry_waits sn && automation_cleared ["active_invocation"] st.

(** The snapshot of a fresh session at revision [n]: [ReasoningState(session_revision=n)], at rest. *)
Definition pristine_at (n : Z) (sn : Snapshot) : bool :=
  let st := sn_state sn in
  (Reasoning.session_revision st =? n) && bool_decide (length (messages st) = 0%nat) && bool_decide (consumed_turn_ids st = [])
  && negb (automation_terminal st) && automation_cleared [] st && opt_none (product_offer st)
  && opt_none (product_reference st) && opt_none (assistant_prompt st) && bool_decide (length (conversation st) = 0%nat)
  && opt_none (confirmation_detour_turn st) && opt_none (farewell_turn st)
  && bool_decide (sn_next sn = []) && bool_decide (length (sn_tasks sn) = 0%nat) && bool_decide (sn_interrupts sn = []).

(** ** Updates of the thread *)
Section updates.
Context {T : Type} `{ThreadPort T}.

Definition get_state : M T Snapshot := t ← get; lift (aget_state t).
Definition update_state (ws : list Write) (as_node : string) : M T unit := aupdate_state ws as_node.
Definition reconstruction_failed {A} : M T A := raise SessionRestoreError "reconstruction_failed".
Definition checked (b : bool) : M T unit := if b then mret tt else reconstruction_failed.
(** [except RuntimeError as exc: raise SessionRestoreError] *)
Definition reconstructed {A} (r : res A) : M T A :=
  match r with inl (Exc RuntimeError _) => reconstruction_failed | r => lift r end.

Definition aprepare_current_restore (expected_session_revision : Z) : M T unit :=
  require (0 <=? expected_session_revision) ValueError "restored session revision must not be negative" ;;
  sn ← get_state;
  checked (negb (sn_blank sn)) ;;
  let st := sn_state sn in
  checked (Reasoning.session_revision st =? expected_session_revision) ;;
  if isSome (pending_recovery st) then reconstructed (validated_pending_recovery sn st) ;; mret tt
  else if negb (bool_decide (sn_interrupts sn = [])) then
    match interrupt_node sn (policies nodes) with
    | None => reconstruction_failed
    | Some node =>
        checked (bool_decide (node ∈ restore_reconfirmation nodes)) ;;
        match dget node (policies nodes) with
        | None => lift (raises KeyError node)
        | Some p =>
            marker ← lift (make_PendingRecovery node (on_exception p) session_restored None);
            update_state [W_pending_recovery (Some marker)] START ;;
            prepared ← get_state;
            found ← reconstructed (validated_pending_recovery prepared (sn_state prepared));
            checked (bool_decide (found = Some marker)
                     && (Reasoning.session_revision (sn_state prepared) =? expected_session_revision))
        end
    end
  else
    checked (bool_decide (sn_next sn = []) && bool_decide (length (sn_tasks sn) = 0%nat)) ;;
    checked (automation_cleared QUIESCENT_RESTORE_FIELDS st).

(** The revision gap of a restored session: the revision its checkpoint has, the operations that
    committed since, and the revision of its record. *)
Record Reconciliation := mkReconciliation {
  rn_session_ahead : bool;
  rn_checkpoint_revision : option Z;
  rn_operations : list SessionOperationEvidence;
  rn_record_revision : Z }.

Definition aprepare_session_ahead_recovery (r : Reconciliation) : M T unit :=
  match rn_checkpoint_revision r with
  | Some checkpoint_revision =>
      require (rn_session_ahead r && negb (bool_decide (length (rn_operations r) = 0%nat))) ValueError
        "session-ahead recovery requires contiguous operation evidence" ;;
      sn ← get_state;
      let st := sn_state sn in
      checked ((Reasoning.session_revision st =? checkpoint_revision) && negb (isSome (pending_recovery st))
               && negb (automation_terminal st) && bool_decide (sn_interrupts sn = [])) ;;
      match sn_next sn with
      | [node] =>
          match dget node (policies nodes) with
          | None => reconstruction_failed
          | Some p =>
              checked (bool_decide (node ∈ handled nodes) && task_matches sn node false) ;;
              matches ← lift (session_ahead_evidence_matches st (on_exception p) (rn_operations r));
              checked matches ;;
              marker ← lift (make_PendingRecovery node (on_exception p) node_exception None);
              update_state [W_pending_recovery (Some marker); W_session_revision (rn_record_revision r)] START ;;
              prepared ← get_state;
              found ← reconstructed (validated_pending_recovery prepared (sn_state prepared));
              checked (bool_decide (found = Some marker)
                       && (Reasoning.session_revision (sn_state prepared) =? rn_record_revision r))
          end
      | _ => reconstruction_failed
      end
  | None => lift (raises ValueError "session-ahead recovery requires contiguous operation evidence")
  end.

(** [_aseed_stream_recovery] *)
Definition aseed_stream_recovery (marker : PendingRecovery) : M T unit :=
  match rec_abandoned_message_id marker with
  | None => lift (raises AssertionError "")
  | Some abandoned =>
      update_state [W_pending_recovery (Some marker); W_consumed_turn_ids [abandoned]] START ;;
      seeded ← get_state;
      let st := sn_state seeded in
      require (bool_decide (pending_recovery st = Some marker)
               && bool_decide (last (consumed_turn_ids st) = Some abandoned) && entry_waits seeded) RuntimeError
        "stream recovery seed did not round-trip exactly"
  end.

(** [aseed_initial_checkpoint]; [lifecycle_revision] is the revision of the session's projection. *)
Definition aseed_initial_checkpoint (expected_session_revision : Z) (lifecycle_revision : option Z) : M T Z :=
  require (expected_session_revision =? 0) ValueError "initial checkpoint seed requires session revision zero" ;;
  require (match lifecycle_revision with Some n => n =? expected_session_revision | None => true end) RuntimeError
    "session projection changed before initial checkpoint seed" ;;
  existing ← get_state;
  require (sn_blank existing && bool_decide (sn_next existing = []) && bool_decide (length (sn_tasks existing) = 0%nat)
           && bool_decide (sn_interrupts existing = [])) RuntimeError
    "initial checkpoint seed requires an empty generation" ;;
  update_state [W_session_revision expected_session_revision] principal_seed_complete_node ;;
  seeded ← get_state;
  require (pristine_at expected_session_revision seeded) RuntimeError "initial checkpoint seed did not round-trip exactly" ;;
  mret (Reasoning.session_revision (sn_state seeded)).
End updates.
End thread.

(** ** Laws *)
Section laws.
Context (nodes : NodePolicyRegistry).
Implicit Types (sn : Snapshot) (st : ReasoningState) (m : PendingRecovery).

(** What the engine lets through, the recovery node accepts. *)
Definition recovery_accepts m st : bool :=
  node_exception_valid nodes m || stream_cancellation_valid nodes m st || restored_confirmation_valid nodes m.

Lemma marker_accepted st m : marker_contract_valid nodes st m = true → recovery_accepts m st = true.
Proof.
  unfold marker_contract_valid, recovery_accepts, node_exception_valid, stream_cancellation_valid, restored_confirmation_valid.
  destruct (dget _ _) as [p|]; [|done]. rewrite !orb_true_iff, !bool_decide_eq_true.
  intros [[(Ht & Ha & Hn & Hl)|H]|H]; [|by left; left|by right].
  destruct (rec_abandoned_message_id m) as [id|]; [|done]. left; right. apply bool_decide_eq_true.
  split_and!; [done..|]. by apply last_Some_elem_of in Hl.
Qed.

Lemma validated_spec sn st found : validated_pending_recovery nodes sn st = inr found ↔
  found = pending_recovery st ∧ (∀ m, found = Some m → marker_contract_valid nodes st m = true ∧ entry_waits sn = true).
Proof.
  unfold validated_pending_recovery. destruct (pending_recovery st) as [m|].
  - rewrite requires_then, andb_true_iff. split.
    + intros [[H1 H2] [= <-]]. split; [done|]. by intros ? [= <-].
    + intros [-> H]. by destruct (H m eq_refl).
  - split; [by intros [= <-]|by intros [-> _]].
Qed.

Lemma entry_seeded st am ws blank : entry_waits (mkSnapshot blank (apply_update am ws st) [recovery_entry_node]
  [mkTask recovery_entry_node false []] []) = true.
Proof. done. Qed.

(** [recover] on a marker that re-opens a confirmation. *)
Lemma recover_rereads {P PS R E} `{OtpPort P} `{SessionPersistence PS E} fingerprint (env : recovery_env E) st m
    (s : list answer * CallerContext P PS R) :
  pending_recovery st = Some m → restored_confirmation_valid nodes m = true →
  recover fingerprint nodes env st s = (s, Done ([W_pending_recovery None], rec_origin_node m)).
Proof. intros Hm Hr. unfold recover. rewrite Hm, Hr, !orb_true_r. by destruct s. Qed.

Lemma made_recovery origin action trigger abandoned m : make_PendingRecovery origin action trigger abandoned = inr m →
  m = mkRecovery origin action trigger abandoned.
Proof. unfold make_PendingRecovery. munfold. repeat case_match; naive_solver. Qed.

Section thread_laws.
Context {T : Type} `{ThreadLaws T am}.

(** A marker written as [__start__] is found again on the thread, with the rest of the update. *)
Lemma seeded_marker t sn ws m : aget_state t = inr sn →
  pending_recovery (apply_update am ws (sn_state sn)) = Some m →
  marker_contract_valid nodes (apply_update am ws (sn_state sn)) m = true →
  ∃ t' sn', update_state ws START t = (t', inr tt) ∧ aget_state t' = inr sn' ∧
    sn_state sn' = apply_update am ws (sn_state sn) ∧ entry_waits sn' = true ∧
    validated_pending_recovery nodes sn' (sn_state sn') = inr (Some m).
Proof.
  intros Hsn Hm Hc. destruct (seeded_start ws t sn Hsn) as (t' & Hu & Hg).
  eexists t', _. split_and!; [done|exact Hg|done|done|]. apply validated_spec. cbn [sn_state]. rewrite Hm.
  split; [done|]. intros ? [= <-]. by split.
Qed.

Lemma not_elsewhere (active : list string) node :
  negb (bool_decide (active = [])) && negb (bool_decide (active = [node])) = false → active ∈ [[]; [node]].
Proof. do 2 case_bool_decide; subst; try done; intros _; set_unfold; auto. Qed.

(** What is true of a turn classified as recoverable. *)
Lemma classify_recover sn active id resumed m : classify_cancelled_checkpoint nodes sn active id resumed = inr (cp_recover m) →
  ∃ node p, dget node (policies nodes) = Some p ∧ m = mkRecovery node (on_cancellation p) stream_cancelled (Some id) ∧
    pending_recovery (sn_state sn) = None ∧ last (consumed_turn_ids (sn_state sn)) = Some id ∧
    active ∈ [[]; [node]] ∧
    (sn_interrupts sn = [] ∧ sn_next sn = [node] ∧ node ∉ infrastructure nodes ∨
     sn_interrupts sn ≠ [] ∧ interrupt_node sn (policies nodes) = Some node ∧ resumed = Some node).
Proof.
  unfold classify_cancelled_checkpoint. destruct (pending_recovery (sn_state sn)) as [|] eqn:Hp; [by case_bool_decide|].
  case_bool_decide as Hi; cbn [negb].
  - destruct (sn_next sn) as [|node []] eqn:Hn; [by case_bool_decide| |done].
    destruct (dget node (policies nodes)) as [p|] eqn:Hd; [|done].
    case_bool_decide as Hinf; [done|]. cbn [orb]. destruct (task_matches _ _ _); [|done]. cbn [orb negb].
    destruct (_ && _) eqn:He; [done|].
    destruct (bool_decide (last _ = _)) eqn:Hl; [apply bool_decide_eq_true in Hl|done]. cbn. cbv [mbind res_bind].
    destruct (make_PendingRecovery _ _ _ _) as [|m'] eqn:Hm; [done|]. intros [= <-]. apply made_recovery in Hm as ->.
    exists node, p. split_and!; auto using not_elsewhere.
  - destruct (interrupt_node sn (policies nodes)) as [node|] eqn:Hn; [|done].
    destruct (_ && _) eqn:He; [done|].
    destruct (bool_decide (resumed = _)) eqn:Hr; [apply bool_decide_eq_true in Hr|done].
    destruct (bool_decide (last _ = _)) eqn:Hl; [apply bool_decide_eq_true in Hl|done]. cbn.
    destruct (dget node (policies nodes)) as [p|] eqn:Hd; [|done]. cbv [mbind res_bind].
    destruct (make_PendingRecovery _ _ _ _) as [|m'] eqn:Hm; [done|]. intros [= <-]. apply made_recovery in Hm as ->.
    exists node, p. split_and!; auto using not_elsewhere.
Qed.
End thread_laws.
End laws.

(** C24 A cancelled turn is taken over exactly where it stopped.  When what it left is classified as
    recoverable, the node is the one the thread was about to run, or the readback this turn
    answered, no other node was still running, and the turn was its last; seeding the marker
    succeeds, changes nothing else of the conversation, and the marker is one the next turn finds
    valid and the recovery node accepts. *)
Theorem cancelled_turn_recoverable {T} `{ThreadLaws T am} nodes (t : T) sn active id resumed m :
  aget_state t = inr sn → classify_cancelled_checkpoint nodes sn active id resumed = inr (cp_recover m) →
  active ∈ [[]; [rec_origin_node m]] ∧
  (sn_interrupts sn = [] ∧ sn_next sn = [rec_origin_node m] ∨
   interrupt_node sn (policies nodes) = Some (rec_origin_node m) ∧ resumed = Some (rec_origin_node m)) ∧
  ∃ t' sn', aseed_stream_recovery m t = (t', inr tt) ∧ aget_state t' = inr sn' ∧
    sn_state sn' = apply_update am [W_pending_recovery (Some m)] (sn_state sn) ∧
    validated_pending_recovery nodes sn' (sn_state sn') = inr (Some m) ∧ recovery_accepts nodes m (sn_state sn') = true.
Proof.
  intros Hsn Hcl. destruct (classify_recover nodes _ _ _ _ _ Hcl) as (node & p & Hd & -> & Hp & Hl & Ha & Hat).
  cbn [rec_origin_node]. split_and!; [done|naive_solver|].
  set (m := mkRecovery node (on_cancellation p) stream_cancelled (Some id)).
  set (ws := [W_pending_recovery (Some m); W_consumed_turn_ids [id]]).
  assert (apply_update am ws (sn_state sn) = apply_update am [W_pending_recovery (Some m)] (sn_state sn)) as Hst.
  { assert (merge_consumed_turn_ids (consumed_turn_ids (sn_state sn)) [id] = consumed_turn_ids (sn_state sn)) as Hm.
    { apply merge_absorbed. intros x ->%list_elem_of_singleton. by eapply last_Some_elem_of. }
    destruct (sn_state sn). unfold ws, apply_update. cbn in Hm |- *. by rewrite Hm. }
  assert (marker_contract_valid nodes (apply_update am ws (sn_state sn)) m = true) as Hc.
  { rewrite Hst. unfold marker_contract_valid. cbn [rec_origin_node m]. rewrite Hd.
    rewrite bool_decide_eq_true_2; [done|]. by cbn. }
  destruct (seeded_marker nodes t sn ws m Hsn) as (t' & sn' & Hu & Hg & Hs' & He & Hv); [by rewrite Hst|done|].
  exists t', sn'. rewrite Hs', Hst in Hv |- *. split_and!; [|done|done|done|].
  - unfold aseed_stream_recovery. cbn [rec_abandoned_message_id m]. fold ws. munfold. rewrite Hu.
    unfold get_state. munfold. rewrite Hg. rewrite Hs', Hst, He.
    rewrite !bool_decide_eq_true_2; [done|by cbn|by cbn].
  - apply marker_accepted. by rewrite <-Hst.
Qed.

(** ** Restoring a session *)
Lemma interrupt_node_policy {P} sn (policies : list (string * P)) node : interrupt_node sn policies = Some node →
  ∃ p, dget node policies = Some p.
Proof.
  unfold interrupt_node. repeat case_match; try done. intros [= <-].
  destruct (dmem _ policies) eqn:Hm; [|done]. unfold dmem in Hm. destruct (dget _ policies) as [p|]; [by exists p|done].
Qed.

(** Nothing waits at a thread at rest, and nothing is pending in its conversation. *)
Definition at_rest (sn : Snapshot) : Prop :=
  sn_next sn = [] ∧ sn_tasks sn = [] ∧ sn_interrupts sn = [] ∧ automation_cleared QUIESCENT_RESTORE_FIELDS (sn_state sn) = true.
(** The thread re-opens a confirmation of [before]: its marker is found valid, the recovery node
    goes to the very node that asked, and without the marker the conversation is as it was. *)
Definition asks_again nodes am (node : string) (before after : Snapshot) : Prop :=
  ∃ m, rec_origin_node m = node ∧ node ∈ restore_reconfirmation nodes ∧
    validated_pending_recovery nodes after (sn_state after) = inr (Some m) ∧
    (∀ (P PS R E : Type) `{OtpPort P} `{SessionPersistence PS E} fingerprint (env : recovery_env E)
       (s : list answer * CallerContext P PS R),
       recover fingerprint nodes env (sn_state after) s = (s, Done ([W_pending_recovery None], node))) ∧
    apply_update am [W_pending_recovery None] (sn_state after) = sn_state before.

Lemma unmark am m st : pending_recovery st = None →
  apply_update am [W_pending_recovery None] (apply_update am [W_pending_recovery (Some m)] st) = st.
Proof. destruct st. cbn. by intros ->. Qed.

Definition restore_failed : exc := Exc SessionRestoreError "reconstruction_failed".
Section steps.
Context {T : Type} `{ThreadPort T}.
Lemma checked_then {A} b (k : M T A) t : (checked b ;; k) t = if b then k t else (t, inl restore_failed).
Proof. by destruct b. Qed.
Lemma checked_done b (t : T) : checked b t = if b then (t, inr tt) else (t, inl restore_failed).
Proof. by destruct b. Qed.
Lemma require_then {A} b c s (k : M T A) t : (require b c s ;; k) t = if b then k t else (t, inl (Exc c s)).
Proof. by destruct b. Qed.
Lemma get_state_then {A} (k : Snapshot → M T A) t sn : aget_state t = inr sn → (s ← get_state; k s) t = k sn t.
Proof. unfold get_state. munfold. by intros ->. Qed.
Lemma lift_then {A B} (r : res A) (k : A → M T B) t :
  (a ← lift r; k a) t = match r with inr a => k a t | inl e => (t, inl e) end.
Proof. by destruct r. Qed.
Lemma update_then {A} ws node (k : M T A) t t' : update_state ws node t = (t', inr tt) →
  (update_state ws node ;; k) t = k t'.
Proof. munfold. by intros ->. Qed.
Lemma reconstructed_then {A B} (r : res A) (k : A → M T B) t a : r = inr a → (x ← reconstructed r; k x) t = k a t.
Proof. by intros ->. Qed.
Lemma reconstructed_inv {A} (r : res A) (k : A → M T unit) t t' :
  (x ← reconstructed r; k x) t = (t', inr tt) → ∃ a, r = inr a ∧ k a t = (t', inr tt).
Proof. destruct r as [[[] ?]|a]; try done. by exists a. Qed.
End steps.

(** Marking a paused confirmation. *)
Lemma reread_seeded {T} `{ThreadLaws T am} nodes (t : T) sn node : aget_state t = inr sn →
  pending_recovery (sn_state sn) = None → interrupt_node sn (policies nodes) = Some node →
  node ∈ restore_reconfirmation nodes → node ≠ "" → ∃ t' sn' p,
  dget node (policies nodes) = Some p ∧
  let m := mkRecovery node (on_exception p) session_restored None in
  make_PendingRecovery node (on_exception p) session_restored None = inr m ∧
  update_state [W_pending_recovery (Some m)] START t = (t', inr tt) ∧ aget_state t' = inr sn' ∧
  validated_pending_recovery nodes sn' (sn_state sn') = inr (Some m) ∧
  Reasoning.session_revision (sn_state sn') = Reasoning.session_revision (sn_state sn) ∧
  asks_again nodes am node sn sn'.
Proof.
  intros Hsn Hp Hi Hr Hne. destruct (interrupt_node_policy _ _ _ Hi) as [p Hd].
  set (m := mkRecovery node (on_exception p) session_restored None).
  set (st' := apply_update am [W_pending_recovery (Some m)] (sn_state sn)).
  assert (restored_confirmation_valid nodes m = true) as Hrv.
  { unfold restored_confirmation_valid. cbn [m rec_origin_node]. rewrite Hd. apply bool_decide_eq_true.
    split_and!; [by left|done|done]. }
  assert (marker_contract_valid nodes st' m = true) as Hc.
  { unfold marker_contract_valid. unfold restored_confirmation_valid in Hrv. cbn [m rec_origin_node] in Hrv |- *.
    rewrite Hd in Hrv |- *. by rewrite Hrv, orb_true_r. }
  destruct (seeded_marker nodes t sn [W_pending_recovery (Some m)] m Hsn) as (t' & sn' & Hu & Hg & Hs' & _ & Hv); [done..|].
  exists t', sn', p. split; [done|]. cbv zeta. fold m. split_and!; [|done|done|done|by rewrite Hs'|].
  - unfold make_PendingRecovery. destruct node; [done|]. done.
  - exists m. split_and!; [done|done|done| |].
    + intros. apply (recover_rereads nodes fingerprint env _ m s); [by rewrite Hs'|done].
    + rewrite Hs'. by apply unmark.
Qed.

(** C30 A restored session goes on where it was, or asks again.  When a current checkpoint is
    accepted, it is this session's revision and holds a valid recovery marker, or is at rest with
    nothing pending, either unchanged; or it was paused at a confirmation that may be read again,
    and then the next turn re-enters that very confirmation with the conversation as it was.
    Every such paused confirmation is accepted. *)
Theorem restore_asks_again {T} `{ThreadLaws T am} nodes (t : T) sn n :
  aget_state t = inr sn →
  (∀ t', aprepare_current_restore nodes n t = (t', inr tt) →
     Reasoning.session_revision (sn_state sn) = n ∧
     ((t' = t ∧ (at_rest sn ∨ ∃ m, validated_pending_recovery nodes sn (sn_state sn) = inr (Some m))) ∨
      ∃ node sn', interrupt_node sn (policies nodes) = Some node ∧ aget_state t' = inr sn' ∧ asks_again nodes am node sn sn')) ∧
  (∀ node, 0 ≤ n → sn_blank sn = false → Reasoning.session_revision (sn_state sn) = n →
     pending_recovery (sn_state sn) = None → interrupt_node sn (policies nodes) = Some node →
     node ∈ restore_reconfirmation nodes → node ≠ "" → ∃ t', aprepare_current_restore nodes n t = (t', inr tt)).
Proof.
  intros Hsn.
  split.
  - intros t' Hrun. unfold aprepare_current_restore in Hrun. rewrite require_then in Hrun. destruct (0 <=? n); [|done].
    rewrite (get_state_then _ _ _ Hsn), !checked_then in Hrun. destruct (sn_blank sn); [done|]. cbn [negb] in Hrun.
    cbv zeta in Hrun. destruct (_ =? n) eqn:Hrev; [|done]. apply Z.eqb_eq in Hrev. split; [done|].
    destruct (pending_recovery (sn_state sn)) as [m|] eqn:Hp; cbn [isSome] in Hrun.
    { apply reconstructed_inv in Hrun as ([m'|] & Hv & [= <-]).
      - left. split; [done|]. right. by exists m'.
      - apply validated_spec in Hv as [Hv _]. by rewrite Hp in Hv. }
    destruct (bool_decide (sn_interrupts sn = [])) eqn:Hint; cbn [negb] in Hrun.
    + rewrite checked_then, checked_done in Hrun. destruct (_ && _) eqn:Hq; [|done].
      destruct (automation_cleared _ _) eqn:Hc; [|done]. injection Hrun as <-. left. split; [done|]. left.
      apply andb_true_iff in Hq as [H1%bool_decide_eq_true H2%bool_decide_eq_true]. apply bool_decide_eq_true in Hint.
      split_and!; [done| |done|done]. by apply length_zero_iff_nil.
    + destruct (interrupt_node sn (policies nodes)) as [node|] eqn:Hi; [|done].
      rewrite checked_then in Hrun. destruct (bool_decide (node ∈ _)) eqn:Hr; [|done]. apply bool_decide_eq_true in Hr.
      assert (node ≠ "") as Hne.
      { intros ->. destruct (dget "" (policies nodes)); [|done]. by rewrite lift_then in Hrun. }
      destruct (reread_seeded nodes t sn node Hsn Hp Hi Hr Hne) as (t1 & sn1 & p & Hd & Hm & Hu & Hg & Hv & Hrv & Hag).
      rewrite Hd, lift_then, Hm, (update_then _ _ _ _ _ Hu), (get_state_then _ _ _ Hg), (reconstructed_then _ _ _ _ Hv),
        checked_done in Hrun. destruct (_ && _); [|done]. injection Hrun as <-. right. by exists node, sn1.
  - intros node Hn Hb Hrev Hp Hi Hr Hne.
    destruct (reread_seeded nodes t sn node Hsn Hp Hi Hr Hne) as (t1 & sn1 & p & Hd & Hm & Hu & Hg & Hv & Hrv & _). exists t1.
    unfold aprepare_current_restore. rewrite require_then, (proj2 (Z.leb_le 0 n) Hn), (get_state_then _ _ _ Hsn).
    rewrite checked_then, Hb. cbn [negb]. cbv zeta. rewrite checked_then, Hrev, Z.eqb_refl, Hp. cbn [isSome].
    assert (sn_interrupts sn ≠ []) as Hint by (intros E; unfold interrupt_node in Hi; by rewrite E in Hi).
    rewrite bool_decide_eq_false_2 by done. cbn [negb]. rewrite Hi, checked_then, bool_decide_eq_true_2 by done.
    rewrite Hd, lift_then, Hm, (update_then _ _ _ _ _ Hu), (get_state_then _ _ _ Hg), (reconstructed_then _ _ _ _ Hv), checked_done.
    by rewrite bool_decide_eq_true_2, Hrv, Hrev, Z.eqb_refl.
Qed.

(** ** A checkpoint one operation behind *)
(** The operation is the one of the effect the thread was about to run. *)
Definition explains st (action : ExceptionAction) (operation : SessionOperationEvidence) : Prop :=
  let id := ev_operation_id operation in
  match action with
  | CART_REVIEW => ∃ p r, pending_cart_mutation st = Some p ∧ id = pc_idempotency_key p ∧
      ev_result operation = CartMutationSessionOperationResult r ∧
      (cm_operation r, cm_sku r, cm_name r, cm_price_usd r, cm_quantity r, cm_pre_confirm_quantity r) =
      (pc_operation p, pc_sku p, pc_name p, pc_price_usd p, pc_quantity p, pc_pre_confirm_quantity p)
  | RECONCILE_PLACEMENT => ∃ p, pending_placement st = Some p ∧ id = pp_idempotency_key p
  | RECONCILE_REFUND => ∃ p, pending_refund st = Some p ∧ recent_orders_operation_id op_refund (pr_idempotency_key p) = inr id
  | RECONCILE_CANCEL => ∃ b t, pending_cancel st = Some (pending_batch b) ∧ cb_targets b !! length (cb_outcomes b) = Some t ∧
      recent_orders_operation_id op_cancel (ct_idempotency_key t) = inr id
  | RECONCILE_RETURN => ∃ p, pending_return st = Some p ∧ recent_orders_operation_id op_return (pn_idempotency_key p) = inr id
  | SAFE_ABORT => ∃ i, active_invocation st = Some i ∧
      (recent_orders_operation_id op_read (invocation_id i) = inr id ∨
       recent_orders_operation_id op_list (invocation_id i) = inr id)
  | _ => False
  end.

Lemma by_key_spec o key id : (expected ← recent_orders_operation_id o key; inr (String.eqb id expected)) = inr true →
  recent_orders_operation_id o key = inr id.
Proof. cbv [mbind res_bind]. destruct (recent_orders_operation_id o key) as [|e]; [done|]. intros [= ->%String.eqb_eq]. done. Qed.

Lemma evidence_explains st action ops : session_ahead_evidence_matches st action ops = inr true →
  ∃ operation, ops = [operation] ∧ explains st action operation.
Proof.
  destruct ops as [|op [|]]; try done. intros Hm. exists op. split; [done|]. unfold session_ahead_evidence_matches in Hm.
  unfold explains. destruct action, (ev_result op) as [|r] eqn:Hr; try done.
  - destruct (active_invocation st) as [i|]; [|done]. exists i. split; [done|]. cbv [mbind res_bind] in Hm.
    destruct (recent_orders_operation_id op_read _) as [|a]; [done|].
    destruct (recent_orders_operation_id op_list _) as [|b]; [done|]. injection Hm as Hm%bool_decide_eq_true.
    set_unfold in Hm. naive_solver.
  - destruct (pending_cart_mutation st) as [p|]; [|done]. injection Hm as Hm. unfold record_matches in Hm.
    rewrite !andb_true_iff, !bool_decide_eq_true, !String.eqb_eq, !Z.eqb_eq in Hm.
    destruct Hm as (Hid & ((((H1 & H2) & H3) & H4) & H5) & H6). exists p, r. split_and!; [done..|congruence].
  - destruct (pending_placement st) as [p|]; [|done]. injection Hm as ->%String.eqb_eq. by exists p.
  - destruct (pending_refund st) as [p|]; [|done]. exists p. split; [done|]. by apply by_key_spec.
  - destruct (pending_cancel st) as [[|b]|]; try done. destruct (cb_targets b !! _) as [t|] eqn:Ht; [|done].
    exists b, t. split_and!; [done|done|]. by apply by_key_spec.
  - destruct (pending_return st) as [p|]; [|done]. exists p. split; [done|]. by apply by_key_spec.
Qed.

(** C31 A revision gap is only closed by its own effect.  When a checkpoint behind its session is
    accepted, the one operation that committed since is the very effect the thread was about to
    run, by its key and, for a cart change, by its record; the thread then carries the marker its
    error handler would have written, which recovery accepts, and nothing else changed but the
    revision, now that of the session. *)
Theorem session_ahead_explained {T} `{ThreadLaws T am} nodes (t t' : T) sn r :
  aget_state t = inr sn → aprepare_session_ahead_recovery nodes r t = (t', inr tt) →
  ∃ node p operation sn', sn_next sn = [node] ∧ dget node (policies nodes) = Some p ∧
    rn_operations r = [operation] ∧ explains (sn_state sn) (on_exception p) operation ∧
    rn_checkpoint_revision r = Some (Reasoning.session_revision (sn_state sn)) ∧
    let m := mkRecovery node (on_exception p) node_exception None in
    aget_state t' = inr sn' ∧ validated_pending_recovery nodes sn' (sn_state sn') = inr (Some m) ∧
    node_exception_valid nodes m = true ∧
    sn_state sn' = apply_update am [W_pending_recovery (Some m); W_session_revision (rn_record_revision r)] (sn_state sn).
Proof.
  intros Hsn Hrun. unfold aprepare_session_ahead_recovery in Hrun.
  destruct (rn_checkpoint_revision r) as [cr|] eqn:Hcr; [|done]. rewrite require_then in Hrun. destruct (_ && _) in Hrun; [|done].
  rewrite (get_state_then _ _ _ Hsn) in Hrun. cbv zeta in Hrun. rewrite checked_then in Hrun. destruct (_ && _) eqn:Hq in Hrun; [|done].
  rewrite !andb_true_iff in Hq. destruct Hq as (((Hrev%Z.eqb_eq & _) & _) & _).
  destruct (sn_next sn) as [|node [|]] eqn:Hn; [done| |done]. destruct (dget node (policies nodes)) as [p|] eqn:Hd; [|done].
  rewrite checked_then in Hrun. destruct (_ && _) eqn:Hh in Hrun; [|done]. apply andb_true_iff in Hh as [Hh%bool_decide_eq_true _].
  rewrite lift_then in Hrun. destruct (session_ahead_evidence_matches _ _ _) as [|[]] eqn:He; try done.
  rewrite checked_then, lift_then in Hrun. destruct (make_PendingRecovery _ _ _ _) as [|m] eqn:Hm; [done|].
  apply made_recovery in Hm as ->. set (m := mkRecovery node (on_exception p) node_exception None) in *.
  destruct (evidence_explains _ _ _ He) as (op & Hop & Hex).
  assert (node_exception_valid nodes m = true) as Hnv
    by (unfold node_exception_valid; cbn [m rec_origin_node]; rewrite Hd; by apply bool_decide_eq_true).
  set (ws := [W_pending_recovery (Some m); W_session_revision (rn_record_revision r)]) in *.
  assert (marker_contract_valid nodes (apply_update am ws (sn_state sn)) m = true) as Hc.
  { unfold marker_contract_valid, node_exception_valid in *. cbn [m rec_origin_node] in *. rewrite Hd in Hnv |- *.
    by rewrite Hnv, orb_true_r. }
  destruct (seeded_marker nodes t sn ws m Hsn eq_refl Hc) as (t1 & sn1 & Hu & Hg & Hs1 & _ & Hv).
  rewrite (update_then _ _ _ _ _ Hu), (get_state_then _ _ _ Hg), (reconstructed_then _ _ _ _ Hv), checked_done in Hrun.
  destruct (_ && _); [|done]. injection Hrun as <-.
  exists node, p, op, sn1. rewrite Hrev. by split_and!.
Qed.

(** ** A thread kept in memory *)
#[export] Instance snapshot_thread : ThreadPort Snapshot := {
  aget_state t := inr t;
  aupdate_state ws node t :=
    let st := apply_update app ws (sn_state t) in
    (if String.eqb node START then mkSnapshot false st [recovery_entry_node] [mkTask recovery_entry_node false []] []
     else mkSnapshot false st [] [] [], inr tt) }.
#[export] Instance snapshot_thread_laws : ThreadLaws Snapshot app.
Proof.
  split.
  - intros ws t s [= <-]. by eexists.
  - intros node ws t s Hn [= <-]. eexists. split; [reflexivity|].
    set_unfold in Hn. by destruct Hn as [->|[->|[]]].
Qed.

(** A checkout that was cancelled while its effect ran, and one paused at its readback. *)
Definition cut_off : ReasoningState := apply_update app [W_consumed_turn_ids ["t-1"]] checking_out.
Definition place_paused (interrupted : bool) (node : string) : Snapshot :=
  let asked := if interrupted then [mkInterrupt "i-1" "Just to confirm: shall I place it?"] else [] in
  mkSnapshot false cut_off [node] [mkTask node false asked] asked.

Lemma cancelled_turn_recoverable_witness :
  ∃ m, classify_cancelled_checkpoint wired_nodes (place_paused false "cart_place") ["cart_place"] "t-1" None
    = inr (cp_recover m) ∧
    rec_action m = RECONCILE_PLACEMENT ∧ (aseed_stream_recovery m (place_paused false "cart_place")).2 = inr tt.
Proof.
  eexists. split; [by vm_compute|]. split; [done|].
  edestruct (cancelled_turn_recoverable (am:=app) wired_nodes (place_paused false "cart_place") (place_paused false "cart_place")
    ["cart_place"] "t-1" None) as (_ & _ & t' & sn' & Hs & _); [done|by vm_compute|].
  by rewrite Hs.
Defined.

Lemma restore_asks_again_witness :
  ∃ t' sn', aprepare_current_restore wired_nodes 0 (place_paused true "cart_confirm") = (t', inr tt) ∧
    aget_state t' = inr sn' ∧ asks_again wired_nodes app "cart_confirm" (place_paused true "cart_confirm") sn'.
Proof.
  assert (aget_state (place_paused true "cart_confirm") = inr (place_paused true "cart_confirm")) as Hget by reflexivity.
  destruct (restore_asks_again (am:=app) wired_nodes _ _ 0 Hget) as [Hout Hin].
  destruct (Hin "cart_confirm") as [t' Ht]; [done|done|done|done|by vm_compute|apply (bool_decide_unpack _); by vm_compute|done|].
  exists t'. destruct (Hout t' Ht) as [_ [[-> _]|(node & sn' & Hn & Hg & Ha)]]; [by vm_compute in Ht|].
  assert (interrupt_node (place_paused true "cart_confirm") (policies wired_nodes) = Some "cart_confirm") as Hc
    by (vm_compute; reflexivity).
  rewrite Hc in Hn. injection Hn as <-. exists sn'. split; [exact Ht|]. split; [exact Hg|exact Ha].
Defined.

Lemma session_ahead_explained_witness :
  let r := mkReconciliation true (Some 0) [mkEvidence "p-1" EmptySessionOperationResult] 1 in
  (aprepare_session_ahead_recovery wired_nodes r (place_paused false "cart_place")).2 = inr tt ∧
  Reasoning.session_revision (sn_state (aprepare_session_ahead_recovery wired_nodes r (place_paused false "cart_place")).1) = 1.
Proof.
  intros r. set (after := aprepare_session_ahead_recovery wired_nodes r (place_paused false "cart_place")).
  assert (after.2 = inr tt) as Hr by (vm_compute; reflexivity). split; [exact Hr|].
  assert (aprepare_session_ahead_recovery wired_nodes r (place_paused false "cart_place") = (after.1, inr tt)) as Hrun
    by (rewrite <-Hr; apply surjective_pairing).
  assert (∀ t : Snapshot, aget_state t = inr t) as Hget by done.
  clearbody after. destruct (session_ahead_explained (am:=app) wired_nodes (place_paused false "cart_place") after.1
    (place_paused false "cart_place") r (Hget _) Hrun) as (node & p & op & sn' & _ & _ & _ & _ & _ & Hg & _ & _ & Hst).
  rewrite Hget in Hg. injection Hg as <-.
  rewrite Hst. reflexivity.
Defined.
