(* ===== verification/Engine.v ===== *)
(** * Admitting a turn (agents/engine.py)

    What one committed turn of the caller becomes, given what the engine finds
    on its thread: ignored, answered without the graph, or one input of the
    graph.  A reply to a paused readback resumes it, unless the router, asked
    only where the consent grammar has no answer, finds another request in it;
    an ordinary turn is routed and admitted with its instruction.  [route] is
    the session's router ([Routing.resolve_ordinary]); streaming, cancellation
    and telemetry are not modelled. *)

From S2P Require Import Prelude PyText Cart Orders OrderScope Verification SessionState SessionCommit SessionRefine.
From S2P Require Import Consent Confirmation Requests Reasoning Clarification Routing Nodes SupportBase SupportExamples.
From S2P Require Import Caller IdentityFlow CartExamples Frontline Recovery Checkpoint.
Local Open Scope Z_scope.
Local Open Scope list_scope.

(** [TurnFacts.readback_interrupted]: whether the caller spoke over the last line, if known. *)
Notation TurnFacts := (option bool).
Record RelayedReply := mkRelayed { rr_turn_id : string; rr_text : string }.
Definition CONVERSATION_TEXT_LIMIT : nat := 1000.

(** ** The writes of an admitted turn *)
Definition admitted_turn (id text : string) (conversation : list ConversationEntry) : list Write :=
  [W_messages [HumanMessage id text]; W_consumed_turn_ids [id]; W_conversation conversation].
Definition direct_dispatch (id : string) (r : IntentRequest) : res (list Write) :=
  e ← make_CapabilityDispatchEnvelope id mode_direct (Some r) None;
  inr [W_pending_capability_dispatch (Some e); W_clarification_liveness None].
Definition continue_dispatch (id : string) (i : ActiveInvocation) : res CapabilityDispatchEnvelope :=
  make_CapabilityDispatchEnvelope id mode_continue None (Some (invocation_id i)).

Definition conversation_update (relayed : option RelayedReply) (turn : CommittedTurn) (st : ReasoningState)
    (facts : TurnFacts) : res (list ConversationEntry) :=
  said ← match relayed with
         | Some reply =>
             if bool_decide (last (consumed_turn_ids st) = Some (rr_turn_id reply)) then
               e ← make_ConversationEntry assistant (String.substring 0 CONVERSATION_TEXT_LIMIT (rr_text reply))
                     (rr_turn_id reply) (negb <$> facts);
               inr [e]
             else inr []
         | None => inr []
         end;
  heard ← match turn_message_id turn with
          | Some id =>
              if nonempty (strip (turn_text turn)) then
                e ← make_ConversationEntry caller (String.substring 0 CONVERSATION_TEXT_LIMIT (strip (turn_text turn))) id None;
                inr [e]
              else inr []
          | None => inr []
          end;
  inr (said ++ heard).

(** ** Replies to a readback *)
Definition PERSON_QUESTIONS : list string := [PERSON_QUESTION; PERSON_QUESTION_RETRY].

Section engine.
Context (nodes : NodePolicyRegistry) (available : CapabilityId → bool).
Context (route : bool → CommittedTurn → ReasoningState → res Resolution).
Context (am : list Message → list Message → list Message).
Implicit Types (turn : CommittedTurn) (st : ReasoningState) (facts : TurnFacts).

Definition closed_consent_verdict (node prompt text : string) : option Consent :=
  match dget node (consent_interrupt_kinds nodes) with
  | None => None
  | Some k =>
      Some (if bool_decide (prompt ∈ PERSON_QUESTIONS) then classify_person_consent text
            else match k with cancel_kind => classify_cancel_consent text | standard => classify_consent text end)
  end.

Record ReadbackReply := mkReply {
  rb_handoff_source : option HandoffSource;
  rb_request : option IntentRequest;
  rb_reread : bool;
  rb_declined : bool }.
Definition plain_reply : ReadbackReply := mkReply None None false false.
Definition handoff_reply (source : HandoffSource) : ReadbackReply := mkReply (Some source) None false false.

Definition reference_writes st : res (list Write) :=
  reference ← pending_readback_reference st;
  inr match reference with Some r => [W_product_reference (Some r)] | None => [] end.

Definition declines (node prompt text : string) : bool :=
  bool_decide (closed_consent_verdict node prompt text = Some no) && negb (is_bare_decline text).

Definition readback_reply turn st (node prompt : string) (conversation : list ConversationEntry) facts
    : res ReadbackReply :=
  let text := turn_text turn in
  let declined := declines node prompt text in
  if negb (bool_decide (closed_consent_verdict node prompt text = Some unclear)) && negb declined then inr plain_reply
  else
    reference ← reference_writes st;
    resolution ← route (bool_decide (facts = Some false)) turn
                   (apply_update am ([W_conversation conversation] ++ reference) st);
    match resolution with
    | inr reason =>
        inr (match reason with
             | routing_unavailable => if declined then plain_reply else handoff_reply ROUTING_FAILURE_POLICY
             | _ => plain_reply
             end)
    | inl d =>
        match rd_decision d, rd_request d with
        | direct_route, Some RequestPerson =>
            inr (if declined then mkReply None (Some RequestPerson) false true else handoff_reply SEMANTIC_ROUTER)
        | direct_route, Some r =>
            let pending := pending_confirmation_capability st in
            if bool_decide (kind r ∈ [CONVERSE; ABORT_CURRENT]) || bool_decide (pending = Some (kind r)) then inr plain_reply
            else if declined && commerce_effect_capability (kind r) then inr plain_reply
            else
              inr (mkReply None (Some r)
                     (negb declined && negb (unsafe_misroute_capability (kind r))
                      && bool_decide (node ∈ restore_reconfirmation nodes)
                      && negb (bool_decide (pending = Some REQUEST_PERSON)))
                     declined)
        | _, _ => inr plain_reply
        end
    end.

Definition readback_set_aside_payload (id text : string) st (conversation : list ConversationEntry)
    (r : IntentRequest) (reread : bool) : res (list Write) :=
  dispatch ← direct_dispatch id r;
  reference ← reference_writes st;
  inr (admitted_turn id text conversation ++ dispatch ++ reference
       ++ (if reread then [W_confirmation_detour_turn (Some id)] else [])).

(** ** An ordinary turn *)
(** [fresh]: the identifier a new router owner is given. *)
Definition no_action_owner (fresh : string) st : ClarificationOwner :=
  match active_invocation st with
  | Some i => InvocationClarificationOwner (invocation_id i)
  | None =>
      match cl_owner <$> clarification_liveness st with
      | Some (RouterClarificationOwner id) => RouterClarificationOwner id
      | _ => RouterClarificationOwner fresh
      end
  end.

Definition no_action_reason (resolution : Resolution) : ClarificationReason + RoutingFailureReason :=
  match resolution with
  | inr reason => inr reason
  | inl d => match rd_reason d with Some reason => inl reason | None => inr decision_rejected end
  end.

Definition ordinary_turn_payload (fresh : string) (relayed : option RelayedReply) turn st facts : res (list Write) :=
  match turn_message_id turn with
  | None => raises ValueError "ordinary routed turn requires a committed id"
  | Some id =>
      conversation ← conversation_update relayed turn st facts;
      let payload := admitted_turn id (turn_text turn) conversation in
      let no_action (reason : ClarificationReason + RoutingFailureReason) : res (list Write) :=
        turn_id ← non_empty_text id;
        inr (payload ++ [W_pending_router_no_action (Some (mkNoAction turn_id (no_action_owner fresh st) reason))]) in
      let routed : res (list Write) :=
        resolution ← route (bool_decide (facts = Some false)) turn (apply_update am [W_conversation conversation] st);
        match resolution with
        | inl d =>
            match rd_decision d, rd_request d, active_invocation st with
            | direct_route, Some r, _ => dispatch ← direct_dispatch id r; inr (payload ++ dispatch)
            | direct_route, None, _ => no_action (inr decision_rejected)
            | continue_route, _, Some i =>
                e ← continue_dispatch id i;
                inr (payload ++ [W_pending_capability_dispatch (Some e)])
            | continue_route, _, None => no_action (inr decision_rejected)
            | clarify_route, _, _ => no_action (no_action_reason resolution)
            end
        | inr _ => no_action (no_action_reason resolution)
        end in
      match active_invocation st with
      | Some i =>
          if negb (available (capability i)) then
            e ← continue_dispatch id i;
            inr (payload ++ [W_pending_capability_dispatch (Some e); W_clarification_liveness None])
          else routed
      | None => routed
      end
  end.

(** ** What the thread shows *)
Definition is_checkpointed_route_redelivery (sn : Snapshot) st (id : string) : bool :=
  let delivered (turn_id : string) : bool :=
    String.eqb turn_id id && bool_decide (last (consumed_turn_ids st) = Some id)
    && isSome (committed_user_message st id) && opt_none (pending_recovery st) && entry_waits sn in
  match pending_capability_dispatch st, pending_router_no_action st with
  | Some e, None =>
      match make_CapabilityDispatchEnvelope (de_turn_id e) (de_mode e) (de_request e) (observed_invocation_id e) with
      | inr e => delivered (de_turn_id e)
      | inl _ => false
      end
  | None, Some e => delivered (na_turn_id e)
  | _, _ => false
  end.

(** [{field: getattr(state, field) for field in clear_automation_state()}] *)
Definition automation_of st : list Write :=
  [W_handover (handover st); W_pending_capability_dispatch (pending_capability_dispatch st);
   W_pending_router_no_action (pending_router_no_action st); W_pending_cart_mutation (pending_cart_mutation st);
   W_pending_placement (pending_placement st); W_pending_refund (pending_refund st); W_pending_cancel (pending_cancel st);
   W_pending_return (pending_return st); W_pending_profile_change (pending_profile_change st);
   W_pending_identity (pending_identity st); W_pending_recovery (pending_recovery st);
   W_active_invocation (active_invocation st); W_identity_claim_misses (identity_claim_misses st);
   W_execution_owner (execution_owner st); W_pending_ack (pending_ack st);
   W_pending_clarification (pending_clarification st); W_clarification_liveness (clarification_liveness st)].
Record Detour := mkDetour { dt_node : string; dt_automation : list Write }.

(** One input of the graph: a fresh input, an answer to the paused readback, or an update that
    lets the thread go on. *)
Inductive GraphInput :=
  | input (ws : list Write) | resume (a : answer) (ws : list Write) | update_only (ws : list Write).
Definition input_writes (i : GraphInput) : list Write :=
  match i with input ws | resume _ ws | update_only ws => ws end.

Inductive Admission :=
  | duplicate_ignored
  | last_resort
  | consumed_quietly (ws : list Write)
  | run_graph (i : GraphInput) (resumed_interrupt_node : option string) (detour : option Detour).

Definition turn_answer turn facts (source : option HandoffSource) : answer :=
  mkAnswer ((λ s, match s with
                  | DETERMINISTIC_POLICY => "deterministic_policy" | SEMANTIC_ROUTER => "semantic_router"
                  | ROUTING_FAILURE_POLICY => "routing_failure_policy"
                  end) <$> source)
    (turn_text turn) (negb (bool_decide (facts = Some false))).

(** The reply of a turn to the readback the thread is paused at. *)
Definition answer_readback (relayed : option RelayedReply) turn (id : string) facts (sn : Snapshot) (prompt : string)
    (node : string) : res Admission :=
  let st := sn_state sn in
  conversation ← conversation_update relayed turn st facts;
  reply ← readback_reply turn st node prompt conversation facts;
  match rb_request reply with
  | Some r =>
      payload ← readback_set_aside_payload id (turn_text turn) st conversation r (rb_reread reply);
      inr (run_graph (input payload) None
             (if rb_reread reply then Some (mkDetour node (automation_of st)) else None))
  | None =>
      inr (run_graph (resume (turn_answer turn facts (rb_handoff_source reply))
                        [W_consumed_turn_ids [id]; W_conversation conversation]) (Some node) None)
  end.

Definition seen_turn (id : string) st : bool := bool_decide (id ∈ consumed_turn_ids st).
Definition spoken (turn : CommittedTurn) (id : string) : list Write :=
  [W_messages [HumanMessage id (turn_text turn)]; W_consumed_turn_ids [id]].

(** The decision of [_stream_admitted_turn] under the turn's lock, once a pending transition was
    rotated: [cross_thread] says that the thread changed since the turn arrived, and
    [arrived_interrupt_ids] which readbacks it could have heard. *)
Definition admit_turn (fresh : string) (relayed : option RelayedReply) turn (id : string) facts (cross_thread : bool)
    (arrived_interrupt_ids : list string) (sn : Snapshot) : res Admission :=
  let st := sn_state sn in
  let run i := inr (run_graph i None None) in
  let consume := run (update_only [W_consumed_turn_ids [id]]) in
  if automation_terminal st then
    if seen_turn id st then inr duplicate_ignored else run (input (spoken turn id))
  else
    marker ← validated_pending_recovery nodes sn st;
    let only_new := run (update_only [W_consumed_turn_ids (if seen_turn id st then [] else [id])]) in
    if cross_thread then
      if isSome marker then only_new
      else if seen_turn id st then inr duplicate_ignored
      else if negb (bool_decide (sn_interrupts sn = [])) then
        if isSome (interrupt_node sn (policies nodes)) then consume else inr last_resort
      else if bool_decide (sn_next sn = []) && bool_decide (length (sn_tasks sn) = 0%nat) then
        inr (consumed_quietly [W_consumed_turn_ids [id]])
      else if is_pristine_principal_continuation sn st then consume
      else inr last_resort
    else
      match marker with
      | Some m =>
          if bool_decide (rec_trigger m = stream_cancelled ∧ rec_action m = SAFE_ABORT) && negb (seen_turn id st)
          then run (input (spoken turn id))
          else only_new
      | None =>
          if seen_turn id st then
            if is_checkpointed_route_redelivery sn st id then run (update_only [W_consumed_turn_ids []])
            else inr duplicate_ignored
          else
            match sn_interrupts sn with
            | i :: _ =>
                match interrupt_node sn (policies nodes) with
                | None => inr last_resort
                | Some node =>
                    if bool_decide (int_id i ∈ arrived_interrupt_ids)
                    then answer_readback relayed turn id facts sn (int_value i) node
                    else consume
                end
            | [] =>
                if negb (bool_decide (sn_next sn = [])) then
                  if is_pristine_principal_continuation sn st then consume else inr last_resort
                else if negb (bool_decide (length (sn_tasks sn) = 0%nat)) then inr last_resort
                else payload ← ordinary_turn_payload fresh relayed turn st facts; run (input payload)
            end
      end.
End engine.

(** ** Replies to a paused readback *)
Section readback_laws.
Context (nodes : NodePolicyRegistry) (available : CapabilityId → bool).
Context (route : bool → CommittedTurn → ReasoningState → res Resolution).
Context (am : list Message → list Message → list Message).
Implicit Types (turn : CommittedTurn) (st : ReasoningState) (facts : TurnFacts).

(** The thread waits at a readback the caller of this new turn has heard. *)
Definition paused (sn : Snapshot) (id : string) (arrived : list string) (prompt node : string) : Prop :=
  automation_terminal (sn_state sn) = false ∧ pending_recovery (sn_state sn) = None ∧
  id ∉ consumed_turn_ids (sn_state sn) ∧ interrupt_node sn (policies nodes) = Some node ∧
  ∃ i, sn_interrupts sn = [i] ∧ int_value i = prompt ∧ int_id i ∈ arrived.

Lemma admit_paused fresh relayed turn id facts arrived sn prompt node : paused sn id arrived prompt node →
  admit_turn nodes available route am fresh relayed turn id facts false arrived sn =
  answer_readback nodes route am relayed turn id facts sn prompt node.
Proof.
  intros (Ht & Hp & Hid & Hn & i & Hi & <- & Hai). unfold admit_turn, validated_pending_recovery, seen_turn.
  rewrite Ht, Hp. cbv [mbind res_bind]. rewrite bool_decide_eq_false_2 by done. rewrite Hi, Hn.
  by rewrite bool_decide_eq_true_2.
Qed.

Lemma plain_unasked turn st node prompt conversation facts :
  closed_consent_verdict nodes node prompt (turn_text turn) ≠ Some unclear → declines nodes node prompt (turn_text turn) = false →
  readback_reply nodes route am turn st node prompt conversation facts = inr plain_reply.
Proof. intros Hv Hd. unfold readback_reply. by rewrite Hd, bool_decide_eq_false_2. Qed.

Lemma readback_reply_spec turn st node prompt conversation facts reply :
  readback_reply nodes route am turn st node prompt conversation facts = inr reply →
  let v := closed_consent_verdict nodes node prompt (turn_text turn) in
  match rb_request reply with
  | None => rb_handoff_source reply ≠ Some DETERMINISTIC_POLICY
  | Some r =>
      (v = Some unclear ∨ v = Some no) ∧
      (r = RequestPerson ∨ pending_confirmation_capability st ≠ Some (kind r)) ∧
      (v = Some no → commerce_effect_capability (kind r) = false) ∧
      (rb_reread reply = true → v = Some unclear ∧ unsafe_misroute_capability (kind r) = false ∧
         node ∈ restore_reconfirmation nodes)
  end.
Proof.
  unfold readback_reply. cbv zeta. destruct (negb _ && negb _) eqn:Hplain; [by intros [= <-]|].
  assert (closed_consent_verdict nodes node prompt (turn_text turn) = Some unclear ∧
            declines nodes node prompt (turn_text turn) = false ∨
          closed_consent_verdict nodes node prompt (turn_text turn) = Some no ∧
            declines nodes node prompt (turn_text turn) = true) as Hv.
  { unfold declines in *. destruct (closed_consent_verdict _ _ _ _) as [[]|]; try done; [|by left].
    right. split; [done|]. destruct (is_bare_decline _); [done|]. by cbn. }
  clear Hplain. cbv [mbind res_bind]. destruct (reference_writes st) as [|reference]; [done|].
  destruct (route _ _ _) as [|[d|reason]]; [done| |].
  2: { destruct reason; try (by intros [= <-]). destruct (declines _ _ _ _); by intros [= <-]. }
  destruct (rd_decision d); try (by intros [= <-]). destruct (rd_request d) as [r|]; [|by intros [= <-]].
  assert (r = RequestPerson ∨ r ≠ RequestPerson) as [->|Hr] by (destruct (decide (r = RequestPerson)); auto).
  { destruct Hv as [[Hv ->]|[Hv ->]]; intros [= <-]; cbn; [done|]. split_and!; auto. congruence. }
  assert (∀ X Y : res ReadbackReply, match r with RequestPerson => X | _ => Y end = Y) as Hmatch by (by destruct r).
  rewrite Hmatch. clear Hmatch.
  destruct (_ || _) eqn:Hsame; [by intros [= <-]|]. apply orb_false_iff in Hsame as [_ Hp%bool_decide_eq_false].
  destruct (declines _ _ _ _ && _) eqn:Heff; [by intros [= <-]|]. intros [= <-]. cbn.
  destruct Hv as [[Hv Hd]|[Hv Hd]]; rewrite Hd, Hv in *; cbn in *; split_and!; auto; try done.
  intros Hre. rewrite !andb_true_iff, negb_true_iff, bool_decide_eq_true in Hre. naive_solver.
Qed.

Lemma dispatch_writes id r ws : direct_dispatch id r = inr ws → ∃ e, ws = [W_pending_capability_dispatch (Some e); W_clarification_liveness None] ∧
  non_empty_text id = inr (de_turn_id e) ∧ de_mode e = mode_direct ∧ mapO validate_request (Some r) = inr (de_request e).
Proof.
  unfold direct_dispatch. cbv [mbind res_bind]. destruct (make_CapabilityDispatchEnvelope _ _ _ _) as [|e] eqn:He; [done|].
  intros [= <-]. exists e. split; [done|]. destruct (envelope_fields _ _ _ _ _ He) as (H1 & H2 & H3 & _). by split_and!.
Qed.

Lemma consents_need_a_yes turn facts source cancel d : source ≠ Some DETERMINISTIC_POLICY →
  classify_confirmation (turn_answer turn facts source) cancel = inr d → verdict d = decided yes →
  facts = Some false ∧ source = None ∧
  (if cancel then classify_cancel_consent else classify_consent) (turn_text turn) = yes.
Proof.
  unfold classify_confirmation, handoff_decision, turn_answer. cbn. destruct source as [[]|]; cbn; try done;
    try (by intros _ [= <-]). intros _. case_bool_decide as Hf; cbn; [|by intros [= <-]].
  intros [= <-]. cbn. intros [= Hy]. by destruct cancel.
Qed.
End readback_laws.

Definition dispatch_written (ws : list Write) : option (option CapabilityDispatchEnvelope) :=
  written (λ w, match w with W_pending_capability_dispatch e => Some e | _ => None end) ws.

(** C4 Only the caller's own yes confirms.  At a readback the caller has heard, a reply the consent
    grammar takes for a yes resumes it, whatever the router would say; whenever the readback is
    resumed, it is with the caller's own words, and they are a consent only if the readback was
    played to its end and the grammar itself says so.  A reply that is set aside for another
    request was no yes, the request is not the one being confirmed (unless it is for a person),
    after a no it starts no effect, and the readback is only kept for later, to be read again,
    when there was no answer and the request is a safe one. *)
Theorem readback_needs_the_callers_yes nodes available route am fresh relayed turn id facts arrived sn prompt node :
  paused nodes sn id arrived prompt node →
  let v := closed_consent_verdict nodes node prompt (turn_text turn) in
  (v = Some yes → ∀ route', admit_turn nodes available route am fresh relayed turn id facts false arrived sn =
                            admit_turn nodes available route' am fresh relayed turn id facts false arrived sn) ∧
  ∀ out, admit_turn nodes available route am fresh relayed turn id facts false arrived sn = inr out →
  match out with
  | run_graph (resume a _) resumed detour => resumed = Some node ∧ detour = None ∧ answer_text a = turn_text turn ∧
      ∀ cancel d, classify_confirmation a cancel = inr d → verdict d = decided yes →
        facts = Some false ∧ answer_source a = None ∧
        (if cancel then classify_cancel_consent else classify_consent) (turn_text turn) = yes
  | run_graph (input ws) resumed detour => resumed = None ∧ v ≠ Some yes ∧
      ∃ e c, dispatch_written ws = Some (Some e) ∧ kind <$> de_request e = Some c ∧
        (c = REQUEST_PERSON ∨ pending_confirmation_capability (sn_state sn) ≠ Some c) ∧
        (v = Some no → commerce_effect_capability c = false) ∧
        (detour ≠ None → v = Some unclear ∧ unsafe_misroute_capability c = false ∧ node ∈ restore_reconfirmation nodes)
  | _ => False
  end.
Proof.
  intros Hp v. split.
  { intros Hv route'. rewrite !(admit_paused _ _ _ _ _ _ _ _ _ _ _ _ _ Hp). unfold answer_readback.
    cbv [mbind res_bind]. destruct (conversation_update _ _ _ _) as [|conversation]; [done|].
    assert (declines nodes node prompt (turn_text turn) = false) as Hd
      by (unfold declines; subst v; by rewrite Hv).
    rewrite !plain_unasked by (try done; subst v; rewrite Hv; done). done. }
  intros out. rewrite (admit_paused _ _ _ _ _ _ _ _ _ _ _ _ _ Hp). unfold answer_readback. cbv [mbind res_bind].
  destruct (conversation_update _ _ _ _) as [|conversation]; [done|].
  destruct (readback_reply _ _ _ _ _ _ _ _ _) as [|reply] eqn:Hr; [done|].
  apply readback_reply_spec in Hr. fold v in Hr. destruct (rb_request reply) as [r|].
  - destruct (readback_set_aside_payload _ _ _ _ _ _) as [|ws] eqn:Hws; [done|]. intros [= <-].
    unfold readback_set_aside_payload in Hws. cbv [mbind res_bind] in Hws.
    destruct (direct_dispatch id r) as [|ds] eqn:Hd; [done|]. apply dispatch_writes in Hd as (e & -> & _ & _ & Hv).
    destruct (reference_writes _) as [|ref] eqn:Href; [done|]. injection Hws as <-.
    destruct Hr as (Hyes & Hpend & Heff & Hre). split; [done|]. split; [destruct Hyes as [->| ->]; done|].
    exists e, (kind r). split_and!; [| |naive_solver|done|].
    + unfold dispatch_written, written. unfold reference_writes in Href. cbv [mbind res_bind] in Href.
      destruct (pending_readback_reference _) as [|[]]; simplify_eq; destruct (rb_reread reply); done.
    + cbn [mapO] in Hv. cbv [mbind res_bind] in Hv. destruct (validate_request r) as [|t] eqn:Ht; [done|].
      injection Hv as <-. apply validate_keeps in Ht as (Hk & _). cbn. by rewrite Hk.
    + destruct (rb_reread reply); [|done]. intros _. by apply Hre.
  - intros [= <-]. split_and!; [done|done|done|]. intros cancel d Hc Hy.
    destruct (consents_need_a_yes turn facts _ cancel d Hr Hc Hy) as (Hf & Hs & Hx). rewrite Hs. by split_and!.
Qed.

(** ** Each message once *)
Definition messages_written (ws : list Write) : option (list Message) :=
  written (λ w, match w with W_messages ms => Some ms | _ => None end) ws.
Definition consumed_written (ws : list Write) : option (list string) :=
  written (λ w, match w with W_consumed_turn_ids ids => Some ids | _ => None end) ws.
(** The writes admit the turn of [id]: they mark it, and at most add its own message. *)
Definition marks_turn (id text : string) (ws : list Write) : Prop :=
  consumed_written ws = Some [id] ∧ messages_written ws ∈ [None; Some [HumanMessage id text]].
(** The writes of a turn that was seen before: nothing at all is added. *)
Definition marks_nothing (ws : list Write) : Prop := consumed_written ws = Some [] ∧ messages_written ws = None.

Lemma written_app {A} (f : Write → option A) ws ws' : written f (ws ++ ws') =
  match written f ws' with Some a => Some a | None => written f ws end.
Proof.
  unfold written. rewrite foldl_app. generalize (foldl (λ cur w, match f w with Some a => Some a | None => cur end) None ws).
  intros o. revert o. induction ws' as [|w ws' IH] using rev_ind; intros o; [done|]. rewrite !foldl_app. cbn.
  destruct (f w); [done|]. apply IH.
Qed.

Lemma marks_app id text ws ws' : marks_turn id text ws → consumed_written ws' = None → messages_written ws' = None →
  marks_turn id text (ws ++ ws').
Proof.
  unfold marks_turn, consumed_written, messages_written. rewrite !written_app. by intros Hm -> ->.
Qed.
Lemma admitted_marks id text conversation : marks_turn id text (admitted_turn id text conversation).
Proof. split; [done|]. by right; left. Qed.

Section once.
Context (nodes : NodePolicyRegistry) (available : CapabilityId → bool).
Context (route : bool → CommittedTurn → ReasoningState → res Resolution).
Context (am : list Message → list Message → list Message).
Implicit Types (turn : CommittedTurn) (st : ReasoningState) (facts : TurnFacts).

(** The instruction an ordinary turn is admitted with. *)
Inductive instruction (fresh id : string) st (decided : RouteDecision → Prop) : list Write → Prop :=
  | instr_direct d r ws : decided d → rd_decision d = direct_route → rd_request d = Some r →
      direct_dispatch id r = inr ws → instruction fresh id st decided ws
  | instr_continue i e l : active_invocation st = Some i → continue_dispatch id i = inr e →
      l ∈ [[]; [W_clarification_liveness None]] →
      instruction fresh id st decided ([W_pending_capability_dispatch (Some e)] ++ l)
  | instr_no_action turn_id reason : non_empty_text id = inr turn_id →
      instruction fresh id st decided
        [W_pending_router_no_action (Some (mkNoAction turn_id (no_action_owner fresh st) reason))].

Lemma ordinary_spec fresh relayed turn id st facts ws : turn_message_id turn = Some id →
  ordinary_turn_payload available route am fresh relayed turn st facts = inr ws →
  ∃ conversation extra, ws = admitted_turn id (turn_text turn) conversation ++ extra ∧
    instruction fresh id st
      (λ d, route (bool_decide (facts = Some false)) turn (apply_update am [W_conversation conversation] st) = inr (inl d)) extra.
Proof.
  intros Hid. unfold ordinary_turn_payload. rewrite Hid. cbv [mbind res_bind].
  destruct (conversation_update _ _ _ _) as [|conversation]; [done|]. cbv zeta.
  intros Hws. exists conversation. set (asked := route _ _ _) in *. clearbody asked.
  assert (∀ (reason : ClarificationReason + RoutingFailureReason), match non_empty_text id with inl e => inl e | inr turn_id =>
     inr (admitted_turn id (turn_text turn) conversation ++ [W_pending_router_no_action (Some (mkNoAction turn_id (no_action_owner fresh st) reason))])
     end = inr ws → ∃ extra, ws = admitted_turn id (turn_text turn) conversation ++ extra ∧
       instruction fresh id st (λ d, asked = inr (inl d)) extra) as Hno.
  { intros reason. destruct (non_empty_text id) as [|turn_id] eqn:Ht; [done|]. intros [= <-]. eexists. split; [done|]. by constructor. }
  assert (match asked with
    | inl e => inl e
    | inr (inl d) =>
        match rd_decision d, rd_request d, active_invocation st with
        | direct_route, Some r, _ => match direct_dispatch id r with inl e => inl e | inr dispatch =>
            inr (admitted_turn id (turn_text turn) conversation ++ dispatch) end
        | continue_route, _, Some i => match continue_dispatch id i with inl e => inl e | inr e =>
            inr (admitted_turn id (turn_text turn) conversation ++ [W_pending_capability_dispatch (Some e)]) end
        | _, _, _ => inl (Exc AssertionError "")
        end
    | inr (inr _) => inl (Exc AssertionError "")
    end = inr ws → ∃ extra, ws = admitted_turn id (turn_text turn) conversation ++ extra ∧
       instruction fresh id st (λ d, asked = inr (inl d)) extra) as Hgo.
  { destruct asked as [|[d|]] eqn:Ha; [done| |done].
    destruct (rd_decision d) eqn:Hd; [done| |].
    - destruct (rd_request d) as [r|] eqn:Hr; [|done]. destruct (direct_dispatch id r) as [|dispatch] eqn:Hdd; [done|].
      intros [= <-]. eexists. split; [done|]. by eapply instr_direct.
    - destruct (active_invocation st) as [i|] eqn:Hi; [|by destruct (rd_request d)].
      destruct (continue_dispatch id i) as [|e] eqn:He; [by destruct (rd_request d)|].
      intros Hx. assert (inr (admitted_turn id (turn_text turn) conversation ++ [W_pending_capability_dispatch (Some e)]) = inr ws
        :> res (list Write)) as [= <-] by (by destruct (rd_request d)).
      eexists. split; [done|]. eapply instr_continue with (l := []); [done|done|by left]. }
  destruct (active_invocation st) as [i|] eqn:Hi.
  - destruct (negb (available _)).
    { destruct (continue_dispatch id i) as [|e] eqn:He; [done|]. injection Hws as <-. eexists. split; [done|].
      eapply instr_continue with (l := [_]); [done|done|by right; left]. }
    destruct asked as [|[d|]]; [done| |by eapply Hno].
    destruct (rd_decision d), (rd_request d); first [by eapply Hno|by apply Hgo].
  - destruct asked as [|[d|]]; [done| |by eapply Hno].
    destruct (rd_decision d), (rd_request d); first [by eapply Hno|by apply Hgo].
Qed.

Lemma ordinary_marks fresh relayed turn id st facts ws : turn_message_id turn = Some id →
  ordinary_turn_payload available route am fresh relayed turn st facts = inr ws → marks_turn id (turn_text turn) ws.
Proof.
  intros Hid Hws. destruct (ordinary_spec _ _ _ _ _ _ _ Hid Hws) as (conversation & extra & -> & Hi).
  apply marks_app; [apply admitted_marks|..]; destruct Hi as [d r ws' _ _ _ Hd|i e l _ _ Hl|]; try done;
    try (apply dispatch_writes in Hd as (e & -> & _); done); set_unfold in Hl; by destruct Hl as [->|[->|[]]].
Qed.

Definition settled_once (id text : string) st (out : Admission) : Prop :=
  let seen := id ∈ consumed_turn_ids st in
  match out with
  | duplicate_ignored => seen
  | last_resort => ¬ seen
  | consumed_quietly ws => ¬ seen ∧ ws = [W_consumed_turn_ids [id]]
  | run_graph i _ _ =>
      (seen → marks_nothing (input_writes i)) ∧ (¬ seen → marks_turn id text (input_writes i)) ∧
      consumed_turn_ids (apply_update am (input_writes i) st) = merge_consumed_turn_ids (consumed_turn_ids st) [id]
  end.
Lemma consumed_after ws st ids : consumed_written ws = Some ids →
  consumed_turn_ids (apply_update am ws st) = merge_consumed_turn_ids (consumed_turn_ids st) ids.
Proof. intros Hw. destruct st. unfold consumed_written in Hw. cbn. unfold reduced. by rewrite Hw. Qed.
Lemma settled_marks id text st i r d : id ∉ consumed_turn_ids st → marks_turn id text (input_writes i) →
  settled_once id text st (run_graph i r d).
Proof. intros Hn [Hc Hm]. split_and!; [done|by intros _|by apply consumed_after]. Qed.
Lemma settled_seen id text st r d : id ∈ consumed_turn_ids st →
  settled_once id text st (run_graph (update_only [W_consumed_turn_ids []]) r d).
Proof.
  intros Hs. split_and!; [done|done|]. rewrite (consumed_after _ _ []) by done. symmetry. apply merge_absorbed. by intros x ->%list_elem_of_singleton.
Qed.
Lemma settled_new id text st r d : settled_once id text st
  (run_graph (update_only [W_consumed_turn_ids (if seen_turn id st then [] else [id])]) r d).
Proof.
  unfold seen_turn. case_bool_decide as Hs; [by apply settled_seen|]. apply settled_marks; [done|]. split; [done|by left].
Qed.

Lemma answer_settled relayed turn id facts sn prompt node out : id ∉ consumed_turn_ids (sn_state sn) →
  answer_readback nodes route am relayed turn id facts sn prompt node = inr out →
  settled_once id (turn_text turn) (sn_state sn) out.
Proof.
  intros Hs. unfold answer_readback. cbv [mbind res_bind]. destruct (conversation_update _ _ _ _) as [|conversation]; [done|].
  destruct (readback_reply _ _ _ _ _ _ _ _ _) as [|reply]; [done|]. destruct (rb_request reply) as [r|].
  2: { intros [= <-]. apply settled_marks; [done|]. split; [done|by left]. }
  destruct (readback_set_aside_payload _ _ _ _ _ _) as [|ws] eqn:Hws; [done|]. intros [= <-].
  apply settled_marks; [done|]. unfold readback_set_aside_payload in Hws. cbv [mbind res_bind] in Hws.
  destruct (direct_dispatch id r) as [|ds] eqn:Hd; [done|]. apply dispatch_writes in Hd as (e & -> & _).
  unfold reference_writes in Hws. cbv [mbind res_bind] in Hws.
  destruct (pending_readback_reference _) as [|[]]; simplify_eq; apply marks_app; try apply admitted_marks;
    by destruct (rb_reread reply).
Qed.

(** C29 A message enters the conversation once.  Whatever a turn is admitted as, the update marks
    its message as consumed and adds at most that message; a message consumed before adds nothing
    again, marked or not, and is otherwise ignored. *)
Theorem turn_admitted_once fresh relayed turn id facts cross arrived sn out :
  turn_message_id turn = Some id →
  admit_turn nodes available route am fresh relayed turn id facts cross arrived sn = inr out →
  let seen := id ∈ consumed_turn_ids (sn_state sn) in
  match out with
  | duplicate_ignored => seen
  | last_resort => ¬ seen
  | consumed_quietly ws => ¬ seen ∧ ws = [W_consumed_turn_ids [id]]
  | run_graph i _ _ =>
      (seen → marks_nothing (input_writes i)) ∧ (¬ seen → marks_turn id (turn_text turn) (input_writes i)) ∧
      consumed_turn_ids (apply_update am (input_writes i) (sn_state sn)) =
        merge_consumed_turn_ids (consumed_turn_ids (sn_state sn)) [id]
  end.
Proof.
  intros Hid Hadm. change (settled_once id (turn_text turn) (sn_state sn) out). revert Hadm.
  assert (∀ b, seen_turn id (sn_state sn) = b → if b then id ∈ consumed_turn_ids (sn_state sn) else id ∉ consumed_turn_ids (sn_state sn))
    as Hseen by (intros b <-; unfold seen_turn; by case_bool_decide).
  unfold admit_turn. cbv zeta. destruct (automation_terminal _).
  { destruct (seen_turn _ _) eqn:Hs; specialize (Hseen _ eq_refl); intros [= <-]; [done|].
    apply settled_marks; [done|]. split; [done|by right; left]. }
  cbv [mbind res_bind]. destruct (validated_pending_recovery _ _ _) as [|marker]; [done|].
  assert (∀ r d, id ∉ consumed_turn_ids (sn_state sn) →
    settled_once id (turn_text turn) (sn_state sn) (run_graph (update_only [W_consumed_turn_ids [id]]) r d)) as Hcons
    by (intros; apply settled_marks; [done|]; split; [done|by left]).
  destruct cross.
  { destruct (isSome marker); [intros [= <-]; apply settled_new|].
    destruct (seen_turn _ _) eqn:Hs; specialize (Hseen _ eq_refl); [by intros [= <-]|].
    repeat case_match; intros [= <-]; by auto. }
  destruct marker as [m|].
  { destruct (bool_decide _ && negb _) eqn:Hb; intros [= <-]; [|apply settled_new].
    apply andb_true_iff in Hb as [_ Hs%negb_true_iff]. specialize (Hseen _ Hs); cbn in Hseen.
    apply settled_marks; [done|]. split; [done|by right; left]. }
  destruct (seen_turn _ _) eqn:Hs; specialize (Hseen _ eq_refl).
  { destruct (is_checkpointed_route_redelivery _ _ _); intros [= <-]; [by apply settled_seen|done]. }
  destruct (sn_interrupts sn) as [|i rest].
  - destruct (negb _); [by destruct (is_pristine_principal_continuation _ _); intros [= <-]; auto|].
    destruct (negb _); [by intros [= <-]|].
    destruct (ordinary_turn_payload _ _ _ _ _ _ _ _) as [|ws] eqn:Hw; [done|]. intros [= <-].
    apply settled_marks; [done|]. by eapply ordinary_marks.
  - destruct (interrupt_node _ _) as [node|]; [|by intros [= <-]]. destruct (bool_decide _); [by apply answer_settled|].
    intros [= <-]. by apply Hcons.
Qed.
End once.

(** ** The turn reaches its owner *)
Lemma envelope_stable turn mode r o e : make_CapabilityDispatchEnvelope turn mode r o = inr e →
  make_CapabilityDispatchEnvelope (de_turn_id e) (de_mode e) (de_request e) (observed_invocation_id e) = inr e.
Proof.
  intros He. destruct (envelope_fields _ _ _ _ _ He) as (Ht & Hm & Hr & Ho).
  unfold make_CapabilityDispatchEnvelope in *. cbv [mbind res_bind] in *.
  rewrite Ht, Hr, Ho in He. rewrite (stable_text _ _ Ht), (stable_mapO _ stable_request _ _ Hr), (stable_opt_text _ _ Ho).
  by rewrite Hm.
Qed.
Lemma shop_resolves q : ∃ node, resolve shop_registry q = inr node ∧ node ∈ entry_nodes shop_registry.
Proof.
  destruct every_request_has_owner as (r & Hr & Hq). unfold shop_registry. rewrite Hr.
  destruct (Hq q) as (node & H1 & H2 & _). by exists node.
Qed.
Lemma made_once id r t : non_empty_text id = inr id → validate_request r = inr r → non_empty_text t = inr t →
  make_ActiveInvocation id r t = inr (mkInvocation id r t).
Proof. intros Hi Hr Ht. unfold make_ActiveInvocation. cbv [mbind res_bind]. by rewrite Hi, Hr, Ht. Qed.

Section dispatched.
Context {P PS R E : Type} `{OtpPort P} `{SessionPersistence PS E}.
Context (policy : PolicyContext) (am : list Message → list Message → list Message).
Notation CC := (CallerContext P PS R).
Implicit Types (st : ReasoningState) (env : node_env E) (c : CC).

(** The state the entry's router sees: the turn's update applied, then the entry node's. *)
Definition after_entry (ws : list Write) st : ReasoningState :=
  apply_update am entry_update (apply_update am ws st).
(** A conversation between two turns: no recovery, and no instruction left. *)
Definition between_turns st : Prop :=
  automation_terminal st = false ∧ pending_recovery st = None ∧ pending_capability_dispatch st = None ∧
  pending_router_no_action st = None ∧
  ∀ i, active_invocation st = Some i → non_empty_text (invocation_id i) = inr (invocation_id i).

Lemma after_entry_fields st id text conversation extra : id ∉ consumed_turn_ids st →
  consumed_written extra = None → messages_written extra = None →
  let st1 := after_entry (admitted_turn id text conversation ++ extra) st in
  last (consumed_turn_ids st1) = Some id.
Proof.
  intros Hid Hc Hm st1. subst st1. unfold after_entry.
  assert (consumed_turn_ids (apply_update am entry_update (apply_update am (admitted_turn id text conversation ++ extra) st))
    = consumed_turn_ids (apply_update am (admitted_turn id text conversation ++ extra) st)) as -> by done.
  rewrite (consumed_after _ _ _ [id]).
  2: { unfold consumed_written in *. rewrite written_app, Hc. done. }
  cbn. destruct (decide _) as [|]; [done|]. by rewrite last_snoc.
Qed.

(** What the owner is given: the open request, unchanged, or the one the router found for this turn. *)
Definition reaches_owner (decided : RouteDecision → Prop) env (id : string) st st1 c : Prop :=
  route_after_entry st1 = inr "capability_dispatch" ∧ ∃ ws dest inv,
    (∀ ans, capability_dispatch shop_registry env st1 (ans, c) = ((ans, c), Done (ws, dest))) ∧
    (dest = "identity_assemble" ∨ dest ∈ entry_nodes shop_registry) ∧
    active_invocation (apply_update am ws st1) = Some inv ∧
    pending_capability_dispatch (apply_update am ws st1) = None ∧
    (active_invocation st = Some inv ∨
     opened_turn_id inv = id ∧ resolve shop_registry (request inv) = inr dest ∧
     ∃ d r, decided d ∧ rd_decision d = direct_route ∧ rd_request d = Some r ∧ validate_request r = inr (request inv)).
(** The turn is answered with the line of its reason, or the conversation goes to a person. *)
Definition spoken_for st1 c : Prop :=
  route_after_entry st1 = inr "router_no_action" ∧ ∃ ws dest,
    (∀ ans, router_no_action policy st1 (ans, c) = ((ans, c), Done (ws, dest))) ∧
    pending_router_no_action (apply_update am ws st1) = None ∧
    ((dest = END ∧ ∃ reason, say (ROUTER_NO_ACTION_LINES reason) ∈ ws) ∨
     (dest = "handover" ∧ handover (apply_update am ws st1) ≠ None)).

Lemma continued_dispatch st id i e l env c conversation text :
  between_turns st → non_empty_text id = inr id → id ∉ consumed_turn_ids st → active_invocation st = Some i →
  continue_dispatch id i = inr e → l ∈ [[]; [W_clarification_liveness None]] → ∀ decided,
  reaches_owner decided env id st
    (after_entry (admitted_turn id text conversation ++ [W_pending_capability_dispatch (Some e)] ++ l) st) c.
Proof.
  intros (Ht & Hrec & Hd & Hn & Hinv) Hid Hnew Hi He Hl decided.
  set (st1 := after_entry _ _).
  assert (last (consumed_turn_ids st1) = Some id) as Hlast
    by (apply after_entry_fields; [done|..]; set_unfold in Hl; by destruct Hl as [->|[->|[]]]).
  destruct (envelope_fields _ _ _ _ _ He) as (H1 & H2 & H3 & H4). rewrite Hid in H1. injection H1 as H1.
  assert (automation_terminal st1 = false ∧ pending_recovery st1 = None ∧ pending_capability_dispatch st1 = Some e ∧
    active_invocation st1 = Some i) as (Ht1 & Hr1 & Hd1 & Hi1).
  { clear Hlast. subst st1. destruct st. cbn in *. set_unfold in Hl. by destruct Hl as [->|[->|[]]]. }
  clearbody st1. split.
  { unfold route_after_entry. by rewrite Ht1, Hr1, Hd1. }
  assert (∃ dest, continuation_destination shop_registry st1 i = inr dest ∧
    (dest = "identity_assemble" ∨ dest ∈ entry_nodes shop_registry)) as (dest & Hdest & Hin).
  { unfold continuation_destination. case_bool_decide; [eauto|]. destruct (shop_resolves (request i)) as (node & -> & ?). eauto. }
  exists [W_pending_capability_dispatch None], dest, i. split_and!; [|done| | |by left].
  - intros ans. unfold capability_dispatch. rewrite Hd1, (envelope_stable _ _ _ _ _ He), <-H1, Hlast.
    rewrite bool_decide_eq_true_2 by done. cbn [negb]. rewrite H2, Hi1.
    unfold opt_text in H4. rewrite (Hinv i Hi) in H4. cbv [mbind res_bind] in H4. injection H4 as H4.
    rewrite <-H4, bool_decide_eq_true_2 by done. by rewrite Hdest.
  - by destruct st1.
  - by destruct st1.
Qed.

Lemma directed_dispatch st id d r ws env c conversation text (decided : RouteDecision → Prop) :
  between_turns st → non_empty_text id = inr id → id ∉ consumed_turn_ids st →
  non_empty_text (ne_fresh env 0) = inr (ne_fresh env 0) →
  decided d → rd_decision d = direct_route → rd_request d = Some r → direct_dispatch id r = inr ws →
  reaches_owner decided env id st (after_entry (admitted_turn id text conversation ++ ws) st) c.
Proof.
  intros (Ht & Hrec & Hd & Hn & Hinv) Hid Hnew Hfresh Hdec Hdir Hrq Hws.
  unfold direct_dispatch in Hws. cbv [mbind res_bind] in Hws.
  destruct (make_CapabilityDispatchEnvelope _ _ _ _) as [|e] eqn:He; [done|]. injection Hws as <-.
  set (st1 := after_entry _ _).
  assert (last (consumed_turn_ids st1) = Some id) as Hlast by (by apply after_entry_fields).
  destruct (envelope_fields _ _ _ _ _ He) as (H1 & H2 & H3 & H4). rewrite Hid in H1. injection H1 as H1.
  assert (automation_terminal st1 = false ∧ pending_recovery st1 = None ∧ pending_capability_dispatch st1 = Some e)
    as (Ht1 & Hr1 & Hd1) by (clear Hlast; subst st1; by destruct st).
  clearbody st1. split.
  { unfold route_after_entry. by rewrite Ht1, Hr1, Hd1. }
  cbn [mapO] in H3. cbv [mbind res_bind] in H3. destruct (validate_request r) as [|t] eqn:Hv; [done|]. injection H3 as H3.
  destruct (shop_resolves t) as (dest & Hdest & Hin).
  exists (clear_automation_state ++ [W_active_invocation (Some (mkInvocation (ne_fresh env 0) t id))]), dest,
    (mkInvocation (ne_fresh env 0) t id). split_and!; [|by right|by destruct st1|by destruct st1|].
  - intros ans. unfold capability_dispatch. rewrite Hd1, (envelope_stable _ _ _ _ _ He), <-H1, Hlast.
    rewrite bool_decide_eq_true_2 by done. cbn [negb]. rewrite H2, <-H3, Hdest.
    rewrite (made_once _ t id Hfresh (stable_request _ _ Hv) Hid). done.
  - right. split_and!; [done|done|]. exists d, r. by split_and!.
Qed.

Lemma unplaced_spoken st id turn_id reason fresh c conversation text :
  between_turns st → non_empty_text id = inr id → id ∉ consumed_turn_ids st → non_empty_text id = inr turn_id →
  spoken_for (after_entry (admitted_turn id text conversation ++
    [W_pending_router_no_action (Some (mkNoAction turn_id (no_action_owner fresh st) reason))]) st) c.
Proof.
  intros (Ht & Hrec & Hd & Hn & Hinv) Hid Hnew Htid. rewrite Hid in Htid. injection Htid as <-.
  set (owner := no_action_owner fresh st). set (st1 := after_entry _ _).
  assert (last (consumed_turn_ids st1) = Some id) as Hlast by (by apply after_entry_fields).
  assert (automation_terminal st1 = false ∧ pending_recovery st1 = None ∧ pending_capability_dispatch st1 = None ∧
    pending_router_no_action st1 = Some (mkNoAction id owner reason) ∧ active_invocation st1 = active_invocation st)
    as (Ht1 & Hr1 & Hd1 & Hn1 & Hi1).
  { clear Hlast. subst st1. clearbody owner. destruct st. by cbn in *. }
  clearbody st1. split.
  { unfold route_after_entry. by rewrite Ht1, Hr1, Hd1, Hn1. }
  assert (match owner with
    | InvocationClarificationOwner i => match active_invocation st1 with Some inv => String.eqb i (invocation_id inv) | None => false end
    | RouterClarificationOwner _ => negb (isSome (active_invocation st1)) end = true) as Howned.
  { subst owner. unfold no_action_owner. rewrite Hi1. destruct (active_invocation st); [apply String.eqb_refl|].
    by destruct (clarification_liveness st) as [[[] ?]|]. }
  assert (∀ ans, router_no_action policy st1 (ans, c) = ((ans, c), Done
    (let step := advance_clarification st1 owner (router_clarification_reask_max policy) in
     if st_exhausted step then (clear_automation_state ++ [hand_to hr_other ROUTING_FAILURE_POLICY], "handover")
     else ([W_pending_router_no_action None; W_clarification_liveness (st_liveness step);
            say (ROUTER_NO_ACTION_LINES reason)], END)))) as Hrun.
  { intros ans. unfold router_no_action. rewrite Hn1. cbn [na_turn_id na_owner na_reason].
    rewrite Hlast, bool_decide_eq_true_2 by done. cbn [negb]. rewrite Howned. cbn [negb].
    by destruct (st_exhausted _). }
  cbv zeta in Hrun. destruct (st_exhausted _).
  - do 2 eexists. split; [exact Hrun|]. split; [by destruct st1|]. right. split; [done|]. by destruct st1.
  - do 2 eexists. split; [exact Hrun|]. split; [by destruct st1|]. left. split; [done|]. exists reason.
    right; right; left.
Qed.
End dispatched.

(** C22 A routed turn reaches its owner.  Between two turns, whatever the router answers and whatever
    the caller said, the update a new turn is admitted with takes the graph's entry to the
    dispatch, which accepts it: the open request goes on unchanged, or the request the router
    found is opened for this very turn at its own entry; or to the node for turns nobody can
    place, which speaks its line or hands over to a person.  No such turn raises at the entry,
    and none is refused as stale. *)
Theorem routed_turn_reaches_owner {P PS R E} `{OtpPort P} `{SessionPersistence PS E} policy am
    available route fresh relayed turn id facts st ws (env : node_env E) (c : CallerContext P PS R) :
  between_turns st → turn_message_id turn = Some id → non_empty_text id = inr id → id ∉ consumed_turn_ids st →
  non_empty_text (ne_fresh env 0) = inr (ne_fresh env 0) →
  ordinary_turn_payload available route am fresh relayed turn st facts = inr ws →
  let st1 := after_entry am ws st in
  reaches_owner am (λ d, ∃ heard, route (bool_decide (facts = Some false)) turn (apply_update am [W_conversation heard] st) = inr (inl d))
    env id st st1 c ∨
  spoken_for policy am st1 c.
Proof.
  intros Hst Hturn Hid Hnew Hfresh Hws. destruct (ordinary_spec _ _ _ _ _ _ _ _ _ _ Hturn Hws) as (conversation & extra & -> & Hi).
  destruct Hi as [d r ws' Hdec Hdir Hrq Hd|i e l Hi He Hl|turn_id reason Ht].
  - left. eapply directed_dispatch; eauto.
  - left. by eapply continued_dispatch.
  - right. by apply unplaced_spoken.
Qed.

(** ** Examples *)
(** A caller who answers the checkout's readback, and one who asks to see the cart next. *)
Definition says (text : string) : CommittedTurn := mkTurn text (Some "t-2").
Definition no_route (_ : bool) (_ : CommittedTurn) (_ : ReasoningState) : res Resolution := inr (inr routing_unavailable).
Definition to_cart (_ : bool) (_ : CommittedTurn) (_ : ReasoningState) : res Resolution :=
  inr (inl (mkRoute direct_route (Some ViewCart) None)).
Definition answering text := admit_turn wired_nodes (λ _, true) no_route app "r-1" None (says text) "t-2" (Some false) false ["i-1"]
  (place_paused true "cart_confirm").

Lemma readback_needs_the_callers_yes_witness :
  ∃ a, answering "yes please" = inr (run_graph (resume a [W_consumed_turn_ids ["t-2"];
         W_conversation [mkEntry caller "yes please" "t-2" None]]) (Some "cart_confirm") None) ∧
    answer_text a = "yes please" ∧ classify_confirmation a false = inr (mkDecision (decided yes) None).
Proof.
  assert (paused wired_nodes (place_paused true "cart_confirm") "t-2" ["i-1"] "Just to confirm: shall I place it?" "cart_confirm") as Hp.
  { split_and!; [done|done|apply (bool_decide_unpack _); by vm_compute|vm_compute; reflexivity|].
    exists (mkInterrupt "i-1" "Just to confirm: shall I place it?"). split_and!; [done|done|by left]. }
  destruct (readback_needs_the_callers_yes wired_nodes (λ _, true) no_route app "r-1" None (says "yes please") "t-2"
    (Some false) ["i-1"] _ _ _ Hp) as [_ Hout].
  assert (∃ out, answering "yes please" = inr out ∧ out = run_graph (resume (turn_answer (says "yes please") (Some false) None)
    [W_consumed_turn_ids ["t-2"]; W_conversation [mkEntry caller "yes please" "t-2" None]]) (Some "cart_confirm") None)
    as (out & Ha & ->) by (eexists; split; [vm_compute; reflexivity|reflexivity]).
  specialize (Hout _ Ha). destruct Hout as (_ & _ & Ht & _). eexists. split; [exact Ha|]. split; [exact Ht|by vm_compute].
Defined.

Lemma turn_admitted_once_witness :
  admit_turn wired_nodes (λ _, true) no_route app "r-1" None (mkTurn "yes" (Some "t-1")) "t-1" (Some false) false ["i-1"]
    (place_paused true "cart_confirm") = inr duplicate_ignored ∧ "t-1" ∈ consumed_turn_ids cut_off.
Proof.
  assert (admit_turn wired_nodes (λ _, true) no_route app "r-1" None (mkTurn "yes" (Some "t-1")) "t-1" (Some false)
    false ["i-1"] (place_paused true "cart_confirm") = inr duplicate_ignored) as Ha by (vm_compute; reflexivity).
  split; [exact Ha|]. exact (turn_admitted_once wired_nodes (λ _, true) no_route app "r-1" None (mkTurn "yes" (Some "t-1")) "t-1" (Some false)
    false ["i-1"] (place_paused true "cart_confirm") duplicate_ignored eq_refl Ha).
Defined.

Lemma routed_turn_reaches_owner_witness :
  ∃ ws, ordinary_turn_payload (λ _, true) to_cart app "r-1" None (says "show me my cart") initial_state (Some false) = inr ws ∧
  route_after_entry (after_entry app ws initial_state) = inr "capability_dispatch".
Proof.
  assert (∃ ws, ordinary_turn_payload (λ _, true) to_cart app "r-1" None (says "show me my cart") initial_state (Some false)
    = inr ws) as [ws Hws] by (eexists; vm_compute; reflexivity).
  exists ws. split; [exact Hws|].
  assert (between_turns initial_state) as Hst by by split_and!.
  assert (non_empty_text (ne_fresh late_env 0) = inr (ne_fresh late_env 0)) as Hf by by vm_compute.
  destruct (routed_turn_reaches_owner cart_policy app (λ _, true) to_cart "r-1" None (says "show me my cart") "t-2"
    (Some false) initial_state ws late_env (shop_caller false) Hst eq_refl eq_refl ltac:(by apply not_elem_of_nil) Hf Hws)
    as [[Hr _]|[Hr _]]; [exact Hr|].
  assert (ordinary_turn_payload (λ _, true) to_cart app "r-1" None (says "show me my cart") initial_state (Some false)
    = inr ws → route_after_entry (after_entry app ws initial_state) ≠ inr "router_no_action") as Hne
    by (clear; intros H; vm_compute in H; assert (∀ A B (x y : B), @inr A B x = inr y → x = y) as Hinj by congruence;
        apply Hinj in H; subst ws; by vm_compute).
  by destruct (Hne Hws).
Defined.
